(* ===== verification/_CoqProject ===== *)
-Q . S2P
Prelude.v
Queue.v
Rbtree.v
RbtreeRep.v
RbtreeInsert.v
RbtreeMap.v
RbtreeDelete.v
RbtreeUnlink.v
Timer.v
TimerSpec.v
Bytes.v
Text.v
Tools.v
NetBuf.v
Sql.v
NetMap.v
State.v
Login.v
Upload.v
Download.v
BusiFile.v
Net.v
Notice.v
Busi.v
Server.v
Fields.v
LoginSpec.v
UploadSpec.v
DownloadSpec.v
FileSpec.v
NetMapSpec.v
SqlSpec.v
BusiSpec.v
Store.v
HeapLogic.v
Mem.v
MemRep.v
MemBlocks.v
MemPool.v
MemSpec.v
MemLife.v
ProxyText.v
ProxyNet.v
ProxyState.v
ProxyHttp.v
ProxyMsg.v
ProxyRsp.v
ProxyLoop.v
ProxyRelay.v
ProxyAns.v
ProxyReq.v
ProxyEnd.v
ProxyFail.v
ProxyUp.v
Bitmap.v
DsFile.v
DsBlock.v
BlockStore.v
BlockLoad.v
DataMgr.v
StoreInv.v
StoreBlocks.v
StoreNew.v
StoreData.v
StoreRefine.v
StoreBoot.v
StoreFormat.v
StoreMain.v
DsMsg.v
DsTask.v
DsWire.v
DsTaskSpec.v
DsMain.v
WitnessCore.v
Demo.v
WitnessMap.v
WitnessBusi.v
WitnessMem.v
WitnessProxy.v
WitnessStore.v
