(* ===== verification/Prelude.v ===== *)
(** * The TEFS file store: name service, proxy and data servers

    TEFS (GFS in the sources) is a distributed file store: a name service
    (src/nameservice), data servers (src/dataserver) and an HTTP proxy
    (src/gvfsproxy).  This library models the name service, the proxy's own
    protocol code, and of the data servers the block store (diskmanager/) and the
    tasks that serve connections (message/, src/), and proves what their parts
    promise.  The name service and the proxy are
    single-threaded event loops.  In the name service, connections receive
    packets, every packet is a request on files, blocks or data servers, and the
    answer comes from a MySQL database and from the table of connected data
    servers.  The proxy turns a client's HTTP request into requests to the name
    service and to a data server, relays the bytes of the file, and answers the
    client.  A data server keeps the blocks of files in files of a fixed size that
    it makes once, with a super block file that says which of them are in use; each
    connection has a session that collects a request, and a task that serves it.

    ** How the program is modelled

    C functions are functions in the state monad [M] below.  [None] is
    undefined behaviour (a null or wild pointer, an access outside a block, a
    division by zero, a use after free) or a loop that outruns its fuel, so
    every theorem that ends in [Some] also says that the code is free of these
    and ends.  Integers are [Z] with the wrap-around of their width written out
    ([u32], [u64], [i32]); blocks of memory are lists of bytes of the size that
    was allocated, read and written at the offsets of the C structures in
    little-endian order (Bytes.v).  Linked structures live in stores from
    addresses to their fields, so aliasing and sharing are those of the code.

    ** The files and the parts of the program

    - Prelude.v: the monad, machine integers, automation, lemmas on lists.
    - Queue.v: core/gfs_queue.h and .c, intrusive rings with an
      insertion sort and the search of the middle.
    - Rbtree.v: core/gfs_rbtree.h and .c.  RbtreeRep.v (trees in the store, as a
      subtree in a context, and one operation at a time on a zipper),
      RbtreeInsert.v, RbtreeMap.v (insertion, lookup, minimum), RbtreeDelete.v
      (the repair loop), RbtreeUnlink.v (deletion).
    - Timer.v: event/gfs_timer.h and .c; TimerSpec.v: timers as an ordered queue.
    - Bytes.v, Text.v, Tools.v: blocks, [sprintf] and [atoi] of decimal numbers,
      core/gfs_tools.c.
    - NetBuf.v: the buffers of a connection, the packet scanner of
      net/gfs_net.c, the socket loops of net/gfs_net_tcp.c and the packet loop
      of core/gfs_handle.c, with their theorems.
    - Sql.v: sql/gfs_dbpool.c and sql/gfs_sql.c; SqlSpec.v: the balance of the
      pool and the sizes of the statements.
    - NetMap.v: net/gfs_net_map.c; NetMapSpec.v: it refines a finite map.
    - State.v: the state of the service [svc], of a request [busi], and the
      class [Env] of what the service takes from outside, and what the request
      handlers share.
    - Login.v, Upload.v, Download.v, BusiFile.v: the ten requests of busi/, each
      as the three functions parse, handle and tobuf.  Fields.v: messages as
      sequences of fields and the tactic [bsteps] that runs handlers on them.
      LoginSpec.v, UploadSpec.v, DownloadSpec.v, FileSpec.v: what every request
      means and that the handlers do it.
    - Net.v: the connection pool and the close path of net/gfs_net.c, event
      registration of event/gfs_event.c, and core/gfs_handle.c.
      Notice.v: busi/gfs_busi_notice.c.  Busi.v: busi/gfs_busi.c.  Server.v:
      accept and the event loop.
    - BusiSpec.v: what programs leave alone, the dispatcher and the sending of its
      answers.
    - Store.v: the memory of the allocator as words at addresses, with blocks of
      the C library.  HeapLogic.v: a separation logic on it, as a logic of the
      Iris proof mode, with weakest preconditions.  Mem.v: core/gfs_mem.c, every
      function.  MemRep.v (tags, rings, free lists), MemBlocks.v (blocks in a
      page, place and coalesce), MemPool.v (pages and the invariant of a pool),
      MemSpec.v (malloc and free), MemLife.v (create, reset, destory).
    - ProxyText.v: core/gvfs_utils.c and core/gvfs_string.c of the proxy (readers
      of integers, hexadecimal, base 64, values of a query).  ProxyNet.v:
      os/unix/gvfs_recv.c and gvfs_send.c.  ProxyState.v: the state of one client,
      [px], and the class [ProxyEnv].  ProxyHttp.v: connecting and closing, body
      buffers, HTTP answers.  ProxyMsg.v: the requests to the name service and to
      data servers (private/gvfs_http_*.c).  ProxyRsp.v: their answers
      (private/gvfs_ns_file_*.c, gvfs_ds_file_*.c).  ProxyLoop.v: the handlers of
      read events, the relay of bodies and the dispatcher.  ProxyRelay.v,
      ProxyAns.v, ProxyReq.v, ProxyFail.v: their theorems.
      ProxyEnd.v and ProxyUp.v: the proxy and the name service composed.
    - Bitmap.v: diskmanager/src/bit_map.cpp, and that it is a set of numbers.
      DsFile.v: common/file_op.cpp over a disk of files, with its theorems.
      DsBlock.v: the head of a block file, superblock_impl.cpp and
      physical_block.cpp.  BlockStore.v: the operations of blockfile_manager.cpp and
      logic_block.cpp on blocks.  BlockLoad.v: counting, formatting and start-up.
      DataMgr.v: data_handle.cpp and data_management.cpp.
    - StoreInv.v: the names of block files and the invariant [store_ok] of a
      running block store.  StoreBlocks.v, StoreNew.v, StoreData.v: the lookups, the
      creation and deletion of blocks, and transfers of data under any disk.
      StoreRefine.v: the abstract store [vstore], its steps [spec_step], what a
      failing disk adds [fault_step], and the refinement.  StoreBoot.v: start-up on
      the files of a store.  StoreFormat.v: formatting.  StoreMain.v: the theorems.
    - DsMsg.v: message/, the integers of serialization.h and each message as a list of
      typed fields, with the lemmas on writing and reading them.  DsTask.v: the sockets
      (DSTCPServerSocket.cpp, Socket.cpp), the tasks for uploads (DSClientPutTask.cpp,
      DSPutTask.cpp, one [put_task]), downloads (DSClientGetTask.cpp), copies
      (DSPushTask.cpp), the notices and the dispatch of messages
      (DSMessageProcess.cpp), sessions (DSTCPSession.cpp) and the two messages of
      NameServersession.cpp.  DsWire.v: the messages between the three programs.
      DsTaskSpec.v: sockets that do not break, writing a block in pieces, the turns of
      an upload.  DsMain.v: sessions, downloads and the theorems on connections.
    - Demo.v and the Witness files: concrete runs of every theorem.

    Interactions: Server.v calls the timer loop, the delay list and the packet
    loop; the packet loop of NetBuf.v is generic in the state and in the function
    it hands packets to, and Busi.v ties it to [gfs_busi_handle]; a request works
    on its own record [busi] over the service [svc], reaching the database, the
    map and the connections through [in_sql], [in_map] and [get_conn].  The bytes
    that the proxy puts on the wire ([AUp]) are those that [busi_case] gets, and the
    bytes that [busi_case] leaves in [sbuf] are those that the proxy receives.
    In the data server, DataMgr.v calls BlockStore.v, which works on a [bfm]: the maps
    of logic and physical blocks, the two bitmaps, the super block, two heaps of
    block objects and the [disk]; a physical block reads and writes its file with the
    operations of DsFile.v ([in_pb]), the super block with those of DsBlock.v
    ([in_impl]).  A task of DsTask.v works on the process [dsv] ([on_ds]), which has the
    store ([on_store]), on its socket ([on_sock]) and on itself; [MessageTransaction]
    makes tasks, which take over the socket of the session, and [events] runs a task at
    each event until it has ended.  The notices that DsTask.v puts into its queue are the
    requests of FileSpec.v to the name service, and [ds_upload_req] is what the proxy
    sends in ProxyUp.v.

    ** What the theorems show

    - Queue.v: sorting ends, is a stable permutation and writes nothing else.
    - RbtreeMap.v, RbtreeUnlink.v: the red-black invariant and the in-order
      sequence under insertion and deletion, lookup.
    - TimerSpec.v: timers are an ordered queue; the loop runs exactly the due
      ones; a callback that removes its own timer crashes it.
    - Tools.v: two round trips.
    - NetBuf.v: the scanner finds complete packets, stays inside its data, and
      loses fragmented ones; the packet loop hands over a stream in order.
    - LoginSpec.v to FileSpec.v: each request refines an abstract effect on the
      database, the map and the connection, and the bytes of its answer are
      given field by field.
    - BusiSpec.v: the answer reaches the wire once, whatever pieces the socket
      takes; a connection that breaks meanwhile leads to a use after free.
    - MemSpec.v, MemLife.v: an allocation belongs to its caller
      alone, is as large as asked for and aligned; freeing joins free neighbours;
      the pool's invariant is established by create and kept by everything;
      reset gives exactly the large blocks and the pages that came after the start back
      to the C library, destory the large blocks and all pages, each once: the memory in
      use afterwards is what was in use before less these blocks.  Nothing is read or
      written outside a block, whatever the clients wrote into theirs.
    - Bitmap.v: a bitmap is a set with its size.  DsFile.v: reads and writes in pieces
      are those in one piece, and what an error leaves.
    - StoreMain.v: reads, writes, creations and deletions of blocks refine a map from
      names to blocks under every behaviour of the disk; what was acknowledged is
      read back; a restart finds the store that was left, and from formatting on the
      lives of two processes are those of one map; a new block is entered everywhere,
      or in memory nowhere but in the counters, and after an error only its own file and
      that of the super block may still hold it.
    - DsWire.v: the bytes of what a data server writes as the requests of the name
      service, and of the commands and answers it reads; where the free space is in
      KiB and where in MiB, and that the two programs disagree on its place in the
      notice of a deleted block.  DsMain.v: an upload in any pieces is stored, acknowledged, reported and
      copied, and a download sends exactly the block, so what one connection uploads
      another downloads; an upload for which there is no room is acknowledged and
      reported all the same.
    - NetMapSpec.v: get, add and remove refine a finite map while free nodes are
      left; they run out.
    - SqlSpec.v: connections of the database are not lost; the query functions
      stay inside the buffers of their statements for seven statements, and exactly
      when the other three overrun them.
    - ProxyText.v: the readers are those of the two byte orders; hexadecimal and
      base 64 round trips.  ProxyNet.v: sending ends and loses nothing.
    - ProxyRelay.v: both ways, a body is relayed in order and once; each call takes all
      that is waiting, and when the counter reaches the size of the body everything is
      sent; what happens to bodies after the counters were reset.  ProxyAns.v: every answer to a client
      has the right length and fits its buffer.
    - ProxyFail.v: answers in pieces, requests that cannot be sent, downloads without
      room for the servers, the choice of a handler; the response buffer is well
      typed whatever arrives.
    - ProxyEnd.v, ProxyUp.v: a query and an upload from the client's URL through both
      programs to the data server and back to the client.

    ** Parameters

    [Mysql] is the client library of the database: a statement and the database
    give a reply and a new database.  [Env] gives the allocator by its contract
    (a block at least as large as asked for, or nothing; nothing for size 0),
    [epoll_ctl], the addresses of static nodes, the fuel [env_fuel] of walks in
    lists and trees, and what memory outside the nodes of the map holds.  [recv],
    [send], [accept] and [epoll_wait] are scripts of outcomes; a script that runs
    out is a call that blocks.  The clock is a field of the world.  [Libc] is
    [malloc] and [free] of the C library under the pool: a new block is aligned,
    overlaps nothing in use and has arbitrary contents, or there is none.

    [ProxyEnv] is the configured address of the name service and the contents of new
    blocks and of uninitialised arrays, which may be anything.  The outcomes of
    connecting ([px_dials]) and of other calls that can fail ([px_ask]) are scripts,
    and so are those of the sockets.  The trace [px_trace] records what happens
    outside, in order.

    The [disk] of a data server maps paths to contents and has a script [d_os] of
    outcomes of system calls: a short transfer or an error; when the script has run
    out, calls do all they are asked.  A read past the end of a file gives less, a
    file that is not there is an error or made, as the flags say.

    [DsEnv] is what the tasks take from outside: [malloc], the contents of memory that was
    never written, the field RequestId that is never set, and the server's preferences.
    The scripts of a socket hold what [recv] brings and how much [send] takes; they give
    [EAGAIN] and take everything once they have run out.  Connecting has an argument for
    its outcome.  The theorems on connections ask for sockets that do not break
    ([calm], [sender_ok]) and for a disk that works.

    Programs of Mem.v have outcomes of their own: a result, [NoMem] and [Corrupt]
    where the code calls [exit], and [Crash] for undefined behaviour.  A triple
    ([triple] in HeapLogic.v) says that a run ends with a result that satisfies
    its postcondition, or with [NoMem]; [Corrupt] and [Crash] are excluded.  Assertions
    hold of larger memories too, so [triple] does not show that blocks are freed;
    [triple_frees] and its weakest precondition [wpf] also name the blocks that a run
    gives back to the C library, and say that the memory in use afterwards is that
    before less these blocks.  The
    request handlers do not run on this memory: they see the pool as the contract
    in [Env].

    ** Fuel

    Walks in rings and trees take one unit per node, and the theorems ask for
    more fuel than there are nodes (for trees, more than the number of nodes, which
    bounds the height); the timer loop takes one unit per expiry; the sending loop
    of an answer that fits the buffer takes two; the packet scanner computes its
    own bound from the data.  A loop of Mem.v over a ring has the number of words in
    memory as its fuel ([fuelled]), which no ring exceeds.  The receiving loops of
    the proxy take one unit for each call that brings at least one byte, and start
    with one more than their script holds bytes; the sending loop takes one for each
    outcome of its script.  Writing and reading a block of a data server start with the
    number of bytes, since every turn moves at least one; a transfer of a file tries
    five times, as the code does; a session and a task take one unit for each turn of
    their loop, so the theorems ask for more than there are bytes to come or to send, and
    for more events than the scripts of the socket have outcomes; the chain of extension blocks is followed for as
    many turns as there are blocks.  No theorem assumes that a program returns, except
    those that say which states it can reach.

    ** Hypotheses of the block store

    The geometry of a store ([geo_ok]) has a mount point of at most 127 ordinary
    characters and block counts and sizes that fit 32 bits; there are no extension
    blocks, which the code switches off (EXTEND_SUPPORT).  Formatting begins where no
    block files are, with the reserve offset 0 of the configuration ([fs_ok]).
    The name (0, 0) is left out where a restart is concerned: it marks a free block
    on disk, so a block of that name is lost.  Failing blocks are those of the set
    [E] of the error bitmap.

    ** Not modelled

    - core/gfs_global.c (reading the configuration), core/gfs_daemon.c, gfs.c,
      core/gfs_log.c: system calls and output; the values they set are fields of
      the world.
    - gfs_net_tcp_listen, gfs_net_tcp_unlisten, gfs_event_loop_create,
      gfs_event_loop_destory, gfs_mysql_pool_free, gfs_mysql_free_result,
      gfs_net_fd_noblock, gfs_net_fd_reuse: they only create or release system
      objects.
    - test/: a manual client.
    - the proxy's HTTP parser (http/gvfs_http_parse.c), a third-party parser copied
      into the tree, and gvfs_http_process_request, which runs it over the head of a
      request: the theorems start with the path and the query that it found.
    - the proxy's event loop, memory pools, configuration and processes, copies of
      nginx code; its client of an object store (cos/), an argument of the
      dispatcher.
    - of the data server: its streaming framework (CommonUtilitiesLib/ and APIs, a
      library of another project, but for the reading and writing of a socket),
      which also decides when a task runs; the loop of its session with the name
      service, start-up, preferences, statistics and tests; the overflow of the stack by
      the constructor of DsRegisterRes (message/NsMessage.h), after which nothing is
      defined; of diskmanager/, directories (the model has paths
      only), locks (one thread runs at a time), and the rest of common/.

    ** Plan

    Next: the session of a data server with the name service, the task for copies
    against the task that receives them, the head of a request in the proxy, a download
    through both programs, the contract of [Env] from the
    theorems on the pool, an invariant of the connection pool through a whole turn
    of the event loop, and the messages of Notice.v field by field. *)
From Stdlib Require Export ZArith Lia.
From stdpp Require Export base tactics numbers gmap list.

#[global] Open Scope Z_scope.

(** ** A state monad with undefined behaviour

    The C code is modelled by functions that pass the memory they read and
    write explicitly.  [None] stands for undefined behaviour or a crash: a
    dereference of a pointer that is not mapped, an access outside an
    allocated block, a division by zero, or a loop that outruns the fuel it
    was given.  Every correctness theorem therefore states that the result is
    [Some]. *)

Definition M (S A : Type) : Type := S → option (A * S).

#[export] Instance M_ret {S} : MRet (M S) := λ A x s, Some (x, s).
#[export] Instance M_bind {S} : MBind (M S) := λ A B f m s,
  match m s with
  | Some (x, s') => f x s'
  | None => None
  end.

Definition ub {S A} : M S A := λ _, None.
Definition get {S} : M S S := λ s, Some (s, s).
Definition put {S} (s : S) : M S unit := λ _, Some (tt, s).
Definition gets {S A} (f : S → A) : M S A := λ s, Some (f s, s).
Definition modify {S} (f : S → S) : M S unit := λ s, Some (tt, f s).
Definition getsM {S A} (f : S → option A) : M S A := λ s, x ← f s; Some (x, s).

(** Running a program on a component of the state. *)
Definition zoom {S T A} (rd : S → T) (wr : T → S → S) (m : M T A) : M S A := λ s,
  match m (rd s) with
  | Some (x, t) => Some (x, wr t s)
  | None => None
  end.

(** The value of a partial computation. *)
Definition lift {S A} (o : option A) : M S A := λ s, x ← o; Some (x, s).

Definition whenM {S} (b : bool) (m : M S unit) : M S unit :=
  if b then m else mret tt.

Lemma M_bind_Some {S A B} (m : M S A) (f : A → M S B) s x s' :
  m s = Some (x, s') → (m ≫= f) s = f x s'.
Proof. intros H. unfold mbind, M_bind. by rewrite H. Qed.

Lemma M_bind_assoc {S A B C} (m : M S A) (f : A → M S B) (g : B → M S C) s :
  ((m ≫= f) ≫= g) s = (x ← m; f x ≫= g) s.
Proof. unfold mbind, M_bind. by destruct (m s) as [[x s']|]. Qed.

Lemma M_bind_opt {S A B} (m : M S A) (f : A → M S B) s :
  (m ≫= f) s = (r ← m s; f r.1 r.2).
Proof. unfold mbind at 1, M_bind. by destruct (m s) as [[x s']|]. Qed.

Lemma M_bind_inv {S A B} (m : M S A) (f : A → M S B) s y s'' :
  (m ≫= f) s = Some (y, s'') → ∃ x s', m s = Some (x, s') ∧ f x s' = Some (y, s'').
Proof.
  unfold mbind, M_bind. destruct (m s) as [[x s']|]; [|done]. eauto.
Qed.

(** ** C integers: unsigned values are reduced modulo [2^w], signed values are
    the two's complement reading of the same bits. *)

Definition u8 (z : Z) : Z := z `mod` 2 ^ 8.
Definition u16 (z : Z) : Z := z `mod` 2 ^ 16.
Definition u32 (z : Z) : Z := z `mod` 2 ^ 32.
Definition u64 (z : Z) : Z := z `mod` 2 ^ 64.
Definition i32 (z : Z) : Z :=
  if u32 z <? 2 ^ 31 then u32 z else u32 z - 2 ^ 32.

Definition is_u32 (z : Z) : Prop := 0 ≤ z < 2 ^ 32.
Definition is_u64 (z : Z) : Prop := 0 ≤ z < 2 ^ 64.

Lemma u32_range z : 0 ≤ u32 z < 2 ^ 32.
Proof. unfold u32. apply Z.mod_pos_bound. lia. Qed.
Lemma u64_range z : 0 ≤ u64 z < 2 ^ 64.
Proof. unfold u64. apply Z.mod_pos_bound. lia. Qed.
Lemma u32_small z : is_u32 z → u32 z = z.
Proof. intros ?. unfold u32. apply Z.mod_small. done. Qed.
Lemma u64_small z : is_u64 z → u64 z = z.
Proof. intros ?. unfold u64. apply Z.mod_small. done. Qed.
Lemma i32_small z : - 2 ^ 31 ≤ z < 2 ^ 31 → i32 z = z.
Proof.
  intros ?. unfold i32, u32.
  destruct (decide (0 ≤ z)).
  - rewrite Z.mod_small by lia.
    by destruct (Z.ltb_spec z (2 ^ 31)); [|lia].
  - replace (z `mod` 2 ^ 32) with (z + 2 ^ 32).
    + destruct (Z.ltb_spec (z + 2 ^ 32) (2 ^ 31)); lia.
    + symmetry. rewrite <- (Z.mod_add z 1) by lia. apply Z.mod_small. lia.
Qed.
Lemma i32_range z : - 2 ^ 31 ≤ i32 z < 2 ^ 31.
Proof.
  unfold i32. pose proof (u32_range z).
  destruct (Z.ltb_spec (u32 z) (2 ^ 31)); lia.
Qed.

(** ** Result codes of nameservice/core/gfs_config.h and sql/gfs_sql.h *)

Definition GFS_OK := 0.
Definition GFS_ERR := 1.
Definition GFS_PARAM_FUN_ERR := 2.
Definition GFS_EVENT_NOTIMER_ERR := 132.

(** ** Automation shared by the development *)

Create HintDb gfs discriminated.
Create HintDb rb discriminated.
#[export] Hint Resolve u32_range u64_range i32_range : gfs.

(** [step_M] runs the head operation of a monadic program whose result is
    known, by rewriting with an equation for it. *)
Ltac M_unfold := unfold mbind, M_bind, mret, M_ret, gets, getsM, get, put, modify.

Lemma NoDup_app_swap {A} (l1 l2 : list A) : NoDup (l1 ++ l2) → NoDup (l2 ++ l1).
Proof. by rewrite Permutation_app_comm. Qed.
Lemma Forall2_impl_in {A B} (P Q : A → B → Prop) l k :
  Forall2 P l k → (∀ x y, x ∈ l → P x y → Q x y) → Forall2 Q l k.
Proof.
  intros HP. induction HP as [|x y l k Hxy HP IH]; intros H; constructor.
  - apply H; [set_solver|done].
  - apply IH. set_solver.
Qed.

(** Dropping a key from an association list. *)
Lemma filter_key_none {B} (k : Z) (l : list (Z * B)) : k ∉ l.*1 → filter (λ e, e.1 ≠ k) l = l.
Proof.
  induction l as [|[k' x] l IH]; intros Hk; [done|]. rewrite fmap_cons in Hk. simpl in Hk.
  rewrite filter_cons_True by set_solver. f_equal. apply IH. set_solver.
Qed.
Lemma filter_key_mid {B} (k : Z) (x : B) l1 l2 :
  NoDup (l1 ++ (k, x) :: l2).*1 → filter (λ e, e.1 ≠ k) (l1 ++ (k, x) :: l2) = l1 ++ l2.
Proof.
  rewrite fmap_app, fmap_cons, NoDup_app, NoDup_cons. intros (_ & H12 & Hk & _). simpl in *.
  rewrite filter_app, filter_cons_False by naive_solver.
  rewrite !filter_key_none; [done|done|]. intros Hin. apply (H12 k); [done|set_solver].
Qed.
