(* ===== verification/Queue.v ===== *)
(** Intrusive circular doubly linked lists: core/gfs_queue.h and
    core/gfs_queue.c of the name service.

    The links live in a store [gmap Z qnode] from addresses to the two link
    fields of the [gfs_queue_t] embedded there, so aliasing is modelled: a
    node may be unlinked without knowing the list it is on.  [ring H h l]
    says that the store [H] holds a well-linked circle with sentinel [h] and
    elements [l] in [next] order.  The theorems show that every operation
    turns a ring into the ring of the corresponding list operation and leaves
    all other links alone. *)
From stdpp Require Import sorting list.
From S2P Require Import Prelude.

Record qnode := QNode { q_prev : Z; q_next : Z }.
Abbreviation qheap := (gmap Z qnode).

Definition q_get (a : Z) : M qheap qnode := getsM (λ H, H !! a).

Definition upd_next (a v : Z) (H : qheap) : qheap :=
  alter (λ n, QNode (q_prev n) v) a H.
Definition upd_prev (a v : Z) (H : qheap) : qheap :=
  alter (λ n, QNode v (q_next n)) a H.

Definition set_next (a v : Z) : M qheap unit := _ ← q_get a; modify (upd_next a v).
Definition set_prev (a v : Z) : M qheap unit := _ ← q_get a; modify (upd_prev a v).

Definition gfs_queue_next (q : Z) : M qheap Z := n ← q_get q; mret (q_next n).
Definition gfs_queue_prev (q : Z) : M qheap Z := n ← q_get q; mret (q_prev n).
Definition gfs_queue_head (h : Z) : M qheap Z := gfs_queue_next h.
Definition gfs_queue_last (h : Z) : M qheap Z := gfs_queue_prev h.

Definition gfs_queue_init (q : Z) : M qheap unit := set_prev q q;; set_next q q.

Definition gfs_queue_empty (h : Z) : M qheap bool :=
  p ← gfs_queue_prev h; mret (bool_decide (h = p)).

Definition gfs_queue_insert_head (h x : Z) : M qheap unit :=
  n ← gfs_queue_next h;
  set_next x n;;
  n' ← gfs_queue_next x;
  set_prev n' x;;
  set_prev x h;;
  set_next h x.

Definition gfs_queue_insert_after := gfs_queue_insert_head.

Definition gfs_queue_insert_tail (h x : Z) : M qheap unit :=
  p ← gfs_queue_prev h;
  set_prev x p;;
  p' ← gfs_queue_prev x;
  set_next p' x;;
  set_next x h;;
  set_prev h x.

(** The variant compiled without [GFS_DEBUG], which no build file defines. *)
Definition gfs_queue_remove (x : Z) : M qheap unit :=
  n ← gfs_queue_next x;
  p ← gfs_queue_prev x;
  set_prev n p;;
  p' ← gfs_queue_prev x;
  n' ← gfs_queue_next x;
  set_next p' n'.

(** The [for ( ;; )] loop of [gfs_queue_middle], one unit of fuel per turn. *)
Fixpoint queue_middle_loop (fuel : nat) (queue middle next : Z) : M qheap Z :=
  match fuel with
  | O => ub
  | S fuel =>
      middle ← gfs_queue_next middle;
      next ← gfs_queue_next next;
      last ← gfs_queue_last queue;
      if bool_decide (next = last) then mret middle else
      next ← gfs_queue_next next;
      last ← gfs_queue_last queue;
      if bool_decide (next = last) then mret middle else
      queue_middle_loop fuel queue middle next
  end.

Definition gfs_queue_middle (fuel : nat) (queue : Z) : M qheap Z :=
  middle ← gfs_queue_head queue;
  last ← gfs_queue_last queue;
  if bool_decide (middle = last) then mret middle else
  next ← gfs_queue_head queue;
  queue_middle_loop fuel queue middle next.

(** The inner [do ... while] of [gfs_queue_sort]. *)
Fixpoint queue_sort_scan (fuel : nat) (cmp : Z → Z → Z) (queue q prev : Z) : M qheap Z :=
  match fuel with
  | O => ub
  | S fuel =>
      if bool_decide (cmp prev q ≤ 0) then mret prev else
      prev ← gfs_queue_prev prev;
      if bool_decide (prev ≠ queue) then queue_sort_scan fuel cmp queue q prev
      else mret prev
  end.

(** The outer [for] of [gfs_queue_sort]; [bound] is the fuel of each scan. *)
Fixpoint queue_sort_loop (fuel bound : nat) (cmp : Z → Z → Z) (queue q : Z)
  : M qheap unit :=
  match fuel with
  | O => ub
  | S fuel =>
      if bool_decide (q = queue) then mret tt else
      prev ← gfs_queue_prev q;
      next ← gfs_queue_next q;
      gfs_queue_remove q;;
      prev ← queue_sort_scan bound cmp queue q prev;
      gfs_queue_insert_after prev q;;
      queue_sort_loop fuel bound cmp queue next
  end.

Definition gfs_queue_sort (fuel : nat) (cmp : Z → Z → Z) (queue : Z) : M qheap unit :=
  q ← gfs_queue_head queue;
  last ← gfs_queue_last queue;
  if bool_decide (q = last) then mret tt else
  q ← gfs_queue_next q;
  queue_sort_loop fuel fuel cmp queue q.

(** ** Rings *)

Definition nxt (H : qheap) (a : Z) : option Z := q_next <$> H !! a.
Definition prv (H : qheap) (a : Z) : option Z := q_prev <$> H !! a.

(** [seg H a l b]: following [next] from [a] visits [l] and then [b], and the
    [prev] links agree. *)
Fixpoint seg (H : qheap) (a : Z) (l : list Z) (b : Z) : Prop :=
  match l with
  | [] => nxt H a = Some b ∧ prv H b = Some a
  | x :: l => nxt H a = Some x ∧ prv H x = Some a ∧ seg H x l b
  end.

Definition ring (H : qheap) (h : Z) (l : list Z) : Prop := seg H h l h ∧ NoDup (h :: l).

(** Two stores with the same links outside a set of touched addresses. *)
Definition same_links (X : list Z) (H H' : qheap) : Prop :=
  ∀ c, c ∉ X → H' !! c = H !! c.

(** ** Link arithmetic *)

Lemma nxt_upd_next H a v b :
  nxt (upd_next a v H) b = if decide (a = b) then (λ _, v) <$> H !! a else nxt H b.
Proof.
  unfold nxt, upd_next. rewrite lookup_alter. case_decide; subst; [|done].
  by destruct (H !! b).
Qed.
Lemma prv_upd_next H a v b : prv (upd_next a v H) b = prv H b.
Proof.
  unfold prv, upd_next. rewrite lookup_alter. case_decide; subst; [|done].
  by destruct (H !! b).
Qed.
Lemma prv_upd_prev H a v b :
  prv (upd_prev a v H) b = if decide (a = b) then (λ _, v) <$> H !! a else prv H b.
Proof.
  unfold prv, upd_prev. rewrite lookup_alter. case_decide; subst; [|done].
  by destruct (H !! b).
Qed.
Lemma nxt_upd_prev H a v b : nxt (upd_prev a v H) b = nxt H b.
Proof.
  unfold nxt, upd_prev. rewrite lookup_alter. case_decide; subst; [|done].
  by destruct (H !! b).
Qed.
Lemma mapped_upd_next H a v b : is_Some (upd_next a v H !! b) ↔ is_Some (H !! b).
Proof.
  unfold upd_next. rewrite lookup_alter. case_decide; subst; [|done].
  by rewrite fmap_is_Some.
Qed.
Lemma mapped_upd_prev H a v b : is_Some (upd_prev a v H !! b) ↔ is_Some (H !! b).
Proof.
  unfold upd_prev. rewrite lookup_alter. case_decide; subst; [|done].
  by rewrite fmap_is_Some.
Qed.
Lemma nxt_mapped H a v : nxt H a = Some v → is_Some (H !! a).
Proof. unfold nxt. intros (? & -> & _)%fmap_Some. eauto. Qed.
Lemma prv_mapped H a v : prv H a = Some v → is_Some (H !! a).
Proof. unfold prv. intros (? & -> & _)%fmap_Some. eauto. Qed.

Lemma set_next_run a v H : is_Some (H !! a) → set_next a v H = Some (tt, upd_next a v H).
Proof. intros [n Hn]. unfold set_next, q_get. M_unfold. by rewrite Hn. Qed.
Lemma set_prev_run a v H : is_Some (H !! a) → set_prev a v H = Some (tt, upd_prev a v H).
Proof. intros [n Hn]. unfold set_prev, q_get. M_unfold. by rewrite Hn. Qed.
Lemma next_run a v H : nxt H a = Some v → gfs_queue_next a H = Some (v, H).
Proof.
  unfold nxt, gfs_queue_next, q_get. M_unfold. intros (n & Hn & ->)%fmap_Some.
  by rewrite Hn.
Qed.
Lemma prev_run a v H : prv H a = Some v → gfs_queue_prev a H = Some (v, H).
Proof.
  unfold prv, gfs_queue_prev, q_get. M_unfold. intros (n & Hn & ->)%fmap_Some.
  by rewrite Hn.
Qed.

(** [q_run] executes the link operations at the head of the goal. *)
Ltac q_run :=
  repeat first
    [ erewrite M_bind_Some by
        (first [ eapply next_run | eapply prev_run
               | eapply set_next_run | eapply set_prev_run ]; q_side)
    | rewrite set_next_run by q_side | rewrite set_prev_run by q_side ]
with q_side :=
  rewrite ?mapped_upd_next, ?mapped_upd_prev, ?nxt_upd_prev, ?prv_upd_next,
    ?nxt_upd_next, ?prv_upd_prev;
  repeat case_decide; simplify_eq;
  first [ eassumption | done | eauto using nxt_mapped, prv_mapped
        | (rewrite fmap_Some; naive_solver) | idtac ].

(** [link_solve] decides goals about the links of an updated store by
    computing the lookups. *)
Ltac link_solve :=
  unfold upd_next, upd_prev; rewrite ?lookup_alter;
  repeat (case_decide; subst; simplify_eq);
  repeat match goal with
  | H : ?h !! ?a = Some _ |- context [?h !! ?a] => rewrite H
  end; simpl; try done; try set_solver; try (by rewrite !fmap_is_Some).

(** The store after splicing [x] in between the neighbours [a] and [b], and
    after unlinking [x] from between [p] and [n]. *)
Definition splice (a x b : Z) (H H' : qheap) : Prop :=
  nxt H' a = Some x ∧ prv H' x = Some a ∧ nxt H' x = Some b ∧ prv H' b = Some x ∧
  (∀ c, c ≠ a → c ≠ x → nxt H' c = nxt H c) ∧
  (∀ c, c ≠ b → c ≠ x → prv H' c = prv H c) ∧ same_links [a; x; b] H H' ∧
  (∀ c, is_Some (H' !! c) ↔ is_Some (H !! c)).

Lemma insert_head_splice H a b x :
  nxt H a = Some b → prv H b = Some a → is_Some (H !! x) → x ≠ a → x ≠ b →
  ∃ H', gfs_queue_insert_head a x H = Some (tt, H') ∧ splice a x b H H'.
Proof.
  intros Hn Hp Hx Ha Hb. unfold gfs_queue_insert_head.
  pose proof (nxt_mapped _ _ _ Hn). pose proof (prv_mapped _ _ _ Hp).
  erewrite M_bind_Some by by apply next_run.
  erewrite M_bind_Some by by apply set_next_run.
  assert (nxt (upd_next x b H) x = Some b) as Hxn.
  { rewrite nxt_upd_next, decide_True by done. by destruct Hx as [? ->]. }
  erewrite M_bind_Some by by apply next_run.
  erewrite M_bind_Some by (apply set_prev_run; by rewrite mapped_upd_next).
  erewrite M_bind_Some by (apply set_prev_run; by rewrite mapped_upd_prev, mapped_upd_next).
  rewrite set_next_run by by rewrite !mapped_upd_prev, mapped_upd_next.
  eexists; split; [done|]. unfold splice.
  destruct (proj1 (fmap_Some _ _ _) Hn) as (na & HHa & ->).
  destruct (proj1 (fmap_Some _ _ _) Hp) as (nb & HHb & Hpb).
  destruct Hx as [nx HHx].
  split_and!; unfold nxt, prv, same_links; intros; link_solve.
Qed.

Lemma insert_tail_splice H a b x :
  nxt H a = Some b → prv H b = Some a → is_Some (H !! x) → x ≠ a → x ≠ b →
  ∃ H', gfs_queue_insert_tail b x H = Some (tt, H') ∧ splice a x b H H'.
Proof.
  intros Hn Hp Hx Ha Hb. unfold gfs_queue_insert_tail.
  pose proof (nxt_mapped _ _ _ Hn). pose proof (prv_mapped _ _ _ Hp).
  erewrite M_bind_Some by by apply prev_run.
  erewrite M_bind_Some by by apply set_prev_run.
  assert (prv (upd_prev x a H) x = Some a) as Hxn.
  { rewrite prv_upd_prev, decide_True by done. by destruct Hx as [? ->]. }
  erewrite M_bind_Some by by apply prev_run.
  erewrite M_bind_Some by (apply set_next_run; by rewrite mapped_upd_prev).
  erewrite M_bind_Some by (apply set_next_run; by rewrite mapped_upd_next, mapped_upd_prev).
  rewrite set_prev_run by by rewrite !mapped_upd_next, mapped_upd_prev.
  eexists; split; [done|]. unfold splice.
  destruct (proj1 (fmap_Some _ _ _) Hn) as (na & HHa & ->).
  destruct (proj1 (fmap_Some _ _ _) Hp) as (nb & HHb & Hpb).
  destruct Hx as [nx HHx].
  split_and!; unfold nxt, prv, same_links; intros; link_solve.
Qed.

Definition unsplice (p x n : Z) (H H' : qheap) : Prop :=
  nxt H' p = Some n ∧ prv H' n = Some p ∧
  (∀ c, c ≠ p → nxt H' c = nxt H c) ∧
  (∀ c, c ≠ n → prv H' c = prv H c) ∧ same_links [p; n] H H' ∧
  (∀ c, is_Some (H' !! c) ↔ is_Some (H !! c)).

Lemma remove_unsplice H p x n :
  nxt H p = Some x → prv H x = Some p → nxt H x = Some n → prv H n = Some x →
  x ≠ p → x ≠ n →
  ∃ H', gfs_queue_remove x H = Some (tt, H') ∧ unsplice p x n H H'.
Proof.
  intros Hpx Hxp Hxn Hnx Hp Hn. unfold gfs_queue_remove.
  pose proof (nxt_mapped _ _ _ Hpx). pose proof (prv_mapped _ _ _ Hnx).
  erewrite M_bind_Some by by apply next_run.
  erewrite M_bind_Some by by apply prev_run.
  erewrite M_bind_Some by by apply set_prev_run.
  erewrite M_bind_Some by (apply prev_run; by rewrite prv_upd_prev, decide_False by done).
  erewrite M_bind_Some by (apply next_run; by rewrite nxt_upd_prev).
  rewrite set_next_run by by rewrite mapped_upd_prev.
  eexists; split; [done|]. unfold unsplice.
  destruct (proj1 (fmap_Some _ _ _) Hpx) as (np & HHp & ?).
  destruct (proj1 (fmap_Some _ _ _) Hnx) as (nn & HHn & ?).
  split_and!; unfold nxt, prv, same_links; intros; link_solve.
Qed.

(** ** Segments *)

Lemma seg_app H a l1 x l2 b :
  seg H a (l1 ++ x :: l2) b ↔ seg H a l1 x ∧ seg H x l2 b.
Proof.
  revert a. induction l1 as [|y l1 IH]; intros a; simpl; [tauto|].
  rewrite IH. tauto.
Qed.

Lemma seg_frame H H' a l b :
  (∀ c, c ∈ a :: l → nxt H' c = nxt H c) →
  (∀ c, c ∈ l ++ [b] → prv H' c = prv H c) →
  seg H a l b → seg H' a l b.
Proof.
  revert a. induction l as [|x l IH]; intros a Hn Hp; simpl.
  - intros [Hab Hba]. rewrite Hn, Hp by set_solver. done.
  - intros (Hax & Hxa & Hs). rewrite Hn, Hp by set_solver. split_and!; [done..|].
    apply IH; [set_solver..|done].
Qed.

Lemma seg_first H a l b : seg H a l b → nxt H a = Some (hd b l) ∧ prv H (hd b l) = Some a.
Proof. destruct l; simpl; tauto. Qed.

Lemma ring_last H h l : ring H h l → prv H h = Some (List.last l h) ∧ nxt H (List.last l h) = Some h.
Proof.
  intros [Hs _]. destruct l as [|x l _] using rev_ind; simpl in *; [tauto|].
  apply seg_app in Hs as [_ [??]]. by rewrite List.last_last.
Qed.

Lemma ring_mapped H h l x : ring H h l → x ∈ h :: l → is_Some (H !! x).
Proof.
  intros [Hs _] [->|Hx']%elem_of_cons.
  - apply seg_first in Hs as [Hn _]. by eapply nxt_mapped.
  - apply list_elem_of_split in Hx' as (l1 & l2 & ->).
    apply seg_app in Hs as [_ Hs]. apply seg_first in Hs as [Hn _]. by eapply nxt_mapped.
Qed.

(** A ring can be entered at any of its elements. *)
Lemma ring_split H h l1 x l2 :
  ring H h (l1 ++ x :: l2) → seg H h l1 x ∧ seg H x l2 h ∧ NoDup (h :: l1 ++ x :: l2).
Proof. intros [Hs Hd]. apply seg_app in Hs as [Hs1 Hs2]. done. Qed.

Lemma splice_seg_after H H' a x l b :
  splice a x (hd b l) H H' → seg H a l b → NoDup (a :: l) → x ∉ a :: l → x ≠ b → b ∉ l →
  seg H' a (x :: l) b.
Proof.
  intros (Han & Hxp & Hxn & Hbp & Hn & Hp & _) Hs Hd Hx Hxb Hb.
  split_and!; [done..|]. destruct l as [|y l]; simpl in *; [done|].
  destruct Hs as (_ & _ & Hs). split_and!; [done..|].
  apply NoDup_cons in Hd as [Hay Hd]. apply NoDup_cons in Hd as [Hyl Hd].
  eapply seg_frame; [..|done]; intros c Hc; [apply Hn|apply Hp]; set_solver.
Qed.

Lemma splice_seg_frame H H' a x b l c d :
  splice a x b H H' → a ∉ c :: l → x ∉ c :: l → b ∉ l ++ [d] → x ∉ l ++ [d] →
  seg H c l d → seg H' c l d.
Proof.
  intros (_ & _ & _ & _ & Hn & Hp & _) ????. apply seg_frame; intros e He;
    [apply Hn|apply Hp]; set_solver.
Qed.

(** [gfs_queue_insert_head h x] puts [x] in front. *)
Lemma insert_head_ring H h l x :
  ring H h l → is_Some (H !! x) → x ∉ h :: l →
  ∃ H', gfs_queue_insert_head h x H = Some (tt, H') ∧ ring H' h (x :: l) ∧
        same_links (h :: x :: l) H H' ∧ (∀ c, is_Some (H' !! c) ↔ is_Some (H !! c)).
Proof.
  intros [Hs Hd] Hx Hxl. destruct (seg_first _ _ _ _ Hs) as [Hn Hp].
  destruct (insert_head_splice H h (hd h l) x) as (H' & Hrun & Hsp); [done..| | |].
  { set_solver. } { destruct l; set_solver. }
  exists H'. split_and!; [done| | |by destruct Hsp as (_&_&_&_&_&_&_&?)].
  - split.
    + eapply splice_seg_after; [done..|set_solver|]. by apply NoDup_cons in Hd as [? _].
    + rewrite NoDup_cons in *. rewrite NoDup_cons. set_solver.
  - destruct Hsp as (_&_&_&_&_&_&Hsl&_). intros c Hc. apply Hsl. destruct l; set_solver.
Qed.

(** [gfs_queue_insert_after p x] for an element [p] of the ring. *)
Lemma insert_after_ring H h l1 p l2 x :
  ring H h (l1 ++ p :: l2) → is_Some (H !! x) → x ∉ h :: l1 ++ p :: l2 →
  ∃ H', gfs_queue_insert_after p x H = Some (tt, H') ∧ ring H' h (l1 ++ p :: x :: l2) ∧
        same_links (h :: l1 ++ p :: x :: l2) H H' ∧
        (∀ c, is_Some (H' !! c) ↔ is_Some (H !! c)).
Proof.
  intros (Hs1 & Hs2 & Hd)%ring_split Hx Hxl. destruct (seg_first _ _ _ _ Hs2) as [Hn Hp].
  destruct (insert_head_splice H p (hd h l2) x) as (H' & Hrun & Hsp); [done..| | |].
  { set_solver. } { destruct l2; set_solver. }
  exists H'. rewrite NoDup_cons, NoDup_app, NoDup_cons in Hd.
  destruct Hd as (Hh & Hd1 & Hd12 & Hpl2 & Hd2).
  split_and!; [done| | |by destruct Hsp as (_&_&_&_&_&_&_&?)].
  - split.
    + apply seg_app. split.
      * eapply splice_seg_frame; [done|..|done]; destruct l2; set_solver.
      * eapply splice_seg_after; [done..| | | |]; rewrite ?NoDup_cons; set_solver.
    + rewrite !NoDup_cons, NoDup_app, !NoDup_cons. set_solver.
  - destruct Hsp as (_&_&_&_&_&_&Hsl&_). intros c Hc. apply Hsl. destruct l2; set_solver.
Qed.

(** [gfs_queue_insert_tail h x] puts [x] at the end. *)
Lemma insert_tail_ring H h l x :
  ring H h l → is_Some (H !! x) → x ∉ h :: l →
  ∃ H', gfs_queue_insert_tail h x H = Some (tt, H') ∧ ring H' h (l ++ [x]) ∧
        same_links (h :: x :: l) H H' ∧ (∀ c, is_Some (H' !! c) ↔ is_Some (H !! c)).
Proof.
  intros Hr Hx Hxl. destruct (ring_last _ _ _ Hr) as [Hp Hn].
  destruct (insert_tail_splice H (List.last l h) h x) as (H' & Hrun & Hsp); [done..| | |].
  { destruct l as [|y l _] using rev_ind; simpl; rewrite ?List.last_last; set_solver. }
  { set_solver. }
  exists H'. destruct Hr as [Hs Hd]. split_and!; [done| | |by destruct Hsp as (_&_&_&_&_&_&_&?)].
  - destruct l as [|y l _] using rev_ind; simpl in *.
    { destruct Hsp as (?&?&?&?&_). split; [done|]. apply NoDup_cons.
      split; [set_solver|apply NoDup_singleton]. }
    rewrite List.last_last in Hsp. apply seg_app in Hs as [Hs1 Hs2].
    rewrite NoDup_cons, NoDup_app in Hd. destruct Hd as (Hh & Hd1 & Hd12 & _).
    split.
    + rewrite <- app_assoc. simpl. apply seg_app. split.
      * eapply splice_seg_frame; [done|..|done]; set_solver.
      * by destruct Hsp as (?&?&?&?&_).
    + rewrite NoDup_cons, !NoDup_app. rewrite elem_of_app in Hh.
      pose proof (NoDup_singleton x). pose proof (NoDup_singleton y). set_solver.
  - destruct Hsp as (_&_&_&_&_&_&Hsl&_). intros c Hc. apply Hsl.
    destruct l as [|y l _] using rev_ind; simpl; rewrite ?List.last_last; set_solver.
Qed.

(** [gfs_queue_remove x] takes [x] off whatever ring it is on. *)
Lemma remove_ring H h l1 x l2 :
  ring H h (l1 ++ x :: l2) →
  ∃ H', gfs_queue_remove x H = Some (tt, H') ∧ ring H' h (l1 ++ l2) ∧
        same_links (h :: l1 ++ l2) H H' ∧ (∀ c, is_Some (H' !! c) ↔ is_Some (H !! c)).
Proof.
  intros (Hs1 & Hs2 & Hd)%ring_split.
  destruct (seg_first _ _ _ _ Hs2) as [Hn Hp].
  rewrite NoDup_cons, NoDup_app, NoDup_cons in Hd.
  destruct Hd as (Hh & Hd1 & Hd12 & Hxl2 & Hd2).
  assert (nxt H (List.last l1 h) = Some x ∧ prv H x = Some (List.last l1 h)) as [Hpn Hpp].
  { destruct l1 as [|y l1 _] using rev_ind; simpl in *; [done|].
    apply seg_app in Hs1 as [_ [??]]. by rewrite List.last_last. }
  destruct (remove_unsplice H (List.last l1 h) x (hd h l2)) as (H' & Hrun & Hu); [done..| | |].
  { destruct l1 as [|y l1 _] using rev_ind; simpl in *; rewrite ?List.last_last; set_solver. }
  { destruct l2; set_solver. }
  exists H'. destruct Hu as (Hu1 & Hu2 & Hu3 & Hu4 & Hsl & Hm).
  split_and!; [done| | |done].
  - split; [|rewrite NoDup_cons, NoDup_app; set_solver].
    destruct l1 as [|y l1 _] using rev_ind; simpl in *.
    + destruct l2 as [|z l2]; simpl in *; [done|]. destruct Hs2 as (?&?&?).
      split_and!; [done..|]. rewrite NoDup_cons in Hd2.
      eapply seg_frame; [..|done]; intros c Hc; [apply Hu3|apply Hu4]; set_solver.
    + rewrite List.last_last in *. apply seg_app in Hs1 as [Hs1 [??]].
      rewrite NoDup_app in Hd1. rewrite <- app_assoc. simpl. apply seg_app. split.
      * eapply seg_frame; [..|done]; intros c Hc; [apply Hu3|apply Hu4];
          destruct l2; set_solver.
      * destruct l2 as [|z l2]; simpl in *; [done|]. destruct Hs2 as (?&?&?).
        split_and!; [done..|]. rewrite NoDup_cons in Hd2.
        eapply seg_frame; [..|done]; intros c Hc; [apply Hu3|apply Hu4]; set_solver.
  - intros c Hc. apply Hsl.
    destruct l1 as [|y l1 _] using rev_ind; simpl; rewrite ?List.last_last;
      destruct l2; set_solver.
Qed.

Lemma empty_ring H h l :
  ring H h l → gfs_queue_empty h H = Some (bool_decide (l = []), H).
Proof.
  intros Hr. destruct (ring_last _ _ _ Hr) as [Hp _].
  unfold gfs_queue_empty. erewrite M_bind_Some by by apply prev_run.
  M_unfold. f_equal. f_equal. destruct Hr as [_ Hd].
  destruct l as [|y l _] using rev_ind; simpl.
  - by rewrite !bool_decide_true.
  - rewrite List.last_last, !bool_decide_false; [done|by destruct l|].
    rewrite NoDup_cons in Hd. set_solver.
Qed.

(** ** The insertion sort as a list function *)

Section sorting.
Context (cmp : Z → Z → Z).

(** [q] goes behind the last element that does not compare greater; the list
    is held in reverse, as the scan walks it. *)
Fixpoint insert_rev (q : Z) (rl : list Z) : list Z :=
  match rl with
  | [] => [q]
  | p :: rl' => if bool_decide (cmp p q ≤ 0) then q :: p :: rl' else p :: insert_rev q rl'
  end.

Definition sort_rev (l rl : list Z) : list Z := fold_left (λ acc q, insert_rev q acc) l rl.
Definition queue_sort_spec (l : list Z) : list Z := rev (sort_rev l []).

(** The node behind which the scan stops. *)
Fixpoint scan_spec (h q : Z) (rl : list Z) : Z :=
  match rl with
  | [] => h
  | p :: rl' => if bool_decide (cmp p q ≤ 0) then p else scan_spec h q rl'
  end.

Lemma insert_rev_perm q rl : insert_rev q rl ≡ₚ q :: rl.
Proof.
  induction rl as [|p rl IH]; simpl; [done|]. case_bool_decide; [done|].
  rewrite IH. apply Permutation_swap.
Qed.

Lemma sort_rev_perm l rl : sort_rev l rl ≡ₚ l ++ rl.
Proof.
  revert rl. induction l as [|q l IH]; intros rl; simpl; [done|].
  rewrite IH, insert_rev_perm. by rewrite Permutation_middle.
Qed.

Lemma queue_sort_spec_perm l : queue_sort_spec l ≡ₚ l.
Proof. unfold queue_sort_spec. by rewrite <- Permutation_rev, sort_rev_perm, app_nil_r. Qed.

(** Where the scan stops splits the reversed prefix. *)
Lemma scan_spec_split h q rl :
  (scan_spec h q rl = h ∧ insert_rev q rl = rl ++ [q]) ∨
  (∃ b p a, rl = b ++ p :: a ∧ scan_spec h q rl = p ∧ insert_rev q rl = b ++ q :: p :: a).
Proof.
  induction rl as [|p rl IH]; simpl; [by left|]. case_bool_decide.
  - right. by exists [], p, rl.
  - destruct IH as [[-> ->]|(b & p' & a & -> & -> & ->)]; [by left|].
    right. by exists (p :: b), p', a.
Qed.

Lemma scan_run fuel H h q l1 p l2 :
  ring H h (l1 ++ p :: l2) → (length l1 < fuel)%nat →
  queue_sort_scan fuel cmp h q p H = Some (scan_spec h q (p :: rev l1), H).
Proof.
  revert p l1 l2. induction fuel as [|fuel IH]; intros p l1 l2 Hr Hf; [lia|]. simpl.
  case_bool_decide; [done|].
  pose proof (ring_split _ _ _ _ _ Hr) as (Hs1 & Hs2 & Hd).
  destruct l1 as [|p' l1 _] using rev_ind; simpl in *.
  - destruct Hs1 as [_ Hp]. erewrite M_bind_Some by by apply prev_run.
    rewrite bool_decide_false; [done|]. by intros [].
  - apply seg_app in Hs1 as [_ [_ Hp]]. erewrite M_bind_Some by by apply prev_run.
    assert (p' ≠ h) as Hne by (rewrite NoDup_cons in Hd; set_solver).
    rewrite rev_app_distr. simpl. rewrite bool_decide_true by done.
    rewrite length_app in Hf. simpl in Hf.
    apply (IH p' l1 (p :: l2)); [by rewrite <- app_assoc in Hr|lia].
Qed.

(** One turn of the outer loop moves one node into the sorted prefix. *)
Lemma sort_loop_run fuel bound H h l1 l2 :
  ring H h (l1 ++ l2) → l1 ≠ [] → (length l2 < fuel)%nat →
  (length l1 + length l2 ≤ bound)%nat →
  ∃ H', queue_sort_loop fuel bound cmp h (hd h l2) H = Some (tt, H') ∧
        ring H' h (rev (sort_rev l2 (rev l1))) ∧ same_links (h :: l1 ++ l2) H H' ∧
        (∀ c, is_Some (H' !! c) ↔ is_Some (H !! c)).
Proof.
  revert H l1 l2. induction fuel as [|fuel IH]; intros H l1 l2 Hr Hl1 Hf Hb; [lia|].
  destruct l2 as [|q l2]; simpl.
  { rewrite bool_decide_true by done. exists H. rewrite rev_involutive, app_nil_r in *.
    split_and!; [done..|by intros ?|done]. }
  pose proof (ring_split _ _ _ _ _ Hr) as (Hs1 & Hs2 & Hd).
  assert (q ≠ h) as Hqh by (rewrite NoDup_cons in Hd; set_solver).
  rewrite bool_decide_false by done.
  destruct l1 as [|p l1 _] using rev_ind; [done|]. clear Hl1.
  pose proof (seg_first _ _ _ _ Hs2) as [Hqn _].
  pose proof Hs1 as Hpq. apply seg_app in Hpq as [_ [_ Hpq]].
  erewrite M_bind_Some by by apply prev_run.
  erewrite M_bind_Some by by apply next_run.
  destruct (remove_ring _ _ _ _ _ Hr) as (H1 & Hrm & Hr1 & Hsl1 & Hm1).
  erewrite M_bind_Some by done.
  rewrite length_app in Hb. simpl in Hb, Hf.
  rewrite <- app_assoc in Hr1. simpl in Hr1.
  erewrite M_bind_Some by (eapply scan_run; [done|lia]).
  assert (is_Some (H1 !! q)) as Hq1.
  { apply Hm1. eapply ring_mapped; [done|set_solver]. }
  assert (q ∉ h :: l1 ++ p :: l2) as Hq.
  { rewrite NoDup_cons, NoDup_app, NoDup_cons in Hd. set_solver. }
  assert (∃ H2, gfs_queue_insert_after (scan_spec h q (p :: rev l1)) q H1 = Some (tt, H2) ∧
            ring H2 h (rev (insert_rev q (rev (l1 ++ [p]))) ++ l2) ∧
            same_links (h :: l1 ++ p :: q :: l2) H1 H2 ∧
            (∀ c, is_Some (H2 !! c) ↔ is_Some (H1 !! c))) as (H2 & Hins & Hr2 & Hsl2 & Hm2).
  { assert (rev (l1 ++ [p]) = p :: rev l1) as Hrp by by rewrite rev_app_distr.
    rewrite Hrp.
    destruct (scan_spec_split h q (p :: rev l1)) as [[-> ->]|(b & p' & a & Heq & -> & ->)].
    - destruct (insert_head_ring _ _ _ _ Hr1 Hq1 Hq) as (H2 & ? & Hr2 & Hsl & ?).
      exists H2. split_and!; [done| |intros c Hc; apply Hsl; set_solver|done].
      rewrite rev_app_distr. simpl. by rewrite rev_involutive, <- app_assoc.
    - assert (l1 ++ [p] = rev a ++ p' :: rev b) as Heq'.
      { rewrite <- (rev_involutive (l1 ++ [p])), Hrp, Heq.
        rewrite rev_app_distr. simpl. by rewrite <- app_assoc. }
      assert (l1 ++ p :: l2 = rev a ++ p' :: (rev b ++ l2)) as Heq2.
      { change (p :: l2) with ([p] ++ l2). by rewrite app_assoc, Heq', <- app_assoc. }
      rewrite Heq2 in Hr1, Hq.
      destruct (insert_after_ring _ _ _ _ _ _ Hr1 Hq1 Hq) as (H2 & ? & Hr2 & Hsl & ?).
      exists H2. split_and!; [done| | |done].
      + rewrite rev_app_distr. simpl. by rewrite <- !app_assoc.
      + intros c Hc. apply Hsl. intros Hc'. apply Hc.
        assert (c ∈ h :: q :: (l1 ++ p :: l2)) by (rewrite Heq2; set_solver). set_solver. }
  erewrite M_bind_Some by done.
  destruct (IH H2 (rev (insert_rev q (rev (l1 ++ [p])))) l2) as (H3 & Hrun & Hr3 & Hsl3 & Hm3).
  - done.
  - rewrite <- (Permutation_nil_r _), <- Permutation_rev, insert_rev_perm. by intros ?%Permutation_nil_r.
  - lia.
  - rewrite length_rev. rewrite (Permutation_length (insert_rev_perm _ _)).
    simpl. rewrite length_rev, length_app. simpl. lia.
  - exists H3. rewrite rev_involutive in Hr3. split_and!; [done|done| |].
    + intros c Hc.
      assert (c ∉ h :: rev (insert_rev q (rev (l1 ++ [p]))) ++ l2).
      { rewrite <- (Permutation_rev (insert_rev _ _)), insert_rev_perm, <- Permutation_rev.
        set_solver. }
      rewrite Hsl3, Hsl2, Hsl1 by set_solver. done.
    + intros c. by rewrite Hm3, Hm2, Hm1.
Qed.
End sorting.

Lemma insert_rev_split cmp q rl :
  ∃ b a, rl = b ++ a ∧ insert_rev cmp q rl = b ++ q :: a ∧
         Forall (λ x, 0 < cmp x q) b ∧ (∀ p, head a = Some p → cmp p q ≤ 0).
Proof.
  induction rl as [|p rl IH]; simpl; [by exists [], []|]. case_bool_decide as Hc.
  - exists [], (p :: rl). split_and!; [done..|]. simpl. naive_solver.
  - destruct IH as (b & a & -> & -> & ? & ?). exists (p :: b), a.
    split_and!; [done..|constructor; [lia|done]|done].
Qed.

(** [cmp] compares integer keys: the order [gfs_queue_sort] is meant for. *)
Section sorted.
Context (cmp : Z → Z → Z) (key : Z → Z).
Hypothesis cmp_key : ∀ p q, cmp p q ≤ 0 ↔ key p ≤ key q.

Let R (p q : Z) : Prop := key p ≤ key q.

Lemma insert_rev_sorted q rl :
  StronglySorted R (rev rl) → StronglySorted R (rev (insert_rev cmp q rl)).
Proof.
  destruct (insert_rev_split cmp q rl) as (b & a & -> & -> & Hb & Ha).
  rewrite !rev_app_distr. simpl. rewrite <- app_assoc. simpl.
  rewrite !StronglySorted_app. intros (Hab & Hsa & Hsb). split_and!; [|done|].
  - intros x y Hx [->|Hy]%elem_of_cons; [|by apply Hab].
    destruct a as [|p a]; [by apply elem_of_nil in Hx|]. simpl in *.
    specialize (Ha p eq_refl). apply cmp_key in Ha.
    apply StronglySorted_app in Hsa as (Hpa & _ & _).
    apply elem_of_app in Hx as [Hx|Hx%list_elem_of_singleton]; [|by subst].
    assert (R x p) by (apply Hpa; [done|set_solver]). unfold R in *. lia.
  - constructor; [done|]. apply Forall_forall. intros x Hx.
    rewrite <- Permutation_rev in Hx. rewrite Forall_forall in Hb.
    specialize (Hb x Hx). specialize (cmp_key x q). unfold R. lia.
Qed.

Lemma sort_rev_sorted l rl :
  StronglySorted R (rev rl) → StronglySorted R (rev (sort_rev cmp l rl)).
Proof.
  revert rl. induction l as [|q l IH]; intros rl Hs; simpl; [done|].
  apply IH. by apply insert_rev_sorted.
Qed.

Lemma queue_sort_spec_sorted l : StronglySorted R (queue_sort_spec cmp l).
Proof. apply sort_rev_sorted. constructor. Qed.

(** Stability: nodes with equal keys keep their order. *)
Lemma insert_rev_stable k q rl :
  filter (λ p, key p = k) (insert_rev cmp q rl) = filter (λ p, key p = k) (q :: rl).
Proof.
  destruct (insert_rev_split cmp q rl) as (b & a & -> & -> & Hb & Ha).
  rewrite filter_app, !filter_cons, filter_app. case_decide as Hq; [|done].
  assert (filter (λ p, key p = k) b = []) as ->; [|done].
  clear -cmp_key Hb Hq. induction Hb as [|x b Hx Hb IH]; [done|].
  rewrite filter_cons_False; [done|]. specialize (cmp_key x q). lia.
Qed.

Lemma queue_sort_spec_stable k l :
  filter (λ p, key p = k) (queue_sort_spec cmp l) = filter (λ p, key p = k) l.
Proof.
  assert (∀ rl, filter (λ p, key p = k) (rev (sort_rev cmp l rl)) =
                filter (λ p, key p = k) (rev rl ++ l)) as Hgen; [|apply (Hgen [])].
  assert (∀ l, filter (λ p, key p = k) (rev l) = rev (filter (λ p, key p = k) l)) as Hrev.
  { induction l0 as [|x l0 IH]; [done|]. simpl rev at 1.
    rewrite filter_app, IH, !filter_cons, filter_nil. case_decide; [done|by rewrite app_nil_r]. }
  induction l as [|q l IH]; intros rl; simpl.
  - by rewrite app_nil_r.
  - rewrite IH, !filter_app, Hrev, insert_rev_stable, <- Hrev. simpl rev.
    rewrite filter_app, <- app_assoc, <- filter_app. done.
Qed.
End sorted.

(** ** The middle node *)

Lemma ring_next H h l i x y :
  ring H h l → l !! i = Some x → l !! S i = Some y → nxt H x = Some y.
Proof.
  intros Hr Hi Hj. rewrite <- (take_drop_middle l i x Hi) in Hr.
  apply ring_split in Hr as (_ & Hs & _).
  rewrite (drop_S l y (S i) Hj) in Hs. by destruct Hs.
Qed.

Lemma ring_is_last H h l i x :
  ring H h l → l !! i = Some x → x = List.last l h ↔ S i = length l.
Proof.
  intros [_ Hd] Hi. apply NoDup_cons in Hd as [_ Hd].
  pose proof (lookup_lt_Some _ _ _ Hi).
  destruct l as [|y l _] using rev_ind; [done|]. rewrite List.last_last, length_app; simpl.
  assert ((l ++ [y]) !! length l = Some y) as Hy by (by apply list_lookup_middle).
  split; [|intros ?; assert (i = length l) by lia; subst; congruence].
  intros ->. rewrite (NoDup_lookup _ _ _ _ Hd Hi Hy). lia.
Qed.

Lemma middle_loop_run fuel H h l i m n :
  ring H h l → l !! i = Some m → l !! (2 * i)%nat = Some n →
  (S (2 * i) < length l)%nat → (length l < 2 * (i + fuel))%nat →
  ∃ x, queue_middle_loop fuel h m n H = Some (x, H) ∧ l !! (length l / 2)%nat = Some x.
Proof.
  revert i m n. induction fuel as [|fuel IH]; intros i m n Hr Hm Hn Hi Hf; [lia|].
  destruct (lookup_lt_is_Some_2 l (S i)) as [m' Hm']; [lia|].
  destruct (lookup_lt_is_Some_2 l (S (2 * i))) as [n' Hn']; [lia|].
  destruct (ring_last _ _ _ Hr) as [Hl _]. simpl queue_middle_loop.
  erewrite M_bind_Some by by eapply next_run, ring_next.
  erewrite M_bind_Some by by eapply next_run, ring_next.
  erewrite M_bind_Some by by apply prev_run.
  case_bool_decide as Heq.
  { exists m'. split; [done|]. eapply ring_is_last in Heq; [|done..].
    rewrite <- Heq. replace (S (S (2 * i)) / 2)%nat with (S i); [done|].
    replace (S (S (2 * i))) with (S i * 2)%nat by lia. by rewrite Nat.div_mul. }
  destruct (lookup_lt_is_Some_2 l (S (S (2 * i)))) as [n'' Hn''].
  { rewrite (ring_is_last _ _ _ _ _ Hr Hn') in Heq. lia. }
  erewrite M_bind_Some by by eapply next_run, ring_next.
  erewrite M_bind_Some by by apply prev_run.
  case_bool_decide as Heq'.
  { exists m'. split; [done|]. eapply ring_is_last in Heq'; [|done..].
    rewrite <- Heq'. replace (S (S (S (2 * i))) / 2)%nat with (S i); [done|].
    replace (S (S (S (2 * i)))) with (1 + S i * 2)%nat by lia.
    by rewrite Nat.div_add. }
  rewrite (ring_is_last _ _ _ _ _ Hr Hn'') in Heq'. apply lookup_lt_Some in Hn'' as ?.
  apply (IH (S i)); [done..| |lia|lia].
  by replace (2 * S i)%nat with (S (S (2 * i))) by lia.
Qed.

(** ** The exported theorems *)

(** [gfs_queue_init] makes an empty ring. *)
Lemma init_ring H h :
  is_Some (H !! h) →
  ∃ H', gfs_queue_init h H = Some (tt, H') ∧ ring H' h [] ∧ same_links [h] H H' ∧
        (∀ c, is_Some (H' !! c) ↔ is_Some (H !! c)).
Proof.
  intros Hh. unfold gfs_queue_init. eexists. split_and!.
  - erewrite M_bind_Some by by apply set_prev_run. apply set_next_run. by rewrite mapped_upd_prev.
  - split; [|apply NoDup_singleton]. simpl.
    rewrite nxt_upd_next, prv_upd_next, prv_upd_prev, !decide_True by done.
    destruct Hh as [n Hn]. unfold upd_prev. by rewrite lookup_alter_eq, Hn.
  - intros c Hc. unfold upd_next, upd_prev. rewrite !lookup_alter_ne by set_solver. done.
  - intros c. by rewrite mapped_upd_next, mapped_upd_prev.
Qed.

(** Any fuel above the number of elements is enough. *)
Lemma queue_sort_run cmp fuel H h l :
  ring H h l → (length l < fuel)%nat →
  ∃ H', gfs_queue_sort fuel cmp h H = Some (tt, H') ∧ ring H' h (queue_sort_spec cmp l) ∧
    same_links (h :: l) H H' ∧ (∀ c, is_Some (H' !! c) ↔ is_Some (H !! c)).
Proof.
  intros Hr Hf. unfold gfs_queue_sort, gfs_queue_head, gfs_queue_last.
  destruct (ring_last _ _ _ Hr) as [Hl _].
  pose proof (proj1 Hr) as Hs. apply seg_first in Hs as [Hn _].
  erewrite M_bind_Some by by apply next_run.
  erewrite M_bind_Some by by apply prev_run.
  destruct l as [|x l]; simpl hd in *.
  { simpl in *. rewrite bool_decide_true by done. exists H. split_and!; [done..|by intros ?|done]. }
  case_bool_decide as Hx.
  { destruct l as [|y l _] using rev_ind; [exists H; split_and!; [done..|by intros ?|done]|].
    rewrite app_comm_cons in Hr, Hx. rewrite List.last_last in Hx.
    destruct Hr as [_ Hd]. simpl app in Hd. rewrite !NoDup_cons in Hd.
    destruct Hd as (_ & Hxl & _). exfalso. apply Hxl. simpl in Hx. rewrite Hx. clear. set_solver. }
  destruct (ring_split _ _ [] _ _ Hr) as (_ & Hxs & _).
  apply seg_first in Hxs as [Hxn _].
  erewrite M_bind_Some by by apply next_run. simpl in Hf.
  destruct (sort_loop_run cmp fuel fuel H h [x] l)
    as (H' & ? & ? & ? & ?); simpl; [done..|lia|lia|]. eauto.
Qed.

(** C19: on any ring, [gfs_queue_sort] terminates and leaves a ring whose
    elements are the stable insertion sort of the original ones, touching no
    link outside the ring; when the comparison function orders integer keys
    the result is sorted, a permutation, and stable. *)
Theorem gfs_queue_sort_correct cmp key H h l :
  ring H h l → (∀ p q, cmp p q ≤ 0 ↔ key p ≤ key q) →
  ∃ H' l', gfs_queue_sort (S (length l)) cmp h H = Some (tt, H') ∧ ring H' h l' ∧
    l' ≡ₚ l ∧ StronglySorted (λ p q, key p ≤ key q) l' ∧
    (∀ k, filter (λ p, key p = k) l' = filter (λ p, key p = k) l) ∧
    same_links (h :: l) H H'.
Proof.
  intros Hr Hcmp. destruct (queue_sort_run cmp (S (length l)) H h l Hr) as (H' & Hrun & Hr' & Hsl & _); [lia|].
  exists H', (queue_sort_spec cmp l). split_and!; [done..| | | |done].
  - apply queue_sort_spec_perm.
  - by apply queue_sort_spec_sorted.
  - intros k. by apply queue_sort_spec_stable.
Qed.

(** [gfs_queue_middle] of a non-empty ring returns the element at index
    [length / 2] and leaves the store unchanged. *)
Theorem gfs_queue_middle_correct H h l :
  ring H h l → l ≠ [] →
  ∃ x, gfs_queue_middle (length l) h H = Some (x, H) ∧ l !! (length l / 2)%nat = Some x.
Proof.
  intros Hr Hne. destruct l as [|x l]; [done|]. clear Hne.
  unfold gfs_queue_middle, gfs_queue_head, gfs_queue_last.
  destruct (ring_last _ _ _ Hr) as [Hl _].
  pose proof (proj1 Hr) as Hs. apply seg_first in Hs as [Hn _]. simpl hd in Hn.
  erewrite M_bind_Some by by apply next_run.
  erewrite M_bind_Some by by apply prev_run.
  case_bool_decide as Hx.
  { exists x. split; [done|]. eapply (ring_is_last _ _ _ 0) in Hx; [|done..].
    by rewrite <- Hx. }
  erewrite M_bind_Some by by apply next_run.
  rewrite (ring_is_last _ _ _ 0 _ Hr eq_refl) in Hx. simpl in Hx.
  apply (middle_loop_run _ _ _ _ 0); simpl in *; [done..|lia|lia].
Qed.
