(* ===== verification/Rbtree.v ===== *)
(** The red-black tree of core/gfs_rbtree.h and core/gfs_rbtree.c: the pointer
    program.

    Nodes live in a store from addresses to the fields of
    [gfs_rbtree_node_t]; [color] is kept as the boolean [gfs_rbt_is_red]
    reads.  The sentinel is a node of the store like any other.  Each C
    function is one definition that reads and writes fields in the order of
    the source; loops take fuel.  The representation predicates and the
    correctness proofs are in RbtreeRep.v, RbtreeInsert.v and RbtreeDelete.v. *)
From S2P Require Import Prelude.

Record rbnode := RbNode {
  n_key : Z; n_left : Z; n_right : Z; n_parent : Z; n_red : bool }.

(** [gfs_rbtree_t] together with the memory its nodes live in. *)
Record rbt := Rbt { rb_root : Z; rb_heap : gmap Z rbnode }.

(** The null pointer. *)
Definition NULL : Z := 0.

Definition nd (a : Z) : M rbt rbnode := getsM (λ st, rb_heap st !! a).
Definition key (a : Z) : M rbt Z := n ← nd a; mret (n_key n).
Definition left (a : Z) : M rbt Z := n ← nd a; mret (n_left n).
Definition right (a : Z) : M rbt Z := n ← nd a; mret (n_right n).
Definition parent (a : Z) : M rbt Z := n ← nd a; mret (n_parent n).
Definition gfs_rbt_is_red (a : Z) : M rbt bool := n ← nd a; mret (n_red n).
Definition gfs_rbt_is_black (a : Z) : M rbt bool := n ← nd a; mret (negb (n_red n)).

Definition set_nd (a : Z) (n : rbnode) : M rbt unit :=
  modify (λ st, Rbt (rb_root st) (<[a := n]> (rb_heap st))).
Definition set_key (a v : Z) : M rbt unit :=
  n ← nd a; set_nd a (RbNode v (n_left n) (n_right n) (n_parent n) (n_red n)).
Definition set_left (a v : Z) : M rbt unit :=
  n ← nd a; set_nd a (RbNode (n_key n) v (n_right n) (n_parent n) (n_red n)).
Definition set_right (a v : Z) : M rbt unit :=
  n ← nd a; set_nd a (RbNode (n_key n) (n_left n) v (n_parent n) (n_red n)).
Definition set_parent (a v : Z) : M rbt unit :=
  n ← nd a; set_nd a (RbNode (n_key n) (n_left n) (n_right n) v (n_red n)).
Definition set_color (a : Z) (c : bool) : M rbt unit :=
  n ← nd a; set_nd a (RbNode (n_key n) (n_left n) (n_right n) (n_parent n) c).
Definition gfs_rbt_red (a : Z) : M rbt unit := set_color a true.
Definition gfs_rbt_black (a : Z) : M rbt unit := set_color a false.
Definition gfs_rbt_copy_color (a b : Z) : M rbt unit := n ← nd b; set_color a (n_red n).

Definition get_root : M rbt Z := gets rb_root.
Definition set_root (a : Z) : M rbt unit := modify (λ st, Rbt a (rb_heap st)).

(** [gfs_rbtree_init]: colour the sentinel black and make it the root. *)
Definition gfs_rbtree_init (sentinel : Z) : M rbt unit :=
  gfs_rbt_black sentinel;; set_root sentinel.

(** The loop of [gfs_rbtree_min]. *)
Fixpoint gfs_rbtree_min (fuel : nat) (sentinel node : Z) : M rbt Z :=
  match fuel with
  | O => ub
  | S fuel =>
      l ← left node;
      if bool_decide (l ≠ sentinel) then gfs_rbtree_min fuel sentinel l else mret node
  end.

Definition gfs_rbtree_left_rotate (sentinel node : Z) : M rbt unit :=
  temp ← right node;
  tl ← left temp;
  set_right node tl;;
  tl ← left temp;
  whenM (bool_decide (tl ≠ sentinel)) (set_parent tl node);;
  np ← parent node;
  set_parent temp np;;
  root ← get_root;
  (if bool_decide (node = root) then set_root temp
   else
     np ← parent node;
     npl ← left np;
     if bool_decide (node = npl) then set_left np temp else set_right np temp);;
  set_left temp node;;
  set_parent node temp.

Definition gfs_rbtree_right_rotate (sentinel node : Z) : M rbt unit :=
  temp ← left node;
  tr ← right temp;
  set_left node tr;;
  tr ← right temp;
  whenM (bool_decide (tr ≠ sentinel)) (set_parent tr node);;
  np ← parent node;
  set_parent temp np;;
  root ← get_root;
  (if bool_decide (node = root) then set_root temp
   else
     np ← parent node;
     npr ← right np;
     if bool_decide (node = npr) then set_right np temp else set_left np temp);;
  set_right temp node;;
  set_parent node temp.

(** ** Insertion *)

(** The descent shared by the insertion functions.  [side node temp] says on
    which side of [temp] the search for [node] continues ([true] is left);
    [None] is the early [return] of the timer variant. *)
Fixpoint rb_descend (fuel : nat) (side : Z → Z → M rbt (option bool))
    (temp node sentinel : Z) : M rbt unit :=
  match fuel with
  | O => ub
  | S fuel =>
      d ← side node temp;
      match d with
      | None => mret tt
      | Some d =>
          p ← (if d : bool then left temp else right temp);
          if bool_decide (p = sentinel) then
            (if d : bool then set_left temp node else set_right temp node);;
            set_parent node temp;;
            set_left node sentinel;;
            set_right node sentinel;;
            gfs_rbt_red node
          else rb_descend fuel side p node sentinel
      end
  end.

(** [node->key < temp->key] *)
Definition side_value (node temp : Z) : M rbt (option bool) :=
  nk ← key node; tk ← key temp; mret (Some (nk <? tk)).

Definition gfs_rbtree_insert_value (fuel : nat) (temp node sentinel : Z) : M rbt unit :=
  rb_descend fuel side_value temp node sentinel.

(** The repair loop of [gfs_rbtree_insert]. *)
Fixpoint rb_insert_fix (fuel : nat) (sentinel node : Z) : M rbt unit :=
  match fuel with
  | O => ub
  | S fuel =>
      root ← get_root;
      if bool_decide (node = root) then mret tt else
      np ← parent node;
      red ← gfs_rbt_is_red np;
      if negb red then mret tt else
      npp ← parent np;
      nppl ← left npp;
      if bool_decide (np = nppl) then
        temp ← right npp;
        tred ← gfs_rbt_is_red temp;
        if tred : bool then
          gfs_rbt_black np;;
          gfs_rbt_black temp;;
          gfs_rbt_red npp;;
          rb_insert_fix fuel sentinel npp
        else
          npr ← right np;
          node ← (if bool_decide (node = npr)
                  then gfs_rbtree_left_rotate sentinel np;; mret np
                  else mret node);
          np ← parent node;
          gfs_rbt_black np;;
          npp ← parent np;
          gfs_rbt_red npp;;
          gfs_rbtree_right_rotate sentinel npp;;
          rb_insert_fix fuel sentinel node
      else
        temp ← left npp;
        tred ← gfs_rbt_is_red temp;
        if tred : bool then
          gfs_rbt_black np;;
          gfs_rbt_black temp;;
          gfs_rbt_red npp;;
          rb_insert_fix fuel sentinel npp
        else
          npl ← left np;
          node ← (if bool_decide (node = npl)
                  then gfs_rbtree_right_rotate sentinel np;; mret np
                  else mret node);
          np ← parent node;
          gfs_rbt_black np;;
          npp ← parent np;
          gfs_rbt_red npp;;
          gfs_rbtree_left_rotate sentinel npp;;
          rb_insert_fix fuel sentinel node
  end.

(** [gfs_rbtree_insert tree node]; [insert] is the function pointer
    [tree->insert] and [fuel] bounds the repair loop. *)
Definition gfs_rbtree_insert (fuel : nat) (insert : Z → Z → Z → M rbt unit)
    (sentinel node : Z) : M rbt unit :=
  root ← get_root;
  if bool_decide (root = sentinel) then
    set_parent node NULL;;
    set_left node sentinel;;
    set_right node sentinel;;
    gfs_rbt_black node;;
    set_root node
  else
    insert root node sentinel;;
    rb_insert_fix fuel sentinel node;;
    root ← get_root;
    gfs_rbt_black root.

(** ** Deletion *)

(** The repair loop of [gfs_rbtree_delete]; it returns the node coloured black
    after the loop. *)
Fixpoint rb_delete_fix (fuel : nat) (sentinel temp : Z) : M rbt Z :=
  match fuel with
  | O => ub
  | S fuel =>
      root ← get_root;
      if bool_decide (temp = root) then mret temp else
      black ← gfs_rbt_is_black temp;
      if negb black then mret temp else
      tp ← parent temp;
      tpl ← left tp;
      if bool_decide (temp = tpl) then
        w ← right tp;
        wred ← gfs_rbt_is_red w;
        w ← (if wred : bool then
               gfs_rbt_black w;;
               gfs_rbt_red tp;;
               gfs_rbtree_left_rotate sentinel tp;;
               tp ← parent temp;
               right tp
             else mret w);
        wl ← left w; wlb ← gfs_rbt_is_black wl;
        wr ← right w; wrb ← gfs_rbt_is_black wr;
        if wlb && wrb then
          gfs_rbt_red w;;
          tp ← parent temp;
          rb_delete_fix fuel sentinel tp
        else
          w ← (if wrb : bool then
                 gfs_rbt_black wl;;
                 gfs_rbt_red w;;
                 gfs_rbtree_right_rotate sentinel w;;
                 tp ← parent temp;
                 right tp
               else mret w);
          tp ← parent temp;
          gfs_rbt_copy_color w tp;;
          gfs_rbt_black tp;;
          wr ← right w;
          gfs_rbt_black wr;;
          gfs_rbtree_left_rotate sentinel tp;;
          root ← get_root;
          rb_delete_fix fuel sentinel root
      else
        w ← left tp;
        wred ← gfs_rbt_is_red w;
        w ← (if wred : bool then
               gfs_rbt_black w;;
               gfs_rbt_red tp;;
               gfs_rbtree_right_rotate sentinel tp;;
               tp ← parent temp;
               left tp
             else mret w);
        wl ← left w; wlb ← gfs_rbt_is_black wl;
        wr ← right w; wrb ← gfs_rbt_is_black wr;
        if wlb && wrb then
          gfs_rbt_red w;;
          tp ← parent temp;
          rb_delete_fix fuel sentinel tp
        else
          w ← (if wlb : bool then
                 gfs_rbt_black wr;;
                 gfs_rbt_red w;;
                 gfs_rbtree_left_rotate sentinel w;;
                 tp ← parent temp;
                 left tp
               else mret w);
          tp ← parent temp;
          gfs_rbt_copy_color w tp;;
          gfs_rbt_black tp;;
          wl ← left w;
          gfs_rbt_black wl;;
          gfs_rbtree_right_rotate sentinel tp;;
          root ← get_root;
          rb_delete_fix fuel sentinel root
  end.

(** The lines marked "DEBUG stuff": the deleted node is cleared. *)
Definition rb_clear (node : Z) : M rbt unit :=
  set_left node NULL;; set_right node NULL;; set_parent node NULL;; set_key node 0.

(** Choice of [subst], the node that leaves its place, and [temp], its child. *)
Definition rb_delete_choose (fuel : nat) (sentinel node : Z) : M rbt (Z * Z) :=
  nl ← left node;
  if bool_decide (nl = sentinel) then
    temp ← right node; mret (node, temp)
  else
    nr ← right node;
    if bool_decide (nr = sentinel) then
      temp ← left node; mret (node, temp)
    else
      subst ← gfs_rbtree_min fuel sentinel nr;
      sl ← left subst;
      if bool_decide (sl ≠ sentinel) then mret (subst, sl)
      else temp ← right subst; mret (subst, temp).

(** [subst] takes the place of [node]. *)
Definition rb_delete_replace (sentinel node subst temp : Z) : M rbt unit :=
  sp ← parent subst;
  (if bool_decide (sp = node) then set_parent temp subst
   else sp ← parent subst; set_parent temp sp);;
  nl ← left node; set_left subst nl;;
  nr ← right node; set_right subst nr;;
  np ← parent node; set_parent subst np;;
  gfs_rbt_copy_color subst node;;
  root ← get_root;
  (if bool_decide (node = root) then set_root subst
   else
     np ← parent node;
     npl ← left np;
     if bool_decide (node = npl) then set_left np subst else set_right np subst);;
  sl ← left subst;
  whenM (bool_decide (sl ≠ sentinel)) (set_parent sl subst);;
  sr ← right subst;
  whenM (bool_decide (sr ≠ sentinel)) (set_parent sr subst).

Definition gfs_rbtree_delete (fuel : nat) (sentinel node : Z) : M rbt unit :=
  '(subst, temp) ← rb_delete_choose fuel sentinel node;
  root ← get_root;
  if bool_decide (subst = root) then
    set_root temp;;
    gfs_rbt_black temp;;
    rb_clear node
  else
    red ← gfs_rbt_is_red subst;
    sp ← parent subst;
    spl ← left sp;
    (if bool_decide (subst = spl) then set_left sp temp else set_right sp temp);;
    (if bool_decide (subst = node) then
       sp ← parent subst; set_parent temp sp
     else rb_delete_replace sentinel node subst temp);;
    rb_clear node;;
    if red : bool then mret tt
    else
      temp ← rb_delete_fix fuel sentinel temp;
      gfs_rbt_black temp.

(** ** Lookup *)

Fixpoint rb_lookup_loop (fuel : nat) (sentinel k tmpnode : Z) : M rbt Z :=
  match fuel with
  | O => ub
  | S fuel =>
      if bool_decide (tmpnode = sentinel) then mret NULL else
      tk ← key tmpnode;
      if bool_decide (k ≠ tk) then
        next ← (if k <? tk then left tmpnode else right tmpnode);
        rb_lookup_loop fuel sentinel k next
      else mret tmpnode
  end.

Definition gfs_rbtree_lookup_value (fuel : nat) (sentinel k : Z) : M rbt Z :=
  root ← get_root;
  rb_lookup_loop fuel sentinel k root.
