(* ===== verification/RbtreeRep.v ===== *)
(** Representation of trees in the store of Rbtree.v, as a subtree in a
    one-hole context (a zipper), and the effect of the two rotations on it. *)
From S2P Require Import Prelude Rbtree.

(** ** Trees of node addresses *)

Inductive tree :=
  | E
  | T (c : bool) (l : tree) (p k : Z) (r : tree).

#[export] Instance tree_eq_dec : EqDecision tree.
Proof. solve_decision. Defined.

(** One step up: the hole is the left ([FL]) or right ([FR]) child. *)
Inductive frame :=
  | FL (c : bool) (p k : Z) (r : tree)
  | FR (c : bool) (l : tree) (p k : Z).

Abbreviation context := (list frame).

Fixpoint ptrs (t : tree) : list Z :=
  match t with E => [] | T _ l p _ r => ptrs l ++ p :: ptrs r end.
Fixpoint inorder (t : tree) : list (Z * Z) :=
  match t with E => [] | T _ l p k r => inorder l ++ (p, k) :: inorder r end.

Definition fptr (f : frame) : Z := match f with FL _ p _ _ | FR _ _ p _ => p end.
Definition fptrs (f : frame) : list Z :=
  match f with FL _ p _ r => p :: ptrs r | FR _ l p _ => p :: ptrs l end.
Definition cptrs (ctx : context) : list Z := ctx ≫= fptrs.

Fixpoint plug (ctx : context) (t : tree) : tree :=
  match ctx with
  | [] => t
  | FL c p k r :: ctx => plug ctx (T c t p k r)
  | FR c l p k :: ctx => plug ctx (T c l p k t)
  end.

Definition is_redt (t : tree) : bool := match t with E => false | T c _ _ _ _ => c end.
Definition blacken (t : tree) : tree :=
  match t with E => E | T _ l p k r => T false l p k r end.
Definition redden (t : tree) : tree :=
  match t with E => E | T _ l p k r => T true l p k r end.

Section rep.
(** [s] is the sentinel; [par0] is whatever the root's [parent] field holds,
    which the code never reads. *)
Context (s par0 : Z).

Definition ptr (t : tree) : Z := match t with E => s | T _ _ p _ _ => p end.

Definition par_of (ctx : context) : Z :=
  match ctx with [] => par0 | f :: _ => fptr f end.

Fixpoint rep (h : gmap Z rbnode) (par : Z) (t : tree) : Prop :=
  match t with
  | E => True
  | T c l p k r =>
      h !! p = Some (RbNode k (ptr l) (ptr r) par c) ∧ rep h p l ∧ rep h p r
  end.

Fixpoint rep_ctx (h : gmap Z rbnode) (ctx : context) (hole root : Z) : Prop :=
  match ctx with
  | [] => hole = root
  | FL c p k r :: ctx =>
      h !! p = Some (RbNode k hole (ptr r) (par_of ctx) c) ∧ rep h p r ∧ rep_ctx h ctx p root
  | FR c l p k :: ctx =>
      h !! p = Some (RbNode k (ptr l) hole (par_of ctx) c) ∧ rep h p l ∧ rep_ctx h ctx p root
  end.

(** The sentinel is in the store and black. *)
Definition sentinel_ok (h : gmap Z rbnode) : Prop :=
  ∃ n, h !! s = Some n ∧ n_red n = false.

(** All node addresses are distinct and none is the sentinel. *)
Definition distinct (ctx : context) (t : tree) : Prop :=
  NoDup (s :: ptrs t ++ cptrs ctx).

Definition same_off (X : list Z) (h h' : gmap Z rbnode) : Prop :=
  ∀ q, q ∉ X → h' !! q = h !! q.

(** ** Frame properties *)

Lemma rep_ext h h' par t : (∀ q, q ∈ ptrs t → h' !! q = h !! q) → rep h par t → rep h' par t.
Proof.
  revert par. induction t as [|c l IHl p k r IHr]; intros par Hext; simpl; [done|].
  intros (Hp & Hl & Hr). simpl in Hext. split_and!.
  - rewrite Hext by set_solver. done.
  - apply IHl; [|done]. intros q Hq. apply Hext. set_solver.
  - apply IHr; [|done]. intros q Hq. apply Hext. set_solver.
Qed.

Lemma rep_ctx_ext h h' ctx a root :
  (∀ q, q ∈ cptrs ctx → h' !! q = h !! q) → rep_ctx h ctx a root → rep_ctx h' ctx a root.
Proof.
  revert a. induction ctx as [|[c p k r|c l p k] ctx IH]; intros a Hext; simpl; [done|..];
    intros (Hp & Ht & Hc); (split_and!;
    [rewrite Hext; [done|set_solver]
    |eapply rep_ext; [|done]; intros q Hq; apply Hext; set_solver
    |apply IH; [|done]; intros q Hq; apply Hext; set_solver]).
Qed.

Lemma same_off_refl X h : same_off X h h.
Proof. by intros q. Qed.
Lemma same_off_trans X Y h1 h2 h3 :
  same_off X h1 h2 → same_off Y h2 h3 → same_off (X ++ Y) h1 h3.
Proof. intros H1 H2 q Hq. rewrite H2, H1 by set_solver. done. Qed.
Lemma same_off_weaken X Y h h' : same_off X h h' → (∀ q, q ∈ X → q ∈ Y) → same_off Y h h'.
Proof. intros H1 H2 q Hq. apply H1. naive_solver. Qed.
Lemma same_off_insert a n h : same_off [a] h (<[a := n]> h).
Proof. intros q Hq. rewrite lookup_insert_ne; [done|set_solver]. Qed.

Lemma rep_same_off X h h' par t :
  same_off X h h' → (∀ q, q ∈ ptrs t → q ∉ X) → rep h par t → rep h' par t.
Proof. intros Hs Hd. apply rep_ext. intros q Hq. apply Hs. by apply Hd. Qed.
Lemma rep_ctx_same_off X h h' ctx a root :
  same_off X h h' → (∀ q, q ∈ cptrs ctx → q ∉ X) → rep_ctx h ctx a root → rep_ctx h' ctx a root.
Proof. intros Hs Hd. apply rep_ctx_ext. intros q Hq. apply Hs. by apply Hd. Qed.

(** ** Running single field accesses *)

Lemma key_run a n r h : h !! a = Some n → key a (Rbt r h) = Some (n_key n, Rbt r h).
Proof. intros H. unfold key, nd. M_unfold. simpl. by rewrite H. Qed.
Lemma left_run a n r h : h !! a = Some n → left a (Rbt r h) = Some (n_left n, Rbt r h).
Proof. intros H. unfold left, nd. M_unfold. simpl. by rewrite H. Qed.
Lemma right_run a n r h : h !! a = Some n → right a (Rbt r h) = Some (n_right n, Rbt r h).
Proof. intros H. unfold right, nd. M_unfold. simpl. by rewrite H. Qed.
Lemma parent_run a n r h : h !! a = Some n → parent a (Rbt r h) = Some (n_parent n, Rbt r h).
Proof. intros H. unfold parent, nd. M_unfold. simpl. by rewrite H. Qed.
Lemma is_red_run a n r h :
  h !! a = Some n → gfs_rbt_is_red a (Rbt r h) = Some (n_red n, Rbt r h).
Proof. intros H. unfold gfs_rbt_is_red, nd. M_unfold. simpl. by rewrite H. Qed.
Lemma is_black_run a n r h :
  h !! a = Some n → gfs_rbt_is_black a (Rbt r h) = Some (negb (n_red n), Rbt r h).
Proof. intros H. unfold gfs_rbt_is_black, nd. M_unfold. simpl. by rewrite H. Qed.
Lemma set_key_run a v n r h : h !! a = Some n →
  set_key a v (Rbt r h) =
    Some (tt, Rbt r (<[a := RbNode v (n_left n) (n_right n) (n_parent n) (n_red n)]> h)).
Proof. intros H. unfold set_key, nd, set_nd. M_unfold. simpl. by rewrite H. Qed.
Lemma set_left_run a v n r h : h !! a = Some n →
  set_left a v (Rbt r h) =
    Some (tt, Rbt r (<[a := RbNode (n_key n) v (n_right n) (n_parent n) (n_red n)]> h)).
Proof. intros H. unfold set_left, nd, set_nd. M_unfold. simpl. by rewrite H. Qed.
Lemma set_right_run a v n r h : h !! a = Some n →
  set_right a v (Rbt r h) =
    Some (tt, Rbt r (<[a := RbNode (n_key n) (n_left n) v (n_parent n) (n_red n)]> h)).
Proof. intros H. unfold set_right, nd, set_nd. M_unfold. simpl. by rewrite H. Qed.
Lemma set_parent_run a v n r h : h !! a = Some n →
  set_parent a v (Rbt r h) =
    Some (tt, Rbt r (<[a := RbNode (n_key n) (n_left n) (n_right n) v (n_red n)]> h)).
Proof. intros H. unfold set_parent, nd, set_nd. M_unfold. simpl. by rewrite H. Qed.
Lemma set_color_run a c n r h : h !! a = Some n →
  set_color a c (Rbt r h) =
    Some (tt, Rbt r (<[a := RbNode (n_key n) (n_left n) (n_right n) (n_parent n) c]> h)).
Proof. intros H. unfold set_color, nd, set_nd. M_unfold. simpl. by rewrite H. Qed.
Lemma get_root_run r h : get_root (Rbt r h) = Some (r, Rbt r h).
Proof. done. Qed.
Lemma set_root_run a r h : set_root a (Rbt r h) = Some (tt, Rbt a h).
Proof. done. Qed.

Lemma rep_ctx_root h ctx a root : rep_ctx h ctx a root → ctx ≠ [] → root ∈ cptrs ctx.
Proof.
  revert a. induction ctx as [|f ctx IH]; intros a; [done|]. intros Hr _.
  destruct (decide (ctx = [])) as [->|Hne].
  - destruct f; simpl in *; destruct Hr as (_ & _ & ->); set_solver.
  - assert (root ∈ cptrs ctx); [|destruct f; simpl; set_solver].
    destruct f; simpl in *; destruct Hr as (_ & _ & Hr); by eapply IH.
Qed.

Lemma fptrs_sub f ctx q : q ∈ fptrs f → q ∈ cptrs (f :: ctx).
Proof. simpl. set_solver. Qed.

Lemma ptr_ne h par t x : rep h par t → x ∉ ptrs t → x ≠ s → ptr t ≠ x.
Proof. destruct t; simpl; set_solver. Qed.

End rep.

(** ** Distinct addresses

    A hypothesis [NoDup l] is split once into pairwise disjointness of the
    lists [l] is made of; [ptr_solve] then closes membership goals by looking
    for the contradicting pair. *)

Definition disj (a b : list Z) : Prop := ∀ q, q ∈ a → q ∈ b → False.

Lemma disj_app_r a b c : disj a (b ++ c) ↔ disj a b ∧ disj a c.
Proof. unfold disj. setoid_rewrite elem_of_app. naive_solver. Qed.
Lemma disj_app_l a b c : disj (a ++ b) c ↔ disj a c ∧ disj b c.
Proof. unfold disj. setoid_rewrite elem_of_app. naive_solver. Qed.
Lemma disj_cons_r a x c : disj a (x :: c) ↔ disj a [x] ∧ disj a c.
Proof. apply (disj_app_r a [x] c). Qed.
Lemma disj_cons_l x b c : disj (x :: b) c ↔ disj [x] c ∧ disj b c.
Proof. apply (disj_app_l [x] b c). Qed.
Lemma disj_nil_l a : disj [] a ↔ True.
Proof. split; [done|]. intros _ q Hq. by apply elem_of_nil in Hq. Qed.
Lemma disj_nil_r a : disj a [] ↔ True.
Proof. split; [done|]. intros _ q _ Hq. by apply elem_of_nil in Hq. Qed.
Lemma disj_sym a b : disj a b → disj b a.
Proof. intros H q Ha Hb. by apply (H q). Qed.
Lemma disj_ne x y : x ≠ y → disj [x] [y].
Proof. intros H q. rewrite !list_elem_of_singleton. congruence. Qed.
Lemma NoDup_disj_app a b : NoDup (a ++ b) ↔ NoDup a ∧ disj a b ∧ NoDup b.
Proof. by rewrite NoDup_app. Qed.
Lemma NoDup_disj_cons x l : NoDup (x :: l) ↔ disj [x] l ∧ NoDup l.
Proof.
  rewrite NoDup_cons. unfold disj. setoid_rewrite list_elem_of_singleton. naive_solver.
Qed.

Ltac disj_split H :=
  lazymatch type of H with
  | _ ∧ _ => let H1 := fresh "D" in let H2 := fresh "D" in
             destruct H as [H1 H2]; disj_split H1; disj_split H2
  | True => clear H
  | NoDup [] => clear H
  | NoDup (_ :: _) => rewrite NoDup_disj_cons in H; disj_split H
  | NoDup (_ ++ _) => rewrite NoDup_disj_app in H; disj_split H
  | disj _ [] => clear H
  | disj [] _ => clear H
  | disj _ (_ ++ _) => rewrite disj_app_r in H; disj_split H
  | disj (_ ++ _) _ => rewrite disj_app_l in H; disj_split H
  | disj _ (_ :: []) =>
      lazymatch type of H with
      | disj (_ :: []) _ => idtac
      | disj (_ :: _) _ => rewrite disj_cons_l in H; disj_split H
      | _ => idtac
      end
  | disj _ (_ :: _) => rewrite disj_cons_r in H; disj_split H
  | disj (_ :: []) _ => idtac
  | disj (_ :: _) _ => rewrite disj_cons_l in H; disj_split H
  | _ => idtac
  end.

Lemma disj_elem a b q : disj a b → q ∈ a → q ∈ b → False.
Proof. intros H. apply H. Qed.

Ltac disj_absurd :=
  match goal with
  | D : disj ?a ?b, H1 : ?q ∈ ?a, H2 : ?q ∈ ?b |- _ => destruct (disj_elem a b q D H1 H2)
  | D : disj [?q] ?b, H : ?q ∈ ?b |- _ =>
      destruct (disj_elem [q] b q D (list_elem_of_here _ _) H)
  | D : disj ?b [?q], H : ?q ∈ ?b |- _ =>
      destruct (disj_elem b [q] q D H (list_elem_of_here _ _))
  | D : disj [?q] [?q] |- _ =>
      destruct (disj_elem [q] [q] q D (list_elem_of_here _ _) (list_elem_of_here _ _))
  end.
Ltac mem_split :=
  repeat match goal with
  | H : _ ∈ _ ++ _ |- _ => apply elem_of_app in H as [H|H]
  | H : _ ∈ [] |- _ => by apply elem_of_nil in H
  | H : _ ∈ [_] |- _ => apply list_elem_of_singleton in H; subst
  | H : _ ∈ _ :: _ |- _ => apply elem_of_cons in H as [H|H]; [subst|]
  end.
Ltac mem_goal :=
  first [ assumption | apply list_elem_of_here
        | apply elem_of_app; left; mem_goal | apply elem_of_app; right; mem_goal
        | apply list_elem_of_further; mem_goal ].

Ltac disj_atom := first [assumption | apply disj_sym; assumption | apply disj_ne; done].
Ltac disj_left :=
  lazymatch goal with
  | |- disj [] _ => by apply disj_nil_l
  | |- disj (_ ++ _) _ => apply disj_app_l; split; disj_left
  | |- disj [_] _ => disj_atom
  | |- disj (_ :: _) _ => apply disj_cons_l; split; disj_left
  | |- _ => disj_atom
  end.
Ltac disj_goal :=
  lazymatch goal with
  | |- _ ∧ _ => split; disj_goal
  | |- NoDup [] => apply NoDup_nil_2
  | |- NoDup (_ :: _) => apply NoDup_disj_cons; split; disj_goal
  | |- NoDup (_ ++ _) => apply NoDup_disj_app; split; [|split]; disj_goal
  | |- disj _ [] => by apply disj_nil_r
  | |- disj _ (_ ++ _) => apply disj_app_r; split; disj_goal
  | |- disj _ [_] => disj_left
  | |- disj _ (_ :: _) => apply disj_cons_r; split; disj_goal
  | |- disj _ _ => disj_left
  | |- _ => assumption
  end.

Ltac ptr_solve :=
  lazymatch goal with
  | |- NoDup _ => simpl; disj_goal
  | |- _ => unfold not; intros; subst;
      first [ disj_absurd
            | simpl in *; mem_split;
              first [ disj_absurd | mem_goal ] ]
  end.

(** [rb_look] finds the node stored at an address of an updated store; it uses
    the disequalities and the [same_off] facts of the context. *)
Ltac rb_look :=
  first
    [ eassumption
    | rewrite lookup_insert_eq; reflexivity
    | rewrite lookup_insert_ne by first [assumption | congruence | ptr_solve]; rb_look
    | match goal with
      | Hs : same_off ?X ?h ?h' |- ?h' !! ?q = _ =>
          rewrite (Hs q) by first [assumption | ptr_solve]; rb_look
      end ].

(** [rb_op] runs the operation at the head of the goal. *)
Ltac rb_op1 :=
  first [ apply get_root_run | apply set_root_run
        | eapply left_run; rb_look | eapply right_run; rb_look
        | eapply parent_run; rb_look | eapply is_red_run; rb_look
        | eapply is_black_run; rb_look | eapply key_run; rb_look
        | eapply set_left_run; rb_look | eapply set_right_run; rb_look
        | eapply set_parent_run; rb_look | eapply set_color_run; rb_look
        | eapply set_key_run; rb_look ].
Ltac rb_simpl := cbn [n_key n_left n_right n_parent n_red negb].
Ltac rb_op := erewrite M_bind_Some by rb_op1; rb_simpl.
Ltac rb_true := rewrite bool_decide_true by (done || congruence).
Ltac rb_false := rewrite bool_decide_false by (done || congruence).

Section rotate.
Context (s par0 : Z).
Local Abbreviation ptr := (ptr s).
Local Abbreviation rep := (rep s).
Local Abbreviation rep_ctx := (rep_ctx s par0).
Local Abbreviation par_of := (par_of par0).

(** The conditional [set_parent] of a rotation. *)
Lemma reparent_run h root b par x :
  rep h par b → NoDup (ptrs b) → s ∉ ptrs b →
  ∃ h', whenM (bool_decide (ptr b ≠ s)) (set_parent (ptr b) x) (Rbt root h) =
          Some (tt, Rbt root h') ∧ rep h' x b ∧ same_off (ptrs b) h h'.
Proof.
  intros Hb Hd Hs. destruct b as [|c l p k r]; simpl in *.
  - rb_false. exists h. split_and!; [done..|apply same_off_refl].
  - destruct Hb as (Hp & Hl & Hr). disj_split Hd.
    rewrite bool_decide_true by (intros ->; apply Hs; rewrite elem_of_app, elem_of_cons; tauto). simpl.
    eexists. split; [eapply set_parent_run; rb_look|]. simpl. split_and!.
    + by rewrite lookup_insert_eq.
    + eapply rep_same_off; [apply same_off_insert| |done]; ptr_solve.
    + eapply rep_same_off; [apply same_off_insert| |done]; ptr_solve.
    + eapply same_off_weaken; [apply same_off_insert|ptr_solve].
Qed.

(** The root test and re-linking of a rotation, in the left-first order of
    [gfs_rbtree_left_rotate] and the right-first order of
    [gfs_rbtree_right_rotate]. *)
Lemma relink_left_run h root ctx x y n :
  rep_ctx h ctx x root → h !! x = Some n → n_parent n = par_of ctx →
  NoDup (s :: x :: cptrs ctx) →
  ∃ h' root',
    (∀ A (m : M rbt A),
      (root ← get_root;
       (if bool_decide (x = root) then set_root y
        else np ← parent x; npl ← left np;
             if bool_decide (x = npl) then set_left np y else set_right np y);; m) (Rbt root h) =
      m (Rbt root' h')) ∧ rep_ctx h' ctx y root' ∧ same_off (cptrs ctx) h h' ∧
    (ctx ≠ [] → root' = root).
Proof.
  intros Hc Hx Hn Hd. destruct ctx as [|f ctx].
  - simpl in Hc. subst. exists h, y. split_and!; [|done|apply same_off_refl|done].
    intros A m. rb_op. rb_true. by rb_op.
  - pose proof (rep_ctx_root _ _ _ _ _ _ Hc ltac:(done)) as Hroot.
    assert (x ≠ root) by (clear -Hd Hroot; disj_split Hd; ptr_solve).
    destruct f as [c p k r|c l p k]; simpl in *;
      disj_split Hd; destruct Hc as (Hp & Ht & Hc).
    + eexists _, root. split_and!.
      * intros A m. rb_op. rb_false. erewrite M_bind_Some; [reflexivity|].
        rb_op. rewrite Hn. rb_op. rb_true. eapply set_left_run; rb_look.
      * simpl. by rewrite lookup_insert_eq.
      * eapply rep_same_off; [apply same_off_insert| |done]; ptr_solve.
      * eapply rep_ctx_same_off; [apply same_off_insert| |done]; ptr_solve.
      * eapply same_off_weaken; [apply same_off_insert|ptr_solve].
      * done.
    + assert (ptr l ≠ x) by (eapply ptr_ne; [done|ptr_solve|ptr_solve]).
      eexists _, root. split_and!.
      * intros A m. rb_op. rb_false. erewrite M_bind_Some; [reflexivity|].
        rb_op. rewrite Hn. rb_op. rb_false. eapply set_right_run; rb_look.
      * simpl. by rewrite lookup_insert_eq.
      * eapply rep_same_off; [apply same_off_insert| |done]; ptr_solve.
      * eapply rep_ctx_same_off; [apply same_off_insert| |done]; ptr_solve.
      * eapply same_off_weaken; [apply same_off_insert|ptr_solve].
      * done.
Qed.

Lemma relink_right_run h root ctx x y n :
  rep_ctx h ctx x root → h !! x = Some n → n_parent n = par_of ctx →
  NoDup (s :: x :: cptrs ctx) →
  ∃ h' root',
    (∀ A (m : M rbt A),
      (root ← get_root;
       (if bool_decide (x = root) then set_root y
        else np ← parent x; npr ← right np;
             if bool_decide (x = npr) then set_right np y else set_left np y);; m) (Rbt root h) =
      m (Rbt root' h')) ∧ rep_ctx h' ctx y root' ∧ same_off (cptrs ctx) h h' ∧
    (ctx ≠ [] → root' = root).
Proof.
  intros Hc Hx Hn Hd. destruct ctx as [|f ctx].
  - simpl in Hc. subst. exists h, y. split_and!; [|done|apply same_off_refl|done].
    intros A m. rb_op. rb_true. by rb_op.
  - pose proof (rep_ctx_root _ _ _ _ _ _ Hc ltac:(done)) as Hroot.
    assert (x ≠ root) by (clear -Hd Hroot; disj_split Hd; ptr_solve).
    destruct f as [c p k r|c l p k]; simpl in *;
      disj_split Hd; destruct Hc as (Hp & Ht & Hc).
    + assert (ptr r ≠ x) by (eapply ptr_ne; [done|ptr_solve|ptr_solve]).
      eexists _, root. split_and!.
      * intros A m. rb_op. rb_false. erewrite M_bind_Some; [reflexivity|].
        rb_op. rewrite Hn. rb_op. rb_false. eapply set_left_run; rb_look.
      * simpl. by rewrite lookup_insert_eq.
      * eapply rep_same_off; [apply same_off_insert| |done]; ptr_solve.
      * eapply rep_ctx_same_off; [apply same_off_insert| |done]; ptr_solve.
      * eapply same_off_weaken; [apply same_off_insert|ptr_solve].
      * done.
    + eexists _, root. split_and!.
      * intros A m. rb_op. rb_false. erewrite M_bind_Some; [reflexivity|].
        rb_op. rewrite Hn. rb_op. rb_true. eapply set_right_run; rb_look.
      * simpl. by rewrite lookup_insert_eq.
      * eapply rep_same_off; [apply same_off_insert| |done]; ptr_solve.
      * eapply rep_ctx_same_off; [apply same_off_insert| |done]; ptr_solve.
      * eapply same_off_weaken; [apply same_off_insert|ptr_solve].
      * done.
Qed.

(** [gfs_rbtree_left_rotate] at the node [x] of a zipper. *)
Lemma left_rotate_run h root ctx cx a x kx cy b y ky c :
  rep h (par_of ctx) (T cx a x kx (T cy b y ky c)) → rep_ctx h ctx x root →
  distinct s ctx (T cx a x kx (T cy b y ky c)) →
  ∃ h' root', gfs_rbtree_left_rotate s x (Rbt root h) = Some (tt, Rbt root' h') ∧
    rep h' (par_of ctx) (T cy (T cx a x kx b) y ky c) ∧ rep_ctx h' ctx y root' ∧
    same_off (x :: y :: ptrs b ++ cptrs ctx) h h' ∧ (ctx ≠ [] → root' = root).
Proof.
  intros Hr Hc Hd. unfold distinct in Hd. simpl in Hr, Hd.
  destruct Hr as (Hx & Ha & Hy & Hb & Hcc).
  disj_split Hd.
  unfold gfs_rbtree_left_rotate. rb_op. rb_op. rb_op. rb_op.
  destruct (reparent_run (<[x:=RbNode kx (ptr a) (ptr b) (par_of ctx) cx]> h) root b y x)
    as (h2 & Hrun2 & Hb2 & Hs2); [|done|ptr_solve|].
  { eapply rep_same_off; [apply same_off_insert| |done]; ptr_solve. }
  erewrite M_bind_Some by exact Hrun2. rb_op. rb_op.
  assert (same_off (x :: y :: ptrs b) h
    (<[y:=RbNode ky (ptr b) (ptr c) (par_of ctx) cy]> h2)) as Hs3.
  { eapply same_off_weaken; [eapply same_off_trans; [eapply same_off_trans;
      [apply (same_off_insert x)|exact Hs2]|apply same_off_insert]|ptr_solve]. }
  destruct (relink_left_run (<[y:=RbNode ky (ptr b) (ptr c) (par_of ctx) cy]> h2)
    root ctx x y (RbNode kx (ptr a) (ptr b) (par_of ctx) cx))
    as (h4 & root' & Hrun4 & Hc4 & Hs4 & Hroot).
  { eapply rep_ctx_same_off; [exact Hs3| |done]; ptr_solve. }
  { rb_look. }
  { done. }
  { ptr_solve. }
  rewrite Hrun4. rb_op.
  eexists _, root'. split_and!; [eapply set_parent_run; rb_look|..|done]; rb_simpl.
  - simpl. split_and!; [rb_look|rb_look|..].
    + do 2 (eapply rep_same_off; [apply same_off_insert|ptr_solve|]).
      eapply rep_same_off; [exact Hs4|ptr_solve|].
      eapply rep_same_off; [exact Hs3|ptr_solve|done].
    + do 2 (eapply rep_same_off; [apply same_off_insert|ptr_solve|]).
      eapply rep_same_off; [exact Hs4|ptr_solve|].
      eapply rep_same_off; [apply same_off_insert|ptr_solve|done].
    + do 2 (eapply rep_same_off; [apply same_off_insert|ptr_solve|]).
      eapply rep_same_off; [exact Hs4|ptr_solve|].
      eapply rep_same_off; [exact Hs3|ptr_solve|done].
  - do 2 (eapply rep_ctx_same_off; [apply same_off_insert|ptr_solve|]). done.
  - eapply same_off_weaken; [do 2 (eapply same_off_trans; [|apply same_off_insert]);
      eapply same_off_trans; [exact Hs3|exact Hs4]|ptr_solve].
Qed.
(** [gfs_rbtree_right_rotate] at the node [x] of a zipper. *)
Lemma right_rotate_run h root ctx cx a x kx cy b y ky c :
  rep h (par_of ctx) (T cx (T cy c y ky b) x kx a) → rep_ctx h ctx x root →
  distinct s ctx (T cx (T cy c y ky b) x kx a) →
  ∃ h' root', gfs_rbtree_right_rotate s x (Rbt root h) = Some (tt, Rbt root' h') ∧
    rep h' (par_of ctx) (T cy c y ky (T cx b x kx a)) ∧ rep_ctx h' ctx y root' ∧
    same_off (x :: y :: ptrs b ++ cptrs ctx) h h' ∧ (ctx ≠ [] → root' = root).
Proof.
  intros Hr Hc Hd. unfold distinct in Hd. simpl in Hr, Hd.
  destruct Hr as (Hx & (Hy & Hcc & Hb) & Ha).
  disj_split Hd.
  unfold gfs_rbtree_right_rotate. rb_op. rb_op. rb_op. rb_op.
  destruct (reparent_run (<[x:=RbNode kx (ptr b) (ptr a) (par_of ctx) cx]> h) root b y x)
    as (h2 & Hrun2 & Hb2 & Hs2); [|done|ptr_solve|].
  { eapply rep_same_off; [apply same_off_insert| |done]; ptr_solve. }
  erewrite M_bind_Some by exact Hrun2. rb_op. rb_op.
  assert (same_off (x :: y :: ptrs b) h
    (<[y:=RbNode ky (ptr c) (ptr b) (par_of ctx) cy]> h2)) as Hs3.
  { eapply same_off_weaken; [eapply same_off_trans; [eapply same_off_trans;
      [apply (same_off_insert x)|exact Hs2]|apply same_off_insert]|ptr_solve]. }
  destruct (relink_right_run (<[y:=RbNode ky (ptr c) (ptr b) (par_of ctx) cy]> h2)
    root ctx x y (RbNode kx (ptr b) (ptr a) (par_of ctx) cx))
    as (h4 & root' & Hrun4 & Hc4 & Hs4 & Hroot).
  { eapply rep_ctx_same_off; [exact Hs3| |done]; ptr_solve. }
  { rb_look. }
  { done. }
  { ptr_solve. }
  rewrite Hrun4. rb_op.
  eexists _, root'. split_and!; [eapply set_parent_run; rb_look|..|done]; rb_simpl.
  - simpl. split_and!; [rb_look| |rb_look|..].
    + do 2 (eapply rep_same_off; [apply same_off_insert|ptr_solve|]).
      eapply rep_same_off; [exact Hs4|ptr_solve|].
      eapply rep_same_off; [exact Hs3|ptr_solve|done].
    + do 2 (eapply rep_same_off; [apply same_off_insert|ptr_solve|]).
      eapply rep_same_off; [exact Hs4|ptr_solve|].
      eapply rep_same_off; [apply same_off_insert|ptr_solve|done].
    + do 2 (eapply rep_same_off; [apply same_off_insert|ptr_solve|]).
      eapply rep_same_off; [exact Hs4|ptr_solve|].
      eapply rep_same_off; [exact Hs3|ptr_solve|done].
  - do 2 (eapply rep_ctx_same_off; [apply same_off_insert|ptr_solve|]). done.
  - eapply same_off_weaken; [do 2 (eapply same_off_trans; [|apply same_off_insert]);
      eapply same_off_trans; [exact Hs3|exact Hs4]|ptr_solve].
Qed.
End rotate.

(** The zipper invariant of the tree programs: a store that represents a
    subtree in a context, a black sentinel, distinct addresses, and a bound
    [X] on the addresses touched since the start store [h0].  Every lemma says
    what one operation of Rbtree.v does to the zipper. *)
Section zip.
Context (s par0 : Z) (X : list Z) (h0 : gmap Z rbnode).
Local Abbreviation ptr := (ptr s).
Local Abbreviation par_of := (par_of par0).

Record zst (st : rbt) (ctx : context) (t : tree) : Prop := {
  z_rep : rep s (rb_heap st) (par_of ctx) t;
  z_ctx : rep_ctx s par0 (rb_heap st) ctx (ptr t) (rb_root st);
  z_dist : distinct s ctx t;
  z_sent : sentinel_ok s (rb_heap st);
  z_same : same_off X h0 (rb_heap st);
  z_sub : ∀ q, q ∈ ptrs t ++ cptrs ctx → q ∈ X }.

Lemma distinct_perm ctx t ctx' t' :
  ptrs t ++ cptrs ctx ≡ₚ ptrs t' ++ cptrs ctx' → distinct s ctx t ↔ distinct s ctx' t'.
Proof. intros Hp. unfold distinct. by rewrite Hp. Qed.

Lemma perm_up_l c p k r ctx t :
  ptrs t ++ cptrs (FL c p k r :: ctx) ≡ₚ ptrs (T c t p k r) ++ cptrs ctx.
Proof. simpl. by rewrite <- app_assoc. Qed.
Lemma perm_up_r c l p k ctx t :
  ptrs t ++ cptrs (FR c l p k :: ctx) ≡ₚ ptrs (T c l p k t) ++ cptrs ctx.
Proof.
  simpl. rewrite <- app_assoc. simpl. rewrite <- !Permutation_middle. constructor.
  rewrite !(app_assoc _ _ (cptrs ctx)). f_equiv. apply Permutation_app_comm.
Qed.

(** Moving the focus up or down changes nothing in the store. *)
Lemma zst_refocus st ctx t ctx' t' :
  ptrs t ++ cptrs ctx ≡ₚ ptrs t' ++ cptrs ctx' →
  rep s (rb_heap st) (par_of ctx') t' →
  rep_ctx s par0 (rb_heap st) ctx' (ptr t') (rb_root st) → zst st ctx t → zst st ctx' t'.
Proof.
  intros Hp Hr Hc [_ _ Hd Hs Hh Hsub]. split; [done..| |done|done|].
  - by apply (distinct_perm _ _ _ _ Hp).
  - intros q. rewrite <- Hp. apply Hsub.
Qed.

Lemma zst_l st c p k r ctx t : zst st (FL c p k r :: ctx) t ↔ zst st ctx (T c t p k r).
Proof.
  split; intros Hz; (eapply zst_refocus; [| | |exact Hz]);
    (apply perm_up_l || (symmetry; apply perm_up_l) || (destruct Hz as [? ?]; simpl in *; tauto)).
Qed.
Lemma zst_r st c l p k ctx t : zst st (FR c l p k :: ctx) t ↔ zst st ctx (T c l p k t).
Proof.
  split; intros Hz; (eapply zst_refocus; [| | |exact Hz]);
    (apply perm_up_r || (symmetry; apply perm_up_r) || (destruct Hz as [? ?]; simpl in *; tauto)).
Qed.
Lemma zst_plug st ctx t : zst st ctx t ↔ zst st [] (plug ctx t).
Proof.
  revert t. induction ctx as [|[c p k r|c l p k] ctx IH]; intros t; simpl; [done|..];
    rewrite <- IH; [apply zst_l|apply zst_r].
Qed.

(** ** Reading *)

Lemma zst_look st ctx c l p k r :
  zst st ctx (T c l p k r) →
  rb_heap st !! p = Some (RbNode k (ptr l) (ptr r) (par_of ctx) c).
Proof. intros [Hr]. by destruct Hr. Qed.

Lemma zst_root st t : zst st [] t → rb_root st = ptr t.
Proof. intros [_ Hc]. done. Qed.

Lemma zst_subtree_l st ctx c l p k r : zst st ctx (T c l p k r) → zst st (FL c p k r :: ctx) l.
Proof. by rewrite zst_l. Qed.
Lemma zst_subtree_r st ctx c l p k r : zst st ctx (T c l p k r) → zst st (FR c l p k :: ctx) r.
Proof. by rewrite zst_r. Qed.

Lemma zst_up_l st c p k r ctx t : zst st (FL c p k r :: ctx) t → zst st ctx (T c t p k r).
Proof. by rewrite zst_l. Qed.
Lemma zst_up_r st c l p k ctx t : zst st (FR c l p k :: ctx) t → zst st ctx (T c l p k t).
Proof. by rewrite zst_r. Qed.

(** The colour read through a child pointer is the colour of the subtree; the
    sentinel reads black. *)
Lemma zst_color st ctx t :
  zst st ctx t → ∃ n, rb_heap st !! ptr t = Some n ∧ n_red n = is_redt t.
Proof.
  intros [Hr _ _ Hs]. destruct t; simpl in *; [done|]. destruct Hr as [Hr _]. eauto.
Qed.

Lemma zst_red_run st ctx t :
  zst st ctx t → gfs_rbt_is_red (ptr t) st = Some (is_redt t, st).
Proof.
  intros (n & Hn & Hc)%zst_color. destruct st. by erewrite is_red_run, Hc.
Qed.
Lemma zst_black_run st ctx t :
  zst st ctx t → gfs_rbt_is_black (ptr t) st = Some (negb (is_redt t), st).
Proof.
  intros (n & Hn & Hc)%zst_color. destruct st. by erewrite is_black_run, Hc.
Qed.

Lemma zst_tred_run st ctx c l p k r :
  zst st ctx (T c l p k r) → gfs_rbt_is_red p st = Some (c, st).
Proof. apply zst_red_run. Qed.
Lemma zst_tblack_run st ctx c l p k r :
  zst st ctx (T c l p k r) → gfs_rbt_is_black p st = Some (negb c, st).
Proof. apply zst_black_run. Qed.

Lemma zst_key_run st ctx c l p k r :
  zst st ctx (T c l p k r) → key p st = Some (k, st).
Proof. intros H%zst_look. destruct st. by rewrite (key_run _ _ _ _ H). Qed.
Lemma zst_left_run st ctx c l p k r :
  zst st ctx (T c l p k r) → left p st = Some (ptr l, st).
Proof. intros H%zst_look. destruct st. by rewrite (left_run _ _ _ _ H). Qed.
Lemma zst_right_run st ctx c l p k r :
  zst st ctx (T c l p k r) → right p st = Some (ptr r, st).
Proof. intros H%zst_look. destruct st. by rewrite (right_run _ _ _ _ H). Qed.
Lemma zst_parent_run st ctx c l p k r :
  zst st ctx (T c l p k r) → parent p st = Some (par_of ctx, st).
Proof. intros H%zst_look. destruct st. by rewrite (parent_run _ _ _ _ H). Qed.

(** ** Distinctness at the focus *)

Lemma zst_ne st ctx c l p k r :
  zst st ctx (T c l p k r) → p ≠ s ∧ ptr l ≠ p ∧ ptr r ≠ p ∧ (l ≠ E → ptr l ≠ s) ∧
  (r ≠ E → ptr r ≠ s) ∧ (ptr l = ptr r → l = E ∧ r = E).
Proof.
  intros [_ _ Hd _ _]. unfold distinct in Hd. simpl in Hd.
  destruct l as [|cl ll pl kl rl], r as [|cr lr pr kr rr]; simpl in *; disj_split Hd;
    split_and!; try done; try ptr_solve; intros; exfalso;
    match goal with H : _ = _ |- _ => revert H; ptr_solve end.
Qed.

Lemma zst_not_root st f ctx t :
  zst st (f :: ctx) t → t ≠ E → ptr t ≠ rb_root st.
Proof.
  intros [_ Hc Hd _ _] Ht. destruct t as [|c l p k r]; [done|]. clear Ht.
  pose proof (rep_ctx_root _ _ _ _ _ _ Hc ltac:(done)) as Hroot.
  unfold distinct in Hd. simpl ptrs in Hd. disj_split Hd. simpl. ptr_solve.
Qed.

(** ** Writing colours *)

Lemma zst_set_color st ctx c l p k r c' :
  zst st ctx (T c l p k r) →
  ∃ st', set_color p c' st = Some (tt, st') ∧ zst st' ctx (T c' l p k r).
Proof.
  intros Hz. pose proof (zst_look _ _ _ _ _ _ _ Hz) as Hp. destruct st as [root h].
  eexists. split; [by eapply set_color_run|]. destruct Hz as [Hr Hc Hd Hs Hh Hsub].
  simpl in *. destruct Hr as (_ & Hl & Hr). pose proof Hd as Hd'. unfold distinct in Hd'.
  simpl in Hd'. disj_split Hd'. split; simpl.
  - rewrite lookup_insert_eq. split_and!; [done|..];
      (eapply rep_same_off; [apply same_off_insert|ptr_solve|done]).
  - eapply rep_ctx_same_off; [apply same_off_insert|ptr_solve|done].
  - done.
  - destruct Hs as (n & Hn & Hb). exists n. split; [|done]. rb_look.
  - eapply same_off_weaken; [eapply same_off_trans; [done|apply same_off_insert]|].
    intros q [Hq|Hq%list_elem_of_singleton]%elem_of_app; [done|]. subst. apply Hsub. set_solver.
  - done.
Qed.

(** ** Rotations *)

Lemma zst_left_rotate st ctx cx a x kx cy b y ky c :
  zst st ctx (T cx a x kx (T cy b y ky c)) →
  ∃ st', gfs_rbtree_left_rotate s x st = Some (tt, st') ∧
         zst st' ctx (T cy (T cx a x kx b) y ky c) ∧ (ctx ≠ [] → rb_root st' = rb_root st).
Proof.
  intros [Hr Hc Hd Hs Hh Hsub]. destruct st as [root h].
  destruct (left_rotate_run s par0 h root ctx cx a x kx cy b y ky c)
    as (h' & root' & Hrun & Hr' & Hc' & Hs' & Hroot); [done..|].
  eexists. split; [done|]. split; [|done].
  assert (ptrs (T cx a x kx (T cy b y ky c)) ++ cptrs ctx =
          ptrs (T cy (T cx a x kx b) y ky c) ++ cptrs ctx) as Heq
    by (simpl; repeat (rewrite <- app_assoc; simpl); done).
  split; cbn [rb_heap rb_root]; [done|done|..].
  - unfold distinct in *. by rewrite <- Heq.
  - destruct Hs as (n & Hn & Hb). exists n. split; [|done].
    unfold distinct in Hd. simpl in Hd. disj_split Hd. simpl in Hn. rb_look.
  - eapply same_off_weaken; [eapply same_off_trans; [done|exact Hs']|].
    intros q [Hq|Hq]%elem_of_app; [done|]. apply Hsub. simpl. set_solver.
  - intros q Hq. apply Hsub. by rewrite Heq.
Qed.

Lemma zst_right_rotate st ctx cx a x kx cy b y ky c :
  zst st ctx (T cx (T cy c y ky b) x kx a) →
  ∃ st', gfs_rbtree_right_rotate s x st = Some (tt, st') ∧
         zst st' ctx (T cy c y ky (T cx b x kx a)) ∧ (ctx ≠ [] → rb_root st' = rb_root st).
Proof.
  intros [Hr Hc Hd Hs Hh Hsub]. destruct st as [root h].
  destruct (right_rotate_run s par0 h root ctx cx a x kx cy b y ky c)
    as (h' & root' & Hrun & Hr' & Hc' & Hs' & Hroot); [done..|].
  eexists. split; [done|]. split; [|done].
  assert (ptrs (T cx (T cy c y ky b) x kx a) ++ cptrs ctx =
          ptrs (T cy c y ky (T cx b x kx a)) ++ cptrs ctx) as Heq
    by (simpl; repeat (rewrite <- app_assoc; simpl); done).
  split; cbn [rb_heap rb_root]; [done|done|..].
  - unfold distinct in *. by rewrite <- Heq.
  - destruct Hs as (n & Hn & Hb). exists n. split; [|done].
    unfold distinct in Hd. simpl in Hd. disj_split Hd. simpl in Hn. rb_look.
  - eapply same_off_weaken; [eapply same_off_trans; [done|exact Hs']|].
    intros q [Hq|Hq]%elem_of_app; [done|]. apply Hsub. simpl. set_solver.
  - intros q Hq. apply Hsub. by rewrite Heq.
Qed.
End zip.
