(* ===== verification/RbtreeInsert.v ===== *)
(** Insertion in the red-black tree: the repair loop of [gfs_rbtree_insert]
    refines a functional repair of a zipper, which keeps the in-order
    sequence and restores the red-black invariant. *)
From S2P Require Import Prelude Rbtree RbtreeRep.

Definition fcolor (f : frame) : bool := match f with FL c _ _ _ | FR c _ _ _ => c end.

(** The root of the plugged tree, when it is in the context, is black. *)
Fixpoint top_black (ctx : context) : Prop :=
  match ctx with
  | [] => True
  | [f] => fcolor f = false
  | _ :: ctx => top_black ctx
  end.

(** The repair: [t] is a red subtree, [ctx] the path above it. *)
Fixpoint fix_insert (ctx : context) (t : tree) : tree :=
  match ctx with
  | FL true p kp r :: FL cg g kg u :: ctx' =>
      if is_redt u then fix_insert ctx' (T true (T false t p kp r) g kg (blacken u))
      else plug ctx' (T false t p kp (T true r g kg u))
  | FR true l p kp :: FL cg g kg u :: ctx' =>
      if is_redt u then fix_insert ctx' (T true (T false l p kp t) g kg (blacken u))
      else match t with
           | T _ a x kx b => plug ctx' (T false (T true l p kp a) x kx (T true b g kg u))
           | E => plug ctx t
           end
  | FR true l p kp :: FR cg u g kg :: ctx' =>
      if is_redt u then fix_insert ctx' (T true (blacken u) g kg (T false l p kp t))
      else plug ctx' (T false (T true u g kg l) p kp t)
  | FL true p kp r :: FR cg u g kg :: ctx' =>
      if is_redt u then fix_insert ctx' (T true (blacken u) g kg (T false t p kp r))
      else match t with
           | T _ a x kx b => plug ctx' (T false (T true u g kg a) x kx (T true b p kp r))
           | E => plug ctx t
           end
  | _ => plug ctx t
  end.

(** ** What the functional repair preserves *)

Lemma inorder_plug ctx t t' :
  inorder t = inorder t' → inorder (plug ctx t) = inorder (plug ctx t').
Proof.
  revert t t'. induction ctx as [|[] ctx IH]; intros t t' H; simpl; [done|..];
    apply IH; simpl; by rewrite H.
Qed.

Lemma inorder_blacken t : inorder (blacken t) = inorder t.
Proof. by destruct t. Qed.

Ltac app_norm := simpl; repeat (rewrite <- app_assoc; simpl); done.

Lemma fix_insert_inorder_len n ctx t :
  (length ctx < n)%nat → inorder (fix_insert ctx t) = inorder (plug ctx t).
Proof.
  revert ctx t. induction n as [|n IH]; intros ctx t Hn; [lia|].
  destruct ctx as [|[[] p kp r|[] l p kp] [|[cg g kg u|cg u g kg] ctx]];
    simpl in *; try done;
    (destruct (is_redt u); [rewrite IH by lia|try destruct t; try done];
     apply inorder_plug; simpl; rewrite ?inorder_blacken; app_norm).
Qed.
Lemma fix_insert_inorder ctx t : inorder (fix_insert ctx t) = inorder (plug ctx t).
Proof. by apply (fix_insert_inorder_len (S (length ctx))); lia. Qed.

(** The red-black invariant: no red node has a red child, and every path has
    the same number of black nodes. *)
Inductive bal : tree → bool → nat → Prop :=
  | bal_E : bal E false 0
  | bal_red l p k r n : bal l false n → bal r false n → bal (T true l p k r) true n
  | bal_black l p k r cl cr n :
      bal l cl n → bal r cr n → bal (T false l p k r) false (S n).

(** [bal_ctx ctx c n m]: plugging a tree of colour at most [c] and black
    height [n] gives a balanced tree of black height [m] with a black root. *)
Inductive bal_ctx : context → bool → nat → nat → Prop :=
  | bctx_nil n : bal_ctx [] false n n
  | bctx_red_l p k r n m ctx :
      bal r false n → bal_ctx ctx true n m → bal_ctx (FL true p k r :: ctx) false n m
  | bctx_red_r p k l n m ctx :
      bal l false n → bal_ctx ctx true n m → bal_ctx (FR true l p k :: ctx) false n m
  | bctx_black_l p k r c cr n m ctx :
      bal r cr n → bal_ctx ctx false (S n) m → bal_ctx (FL false p k r :: ctx) c n m
  | bctx_black_r p k l c cl n m ctx :
      bal l cl n → bal_ctx ctx false (S n) m → bal_ctx (FR false l p k :: ctx) c n m.

#[export] Hint Constructors bal bal_ctx : rb.

Definition redblack (t : tree) : Prop := ∃ n, bal t false n.

Lemma bal_color t c n : bal t c n → c = is_redt t.
Proof. by destruct 1. Qed.

(** A context that takes a red tree takes a black one of the same height. *)
Lemma bal_ctx_weaken ctx n m : bal_ctx ctx true n m → bal_ctx ctx false n m.
Proof. inversion 1; subst; eauto with rb. Qed.

Lemma bal_plug ctx t c n m : bal_ctx ctx c n m → bal t c n → bal (plug ctx t) false m.
Proof.
  intros H. revert t.
  induction H; intros t Ht; simpl; eauto with rb.
Qed.

Lemma bal_plug_black ctx t c n m :
  bal_ctx ctx c n m → bal t false n → bal (plug ctx t) false m.
Proof. destruct c; intros H Ht; [apply bal_ctx_weaken in H|]; by eapply bal_plug. Qed.

Lemma bal_ctx_top ctx c n m : bal_ctx ctx c n m → top_black ctx.
Proof.
  induction 1; simpl; [done|..]; destruct ctx; try done.
  all: by match goal with H : bal_ctx [] true _ _ |- _ => inversion H end.
Qed.

Lemma bal_blacken_red t n : bal t true n → bal (blacken t) false (S n).
Proof. inversion 1; subst; simpl; eauto with rb. Qed.
Lemma blacken_black t : is_redt t = false → blacken t = t.
Proof. destruct t as [|[]]; naive_solver. Qed.
Lemma bal_blacken_black t n : bal t false n → bal (blacken t) false n.
Proof. intros H. rewrite blacken_black; [done|]. by apply bal_color in H. Qed.

Lemma fix_insert_bal_len len ctx t n m :
  (length ctx < len)%nat → bal_ctx ctx false n m → bal t true n →
  redblack (blacken (fix_insert ctx t)).
Proof.
  revert ctx t n. induction len as [|len IH]; intros ctx t n Hlen Hc Ht; [lia|].
  assert (∀ ctx t' m, bal_ctx ctx false (S n) m → bal t' false (S n) →
            redblack (blacken (plug ctx t'))) as Hplug.
  { intros ctx' t' m' Hc' Ht'. exists m'. apply bal_blacken_black. by eapply bal_plug_black. }
  assert (∀ f ctx', ctx = f :: ctx' → fcolor f = false → redblack (blacken (plug ctx t))) as Hblack.
  { intros f ctx' -> Hf. exists m. apply bal_blacken_black.
    eapply bal_plug; [|done]. inversion Hc; subst; try done; eauto with rb. }
  destruct ctx as [|[[] p kp r|[] l p kp] ctx]; try (by eapply Hblack).
  - eexists. simpl. by apply bal_blacken_red.
  - inversion Hc; subst.
    match goal with H : bal_ctx ctx true _ _ |- _ => inversion H; subst end; simpl in *;
      match goal with H : bal ?u ?cu _ |- context [is_redt ?u] =>
        rewrite <- (bal_color _ _ _ H); destruct cu end.
    + eapply IH; [lia|done|]. eauto using bal_blacken_red with rb.
    + eapply Hplug; [done|]. eauto with rb.
    + eapply IH; [lia|done|]. eauto using bal_blacken_red with rb.
    + inversion Ht; subst. eapply Hplug; [done|]. eauto with rb.
  - inversion Hc; subst.
    match goal with H : bal_ctx ctx true _ _ |- _ => inversion H; subst end; simpl in *;
      match goal with H : bal ?u ?cu _ |- context [is_redt ?u] =>
        rewrite <- (bal_color _ _ _ H); destruct cu end.
    + eapply IH; [lia|done|]. eauto using bal_blacken_red with rb.
    + inversion Ht; subst. eapply Hplug; [done|]. eauto with rb.
    + eapply IH; [lia|done|]. eauto using bal_blacken_red with rb.
    + eapply Hplug; [done|]. eauto with rb.
Qed.
Lemma fix_insert_bal ctx t n m :
  bal_ctx ctx false n m → bal t true n → redblack (blacken (fix_insert ctx t)).
Proof. apply (fix_insert_bal_len (S (length ctx))). lia. Qed.

(** ** The repair loop refines [fix_insert] *)

Section fix_run.
Context (s par0 : Z) (X : list Z) (h0 : gmap Z rbnode).
Local Abbreviation ptr := (ptr s).
Local Abbreviation par_of := (par_of par0).
Local Abbreviation zst := (zst s par0 X h0).

(** [z_op] runs the operation at the head of the goal from a zipper fact. *)
Ltac z_op1 :=
  first [ reflexivity
        | eapply zst_parent_run; eassumption | eapply zst_left_run; eassumption
        | eapply zst_right_run; eassumption | eapply zst_red_run; eassumption
        | eapply zst_black_run; eassumption | eapply zst_tred_run; eassumption
        | eapply zst_tblack_run; eassumption | eapply zst_key_run; eassumption ].
Ltac z_op := erewrite M_bind_Some by z_op1; cbn [RbtreeRep.par_of fptr].

(** Colour writes at the focus and at its neighbours, run in a program. *)
Lemma color_focus st ctx c l p k r c' (m : M rbt unit) :
  zst st ctx (T c l p k r) →
  ∃ st', zst st' ctx (T c' l p k r) ∧ (set_color p c';; m) st = m st'.
Proof.
  intros (st' & R & Z)%(zst_set_color _ _ _ _ _ _ _ _ _ _ _ c'). exists st'. by rewrite (M_bind_Some _ _ _ _ _ R).
Qed.

(** One turn with a red uncle. *)
Lemma fix_recolor_l st ctx cg t p kp r g kg u (m : M rbt unit) :
  zst st ctx (T cg (T true t p kp r) g kg u) → is_redt u = true →
  ∃ st', zst st' ctx (T true (T false t p kp r) g kg (blacken u)) ∧
    (gfs_rbt_black p;; gfs_rbt_black (ptr u);; gfs_rbt_red g;; m) st = m st'.
Proof.
  intros Z Hu. destruct u as [|cu ul up uk ur]; [done|].
  unfold gfs_rbt_black, gfs_rbt_red. cbn [RbtreeRep.ptr].
  apply zst_subtree_l in Z. destruct (color_focus _ _ _ _ _ _ _ false
    (set_color up false;; set_color g true;; m) Z) as (st1 & Z1 & ->).
  apply zst_up_l, zst_subtree_r in Z1. destruct (color_focus _ _ _ _ _ _ _ false
    (set_color g true;; m) Z1) as (st2 & Z2 & ->).
  apply zst_up_r in Z2. exact (color_focus _ _ _ _ _ _ _ true m Z2).
Qed.
Lemma fix_recolor_r st ctx cg t p kp r g kg u (m : M rbt unit) :
  zst st ctx (T cg u g kg (T true t p kp r)) → is_redt u = true →
  ∃ st', zst st' ctx (T true (blacken u) g kg (T false t p kp r)) ∧
    (gfs_rbt_black p;; gfs_rbt_black (ptr u);; gfs_rbt_red g;; m) st = m st'.
Proof.
  intros Z Hu. destruct u as [|cu ul up uk ur]; [done|].
  unfold gfs_rbt_black, gfs_rbt_red. cbn [RbtreeRep.ptr].
  apply zst_subtree_r in Z. destruct (color_focus _ _ _ _ _ _ _ false
    (set_color up false;; set_color g true;; m) Z) as (st1 & Z1 & ->).
  apply zst_up_r, zst_subtree_l in Z1. destruct (color_focus _ _ _ _ _ _ _ false
    (set_color g true;; m) Z1) as (st2 & Z2 & ->).
  apply zst_up_l in Z2. exact (color_focus _ _ _ _ _ _ _ true m Z2).
Qed.

(** The recolouring and rotation that end the loop. *)
Lemma fix_rotate_l st ctx cg a x kx b p kp ct cp r g kg u (m : M rbt unit) :
  zst st ctx (T cg (T cp (T ct a x kx b) p kp r) g kg u) →
  ∃ st', zst st' ctx (T false (T ct a x kx b) p kp (T true r g kg u)) ∧
    (np ← parent x; gfs_rbt_black np;; npp ← parent np; gfs_rbt_red npp;;
     gfs_rbtree_right_rotate s npp;; m) st = m st'.
Proof.
  intros Z. unfold gfs_rbt_black, gfs_rbt_red.
  pose proof (zst_subtree_l _ _ _ _ _ _ _ _ _ _ _ (zst_subtree_l _ _ _ _ _ _ _ _ _ _ _ Z)) as Zx.
  z_op. apply zst_subtree_l in Z.
  destruct (color_focus _ _ _ _ _ _ _ false (npp ← parent p; set_color npp true;;
     gfs_rbtree_right_rotate s npp;; m) Z) as (st1 & Z1 & ->).
  z_op. apply zst_up_l in Z1.
  destruct (color_focus _ _ _ _ _ _ _ true (gfs_rbtree_right_rotate s g;; m) Z1)
    as (st2 & Z2 & ->).
  apply zst_right_rotate in Z2 as (st3 & R3 & Z3 & _). exists st3. split; [done|].
  by rewrite (M_bind_Some _ _ _ _ _ R3).
Qed.
Lemma fix_rotate_r st ctx cg a x kx b p kp ct cp l g kg u (m : M rbt unit) :
  zst st ctx (T cg u g kg (T cp l p kp (T ct a x kx b))) →
  ∃ st', zst st' ctx (T false (T true u g kg l) p kp (T ct a x kx b)) ∧
    (np ← parent x; gfs_rbt_black np;; npp ← parent np; gfs_rbt_red npp;;
     gfs_rbtree_left_rotate s npp;; m) st = m st'.
Proof.
  intros Z. unfold gfs_rbt_black, gfs_rbt_red.
  pose proof (zst_subtree_r _ _ _ _ _ _ _ _ _ _ _ (zst_subtree_r _ _ _ _ _ _ _ _ _ _ _ Z)) as Zx.
  z_op. apply zst_subtree_r in Z.
  destruct (color_focus _ _ _ _ _ _ _ false (npp ← parent p; set_color npp true;;
     gfs_rbtree_left_rotate s npp;; m) Z) as (st1 & Z1 & ->).
  z_op. apply zst_up_r in Z1.
  destruct (color_focus _ _ _ _ _ _ _ true (gfs_rbtree_left_rotate s g;; m) Z1)
    as (st2 & Z2 & ->).
  apply zst_left_rotate in Z2 as (st3 & R3 & Z3 & _). exists st3. split; [done|].
  by rewrite (M_bind_Some _ _ _ _ _ R3).
Qed.

(** A node whose parent is black ends the loop. *)
Lemma fix_exit fuel st f ctx c l p k r :
  zst st (f :: ctx) (T c l p k r) → fcolor f = false →
  rb_insert_fix (S fuel) s p st = Some (tt, st).
Proof.
  intros Z Hf. pose proof (zst_not_root _ _ _ _ _ _ _ _ Z ltac:(done)) as Hne. simpl in Hne.
  simpl. z_op. rb_false. z_op.
  assert (gfs_rbt_is_red (fptr f) st = Some (false, st)) as R.
  { destruct f; simpl in *; subst; [apply zst_up_l in Z|apply zst_up_r in Z];
      exact (zst_red_run _ _ _ _ _ _ _ Z). }
  by rewrite (M_bind_Some _ _ _ _ _ R).
Qed.

Lemma zst_siblings st ctx c l p k r :
  zst st ctx (T c l p k r) → (l ≠ E ∨ r ≠ E) → ptr l ≠ ptr r.
Proof. intros (_ & _ & _ & _ & _ & H)%zst_ne Hne Heq. destruct (H Heq). naive_solver. Qed.

(** One turn of the loop with a red parent which is a left child. *)
Lemma fix_turn_l fuel st ctx cg ct a x kx b p kp r g kg u (side : bool) :
  (∀ ctx t st, (length ctx < fuel)%nat → top_black ctx → zst st ctx t → is_redt t = true →
     ∃ st', rb_insert_fix fuel s (ptr t) st = Some (tt, st') ∧ zst st' [] (fix_insert ctx t)) →
  (S (length ctx) < fuel)%nat → top_black ctx →
  let f := if side then FL true p kp r else FR true r p kp in
  zst st (f :: FL cg g kg u :: ctx) (T ct a x kx b) →
  ∃ st', rb_insert_fix (S fuel) s x st = Some (tt, st') ∧
    zst st' [] (fix_insert (f :: FL cg g kg u :: ctx) (T ct a x kx b)).
Proof.
  intros IH Hf Htop f Z.
  pose proof (zst_not_root _ _ _ _ _ _ _ _ Z ltac:(done)) as Hne. simpl in Hne.
  assert (∃ l' r', zst st (FL cg g kg u :: ctx) (T true l' p kp r') ∧
    (l' = T ct a x kx b ∧ r' = r ∧ side = true ∨
     l' = r ∧ r' = T ct a x kx b ∧ side = false)) as (l' & r' & Zp & Hlr).
  { destruct side; [apply zst_up_l in Z|apply zst_up_r in Z]; naive_solver. }
  pose proof (zst_up_l _ _ _ _ _ _ _ _ _ _ _ Zp) as Zg.
  pose proof (zst_subtree_r _ _ _ _ _ _ _ _ _ _ _ Zg) as Zu.
  assert (fptr f = p) as Hfp by (unfold f; destruct side; done).
  simpl. z_op. rb_false. z_op. rewrite Hfp. z_op. cbn [negb]. z_op. z_op. cbn [RbtreeRep.ptr].
  rb_true. z_op. z_op. destruct (is_redt u) eqn:Hu.
  - destruct (fix_recolor_l _ _ _ _ _ _ _ _ _ _ (rb_insert_fix fuel s g) Zg Hu)
      as (st1 & Z1 & ->).
    destruct (IH ctx _ _ ltac:(lia) Htop Z1 ltac:(done)) as (st2 & R2 & Z2).
    exists st2. split; [done|]. unfold f.
    destruct Hlr as [(-> & -> & ->)|(-> & -> & ->)]; simpl; rewrite ?Hu; done.
  - destruct fuel as [|fuel]; [lia|].
    pose proof (zst_siblings _ _ _ _ _ _ _ Zp) as Hsib.
    z_op. unfold f. destruct Hlr as [(-> & -> & ->)|(-> & -> & ->)]; cbn [fix_insert is_redt]; rewrite ?Hu.
    + rewrite bool_decide_false by (apply Hsib; left; done).
      erewrite M_bind_Some by reflexivity.
      destruct (fix_rotate_l _ _ _ _ _ _ _ _ _ _ _ _ _ _ _ (rb_insert_fix (S fuel) s x) Zg)
        as (st1 & Z1 & ->).
      exists st1. split; [|by rewrite <- zst_plug]. eapply fix_exit; [by apply zst_subtree_l|done].
    + rb_true.
      apply zst_left_rotate in Zp as (st1 & R1 & Z1 & _).
      erewrite M_bind_Some by (erewrite M_bind_Some by exact R1; reflexivity).
      apply zst_up_l in Z1.
      destruct (fix_rotate_l _ _ _ _ _ _ _ _ _ _ _ _ _ _ _ (rb_insert_fix (S fuel) s p) Z1)
        as (st2 & Z2 & ->).
      exists st2. split; [|by rewrite <- zst_plug]. eapply fix_exit; [by apply zst_subtree_l|done].
Qed.

(** The mirror image: a red parent which is a right child. *)
Lemma fix_turn_r fuel st ctx cg ct a x kx b p kp r g kg u (side : bool) :
  (∀ ctx t st, (length ctx < fuel)%nat → top_black ctx → zst st ctx t → is_redt t = true →
     ∃ st', rb_insert_fix fuel s (ptr t) st = Some (tt, st') ∧ zst st' [] (fix_insert ctx t)) →
  (S (length ctx) < fuel)%nat → top_black ctx →
  let f := if side then FR true r p kp else FL true p kp r in
  zst st (f :: FR cg u g kg :: ctx) (T ct a x kx b) →
  ∃ st', rb_insert_fix (S fuel) s x st = Some (tt, st') ∧
    zst st' [] (fix_insert (f :: FR cg u g kg :: ctx) (T ct a x kx b)).
Proof.
  intros IH Hf Htop f Z.
  pose proof (zst_not_root _ _ _ _ _ _ _ _ Z ltac:(done)) as Hne. simpl in Hne.
  assert (∃ l' r', zst st (FR cg u g kg :: ctx) (T true l' p kp r') ∧
    (r' = T ct a x kx b ∧ l' = r ∧ side = true ∨
     r' = r ∧ l' = T ct a x kx b ∧ side = false)) as (l' & r' & Zp & Hlr).
  { destruct side; [apply zst_up_r in Z|apply zst_up_l in Z]; naive_solver. }
  pose proof (zst_up_r _ _ _ _ _ _ _ _ _ _ _ Zp) as Zg.
  pose proof (zst_subtree_l _ _ _ _ _ _ _ _ _ _ _ Zg) as Zu.
  pose proof (zst_siblings _ _ _ _ _ _ _ Zg ltac:(right; done)) as Hpu. simpl in Hpu.
  assert (fptr f = p) as Hfp by (unfold f; destruct side; done).
  simpl. z_op. rb_false. z_op. rewrite Hfp. z_op. cbn [negb]. z_op. z_op. cbn [RbtreeRep.ptr].
  rb_false. z_op. z_op. destruct (is_redt u) eqn:Hu.
  - destruct (fix_recolor_r _ _ _ _ _ _ _ _ _ _ (rb_insert_fix fuel s g) Zg Hu)
      as (st1 & Z1 & ->).
    destruct (IH ctx _ _ ltac:(lia) Htop Z1 ltac:(done)) as (st2 & R2 & Z2).
    exists st2. split; [done|]. unfold f.
    destruct Hlr as [(-> & -> & ->)|(-> & -> & ->)]; simpl; rewrite ?Hu; done.
  - destruct fuel as [|fuel]; [lia|].
    pose proof (zst_siblings _ _ _ _ _ _ _ Zp) as Hsib.
    z_op. unfold f.
    destruct Hlr as [(-> & -> & ->)|(-> & -> & ->)]; cbn [fix_insert is_redt]; rewrite ?Hu.
    + rewrite bool_decide_false by (apply not_eq_sym, Hsib; right; done).
      erewrite M_bind_Some by reflexivity.
      destruct (fix_rotate_r _ _ _ _ _ _ _ _ _ _ _ _ _ _ _ (rb_insert_fix (S fuel) s x) Zg)
        as (st1 & Z1 & ->).
      exists st1. split; [|by rewrite <- zst_plug]. eapply fix_exit; [by apply zst_subtree_r|done].
    + rb_true. apply zst_right_rotate in Zp as (st1 & R1 & Z1 & _).
      erewrite M_bind_Some by (erewrite M_bind_Some by exact R1; reflexivity).
      apply zst_up_r in Z1.
      destruct (fix_rotate_r _ _ _ _ _ _ _ _ _ _ _ _ _ _ _ (rb_insert_fix (S fuel) s p) Z1)
        as (st2 & Z2 & ->).
      exists st2. split; [|by rewrite <- zst_plug]. eapply fix_exit; [by apply zst_subtree_r|done].
Qed.

Lemma rb_insert_fix_run fuel ctx t st :
  (length ctx < fuel)%nat → top_black ctx → zst st ctx t → is_redt t = true →
  ∃ st', rb_insert_fix fuel s (ptr t) st = Some (tt, st') ∧ zst st' [] (fix_insert ctx t).
Proof.
  revert ctx t st. induction fuel as [|fuel IH]; intros ctx t st Hf Htop Z Ht; [lia|].
  destruct t as [|ct a x kx b]; [done|]. simpl in Ht. subst. cbn [RbtreeRep.ptr].
  destruct ctx as [|f ctx].
  { exists st. split; [|done]. simpl. rewrite (M_bind_Some _ _ _ _ _ eq_refl).
    by rewrite bool_decide_true by by rewrite (zst_root _ _ _ _ _ _ Z). }
  destruct (fcolor f) eqn:Hfc; last first.
  { exists st. split; [by eapply fix_exit|]. rewrite zst_plug in Z.
    by destruct f as [[]|[]]. }
  destruct ctx as [|[cg g kg u|cg u g kg] ctx]; [by rewrite Htop in Hfc|..];
    assert (top_black ctx) by (destruct ctx; done); simpl in Hf;
    destruct f as [[] p kp r|[] r p kp]; try done.
  - apply (fix_turn_l fuel st ctx cg true a x kx b p kp r g kg u true); auto with lia.
  - apply (fix_turn_l fuel st ctx cg true a x kx b p kp r g kg u false); auto with lia.
  - apply (fix_turn_r fuel st ctx cg true a x kx b p kp r g kg u false); auto with lia.
  - apply (fix_turn_r fuel st ctx cg true a x kx b p kp r g kg u true); auto with lia.
Qed.
End fix_run.
