(* ===== verification/RbtreeMap.v ===== *)
(** The red-black tree as an ordered sequence of nodes: insertion with any
    comparison, lookup and minimum. *)
From stdpp Require Import sorting list.
From S2P Require Import Prelude Rbtree RbtreeRep RbtreeInsert.

(** ** The position of a new node *)

(** [sd p k] is the side taken at node [p] with key [k]; [None] gives up. *)
Fixpoint descend (sd : Z → Z → option bool) (t : tree) (ctx : context) : option context :=
  match t with
  | E => Some ctx
  | T c l p k r =>
      match sd p k with
      | None => None
      | Some true => descend sd l (FL c p k r :: ctx)
      | Some false => descend sd r (FR c l p k :: ctx)
      end
  end.

Definition cbefore (f : frame) : list (Z * Z) :=
  match f with FL _ _ _ _ => [] | FR _ l p k => inorder l ++ [(p, k)] end.
Definition cafter (f : frame) : list (Z * Z) :=
  match f with FL _ p k r => (p, k) :: inorder r | FR _ _ _ _ => [] end.
Fixpoint before (ctx : context) : list (Z * Z) :=
  match ctx with [] => [] | f :: ctx => before ctx ++ cbefore f end.
Fixpoint after (ctx : context) : list (Z * Z) :=
  match ctx with [] => [] | f :: ctx => cafter f ++ after ctx end.

Lemma inorder_split ctx t : inorder (plug ctx t) = before ctx ++ inorder t ++ after ctx.
Proof.
  revert t. induction ctx as [|[c p k r|c l p k] ctx IH]; intros t; simpl.
  - by rewrite app_nil_r.
  - rewrite IH. app_norm.
  - rewrite IH. simpl. repeat (rewrite <- app_assoc; simpl). done.
Qed.

Definition on_side (sd : Z → Z → option bool) (d : bool) (e : Z * Z) : Prop :=
  sd e.1 e.2 = Some d.

Lemma descend_split sd t ctx la lb :
  inorder t = la ++ lb → Forall (on_side sd false) la → Forall (on_side sd true) lb →
  ∃ ctx', descend sd t ctx = Some ctx' ∧ before ctx' = before ctx ++ la ∧
          after ctx' = lb ++ after ctx.
Proof.
  revert ctx la lb. induction t as [|c l IHl p k r IHr]; intros ctx la lb; simpl.
  { intros Heq _ _. symmetry in Heq. apply app_nil in Heq as [-> ->].
    exists ctx. by rewrite app_nil_r. }
  intros Heq Ha Hb.
  apply app_eq_inv in Heq as [(m & Hl & ->)|(m & -> & Heq)].
  - apply Forall_app in Hb as [Hm Hr]. inversion Hr as [|? ? Hpk Hr']; subst.
    unfold on_side in Hpk. simpl in Hpk. rewrite Hpk.
    destruct (IHl (FL c p k r :: ctx) la m) as (ctx' & -> & Hb1 & Ha1); [done..|].
    exists ctx'. split_and!; [done| |rewrite Ha1; app_norm].
    rewrite Hb1. simpl. by rewrite app_nil_r.
  - apply Forall_app in Ha as [Hl Hm]. destruct m as [|e m]; simpl in Heq.
    + subst lb. inversion Hb as [|? ? Hpk Hr]; subst.
      unfold on_side in Hpk. simpl in Hpk. rewrite Hpk.
      destruct (IHl (FL c p k r :: ctx) (inorder l) []) as (ctx' & -> & Hb1 & Ha1);
        [by rewrite app_nil_r|done|done|].
      exists ctx'. split_and!; [done| |by rewrite Ha1].
      rewrite Hb1. simpl. by rewrite !app_nil_r.
    + injection Heq as <- Hir. inversion Hm as [|? ? Hpk Hm']; subst.
      unfold on_side in Hpk. simpl in Hpk. rewrite Hpk.
      destruct (IHr (FR c l p k :: ctx) m lb) as (ctx' & -> & Hb1 & Ha1); [done..|].
      exists ctx'. split_and!; [done| |by rewrite Ha1]. rewrite Hb1. app_norm.
Qed.

Lemma descend_bal sd t ctx ctx' c n m :
  bal t c n → bal_ctx ctx c n m → descend sd t ctx = Some ctx' → bal_ctx ctx' false 0 m.
Proof.
  intros Ht. revert ctx ctx' m. induction Ht; intros ctx ctx' m Hc; simpl.
  - by intros [= <-].
  - destruct (sd p k) as [[]|]; [apply IHHt1|apply IHHt2|done]; eauto with rb.
  - destruct (sd p k) as [[]|]; [|  |done]; intros Hd.
    + destruct cl; [eapply IHHt1; [|done]|eapply IHHt1; [|done]]; eauto with rb.
    + destruct cr; [eapply IHHt2; [|done]|eapply IHHt2; [|done]]; eauto with rb.
Qed.

Lemma descend_perm sd t ctx ctx' :
  descend sd t ctx = Some ctx' → cptrs ctx' ≡ₚ ptrs t ++ cptrs ctx.
Proof.
  revert ctx. induction t as [|c l IHl p k r IHr]; intros ctx; simpl; [by intros [= <-]|].
  destruct (sd p k) as [[]|]; [| |done]; intros H.
  - rewrite (IHl _ H). apply (perm_up_l c p k r ctx l).
  - rewrite (IHr _ H). apply (perm_up_r c l p k ctx r).
Qed.

Lemma descend_length sd t ctx ctx' :
  descend sd t ctx = Some ctx' → (length ctx' ≤ length (ptrs t) + length ctx)%nat.
Proof.
  revert ctx. induction t as [|c l IHl p k r IHr]; intros ctx; simpl; [by intros [= <-]|].
  rewrite length_app. simpl.
  destruct (sd p k) as [[]|]; [| |done]; intros H; [apply IHl in H|apply IHr in H];
    simpl in H; lia.
Qed.

Section insert.
Context (s par0 : Z) (X : list Z) (h0 : gmap Z rbnode).
Local Abbreviation ptr := (ptr s).
Local Abbreviation zst := (zst s par0 X h0).

(** Linking the new node below [p], on side [d]. *)
Definition attach (d : bool) (p x : Z) : M rbt unit :=
  (if d : bool then set_left p x else set_right p x);;
  set_parent x p;; set_left x s;; set_right x s;; gfs_rbt_red x.

Definition hole_frame (d : bool) (c : bool) (p k : Z) (t : tree) : frame :=
  if d then FL c p k t else FR c t p k.

Lemma zst_attach st d c p k t ctx x nx :
  zst st (hole_frame d c p k t :: ctx) E → rb_heap st !! x = Some nx → x ∈ X →
  x ∉ s :: cptrs (hole_frame d c p k t :: ctx) →
  ∃ st', attach d p x st = Some (tt, st') ∧
    zst st' (hole_frame d c p k t :: ctx) (T true E x (n_key nx) E).
Proof.
  intros Z Hx HX Hn. destruct st as [root h]. destruct Z as [_ Hc Hd Hs Hh Hsub].
  unfold distinct in Hd. cbn [ptrs app] in Hd.
  assert (NoDup (s :: x :: cptrs (hole_frame d c p k t :: ctx))) as Hd'.
  { rewrite NoDup_cons in Hd |- *. rewrite NoDup_cons. set_solver. }
  clear Hn. pose proof Hd' as Hd2.
  destruct Hs as (sentn & Hsn & Hsb). cbn [rb_heap rb_root] in *.
  destruct d; simpl in Hd', Hc; disj_split Hd'; destruct Hc as (Hp & Ht & Hc);
    unfold attach, gfs_rbt_red, hole_frame; cbv iota; do 4 rb_op;
    (eexists; split; [eapply set_color_run; rb_look|]); rb_simpl;
    (split; cbn [rb_heap rb_root ptrs app RbtreeRep.rep RbtreeRep.ptr par_of fptr];
      [split_and!; [rb_look|done|done]| |unfold distinct; simpl; ptr_solve| | |]).
  1,5: simpl; split_and!; [rb_look
    |do 5 (eapply rep_same_off; [apply same_off_insert|ptr_solve|]); done
    |do 5 (eapply rep_ctx_same_off; [apply same_off_insert|ptr_solve|]); done].
  1,4: exists sentn; split; [rb_look|done].
  1,3: eapply same_off_weaken; [do 5 (eapply same_off_trans; [|apply same_off_insert]); exact Hh|];
    simpl in Hsub; set_solver.
  all: simpl in Hsub |- *; set_solver.
Qed.

(** A comparison program computes [sd] at the nodes of the tree. *)
Definition side_spec (side : Z → Z → M rbt (option bool)) (sd : Z → Z → option bool)
    (x kx : Z) : Prop :=
  ∀ st nx p n, rb_heap st !! x = Some nx → n_key nx = kx → rb_heap st !! p = Some n →
    side x p st = Some (sd p (n_key n), st).

Lemma rb_descend_run side sd x nx fuel c l p k r ctx ctx' st :
  side_spec side sd x (n_key nx) → zst st ctx (T c l p k r) →
  rb_heap st !! x = Some nx → x ∈ X → x ∉ s :: ptrs (T c l p k r) ++ cptrs ctx →
  descend sd (T c l p k r) ctx = Some ctx' → (length (ptrs (T c l p k r)) ≤ fuel)%nat →
  ∃ st', rb_descend fuel side p x s st = Some (tt, st') ∧
    zst st' ctx' (T true E x (n_key nx) E).
Proof.
  intros Hside. revert c l p k r ctx st.
  induction fuel as [|fuel IH]; intros c l p k r ctx st Z Hx HX Hn Hd Hf.
  { simpl in Hf. rewrite length_app in Hf. simpl in Hf. lia. }
  simpl. pose proof (zst_look _ _ _ _ _ _ _ _ _ _ _ Z) as Hp.
  rewrite (M_bind_Some _ _ _ _ _ (Hside _ _ _ _ Hx eq_refl Hp)). cbn [n_key].
  simpl in Hd, Hf. rewrite length_app in Hf. simpl in Hf.
  pose proof (zst_ne _ _ _ _ _ _ _ _ _ _ _ Z) as (_ & _ & _ & Hls & Hrs & _).
  destruct (sd p k) as [[]|]; [| |done].
  - erewrite M_bind_Some by (eapply zst_left_run; exact Z).
    apply zst_subtree_l in Z. destruct l as [|cl ll pl kl rl].
    + simpl. rb_true. injection Hd as <-.
      apply (zst_attach st true c p k r ctx x nx); [done..|]. simpl in *. set_solver.
    + rewrite bool_decide_false by (by apply Hls). cbn [RbtreeRep.ptr].
      eapply IH; [exact Z|done..| |exact Hd|lia].
      simpl in Hn |- *. rewrite <- !app_assoc in *. simpl in *. done.
  - erewrite M_bind_Some by (eapply zst_right_run; exact Z).
    apply zst_subtree_r in Z. destruct r as [|cl ll pl kl rl].
    + simpl. rb_true. injection Hd as <-.
      apply (zst_attach st false c p k l ctx x nx); [done..|]. simpl in *. set_solver.
    + rewrite bool_decide_false by (by apply Hrs). cbn [RbtreeRep.ptr].
      eapply IH; [exact Z|done..| |exact Hd|lia].
      clear -Hn. simpl in *. set_solver.
Qed.
End insert.

(** ** Whole trees *)

(** [st] holds a red-black tree whose nodes are those of [t], with sentinel
    [s]. *)
Record is_rbtree (s : Z) (st : rbt) (t : tree) : Prop := {
  rbt_rep : ∃ par0, rep s (rb_heap st) par0 t;
  rbt_root : rb_root st = ptr s t;
  rbt_nodup : NoDup (s :: ptrs t);
  rbt_sentinel : sentinel_ok s (rb_heap st);
  rbt_redblack : redblack t }.

(** Writes outside the tree and the sentinel do no harm. *)
Lemma is_rbtree_off s st st' t X :
  is_rbtree s st t → rb_root st' = rb_root st → same_off X (rb_heap st) (rb_heap st') →
  (∀ y, y ∈ X → y ∉ s :: ptrs t) → is_rbtree s st' t.
Proof.
  intros [(par & Hr) Hroot Hd (ns & Hns & Hc) Hb] Hroot' Ho Hx. split; [|by rewrite Hroot'|done| |done].
  - exists par. eapply rep_same_off; [exact Ho| |done]. intros y Hy HyX. apply (Hx y HyX). set_solver.
  - exists ns. split; [|done]. rewrite Ho; [done|]. intros HsX. apply (Hx s HsX). set_solver.
Qed.

Lemma ptrs_inorder t : ptrs t = (inorder t).*1.
Proof. induction t as [|c l IHl p k r IHr]; simpl; [done|]. by rewrite fmap_app, IHl, IHr. Qed.

Lemma is_rbtree_zst s st t X :
  is_rbtree s st t → (∀ q, q ∈ ptrs t → q ∈ X) → ∃ par0, zst s par0 X (rb_heap st) st [] t.
Proof.
  intros [(par0 & Hr) Hroot Hd Hs _] HX. exists par0.
  split; simpl; [done|done| |done|apply same_off_refl|].
  - unfold distinct. simpl. by rewrite app_nil_r.
  - intros q. rewrite app_nil_r. apply HX.
Qed.
Lemma zst_is_rbtree s par0 X h0 st t :
  zst s par0 X h0 st [] t → redblack t → is_rbtree s st t ∧ same_off X h0 (rb_heap st).
Proof.
  intros [Hr Hroot Hd Hs Hh _] Hrb. split; [|done]. split; [by exists par0|done| |done|done].
  unfold distinct in Hd. simpl in Hd. by rewrite app_nil_r in Hd.
Qed.

Lemma zst_blacken_root s par0 X h0 st t :
  zst s par0 X h0 st [] t → t ≠ E →
  ∃ st', (root ← get_root; gfs_rbt_black root) st = Some (tt, st') ∧
         zst s par0 X h0 st' [] (blacken t).
Proof.
  intros Z Ht. rewrite (M_bind_Some _ _ _ _ _ eq_refl), (zst_root _ _ _ _ _ _ Z).
  destruct t as [|c l p k r]; [done|]. by apply zst_set_color with (c' := false) in Z.
Qed.

Lemma insert_empty_run s st x nx fuel ins :
  is_rbtree s st E → rb_heap st !! x = Some nx → x ≠ s →
  ∃ st', gfs_rbtree_insert fuel ins s x st = Some (tt, st') ∧
    is_rbtree s st' (T false E x (n_key nx) E) ∧ same_off [x] (rb_heap st) (rb_heap st').
Proof.
  intros [_ Hroot _ (sentn & Hs & Hsb) _] Hx Hne. destruct st as [root h]. simpl in *. subst root.
  unfold gfs_rbtree_insert, gfs_rbt_black. rb_op. rb_true. do 4 rb_op.
  eexists. split; [reflexivity|]. cbn [rb_heap rb_root]. split.
  - split; cbn [rb_heap rb_root].
    + exists NULL. simpl. split_and!; [rb_look|done|done].
    + done.
    + simpl. apply NoDup_disj_cons. split; [by apply disj_ne, not_eq_sym|apply NoDup_singleton].
    + exists sentn. split; [|done]. assert (s ≠ x) by done. rb_look.
    + exists 1%nat. apply (bal_black _ _ _ _ false false); constructor.
  - intros q Hq. rewrite !lookup_insert_ne by set_solver. done.
Qed.

(** [gfs_rbtree_insert] with any insertion function that descends by a
    comparison. *)
Lemma gfs_rbtree_insert_run s side sd x nx la lb st t fuel dfuel :
  is_rbtree s st t → rb_heap st !! x = Some nx → x ∉ s :: ptrs t →
  side_spec side sd x (n_key nx) → inorder t = la ++ lb →
  Forall (on_side sd false) la → Forall (on_side sd true) lb →
  (length (ptrs t) < fuel)%nat → (length (ptrs t) ≤ dfuel)%nat →
  ∃ st' t', gfs_rbtree_insert fuel (rb_descend dfuel side) s x st = Some (tt, st') ∧
    is_rbtree s st' t' ∧ inorder t' = la ++ (x, n_key nx) :: lb ∧
    same_off (x :: ptrs t) (rb_heap st) (rb_heap st').
Proof.
  intros Hrb Hx Hn Hside Heq Hla Hlb Hf Hdf. destruct t as [|c l p k r].
  { symmetry in Heq. apply app_nil in Heq as [-> ->].
    destruct (insert_empty_run s st x nx fuel (rb_descend dfuel side)) as (st' & R & Hr & Ho);
      [done|done|set_solver|]. eexists st', _. split_and!; done. }
  destruct (is_rbtree_zst _ _ _ (x :: ptrs (T c l p k r)) Hrb) as (par0 & Z); [set_solver|].
  pose proof (rbt_redblack _ _ _ Hrb) as (n & Hbal).
  destruct (descend_split sd _ [] la lb Heq Hla Hlb) as (ctx' & Hd & Hbef & Haft).
  assert (bal_ctx ctx' false 0 n) as Hbc by (eapply descend_bal; [done|constructor|done]).
  pose proof (descend_length _ _ _ _ Hd) as Hlen. simpl length in Hlen at 3.
  destruct (rb_descend_run s par0 (x :: ptrs (T c l p k r)) (rb_heap st) side sd x nx dfuel c l p k r [] ctx' st)
    as (st1 & R1 & Z1); [done|done|done|set_solver| |done|done|].
  { simpl in *. by rewrite app_nil_r. }
  destruct (rb_insert_fix_run s par0 (x :: ptrs (T c l p k r)) (rb_heap st) fuel ctx' _ st1 ltac:(lia)
    (bal_ctx_top _ _ _ _ Hbc) Z1 eq_refl) as (st2 & R2 & Z2).
  assert (inorder (fix_insert ctx' (T true E x (n_key nx) E)) =
          la ++ (x, n_key nx) :: lb) as Hin.
  { rewrite fix_insert_inorder, inorder_split, Hbef, Haft. simpl. by rewrite app_nil_r. }
  destruct (zst_blacken_root _ _ _ _ _ _ Z2) as (st3 & R3 & Z3).
  { intros HE. rewrite HE in Hin. by destruct la. }
  apply zst_is_rbtree in Z3 as [Hrb3 Hoff];
    [|eapply fix_insert_bal; [done|do 2 constructor]].
  eexists st3, _. split_and!; [|exact Hrb3|by rewrite inorder_blacken|done].
  unfold gfs_rbtree_insert. rewrite (M_bind_Some _ _ _ _ _ eq_refl), (rbt_root _ _ _ Hrb).
  rewrite bool_decide_false.
  - simpl ptr. rewrite (M_bind_Some _ _ _ _ _ R1). simpl ptr in R2.
    by rewrite (M_bind_Some _ _ _ _ _ R2).
  - pose proof (zst_ne _ _ _ _ _ _ _ _ _ _ _ Z). simpl. tauto.
Qed.

(** ** Search *)

(** The node at which [sd] gives [None], if the search reaches one. *)
Fixpoint search (sd : Z → Z → option bool) (t : tree) : option Z :=
  match t with
  | E => None
  | T _ l p k r =>
      match sd p k with
      | None => Some p
      | Some true => search sd l
      | Some false => search sd r
      end
  end.

(** Along the in-order sequence the search is sent right, then left. *)
Definition sd_mono (sd : Z → Z → option bool) (e e' : Z * Z) : Prop :=
  (on_side sd true e → on_side sd true e') ∧ (on_side sd false e' → on_side sd false e).

Lemma search_found sd t p : search sd t = Some p → ∃ k, (p, k) ∈ inorder t ∧ sd p k = None.
Proof.
  induction t as [|c l IHl q k r IHr]; simpl; [done|].
  destruct (sd q k) as [[]|] eqn:Hs.
  - intros (k' & ? & ?)%IHl. exists k'. set_solver.
  - intros (k' & ? & ?)%IHr. exists k'. set_solver.
  - intros [= ->]. exists k. set_solver.
Qed.

Lemma search_missing sd t :
  StronglySorted (sd_mono sd) (inorder t) → search sd t = None →
  ∀ p k, (p, k) ∈ inorder t → sd p k ≠ None.
Proof.
  induction t as [|c l IHl q k r IHr]; simpl; [set_solver|]. intros Hss Hn p' k' Hin.
  apply StronglySorted_app in Hss as (Hlr & Hl & Hqr).
  apply StronglySorted_inv in Hqr as [Hr Hq]. rewrite Forall_forall in Hq.
  assert (∀ e, e ∈ inorder l → sd_mono sd e (q, k)) as Hlq by (intros e He; apply Hlr; set_solver).
  destruct (sd q k) as [[]|] eqn:Hs; [| |done];
    apply elem_of_app in Hin as [Hin|[[= -> ->]|Hin]%elem_of_cons]; try congruence; eauto.
  - destruct (Hq _ Hin) as [H _]. unfold on_side in H. simpl in H. rewrite H; done.
  - destruct (Hlq _ Hin) as [_ H]. unfold on_side in H. simpl in H. rewrite H; done.
Qed.

(** ** [gfs_rbtree_min], [gfs_rbtree_lookup_value], [gfs_rbtree_insert_value] *)

Lemma rb_min_run s par h root fuel c l p k r :
  rep s h par (T c l p k r) → NoDup (s :: ptrs (T c l p k r)) →
  (length (ptrs (T c l p k r)) ≤ fuel)%nat →
  ∃ q kq rest, gfs_rbtree_min fuel s p (Rbt root h) = Some (q, Rbt root h) ∧
    inorder (T c l p k r) = (q, kq) :: rest.
Proof.
  revert par c l p k r. induction fuel as [|fuel IH]; intros par c l p k r Hr Hd Hf;
    simpl in Hf; rewrite length_app in Hf; simpl in Hf; [lia|].
  destruct Hr as (Hp & Hl & Hr). simpl. rb_op.
  destruct l as [|cl ll pl kl rl].
  - simpl. rb_false. eauto.
  - cbn [RbtreeRep.ptr]. rewrite bool_decide_true.
    + destruct (IH p cl ll pl kl rl) as (q & kq & rest & R & Hi); [done| |lia|].
      * cbn [ptrs] in *. simpl in Hd. disj_split Hd. ptr_solve.
      * exists q, kq, (rest ++ (p, k) :: inorder r). simpl in Hi |- *. by rewrite Hi.
    + simpl in Hd. disj_split Hd. ptr_solve.
Qed.

Lemma StronglySorted_mono {A} (R R' : A → A → Prop) l :
  (∀ x y, R x y → R' x y) → StronglySorted R l → StronglySorted R' l.
Proof.
  intros HR. induction 1 as [|x l Hs IH Hx]; constructor; [done|]. eapply Forall_impl; eauto.
Qed.

Definition key_sorted (t : tree) : Prop := StronglySorted (λ e e' : Z * Z, e.2 ≤ e'.2) (inorder t).

Definition sd_key (k : Z) (p tk : Z) : option bool :=
  if bool_decide (k ≠ tk) then Some (k <? tk) else None.

Lemma key_sorted_mono k t : key_sorted t → StronglySorted (sd_mono (sd_key k)) (inorder t).
Proof.
  intros H. eapply StronglySorted_mono; [|exact H].
  intros [p1 k1] [p2 k2]. unfold sd_mono, on_side, sd_key. simpl. intros Hle.
  do 2 case_bool_decide; split; intros [= Hb]; try (f_equal; lia); f_equal; lia.
Qed.

Lemma rb_lookup_run s par h root fuel k t :
  rep s h par t → NoDup (s :: ptrs t) → (length (ptrs t) < fuel)%nat →
  rb_lookup_loop fuel s k (ptr s t) (Rbt root h) =
    Some (default NULL (search (sd_key k) t), Rbt root h).
Proof.
  revert par t. induction fuel as [|fuel IH]; intros par t Hr Hd Hf; [lia|]. simpl.
  destruct t as [|c l p tk r]; simpl; [by rb_true|].
  destruct Hr as (Hp & Hl & Hr). simpl in Hf. rewrite length_app in Hf. simpl in Hf, Hd.
  assert (p ≠ s ∧ NoDup (s :: ptrs l) ∧ NoDup (s :: ptrs r)) as (Hps & Hdl & Hdr).
  { disj_split Hd. split_and!; ptr_solve. }
  rb_false. rb_op. unfold sd_key at 1. case_bool_decide; [|done].
  destruct (k <? tk); rb_op; [by eapply IH; [exact Hl|..|lia]|by eapply IH; [exact Hr|..|lia]].
Qed.

(** The sides of [gfs_rbtree_insert_value]: equal keys go right. *)
Definition sd_value (kx : Z) (p k : Z) : option bool := Some (kx <? k).

Lemma side_value_spec x kx : side_spec side_value (sd_value kx) x kx.
Proof.
  intros [root h] nx p n Hx <- Hp. unfold side_value. simpl in *.
  rewrite (M_bind_Some _ _ _ _ _ (key_run _ _ _ _ Hx)).
  by rewrite (M_bind_Some _ _ _ _ _ (key_run _ _ _ _ Hp)).
Qed.

Definition key_le (kx : Z) (e : Z * Z) : Prop := e.2 ≤ kx.
Definition key_gt (kx : Z) (e : Z * Z) : Prop := kx < e.2.

Lemma sorted_cut kx (l : list (Z * Z)) :
  StronglySorted (λ e e' : Z * Z, e.2 ≤ e'.2) l →
  ∃ la lb, l = la ++ lb ∧ Forall (key_le kx) la ∧ Forall (key_gt kx) lb.
Proof.
  induction 1 as [|e l Hs (la & lb & -> & Ha & Hb) He]; [by exists [], []|].
  destruct (decide (e.2 ≤ kx)).
  - exists (e :: la), lb. split_and!; [done|by constructor|done].
  - exists [], (e :: la ++ lb). split_and!; [done|done|].
    constructor; [unfold key_gt; lia|]. eapply Forall_impl; [done|]. unfold key_gt. simpl. lia.
Qed.

Lemma sorted_insert kx x la lb :
  StronglySorted (λ e e' : Z * Z, e.2 ≤ e'.2) (la ++ lb) →
  Forall (key_le kx) la → Forall (key_gt kx) lb →
  StronglySorted (λ e e' : Z * Z, e.2 ≤ e'.2) (la ++ (x, kx) :: lb).
Proof.
  rewrite !StronglySorted_app. intros (Hab & Ha & Hb) Hla Hlb.
  rewrite Forall_forall in Hla. split_and!; [|done|].
  - intros e e' He [->|He']%elem_of_cons; [by apply Hla|eauto].
  - constructor; [done|]. eapply Forall_impl; [done|]. unfold key_gt. simpl. lia.
Qed.

Lemma insert_value_run s x nx st t fuel dfuel :
  is_rbtree s st t → key_sorted t → rb_heap st !! x = Some nx → x ∉ s :: ptrs t →
  (length (ptrs t) < fuel)%nat → (length (ptrs t) ≤ dfuel)%nat →
  ∃ st' t' la lb, gfs_rbtree_insert fuel (gfs_rbtree_insert_value dfuel) s x st = Some (tt, st') ∧
    is_rbtree s st' t' ∧ key_sorted t' ∧
    inorder t = la ++ lb ∧ inorder t' = la ++ (x, n_key nx) :: lb ∧
    Forall (key_le (n_key nx)) la ∧ Forall (key_gt (n_key nx)) lb ∧
    same_off (x :: ptrs t) (rb_heap st) (rb_heap st').
Proof.
  intros Hrb Hs Hx Hn Hf Hdf.
  destruct (sorted_cut (n_key nx) _ Hs) as (la & lb & Heq & Hla & Hlb).
  destruct (gfs_rbtree_insert_run s side_value (sd_value (n_key nx)) x nx la lb st t fuel dfuel)
    as (st' & t' & R & Hrb' & Hin & Hoff);
    [done|done|done|apply side_value_spec|done|..|done|done|].
  - eapply Forall_impl; [done|]. unfold key_le, on_side, sd_value. intros; f_equal; lia.
  - eapply Forall_impl; [done|]. unfold key_gt, on_side, sd_value. intros; f_equal; lia.
  - exists st', t', la, lb. split_and!; try done. unfold key_sorted. rewrite Hin.
    apply sorted_insert; [|done|done]. by rewrite <- Heq.
Qed.

(** C20: inserting a fresh node with [gfs_rbtree_insert] and
    [gfs_rbtree_insert_value] into any red-black tree ends, gives a red-black
    tree, and puts the node in key order behind every node with an equal key;
    no node outside the tree is written. *)
Theorem gfs_rbtree_insert_value_correct s x nx st t fuel dfuel :
  is_rbtree s st t → key_sorted t → rb_heap st !! x = Some nx → x ∉ s :: ptrs t →
  (length (ptrs t) < fuel)%nat → (length (ptrs t) ≤ dfuel)%nat →
  ∃ st' t' la lb, gfs_rbtree_insert fuel (gfs_rbtree_insert_value dfuel) s x st = Some (tt, st') ∧
    is_rbtree s st' t' ∧ key_sorted t' ∧
    inorder t = la ++ lb ∧ inorder t' = la ++ (x, n_key nx) :: lb ∧
    Forall (key_le (n_key nx)) la ∧ Forall (key_gt (n_key nx)) lb ∧
    same_off (x :: ptrs t) (rb_heap st) (rb_heap st').
Proof. apply insert_value_run. Qed.

Lemma lookup_value_run s k st t fuel :
  is_rbtree s st t → key_sorted t → NULL ∉ ptrs t → (length (ptrs t) < fuel)%nat →
  ∃ p, gfs_rbtree_lookup_value fuel s k st = Some (p, st) ∧
    (p = NULL ∧ (∀ q, (q, k) ∉ inorder t) ∨ p ≠ NULL ∧ (p, k) ∈ inorder t).
Proof.
  intros [(par & Hr) Hroot Hd Hsent _] Hs Hnull Hf. destruct st as [root h]. simpl in *. subst.
  unfold gfs_rbtree_lookup_value. rb_op. rewrite (rb_lookup_run s par) by done.
  eexists. split; [done|]. destruct (search (sd_key k) t) as [p|] eqn:Hp; simpl.
  - right. destruct (search_found _ _ _ Hp) as (k' & Hin & Hk). unfold sd_key in Hk.
    case_bool_decide as Hkk; [done|]. replace k with k' by (destruct (decide (k = k')); naive_solver).
    split; [|done]. intros ->. apply Hnull. rewrite ptrs_inorder.
    apply (list_elem_of_fmap_2 fst) in Hin. done.
  - left. split; [done|]. intros q Hin.
    eapply search_missing in Hin; [|by apply key_sorted_mono|done].
    apply Hin. unfold sd_key. by rewrite bool_decide_false by naive_solver.
Qed.

(** [gfs_rbtree_lookup_value] in a red-black tree sorted by key ends,
    changes nothing, and finds a node with the key if there is one and [NULL]
    if there is none. *)
Theorem gfs_rbtree_lookup_value_correct s k st t fuel :
  is_rbtree s st t → key_sorted t → NULL ∉ ptrs t → (length (ptrs t) < fuel)%nat →
  ∃ p, gfs_rbtree_lookup_value fuel s k st = Some (p, st) ∧
    (p = NULL ∧ (∀ q, (q, k) ∉ inorder t) ∨ p ≠ NULL ∧ (p, k) ∈ inorder t).
Proof. apply lookup_value_run. Qed.

(** The same for the first node in order, which [gfs_rbtree_min] returns. *)
Lemma gfs_rbtree_min_correct s st t fuel :
  is_rbtree s st t → t ≠ E → (length (ptrs t) ≤ fuel)%nat →
  ∃ q kq rest, gfs_rbtree_min fuel s (rb_root st) st = Some (q, st) ∧
    inorder t = (q, kq) :: rest.
Proof.
  intros [(par & Hr) Hroot Hd Hsent _] Ht Hf. destruct st as [root h]. simpl in *. subst root.
  destruct t as [|c l p k r]; [done|]. by eapply rb_min_run.
Qed.
