(* ===== verification/RbtreeDelete.v ===== *)
(** Deletion from the red-black tree: the repair loop, and the unlinking of a
    node. *)
From S2P Require Import Prelude Rbtree RbtreeRep RbtreeInsert RbtreeMap.

(** [almost t n]: the subtree is one black node short: black of height [n], or
    red and of height [S n] once it is blackened. *)
Definition almost (t : tree) (n : nat) : Prop :=
  if is_redt t then bal (blacken t) false (S n) else bal t false n.

(** The part of a turn that follows the test of a red sibling. *)
Definition fix_rest_l (fuel : nat) (sentinel temp w : Z) : M rbt Z :=
  wl ← left w; wlb ← gfs_rbt_is_black wl;
  wr ← right w; wrb ← gfs_rbt_is_black wr;
  if wlb && wrb then
    gfs_rbt_red w;; tp ← parent temp; rb_delete_fix fuel sentinel tp
  else
    w ← (if wrb : bool then
           gfs_rbt_black wl;; gfs_rbt_red w;; gfs_rbtree_right_rotate sentinel w;;
           tp ← parent temp; right tp
         else mret w);
    tp ← parent temp;
    gfs_rbt_copy_color w tp;; gfs_rbt_black tp;;
    wr ← right w; gfs_rbt_black wr;;
    gfs_rbtree_left_rotate sentinel tp;;
    root ← get_root;
    rb_delete_fix fuel sentinel root.
Definition fix_rest_r (fuel : nat) (sentinel temp w : Z) : M rbt Z :=
  wl ← left w; wlb ← gfs_rbt_is_black wl;
  wr ← right w; wrb ← gfs_rbt_is_black wr;
  if wlb && wrb then
    gfs_rbt_red w;; tp ← parent temp; rb_delete_fix fuel sentinel tp
  else
    w ← (if wlb : bool then
           gfs_rbt_black wr;; gfs_rbt_red w;; gfs_rbtree_left_rotate sentinel w;;
           tp ← parent temp; left tp
         else mret w);
    tp ← parent temp;
    gfs_rbt_copy_color w tp;; gfs_rbt_black tp;;
    wl ← left w; gfs_rbt_black wl;;
    gfs_rbtree_right_rotate sentinel tp;;
    root ← get_root;
    rb_delete_fix fuel sentinel root.

Section repair.
Context (s par0 : Z) (X : list Z) (h0 : gmap Z rbnode) (ns : rbnode).
Hypothesis Hns : h0 !! s = Some ns.
Hypothesis HsX : s ∉ X.
Local Abbreviation ptr := (ptr s).
Local Abbreviation par_of := (par_of par0).
Local Abbreviation zst := (zst s par0 X h0).

(** When the focus is empty the sentinel stands for it, with its [parent]
    field. *)
Definition temp_ok (ctx : context) (t : tree) : Prop :=
  t = E → ctx ≠ [] ∧ n_parent ns = par_of ctx.

Lemma zst_sentinel st ctx t : zst st ctx t → rb_heap st !! s = Some ns.
Proof. intros [_ _ _ _ Hh _]. by rewrite (Hh s HsX). Qed.

Lemma temp_parent st ctx t :
  zst st ctx t → temp_ok ctx t → parent (ptr t) st = Some (par_of ctx, st).
Proof.
  intros Z Ht. destruct t as [|c l p k r].
  - destruct Ht as [_ <-]; [done|]. destruct st as [root h].
    apply parent_run. exact (zst_sentinel _ _ _ Z).
  - by eapply zst_parent_run.
Qed.

Lemma zst_below_root st f ctx t : zst st (f :: ctx) t → ptr t ≠ rb_root st.
Proof.
  intros Z. destruct t; [|by eapply zst_not_root]. destruct Z as [_ Hc Hd _ _ _].
  pose proof (rep_ctx_root _ _ _ _ _ _ Hc ltac:(done)) as Hroot.
  unfold distinct in Hd. simpl ptrs in Hd. disj_split Hd. simpl. ptr_solve.
Qed.

Lemma temp_ok_frame f ctx f' ctx' t :
  fptr f = fptr f' → temp_ok (f :: ctx) t → temp_ok (f' :: ctx') t.
Proof. intros Hf H Ht. destruct (H Ht) as [_ Hp]. simpl in *. split; [done|congruence]. Qed.

(** What a run of the loop followed by [gfs_rbt_black] achieves. *)
Definition fixed (l : list (Z * Z)) (m : M rbt Z) (st : rbt) : Prop :=
  ∃ st' t', (temp ← m; gfs_rbt_black temp) st = Some (tt, st') ∧
    zst st' [] t' ∧ redblack t' ∧ inorder t' = l.

Lemma fixed_step {A} l (m : M rbt A) f st x st' :
  m st = Some (x, st') → fixed l (f x) st' → fixed l (x ← m; f x) st.
Proof.
  intros Hm (st2 & t2 & R & H). exists st2, t2. split; [|done].
  revert R. M_unfold. by rewrite Hm.
Qed.

(** The loop ends at the root and at a red node. *)
Lemma fixed_exit st ctx t c n m :
  zst st ctx t → t ≠ E → almost t n → bal_ctx ctx c (S n) m → (ctx = [] ∨ is_redt t = true) →
  fixed (inorder (plug ctx t)) (mret (ptr t)) st.
Proof.
  intros Z Ht Ha Hc Hend. destruct t as [|ct l p k r]; [done|].
  apply zst_set_color with (c' := false) in Z as (st' & R & Z).
  eexists st', _. split; [exact R|]. split; [by rewrite <- zst_plug|]. split.
  - unfold almost in Ha. destruct ct; simpl in Ha.
    + exists m. by eapply bal_plug_black.
    + destruct Hend as [->|]; [|done]. by exists n.
  - by apply inorder_plug.
Qed.

Lemma fixed_loop_exit fuel st ctx t c n m :
  zst st ctx t → t ≠ E → almost t n → bal_ctx ctx c (S n) m → (ctx = [] ∨ is_redt t = true) →
  fixed (inorder (plug ctx t)) (rb_delete_fix (S fuel) s (ptr t)) st.
Proof.
  intros Z Ht Ha Hc Hend. pose proof (fixed_exit _ _ _ _ _ _ Z Ht Ha Hc Hend) as H.
  simpl. eapply fixed_step; [reflexivity|]. destruct ctx as [|f ctx].
  - by rewrite bool_decide_true by by rewrite (zst_root _ _ _ _ _ _ Z).
  - rewrite bool_decide_false by by eapply zst_below_root.
    eapply fixed_step; [by eapply zst_black_run|]. destruct Hend as [ | ->]; [done|]. done.
Qed.

(** After the rotation that ends a repair the loop restarts at the root. *)
Lemma fixed_root fuel st t l :
  zst st [] t → t ≠ E → redblack t → inorder t = l →
  fixed l (root ← get_root; rb_delete_fix (S fuel) s root) st.
Proof.
  intros Z Ht [n Hb] <-. eapply fixed_step; [reflexivity|]. rewrite (zst_root _ _ _ _ _ _ Z).
  assert (almost t n) by (unfold almost; by rewrite <- (bal_color _ _ _ Hb)).
  apply (fixed_loop_exit fuel st [] t false n (S n)); auto. constructor.
Qed.

Lemma copy_color_run st ctx ctx' c l p k r c' l' q k' r' :
  zst st ctx (T c l p k r) → zst st ctx' (T c' l' q k' r') →
  ∃ st', gfs_rbt_copy_color q p st = Some (tt, st') ∧ zst st' ctx' (T c l' q k' r').
Proof.
  intros Zp Zq. apply zst_look in Zp. apply zst_set_color with (c' := c) in Zq as (st' & R & Z).
  exists st'. split; [|done]. unfold gfs_rbt_copy_color, nd. M_unfold. by rewrite Zp.
Qed.

(** The parent of the sibling pair, which takes a black node away from the
    height when it is black. *)
Definition up (cp : bool) (n : nat) : nat := if cp then n else S n.

Definition tail_l (fuel : nat) (temp w : Z) : M rbt Z :=
  tp ← parent temp;
  gfs_rbt_copy_color w tp;; gfs_rbt_black tp;;
  wr ← right w; gfs_rbt_black wr;;
  gfs_rbtree_left_rotate s tp;;
  root ← get_root;
  rb_delete_fix fuel s root.
Definition tail_r (fuel : nat) (temp w : Z) : M rbt Z :=
  tp ← parent temp;
  gfs_rbt_copy_color w tp;; gfs_rbt_black tp;;
  wl ← left w; gfs_rbt_black wl;;
  gfs_rbtree_right_rotate s tp;;
  root ← get_root;
  rb_delete_fix fuel s root.

Lemma plug_neE ctx t : t ≠ E → plug ctx t ≠ E.
Proof. revert t. induction ctx as [|[] ctx IH]; intros t Ht; simpl; [done|..]; by apply IH. Qed.

Lemma tail_l_run fuel st ctx cp t p kp cw wl q kq wr n m cl :
  zst st (FL cp p kp (T cw wl q kq wr) :: ctx) t →
  temp_ok (FL cp p kp (T cw wl q kq wr) :: ctx) t →
  bal t false n → bal wl cl n → bal wr true n → bal_ctx ctx cp (S (up cp n)) m →
  fixed (inorder (plug ctx (T cp t p kp (T cw wl q kq wr)))) (tail_l (S fuel) (ptr t) q) st.
Proof.
  intros Z Ht Bt Bl Br Bc. unfold tail_l, gfs_rbt_black.
  eapply fixed_step; [by eapply temp_parent|]. cbn [RbtreeRep.par_of fptr].
  apply zst_up_l in Z. pose proof (zst_subtree_r _ _ _ _ _ _ _ _ _ _ _ Z) as Zw.
  destruct (copy_color_run _ _ _ _ _ _ _ _ _ _ _ _ _ Z Zw) as (st1 & R1 & Z1).
  eapply fixed_step; [exact R1|]. apply zst_up_r in Z1.
  apply zst_set_color with (c' := false) in Z1 as (st2 & R2 & Z2).
  eapply fixed_step; [exact R2|]. apply zst_subtree_r in Z2.
  eapply fixed_step; [eapply zst_right_run; exact Z2|].
  destruct wr as [|cwr rl pr kr rr]; [inversion Br|].
  apply zst_subtree_r, zst_set_color with (c' := false) in Z2 as (st3 & R3 & Z3).
  eapply fixed_step; [exact R3|]. apply zst_up_r, zst_up_r, zst_left_rotate in Z3
    as (st4 & R4 & Z4 & _).
  eapply fixed_step; [exact R4|].
  eapply fixed_root; [by rewrite <- zst_plug|by apply plug_neE| |].
  - exists m. inversion Br; subst. destruct cp; simpl in Bc;
      eapply bal_plug; try done; eauto 6 with rb.
  - apply inorder_plug. app_norm.
Qed.

Lemma tail_r_run fuel st ctx cp t p kp cw wl q kq wr n m cr :
  zst st (FR cp (T cw wl q kq wr) p kp :: ctx) t →
  temp_ok (FR cp (T cw wl q kq wr) p kp :: ctx) t →
  bal t false n → bal wr cr n → bal wl true n → bal_ctx ctx cp (S (up cp n)) m →
  fixed (inorder (plug ctx (T cp (T cw wl q kq wr) p kp t))) (tail_r (S fuel) (ptr t) q) st.
Proof.
  intros Z Ht Bt Br Bl Bc. unfold tail_r, gfs_rbt_black.
  eapply fixed_step; [by eapply temp_parent|]. cbn [RbtreeRep.par_of fptr].
  apply zst_up_r in Z. pose proof (zst_subtree_l _ _ _ _ _ _ _ _ _ _ _ Z) as Zw.
  destruct (copy_color_run _ _ _ _ _ _ _ _ _ _ _ _ _ Z Zw) as (st1 & R1 & Z1).
  eapply fixed_step; [exact R1|]. apply zst_up_l in Z1.
  apply zst_set_color with (c' := false) in Z1 as (st2 & R2 & Z2).
  eapply fixed_step; [exact R2|]. apply zst_subtree_l in Z2.
  eapply fixed_step; [eapply zst_left_run; exact Z2|].
  destruct wl as [|cwl ll pl kl rl]; [inversion Bl|].
  apply zst_subtree_l, zst_set_color with (c' := false) in Z2 as (st3 & R3 & Z3).
  eapply fixed_step; [exact R3|]. apply zst_up_l, zst_up_l, zst_right_rotate in Z3
    as (st4 & R4 & Z4 & _).
  eapply fixed_step; [exact R4|].
  eapply fixed_root; [by rewrite <- zst_plug|by apply plug_neE| |].
  - exists m. inversion Bl; subst. destruct cp; simpl in Bc;
      eapply bal_plug; try done; eauto 6 with rb.
  - apply inorder_plug. app_norm.
Qed.

(** The next turn, one level up, at a node of colour [cp]. *)
Definition next_turn (cp : bool) (fuel : nat) (ctx : context) (n : nat) : Prop :=
  ∀ st t, zst st ctx t → t ≠ E → is_redt t = cp → almost t n →
    fixed (inorder (plug ctx t)) (rb_delete_fix fuel s (ptr t)) st.

Lemma fix_rest_l_run fuel st ctx cp t p kp wl q kq wr n m cl cr :
  next_turn cp (S fuel) ctx (up cp n) →
  zst st (FL cp p kp (T false wl q kq wr) :: ctx) t →
  temp_ok (FL cp p kp (T false wl q kq wr) :: ctx) t →
  bal t false n → bal wl cl n → bal wr cr n → bal_ctx ctx cp (S (up cp n)) m →
  fixed (inorder (plug ctx (T cp t p kp (T false wl q kq wr))))
    (fix_rest_l (S fuel) s (ptr t) q) st.
Proof.
  intros IH Z Ht Bt Bl Br Bc. unfold fix_rest_l, gfs_rbt_black, gfs_rbt_red.
  pose proof (zst_subtree_r _ _ _ _ _ _ _ _ _ _ _ (zst_up_l _ _ _ _ _ _ _ _ _ _ _ Z)) as Zw.
  eapply fixed_step; [eapply zst_left_run; exact Zw|].
  eapply fixed_step; [eapply zst_black_run, zst_subtree_l; exact Zw|].
  eapply fixed_step; [eapply zst_right_run; exact Zw|].
  eapply fixed_step; [eapply zst_black_run, zst_subtree_r; exact Zw|].
  rewrite <- (bal_color _ _ _ Bl), <- (bal_color _ _ _ Br). destruct cr; cbn [negb].
  - rewrite andb_false_r. eapply fixed_step; [reflexivity|]. by eapply tail_l_run.
  - rewrite andb_true_r. destruct cl; cbn [negb].
    + destruct wl as [|cl ll pl kl rl]; [inversion Bl|].
      apply zst_subtree_l, zst_set_color with (c' := false) in Zw as (st1 & R1 & Z1).
      apply zst_up_l, zst_set_color with (c' := true) in Z1 as (st2 & R2 & Z2).
      apply zst_right_rotate in Z2 as (st3 & R3 & Z3 & _). apply zst_up_r, zst_l in Z3.
      eapply fixed_step.
      { erewrite M_bind_Some by exact R1. erewrite M_bind_Some by exact R2.
        erewrite M_bind_Some by exact R3.
        erewrite M_bind_Some by (eapply temp_parent; [exact Z3|eapply temp_ok_frame; [|exact Ht]; done]).
        eapply zst_right_run, zst_up_l, Z3. }
      rewrite (inorder_plug ctx _ (T cp t p kp (T false ll pl kl (T true rl q kq wr)))) by app_norm.
      inversion Bl; subst.
      apply (tail_l_run fuel st3 ctx cp t p kp false ll pl kl (T true rl q kq wr) n m false);
        [exact Z3| |exact Bt|assumption| |exact Bc].
      * eapply temp_ok_frame; [|exact Ht]; done.
      * eauto with rb.
    + apply zst_set_color with (c' := true) in Zw as (st1 & R1 & Z1).
      eapply fixed_step; [exact R1|]. apply zst_up_r, zst_l in Z1.
      eapply fixed_step; [eapply temp_parent; [exact Z1|eapply temp_ok_frame; [|exact Ht]; done]|].
      apply zst_up_l in Z1. cbn [RbtreeRep.par_of fptr].
      rewrite (inorder_plug ctx _ (T cp t p kp (T true wl q kq wr))) by done.
      apply (IH st1 (T cp t p kp (T true wl q kq wr))); [exact Z1|done|done|].
      unfold almost, up. destruct cp; simpl; eauto with rb.
Qed.

Lemma fix_rest_r_run fuel st ctx cp t p kp wl q kq wr n m cl cr :
  next_turn cp (S fuel) ctx (up cp n) →
  zst st (FR cp (T false wl q kq wr) p kp :: ctx) t →
  temp_ok (FR cp (T false wl q kq wr) p kp :: ctx) t →
  bal t false n → bal wl cl n → bal wr cr n → bal_ctx ctx cp (S (up cp n)) m →
  fixed (inorder (plug ctx (T cp (T false wl q kq wr) p kp t)))
    (fix_rest_r (S fuel) s (ptr t) q) st.
Proof.
  intros IH Z Ht Bt Bl Br Bc. unfold fix_rest_r, gfs_rbt_black, gfs_rbt_red.
  pose proof (zst_subtree_l _ _ _ _ _ _ _ _ _ _ _ (zst_up_r _ _ _ _ _ _ _ _ _ _ _ Z)) as Zw.
  eapply fixed_step; [eapply zst_left_run; exact Zw|].
  eapply fixed_step; [eapply zst_black_run, zst_subtree_l; exact Zw|].
  eapply fixed_step; [eapply zst_right_run; exact Zw|].
  eapply fixed_step; [eapply zst_black_run, zst_subtree_r; exact Zw|].
  rewrite <- (bal_color _ _ _ Bl), <- (bal_color _ _ _ Br). destruct cl; cbn [negb andb].
  - eapply fixed_step; [reflexivity|]. by eapply tail_r_run.
  - destruct cr; cbn [negb].
    + destruct wr as [|cr rl pr kr rr]; [inversion Br|].
      apply zst_subtree_r, zst_set_color with (c' := false) in Zw as (st1 & R1 & Z1).
      apply zst_up_r, zst_set_color with (c' := true) in Z1 as (st2 & R2 & Z2).
      apply zst_left_rotate in Z2 as (st3 & R3 & Z3 & _). apply zst_up_l, zst_r in Z3.
      eapply fixed_step.
      { erewrite M_bind_Some by exact R1. erewrite M_bind_Some by exact R2.
        erewrite M_bind_Some by exact R3.
        erewrite M_bind_Some by (eapply temp_parent;
          [exact Z3|eapply temp_ok_frame; [|exact Ht]; done]).
        eapply zst_left_run, zst_up_r, Z3. }
      rewrite (inorder_plug ctx _ (T cp (T false (T true wl q kq rl) pr kr rr) p kp t)) by app_norm.
      inversion Br; subst.
      apply (tail_r_run fuel st3 ctx cp t p kp false (T true wl q kq rl) pr kr rr n m false);
        [exact Z3| |exact Bt|assumption| |exact Bc].
      * eapply temp_ok_frame; [|exact Ht]; done.
      * eauto with rb.
    + apply zst_set_color with (c' := true) in Zw as (st1 & R1 & Z1).
      eapply fixed_step; [exact R1|]. apply zst_up_l, zst_r in Z1.
      eapply fixed_step; [eapply temp_parent;
        [exact Z1|eapply temp_ok_frame; [|exact Ht]; done]|].
      apply zst_up_r in Z1. cbn [RbtreeRep.par_of fptr].
      rewrite (inorder_plug ctx _ (T cp (T true wl q kq wr) p kp t)) by done.
      apply (IH st1 (T cp (T true wl q kq wr) p kp t)); [exact Z1|done|done|].
      unfold almost, up.
      destruct cp; simpl; eauto with rb.
Qed.


Lemma bal_ctx_inv_l cp p k w ctx c n m :
  bal_ctx (FL cp p k w :: ctx) c (S n) m →
  ∃ cw, bal w cw (S n) ∧ bal_ctx ctx cp (S (up cp n)) m ∧ (cw = true → cp = false).
Proof. inversion 1; subst; eexists; eauto. Qed.
Lemma bal_ctx_inv_r cp p k w ctx c n m :
  bal_ctx (FR cp w p k :: ctx) c (S n) m →
  ∃ cw, bal w cw (S n) ∧ bal_ctx ctx cp (S (up cp n)) m ∧ (cw = true → cp = false).
Proof. inversion 1; subst; eexists; eauto. Qed.

(** A tree of positive black height has a node; below a black one the height
    drops. *)
Lemma bal_black_inv w n : bal w false (S n) →
  ∃ l q k r cl cr, w = T false l q k r ∧ bal l cl n ∧ bal r cr n.
Proof. inversion 1; subst; eauto 10. Qed.
Lemma bal_red_inv w n : bal w true n →
  ∃ l q k r, w = T true l q k r ∧ bal l false n ∧ bal r false n.
Proof. inversion 1; subst; eauto 10. Qed.

Lemma next_turn_red fuel ctx c n m :
  bal_ctx ctx c (S n) m → next_turn true (S fuel) ctx n.
Proof. intros Bc st t Z Ht Hr Ha. eapply fixed_loop_exit; eauto. Qed.

(** A turn at a black left child, after the tests of the loop condition. *)
Lemma fix_turn_left fuel st ctx cp t p kp w c n m :
  (∀ st t, zst st ctx t → t ≠ E → almost t (up cp n) →
     fixed (inorder (plug ctx t)) (rb_delete_fix (S fuel) s (ptr t)) st) →
  zst st (FL cp p kp w :: ctx) t → temp_ok (FL cp p kp w :: ctx) t → bal t false n →
  bal_ctx (FL cp p kp w :: ctx) c (S n) m →
  fixed (inorder (plug ctx (T cp t p kp w)))
    (w ← right p;
     wred ← gfs_rbt_is_red w;
     w ← (if wred : bool then
            gfs_rbt_black w;; gfs_rbt_red p;; gfs_rbtree_left_rotate s p;;
            tp ← parent (ptr t); right tp
          else mret w);
     fix_rest_l (S fuel) s (ptr t) w) st.
Proof.
  intros IH Z Ht Bt Bc. apply bal_ctx_inv_l in Bc as (cw & Bw & Bc & Hcw).
  pose proof (zst_up_l _ _ _ _ _ _ _ _ _ _ _ Z) as Zp.
  pose proof (zst_subtree_r _ _ _ _ _ _ _ _ _ _ _ Zp) as Zw.
  eapply fixed_step; [eapply zst_right_run; exact Zp|].
  eapply fixed_step; [eapply zst_red_run; exact Zw|]. rewrite <- (bal_color _ _ _ Bw).
  destruct cw.
  - rewrite Hcw in * by done. apply bal_red_inv in Bw as (wl & q & kq & wr & -> & Bl & Br).
    apply bal_black_inv in Bl as (wll & wq & wk & wlr & cl & cr & -> & Bll & Blr).
    apply zst_set_color with (c' := false) in Zw as (st1 & R1 & Z1).
    apply zst_up_r, zst_set_color with (c' := true) in Z1 as (st2 & R2 & Z2).
    apply zst_left_rotate in Z2 as (st3 & R3 & Z3 & _). apply zst_l, zst_l in Z3.
    eapply fixed_step.
    { unfold gfs_rbt_black, gfs_rbt_red. erewrite M_bind_Some by exact R1.
      erewrite M_bind_Some by exact R2. erewrite M_bind_Some by exact R3.
      erewrite M_bind_Some by (eapply temp_parent;
        [exact Z3|eapply temp_ok_frame; [|exact Ht]; done]).
      eapply zst_right_run, zst_up_l, Z3. }
    assert (bal_ctx (FL false q kq wr :: ctx) true (S n) m) as Bc' by eauto with rb.
    rewrite (inorder_plug ctx _ (T false (T true t p kp (T false wll wq wk wlr)) q kq wr)) by app_norm.
    apply (fix_rest_l_run fuel st3 (FL false q kq wr :: ctx) true t p kp wll wq wk wlr n m cl cr);
      [by eapply next_turn_red|exact Z3| |exact Bt|exact Bll|exact Blr|exact Bc'].
    eapply temp_ok_frame; [|exact Ht]; done.
  - apply bal_black_inv in Bw as (wl & q & kq & wr & cl & cr & -> & Bl & Br).
    eapply fixed_step; [reflexivity|].
    apply (fix_rest_l_run fuel st ctx cp t p kp wl q kq wr n m cl cr); try done.
    intros st' t' Z' Ht' _ Ha. by apply IH.
Qed.
Lemma fix_turn_right fuel st ctx cp t p kp w c n m :
  (∀ st t, zst st ctx t → t ≠ E → almost t (up cp n) →
     fixed (inorder (plug ctx t)) (rb_delete_fix (S fuel) s (ptr t)) st) →
  zst st (FR cp w p kp :: ctx) t → temp_ok (FR cp w p kp :: ctx) t → bal t false n →
  bal_ctx (FR cp w p kp :: ctx) c (S n) m →
  fixed (inorder (plug ctx (T cp w p kp t)))
    (w ← left p;
     wred ← gfs_rbt_is_red w;
     w ← (if wred : bool then
            gfs_rbt_black w;; gfs_rbt_red p;; gfs_rbtree_right_rotate s p;;
            tp ← parent (ptr t); left tp
          else mret w);
     fix_rest_r (S fuel) s (ptr t) w) st.
Proof.
  intros IH Z Ht Bt Bc. apply bal_ctx_inv_r in Bc as (cw & Bw & Bc & Hcw).
  pose proof (zst_up_r _ _ _ _ _ _ _ _ _ _ _ Z) as Zp.
  pose proof (zst_subtree_l _ _ _ _ _ _ _ _ _ _ _ Zp) as Zw.
  eapply fixed_step; [eapply zst_left_run; exact Zp|].
  eapply fixed_step; [eapply zst_red_run; exact Zw|]. rewrite <- (bal_color _ _ _ Bw).
  destruct cw.
  - rewrite Hcw in * by done. apply bal_red_inv in Bw as (wl & q & kq & wr & -> & Bl & Br).
    apply bal_black_inv in Br as (wrl & wq & wk & wrr & cl & cr & -> & Brl & Brr).
    apply zst_set_color with (c' := false) in Zw as (st1 & R1 & Z1).
    apply zst_up_l, zst_set_color with (c' := true) in Z1 as (st2 & R2 & Z2).
    apply zst_right_rotate in Z2 as (st3 & R3 & Z3 & _). apply zst_r, zst_r in Z3.
    eapply fixed_step.
    { unfold gfs_rbt_black, gfs_rbt_red. erewrite M_bind_Some by exact R1.
      erewrite M_bind_Some by exact R2. erewrite M_bind_Some by exact R3.
      erewrite M_bind_Some by (eapply temp_parent;
        [exact Z3|eapply temp_ok_frame; [|exact Ht]; done]).
      eapply zst_left_run, zst_up_r, Z3. }
    assert (bal_ctx (FR false wl q kq :: ctx) true (S n) m) as Bc' by eauto with rb.
    rewrite (inorder_plug ctx _ (T false wl q kq (T true (T false wrl wq wk wrr) p kp t))) by app_norm.
    apply (fix_rest_r_run fuel st3 (FR false wl q kq :: ctx) true t p kp wrl wq wk wrr n m cl cr);
      [by eapply next_turn_red|exact Z3| |exact Bt|exact Brl|exact Brr|exact Bc'].
    eapply temp_ok_frame; [|exact Ht]; done.
  - apply bal_black_inv in Bw as (wl & q & kq & wr & cl & cr & -> & Bl & Br).
    eapply fixed_step; [reflexivity|].
    apply (fix_rest_r_run fuel st ctx cp t p kp wl q kq wr n m cl cr); try done.
    intros st' t' Z' Ht' _ Ha. by apply IH.
Qed.

Lemma rb_delete_fix_run fuel ctx t st c n m :
  zst st ctx t → temp_ok ctx t → almost t n → bal_ctx ctx c (S n) m →
  (S (length ctx) < fuel)%nat →
  fixed (inorder (plug ctx t)) (rb_delete_fix fuel s (ptr t)) st.
Proof.
  revert ctx t st c n. induction fuel as [|fuel IH]; intros ctx t st c n Z Ht Ha Bc Hf; [lia|].
  destruct ctx as [|f ctx].
  { eapply fixed_loop_exit; [exact Z| |exact Ha|exact Bc|by left].
    intros ->. by destruct (Ht eq_refl). }
  destruct (is_redt t) eqn:Hred.
  { eapply fixed_loop_exit; [exact Z| |exact Ha|exact Bc|by right]. by intros ->. }
  unfold almost in Ha. rewrite Hred in Ha. simpl in Hf. destruct fuel as [|fuel]; [lia|].
  assert (∀ cp, bal_ctx ctx cp (S (up cp n)) m →
    ∀ st t, zst st ctx t → t ≠ E → almost t (up cp n) →
      fixed (inorder (plug ctx t)) (rb_delete_fix (S fuel) s (ptr t)) st) as IH'.
  { intros cp Bc' st' t' Z' Ht' Ha'. eapply IH; [exact Z'|by intros ->|exact Ha'|exact Bc'|lia]. }
  clear IH. pose proof (temp_parent _ _ _ Z Ht) as Hpar. simpl in Hpar.
  remember (S fuel) as fuel1 eqn:Hfuel1. cbn [rb_delete_fix].
  eapply fixed_step; [reflexivity|].
  rewrite bool_decide_false by by eapply zst_below_root.
  eapply fixed_step; [by eapply zst_black_run|]. rewrite Hred. cbn [negb].
  eapply fixed_step; [exact Hpar|].
  destruct f as [cp p kp w|cp w p kp]; cbn [fptr].
  - pose proof (zst_up_l _ _ _ _ _ _ _ _ _ _ _ Z) as Zp.
    eapply fixed_step; [eapply zst_left_run; exact Zp|]. rewrite bool_decide_true by done.
    subst fuel1. destruct (bal_ctx_inv_l _ _ _ _ _ _ _ _ Bc) as (cw & _ & Bc' & _).
    exact (fix_turn_left fuel st ctx cp t p kp w c n m (IH' cp Bc') Z Ht Ha Bc).
  - pose proof (zst_up_r _ _ _ _ _ _ _ _ _ _ _ Z) as Zp.
    eapply fixed_step; [eapply zst_left_run; exact Zp|].
    destruct (bal_ctx_inv_r _ _ _ _ _ _ _ _ Bc) as (cw & Bw & Bc' & _).
    rewrite bool_decide_false; last first.
    { apply not_eq_sym, (zst_siblings _ _ _ _ _ _ _ _ _ _ _ Zp). left. by destruct w; [inversion Bw|]. }
    subst fuel1.
    exact (fix_turn_right fuel st ctx cp t p kp w c n m (IH' cp Bc') Z Ht Ha Bc).
Qed.
End repair.
