(* ===== verification/RbtreeUnlink.v ===== *)
(** [gfs_rbtree_delete]: the choice of the node that leaves its place, the
    relinking, and the correctness of the whole deletion. *)
From S2P Require Import Prelude Rbtree RbtreeRep RbtreeInsert RbtreeMap RbtreeDelete.

(** ** Decomposition of a tree at a node *)

Lemma focus_at t ctx0 la lb x k :
  inorder t = la ++ (x, k) :: lb →
  ∃ ctx c l r, plug ctx0 t = plug ctx (T c l x k r) ∧
    before ctx0 ++ la = before ctx ++ inorder l ∧ lb ++ after ctx0 = inorder r ++ after ctx.
Proof.
  revert ctx0 la lb. induction t as [|c l IHl p pk r IHr]; intros ctx0 la lb; simpl.
  { by destruct la. }
  intros Heq. apply app_eq_inv in Heq as [(m & Hl & Heq)|(m & -> & Heq)].
  - destruct m as [|e m]; simpl in Heq.
    + rewrite app_nil_r in Hl. injection Heq as -> -> ->. subst la.
      by exists ctx0, c, l, r.
    + injection Heq as <- ->.
      destruct (IHl (FL c p pk r :: ctx0) la m) as (ctx & c' & l' & r' & Hp & Hb & Ha); [done|].
      exists ctx, c', l', r'. simpl in *. rewrite app_nil_r in Hb. split_and!; [done|done|].
      rewrite <- Ha. app_norm.
  - destruct m as [|e m]; simpl in Heq.
    + injection Heq as -> -> <-. exists ctx0, c, l, r. by rewrite app_nil_r.
    + injection Heq as <- Hr.
      destruct (IHr (FR c l p pk :: ctx0) m lb) as (ctx & c' & l' & r' & Hp & Hb & Ha); [done|].
      exists ctx, c', l', r'. simpl in *. split_and!; [done| |done].
      rewrite <- Hb. app_norm.
Qed.

(** The leftmost node of a tree. *)
Lemma focus_min c l p k r :
  ∃ ctx cm m km mr, T c l p k r = plug ctx (T cm E m km mr) ∧ before ctx = [] ∧
    ∀ ctxB, before (ctx ++ ctxB) = before ctxB.
Proof.
  revert c p k r. induction l as [|cl ll IH pl kl rl _]; intros c p k r.
  { by exists [], c, p, k, r. }
  destruct (IH cl pl kl rl) as (ctx & cm & m & km & mr & Heq & Hb & HB).
  exists (ctx ++ [FL c p k r]), cm, m, km, mr. split_and!.
  - rewrite Heq. clear. revert cm m km mr.
    assert (∀ t, T c (plug ctx t) p k r = plug (ctx ++ [FL c p k r]) t) as H; [|intros; apply H].
    induction ctx as [|[] ctx IH]; intros t; simpl; [done|..]; apply IH.
  - by rewrite HB.
  - intros ctxB. rewrite <- app_assoc, HB. simpl. apply app_nil_r.
Qed.

Lemma plug_app ctxA ctxB t : plug (ctxA ++ ctxB) t = plug ctxB (plug ctxA t).
Proof. revert t. induction ctxA as [|[] ctxA IH]; intros t; simpl; [done|..]; apply IH. Qed.

Lemma bal_unplug ctx t m : bal (plug ctx t) false m → ∃ c n, bal_ctx ctx c n m ∧ bal t c n.
Proof.
  revert t. induction ctx as [|[cp p k r|cp l p k] ctx IH]; intros t; simpl.
  - exists false, m. by split; [constructor|].
  - intros (c & n & Hc & Ht)%IH. inversion Ht; subst; eauto 6 with rb.
  - intros (c & n & Hc & Ht)%IH. inversion Ht; subst; eauto 6 with rb.
Qed.

(** The balance of a context does not depend on addresses and keys. *)
Lemma bal_ctx_rename ctxA cf l x k y ky ctxB c n m :
  bal_ctx (ctxA ++ FR cf l x k :: ctxB) c n m → bal_ctx (ctxA ++ FR cf l y ky :: ctxB) c n m.
Proof.
  revert c n. induction ctxA as [|f ctxA IH]; intros c n; simpl; inversion 1; subst;
    eauto with rb.
Qed.

(** What remains when a black node with one child leaves its place. *)
Lemma bal_one_child c p k ch n :
  bal (T c E p k ch) c n ∨ bal (T c ch p k E) c n →
  if c then ch = E ∧ n = O else n = 1%nat ∧ almost ch 0.
Proof.
  assert (∀ t cc, bal t cc 0 → almost t 0) as Halmost.
  { intros t cc Ht. unfold almost. rewrite <- (bal_color _ _ _ Ht).
    destruct cc; [by apply bal_blacken_red|done]. }
  assert (∀ t, bal t false 0 → t = E) as HE by (inversion 1; done).
  intros [H|H]; inversion H; subst;
    match goal with H : bal E _ _ |- _ => inversion H; subst end; eauto.
Qed.

Lemma bal_focus ctx c p k ch m t :
  (∃ l r, t = T c l p k r ∧ (l = E ∧ r = ch ∨ l = ch ∧ r = E)) →
  bal (plug ctx t) false m →
  if c then ch = E ∧ bal_ctx ctx false 0 m else almost ch 0 ∧ bal_ctx ctx false 1 m.
Proof.
  intros (l & r & -> & Hlr) (c' & n & Hc & Ht)%bal_unplug.
  pose proof (bal_color _ _ _ Ht) as ->. simpl in *.
  assert (if c then ch = E ∧ n = O else n = 1%nat ∧ almost ch 0) as H.
  { apply (bal_one_child c p k). destruct Hlr as [[-> ->]|[-> ->]]; auto. }
  destruct c; destruct H as [H1 H2]; subst; split; try done. by apply bal_ctx_weaken.
Qed.

(** ** The pieces of the program *)

Section unlink.
Context (s : Z).
Local Abbreviation ptr := (ptr s).
Local Abbreviation rep := (rep s).

Lemma rep_ctx_app par0 h ctxA ctxB t root :
  rep h (par_of par0 (ctxA ++ ctxB)) t ∧ rep_ctx s par0 h (ctxA ++ ctxB) (ptr t) root ↔
  rep h (par_of par0 ctxB) (plug ctxA t) ∧ rep_ctx s par0 h ctxB (ptr (plug ctxA t)) root.
Proof.
  revert t. induction ctxA as [|[c p k r|c l p k] ctxA IH]; intros t; simpl; [done|..];
    rewrite <- IH; simpl; tauto.
Qed.

(** The last steps: nothing to do below a red node, the repair otherwise. *)
Definition rb_finish (fuel : nat) (sentinel temp : Z) (red : bool) : M rbt unit :=
  if red then mret tt
  else temp ← rb_delete_fix fuel sentinel temp; gfs_rbt_black temp.

Lemma rb_finish_run par0 h root ctx t (red : bool) m fuel :
  rep h (par_of par0 ctx) t → rep_ctx s par0 h ctx (ptr t) root → distinct s ctx t →
  sentinel_ok s h →
  (t = E → ctx ≠ [] ∧ ∃ ns, h !! s = Some ns ∧ n_parent ns = par_of par0 ctx) →
  (if red then t = E ∧ bal_ctx ctx false 0 m else almost t 0 ∧ bal_ctx ctx false 1 m) →
  (S (length ctx) < fuel)%nat →
  ∃ st' t', rb_finish fuel s (ptr t) red (Rbt root h) = Some (tt, st') ∧
    is_rbtree s st' t' ∧ inorder t' = inorder (plug ctx t) ∧
    same_off (ptrs t ++ cptrs ctx) h (rb_heap st').
Proof.
  intros Hr Hc Hd Hs Hns Hbal Hf.
  assert (zst s par0 (ptrs t ++ cptrs ctx) h (Rbt root h) ctx t) as Z
    by (split; try done; apply same_off_refl).
  destruct red; simpl.
  - destruct Hbal as [-> Bc]. rewrite zst_plug in Z.
    apply zst_is_rbtree in Z as [Hrb Hoff].
    + eexists _, _. split_and!; [done|exact Hrb|done|apply same_off_refl].
    + exists m. eapply bal_plug; [done|constructor].
  - destruct Hbal as [Ha Bc]. destruct Hs as (ns & Hsn & Hsb).
    assert (s ∉ ptrs t ++ cptrs ctx) as HsX by (by apply NoDup_cons in Hd as [? _]).
    destruct (rb_delete_fix_run s par0 (ptrs t ++ cptrs ctx) h ns Hsn HsX
      fuel ctx t (Rbt root h) false 0 m)
      as (st' & t' & R & Z' & Hrb & Hin); try done.
    { intros Ht. destruct (Hns Ht) as (Hne & ns' & Hns' & Hp). split; [done|]. congruence. }
    apply zst_is_rbtree in Z' as [Hrb' Hoff]; [|done]. by eexists st', t'.
Qed.

Lemma relink_hole_run par0 h root f ctx a b :
  rep_ctx s par0 h (f :: ctx) a root → NoDup (s :: a :: cptrs (f :: ctx)) →
  ∃ h', (spl ← left (fptr f);
         if bool_decide (a = spl) then set_left (fptr f) b else set_right (fptr f) b)
          (Rbt root h) = Some (tt, Rbt root h') ∧
    rep_ctx s par0 h' (f :: ctx) b root ∧ same_off [fptr f] h h'.
Proof.
  intros Hc Hd. destruct f as [c p k r|c l p k]; simpl in *; disj_split Hd;
    destruct Hc as (Hp & Ht & Hc).
  - eexists. split_and!.
    + rb_op. rb_true. eapply set_left_run; rb_look.
    + simpl. by rewrite lookup_insert_eq.
    + eapply rep_same_off; [apply same_off_insert| |done]; ptr_solve.
    + eapply rep_ctx_same_off; [apply same_off_insert| |done]; ptr_solve.
    + apply same_off_insert.
  - assert (ptr l ≠ a) by (eapply ptr_ne; [done|ptr_solve|ptr_solve]).
    eexists. split_and!.
    + rb_op. rb_false. eapply set_right_run; rb_look.
    + simpl. by rewrite lookup_insert_eq.
    + eapply rep_same_off; [apply same_off_insert| |done]; ptr_solve.
    + eapply rep_ctx_same_off; [apply same_off_insert| |done]; ptr_solve.
    + apply same_off_insert.
Qed.

(** The unconditional [set_parent] of [temp], which may write the sentinel. *)
Lemma set_temp_parent_run h root par b x :
  rep h par b → NoDup (s :: ptrs b) → sentinel_ok s h →
  ∃ h', set_parent (ptr b) x (Rbt root h) = Some (tt, Rbt root h') ∧ rep h' x b ∧
    same_off [ptr b] h h' ∧ sentinel_ok s h' ∧
    (b = E → ∃ ns, h' !! s = Some ns ∧ n_parent ns = x).
Proof.
  intros Hb Hd (ns & Hs & Hsb). destruct b as [|c l p k r]; simpl in *.
  - eexists. split_and!; [by apply set_parent_run|done|apply same_off_insert|..].
    + eexists. split; [apply lookup_insert_eq|done].
    + intros _. eexists. split; [apply lookup_insert_eq|done].
  - destruct Hb as (Hp & Hl & Hr). disj_split Hd. eexists.
    split_and!; [by apply set_parent_run|..]; rb_simpl; [rb_look|..].
    + eapply rep_same_off; [apply same_off_insert|ptr_solve|done].
    + eapply rep_same_off; [apply same_off_insert|ptr_solve|done].
    + apply same_off_insert.
    + exists ns. split; [|done]. assert (s ≠ p) by ptr_solve. rb_look.
    + done.
Qed.

(** What [rb_clear] leaves of a node of colour [c]. *)
Definition cleared (c : bool) : rbnode := RbNode 0 NULL NULL NULL c.

Lemma rb_clear_run x n root h :
  h !! x = Some n →
  ∃ h', rb_clear x (Rbt root h) = Some (tt, Rbt root h') ∧ same_off [x] h h' ∧
    h' !! x = Some (cleared (n_red n)).
Proof.
  intros Hx. unfold rb_clear. do 3 rb_op. eexists.
  split_and!; [eapply set_key_run; rb_look| |apply lookup_insert_eq].
  intros q Hq. by rewrite !lookup_insert_ne by set_solver.
Qed.

Lemma blacken_run h root par b :
  rep h par b → NoDup (s :: ptrs b) → sentinel_ok s h →
  ∃ h', gfs_rbt_black (ptr b) (Rbt root h) = Some (tt, Rbt root h') ∧ rep h' par (blacken b) ∧
    same_off [ptr b] h h' ∧ sentinel_ok s h'.
Proof.
  intros Hb Hd (ns & Hs & Hsb). unfold gfs_rbt_black. destruct b as [|c l p k r]; simpl in *.
  - eexists. split_and!; [by apply set_color_run|done|apply same_off_insert|].
    eexists. split; [apply lookup_insert_eq|done].
  - destruct Hb as (Hp & Hl & Hr). disj_split Hd. eexists.
    split_and!; [by apply set_color_run|..]; rb_simpl; [rb_look|..].
    + eapply rep_same_off; [apply same_off_insert|ptr_solve|done].
    + eapply rep_same_off; [apply same_off_insert|ptr_solve|done].
    + apply same_off_insert.
    + exists ns. split; [|done]. assert (s ≠ p) by ptr_solve. rb_look.
Qed.

(** What follows the choice of [subst] and [temp]. *)
Definition rb_delete_rest (fuel : nat) (sentinel node subst temp : Z) : M rbt unit :=
  root ← get_root;
  if bool_decide (subst = root) then
    set_root temp;; gfs_rbt_black temp;; rb_clear node
  else
    red ← gfs_rbt_is_red subst;
    sp ← parent subst;
    (spl ← left sp;
     if bool_decide (subst = spl) then set_left sp temp else set_right sp temp);;
    (if bool_decide (subst = node) then
       sp ← parent subst; set_parent temp sp
     else rb_delete_replace sentinel node subst temp);;
    rb_clear node;;
    rb_finish fuel sentinel temp red.

Lemma gfs_rbtree_delete_eq fuel x st y t' st' :
  rb_delete_choose fuel s x st = Some ((y, t'), st') →
  gfs_rbtree_delete fuel s x st = rb_delete_rest fuel s x y t' st'.
Proof.
  intros H. unfold gfs_rbtree_delete. rewrite (M_bind_Some _ _ _ _ _ H).
  unfold rb_delete_rest, rb_finish, get_root. M_unfold.
  destruct (bool_decide (y = rb_root st')); [done|].
  destruct (gfs_rbt_is_red y st') as [[red st1]|]; [|done].
  destruct (parent y st1) as [[sp st2]|]; [|done].
  destruct (left sp st2) as [[spl st3]|]; done.
Qed.

(** The deleted node was the root with at most one child. *)
Lemma delete_root_run h root par0 c l x k r ch fuel :
  (l = E ∧ r = ch ∨ l = ch ∧ r = E) →
  is_rbtree s (Rbt root h) (T c l x k r) → rep h par0 (T c l x k r) →
  ∃ st', rb_delete_rest fuel s x x (ptr ch) (Rbt root h) = Some (tt, st') ∧
    is_rbtree s st' (blacken ch) ∧ same_off (s :: ptrs (T c l x k r)) h (rb_heap st') ∧
    ∃ cx, rb_heap st' !! x = Some (cleared cx).
Proof.
  intros Hlr [_ Hroot Hd Hs [n Hb]] (Hx & Hl & Hr). simpl in Hroot, Hd, Hs. subst root.
  assert (rep h x ch ∧ NoDup (s :: x :: ptrs ch) ∧ redblack (blacken ch) ∧
    ∀ q, q = ptr ch ∨ q = x ∨ q ∈ ptrs ch → q ∈ s :: ptrs (T c l x k r)) as (Hch & Hd' & Hbal & Hsub).
  { assert (redblack (blacken l) ∧ redblack (blacken r)) as [Hbl Hbr].
    { assert (∀ t cc nn, bal t cc nn → redblack (blacken t)) as Hany.
      { intros t [] nn Ht; eexists; [by apply bal_blacken_red|by apply bal_blacken_black]. }
      inversion Hb; subst; eauto. }
    disj_split Hd. destruct Hlr as [[-> ->]|[-> ->]]; split_and!; try done; try ptr_solve;
      destruct ch; simpl; set_solver. }
  unfold rb_delete_rest. rb_op. rb_true. rb_op.
  destruct (blacken_run h (ptr ch) x ch Hch) as (h1 & R1 & Hr1 & Ho1 & Hs1); [|done|].
  { disj_split Hd'. ptr_solve. }
  rewrite (M_bind_Some _ _ _ _ _ R1).
  assert (x ≠ ptr ch) as Hxc by (destruct ch; simpl in *; disj_split Hd'; ptr_solve).
  destruct (rb_clear_run x (RbNode k (ptr l) (ptr r) par0 c) (ptr ch) h1) as (h2 & R2 & Ho2 & Hcl).
  { rewrite Ho1 by set_solver. done. }
  eexists. split; [exact R2|]. assert (ptrs (blacken ch) = ptrs ch) as Hpb by by destruct ch.
  split; [split; cbn [rb_heap rb_root]|split; [|by eexists]].
  - exists x. eapply rep_same_off; [exact Ho2| |exact Hr1].
    rewrite Hpb. disj_split Hd'. ptr_solve.
  - by destruct ch.
  - rewrite Hpb. disj_split Hd'. ptr_solve.
  - destruct Hs1 as (ns & Hns & Hc). exists ns. split; [|done]. rewrite Ho2; [done|].
    disj_split Hd'. ptr_solve.
  - done.
  - eapply same_off_weaken; [eapply same_off_trans; [exact Ho1|exact Ho2]|].
    intros q [Hq%list_elem_of_singleton|Hq%list_elem_of_singleton]%elem_of_app; apply Hsub; auto.
Qed.

Lemma zst_not_root_raw par0 h root f ctx a :
  rep_ctx s par0 h (f :: ctx) a root → NoDup (a :: cptrs (f :: ctx)) → a ≠ root.
Proof.
  intros Hc Hd ->. apply rep_ctx_root in Hc; [|done]. by apply NoDup_cons in Hd as [? _].
Qed.

(** The deleted node has at most one child and a parent. *)
Lemma delete_one_run par0 h root f ctx c l x k r ch m fuel :
  (l = E ∧ r = ch ∨ l = ch ∧ r = E) →
  rep h (par_of par0 (f :: ctx)) (T c l x k r) → rep_ctx s par0 h (f :: ctx) x root →
  distinct s (f :: ctx) (T c l x k r) → sentinel_ok s h →
  bal (plug (f :: ctx) (T c l x k r)) false m → (S (length (f :: ctx)) < fuel)%nat →
  ∃ st' t', rb_delete_rest fuel s x x (ptr ch) (Rbt root h) = Some (tt, st') ∧
    is_rbtree s st' t' ∧ inorder t' = inorder (plug (f :: ctx) ch) ∧
    same_off (s :: x :: ptrs ch ++ cptrs (f :: ctx)) h (rb_heap st') ∧
    ∃ cx, rb_heap st' !! x = Some (cleared cx).
Proof.
  intros Hlr Hr Hc Hd Hs Hb Hf.
  assert (rep h x ch ∧ NoDup (s :: x :: ptrs ch ++ cptrs (f :: ctx))) as [Hch Hd'].
  { unfold distinct in Hd. cbn [ptrs] in Hd. destruct Hr as (_ & Hl & Hr). disj_split Hd.
    destruct Hlr as [[-> ->]|[-> ->]]; split; try done; disj_goal. }
  apply (bal_focus (f :: ctx) c x k ch) in Hb; [|eauto].
  destruct Hr as (Hx & _ & _). clear Hd Hlr.
  assert (fptr f ∈ cptrs (f :: ctx)) as Hfp by (destruct f; simpl; set_solver).
  assert (∀ q, q = ptr ch → q ∈ s :: ptrs ch) as Hpch by (intros q ->; destruct ch; simpl; set_solver).
  unfold rb_delete_rest. rb_op.
  rewrite bool_decide_false.
  2:{ eapply zst_not_root_raw; [done|]. disj_split Hd'. disj_goal. }
  rb_op. rb_op. cbn [par_of].
  destruct (relink_hole_run par0 h root f ctx x (ptr ch) Hc) as (h1 & R1 & Hc1 & Ho1).
  { disj_split Hd'. disj_goal. }
  rewrite (M_bind_Some _ _ _ _ _ R1). rb_true.
  assert (h1 !! x = h !! x) as Hx1.
  { apply Ho1. disj_split Hd'. intros Hq%list_elem_of_singleton. rewrite <- Hq in Hfp. ptr_solve. }
  assert (∀ q, q ∈ s :: ptrs ch → h1 !! q = h !! q) as Hk1.
  { intros q Hq. apply Ho1. intros ->%list_elem_of_singleton. disj_split Hd'.
    apply elem_of_cons in Hq as [Hq|Hq]; [rewrite Hq in Hfp|]; ptr_solve. }
  destruct (set_temp_parent_run h1 root x ch (fptr f)) as (h2 & R2 & Hr2 & Ho2 & Hs2 & Hns).
  { eapply rep_ext; [|exact Hch]. intros q Hq. apply Hk1. set_solver. }
  { disj_split Hd'. disj_goal. }
  { destruct Hs as (ns & Hns & Hc'). exists ns. by rewrite Hk1 by set_solver. }
  erewrite M_bind_Some; [|erewrite M_bind_Some by (eapply parent_run; rewrite Hx1; exact Hx); exact R2].
  assert (x ≠ ptr ch) as Hxc.
  { intros Hxc. pose proof (Hpch _ Hxc) as Hq. disj_split Hd'.
    apply elem_of_cons in Hq as [Hq|Hq]; [rewrite Hq in Hxc|]; subst x; ptr_solve. }
  destruct (rb_clear_run x (RbNode k (ptr l) (ptr r) (fptr f) c) root h2) as (h3 & R3 & Ho3 & Hcl).
  { rewrite Ho2 by set_solver. rewrite Hx1. exact Hx. }
  rewrite (M_bind_Some _ _ _ _ _ R3).
  destruct (rb_finish_run par0 h3 root (f :: ctx) ch c m fuel) as (st' & t' & R & Hrb & Hin & Ho).
  - eapply rep_same_off; [exact Ho3| |exact Hr2]. disj_split Hd'. ptr_solve.
  - eapply rep_ctx_same_off; [exact Ho3|disj_split Hd'; ptr_solve|].
    eapply rep_ctx_same_off; [exact Ho2| |exact Hc1].
    intros q Hq ->%list_elem_of_singleton. pose proof (Hpch _ eq_refl) as Hq'. disj_split Hd'.
    apply elem_of_cons in Hq' as [Hq'|Hq']; [rewrite Hq' in Hq|]; ptr_solve.
  - unfold distinct. disj_split Hd'. disj_goal.
  - destruct Hs2 as (ns & Hns2 & Hc'). exists ns. split; [|done]. rewrite Ho3; [done|].
    disj_split Hd'. ptr_solve.
  - intros ->. split; [done|]. destruct (Hns eq_refl) as (ns & Hns2 & Hc'). exists ns.
    split; [|done]. rewrite Ho3; [done|]. disj_split Hd'. ptr_solve.
  - exact Hb.
  - exact Hf.
  - exists st', t'. split_and!; [exact R|done|done| |].
    2:{ eexists. rewrite Ho; [exact Hcl|]. clear -Hd'. apply NoDup_cons in Hd' as [_ Hd'].
        by apply NoDup_cons in Hd' as [? _]. }
    eapply same_off_weaken; [eapply same_off_trans; [|exact Ho]; eapply same_off_trans; [|exact Ho3];
      eapply same_off_trans; [exact Ho1|exact Ho2]|].
    clear -Hpch Hfp. intros q. specialize (Hpch q). set_solver.
Qed.

(** ** The deleted node has two children *)

Lemma ptrs_plug ctx t : ptrs (plug ctx t) ≡ₚ ptrs t ++ cptrs ctx.
Proof.
  revert t. induction ctx as [|[c p k r|c l p k] ctx IH]; intros t.
  - simpl. by rewrite app_nil_r.
  - rewrite perm_up_l. apply IH.
  - rewrite perm_up_r. apply IH.
Qed.
Lemma cptrs_app ctxA ctxB : cptrs (ctxA ++ ctxB) = cptrs ctxA ++ cptrs ctxB.
Proof. apply bind_app. Qed.

(** Closing the hole that the minimum [y] of the right subtree leaves. *)
Definition close_hole (sp node y temp : Z) : M rbt unit :=
  (spl ← left sp; if bool_decide (y = spl) then set_left sp temp else set_right sp temp);;
  sp ← parent y;
  (if bool_decide (sp = node) then set_parent temp y
   else sp ← parent y; set_parent temp sp).

Lemma close_hole_run par0 h root ctxA c l x k ctx cm y ky mr :
  rep h (par_of par0 (ctxA ++ FR c l x k :: ctx)) (T cm E y ky mr) →
  rep_ctx s par0 h (ctxA ++ FR c l x k :: ctx) y root → sentinel_ok s h →
  NoDup (s :: y :: ptrs mr ++ cptrs ctxA ++ x :: ptrs l ++ cptrs ctx) →
  ∃ h2 parR, close_hole (par_of par0 (ctxA ++ FR c l x k :: ctx)) x y (ptr mr) (Rbt root h) =
      Some (tt, Rbt root h2) ∧
    rep h2 parR (plug ctxA mr) ∧
    rep_ctx s par0 h2 (FR c l x k :: ctx) (ptr (plug ctxA mr)) root ∧
    h2 !! y = h !! y ∧ sentinel_ok s h2 ∧
    (mr = E → ∃ ns, h2 !! s = Some ns ∧ n_parent ns = par_of par0 (ctxA ++ FR c l y ky :: ctx)) ∧
    same_off (s :: x :: ptrs mr ++ cptrs ctxA) h h2.
Proof.
  intros (Hy & _ & Hmr) Hc Hs Hd.
  set (C := ctxA ++ FR c l x k :: ctx) in *.
  assert (∃ f C', C = f :: C' ∧ (ctxA = [] ∧ fptr f = x ∨ ctxA ≠ [] ∧ fptr f ∈ cptrs ctxA) ∧
    par_of par0 (ctxA ++ (FR c l y ky :: ctx)) = (if bool_decide (fptr f = x) then y else fptr f))
    as (f & C' & HC & Hf & Hpar).
  { destruct ctxA as [|f ctxA]; unfold C; simpl.
    - eexists _, _. split; [done|]. simpl. split; [by left|]. by rb_true.
    - assert (fptr f ∈ cptrs (f :: ctxA)) by (destruct f; simpl; set_solver).
      eexists _, _. split; [done|]. split; [by right|]. rewrite bool_decide_false; [done|].
      intros Hfx. disj_split Hd. rewrite Hfx in *. ptr_solve. }
  assert (NoDup (s :: y :: ptrs mr ++ cptrs C)) as Hd1.
  { unfold C. rewrite cptrs_app. done. }
  assert (fptr f ∈ cptrs C) as HfC.
  { rewrite HC. destruct f; simpl; set_solver. }
  unfold close_hole. rewrite HC in *. cbn [par_of] in *.
  destruct (relink_hole_run par0 h root f C' y (ptr mr) Hc) as (h1 & R1 & Hc1 & Ho1).
  { disj_split Hd1. disj_goal. }
  rewrite (M_bind_Some _ _ _ _ _ R1).
  assert (∀ q, q ∈ s :: y :: ptrs mr → h1 !! q = h !! q) as Hk1.
  { intros q Hq. apply Ho1. intros ->%list_elem_of_singleton. clear -Hd1 HfC Hq.
    apply (NoDup_app (s :: y :: ptrs mr)) in Hd1 as (_ & Hdis & _). by apply (Hdis _ Hq). }
  destruct (set_temp_parent_run h1 root y mr (par_of par0 (ctxA ++ FR c l y ky :: ctx)))
    as (h2 & R2 & Hr2 & Ho2 & Hs2 & Hns).
  { eapply rep_ext; [|exact Hmr]. intros q Hq. apply Hk1. set_solver. }
  { disj_split Hd1. disj_goal. }
  { destruct Hs as (ns & Hns & Hc'). exists ns. by rewrite Hk1 by set_solver. }
  assert (ptr mr ∈ s :: ptrs mr) as Hpm by (destruct mr; simpl; set_solver).
  assert ((ptr mr ∉ cptrs (f :: C')) ∧ ptr mr ≠ y) as [HpC Hpy].
  { clear -Hd1 Hpm. disj_split Hd1. apply elem_of_cons in Hpm as [->|Hpm];
      (split; [intros ?; disj_absurd|]); [ptr_solve|].
    intros Heq. rewrite Heq in Hpm. disj_absurd. }
  assert (rep_ctx s par0 h2 (f :: C') (ptr mr) root) as Hc2.
  { eapply rep_ctx_same_off; [exact Ho2| |exact Hc1].
    by intros q Hq ->%list_elem_of_singleton. }
  assert (∃ parR, rep h2 parR (plug ctxA mr) ∧
    rep_ctx s par0 h2 (FR c l x k :: ctx) (ptr (plug ctxA mr)) root) as (parR & HrR & HcR).
  { rewrite <- HC in Hc2. destruct Hf as [[-> _]|[Hne Hin]]; [by eexists|]. exists x.
    apply (rep_ctx_app par0 h2 ctxA (FR c l x k :: ctx)). split; [|exact Hc2].
    rewrite bool_decide_false in Hpar.
    - fold C. rewrite HC. cbn [par_of]. by rewrite <- Hpar.
    - intros Hfx. rewrite Hfx in Hin. clear -Hd Hin. disj_split Hd. ptr_solve. }
  exists h2, parR. split_and!; [|done|done| |done|exact Hns|].
  - erewrite M_bind_Some by (eapply parent_run; rewrite Hk1 by set_solver; exact Hy).
    rb_simpl. rewrite Hpar in R2. case_bool_decide; [exact R2|].
    erewrite M_bind_Some by (eapply parent_run; rewrite Hk1 by set_solver; exact Hy). exact R2.
  - rewrite Ho2 by set_solver. apply Hk1. set_solver.
  - eapply same_off_weaken; [eapply same_off_trans; [exact Ho1|exact Ho2]|].
    intros q [Hq%list_elem_of_singleton|Hq%list_elem_of_singleton]%elem_of_app; subst q;
      [|clear -Hpm; set_solver]. clear -Hf. set_solver.
Qed.

Lemma copy_color_heap a b na nb root h :
  h !! a = Some na → h !! b = Some nb →
  gfs_rbt_copy_color a b (Rbt root h) = Some (tt, Rbt root
    (<[a := RbNode (n_key na) (n_left na) (n_right na) (n_parent na) (n_red nb)]> h)).
Proof.
  intros Ha Hb. unfold gfs_rbt_copy_color, nd.
  erewrite M_bind_Some; [by apply set_color_run|]. unfold getsM. simpl. by rewrite Hb.
Qed.

(** [y] takes the place of [x]. *)
Definition take_place (sentinel node subst : Z) : M rbt unit :=
  nl ← left node; set_left subst nl;;
  nr ← right node; set_right subst nr;;
  np ← parent node; set_parent subst np;;
  gfs_rbt_copy_color subst node;;
  root ← get_root;
  (if bool_decide (node = root) then set_root subst
   else
     np ← parent node;
     npl ← left np;
     if bool_decide (node = npl) then set_left np subst else set_right np subst);;
  sl ← left subst;
  whenM (bool_decide (sl ≠ sentinel)) (set_parent sl subst);;
  sr ← right subst;
  whenM (bool_decide (sr ≠ sentinel)) (set_parent sr subst).

Lemma take_place_run par0 h root parR c l x k r ctx y n :
  rep h x l → rep h parR r → h !! x = Some (RbNode k (ptr l) (ptr r) (par_of par0 ctx) c) →
  rep_ctx s par0 h ctx x root → h !! y = Some n →
  NoDup (s :: x :: y :: ptrs l ++ ptrs r ++ cptrs ctx) →
  ∃ h' root', take_place s x y (Rbt root h) = Some (tt, Rbt root' h') ∧
    rep h' (par_of par0 ctx) (T c l y (n_key n) r) ∧ rep_ctx s par0 h' ctx y root' ∧
    same_off (y :: ptrs l ++ ptrs r ++ cptrs ctx) h h'.
Proof.
  intros Hl Hr Hx Hc Hy Hd. disj_split Hd. assert (x ≠ y) by ptr_solve.
  unfold take_place. do 6 rb_op. rewrite !insert_insert_eq.
  set (h1 := <[y := RbNode (n_key n) (ptr l) (ptr r) (par_of par0 ctx) c]> h).
  erewrite M_bind_Some by (eapply copy_color_heap; rb_look).
  rb_simpl. rewrite !insert_insert_eq. fold h1.
  assert (same_off [y] h h1) as Ho1 by apply same_off_insert.
  destruct (relink_left_run s par0 h1 root ctx x y (RbNode k (ptr l) (ptr r) (par_of par0 ctx) c))
    as (h2 & root' & R2 & Hc2 & Ho2 & _);
    [eapply rep_ctx_same_off; [exact Ho1|ptr_solve|done]|rb_look|done|disj_goal|].
  rewrite R2.
  assert (h2 !! y = Some (RbNode (n_key n) (ptr l) (ptr r) (par_of par0 ctx) c)) as Hy2
    by (rewrite Ho2 by ptr_solve; apply lookup_insert_eq).
  rb_op. destruct (reparent_run s h2 root' l x y) as (h3 & R3 & Hl3 & Ho3);
    [|done|ptr_solve|].
  { eapply rep_same_off; [exact Ho2|ptr_solve|]. eapply rep_same_off; [exact Ho1|ptr_solve|done]. }
  rewrite (M_bind_Some _ _ _ _ _ R3).
  assert (h3 !! y = h2 !! y) as Hy3 by (apply Ho3; ptr_solve). rewrite Hy2 in Hy3. rb_op.
  destruct (reparent_run s h3 root' r parR y) as (h4 & R4 & Hr4 & Ho4); [|done|ptr_solve|].
  { eapply rep_same_off; [exact Ho3|ptr_solve|]. eapply rep_same_off; [exact Ho2|ptr_solve|].
    eapply rep_same_off; [exact Ho1|ptr_solve|done]. }
  exists h4, root'. split_and!; [exact R4|..].
  - simpl. split_and!; [rewrite Ho4 by ptr_solve; done| |done].
    eapply rep_same_off; [exact Ho4|ptr_solve|done].
  - eapply rep_ctx_same_off; [exact Ho4|ptr_solve|].
    eapply rep_ctx_same_off; [exact Ho3|ptr_solve|done].
  - eapply same_off_weaken; [eapply same_off_trans; [|exact Ho4]; eapply same_off_trans; [|exact Ho3];
      eapply same_off_trans; [exact Ho1|exact Ho2]|]. intros q Hq. mem_split; mem_goal.
Qed.

Lemma rb_delete_replace_eq fuel sentinel x y temp red sp st :
  y ≠ rb_root st → y ≠ x →
  gfs_rbt_is_red y st = Some (red, st) → parent y st = Some (sp, st) →
  rb_delete_rest fuel sentinel x y temp st =
    (close_hole sp x y temp;; take_place sentinel x y;; rb_clear x;;
     rb_finish fuel sentinel temp red) st.
Proof.
  intros Hroot Hyx Hred Hsp.
  unfold rb_delete_rest, close_hole, rb_delete_replace, take_place, get_root. M_unfold.
  rewrite bool_decide_false by done. rewrite Hred, Hsp. rewrite (bool_decide_false (y = x)) by done.
  destruct (left sp st) as [[spl st1]|]; [|done].
  destruct ((if bool_decide (y = spl) then set_left sp temp else set_right sp temp) st1)
    as [[[] st2]|]; [|done].
  destruct (parent y st2) as [[sp2 st3]|]; [|done]. destruct (bool_decide (sp2 = x)).
  - by destruct (set_parent temp y st3) as [[[] st4]|].
  - destruct (parent y st3) as [[sp3 st4]|]; [|done].
    by destruct (set_parent temp sp3 st4) as [[[] st5]|].
Qed.

(** The deleted node has two children; [y] is the minimum of the right one. *)
Lemma delete_two_run par0 h root ctx c l x k ctxA cm y ky mr m fuel :
  rep h (par_of par0 ctx) (T c l x k (plug ctxA (T cm E y ky mr))) →
  rep_ctx s par0 h ctx x root →
  distinct s ctx (T c l x k (plug ctxA (T cm E y ky mr))) → sentinel_ok s h →
  bal (plug ctx (T c l x k (plug ctxA (T cm E y ky mr)))) false m →
  (S (length (ctxA ++ FR c l y ky :: ctx)) < fuel)%nat →
  ∃ st' t', rb_delete_rest fuel s x y (ptr mr) (Rbt root h) = Some (tt, st') ∧
    is_rbtree s st' t' ∧ inorder t' = inorder (plug (ctxA ++ FR c l y ky :: ctx) mr) ∧
    same_off (s :: x :: y :: ptrs mr ++ cptrs ctxA ++ ptrs l ++ cptrs ctx) h (rb_heap st') ∧
    ∃ cx, rb_heap st' !! x = Some (cleared cx).
Proof.
  intros Hr Hc Hd Hs Hb Hf.
  assert (NoDup (s :: x :: y :: ptrs l ++ (ptrs mr ++ cptrs ctxA) ++ cptrs ctx)) as Hd0.
  { unfold distinct in Hd. cbn [ptrs] in Hd. revert Hd. rewrite (ptrs_plug ctxA). simpl. intros Hd.
    disj_split Hd. disj_goal. }
  replace (plug ctx (T c l x k (plug ctxA (T cm E y ky mr)))) with
    (plug (ctxA ++ FR c l x k :: ctx) (T cm E y ky mr)) in Hb by by rewrite plug_app.
  apply (bal_focus (ctxA ++ FR c l x k :: ctx) cm y ky mr) in Hb; [|eauto 10].
  destruct Hr as (Hx & Hl & HR).
  destruct (proj2 (rep_ctx_app par0 h ctxA (FR c l x k :: ctx) (T cm E y ky mr) root))
    as [Hy Hcy]; [done|].
  destruct (close_hole_run par0 h root ctxA c l x k ctx cm y ky mr Hy Hcy Hs)
    as (h2 & parR & R2 & HrR & (Hx2 & Hl2 & Hc2) & Hy2 & Hs2 & Hns & Ho2).
  { clear -Hd0. disj_split Hd0. disj_goal. }
  destruct Hy as (Hy & _ & _).
  destruct (take_place_run par0 h2 root parR c l x k (plug ctxA mr) ctx y
    (RbNode ky s (ptr mr) (par_of par0 (ctxA ++ FR c l x k :: ctx)) cm) Hl2 HrR Hx2 Hc2)
    as (h3 & root' & R3 & Hr3 & Hc3 & Ho3); [by rewrite Hy2| |].
  { rewrite ptrs_plug. done. }
  assert (same_off (y :: ptrs l ++ (ptrs mr ++ cptrs ctxA) ++ cptrs ctx) h2 h3) as Ho3'.
  { eapply same_off_weaken; [exact Ho3|]. intros q. by rewrite (ptrs_plug ctxA mr). }
  clear Ho3. cbn [n_key] in Hr3.
  destruct (rb_clear_run x (RbNode k (ptr l) (ptr (plug ctxA mr)) (par_of par0 ctx) c) root' h3)
    as (h4 & R4 & Ho4 & Hcl).
  { rewrite Ho3' by (clear -Hd0; disj_split Hd0; ptr_solve). exact Hx2. }
  destruct (proj2 (rep_ctx_app par0 h3 ctxA (FR c l y ky :: ctx) mr root')) as [Hmr3 Hcy3].
  { destruct Hr3 as (Hy3 & Hl3 & HR3). done. }
  assert (NoDup (s :: x :: ptrs mr ++ cptrs (ctxA ++ FR c l y ky :: ctx))) as Hd4.
  { rewrite cptrs_app. simpl. clear -Hd0. disj_split Hd0. disj_goal. }
  destruct (rb_finish_run par0 h4 root' (ctxA ++ FR c l y ky :: ctx) mr cm m fuel)
    as (st' & t' & R & Hrb & Hin & Ho).
  - eapply rep_same_off; [exact Ho4| |exact Hmr3]. clear -Hd4. disj_split Hd4. ptr_solve.
  - eapply rep_ctx_same_off; [exact Ho4| |exact Hcy3]. clear -Hd4. disj_split Hd4. ptr_solve.
  - unfold distinct. clear -Hd4. disj_split Hd4. disj_goal.
  - destruct Hs2 as (ns & Hns2 & Hc'). exists ns. split; [|done].
    rewrite Ho4, Ho3' by (clear -Hd0; disj_split Hd0; ptr_solve). done.
  - intros Hmr. split; [by destruct ctxA|]. destruct (Hns Hmr) as (ns & Hns2 & Hc').
    exists ns. split; [|done].
    rewrite Ho4, Ho3' by (clear -Hd0; disj_split Hd0; ptr_solve). done.
  - destruct cm; destruct Hb as [H1 H2]; split; try done; by eapply bal_ctx_rename.
  - done.
  - exists st', t'. split_and!; [|done|done| |].
    + assert (y ≠ x) by (clear -Hd0; disj_split Hd0; ptr_solve).
      erewrite rb_delete_replace_eq; [|  |done|by apply (is_red_run _ _ _ _ Hy)|by apply (parent_run _ _ _ _ Hy)].
      * rewrite (M_bind_Some _ _ _ _ _ R2), (M_bind_Some _ _ _ _ _ R3), (M_bind_Some _ _ _ _ _ R4).
        exact R.
      * cbn [rb_root]. apply rep_ctx_root in Hcy; [|by destruct ctxA]. intros ->.
        rewrite cptrs_app in Hcy. simpl in Hcy. clear -Hd0 Hcy. disj_split Hd0. ptr_solve.
    + eapply same_off_weaken; [eapply same_off_trans; [|exact Ho]; eapply same_off_trans; [|exact Ho4];
        eapply same_off_trans; [exact Ho2|exact Ho3']|].
      rewrite cptrs_app. simpl. intros q Hq. mem_split; mem_goal.
    + eexists. rewrite Ho; [exact Hcl|]. clear -Hd4. apply NoDup_cons in Hd4 as [_ Hd4].
      by apply NoDup_cons in Hd4 as [? _].
Qed.
End unlink.

(** ** The whole deletion *)

Lemma length_ctx ctx : (length ctx ≤ length (cptrs ctx))%nat.
Proof.
  induction ctx as [|[c p k r|c l p k] ctx IH]; simpl; [done|..]; rewrite length_app; simpl; lia.
Qed.

Lemma plug_shape ctx c l x k r :
  ∃ c' l' x' k' r', plug ctx (T c l x k r) = T c' l' x' k' r'.
Proof.
  revert c l x k r. induction ctx as [|[] ctx IH]; intros; simpl; [eauto 6|..]; apply IH.
Qed.

Lemma ptr_ne_sentinel s t : s ∉ ptrs t → t ≠ E → ptr s t ≠ s.
Proof. destruct t; [done|]. simpl. set_solver. Qed.

(** The choice at a node with two children is the minimum on the right. *)
Lemma choose_two_run s par h root fuel c l x k ctxA cm y ky mr :
  rep s h par (T c l x k (plug ctxA (T cm E y ky mr))) → before ctxA = [] → l ≠ E →
  NoDup (s :: ptrs (T c l x k (plug ctxA (T cm E y ky mr)))) →
  (length (ptrs (plug ctxA (T cm E y ky mr))) ≤ fuel)%nat →
  rb_delete_choose fuel s x (Rbt root h) = Some ((y, ptr s mr), Rbt root h).
Proof.
  intros (Hx & Hl & Hr) Hb Hlne Hd Hf.
  destruct (proj2 (rep_ctx_app s x h ctxA [] (T cm E y ky mr) _) (conj Hr eq_refl)) as [(Hy & _ & _) _].
  destruct (plug_shape ctxA cm E y ky mr) as (rc & rl & rx & rk & rr & Heq).
  pose proof (inorder_split ctxA (T cm E y ky mr)) as Hin. rewrite Hb in Hin. simpl in Hin.
  rewrite Heq in *. simpl in Hd. disj_split Hd.
  assert (ptr s l ≠ s) by (apply ptr_ne_sentinel; [ptr_solve|done]).
  destruct (rb_min_run s x h root fuel rc rl rx rk rr Hr) as (q & kq & rest & R & Hq);
    [ptr_solve|done|]. rewrite Hin in Hq. injection Hq as <- <- _.
  unfold rb_delete_choose. rb_op. rb_false. rb_op. rewrite bool_decide_false by (simpl; ptr_solve).
  cbn [RbtreeRep.ptr]. rewrite (M_bind_Some _ _ _ _ _ R). rb_op. cbn [RbtreeRep.ptr].
  rewrite bool_decide_false by naive_solver. by rb_op.
Qed.

(** Deleting a node from a red-black tree with [gfs_rbtree_delete] ends and
    gives a red-black tree whose in-order sequence is the old one without the
    node; only nodes of the tree and the sentinel are written, and the node
    itself is left with null links and key 0. *)
Lemma delete_run s x k st t la lb fuel :
  is_rbtree s st t → inorder t = la ++ (x, k) :: lb → (S (S (length (ptrs t))) < fuel)%nat →
  ∃ st' t', gfs_rbtree_delete fuel s x st = Some (tt, st') ∧ is_rbtree s st' t' ∧
    inorder t' = la ++ lb ∧ same_off (s :: ptrs t) (rb_heap st) (rb_heap st') ∧
    ∃ cx, rb_heap st' !! x = Some (cleared cx).
Proof.
  intros Hrb Hin Hf. destruct (focus_at t [] la lb x k Hin) as (ctx & c & l & r & Ht & Hla & Hlb).
  simpl in Ht, Hla, Hlb. rewrite app_nil_r in Hlb. subst t la lb.
  destruct (is_rbtree_zst s st _ (ptrs (plug ctx (T c l x k r))) Hrb) as (par0 & Z); [done|].
  rewrite <- zst_plug in Z. destruct Z as [Hr Hc Hd Hs _ _]. destruct st as [root h].
  cbn [rb_heap rb_root RbtreeRep.ptr] in *.
  pose proof (rbt_redblack _ _ _ Hrb) as [m Hb].
  assert (NoDup (s :: ptrs (T c l x k r))) as HdT.
  { unfold distinct in Hd. disj_split Hd. disj_goal. }
  assert (S (S (length (ptrs (T c l x k r)) + length (cptrs ctx))) < fuel)%nat as Hf'.
  { by rewrite ptrs_plug, length_app in Hf. }
  pose proof (length_ctx ctx) as Hlc.
  destruct (decide (l = E ∨ r = E)) as [Hone|Htwo].
  - assert (∃ ch, (l = E ∧ r = ch ∨ l = ch ∧ r = E) ∧
      rb_delete_choose fuel s x (Rbt root h) = Some ((x, ptr s ch), Rbt root h)) as (ch & Hlr & Hch).
    { destruct Hr as (Hx & _ & _). unfold rb_delete_choose. rb_op.
      simpl in HdT. disj_split HdT. destruct (decide (l = E)) as [->|Hl].
      - exists r. split; [by left|]. rb_true. by rb_op.
      - rewrite bool_decide_false by (apply ptr_ne_sentinel; [ptr_solve|done]). rb_op.
        destruct Hone as [|Hre]; [done|]. exists l. split; [by right|]. rewrite Hre. rb_true. by rb_op. }
    rewrite (gfs_rbtree_delete_eq s _ _ _ _ _ _ Hch).
    destruct ctx as [|f ctx].
    + simpl in Hrb, Hr. destruct (delete_root_run s h root par0 c l x k r ch fuel Hlr Hrb Hr)
        as (st' & R & Hrb' & Ho & Hcl). eexists st', _. split_and!; [exact R|exact Hrb'| | |exact Hcl].
      * rewrite inorder_blacken. destruct Hlr as [[-> ->]|[-> ->]]; simpl; by rewrite ?app_nil_r.
      * eapply same_off_weaken; [exact Ho|]. done.
    + destruct (delete_one_run s par0 h root f ctx c l x k r ch m fuel Hlr Hr Hc Hd Hs Hb)
        as (st' & t' & R & Hrb' & Hi & Ho & Hcl); [simpl in *; lia|].
      exists st', t'. split_and!; [exact R|exact Hrb'| | |exact Hcl].
      * rewrite Hi, inorder_split. destruct Hlr as [[-> ->]|[-> ->]]; simpl; app_norm.
      * eapply same_off_weaken; [exact Ho|]. intros q Hq. rewrite ptrs_plug.
        destruct Hlr as [[-> ->]|[-> ->]]; cbn [ptrs]; clear -Hq; set_solver.
  - destruct r as [|rc rl rx rk rr]; [naive_solver|].
    destruct (focus_min rc rl rx rk rr) as (ctxA & cm & y & ky & mr & Heq & HbA & HBA).
    rewrite Heq in *.
    assert (ptrs (plug ctxA (T cm E y ky mr)) ≡ₚ y :: ptrs mr ++ cptrs ctxA) as Hpr
      by (by rewrite ptrs_plug).
    assert (length (ptrs (T c l x k (plug ctxA (T cm E y ky mr)))) =
      S (S (length (ptrs l) + length (ptrs mr) + length (cptrs ctxA)))) as Hlen.
    { cbn [ptrs]. rewrite length_app. simpl. rewrite Hpr. simpl. rewrite length_app. lia. }
    pose proof (length_ctx ctxA) as HlA.
    rewrite (gfs_rbtree_delete_eq s _ _ _ _ _ _
      (choose_two_run s (par_of par0 ctx) h root fuel c l x k ctxA cm y ky mr Hr HbA
         ltac:(naive_solver) HdT ltac:(rewrite Hpr; simpl; rewrite length_app; lia))).
    destruct (delete_two_run s par0 h root ctx c l x k ctxA cm y ky mr m fuel Hr Hc Hd Hs Hb)
      as (st' & t' & R & Hrb' & Hi & Ho & Hcl); [rewrite length_app; simpl; lia|].
    exists st', t'. split_and!; [exact R|exact Hrb'| | |exact Hcl].
    + rewrite Hi, plug_app, inorder_split. simpl. rewrite !inorder_split, HbA. simpl. app_norm.
    + eapply same_off_weaken; [exact Ho|]. intros q Hq. rewrite ptrs_plug.
      cbn [ptrs]. rewrite Hpr.
      clear -Hq. mem_split; mem_goal.
Qed.

(** C21: deleting a node from a red-black tree with [gfs_rbtree_delete] ends and
    gives a red-black tree whose in-order sequence is the old one without the
    node; only nodes of the tree and the sentinel are written, and the node
    itself is left with null links and key 0. *)
Theorem gfs_rbtree_delete_correct s x k st t la lb fuel :
  is_rbtree s st t → inorder t = la ++ (x, k) :: lb → (S (S (length (ptrs t))) < fuel)%nat →
  ∃ st' t', gfs_rbtree_delete fuel s x st = Some (tt, st') ∧ is_rbtree s st' t' ∧
    inorder t' = la ++ lb ∧ same_off (s :: ptrs t) (rb_heap st) (rb_heap st') ∧
    ∃ cx, rb_heap st' !! x = Some (cleared cx).
Proof. apply delete_run. Qed.
