(* ===== verification/Timer.v ===== *)
(** The timers of event/gfs_timer.h and event/gfs_timer.c.

    A [gfs_timer_t] begins with its tree node, so a timer and its node have
    the same address.  The node lives in the store of Rbtree.v and the other
    fields in [tl_timers]; [tl_world] is whatever the timer callbacks work on
    and [run] calls the callback stored in a timer. *)
From S2P Require Import Prelude Rbtree.

Record timer := Timer {
  tm_secs : Z; tm_times : Z; tm_now : Z; tm_handle : Z; tm_param : Z }.

Record tloop (W : Type) := TLoop {
  tl_tree : rbt; tl_timers : gmap Z timer; tl_world : W }.
Arguments TLoop {W}. Arguments tl_tree {W}. Arguments tl_timers {W}. Arguments tl_world {W}.

(** [gfs_rbtree_insert_timer_value]: the key decides, then the address. *)
Definition side_timer (node temp : Z) : M rbt (option bool) :=
  nk ← key node; tk ← key temp;
  if nk <? tk then mret (Some true)
  else if tk <? nk then mret (Some false)
  else if node <? temp then mret (Some true)
  else if temp <? node then mret (Some false)
  else mret None.

Definition gfs_rbtree_insert_timer_value (fuel : nat) (temp node sen : Z) : M rbt unit :=
  rb_descend fuel side_timer temp node sen.

(** [gfs_rbtree_lookup_timer_value] *)
Fixpoint lookup_timer_loop (fuel : nat) (sen timer tmpnode : Z) : M rbt Z :=
  match fuel with
  | O => ub
  | S fuel =>
      if bool_decide (tmpnode = sen) then mret GFS_EVENT_NOTIMER_ERR else
      nk ← key timer; tk ← key tmpnode;
      if nk <? tk then l ← left tmpnode; lookup_timer_loop fuel sen timer l
      else if tk <? nk then r ← right tmpnode; lookup_timer_loop fuel sen timer r
      else if timer <? tmpnode then l ← left tmpnode; lookup_timer_loop fuel sen timer l
      else if tmpnode <? timer then r ← right tmpnode; lookup_timer_loop fuel sen timer r
      else mret GFS_OK
  end.
Definition gfs_rbtree_lookup_timer_value (fuel : nat) (sen timer : Z) : M rbt Z :=
  root ← get_root; lookup_timer_loop fuel sen timer root.

Section timers.
Context {W : Type}.
Local Abbreviation TM := (M (tloop W)).

Definition on_tree {A} (m : M rbt A) : TM A := λ st,
  match m (tl_tree st) with
  | Some (x, tr) => Some (x, TLoop tr (tl_timers st) (tl_world st))
  | None => None
  end.
Definition get_timer (t : Z) : TM timer := getsM (λ st, tl_timers st !! t).
Definition set_timer (t : Z) (v : timer) : TM unit :=
  modify (λ st, TLoop (tl_tree st) (<[t := v]> (tl_timers st)) (tl_world st)).

(** [gfs_timer_loop_create]: [have_global] is [gfs_global != NULL] and
    [loop] the address [gfs_mem_malloc] returned, if any; the result pairs the
    loop with [gfs_errno].  The two error branches only record the error: the
    code goes on and dereferences the null pointer. *)
Definition gfs_timer_loop_create (have_global : bool) (loop : option Z) (sentinel : Z) :
    TM (Z * Z) :=
  if negb have_global then ub
  else match loop with
       | None => ub
       | Some l => on_tree (gfs_rbtree_init sentinel);; mret (l, 0)
       end.

(** [gfs_timer_loop_destory] frees [loop] when the pointer is null; the result
    is the pointer passed to [gfs_mem_free]. *)
Definition gfs_timer_loop_destory (loop : Z) : option Z :=
  if bool_decide (loop = NULL) then Some loop else None.

(** [gfs_timer_set]; [now] is [gfs_mstime()] truncated to 32 bits. *)
Definition gfs_timer_set (timer msecs times handle param now : Z) : TM unit :=
  if bool_decide (timer = NULL) || (times =? 0) || (msecs <? 10) then mret tt
  else
    let secs := Z.quot msecs 10 in
    set_timer timer (Timer secs times (u32 now) handle param);;
    on_tree (set_nd timer (RbNode (u32 (u32 now + secs)) 0 0 0 false)).

(** [gfs_timer_add] *)
Definition gfs_timer_add (fuel : nat) (sentinel loop timer : Z) : TM Z :=
  if bool_decide (loop = NULL) || bool_decide (timer = NULL) then mret GFS_PARAM_FUN_ERR else
  t ← get_timer timer;
  if tm_times t =? 0 then mret GFS_PARAM_FUN_ERR else
  r ← on_tree (gfs_rbtree_lookup_timer_value fuel sentinel timer);
  whenM (r =? GFS_EVENT_NOTIMER_ERR)
    (on_tree (gfs_rbtree_insert fuel (gfs_rbtree_insert_timer_value fuel) sentinel timer));;
  mret GFS_OK.

(** [gfs_timer_del] *)
Definition gfs_timer_del (fuel : nat) (sentinel loop timer : Z) : TM unit :=
  if bool_decide (loop = NULL) || bool_decide (timer = NULL) then mret tt else
  r ← on_tree (gfs_rbtree_lookup_timer_value fuel sentinel timer);
  whenM (r =? GFS_OK) (on_tree (gfs_rbtree_delete fuel sentinel timer));;
  t ← get_timer timer;
  set_timer timer (Timer (tm_secs t) 0 (tm_now t) (tm_handle t) (tm_param t)).

(** The loop of [gfs_timer_loop_run]; [n] bounds its turns, [fuel] the walks in
    the tree, and [run h p] is the call [timer->handle(timer->param)]. *)
Fixpoint gfs_timer_loop_run (n fuel : nat) (run : Z → Z → TM unit) (sentinel now : Z) : TM unit :=
  match n with
  | O => ub
  | S n =>
      root ← on_tree get_root;
      if bool_decide (root = sentinel) then mret tt else
      timer ← on_tree (gfs_rbtree_min fuel sentinel root);
      k ← on_tree (key timer);
      if k <=? now then
        t ← get_timer timer;
        if tm_times t =? 0 then gfs_timer_loop_run n fuel run sentinel now else
        run (tm_handle t) (tm_param t);;
        on_tree (gfs_rbtree_delete fuel sentinel timer);;
        t ← get_timer timer;
        if tm_times t =? 1 then gfs_timer_loop_run n fuel run sentinel now else
        let times := if 0 <? tm_times t then tm_times t - 1 else tm_times t in
        set_timer timer (Timer (tm_secs t) times now (tm_handle t) (tm_param t));;
        on_tree (set_key timer (u32 (now + tm_secs t)));;
        on_tree (gfs_rbtree_insert fuel (gfs_rbtree_insert_timer_value fuel) sentinel timer);;
        gfs_timer_loop_run n fuel run sentinel now
      else mret tt
  end.
End timers.
