(* ===== verification/TimerSpec.v ===== *)
(** The timers as an ordered queue: addition, removal and the expiry loop of
    Timer.v, on top of the red-black tree theorems. *)
From stdpp Require Import sorting list.
From S2P Require Import Prelude Rbtree RbtreeRep RbtreeInsert RbtreeMap RbtreeDelete RbtreeUnlink Timer.

(** ** The order of the queue: the key, then the address *)

Definition lex_lt (e e' : Z * Z) : Prop := e.2 < e'.2 ∨ e.2 = e'.2 ∧ e.1 < e'.1.
Definition lex_ltb (e e' : Z * Z) : bool :=
  (e.2 <? e'.2) || ((e.2 =? e'.2) && (e.1 <? e'.1)).

Lemma lex_ltb_spec e e' : lex_ltb e e' = true ↔ lex_lt e e'.
Proof.
  unfold lex_ltb, lex_lt.
  destruct (Z.ltb_spec e.2 e'.2), (Z.eqb_spec e.2 e'.2), (Z.ltb_spec e.1 e'.1); simpl; lia.
Qed.
Lemma lex_lt_trans e1 e2 e3 : lex_lt e1 e2 → lex_lt e2 e3 → lex_lt e1 e3.
Proof. unfold lex_lt. lia. Qed.
Lemma lex_lt_total e e' : e.1 ≠ e'.1 → ¬ lex_lt e e' → lex_lt e' e.
Proof. unfold lex_lt. lia. Qed.

(** Insertion in order. *)
Fixpoint lex_ins (e : Z * Z) (l : list (Z * Z)) : list (Z * Z) :=
  match l with
  | [] => [e]
  | e' :: l' => if lex_ltb e' e then e' :: lex_ins e l' else e :: l
  end.

Definition lex_sorted (l : list (Z * Z)) : Prop := StronglySorted lex_lt l.

Lemma lex_ins_split e l :
  lex_sorted l → e.1 ∉ l.*1 →
  ∃ la lb, l = la ++ lb ∧ lex_ins e l = la ++ e :: lb ∧
    Forall (λ e', lex_lt e' e) la ∧ Forall (λ e', lex_lt e e') lb.
Proof.
  induction 1 as [|e' l Hs IH He']; intros Hne; [by exists [], []|]. simpl.
  rewrite fmap_cons, not_elem_of_cons in Hne. destruct Hne as [Hne Hnl].
  destruct (lex_ltb e' e) eqn:Hlt.
  - destruct (IH Hnl) as (la & lb & -> & -> & Ha & Hb). exists (e' :: la), lb.
    split_and!; [done|done| |done]. constructor; [by apply lex_ltb_spec|done].
  - exists [], (e' :: l). split_and!; [done|done|done|].
    assert (lex_lt e e') as Hee.
    { apply lex_lt_total; [done|]. rewrite <- lex_ltb_spec. by rewrite Hlt. }
    constructor; [done|]. eapply Forall_impl; [exact He'|]. intros x. by apply lex_lt_trans.
Qed.

Lemma lex_sorted_insert e la lb :
  lex_sorted (la ++ lb) → Forall (λ e', lex_lt e' e) la → Forall (λ e', lex_lt e e') lb →
  lex_sorted (la ++ e :: lb).
Proof.
  unfold lex_sorted. rewrite !StronglySorted_app. intros (Hab & Ha & Hb) Hla Hlb.
  rewrite Forall_forall in Hla. split_and!; [|done|by constructor].
  intros x y Hx [->|Hy]%elem_of_cons; [by apply Hla|eauto].
Qed.
Lemma lex_sorted_delete la e lb : lex_sorted (la ++ e :: lb) → lex_sorted (la ++ lb).
Proof.
  unfold lex_sorted. rewrite !StronglySorted_app. intros (Hab & Ha & Hb).
  apply StronglySorted_inv in Hb as [Hb _]. split_and!; [|done|done]. set_solver.
Qed.

Lemma lex_ins_app e la lb :
  Forall (λ e', lex_lt e' e) la → lex_ins e (la ++ lb) = la ++ lex_ins e lb.
Proof.
  induction 1 as [|e' la He' Ha IH]; [done|]. simpl.
  apply lex_ltb_spec in He'. by rewrite He', IH.
Qed.

(** ** The tree programs *)

Definition sd_timer (x kx : Z) (p k : Z) : option bool :=
  if kx <? k then Some true else if k <? kx then Some false
  else if x <? p then Some true else if p <? x then Some false else None.

Lemma side_timer_spec x kx : side_spec side_timer (sd_timer x kx) x kx.
Proof.
  intros [root h] nx p n Hx <- Hp. unfold side_timer, sd_timer. simpl in *.
  rewrite (M_bind_Some _ _ _ _ _ (key_run _ _ _ _ Hx)).
  rewrite (M_bind_Some _ _ _ _ _ (key_run _ _ _ _ Hp)).
  by repeat case_match.
Qed.

Lemma sd_timer_lt x kx p k : lex_lt (p, k) (x, kx) → sd_timer x kx p k = Some false.
Proof. unfold lex_lt, sd_timer. simpl. repeat case_match; try done; lia. Qed.
Lemma sd_timer_gt x kx p k : lex_lt (x, kx) (p, k) → sd_timer x kx p k = Some true.
Proof. unfold lex_lt, sd_timer. simpl. repeat case_match; try done; lia. Qed.
Lemma sd_timer_None x kx p k : sd_timer x kx p k = None ↔ (p, k) = (x, kx).
Proof.
  unfold sd_timer. split.
  - repeat case_match; try done. intros _. f_equal; lia.
  - intros [= -> ->]. by rewrite !Z.ltb_irrefl.
Qed.

(** [st] holds the queue [q] of pairs of an address and a key. *)
Definition tree_queue (s : Z) (st : rbt) (q : list (Z * Z)) : Prop :=
  ∃ t, is_rbtree s st t ∧ inorder t = q ∧ lex_sorted q.

Lemma inorder_key s h par t x k :
  rep s h par t → (x, k) ∈ inorder t → ∃ n, h !! x = Some n ∧ n_key n = k.
Proof.
  revert par. induction t as [|c l IHl p pk r IHr]; intros par; simpl; [by intros _ ?%elem_of_nil|].
  intros (Hp & Hl & Hr) [H|[[= -> ->]|H]%elem_of_cons]%elem_of_app; eauto.
Qed.
Lemma tree_queue_key s st q x k :
  tree_queue s st q → (x, k) ∈ q → ∃ n, rb_heap st !! x = Some n ∧ n_key n = k.
Proof. intros (t & [(par & Hr) _ _ _ _] & <- & _). by eapply inorder_key. Qed.

Lemma tree_queue_length q t : inorder t = q → length (ptrs t) = length q.
Proof. intros <-. by rewrite ptrs_inorder, length_fmap. Qed.

Lemma tree_queue_nodup s st q : tree_queue s st q → NoDup q.*1 ∧ s ∉ q.*1.
Proof.
  intros (t & [_ _ Hd _ _] & <- & _). rewrite ptrs_inorder in Hd.
  apply NoDup_cons in Hd. tauto.
Qed.

Lemma timer_insert_run s st q x nx fuel :
  tree_queue s st q → rb_heap st !! x = Some nx → x ≠ s → x ∉ q.*1 → (length q < fuel)%nat →
  ∃ st', gfs_rbtree_insert fuel (gfs_rbtree_insert_timer_value fuel) s x st = Some (tt, st') ∧
    tree_queue s st' (lex_ins (x, n_key nx) q) ∧
    same_off (x :: q.*1) (rb_heap st) (rb_heap st').
Proof.
  intros (t & Hrb & Hin & Hs) Hx Hxs Hxq Hf.
  pose proof (tree_queue_length q t Hin) as Hlen.
  destruct (lex_ins_split (x, n_key nx) q Hs Hxq) as (la & lb & Hq & Hins & Ha & Hb).
  destruct (gfs_rbtree_insert_run s side_timer (sd_timer x (n_key nx)) x nx la lb st t fuel fuel)
    as (st' & t' & R & Hrb' & Hin' & Hoff).
  - done.
  - done.
  - rewrite ptrs_inorder, Hin. set_solver.
  - apply side_timer_spec.
  - congruence.
  - eapply Forall_impl; [done|]. intros [p k]. apply sd_timer_lt.
  - eapply Forall_impl; [done|]. intros [p k]. apply sd_timer_gt.
  - lia.
  - lia.
  - exists st'. split_and!; [exact R| |].
    + exists t'. split_and!; [done|by rewrite Hin', Hins|]. rewrite Hins.
      apply lex_sorted_insert; [by rewrite <- Hq|done|done].
    + by rewrite ptrs_inorder, Hin in Hoff.
Qed.

Lemma timer_delete_run s st la x k lb fuel :
  tree_queue s st (la ++ (x, k) :: lb) → (S (S (length (la ++ (x, k) :: lb))) < fuel)%nat →
  ∃ st', gfs_rbtree_delete fuel s x st = Some (tt, st') ∧ tree_queue s st' (la ++ lb) ∧
    same_off (s :: (la ++ (x, k) :: lb).*1) (rb_heap st) (rb_heap st') ∧
    ∃ cx, rb_heap st' !! x = Some (cleared cx).
Proof.
  intros (t & Hrb & Hin & Hs) Hf.
  destruct (delete_run s x k st t la lb fuel Hrb Hin) as (st' & t' & R & Hrb' & Hin' & Ho & Hc).
  - by rewrite (tree_queue_length _ t Hin).
  - exists st'. split_and!; [done| | |done].
    + exists t'. split_and!; [done|done|]. by eapply lex_sorted_delete.
    + by rewrite ptrs_inorder, Hin in Ho.
Qed.

Lemma lex_sorted_mono x kx q : lex_sorted q → StronglySorted (sd_mono (sd_timer x kx)) q.
Proof.
  apply StronglySorted_mono. intros [p1 k1] [p2 k2]. unfold sd_mono, on_side, lex_lt, sd_timer. simpl.
  intros Hlt. split; repeat case_match; try done; lia.
Qed.

Lemma lookup_timer_run s par h root fuel x n t :
  rep s h par t → NoDup (s :: ptrs t) → h !! x = Some n → (length (ptrs t) < fuel)%nat →
  lookup_timer_loop fuel s x (ptr s t) (Rbt root h) =
    Some (match search (sd_timer x (n_key n)) t with
          | Some _ => GFS_OK | None => GFS_EVENT_NOTIMER_ERR end, Rbt root h).
Proof.
  intros Hr Hd Hx. revert par t Hr Hd.
  induction fuel as [|fuel IH]; intros par t Hr Hd Hf; [lia|]. simpl.
  destruct t as [|c l p tk r]; simpl; [by rb_true|].
  destruct Hr as (Hp & Hl & Hr). simpl in Hf. rewrite length_app in Hf. simpl in Hf, Hd.
  assert (p ≠ s ∧ NoDup (s :: ptrs l) ∧ NoDup (s :: ptrs r)) as (Hps & Hdl & Hdr).
  { disj_split Hd. split_and!; ptr_solve. }
  assert (lookup_timer_loop fuel s x (ptr s l) (Rbt root h) =
    Some (match search (sd_timer x (n_key n)) l with
          | Some _ => GFS_OK | None => GFS_EVENT_NOTIMER_ERR end, Rbt root h)) as IHl
    by (eapply IH; [exact Hl|done|lia]).
  assert (lookup_timer_loop fuel s x (ptr s r) (Rbt root h) =
    Some (match search (sd_timer x (n_key n)) r with
          | Some _ => GFS_OK | None => GFS_EVENT_NOTIMER_ERR end, Rbt root h)) as IHr
    by (eapply IH; [exact Hr|done|lia]).
  rb_false. rb_op. rb_op. unfold sd_timer at 1.
  repeat case_match; try rb_op; done.
Qed.

(** Looking a timer up finds it exactly when it is queued. *)
Lemma gfs_rbtree_lookup_timer_value_run s st q x n fuel :
  tree_queue s st q → rb_heap st !! x = Some n → (length q < fuel)%nat →
  gfs_rbtree_lookup_timer_value fuel s x st =
    Some (if bool_decide (x ∈ q.*1) then GFS_OK else GFS_EVENT_NOTIMER_ERR, st).
Proof.
  intros Hq Hx Hf. pose proof Hq as (t & [(par & Hr) Hroot Hd _ _] & Hin & Hs).
  destruct st as [root h]. simpl in *. subst root. unfold gfs_rbtree_lookup_timer_value. rb_op.
  rewrite (lookup_timer_run s par h _ fuel x n t Hr Hd Hx)
    by (by rewrite (tree_queue_length q t Hin)).
  destruct (search (sd_timer x (n_key n)) t) as [p|] eqn:Hsr.
  - apply search_found in Hsr as (k & Hk & Hn). apply sd_timer_None in Hn as [= -> ->].
    rewrite bool_decide_true; [done|]. rewrite <- Hin.
    by apply (list_elem_of_fmap_2 fst) in Hk.
  - rewrite bool_decide_false; [done|]. intros ((x' & k) & -> & Hk)%list_elem_of_fmap. simpl in *.
    destruct (tree_queue_key _ _ _ _ _ Hq Hk) as (n' & Hx' & Hkk). simpl in Hx'.
    assert (n' = n) as -> by congruence. rewrite <- Hin in Hk.
    eapply search_missing; [rewrite Hin; by apply (lex_sorted_mono x' (n_key n))|exact Hsr|exact Hk|].
    apply sd_timer_None. by rewrite Hkk.
Qed.

(** ** The operations *)

Section timer_ops.
Context {W : Type}.
Local Abbreviation TM := (M (tloop W)).

(** [timer_queue s st q]: the loop holds the timers of [q], in order, each with
    its fields. *)
Definition timer_queue (s : Z) (st : tloop W) (q : list (Z * Z)) : Prop :=
  tree_queue s (tl_tree st) q.

Lemma on_tree_run {A} (m : M rbt A) (st : tloop W) x tr :
  m (tl_tree st) = Some (x, tr) →
  on_tree m st = Some (x, TLoop tr (tl_timers st) (tl_world st)).
Proof. intros H. unfold on_tree. by rewrite H. Qed.

Lemma get_timer_run (st : tloop W) t v :
  tl_timers st !! t = Some v → get_timer t st = Some (v, st).
Proof. intros H. unfold get_timer, getsM. M_unfold. by rewrite H. Qed.

(** [gfs_timer_add] on a set timer returns [GFS_OK], and the timer is then
    in the queue exactly once: where it was if it was queued already, else in
    the order of key and address.  The other fields are unchanged. *)
Theorem gfs_timer_add_correct s loop x n t (st : tloop W) q fuel :
  loop ≠ NULL → x ≠ NULL → x ≠ s → timer_queue s st q →
  tl_timers st !! x = Some t → tm_times t ≠ 0 → rb_heap (tl_tree st) !! x = Some n →
  (length q < fuel)%nat →
  ∃ st', gfs_timer_add fuel s loop x st = Some (GFS_OK, st') ∧
    timer_queue s st' (if bool_decide (x ∈ q.*1) then q else lex_ins (x, n_key n) q) ∧
    tl_timers st' = tl_timers st ∧ tl_world st' = tl_world st.
Proof.
  intros Hl Hxn Hxs Hq Ht Htm Hx Hf. unfold gfs_timer_add.
  rewrite !bool_decide_false by done. simpl.
  rewrite (M_bind_Some _ _ _ _ _ (get_timer_run _ _ _ Ht)).
  destruct (Z.eqb_spec (tm_times t) 0) as [|_]; [done|].
  rewrite (M_bind_Some _ _ _ _ _ (on_tree_run _ _ _ _
    (gfs_rbtree_lookup_timer_value_run s _ q x n fuel Hq Hx Hf))).
  destruct st as [tr tms w]. case_bool_decide as Hin; simpl.
  - by eexists.
  - destruct (timer_insert_run s tr q x n fuel Hq Hx Hxs Hin Hf) as (tr' & R & Hq' & _).
    rewrite (M_bind_Some _ _ _ _ _ (on_tree_run _ (TLoop tr tms w) _ _ R)). by eexists.
Qed.

(** [gfs_timer_del] takes the timer out of the queue, if it is there, and
    sets its [times] to 0; the order of the others is kept. *)
Theorem gfs_timer_del_correct s loop x n t (st : tloop W) q fuel :
  loop ≠ NULL → x ≠ NULL → timer_queue s st q →
  tl_timers st !! x = Some t → rb_heap (tl_tree st) !! x = Some n →
  (S (S (length q)) < fuel)%nat →
  ∃ st', gfs_timer_del fuel s loop x st = Some (tt, st') ∧
    timer_queue s st' (filter (λ e, e.1 ≠ x) q) ∧
    tl_timers st' = <[x := Timer (tm_secs t) 0 (tm_now t) (tm_handle t) (tm_param t)]> (tl_timers st) ∧
    tl_world st' = tl_world st.
Proof.
  intros Hl Hxn Hq Ht Hx Hf. unfold gfs_timer_del. rewrite !bool_decide_false by done. simpl.
  rewrite (M_bind_Some _ _ _ _ _ (on_tree_run _ _ _ _
    (gfs_rbtree_lookup_timer_value_run s _ q x n fuel Hq Hx ltac:(lia)))).
  destruct st as [tr tms w]. case_bool_decide as Hin; simpl.
  - apply list_elem_of_fmap in Hin as ((x' & k) & -> & Hin). simpl in *.
    apply list_elem_of_split in Hin as (la & lb & ->).
    destruct (timer_delete_run s tr la x' k lb fuel Hq Hf) as (tr' & R & Hq' & _).
    rewrite (M_bind_Some _ _ _ _ _ (on_tree_run _ (TLoop tr tms w) _ _ R)). simpl.
    rewrite (M_bind_Some _ _ _ _ _ (get_timer_run (TLoop tr' tms w) _ _ Ht)).
    eexists. split_and!; [done| |done|done]. simpl.
    destruct (tree_queue_nodup _ _ _ Hq) as [Hnd _].
    assert (∀ l : list (Z * Z), x' ∉ l.*1 → filter (λ e, e.1 ≠ x') l = l) as Hfil.
    { induction l as [|e l IH]; [done|]. rewrite fmap_cons, not_elem_of_cons. intros [? ?].
      rewrite filter_cons_True by done. by rewrite IH. }
    rewrite fmap_app, fmap_cons in Hnd. apply NoDup_app in Hnd as (_ & Hd1 & Hd2).
    apply NoDup_cons in Hd2 as [Hd2 _]. rewrite filter_app, filter_cons_False by naive_solver.
    rewrite !Hfil by set_solver. exact Hq'.
  - erewrite M_bind_Some by reflexivity.
    rewrite (M_bind_Some _ _ _ _ _ (get_timer_run (TLoop tr tms w) _ _ Ht)).
    eexists. split_and!; [done| |done|done]. simpl.
    replace (filter (λ e, e.1 ≠ x) q) with q; [done|].
    symmetry. clear -Hin. induction q as [|e l IH]; [done|]. rewrite fmap_cons, not_elem_of_cons in Hin.
    rewrite filter_cons_True by naive_solver. by rewrite IH by tauto.
Qed.

(** ** The expiry loop *)

(** What one run does to a due timer, to the queue and to the world of the
    callbacks. *)
Definition fire (now : Z) (t : timer) : timer :=
  if tm_times t =? 1 then t
  else Timer (tm_secs t) (if 0 <? tm_times t then tm_times t - 1 else tm_times t)
         now (tm_handle t) (tm_param t).

Definition requeue (now : Z) (tms : gmap Z timer) (x : Z) (q : list (Z * Z)) : list (Z * Z) :=
  match tms !! x with
  | Some t => if tm_times t =? 1 then q else lex_ins (x, now + tm_secs t) q
  | None => q
  end.
Fixpoint expire (now : Z) (tms : gmap Z timer) (due rest : list (Z * Z)) : list (Z * Z) :=
  match due with
  | [] => rest
  | e :: due => expire now tms due (requeue now tms e.1 rest)
  end.

Definition call (cb : Z → Z → W → W) (tms : gmap Z timer) (w : W) (e : Z * Z) : W :=
  match tms !! e.1 with Some t => cb (tm_handle t) (tm_param t) w | None => w end.

(** A due timer can be queued again in the future. *)
Definition requeueable (now : Z) (t : timer) : Prop :=
  tm_times t ≠ 0 ∧ 1 ≤ tm_secs t ∧ now + tm_secs t < 2 ^ 32.

Lemma expire_ext now tms tms' due rest :
  (∀ e, e ∈ due → tms' !! e.1 = tms !! e.1) → expire now tms' due rest = expire now tms due rest.
Proof.
  revert rest. induction due as [|e due IH]; intros rest H; [done|]. simpl.
  unfold requeue. rewrite (H e) by set_solver. apply IH. set_solver.
Qed.
Lemma call_ext cb tms tms' due w :
  (∀ e, e ∈ due → tms' !! e.1 = tms !! e.1) →
  foldl (call cb tms') w due = foldl (call cb tms) w due.
Proof.
  revert w. induction due as [|e due IH]; intros w H; [done|]. simpl.
  unfold call at 2 4. rewrite (H e) by set_solver. apply IH. set_solver.
Qed.

Lemma tree_queue_off s st st' q X :
  tree_queue s st q → rb_root st' = rb_root st → same_off X (rb_heap st) (rb_heap st') →
  (∀ y, y ∈ X → y ∉ s :: q.*1) → tree_queue s st' q.
Proof.
  intros (t & Hrb & Hin & Hs) Hroot' Ho Hx. exists t. split_and!; [|done|done].
  eapply is_rbtree_off; [done..|]. by rewrite ptrs_inorder, Hin.
Qed.

Lemma tree_queue_root s st q :
  tree_queue s st q → rb_root st = s ↔ q = [].
Proof.
  intros (t & [_ Hroot Hd _ _] & <- & _). rewrite Hroot. destruct t as [|c l p k r]; simpl; [done|].
  split; [|by destruct (inorder l)]. intros ->. apply NoDup_cons in Hd as [Hd _]. simpl in Hd. set_solver.
Qed.
Lemma tree_queue_min s st x k q fuel :
  tree_queue s st ((x, k) :: q) → (length ((x, k) :: q) ≤ fuel)%nat →
  gfs_rbtree_min fuel s (rb_root st) st = Some (x, st).
Proof.
  intros (t & Hrb & Hin & Hs) Hf.
  destruct (gfs_rbtree_min_correct s st t fuel Hrb) as (y & ky & rest & R & Hy).
  - intros ->. done.
  - by rewrite (tree_queue_length _ t Hin).
  - rewrite Hin in Hy. by injection Hy as <- <- <-.
Qed.

Lemma key_at st x n : rb_heap st !! x = Some n → key x st = Some (n_key n, st).
Proof. destruct st. apply key_run. Qed.

(** What follows the call of the first timer: it leaves the queue, and comes
    back with its next key unless this was its last time. *)
Lemma requeue_run s x k q (st : tloop W) t now fuel (m : TM unit) :
  timer_queue s st ((x, k) :: q) → x ≠ s → tl_timers st !! x = Some t →
  requeueable now t → 0 ≤ now → (S (S (length ((x, k) :: q))) < fuel)%nat →
  ∃ st', (on_tree (gfs_rbtree_delete fuel s x);;
          t ← get_timer x;
          if tm_times t =? 1 then m else
          set_timer x (Timer (tm_secs t) (if 0 <? tm_times t then tm_times t - 1 else tm_times t)
                         now (tm_handle t) (tm_param t));;
          on_tree (set_key x (u32 (now + tm_secs t)));;
          on_tree (gfs_rbtree_insert fuel (gfs_rbtree_insert_timer_value fuel) s x);; m) st =
         m st' ∧
    timer_queue s st' (requeue now (tl_timers st) x q) ∧
    tl_timers st' = <[x := fire now t]> (tl_timers st) ∧ tl_world st' = tl_world st.
Proof.
  intros Hq Hxs Ht (Ht0 & Hsec & Hov) Hnow Hf. destruct st as [tr tms w]. simpl in Ht.
  unfold timer_queue in Hq. simpl in Hq. pose proof (tree_queue_nodup _ _ _ Hq) as [Hnd _].
  rewrite fmap_cons in Hnd. apply NoDup_cons in Hnd as [Hxq Hnd]. simpl in Hxq.
  destruct (timer_delete_run s tr [] x k q fuel Hq Hf) as ([root h] & R1 & Hq1 & _ & (cx & Hcx)).
  rewrite (M_bind_Some _ _ _ _ _ (on_tree_run _ (TLoop tr tms w) _ _ R1)). simpl tl_timers.
  rewrite (M_bind_Some _ _ _ _ _ (get_timer_run (TLoop (Rbt root h) tms w) _ _ Ht)).
  unfold requeue, fire. rewrite Ht. destruct (tm_times t =? 1).
  { eexists. split; [reflexivity|]. split; [exact Hq1|]. by rewrite insert_id. }
  erewrite M_bind_Some by reflexivity. cbn [tl_tree tl_timers tl_world] in *.
  set (n2 := RbNode (now + tm_secs t) NULL NULL NULL cx).
  set (tr2 := Rbt root (<[x := n2]> h)). set (tms2 := <[x := _]> tms).
  assert (on_tree (set_key x (u32 (now + tm_secs t))) (TLoop (Rbt root h) tms2 w) =
    Some (tt, TLoop tr2 tms2 w)) as R2.
  { unfold on_tree. simpl. rewrite (set_key_run _ _ _ _ _ Hcx). rewrite u32_small by (unfold is_u32; lia).
    done. }
  rewrite (M_bind_Some _ _ _ _ _ R2). simpl in Hq1.
  destruct (timer_insert_run s tr2 q x n2 fuel) as (tr3 & R3 & Hq3 & _); [|apply lookup_insert_eq|done|done| |].
  { eapply (tree_queue_off s (Rbt root h) tr2 q [x]); [done|done|apply same_off_insert|].
    intros y ->%list_elem_of_singleton. set_solver. }
  { simpl in Hf. lia. }
  rewrite (M_bind_Some _ _ _ _ _ (on_tree_run _ (TLoop tr2 tms2 w) _ _ R3)). by eexists.
Qed.

Lemma requeue_app now tms x t due rest :
  tms !! x = Some t → 1 ≤ tm_secs t → Forall (λ e, e.2 ≤ now) due →
  requeue now tms x (due ++ rest) = due ++ requeue now tms x rest.
Proof.
  intros Ht Hs Hd. unfold requeue. rewrite Ht. destruct (tm_times t =? 1); [done|].
  apply lex_ins_app. eapply Forall_impl; [exact Hd|]. unfold lex_lt. simpl. lia.
Qed.
Lemma requeue_future now tms x t rest :
  tms !! x = Some t → 1 ≤ tm_secs t → Forall (λ e, now < e.2) rest →
  Forall (λ e, now < e.2) (requeue now tms x rest).
Proof.
  intros Ht Hs Hr. unfold requeue. rewrite Ht. destruct (tm_times t =? 1); [done|].
  induction Hr as [|e l He Hl IH]; simpl; [repeat constructor; simpl; lia|].
  destruct (lex_ltb _ _); constructor; try done. simpl. lia. by constructor.
Qed.
Lemma requeue_length now tms x rest : (length (requeue now tms x rest) ≤ S (length rest))%nat.
Proof.
  unfold requeue. destruct (tms !! x) as [t|]; [|lia]. destruct (_ =? 1); [lia|].
  induction rest as [|e l IH]; simpl; [lia|]. destruct (lex_ltb _ _); simpl; lia.
Qed.

(** C25: [gfs_timer_loop_run], with callbacks that leave the timers alone, ends;
    it calls exactly the timers whose key is due, once each and in the order of
    their keys, takes the ones at their last time out of the queue and queues
    the others again at the current time plus their period. *)
Theorem gfs_timer_loop_run_correct s now cb run due rest (st : tloop W) n fuel :
  (∀ h p st, run h p st = Some (tt, TLoop (tl_tree st) (tl_timers st) (cb h p (tl_world st)))) →
  timer_queue s st (due ++ rest) → 0 ≤ now →
  Forall (λ e, e.2 ≤ now) due → Forall (λ e, now < e.2) rest →
  (∀ e, e ∈ due → ∃ t, tl_timers st !! e.1 = Some t ∧ requeueable now t) →
  (length due < n)%nat → (S (S (length (due ++ rest))) < fuel)%nat →
  ∃ st', gfs_timer_loop_run n fuel run s now st = Some (tt, st') ∧
    timer_queue s st' (expire now (tl_timers st) due rest) ∧
    (∀ x, tl_timers st' !! x =
       if bool_decide (x ∈ due.*1) then fire now <$> tl_timers st !! x else tl_timers st !! x) ∧
    tl_world st' = foldl (call cb (tl_timers st)) (tl_world st) due.
Proof.
  intros Hrun. revert due rest st.
  induction n as [|n IH]; intros due rest st Hq Hnow Hdue Hrest Htms Hn Hf; [lia|].
  assert (on_tree get_root st = Some (rb_root (tl_tree st), st)) as Rroot by (by destruct st as [[] ? ?]).
  simpl gfs_timer_loop_run. rewrite (M_bind_Some _ _ _ _ _ Rroot).
  destruct (due ++ rest) as [|[x k] q] eqn:Hall.
  { apply app_nil in Hall as [-> ->].
    rewrite bool_decide_true by by apply (tree_queue_root _ _ _ Hq). by exists st. }
  rewrite bool_decide_false by (rewrite (tree_queue_root _ _ _ Hq); done).
  pose proof (tree_queue_nodup _ _ _ Hq) as [Hnd Hsq].
  assert (∀ A (m : M rbt A) y, m (tl_tree st) = Some (y, tl_tree st) →
    on_tree m st = Some (y, st)) as Hread.
  { intros A m y Hm. unfold on_tree. rewrite Hm. by destruct st. }
  rewrite (M_bind_Some _ _ _ _ _ (Hread _ _ _ (tree_queue_min s (tl_tree st) x k q fuel Hq ltac:(lia)))).
  destruct (tree_queue_key s (tl_tree st) _ x k Hq ltac:(set_solver)) as (nx & Hnx & Hkx).
  rewrite (M_bind_Some _ _ _ _ _ (Hread _ _ _ (key_at _ _ _ Hnx))). rewrite Hkx.
  destruct due as [|e due].
  { simpl in Hall. subst rest. inversion Hrest as [|? ? Hk _]; subst. simpl in Hk.
    destruct (Z.leb_spec (n_key nx) now); [lia|]. by exists st. }
  injection Hall as -> <-. inversion Hdue as [|? ? Hk Hdue']; subst. simpl in Hk.
  destruct (Z.leb_spec (n_key nx) now); [|lia].
  destruct (Htms (x, n_key nx) ltac:(set_solver)) as (t & Ht & Hre). simpl in Ht.
  pose proof Hre as (Ht0 & Hsec & _).
  rewrite (M_bind_Some _ _ _ _ _ (get_timer_run _ _ _ Ht)).
  destruct (Z.eqb_spec (tm_times t) 0) as [|_]; [done|].
  rewrite (M_bind_Some _ _ _ _ _ (Hrun _ _ _)). set (st1 := TLoop _ _ _).
  destruct (requeue_run s x (n_key nx) (due ++ rest) st1 t now fuel (gfs_timer_loop_run n fuel run s now))
    as (st2 & R & Hq2 & Htm2 & Hw2); [exact Hq|set_solver|exact Ht|exact Hre|done|exact Hf|].
  rewrite R. cbn [tl_timers tl_world st1] in *.
  rewrite (requeue_app _ _ _ t _ _ Ht Hsec Hdue') in Hq2.
  rewrite fmap_cons in Hnd. apply NoDup_cons in Hnd as [Hxq Hnd]. simpl in Hxq.
  rewrite fmap_app, not_elem_of_app in Hxq. destruct Hxq as [Hxd _].
  assert (∀ e, e ∈ due → tl_timers st2 !! e.1 = tl_timers st !! e.1) as Hsame.
  { intros e He. rewrite Htm2. apply lookup_insert_ne. intros ->. apply Hxd.
    by apply list_elem_of_fmap_2. }
  destruct (IH due (requeue now (tl_timers st) x rest) st2) as (st' & R' & Hq' & Htm' & Hw').
  - exact Hq2.
  - done.
  - done.
  - by eapply requeue_future.
  - intros e He. rewrite (Hsame e He). apply Htms. set_solver.
  - simpl in Hn. lia.
  - pose proof (requeue_length now (tl_timers st) x rest).
    simpl in Hf. rewrite length_app in Hf |- *. lia.
  - exists st'. split_and!; [done| | |].
    + by rewrite (expire_ext now (tl_timers st)) in Hq'.
    + intros y. rewrite Htm', Htm2. rewrite fmap_cons. simpl.
      destruct (decide (y = x)) as [->|Hyx].
      * rewrite bool_decide_false by done. rewrite lookup_insert_eq.
        rewrite bool_decide_true by set_solver. by rewrite Ht.
      * rewrite lookup_insert_ne by done.
        destruct (decide (y ∈ due.*1)); [rewrite !bool_decide_true by set_solver
          |rewrite !bool_decide_false by set_solver]; done.
    + rewrite Hw', Hw2. rewrite (call_ext cb (tl_timers st)) by done. simpl.
      unfold call at 3. simpl. by rewrite Ht.
Qed.

(** ** A callback that removes its own timer *)

Lemma delete_cleared_crash s x c st fuel :
  rb_heap st !! x = Some (cleared c) → rb_heap st !! NULL = None → s ≠ NULL →
  gfs_rbtree_delete fuel s x st = None.
Proof.
  intros Hx Hnull Hs. destruct st as [root h]. simpl in *.
  unfold gfs_rbtree_delete, rb_delete_choose. unfold mbind at 1, M_bind at 1.
  replace ((nl ← left x; _) (Rbt root h)) with (@None (Z * Z * rbt)); [done|]. symmetry.
  rb_op. simpl n_left. rb_false. rb_op. simpl n_right. rb_false.
  destruct fuel; [done|]. simpl. unfold left, nd, getsM. M_unfold. simpl. by rewrite Hnull.
Qed.

(** C26: when the callback of the first due timer removes its own timer, as the
    connection timeout does through [gfs_net_close], the loop deletes the
    node a second time and dereferences the null pointer. *)
Theorem gfs_timer_loop_run_self_delete_crash s now run loop x k q n nx t (st : tloop W) fuel :
  timer_queue s st ((x, k) :: q) → k ≤ now → s ≠ NULL → loop ≠ NULL → x ≠ NULL →
  rb_heap (tl_tree st) !! NULL = None → rb_heap (tl_tree st) !! x = Some nx →
  tl_timers st !! x = Some t → tm_times t ≠ 0 →
  run (tm_handle t) (tm_param t) = gfs_timer_del fuel s loop x →
  (S (S (length ((x, k) :: q))) < fuel)%nat →
  gfs_timer_loop_run n fuel run s now st = None.
Proof.
  intros Hq Hk Hs Hl Hx Hnull Hnx Ht Ht0 Hrun Hf. destruct n as [|n]; [done|].
  destruct st as [tr tms w]. unfold timer_queue in Hq. cbn [tl_tree tl_timers] in *.
  assert (∀ A (m : M rbt A) y, m tr = Some (y, tr) →
    on_tree m (TLoop tr tms w) = Some (y, TLoop tr tms w)) as Hread.
  { intros A m y Hm. unfold on_tree. simpl. by rewrite Hm. }
  simpl gfs_timer_loop_run.
  rewrite (M_bind_Some _ _ _ _ _ (Hread _ get_root (rb_root tr) ltac:(by destruct tr))).
  rewrite bool_decide_false by (rewrite (tree_queue_root _ _ _ Hq); done).
  rewrite (M_bind_Some _ _ _ _ _ (Hread _ _ _ (tree_queue_min s tr x k q fuel Hq ltac:(lia)))).
  destruct (tree_queue_key s tr _ x k Hq ltac:(set_solver)) as (nx' & Hnx' & Hkx).
  rewrite (M_bind_Some _ _ _ _ _ (Hread _ _ _ (key_at _ _ _ Hnx'))). rewrite Hkx.
  destruct (Z.leb_spec k now); [|lia].
  rewrite (M_bind_Some _ _ _ _ _ (get_timer_run (TLoop tr tms w) _ _ Ht)).
  destruct (Z.eqb_spec (tm_times t) 0) as [|_]; [done|]. rewrite Hrun.
  destruct (timer_delete_run s tr [] x k q fuel Hq Hf) as (tr1 & R1 & _ & Ho & (cx & Hcx)).
  assert (∃ st1, gfs_timer_del fuel s loop x (TLoop tr tms w) = Some (tt, st1) ∧ tl_tree st1 = tr1)
    as (st1 & R & Htr).
  { unfold gfs_timer_del. rewrite !bool_decide_false by done. simpl.
    rewrite (M_bind_Some _ _ _ _ _ (Hread _ _ _
      (gfs_rbtree_lookup_timer_value_run s _ _ x nx fuel Hq Hnx ltac:(lia)))).
    rewrite bool_decide_true by set_solver. simpl.
    rewrite (M_bind_Some _ _ _ _ _ (on_tree_run _ (TLoop tr tms w) _ _ R1)). simpl.
    rewrite (M_bind_Some _ _ _ _ _ (get_timer_run (TLoop tr1 tms w) _ _ Ht)). by eexists. }
  rewrite (M_bind_Some _ _ _ _ _ R). unfold mbind at 1, M_bind at 1, on_tree at 1.
  rewrite Htr, (delete_cleared_crash s x cx tr1 fuel); [done|done| |done].
  rewrite Ho; [done|]. intros Hin. apply elem_of_cons in Hin as [Hin|Hin]; [done|].
  destruct Hq as (t' & [(par & Hr) _ _ _ _] & Hi & _).
  apply list_elem_of_fmap in Hin as ((x' & k') & Hxx & Hin). simpl in Hxx. subst x'.
  simpl in Hin. rewrite <- Hi in Hin.
  destruct (inorder_key _ _ _ _ _ _ Hr Hin) as (n' & Hn' & _). congruence.
Qed.
End timer_ops.
