(* ===== verification/Bytes.v ===== *)
(** Byte blocks: C memory of a known size, read and written at an offset in
    the little-endian order of the host, and the byte-order functions of
    arpa/inet.h and core/gfs_tools.h. *)
From S2P Require Import Prelude.

Abbreviation bytes := (list Z).

Definition is_byte (z : Z) : Prop := 0 ≤ z < 256.
Definition is_bytes (l : bytes) : Prop := Forall is_byte l.

(** ** Little-endian integers of [n] bytes *)

Fixpoint le_bytes (n : nat) (z : Z) : bytes :=
  match n with O => [] | S n => z `mod` 256 :: le_bytes n (z `div` 256) end.
Fixpoint le_val (l : bytes) : Z :=
  match l with [] => 0 | b :: l => b + 256 * le_val l end.

Lemma le_bytes_length n z : length (le_bytes n z) = n.
Proof. revert z. induction n as [|n IH]; intros z; simpl; [done|]. by rewrite IH. Qed.
Lemma le_bytes_is n z : is_bytes (le_bytes n z).
Proof.
  revert z. induction n as [|n IH]; intros z; simpl; constructor; [|apply IH].
  apply Z.mod_pos_bound. lia.
Qed.
Lemma le_val_range l : is_bytes l → 0 ≤ le_val l < 256 ^ Z.of_nat (length l).
Proof.
  induction 1 as [|b l Hb Hl IH]; simpl; [lia|].
  rewrite Nat2Z.inj_succ, Z.pow_succ_r by lia. unfold is_byte in Hb. nia.
Qed.
Lemma le_val_bytes n z : le_val (le_bytes n z) = z `mod` 256 ^ Z.of_nat n.
Proof.
  revert z. induction n as [|n IH]; intros z; simpl; [by rewrite Z.mod_1_r|].
  rewrite IH, Nat2Z.inj_succ, Z.pow_succ_r by lia.
  rewrite Z.rem_mul_r by lia. lia.
Qed.
Lemma le_bytes_val l : is_bytes l → le_bytes (length l) (le_val l) = l.
Proof.
  induction 1 as [|b l Hb Hl IH]; simpl; [done|]. unfold is_byte in Hb.
  rewrite Z.mul_comm, Z.mod_add, Z.mod_small, Z.div_add, Z.div_small, Z.add_0_l by lia.
  by rewrite IH.
Qed.
Lemma le_bytes_mod n z : le_bytes n (z `mod` 256 ^ Z.of_nat n) = le_bytes n z.
Proof.
  rewrite <- le_val_bytes. rewrite <- (le_bytes_length n z) at 1.
  apply le_bytes_val, le_bytes_is.
Qed.

(** ** Blocks *)

Definition ld_bytes (n off : nat) (b : bytes) : option bytes :=
  if decide (off + n ≤ length b)%nat then Some (take n (drop off b)) else None.
Definition st_bytes (off : nat) (v b : bytes) : option bytes :=
  if decide (off + length v ≤ length b)%nat
  then Some (take off b ++ v ++ drop (off + length v) b) else None.

Definition ldn (n off : nat) (b : bytes) : option Z := le_val <$> ld_bytes n off b.
Definition stn (n off : nat) (v : Z) (b : bytes) : option bytes := st_bytes off (le_bytes n v) b.

Abbreviation ld16 := (ldn 2). Abbreviation ld32 := (ldn 4). Abbreviation ld64 := (ldn 8).
Abbreviation st16 := (stn 2). Abbreviation st32 := (stn 4). Abbreviation st64 := (stn 8).

Lemma st_bytes_ok off v b :
  (off + length v ≤ length b)%nat →
  st_bytes off v b = Some (take off b ++ v ++ drop (off + length v) b).
Proof. intros H. unfold st_bytes. by rewrite decide_True. Qed.

Lemma st_bytes_length off v b b' : st_bytes off v b = Some b' → length b' = length b.
Proof.
  unfold st_bytes. case_decide; [|done]. intros [= <-].
  rewrite !length_app, length_take, length_drop. lia.
Qed.
Lemma stn_length n off v b b' : stn n off v b = Some b' → length b' = length b.
Proof. apply st_bytes_length. Qed.

Lemma ld_st_bytes off v b b' : st_bytes off v b = Some b' → ld_bytes (length v) off b' = Some v.
Proof.
  intros H. pose proof (st_bytes_length _ _ _ _ H) as Hl. revert H.
  unfold st_bytes, ld_bytes. case_decide; [|done]. intros [= <-].
  rewrite decide_True by (rewrite Hl; lia). f_equal.
  rewrite drop_app_length' by (rewrite length_take; lia). by rewrite take_app_length.
Qed.
Lemma ld_st_bytes_before n off1 off2 v b b' :
  st_bytes off2 v b = Some b' → (off1 + n ≤ off2)%nat → ld_bytes n off1 b' = ld_bytes n off1 b.
Proof.
  intros H Hoff. pose proof (st_bytes_length _ _ _ _ H) as Hl. revert H.
  unfold st_bytes, ld_bytes. case_decide; [|done]. intros [= <-].
  rewrite Hl. case_decide; [|done]. f_equal.
  rewrite drop_app_le by (rewrite length_take; lia).
  rewrite take_app_le by (rewrite length_drop, length_take; lia).
  rewrite skipn_firstn_comm, take_take. f_equal. lia.
Qed.
Lemma ld_st_bytes_after n off1 off2 v b b' :
  st_bytes off2 v b = Some b' → (off2 + length v ≤ off1)%nat → ld_bytes n off1 b' = ld_bytes n off1 b.
Proof.
  intros H Hoff. pose proof (st_bytes_length _ _ _ _ H) as Hl. revert H.
  unfold st_bytes, ld_bytes. case_decide; [|done]. intros [= <-].
  rewrite Hl. case_decide; [|done]. do 2 f_equal. rewrite app_assoc.
  rewrite drop_app_ge by (rewrite length_app, length_take; lia).
  rewrite drop_drop. f_equal. rewrite length_app, length_take. lia.
Qed.

(** ** Byte order *)

(** [htonl], [ntohl] reverse four bytes and [htons], [ntohs] two: the host is
    little-endian. *)
Definition bswap (n : nat) (z : Z) : Z := le_val (rev (le_bytes n z)).
Definition htonl (z : Z) : Z := bswap 4 z.
Definition ntohl (z : Z) : Z := bswap 4 z.
Definition htons (z : Z) : Z := bswap 2 z.
Definition ntohs (z : Z) : Z := bswap 2 z.

(** Big-endian bytes, the order on the wire. *)
Definition be_bytes (n : nat) (z : Z) : bytes := rev (le_bytes n z).
Definition be_val (l : bytes) : Z := le_val (rev l).

Lemma le_bytes_bswap n z : le_bytes n (bswap n z) = be_bytes n z.
Proof.
  unfold bswap, be_bytes. rewrite <- (le_bytes_val (rev (le_bytes n z))) at 2.
  - by rewrite length_rev, le_bytes_length.
  - apply Forall_rev, le_bytes_is.
Qed.
Lemma be_bytes_length n z : length (be_bytes n z) = n.
Proof. unfold be_bytes. by rewrite length_rev, le_bytes_length. Qed.
Lemma be_val_bytes n z : be_val (be_bytes n z) = z `mod` 256 ^ Z.of_nat n.
Proof. unfold be_val, be_bytes. by rewrite rev_involutive, le_val_bytes. Qed.
Lemma bswap_involutive n z : bswap n (bswap n z) = z `mod` 256 ^ Z.of_nat n.
Proof. unfold bswap at 1. rewrite le_bytes_bswap. apply be_val_bytes. Qed.
Lemma bswap_le_val l : is_bytes l → bswap (length l) (le_val l) = be_val l.
Proof. intros H. unfold bswap, be_val. by rewrite le_bytes_val. Qed.

(** [ntohll] and [htonll] of core/gfs_tools.h, with the shifts of the source:
    the low word is swapped into the high half and the high word into the low
    half. *)
Definition htonll (val : Z) : Z :=
  Z.lor (u64 (Z.shiftl (htonl (u32 (Z.shiftr (u64 (Z.shiftl val 32)) 32))) 32))
        (htonl (u32 (Z.shiftr val 32))).
Definition ntohll (val : Z) : Z := htonll val.

Lemma le_val_app l1 l2 : le_val (l1 ++ l2) = le_val l1 + 256 ^ Z.of_nat (length l1) * le_val l2.
Proof.
  induction l1 as [|b l1 IH]; simpl length; [simpl; lia|].
  rewrite Nat2Z.inj_succ, Z.pow_succ_r by lia. simpl. rewrite IH. ring.
Qed.

Lemma le_bytes_app n m z :
  le_bytes (n + m) z = le_bytes n z ++ le_bytes m (z `div` 256 ^ Z.of_nat n).
Proof.
  revert z. induction n as [|n IH]; intros z; simpl le_bytes; [by rewrite Z.div_1_r|].
  rewrite IH, Nat2Z.inj_succ, Z.pow_succ_r, Zdiv.Zdiv_Zdiv by lia. done.
Qed.

Lemma lor_shiftl_add a b k : 0 ≤ k → 0 ≤ b < 2 ^ k → Z.lor (Z.shiftl a k) b = a * 2 ^ k + b.
Proof.
  intros Hk Hb. rewrite <- Z.shiftl_mul_pow2 by done. rewrite <- Z.add_lor_land.
  enough (Z.land (Z.shiftl a k) b = 0) as -> by lia.
  apply Z.bits_inj'. intros n Hn. rewrite Z.land_spec, Z.bits_0, Z.shiftl_spec by done.
  destruct (Z.lt_ge_cases n k).
  - by rewrite Z.testbit_neg_r by lia.
  - rewrite <- (Z.mod_small b (2 ^ k)) by done.
    by rewrite Z.mod_pow2_bits_high, andb_false_r by lia.
Qed.

Lemma bswap_range n z : 0 ≤ bswap n z < 256 ^ Z.of_nat n.
Proof.
  unfold bswap. pose proof (le_val_range (rev (le_bytes n z))) as H.
  rewrite length_rev, le_bytes_length in H. apply H, Forall_rev, le_bytes_is.
Qed.

(** The 64-bit conversion reverses the eight bytes. *)
Lemma htonll_bswap v : is_u64 v → htonll v = bswap 8 v.
Proof.
  intros Hv. unfold htonll, is_u64 in *.
  replace (u32 (Z.shiftr (u64 (Z.shiftl v 32)) 32)) with (v `mod` 2 ^ 32); last first.
  { unfold u32, u64. rewrite Z.shiftl_mul_pow2, Z.shiftr_div_pow2 by lia.
    change (2 ^ 64) with (2 ^ 32 * 2 ^ 32). rewrite Z.mul_mod_distr_r by lia.
    rewrite Z.div_mul by lia. by rewrite Z.mod_mod by lia. }
  replace (u32 (Z.shiftr v 32)) with (v `div` 2 ^ 32); last first.
  { unfold u32. rewrite Z.shiftr_div_pow2 by lia. symmetry. apply Z.mod_small.
    split; [apply Z.div_pos; lia|apply Z.div_lt_upper_bound; lia]. }
  pose proof (bswap_range 4 (v `mod` 2 ^ 32)) as H1. pose proof (bswap_range 4 (v `div` 2 ^ 32)) as H2.
  change (256 ^ Z.of_nat 4) with (2 ^ 32) in *. unfold htonl.
  rewrite u64_small by (rewrite Z.shiftl_mul_pow2 by lia; unfold is_u64; lia).
  rewrite lor_shiftl_add; [|done|exact H2].
  unfold bswap at 3. change (le_bytes 8 v) with (le_bytes (4 + 4) v).
  rewrite le_bytes_app, rev_app_distr, le_val_app, length_rev, le_bytes_length.
  change (256 ^ Z.of_nat 4) with (2 ^ 32). fold (bswap 4 (v `div` 2 ^ 32)).
  replace (le_bytes 4 v) with (le_bytes 4 (v `mod` 2 ^ 32)) by apply (le_bytes_mod 4).
  fold (bswap 4 (v `mod` 2 ^ 32)). lia.
Qed.

Lemma le_bytes_htonl v : le_bytes 4 (htonl v) = be_bytes 4 v.
Proof. apply le_bytes_bswap. Qed.
Lemma le_bytes_htons v : le_bytes 2 (htons v) = be_bytes 2 v.
Proof. apply le_bytes_bswap. Qed.
Lemma le_bytes_htonll v : is_u64 v → le_bytes 8 (htonll v) = be_bytes 8 v.
Proof. intros H. rewrite htonll_bswap by done. apply le_bytes_bswap. Qed.
Lemma ntohl_htonl v : ntohl (htonl v) = u32 v.
Proof. apply (bswap_involutive 4). Qed.
Lemma ntohll_htonll v : is_u64 v → ntohll (htonll v) = v.
Proof.
  intros H. unfold ntohll. rewrite (htonll_bswap v) by done. rewrite htonll_bswap by apply bswap_range.
  rewrite bswap_involutive. by apply Z.mod_small.
Qed.
Create Rewrite HintDb bytes.
#[export] Hint Rewrite le_bytes_htonl le_bytes_htons be_bytes_length le_bytes_length : bytes.

(** Reading a part of a block that is known as a concatenation. *)
Lemma ld_bytes_mid pre v post n :
  n = length v → ld_bytes n (length pre) (pre ++ v ++ post) = Some v.
Proof.
  intros ->. unfold ld_bytes. rewrite decide_True by (rewrite !length_app; lia).
  by rewrite drop_app_length, take_app_length.
Qed.
Lemma ld_bytes_front v post n : n = length v → ld_bytes n 0 (v ++ post) = Some v.
Proof. apply (ld_bytes_mid []). Qed.
Lemma ld_bytes_whole b : ld_bytes (length b) 0 b = Some b.
Proof. unfold ld_bytes. rewrite decide_True by lia. by rewrite drop_0, firstn_all. Qed.
Lemma ld_bytes_Some n off b v : ld_bytes n off b = Some v → length v = n ∧ (off + n ≤ length b)%nat.
Proof.
  unfold ld_bytes. case_decide; [|done]. intros [= <-]. rewrite length_take, length_drop. lia.
Qed.
Lemma ld_bytes_is n off b v : is_bytes b → ld_bytes n off b = Some v → is_bytes v.
Proof. unfold ld_bytes. case_decide; [|done]. intros Hb [= <-]. by apply Forall_take, Forall_drop. Qed.
Lemma ld_bytes_total n off b : (off + n ≤ length b)%nat → is_Some (ld_bytes n off b).
Proof. intros H. unfold ld_bytes. by rewrite decide_True. Qed.
Lemma st_bytes_mid pre old v post :
  length v = length old → st_bytes (length pre) v (pre ++ old ++ post) = Some (pre ++ v ++ post).
Proof.
  intros Hl. unfold st_bytes. rewrite decide_True by (rewrite !length_app; lia).
  rewrite take_app_length. do 3 f_equal. rewrite app_assoc, drop_app_length'; [done|].
  rewrite length_app. lia.
Qed.
