(* ===== verification/Text.v ===== *)
(** Decimal text: what [sprintf] prints for [%u], [%llu] and [%d] and what
    [atoi] and [atoll] read, on byte strings without the terminating zero. *)
From Stdlib Require Import Ascii String.
From S2P Require Import Prelude Bytes.

(** A string literal as bytes. *)
Fixpoint lit (s : string) : bytes :=
  match s with
  | EmptyString => []
  | String c s => Z.of_nat (nat_of_ascii c) :: lit s
  end.

Arguments lit s%_string_scope.

(** The digits of [n], most significant first; 20 are enough for 64 bits. *)
Fixpoint digits (fuel : nat) (n : Z) (acc : bytes) : bytes :=
  match fuel with
  | O => acc
  | S fuel =>
      let acc := (48 + n `mod` 10) :: acc in
      if n <? 10 then acc else digits fuel (n `div` 10) acc
  end.
Definition fmt_u (n : Z) : bytes := digits 20 n [].
Definition fmt_d (n : Z) : bytes := if n <? 0 then 45 :: fmt_u (- n) else fmt_u n.

Definition is_digit (c : Z) : bool := (48 <=? c) && (c <=? 57).
Definition is_space (c : Z) : bool := (c =? 32) || ((9 <=? c) && (c <=? 13)).

Fixpoint read_digits (s : bytes) (acc : Z) : Z :=
  match s with
  | c :: s => if is_digit c then read_digits s (acc * 10 + (c - 48)) else acc
  | [] => acc
  end.
Fixpoint skip_space (s : bytes) : bytes :=
  match s with
  | c :: s' => if is_space c then skip_space s' else s
  | [] => []
  end.
(** [strtol] in base ten, before the result is cut to 64 bits. *)
Definition read_int (s : bytes) : Z :=
  match skip_space s with
  | 45 :: s => - read_digits s 0
  | 43 :: s => read_digits s 0
  | s => read_digits s 0
  end.
Definition clamp64 (z : Z) : Z := Z.max (- 2 ^ 63) (Z.min (2 ^ 63 - 1) z).
(** [atoll] and, as glibc has it, [atoi]: the low 32 bits of the long. *)
Definition atoll (s : bytes) : Z := clamp64 (read_int s).
Definition atoi (s : bytes) : Z := i32 (clamp64 (read_int s)).

Lemma read_digits_app s1 s2 acc :
  forallb is_digit s1 = true → read_digits (s1 ++ s2) acc = read_digits s2 (read_digits s1 acc).
Proof.
  revert acc. induction s1 as [|c s1 IH]; intros acc; simpl; [done|].
  destruct (is_digit c); [|done]. apply IH.
Qed.

Lemma digits_spec fuel n acc :
  0 ≤ n < 10 ^ Z.of_nat fuel → (0 < fuel)%nat →
  ∃ c ds, digits fuel n acc = (c :: ds) ++ acc ∧ forallb is_digit (c :: ds) = true ∧
    read_digits (c :: ds) 0 = n ∧ (length (c :: ds) ≤ fuel)%nat.
Proof.
  revert n acc. induction fuel as [|fuel IH]; intros n acc Hn Hf; [lia|]. simpl digits.
  pose proof (Z.mod_pos_bound n 10 ltac:(lia)) as Hm.
  assert (is_digit (48 + n `mod` 10) = true) as Hd.
  { unfold is_digit. apply andb_true_iff. split; apply Z.leb_le; lia. }
  destruct (Z.ltb_spec n 10).
  - exists (48 + n `mod` 10), []. split_and!; [done| | |simpl; lia]; simpl; rewrite Hd; [done|].
    rewrite Z.mod_small by lia. lia.
  - rewrite Nat2Z.inj_succ, Z.pow_succ_r in Hn by lia.
    assert (0 < fuel)%nat by (destruct fuel; [simpl in Hn; lia|lia]).
    destruct (IH (n `div` 10) ((48 + n `mod` 10) :: acc)) as (c & ds & -> & Hall & Hr & Hl); [|done|].
    { split; [apply Z.div_pos; lia|apply Z.div_lt_upper_bound; lia]. }
    exists c, (ds ++ [48 + n `mod` 10]). split_and!.
    + by rewrite app_comm_cons, <- app_assoc.
    + rewrite app_comm_cons, forallb_app, Hall. simpl. by rewrite Hd.
    + rewrite app_comm_cons, read_digits_app, Hr by done. simpl. rewrite Hd.
      pose proof (Z.div_mod n 10 ltac:(lia)). lia.
    + rewrite app_comm_cons, length_app. simpl in *. lia.
Qed.

Lemma fmt_u_spec n : 0 ≤ n < 10 ^ 20 →
  ∃ c ds, fmt_u n = c :: ds ∧ forallb is_digit (c :: ds) = true ∧
    read_digits (c :: ds) 0 = n ∧ (length (c :: ds) ≤ 20)%nat.
Proof.
  intros Hn. destruct (digits_spec 20 n [] Hn ltac:(lia)) as (c & ds & H & ?).
  exists c, ds. by rewrite app_nil_r in H.
Qed.

Lemma read_int_digits c ds rest :
  forallb is_digit (c :: ds) = true → (match rest with [] => True | r :: _ => is_digit r = false end) →
  read_int (c :: ds ++ rest) = read_digits (c :: ds) 0.
Proof.
  intros Hd Hrest. unfold read_int. simpl in Hd. apply andb_true_iff in Hd as [Hc Hds].
  assert (48 ≤ c ≤ 57) as Hrange.
  { unfold is_digit in Hc. apply andb_true_iff in Hc as [?%Z.leb_le ?%Z.leb_le]. lia. }
  assert (skip_space (c :: ds ++ rest) = c :: ds ++ rest) as ->.
  { simpl. unfold is_space. destruct (Z.eqb_spec c 32); [lia|].
    destruct (Z.leb_spec c 13); [lia|]. by rewrite andb_false_r. }
  assert (read_digits (c :: ds ++ rest) 0 = read_digits (c :: ds) 0) as Hr.
  { rewrite app_comm_cons, read_digits_app by (simpl; by rewrite Hc, Hds).
    destruct rest as [|r rest]; [done|]. simpl. by rewrite Hrest. }
  destruct c as [|[| |]|]; try lia; repeat (case_match; try lia); try done; simplify_eq; try lia.
Qed.

(** Printing and reading back. *)
Lemma atoll_fmt_u n : 0 ≤ n < 2 ^ 63 → atoll (fmt_u n) = n.
Proof.
  intros Hn. destruct (fmt_u_spec n ltac:(lia)) as (c & ds & -> & Hd & Hr & _).
  unfold atoll. rewrite <- (app_nil_r ds), read_int_digits, Hr by done. unfold clamp64. lia.
Qed.
Lemma atoi_fmt_u n : 0 ≤ n < 2 ^ 63 → atoi (fmt_u n) = i32 n.
Proof.
  intros Hn. destruct (fmt_u_spec n ltac:(lia)) as (c & ds & -> & Hd & Hr & _).
  unfold atoi. rewrite <- (app_nil_r ds), read_int_digits, Hr by done.
  f_equal. unfold clamp64. lia.
Qed.
Lemma fmt_u_length n : 0 ≤ n < 10 ^ 20 → (1 ≤ length (fmt_u n) ≤ 20)%nat.
Proof. intros Hn. destruct (fmt_u_spec n Hn) as (c & ds & -> & _ & _ & Hl). simpl in *. lia. Qed.
