(* ===== verification/Tools.v ===== *)
(** core/gfs_tools.c: hexadecimal and percent coding, and the lookup of a
    [key=value] pair in a string.

    A C string is the list of its bytes without the terminating zero.  A
    [gfs_char] is signed on this platform: [schar] reads a byte as one. *)
From S2P Require Import Prelude Bytes.

Definition schar (b : Z) : Z := if b <? 128 then b else b - 256.

(** ** Hexadecimal *)

Definition hex_num : list Z :=
  [0; 1; 2; 3; 4; 5; 6; 7; 8;
   9; 0; 0; 0; 0; 0; 0; 0;
   10; 11; 12; 13; 14; 15; 0; 0;
   0; 0; 0; 0; 0; 0; 0; 0;
   0; 0; 0; 0; 0; 0; 0; 0;
   0; 0; 0; 0; 0; 0; 0; 0;
   10; 11; 12; 13; 14; 15].

(** [hex_num[i]]; outside the table the read is undefined. *)
Definition hex_num_at (i : Z) : option Z :=
  if i <? 0 then None else hex_num !! Z.to_nat i.

(** The two-digit step shared by [gfs_strtohex] and [gfs_url_parse]. *)
Definition hex_pair (c1 c2 : Z) : option Z :=
  hf ← hex_num_at (schar c1 - 0x30);
  hs ← hex_num_at (schar c2 - 0x30);
  Some (u8 (hf * 0x10 + hs)).

(** The loop of [gfs_strtohex] over [half] pairs; reading past the string is
    undefined. *)
Fixpoint strtohex_loop (half : nat) (str : bytes) : option bytes :=
  match half with
  | O => Some []
  | S half =>
      match str with
      | c1 :: c2 :: str =>
          h ← hex_pair c1 c2; t ← strtohex_loop half str; Some (h :: t)
      | _ => None
      end
  end.

(** [gfs_strtohex str slen hex]: the return value and the bytes written. *)
Definition gfs_strtohex (str : bytes) (slen : Z) : option (Z * bytes) :=
  let half := Z.quot slen 2 in
  out ← strtohex_loop (Z.to_nat half) str; Some (half, out).

Definition hex_str : list Z := [48; 49; 50; 51; 52; 53; 54; 55; 56; 57; 97; 98; 99; 100; 101; 102].

Fixpoint hextostr_loop (n : nat) (hex : bytes) : option bytes :=
  match n with
  | O => Some []
  | S n =>
      match hex with
      | h :: hex =>
          c1 ← hex_str !! Z.to_nat (h `div` 16);
          c2 ← hex_str !! Z.to_nat (h `mod` 16);
          t ← hextostr_loop n hex; Some (c1 :: c2 :: t)
      | [] => None
      end
  end.

(** [gfs_hextostr hex hlen str] *)
Definition gfs_hextostr (hex : bytes) (hlen : Z) : option (Z * bytes) :=
  out ← hextostr_loop (Z.to_nat hlen) hex; Some (2 * hlen, out).

(** The digits of a block. *)
Definition hex_hi (b : Z) : Z := nth (Z.to_nat (b `div` 16)) hex_str 0.
Definition hex_lo (b : Z) : Z := nth (Z.to_nat (b `mod` 16)) hex_str 0.
Definition hex_digits (l : bytes) : bytes := l ≫= λ b, [hex_hi b; hex_lo b].

(** A property of all bytes is checked byte by byte. *)
Definition all_bytes : list Z := Z.of_nat <$> seq 0 256.
Lemma byte_all_bytes b : is_byte b → b ∈ all_bytes.
Proof.
  intros H. apply list_elem_of_fmap. exists (Z.to_nat b). unfold is_byte in H.
  split; [lia|]. apply elem_of_seq. lia.
Qed.
Lemma byte_check (P : Z → Prop) (HP : ∀ b, Decision (P b)) :
  forallb (λ b, bool_decide (P b)) all_bytes = true → ∀ b, is_byte b → P b.
Proof.
  intros Hall b Hb. rewrite forallb_forall in Hall.
  refine (bool_decide_eq_true_1 _ (Hall b _)). by apply list_elem_of_In, byte_all_bytes.
Qed.

Lemma hex_str_lookup b : is_byte b →
  hex_str !! Z.to_nat (b `div` 16) = Some (hex_hi b) ∧ hex_str !! Z.to_nat (b `mod` 16) = Some (hex_lo b).
Proof.
  apply (byte_check (λ b, hex_str !! Z.to_nat (b `div` 16) = Some (hex_hi b) ∧
                          hex_str !! Z.to_nat (b `mod` 16) = Some (hex_lo b)) _).
  by vm_compute.
Qed.
Lemma hex_pair_digits b : is_byte b → hex_pair (hex_hi b) (hex_lo b) = Some b.
Proof. apply (byte_check (λ b, hex_pair (hex_hi b) (hex_lo b) = Some b) _). by vm_compute. Qed.

(** The digits are lower-case hexadecimal, so never a quote, a null, a percent
    sign or a sign. *)
Definition is_hex_digit (c : Z) : Prop := 48 ≤ c ≤ 57 ∨ 97 ≤ c ≤ 102.
#[export] Instance is_hex_digit_dec c : Decision (is_hex_digit c).
Proof. unfold is_hex_digit. apply _. Defined.
Lemma hex_hi_lo_digit b : is_byte b → is_hex_digit (hex_hi b) ∧ is_hex_digit (hex_lo b).
Proof. apply (byte_check (λ b, is_hex_digit (hex_hi b) ∧ is_hex_digit (hex_lo b)) _). by vm_compute. Qed.

Lemma hextostr_run l rest :
  is_bytes l → hextostr_loop (length l) (l ++ rest) = Some (hex_digits l).
Proof.
  induction 1 as [|b l Hb Hl IH]; simpl; [done|]. rewrite IH.
  destruct (hex_str_lookup b Hb) as [-> ->]. done.
Qed.
Lemma hex_digits_length l : length (hex_digits l) = (2 * length l)%nat.
Proof. induction l as [|b l IH]; [done|]. simpl. rewrite IH. lia. Qed.
Lemma strtohex_run l rest :
  is_bytes l → strtohex_loop (length l) (hex_digits l ++ rest) = Some l.
Proof.
  induction 1 as [|b l Hb Hl IH]; [done|].
  change (hex_digits (b :: l)) with (hex_hi b :: hex_lo b :: hex_digits l).
  cbn [length app strtohex_loop]. by rewrite IH, (hex_pair_digits b Hb).
Qed.

(** [gfs_hextostr] writes two lower-case hexadecimal digits for each byte
    and [gfs_strtohex] reads them back. *)
Theorem gfs_hextostr_strtohex l rest rest' :
  is_bytes l →
  ∃ s, gfs_hextostr (l ++ rest) (Z.of_nat (length l)) = Some (Z.of_nat (2 * length l), s) ∧
    length s = (2 * length l)%nat ∧ Forall is_hex_digit s ∧
    gfs_strtohex (s ++ rest') (Z.of_nat (2 * length l)) = Some (Z.of_nat (length l), l).
Proof.
  intros Hl. exists (hex_digits l). split_and!.
  - unfold gfs_hextostr. rewrite Nat2Z.id, (hextostr_run _ _ Hl). by rewrite Nat2Z.inj_mul.
  - apply hex_digits_length.
  - clear -Hl. induction Hl as [|b l Hb Hl IH]; [constructor|]. simpl.
    destruct (hex_hi_lo_digit b Hb). by constructor; [|constructor].
  - unfold gfs_strtohex. replace (Z.quot (Z.of_nat (2 * length l)) 2) with (Z.of_nat (length l)).
    + by rewrite Nat2Z.id, (strtohex_run _ _ Hl).
    + rewrite Z.quot_div_nonneg by lia. apply Z.div_unique_exact; lia.
Qed.

(** ** Percent coding *)

(** The loop of [gfs_url_parse]; the string is read with its terminating zero,
    so the two characters after a final [%] are the zero and whatever follows
    the string, which is undefined. *)
Fixpoint url_loop (fuel : nat) (str : bytes) : option bytes :=
  match fuel with
  | O => None
  | S fuel =>
      match str with
      | [] => Some []
      | 37 :: c1 :: c2 :: str => h ← hex_pair c1 c2; t ← url_loop fuel str; Some (h :: t)
      | 37 :: _ => None
      | c :: str => t ← url_loop fuel str; Some (c :: t)
      end
  end.

(** [gfs_url_parse str url]; a null argument is [None]. *)
Definition gfs_url_parse (str : option bytes) (url_null : bool) : option (Z * bytes) :=
  match str with
  | None => Some (GFS_PARAM_FUN_ERR, [])
  | Some str =>
      if url_null then Some (GFS_PARAM_FUN_ERR, [])
      else out ← url_loop (S (length str)) str; Some (GFS_OK, out)
  end.

(** The encoder the function inverts: bytes in the set [safe] are kept and the
    others, the percent sign among them, are written as [%xy]. *)
Definition url_encode (safe : Z → bool) (l : bytes) : bytes :=
  l ≫= λ b, if safe b && negb (b =? 37) then [b] else [37; hex_hi b; hex_lo b].

Lemma url_loop_plain fuel c str :
  c ≠ 37 → url_loop (S fuel) (c :: str) = (t ← url_loop fuel str; Some (c :: t)).
Proof. intros Hc. simpl. repeat (case_match; try done). Qed.

(** [gfs_url_parse] decodes every percent-encoding of a byte string, and
    leaves a string without percent signs unchanged. *)
Theorem gfs_url_parse_encode safe l :
  is_bytes l → gfs_url_parse (Some (url_encode safe l)) false = Some (GFS_OK, l).
Proof.
  intros Hl. unfold gfs_url_parse.
  assert (∀ fuel, (length (url_encode safe l) < fuel)%nat → url_loop fuel (url_encode safe l) = Some l) as H.
  { induction Hl as [|b l Hb Hl IH]; intros [|fuel] Hf; try lia; [done|].
    change (url_encode safe (b :: l)) with
      ((if safe b && negb (b =? 37) then [b] else [37; hex_hi b; hex_lo b]) ++ url_encode safe l) in *.
    rewrite length_app in Hf. destruct (safe b && negb (b =? 37)) eqn:Hs.
    - cbn [app]. rewrite url_loop_plain by lia. simpl in Hf. by rewrite IH by lia.
    - simpl. rewrite (hex_pair_digits b Hb). simpl in Hf. by rewrite IH by lia. }
  by rewrite H by lia.
Qed.

(** ** [key=value] lookup *)

(** [strstr]: the suffix at the first occurrence of [pat]. *)
Fixpoint strstr (s pat : bytes) : option bytes :=
  if decide (take (length pat) s = pat) then Some s
  else match s with [] => None | _ :: s' => strstr s' pat end.

(** [strpbrk]: the bytes before the first one of [set], if there is one. *)
Fixpoint strpbrk (s set : bytes) : option bytes :=
  match s with
  | [] => None
  | c :: s' => if decide (c ∈ set) then Some [] else (cons c) <$> strpbrk s' set
  end.

(** [gfs_string_value str key value vlen split], the arguments being non-null;
    [cap] is the size of the object behind [value].  The result is the return
    value and what is written to [value], if anything. *)
Definition gfs_string_value (str key : bytes) (cap vlen : Z) (split : bytes) :
    option (Z * option bytes) :=
  if Z.of_nat (length key) + 2 <=? 32 then
    let tmp := key ++ [61] in
    match strstr str tmp with
    | None => Some (GFS_ERR, None)
    | Some p0 =>
        let p := drop (length tmp) p0 in
        match strpbrk p split with
        | None => if Z.of_nat (length p) + 1 <=? cap then Some (GFS_OK, Some p) else None
        | Some v =>
            if vlen <=? Z.of_nat (length v) then Some (GFS_ERR, None)
            else if Z.of_nat (length v) + 1 <=? cap then Some (GFS_OK, Some v) else None
        end
    end
  else None.

Lemma strstr_spec s pat p :
  strstr s pat = Some p → ∃ pre, s = pre ++ p ∧ take (length pat) p = pat.
Proof.
  revert p. induction s as [|c s IH]; intros p; simpl.
  - destruct (decide _); [|done]. intros [= <-]. by exists [].
  - destruct (decide _) as [H|]; [intros [= <-]; by exists []|].
    intros (pre & -> & Hp)%IH. by exists (c :: pre).
Qed.
Lemma strpbrk_spec s set v :
  strpbrk s set = Some v →
  ∃ c rest, s = v ++ c :: rest ∧ c ∈ set ∧ Forall (λ x, x ∉ set) v.
Proof.
  revert v. induction s as [|c s IH]; intros v; simpl; [done|].
  destruct (decide (c ∈ set)); [intros [= <-]; by eexists c, s|].
  intros (v' & Hv' & ->)%fmap_Some. destruct (IH _ Hv') as (c' & rest & -> & ? & ?).
  exists c', rest. split_and!; [done|done|by constructor].
Qed.

(** What [gfs_string_value] returns lies behind [key=] in the string and, when
    the string goes on, ends before a separator and fits in [vlen] bytes. *)
Lemma gfs_string_value_spec str key cap vlen split v :
  gfs_string_value str key cap vlen split = Some (GFS_OK, Some v) →
  (∃ pre, str = pre ++ key ++ [61] ++ v ∨
     ∃ c rest, c ∈ split ∧ str = pre ++ key ++ [61] ++ v ++ c :: rest ∧ Z.of_nat (length v) < vlen) ∧
  Z.of_nat (length v) < cap.
Proof.
  unfold gfs_string_value. destruct (_ <=? 32); [|done].
  destruct (strstr str _) as [p0|] eqn:Hp; [|done].
  destruct (strstr_spec _ _ _ Hp) as (pre & -> & Ht).
  assert (p0 = (key ++ [61]) ++ drop (length (key ++ [61])) p0) as Hp0
    by (rewrite <- Ht at 1; symmetry; apply take_drop).
  revert Hp0. generalize (drop (length (key ++ [61])) p0). intros p ->. clear Ht Hp.
  destruct (strpbrk p split) as [w|] eqn:Hw.
  - destruct (Z.leb_spec vlen (Z.of_nat (length w))); [done|].
    destruct (Z.leb_spec (Z.of_nat (length w) + 1) cap); [|done]. intros [= ->].
    destruct (strpbrk_spec _ _ _ Hw) as (c & rest & -> & Hc & _).
    split; [|lia]. exists pre. right. exists c, rest. by rewrite <- app_assoc.
  - destruct (Z.leb_spec (Z.of_nat (length p) + 1) cap); [|done]. intros [= <-].
    split; [|lia]. exists pre. left. by rewrite <- app_assoc.
Qed.
