(* ===== verification/NetBuf.v ===== *)
(** Connection buffers of the name service: [gfs_net_buf_t], the packet
    scanner and buffer copy of net/gfs_net.c, the receive and send loops of
    net/gfs_net_tcp.c and the packet loop of core/gfs_handle.c.

    The sockets are scripts: the outcomes of the successive [recv] and [send]
    calls are given as lists. *)
From S2P Require Import Prelude Bytes.

(** [gfs_net_buf_t]: the block behind [data], whose size is that of the
    allocation, and the three counters. *)
Record netbuf := NetBuf { nb_data : bytes; nb_len : Z; nb_pos : Z; nb_hd : Z }.

#[export] Instance netbuf_eq_dec : EqDecision netbuf.
Proof. solve_decision. Defined.

Definition GFS_NET_CLOSE := 140.
Definition GFS_NET_AGAIN := 141.
Definition GFS_NET_OUTOF_MEMORY := 142.

(** ** [gfs_net_packet_parse_tcp] *)

(** [ntohl] of the word at an offset of the block. *)
Definition ld_be32 (b : bytes) (off : Z) : option Z :=
  if off <? 0 then None else ntohl <$> ld32 (Z.to_nat off) b.

(** The scan: [rtn] bytes were skipped.  [pu] stays at the first byte, so the
    length and type words are the same in every turn.  The result is the number
    of bytes consumed and the packet, as an offset in the block and a
    length. *)
Fixpoint packet_scan (fuel : nat) (buf : netbuf) (rtn : Z) : option (Z * option (Z * Z)) :=
  match fuel with
  | O => None
  | S fuel =>
      let size := u32 (nb_pos buf - nb_hd buf) in
      if nb_hd buf + rtn <? nb_pos buf then
        len ← ld_be32 (nb_data buf) (nb_hd buf);
        type ← ld_be32 (nb_data buf) (nb_hd buf + 8);
        if (2048 <? len) || (len <? 16) then packet_scan fuel buf (rtn + 1)
        else if size <? u32 (rtn + len) then
          if nb_pos buf <? nb_len buf then packet_scan fuel buf (rtn + 1)
          else if nb_pos buf =? nb_len buf then Some (rtn, None)
          else Some (nb_pos buf - nb_hd buf, None)
        else
          sprt ← ld_be32 (nb_data buf) (nb_hd buf + rtn + len - 4);
          if negb (sprt =? 0) then packet_scan fuel buf (rtn + 1)
          else Some (rtn + len, Some (nb_hd buf + rtn, len))
      else Some (nb_pos buf - nb_hd buf, None)
  end.

Definition gfs_net_packet_parse_tcp (buf : netbuf) : option (Z * option (Z * Z)) :=
  packet_scan (S (Z.to_nat (nb_pos buf - nb_hd buf))) buf 0.

(** ** [gfs_net_memcopy] *)

Definition gfs_net_memcopy (dst src : netbuf) : option (Z * netbuf * netbuf) :=
  let remain := i32 (nb_len dst - nb_pos dst) in
  let copylen := i32 (nb_pos src - nb_hd src) in
  let remain := if copylen <? remain then copylen else remain in
  if remain <? 0 then None else
  v ← ld_bytes (Z.to_nat remain) (Z.to_nat (nb_hd src)) (nb_data src);
  d ← st_bytes (Z.to_nat (nb_pos dst)) v (nb_data dst);
  Some (GFS_OK, NetBuf d (nb_len dst) (nb_pos dst + remain) (nb_hd dst),
        NetBuf (nb_data src) (nb_len src) (nb_pos src) (nb_hd src + remain)).

(** ** [gfs_net_tcp_recv] and [gfs_net_tcp_send] *)

(** The outcome of one [recv]: bytes (none when the peer has closed) or an
    [errno]. *)
Inductive recv_res := RecvData (l : bytes) | RecvErr (e : Z).
Inductive send_res := SendLen (n : Z) | SendErr (e : Z).

Definition EINTR := 4.
Definition EAGAIN := 11.

(** The loop of [gfs_net_tcp_recv]: the result, the buffer, whether [t_end] was
    renewed, and the rest of the script.  A script that runs out is a call that
    never returns. *)
Fixpoint gfs_net_tcp_recv (script : list recv_res) (buf : netbuf) :
    option (Z * netbuf * bool * list recv_res) :=
  let remain := i32 (nb_len buf - nb_pos buf) in
  if remain <=? 0 then Some (GFS_NET_OUTOF_MEMORY, buf, true, script)
  else match script with
       | [] => None
       | RecvData [] :: script => Some (GFS_NET_CLOSE, buf, false, script)
       | RecvData l :: script =>
           if remain <? Z.of_nat (length l) then None else
           d ← st_bytes (Z.to_nat (nb_pos buf)) l (nb_data buf);
           gfs_net_tcp_recv script
             (NetBuf d (nb_len buf) (nb_pos buf + Z.of_nat (length l)) (nb_hd buf))
       | RecvErr e :: script =>
           if e =? EINTR then gfs_net_tcp_recv script buf
           else if e =? EAGAIN then Some (GFS_NET_AGAIN, buf, true, script)
           else Some (GFS_NET_CLOSE, buf, false, script)
       end.

(** The loop of [gfs_net_tcp_send]; the bytes put on the wire are returned
    too. *)
Fixpoint gfs_net_tcp_send (script : list send_res) (buf : netbuf) :
    option (Z * netbuf * bytes * list send_res) :=
  let remain := i32 (nb_pos buf - nb_hd buf) in
  if remain <=? 0 then Some (GFS_OK, buf, [], script)
  else match script with
       | [] => None
       | SendLen n :: script =>
           if (n <? 0) || (remain <? n) then None else
           v ← ld_bytes (Z.to_nat n) (Z.to_nat (nb_hd buf)) (nb_data buf);
           '(r, buf', out, script') ← gfs_net_tcp_send script
             (NetBuf (nb_data buf) (nb_len buf) (nb_pos buf) (nb_hd buf + n));
           Some (r, buf', v ++ out, script')
       | SendErr e :: script =>
           if e =? EINTR then gfs_net_tcp_send script buf
           else if e =? EAGAIN then Some (GFS_NET_AGAIN, buf, [], script)
           else Some (GFS_NET_CLOSE, buf, [], script)
       end.

(** ** [gfs_handle_tcp_parse] *)

(** The [memmove] that ends the packet loop and the send handler: what lies
    between [hd] and [pos] moves to the front; if [hd] were behind [pos] its length
    would be huge. *)
Definition buf_compact (buf : netbuf) : option netbuf :=
  if nb_pos buf <? nb_hd buf then None else
  v ← ld_bytes (Z.to_nat (nb_pos buf - nb_hd buf)) (Z.to_nat (nb_hd buf)) (nb_data buf);
  d ← st_bytes 0 v (nb_data buf);
  Some (NetBuf d (nb_len buf) (nb_pos buf - nb_hd buf) 0).

(** Where the receive buffer of a connection lives in the state [S]: the packet
    loop shares it with the handlers it calls. *)
Record rbuf_ops (S : Type) := RbufOps {
  rb_get : S → option netbuf; rb_set : netbuf → S → S;
  rb_get_set : ∀ b st, is_Some (rb_get st) → rb_get (rb_set b st) = Some b }.
Arguments rb_get {S}. Arguments rb_set {S}. Arguments rb_get_set {S}.

Section handle.
(** [busi] is [gfs_busi_handle], which works on the state [S]. *)
Context {S : Type} (o : rbuf_ops S) (busi : bytes → M S Z).

Definition get_rbuf : M S netbuf := getsM (rb_get o).
Definition set_rbuf (b : netbuf) : M S unit := modify (rb_set o b).

(** The [while (1)] loop; [true] means it left through [break]. *)
Fixpoint parse_loop (fuel : nat) : M S bool :=
  match fuel with
  | O => ub
  | Datatypes.S fuel =>
      rbuf ← get_rbuf;
      match gfs_net_packet_parse_tcp rbuf with
      | None => ub
      | Some (rtn, packet) =>
          set_rbuf (NetBuf (nb_data rbuf) (nb_len rbuf) (nb_pos rbuf) (nb_hd rbuf + rtn));;
          match packet with
          | None => mret true
          | Some (off, plen) =>
              match ld_bytes (Z.to_nat plen) (Z.to_nat off) (nb_data rbuf) with
              | None => ub
              | Some p =>
                  ret ← busi p;
                  if negb (ret =? GFS_OK) then mret false else parse_loop fuel
              end
          end
      end
  end.

Definition gfs_handle_tcp_parse (fuel : nat) : M S Z :=
  broke ← parse_loop fuel;
  if negb broke then mret GFS_OK else
  rbuf ← get_rbuf;
  if (nb_pos rbuf <? nb_hd rbuf) || (nb_len rbuf <? nb_pos rbuf) || (nb_len rbuf <? nb_hd rbuf)
  then set_rbuf (NetBuf (nb_data rbuf) (nb_len rbuf) 0 0);; mret GFS_OK
  else match buf_compact rbuf with
       | None => ub
       | Some rbuf => set_rbuf rbuf;; mret GFS_OK
       end.
End handle.

(** ** The scanner *)

(** A buffer as the code keeps it: the counters are in order and the block has
    the size recorded. *)
Definition buf_ok (b : netbuf) : Prop :=
  0 ≤ nb_hd b ≤ nb_pos b ∧ nb_pos b ≤ nb_len b < 2 ^ 31 ∧ length (nb_data b) = Z.to_nat (nb_len b).

(** Number of unread bytes. *)
Definition buf_size (b : netbuf) : Z := nb_pos b - nb_hd b.

Lemma buf_size_u32 b : buf_ok b → u32 (nb_pos b - nb_hd b) = buf_size b.
Proof. intros (H1 & H2 & _). apply u32_small. unfold is_u32, buf_size. lia. Qed.

(** The scan drops everything from a point where every turn skips a byte. *)
Lemma packet_scan_skip fuel buf rtn len type :
  buf_ok buf → 0 ≤ rtn →
  ld_be32 (nb_data buf) (nb_hd buf) = Some len → ld_be32 (nb_data buf) (nb_hd buf + 8) = Some type →
  (len < 16 ∨ 2048 < len ∨ nb_pos buf < nb_len buf ∧ buf_size buf < rtn + len) → rtn ≤ buf_size buf →
  (Z.to_nat (buf_size buf - rtn) < fuel)%nat →
  packet_scan fuel buf rtn = Some (buf_size buf, None).
Proof.
  intros Hok Hrtn Hlen Htype Hcase. revert rtn Hrtn Hcase.
  induction fuel as [|fuel IH]; intros rtn Hrtn Hcase Hle Hf; [lia|]. simpl.
  rewrite (buf_size_u32 _ Hok).
  destruct (Z.ltb_spec (nb_hd buf + rtn) (nb_pos buf)); [|done].
  rewrite Hlen. simpl. rewrite Htype. simpl.
  assert (rtn + 1 ≤ buf_size buf) by (unfold buf_size in *; lia).
  destruct ((2048 <? len) || (len <? 16)) eqn:Hinv.
  - apply IH; [lia| |done|lia]. apply orb_true_iff in Hinv. lia.
  - apply orb_false_iff in Hinv as [Hinv1 Hinv2].
    destruct Hcase as [|[|[Hpos Hsz]]]; [lia|lia|].
    pose proof Hok as (Hok1 & Hok2 & _). rewrite u32_small by (unfold is_u32, buf_size in *; lia).
    destruct (Z.ltb_spec (buf_size buf) (rtn + len)); [|lia].
    destruct (Z.ltb_spec (nb_pos buf) (nb_len buf)); [|lia].
    apply IH; [lia| |done|lia]. lia.
Qed.

Lemma packet_front buf len type :
  buf_ok buf → ld_be32 (nb_data buf) (nb_hd buf) = Some len →
  ld_be32 (nb_data buf) (nb_hd buf + 8) = Some type →
  16 ≤ len ≤ 2048 → len ≤ buf_size buf →
  ld_be32 (nb_data buf) (nb_hd buf + len - 4) = Some 0 →
  gfs_net_packet_parse_tcp buf = Some (len, Some (nb_hd buf, len)).
Proof.
  intros Hok Hlen Htype Hl Hsz Hsep. unfold gfs_net_packet_parse_tcp. simpl.
  rewrite (buf_size_u32 _ Hok), Z.add_0_r. unfold buf_size in *.
  destruct (Z.ltb_spec (nb_hd buf) (nb_pos buf)); [|lia].
  rewrite Hlen. simpl. rewrite Htype. simpl.
  destruct (Z.ltb_spec 2048 len); [lia|]. destruct (Z.ltb_spec len 16); [lia|]. simpl.
  rewrite Z.add_0_l, u32_small by (unfold is_u32; lia).
  destruct (Z.ltb_spec (nb_pos buf - nb_hd buf) len); [lia|]. by rewrite Hsep.
Qed.

(** A packet that is complete at the front of the buffer (its length word
    is valid and covered by the data, and it ends in a zero word) is the
    packet returned, and exactly its bytes are consumed. *)
Theorem gfs_net_packet_parse_tcp_complete buf len type :
  buf_ok buf → ld_be32 (nb_data buf) (nb_hd buf) = Some len →
  ld_be32 (nb_data buf) (nb_hd buf + 8) = Some type →
  16 ≤ len ≤ 2048 → len ≤ buf_size buf →
  ld_be32 (nb_data buf) (nb_hd buf + len - 4) = Some 0 →
  gfs_net_packet_parse_tcp buf = Some (len, Some (nb_hd buf, len)).
Proof. apply packet_front. Qed.

(** A packet of which only a part has been received is thrown away: as
    long as the buffer has room the scan consumes all the data. *)
Theorem gfs_net_packet_parse_tcp_partial_lost buf len type :
  buf_ok buf → ld_be32 (nb_data buf) (nb_hd buf) = Some len →
  ld_be32 (nb_data buf) (nb_hd buf + 8) = Some type →
  16 ≤ len ≤ 2048 → buf_size buf < len → nb_pos buf < nb_len buf →
  gfs_net_packet_parse_tcp buf = Some (buf_size buf, None).
Proof.
  intros Hok Hlen Htype Hl Hsz Hpos. unfold gfs_net_packet_parse_tcp.
  pose proof Hok as (H1 & _). eapply packet_scan_skip; [done|lia|done|done|lia| |]; unfold buf_size; lia.
Qed.

(** The consumed bytes and the packet stay inside the data. *)
Lemma packet_scan_bounds fuel buf rtn r p :
  buf_ok buf → 0 ≤ rtn ≤ buf_size buf → packet_scan fuel buf rtn = Some (r, p) →
  rtn ≤ r ≤ buf_size buf ∧
  (∀ off len, p = Some (off, len) →
     nb_hd buf + rtn ≤ off ∧ off + len = nb_hd buf + r ∧ 16 ≤ len ≤ 2048 ∧
     ld_be32 (nb_data buf) (off + len - 4) = Some 0).
Proof.
  intros Hok. revert rtn. induction fuel as [|fuel IH]; intros rtn Hrtn; simpl; [done|].
  pose proof Hok as (Hok1 & Hok2 & _). rewrite (buf_size_u32 _ Hok).
  destruct (Z.ltb_spec (nb_hd buf + rtn) (nb_pos buf)) as [Hlt|]; [|intros [= <- <-]; unfold buf_size in *; by split; [lia|]].
  destruct (ld_be32 (nb_data buf) (nb_hd buf)) as [len|] eqn:Hlen; [|done]. simpl.
  destruct (ld_be32 (nb_data buf) (nb_hd buf + 8)) as [type|]; [|done]. simpl.
  assert (packet_scan fuel buf (rtn + 1) = Some (r, p) →
    rtn ≤ r ≤ buf_size buf ∧ (∀ off len, p = Some (off, len) →
      nb_hd buf + rtn ≤ off ∧ off + len = nb_hd buf + r ∧ 16 ≤ len ≤ 2048 ∧
      ld_be32 (nb_data buf) (off + len - 4) = Some 0)) as Hskip.
  { intros H. destruct (IH (rtn + 1)) as [Hb Hp]; [unfold buf_size in *; lia|done|]. split; [lia|].
    intros off l Hpk. destruct (Hp _ _ Hpk) as (? & ? & ? & ?). split_and!; try done; lia. }
  destruct ((2048 <? len) || (len <? 16)) eqn:Hinv; [done|].
  apply orb_false_iff in Hinv as [Hinv1 Hinv2].
  rewrite u32_small by (unfold is_u32, buf_size in *; lia).
  destruct (Z.ltb_spec (buf_size buf) (rtn + len)).
  - destruct (nb_pos buf <? nb_len buf); [done|]. destruct (nb_pos buf =? nb_len buf);
      intros [= <- <-]; unfold buf_size in *; by split; [lia|].
  - destruct (ld_be32 (nb_data buf) (nb_hd buf + rtn + len - 4)) as [sprt|] eqn:Hs; [|done]. simpl.
    destruct (Z.eqb_spec sprt 0); [|done]. intros [= <- <-]. subst. split; [lia|].
    intros off l [= <- <-]. split_and!; [lia|lia|lia|lia|done].
Qed.

(** Whatever the bytes, what [gfs_net_packet_parse_tcp] consumes and the
    packet it returns lie between [hd] and [pos], and the packet has a length
    between 16 and 2048 and ends in a zero word. *)
Theorem gfs_net_packet_parse_tcp_bounds buf r p :
  buf_ok buf → gfs_net_packet_parse_tcp buf = Some (r, p) →
  0 ≤ r ≤ buf_size buf ∧
  (∀ off len, p = Some (off, len) →
     nb_hd buf ≤ off ∧ off + len = nb_hd buf + r ∧ 16 ≤ len ≤ 2048 ∧
     ld_be32 (nb_data buf) (off + len - 4) = Some 0).
Proof.
  intros Hok H. pose proof Hok as (Hok1 & _).
  apply packet_scan_bounds in H as [Hr Hp]; [|done|unfold buf_size; lia]. split; [done|]. intros off len Hpk. rewrite <- (Z.add_0_r (nb_hd buf)) at 1. eauto.
Qed.

(** ** A stream of packets *)

Lemma buf_compact_empty d len pos :
  (Z.to_nat pos ≤ length d)%nat → buf_compact (NetBuf d len pos pos) = Some (NetBuf d len 0 0).
Proof.
  intros H. unfold buf_compact, ld_bytes, st_bytes. cbn [nb_data nb_len nb_pos nb_hd]. rewrite Z.ltb_irrefl.
  rewrite Z.sub_diag. rewrite decide_True by (change (Z.to_nat 0) with 0%nat; lia).
  cbn [mbind option_bind]. change (Z.to_nat 0) with 0%nat. rewrite take_0.
  rewrite decide_True by (cbn [length]; lia). by rewrite take_0, drop_0.
Qed.

Definition wf_packet (p : bytes) : Prop :=
  is_bytes p ∧ 16 ≤ Z.of_nat (length p) ≤ 2048 ∧
  be_val (take 4 p) = Z.of_nat (length p) ∧ drop (length p - 4) p = [0; 0; 0; 0].

Lemma ld_be32_mid b pre v post off :
  b = pre ++ v ++ post → length v = 4%nat → is_bytes v → off = Z.of_nat (length pre) →
  ld_be32 b off = Some (be_val v).
Proof.
  intros -> Hl Hv ->. unfold ld_be32. destruct (Z.ltb_spec (Z.of_nat (length pre)) 0); [lia|].
  unfold ldn. rewrite Nat2Z.id, ld_bytes_mid by done. simpl. f_equal.
  unfold ntohl. rewrite <- Hl. by apply bswap_le_val.
Qed.

(** The words of a packet inside a block. *)
Lemma ld_be32_packet b pre p post k :
  b = pre ++ p ++ post → is_bytes p → (k + 4 ≤ length p)%nat →
  ld_be32 b (Z.of_nat (length pre + k)) = Some (be_val (take 4 (drop k p))).
Proof.
  intros -> Hp Hk. eapply (ld_be32_mid _ (pre ++ take k p) _ (drop 4 (drop k p) ++ post)).
  - rewrite <- app_assoc. f_equal. rewrite !app_assoc. f_equal.
    rewrite <- app_assoc, take_drop. symmetry. apply take_drop.
  - rewrite length_take, length_drop. lia.
  - by apply Forall_take, Forall_drop.
  - rewrite length_app, length_take. lia.
Qed.

Lemma parse_packet_front buf pre p post :
  buf_ok buf → nb_data buf = pre ++ p ++ post → nb_hd buf = Z.of_nat (length pre) →
  wf_packet p → Z.of_nat (length p) ≤ buf_size buf →
  gfs_net_packet_parse_tcp buf = Some (Z.of_nat (length p), Some (nb_hd buf, Z.of_nat (length p))).
Proof.
  intros Hok Hd Hh (Hb & Hl & Hlen & Hsep) Hsz.
  pose proof (ld_be32_packet _ _ _ _ 0 Hd Hb ltac:(lia)) as H0. rewrite drop_0, Hlen in H0.
  pose proof (ld_be32_packet _ _ _ _ 8 Hd Hb ltac:(lia)) as H8.
  pose proof (ld_be32_packet _ _ _ _ (length p - 4) Hd Hb ltac:(lia)) as H4. rewrite Hsep in H4.
  rewrite Nat.add_0_r, <- Hh in H0.
  apply (packet_front buf _ (be_val (take 4 (drop 8 p)))); try done; try lia.
  - rewrite <- H8. f_equal. lia.
  - rewrite Hh. replace (Z.of_nat (length pre) + Z.of_nat (length p) - 4)
      with (Z.of_nat (length pre + (length p - 4))) by lia. done.
Qed.

Section stream.
Context {S : Type} (o : rbuf_ops S) (busi : bytes → M S Z).

(** Handling packets one after the other, all successfully and without
    touching the receive buffer, in which [hd] has already moved past the
    packet. *)
Fixpoint busi_all (buf : netbuf) (ps : list bytes) (st : S) : option S :=
  match ps with
  | [] => Some st
  | p :: ps =>
      let buf' := NetBuf (nb_data buf) (nb_len buf) (nb_pos buf) (nb_hd buf + Z.of_nat (length p)) in
      '(ret, st') ← busi p (rb_set o buf' st);
      if (ret =? GFS_OK) && bool_decide (rb_get o st' = Some buf') then busi_all buf' ps st' else None
  end.

Lemma parse_loop_stream ps fuel buf pre post st st' :
  rb_get o st = Some buf →
  buf_ok buf → nb_data buf = pre ++ concat ps ++ post → nb_hd buf = Z.of_nat (length pre) →
  buf_size buf = Z.of_nat (length (concat ps)) → Forall wf_packet ps →
  busi_all buf ps st = Some st' → (length ps < fuel)%nat →
  ∃ buf', rb_get o st' = Some buf' ∧
    buf' = NetBuf (nb_data buf) (nb_len buf) (nb_pos buf) (nb_pos buf) ∧
    parse_loop o busi fuel st = Some (true, rb_set o buf' st').
Proof.
  revert fuel buf pre st. induction ps as [|p ps IH];
    intros [|fuel] buf pre st Hg Hok Hd Hh Hsz Hps Hall Hf; try (simpl in Hf; lia); simpl in *.
  - injection Hall as <-.
    assert (nb_pos buf = nb_hd buf) as Hpos by (unfold buf_size in Hsz; lia).
    assert (gfs_net_packet_parse_tcp buf = Some (0, None)) as Hp.
    { unfold gfs_net_packet_parse_tcp. simpl.
      destruct (Z.ltb_spec (nb_hd buf + 0) (nb_pos buf)); [lia|]. by rewrite Hpos, Z.sub_diag. }
    eexists; split; [exact Hg|]. split; [destruct buf; simpl in *; by subst|].
    rewrite (M_bind_Some _ _ _ buf st) by (unfold get_rbuf, getsM; by rewrite Hg).
    rewrite Hp, Z.add_0_r. by destruct buf.
  - inversion Hps as [|? ? Hp Hps']; subst. pose proof Hp as (Hb & Hl & _).
    rewrite length_app in Hsz. rewrite <- app_assoc in Hd.
    destruct (busi p _) as [[ret st1]|] eqn:Hbusi in Hall; [|done]. simpl in Hall.
    destruct (Z.eqb_spec ret GFS_OK) as [->|]; [|done]. simpl in Hall.
    case_bool_decide as Hg1; [|done].
    edestruct (IH fuel _ (pre ++ p) st1 Hg1) as (buf' & Hg' & Hbuf' & Hrun); try done; simpl; try lia.
    + destruct Hok as (H1 & H2 & H3). unfold buf_size in *. split_and!; simpl; try done; lia.
    + by rewrite <- app_assoc.
    + rewrite length_app. lia.
    + unfold buf_size in *. simpl. lia.
    + exists buf'. split; [done|]. split; [done|].
      rewrite (M_bind_Some _ _ _ buf st) by (unfold get_rbuf, getsM; by rewrite Hg).
      rewrite (parse_packet_front buf pre p (concat ps ++ post) Hok Hd Hh Hp) by lia.
      unfold set_rbuf at 1. rewrite (M_bind_Some _ _ _ tt (rb_set o _ st)) by done.
      rewrite Hh, !Nat2Z.id, Hd, ld_bytes_mid by done. rewrite <- Hd, <- Hh.
      by rewrite (M_bind_Some _ _ _ GFS_OK st1 Hbusi).
Qed.
(** When the received data are complete packets, [gfs_handle_tcp_parse]
    hands each of them to [gfs_busi_handle], once and in order, and leaves the
    buffer empty. *)
Theorem gfs_handle_tcp_parse_stream ps fuel buf pre post st st' :
  rb_get o st = Some buf →
  buf_ok buf → nb_data buf = pre ++ concat ps ++ post → nb_hd buf = Z.of_nat (length pre) →
  buf_size buf = Z.of_nat (length (concat ps)) → Forall wf_packet ps →
  busi_all buf ps st = Some st' → (length ps < fuel)%nat →
  let drained := NetBuf (nb_data buf) (nb_len buf) (nb_pos buf) (nb_pos buf) in
  gfs_handle_tcp_parse o busi fuel st =
    Some (GFS_OK, rb_set o (NetBuf (nb_data buf) (nb_len buf) 0 0) (rb_set o drained st')).
Proof.
  intros Hg Hok Hd Hh Hsz Hps Hall Hf drained. unfold gfs_handle_tcp_parse.
  destruct (parse_loop_stream ps fuel buf pre post st st') as (buf' & Hg' & -> & Hrun); try done.
  rewrite (M_bind_Some _ _ _ _ _ Hrun). cbn [negb].
  rewrite (M_bind_Some _ _ _ drained (rb_set o drained st'))
    by (unfold get_rbuf, getsM; rewrite rb_get_set; [done|by eexists]).
  destruct Hok as (H1 & H2 & H3). unfold drained at 1 2 3 4 5 6. cbn [nb_pos nb_hd nb_len].
  destruct (Z.ltb_spec (nb_pos buf) (nb_pos buf)); [lia|].
  destruct (Z.ltb_spec (nb_len buf) (nb_pos buf)); [lia|]. cbn [orb].
  unfold drained. by rewrite buf_compact_empty by lia.
Qed.

(** C27: data that end in the middle of a packet are lost: the packet loop
    empties the buffer without calling [gfs_busi_handle]. *)
Theorem gfs_handle_tcp_parse_fragment_lost fuel buf len type st :
  rb_get o st = Some buf →
  buf_ok buf → ld_be32 (nb_data buf) (nb_hd buf) = Some len →
  ld_be32 (nb_data buf) (nb_hd buf + 8) = Some type →
  16 ≤ len ≤ 2048 → buf_size buf < len → nb_pos buf < nb_len buf →
  let drained := NetBuf (nb_data buf) (nb_len buf) (nb_pos buf) (nb_pos buf) in
  gfs_handle_tcp_parse o busi (Datatypes.S fuel) st =
    Some (GFS_OK, rb_set o (NetBuf (nb_data buf) (nb_len buf) 0 0) (rb_set o drained st)).
Proof.
  intros Hg Hok Hlen Htype Hl Hsz Hpos drained. unfold gfs_handle_tcp_parse.
  pose proof Hok as (H1 & H2 & H3).
  rewrite (M_bind_Some _ _ _ true (rb_set o drained st)).
  2:{ simpl. rewrite (M_bind_Some _ _ _ buf st) by (unfold get_rbuf, getsM; by rewrite Hg).
      unfold gfs_net_packet_parse_tcp.
      rewrite (packet_scan_skip _ buf 0 len type) by (done || (unfold buf_size in *; lia)).
      replace (nb_hd buf + buf_size buf) with (nb_pos buf) by (unfold buf_size; lia). done. }
  cbn [negb].
  rewrite (M_bind_Some _ _ _ drained (rb_set o drained st))
    by (unfold get_rbuf, getsM; rewrite rb_get_set; [done|by eexists]).
  unfold drained at 1 2 3 4 5 6. cbn [nb_pos nb_hd nb_len].
  destruct (Z.ltb_spec (nb_pos buf) (nb_pos buf)); [lia|].
  destruct (Z.ltb_spec (nb_len buf) (nb_pos buf)); [lia|]. cbn [orb].
  unfold drained. by rewrite buf_compact_empty by lia.
Qed.
End stream.
