(* ===== verification/Sql.v ===== *)
(** The database layer of the name service: the connection pool of
    sql/gfs_dbpool.c and the queries of sql/gfs_sql.c.

    The MySQL client library is the parameter [Mysql]: [mysql_query] runs a
    statement text against the database and says what the library reports
    afterwards, [my_connect] opens a connection.  A row is the list of its
    column strings. *)
From Stdlib Require Import (notations) String.
From S2P Require Import Prelude Bytes Text.

(** One result of a statement: a result set with its rows and the [errno] after
    its last row, or no set, with [mysql_field_count]. *)
Inductive sql_set := RSet (rows : list (list bytes)) (fetch_errno : Z) | RNone (field_count : Z).
Record sql_reply := Reply {
  q_err : Z;           (** 0, or [mysql_errno] when [mysql_query] fails *)
  q_affected : Z;      (** [mysql_affected_rows]; [2^64 - 1] is an error *)
  q_sets : list sql_set }.

Class Mysql (D : Type) := {
  mysql_query : bytes → D → sql_reply * D;
  my_connect : D → option (Z * D) }.

Definition SQL_OK := 0.
Definition SQL_EMPTY := -1.
Definition SQL_ARGS_ERR := 1.
Definition SQL_QUERY_ERR := 2.
Definition SQL_FETCH_ERR := 3.
Definition SQL_POOL_ERR := 4.
Definition SQL_INSERT_EXISTS := 5.
Definition SQL_ERROR := 6.
Definition SQL_FILE_NOT_EXIST := 20.
Definition SQL_FILE_EXIT_COMPLETE := 13.
Definition SQL_BLOCK_NOT_EXIST := 21.
Definition SQL_BLOCK_EXIST := 12.
Definition CR_SERVER_LOST := 2013.

(** [gfs_sql_block_t] *)
Record sql_block := SqlBlock { sb_bindex : Z; sb_dsid : Z; sb_fid : Z }.

(** A node of the pool: its connection and its [used] flag. *)
Record sql_conn := SqlConn { sc_conn : Z; sc_used : Z }.

(** The pool, the database and the page counters of sql/gfs_sql.c. *)
Record sqlst (D : Type) := SqlSt {
  sq_conn : list sql_conn; sq_conn_num : Z; sq_used_num : Z;
  sq_cpy_pages : Z; sq_del0_pages : Z; sq_del1_pages : Z; sq_db : D }.
Arguments SqlSt {D}. Arguments sq_conn {D}. Arguments sq_conn_num {D}.
Arguments sq_used_num {D}. Arguments sq_cpy_pages {D}. Arguments sq_del0_pages {D}.
Arguments sq_del1_pages {D}. Arguments sq_db {D}.

Section sql.
Context {D : Type} `{!Mysql D}.
Local Abbreviation SM := (M (sqlst D)).

Definition set_pool (conn : list sql_conn) (conn_num used_num : Z) : SM unit :=
  modify (λ st, SqlSt conn conn_num used_num (sq_cpy_pages st) (sq_del0_pages st)
                      (sq_del1_pages st) (sq_db st)).
Definition set_pages (cpy del0 del1 : Z) : SM unit :=
  modify (λ st, SqlSt (sq_conn st) (sq_conn_num st) (sq_used_num st) cpy del0 del1 (sq_db st)).
Definition set_db (d : D) : SM unit :=
  modify (λ st, SqlSt (sq_conn st) (sq_conn_num st) (sq_used_num st) (sq_cpy_pages st)
                      (sq_del0_pages st) (sq_del1_pages st) d).

(** [gfs_connect_to] *)
Definition gfs_connect_to : SM (option Z) :=
  st ← get;
  match my_connect (sq_db st) with
  | None => mret None
  | Some (c, d) => set_db d;; mret (Some c)
  end.

(** [gfs_mysql_pool_create]: the loop that opens [n] connections. *)
Fixpoint pool_fill (n : nat) : SM bool :=
  match n with
  | O => mret true
  | S n =>
      c ← gfs_connect_to;
      match c with
      | None => mret false
      | Some c =>
          st ← get;
          set_pool (SqlConn c 0 :: sq_conn st) (sq_conn_num st + 1) (sq_used_num st);;
          pool_fill n
      end
  end.
Definition gfs_mysql_pool_create (conn : nat) : SM bool := set_pool [] 0 0;; pool_fill conn.

(** [gfs_mysql_get] *)
Definition gfs_mysql_get : SM (option sql_conn) :=
  st ← get;
  match sq_conn st with
  | c :: rest =>
      if negb (sq_conn_num st =? 0) then
        set_pool rest (sq_conn_num st - 1) (sq_used_num st + 1);; mret (Some c)
      else mret None
  | [] => mret None
  end.

(** [gfs_mysql_put]: a node marked [used] is replaced by a new connection. *)
Definition gfs_mysql_put (c : sql_conn) : SM Z :=
  node ← (if sc_used c =? 1 then
            n ← gfs_connect_to; mret ((λ id, SqlConn id 0) <$> n)
          else mret (Some c));
  match node with
  | None => mret (-1)
  | Some c =>
      st ← get;
      set_pool (SqlConn (sc_conn c) 0 :: sq_conn st) (sq_conn_num st + 1) (sq_used_num st - 1);;
      mret 0
  end.

Definition gfs_mysql_pool_current_num : SM Z := gets sq_conn_num.

(** The start every query function shares: take a connection, print the
    statement into a buffer of [cap] bytes (a longer text is written past its
    end), run it, and on an error give the connection back and return the code
    [err].  [fail] makes the result for an error code and [k] goes on with the
    connection and the reply. *)
Definition run_query {A} (cap : Z) (text : bytes) (err : Z) (fail : Z → A)
    (k : sql_conn → sql_reply → SM A) : SM A :=
  c ← gfs_mysql_get;
  match c with
  | None => mret (fail SQL_POOL_ERR)
  | Some c =>
      if cap <? Z.of_nat (length text) + 1 then ub else
      st ← get;
      let '(q, d) := mysql_query text (sq_db st) in
      set_db d;;
      if negb (q_err q =? 0) then
        gfs_mysql_put (SqlConn (sc_conn c) (if q_err q =? CR_SERVER_LOST then 1 else sc_used c));;
        mret (fail err)
      else k c q
  end.

Definition comma : bytes := lit ", ".
Definition code (z : Z) : Z := z.

(** [gfs_mysql_login] *)
Definition login_query (dsid dsize remain : Z) : bytes :=
  lit "call ds_login(" ++ fmt_u dsid ++ comma ++ fmt_u dsize ++ comma ++ fmt_u remain ++ lit ")".
Definition gfs_mysql_login (dsid dsize remain : Z) : SM Z :=
  run_query 64 (login_query dsid dsize remain) SQL_QUERY_ERR code (λ c q,
    let rtn := if q_affected q =? 0 then SQL_INSERT_EXISTS
               else if q_affected q =? 2 ^ 64 - 1 then SQL_QUERY_ERR else SQL_OK in
    gfs_mysql_put c;; mret rtn).

(** A column of a row; a missing one is a wild read. *)
Definition col (row : list bytes) (i : nat) : SM bytes :=
  match row !! i with Some s => mret s | None => ub end.

(** [gfs_mysql_upload]: the return value, [*status] and [*fid]; [rtn] is
    uninitialised when the fetch fails with an error, which is undefined. *)
Definition upload_query (fhash : bytes) (fsize bnum bindex : Z) : bytes :=
  lit "call upload_file('" ++ fhash ++ lit "', " ++ fmt_u fsize ++ comma ++ fmt_u bnum ++
  comma ++ fmt_d bindex ++ lit ")".
Definition gfs_mysql_upload (fhash : bytes) (fsize bnum bindex fid : Z) : SM (Z * Z * Z) :=
  run_query 128 (upload_query fhash fsize bnum bindex) SQL_ARGS_ERR (λ e, (e, -1, fid)) (λ c q,
    r ← match q_sets q with
        | RSet (row :: _) _ :: _ =>
            s ← col row 0; f ← col row 1; mret (SQL_OK, atoi s, u64 (atoll f))
        | RSet [] e :: _ => if e =? 0 then mret (SQL_EMPTY, -1, fid) else ub
        | _ => mret (SQL_FETCH_ERR, -1, fid)
        end;
    gfs_mysql_put c;; mret r).

(** [gfs_mysql_delfile], [gfs_mysql_delblock], [gfs_mysql_cpyblock] and
    [gfs_mysql_set_deling] *)
Definition delfile_query (fhash : bytes) : bytes := lit "call delete_file('" ++ fhash ++ lit "')".
Definition gfs_mysql_delfile (fhash : bytes) : SM Z :=
  run_query 64 (delfile_query fhash) SQL_ARGS_ERR code (λ c q,
    gfs_mysql_put c;; mret (if q_affected q =? 0 then SQL_FILE_NOT_EXIST else SQL_OK)).

Definition block_query (proc : bytes) (fid bindex dsid : Z) : bytes :=
  lit "call " ++ proc ++ lit "(" ++ fmt_u fid ++ comma ++ fmt_d (i32 bindex) ++ comma ++
  fmt_u dsid ++ lit ")".
Definition gfs_mysql_delblock (fid bindex dsid : Z) : SM Z :=
  run_query 64 (block_query (lit "delete_block") fid bindex dsid) SQL_ARGS_ERR code (λ c q,
    gfs_mysql_put c;; mret SQL_OK).
Definition gfs_mysql_cpyblock (fid bindex dsid : Z) : SM Z :=
  run_query 64 (block_query (lit "copy_block") fid bindex dsid) SQL_ARGS_ERR code (λ c q,
    gfs_mysql_put c;; mret (if q_affected q =? 0 then SQL_FILE_NOT_EXIST else SQL_OK)).
Definition gfs_mysql_set_deling (fid bindex dsid : Z) : SM Z :=
  run_query 64 (block_query (lit "set_del_ing") fid bindex dsid) SQL_ARGS_ERR code (λ c q,
    gfs_mysql_put c;; mret (if q_affected q =? 0 then SQL_BLOCK_NOT_EXIST else SQL_OK)).

(** [gfs_mysql_getfsize]: [*fsize] is read with [atoi] and stored as 64 bits. *)
Definition getfsize_query (fhash : bytes) : bytes := lit "call get_fsize('" ++ fhash ++ lit "')".
Definition gfs_mysql_getfsize (fhash : bytes) : SM (Z * option Z) :=
  run_query 128 (getfsize_query fhash) SQL_ARGS_ERR (λ e, (e, None)) (λ c q,
    r ← match q_sets q with
        | RSet (row :: _) _ :: _ => s ← col row 0; mret (SQL_OK, Some (u64 (atoi s)))
        | RSet [] e :: _ => if e =? 0 then mret (SQL_EMPTY, None) else ub
        | _ => mret (SQL_FETCH_ERR, None)
        end;
    gfs_mysql_put c;; mret r).

(** The rows of [gfs_mysql_download] as blocks; [fid] is not filled in. *)
Fixpoint fetch_blocks (rows : list (list bytes)) : SM (list sql_block) :=
  match rows with
  | [] => mret []
  | row :: rows =>
      b ← col row 0; d ← col row 1; t ← fetch_blocks rows;
      mret (SqlBlock (atoi b) (u32 (atoi d)) 0 :: t)
  end.

(** The results of [gfs_mysql_download]: [rtn], [*fid] and [*blist], whose
    length is [*bnum]; a null [*blist] has no blocks. *)
Record download_out := DownloadOut { do_rtn : Z; do_fid : Z; do_blist : list sql_block }.

(** The [do ... while] over the result sets.  [malloc] says whether an
    allocation of a size succeeds.  The index [i] is not reset, so a second
    set of blocks would leave entries uninitialised: undefined. *)
Fixpoint download_loop (malloc : Z → bool) (sets : list sql_set) (res_index : Z)
    (out : download_out) : SM download_out :=
  match sets with
  | [] => mret out
  | RSet rows fe :: sets =>
      if res_index <? 1 then
        match rows with
        | row :: _ =>
            f ← col row 0;
            download_loop malloc sets (res_index + 1)
              (DownloadOut SQL_OK (u64 (atoll f)) (do_blist out))
        | [] =>
            if fe =? 0 then mret (DownloadOut SQL_EMPTY (do_fid out) (do_blist out))
            else download_loop malloc sets (res_index + 1) out
        end
      else
        let num := Z.of_nat (length rows) in
        if num =? 0 then mret out
        else if negb (malloc (num * 16)) then mret out
        else if 1 <? res_index then ub
        else
          bl ← fetch_blocks rows;
          download_loop malloc sets (res_index + 1) (DownloadOut (do_rtn out) (do_fid out) bl)
  | RNone fc :: sets =>
      if fc =? 0 then download_loop malloc sets res_index out else mret out
  end.

Definition download_query (fhash : bytes) (bindex : Z) : bytes :=
  lit "call download_file('" ++ fhash ++ lit "', " ++ fmt_d (i32 bindex) ++ lit ")".
Definition gfs_mysql_download (malloc : Z → bool) (fhash : bytes) (bindex fid : Z) :
    SM download_out :=
  run_query 64 (download_query fhash bindex) SQL_ARGS_ERR (λ e, DownloadOut e fid [])
    (λ c q,
      out ← download_loop malloc (q_sets q) 0 (DownloadOut SQL_ERROR fid []);
      gfs_mysql_put c;; mret out).

(** The rows of the two queries behind the notices. *)
Fixpoint fetch_notice (rows : list (list bytes)) : SM (list sql_block) :=
  match rows with
  | [] => mret []
  | row :: rows =>
      f ← col row 0; b ← col row 1; d ← col row 2; t ← fetch_notice rows;
      mret (SqlBlock (atoi b) (u32 (atoi d)) (u64 (atoi f)) :: t)
  end.

(** The common part of [gfs_mysql_get_delblock] and [gfs_mysql_get_cpyblock]:
    no row turns the page counter back to 0, rows advance it; more rows than
    the [50] entries of the caller's array are written past its end. *)
Definition notice_rows (pages : Z) (set_page : Z → SM unit) (q : sql_reply) :
    SM (Z * list sql_block) :=
  match q_sets q with
  | RSet rows _ :: _ =>
      set_page (if Z.of_nat (length rows) =? 0 then 0 else pages + 1);;
      if 50 <? Z.of_nat (length rows) then ub else
      bl ← fetch_notice rows; mret (SQL_OK, bl)
  | _ => mret (SQL_FETCH_ERR, [])
  end.

Definition delblock_query (opt copies pages : Z) : bytes :=
  lit "call get_del_block(" ++ fmt_d opt ++ comma ++ fmt_d (i32 copies) ++ comma ++
  fmt_d pages ++ lit ")".
Definition gfs_mysql_get_delblock (opt copies : Z) : SM (Z * list sql_block) :=
  st ← get;
  if negb ((opt =? 0) || (opt =? 1)) then ub else
  let pages := if opt =? 0 then sq_del0_pages st else sq_del1_pages st in
  let set_page := λ p, if opt =? 0 then set_pages (sq_cpy_pages st) p (sq_del1_pages st)
                       else set_pages (sq_cpy_pages st) (sq_del0_pages st) p in
  run_query 64 (delblock_query opt copies pages) SQL_ARGS_ERR (λ e, (e, [])) (λ c q,
    r ← notice_rows pages set_page q; gfs_mysql_put c;; mret r).

Definition cpyblock_query (copies pages : Z) : bytes :=
  lit "call get_cpy_block(" ++ fmt_d (i32 copies) ++ comma ++ fmt_d pages ++ lit ")".
Definition gfs_mysql_get_cpyblock (copies : Z) : SM (Z * list sql_block) :=
  st ← get;
  let pages := sq_cpy_pages st in
  run_query 64 (cpyblock_query copies pages) SQL_ARGS_ERR (λ e, (e, [])) (λ c q,
    r ← notice_rows pages (λ p, set_pages p (sq_del0_pages st) (sq_del1_pages st)) q;
    gfs_mysql_put c;; mret r).

(** What a query function returns comes from its failure code or from its
    continuation. *)
Lemma run_query_inv {A} cap text err (fail : Z → A) k st x st' :
  run_query cap text err fail k st = Some (x, st') →
  (∃ e, x = fail e) ∨ ∃ c q s, k c q s = Some (x, st').
Proof.
  unfold run_query. intros ([c|] & s1 & _ & Hr)%M_bind_inv; [|injection Hr as <- <-; left; eauto].
  case_match; [done|]. apply M_bind_inv in Hr as (st1 & s2 & _ & Hr). case_match.
  apply M_bind_inv in Hr as (u & s3 & _ & Hr). case_match.
  - apply M_bind_inv in Hr as (u' & s4 & _ & [= <- <-]). left; eauto.
  - right; eauto.
Qed.

Lemma fetch_blocks_range rows st bl st' :
  fetch_blocks rows st = Some (bl, st') →
  Forall (λ b, - 2 ^ 31 ≤ sb_bindex b < 2 ^ 31 ∧ is_u32 (sb_dsid b)) bl.
Proof.
  revert st bl st'. induction rows as [|row rows IH]; intros st bl st'; simpl.
  { intros [= <- <-]. done. }
  intros (b & s1 & _ & Hr)%M_bind_inv. apply M_bind_inv in Hr as (d & s2 & _ & Hr).
  apply M_bind_inv in Hr as (t & s3 & Ht & [= <- <-]). constructor; [|by eapply IH].
  split; [apply i32_range|apply u32_range].
Qed.

(** The file id is a 64-bit number and the block indices are ints. *)
Definition download_out_ok (o : download_out) : Prop :=
  is_u64 (do_fid o) ∧ Forall (λ b, - 2 ^ 31 ≤ sb_bindex b < 2 ^ 31 ∧ is_u32 (sb_dsid b)) (do_blist o).
Lemma download_loop_ok mal sets ri out st out' st' :
  download_out_ok out → download_loop mal sets ri out st = Some (out', st') → download_out_ok out'.
Proof.
  revert ri out st. induction sets as [|[rows fe|fc] sets IH]; intros ri out st Hok; simpl.
  { intros [= <- <-]. done. }
  - case_match.
    + destruct rows as [|row rows].
      * case_match; [|by apply IH]. intros [= <- <-]. split; apply Hok.
      * intros (f & s1 & _ & Hr)%M_bind_inv. eapply IH; [|exact Hr]. split; [apply u64_range|apply Hok].
    + case_match; [intros [= <- <-]; done|]. case_match; [intros [= <- <-]; done|]. case_match; [done|].
      intros (bl & s1 & Hbl & Hr)%M_bind_inv. eapply IH; [|exact Hr].
      split; [apply Hok|by eapply fetch_blocks_range].
  - case_match; [by apply IH|]. intros [= <- <-]. done.
Qed.
Lemma gfs_mysql_download_ok mal h bi fid st out st' :
  is_u64 fid → gfs_mysql_download mal h bi fid st = Some (out, st') → download_out_ok out.
Proof.
  intros Hf [[e ->]|(c & q & s & Hr)]%run_query_inv; [done|].
  apply M_bind_inv in Hr as (o & s1 & Hl & Hr). apply M_bind_inv in Hr as (u & s2 & _ & [= <- <-]).
  by eapply download_loop_ok; [|exact Hl].
Qed.
End sql.
