(* ===== verification/NetMap.v ===== *)
(** The map of data servers: net/gfs_net_map.c.

    A [gfs_map_t] at address [m] has its tree node at [m], its list node at
    [m + 40] and the fields [data] and [next]; it is 72 bytes long.  The four
    static variables of the file are the fields of [netmap]. *)
From S2P Require Import Prelude Queue Rbtree.

Definition GFS_NET_DS_MAPS : Z := 1024.
Definition map_size : Z := 72.
Definition qnode_off : Z := 40.

Record netmap := NetMap {
  nm_tree : rbt;          (** [rbtree] and the tree part of the nodes *)
  nm_queue : qheap;       (** [dslist] and the list part of the nodes *)
  nm_maplist : Z;
  nm_data : gmap Z Z; nm_next : gmap Z Z;
  nm_sort_time : Z }.

Section netmap.
(** The addresses of the static [sentinel] and [dslist], the fuel of the tree
    and list walks, and what memory outside the nodes holds. *)
Context (sentinel dslist : Z) (fuel : nat) (raw : Z → Z).
Local Abbreviation NM := (M netmap).

Definition in_tree {A} (m : M rbt A) : NM A := λ st,
  match m (nm_tree st) with
  | Some (x, t) => Some (x, NetMap t (nm_queue st) (nm_maplist st) (nm_data st) (nm_next st) (nm_sort_time st))
  | None => None
  end.
Definition in_queue {A} (m : M qheap A) : NM A := λ st,
  match m (nm_queue st) with
  | Some (x, q) => Some (x, NetMap (nm_tree st) q (nm_maplist st) (nm_data st) (nm_next st) (nm_sort_time st))
  | None => None
  end.
Definition set_maplist (m : Z) : NM unit :=
  modify (λ st, NetMap (nm_tree st) (nm_queue st) m (nm_data st) (nm_next st) (nm_sort_time st)).
Definition set_data (m d : Z) : NM unit :=
  modify (λ st, NetMap (nm_tree st) (nm_queue st) (nm_maplist st) (<[m := d]> (nm_data st)) (nm_next st) (nm_sort_time st)).
Definition set_mnext (m d : Z) : NM unit :=
  modify (λ st, NetMap (nm_tree st) (nm_queue st) (nm_maplist st) (nm_data st) (<[m := d]> (nm_next st)) (nm_sort_time st)).
Definition set_sort_time (t : Z) : NM unit :=
  modify (λ st, NetMap (nm_tree st) (nm_queue st) (nm_maplist st) (nm_data st) (nm_next st) t).
Definition get_data (m : Z) : NM Z := getsM (λ st, nm_data st !! m).
Definition get_mnext (m : Z) : NM Z := getsM (λ st, nm_next st !! m).

(** [gfs_net_map_init]: [map] is the address of the array, if it could be
    allocated; the loop chains the nodes, the last one first. *)
Fixpoint map_init_loop (n : nat) (m next : Z) : NM Z :=
  match n with
  | O => mret next
  | S n => set_mnext m next;; map_init_loop n (m + map_size) m
  end.
Definition gfs_net_map_init (map : option Z) : NM Z :=
  match map with
  | None => mret GFS_ERR
  | Some map =>
      m ← map_init_loop (Z.to_nat GFS_NET_DS_MAPS) map NULL;
      set_maplist m;;
      in_tree (gfs_rbtree_init sentinel);;
      in_queue (gfs_queue_init dslist);;
      mret GFS_OK
  end.

(** [gfs_net_map_add] *)
Definition gfs_net_map_add (keyid net : Z) : NM Z :=
  maplist ← gets nm_maplist;
  if bool_decide (maplist = NULL) then mret GFS_ERR else
  map ← in_tree (gfs_rbtree_lookup_value fuel sentinel keyid);
  if bool_decide (map ≠ NULL) then
    set_data map net;; mret GFS_OK
  else
    next ← get_mnext maplist;
    set_maplist next;;
    set_data maplist net;;
    in_tree (set_key maplist keyid);;
    in_tree (gfs_rbtree_insert fuel (gfs_rbtree_insert_value fuel) sentinel maplist);;
    in_queue (gfs_queue_insert_tail dslist (maplist + qnode_off));;
    mret GFS_OK.

(** [gfs_net_map_get] *)
Definition gfs_net_map_get (keyid : Z) : NM Z :=
  map ← in_tree (gfs_rbtree_lookup_value fuel sentinel keyid);
  if bool_decide (map ≠ NULL) then get_data map else mret NULL.

(** [gfs_net_map_remove]: the node is unlinked but not given back to
    [maplist]. *)
Definition gfs_net_map_remove (keyid : Z) : NM Z :=
  maplist ← gets nm_maplist;
  if bool_decide (maplist = NULL) then mret GFS_ERR else
  map ← in_tree (gfs_rbtree_lookup_value fuel sentinel keyid);
  whenM (bool_decide (map ≠ NULL))
    (in_tree (gfs_rbtree_delete fuel sentinel map);;
     in_queue (gfs_queue_remove (map + qnode_off)));;
  mret GFS_OK.

(** [gfs_net_ds_cmp] casts the map node itself to a [gfs_net_t]: [user.cfft]
    and [user.weight], at offsets 312 and 316, are the two halves of the
    [parent] pointer of the map node four places further on, or whatever lies
    behind the array. *)
Definition ds_weight (tree : rbt) (q : Z) : Z :=
  let m := q - qnode_off in
  match rb_heap tree !! (m + 4 * map_size) with
  | Some n => u32 (u32 (Z.shiftr (n_parent n) 32) + u32 (n_parent n))
  | None => u32 (raw m)
  end.
Definition gfs_net_ds_cmp (tree : rbt) (qn1 qn2 : Z) : Z :=
  if ds_weight tree qn2 <? ds_weight tree qn1 then 1 else 0.

(** The [for] loop of [gfs_net_map_gettopn]: the [data] of the first [num]
    nodes. *)
Fixpoint topn_loop (n : nat) (q index num : Z) : NM (list Z) :=
  match n with
  | O => ub
  | S n =>
      if bool_decide (q = dslist) then mret [] else
      d ← get_data (q - qnode_off);
      if num <=? index + 1 then mret [d]
      else q ← in_queue (gfs_queue_next q); t ← topn_loop n q (index + 1) num; mret (d :: t)
  end.

(** [gfs_net_map_gettopn pnet num] at time [now]: the return value and the nets
    written to [pnet], whose number is the new [*num]. *)
Definition gfs_net_map_gettopn (now num : Z) : NM (Z * list Z) :=
  if num <? 1 then mret (GFS_ERR, []) else
  st ← get;
  whenM (5 * 60 <=? now - nm_sort_time st)
    (in_queue (gfs_queue_sort fuel (gfs_net_ds_cmp (nm_tree st)) dslist);;
     set_sort_time now);;
  q ← in_queue (gfs_queue_head dslist);
  l ← topn_loop fuel q 0 num;
  mret (GFS_OK, l).
End netmap.
