(* ===== verification/State.v ===== *)
(** The state of the name service: the connections and their pool, the map of
    data servers, the database, the timers and the configuration, and the
    monads the rest of the service runs in. *)
From S2P Require Import Prelude Queue Rbtree Timer Bytes Tools NetBuf Sql NetMap.

(** Constants of core/gfs_config.h. *)
Definition GFS_EVENT_NONE := 0.
Definition GFS_EVENT_READ := 1.
Definition GFS_EVENT_WRITE := 2.
Definition GFS_EVENT_ET := 4.
Definition GFS_NET_READY := 8.
Definition GFS_CONN_TIMEOUT_MS := 3 * 60 * 1000.
Definition GFS_NFD_ERR := 12.
Definition GFS_EPOLL_ERR := 13.
Definition GFS_MEMPOOL_CREATE_ERR := 100.
Definition GFS_MEMPOOL_MALLOC_ERR := 101.
Definition GFS_EVENT_NOEVENTS := 130.
Definition GFS_EVENT_EPOLL_WAIT_INTR := 131.
Definition GFS_NET_LOOP_UNUSED := 143.
Definition GFS_BUSI_ERR := 150.
Definition GFS_BUSI_RTN_OK := 0.
Definition GFS_BUSI_RTN_SYS_ERR := 1.
Definition GFS_BUSI_RTN_PARAN_ERR := 2.
Definition GFS_BUSI_RTN_MSG_FORMAT_ERR := 6.
Definition GFS_BUSI_RTN_UNKNOWN_CLIENT := 7.
Definition GFS_BUSI_RTN_NO_DS_USE := 11.
Definition GFS_BUSI_RTN_BLOCK_EXIST := 12.
Definition GFS_BUSI_RTN_FILE_FINISHED := 13.
Definition GFS_BUSI_RTN_FILE_NOT_EXIST := 20.
Definition GFS_BUSI_RTN_BLOCK_NOT_EXIST := 21.
Definition GFS_BUSI_RTN_BLOCK_TOO_MUCH := 30.
Definition GFS_CLIENT_TYPE_PS := 0.
Definition GFS_CLIENT_TYPE_DS := 1.

(** [gfs_net_data_t], the fields that are used. *)
Record user := User {
  u_ctype : Z; u_dsid : Z; u_resize : Z; u_dsize : Z; u_cfft : Z; u_weight : Z; u_port : Z }.
Definition user0 : user := User 0 0 0 0 0 0 0.

(** [gfs_net_t]; [c_addr] are the four bytes of [addr.sin_addr], [c_ready] and
    [c_flag] belong to its event.  [c_recv] and [c_send] script the socket and
    [c_out] is what has been put on the wire. *)
Record conn := Conn {
  c_fd : Z; c_ready : Z; c_flag : Z; c_addr : bytes; c_user : user;
  c_rbuf : netbuf; c_sbuf : netbuf;
  c_recv : list recv_res; c_send : list send_res; c_out : bytes;
  c_tstart : Z; c_tend : Z; c_resets : Z }.

Definition conn_ev (ready flag : Z) (c : conn) : conn :=
  Conn (c_fd c) ready flag (c_addr c) (c_user c) (c_rbuf c) (c_sbuf c)
       (c_recv c) (c_send c) (c_out c) (c_tstart c) (c_tend c) (c_resets c).
Definition conn_user (u : user) (c : conn) : conn :=
  Conn (c_fd c) (c_ready c) (c_flag c) (c_addr c) u (c_rbuf c) (c_sbuf c)
       (c_recv c) (c_send c) (c_out c) (c_tstart c) (c_tend c) (c_resets c).
Definition conn_rbuf (b : netbuf) (c : conn) : conn :=
  Conn (c_fd c) (c_ready c) (c_flag c) (c_addr c) (c_user c) b (c_sbuf c)
       (c_recv c) (c_send c) (c_out c) (c_tstart c) (c_tend c) (c_resets c).
Definition conn_sbuf (b : netbuf) (c : conn) : conn :=
  Conn (c_fd c) (c_ready c) (c_flag c) (c_addr c) (c_user c) (c_rbuf c) b
       (c_recv c) (c_send c) (c_out c) (c_tstart c) (c_tend c) (c_resets c).

(** Calls of [epoll_ctl]. *)
Inductive ctl := CtlAdd (fd events : Z) | CtlMod (fd events : Z) | CtlDel (fd : Z).

(** Everything but the timers.  [w_queue] holds the links of the lists
    [free_list], [used_list] and [delay]; [w_time] and [w_mstime] are what
    [time(NULL)] and [gfs_mstime()] return while an operation runs; [w_ctl] is
    the trace of [epoll_ctl] calls. *)
Record world (D : Type) := World {
  w_block_size : Z; w_copies : Z; w_max_num : Z; w_client_num : Z;
  w_time : Z; w_mstime : Z;
  w_map : netmap; w_conns : gmap Z conn; w_sql : sqlst D;
  w_queue : qheap; w_used_num : Z; w_free_num : Z; w_ctl : list ctl }.
Arguments World {D}. Arguments w_block_size {D}. Arguments w_copies {D}. Arguments w_max_num {D}.
Arguments w_client_num {D}. Arguments w_time {D}. Arguments w_mstime {D}. Arguments w_map {D}.
Arguments w_conns {D}. Arguments w_sql {D}. Arguments w_queue {D}. Arguments w_used_num {D}.
Arguments w_free_num {D}. Arguments w_ctl {D}.

(** The service: the timer loop over the world. *)
Abbreviation svc D := (tloop (world D)).

(** What the service relies on: the memory pool, as an allocator that returns a
    block of at least the size asked for, with any contents, or nothing;
    [epoll_ctl]; the addresses of the static nodes; the fuel of the walks in
    lists and trees; and what memory outside the map nodes holds. *)
Class Env := {
  env_malloc : Z → option bytes;
  env_malloc_zero : env_malloc 0 = None;
  env_malloc_size : ∀ n b, env_malloc n = Some b → (Z.to_nat n ≤ length b)%nat;
  env_ctl : ctl → bool;
  env_sentinel : Z; env_dslist : Z; env_tsentinel : Z; env_tloop : Z; env_notice_timer : Z;
  env_free_list : Z; env_used_list : Z; env_delay : Z;
  env_fuel : nat; env_raw : Z → Z }.

(** Places inside a [gfs_net_t]: the queue node of its event, its own queue
    node and its timer. *)
Definition ev_qnode (a : Z) : Z := a + 32.
Definition c_qnode (a : Z) : Z := a + 368.
Definition c_timer (a : Z) : Z := a + 416.

Section service.
Context {D : Type}.
Local Abbreviation SV := (M (svc D)).

Definition w_set_map (m : netmap) (w : world D) : world D :=
  World (w_block_size w) (w_copies w) (w_max_num w) (w_client_num w) (w_time w) (w_mstime w)
        m (w_conns w) (w_sql w) (w_queue w) (w_used_num w) (w_free_num w) (w_ctl w).
Definition w_set_conns (m : gmap Z conn) (w : world D) : world D :=
  World (w_block_size w) (w_copies w) (w_max_num w) (w_client_num w) (w_time w) (w_mstime w)
        (w_map w) m (w_sql w) (w_queue w) (w_used_num w) (w_free_num w) (w_ctl w).
Definition w_set_sql (m : sqlst D) (w : world D) : world D :=
  World (w_block_size w) (w_copies w) (w_max_num w) (w_client_num w) (w_time w) (w_mstime w)
        (w_map w) (w_conns w) m (w_queue w) (w_used_num w) (w_free_num w) (w_ctl w).
Definition w_set_queue (m : qheap) (w : world D) : world D :=
  World (w_block_size w) (w_copies w) (w_max_num w) (w_client_num w) (w_time w) (w_mstime w)
        (w_map w) (w_conns w) (w_sql w) m (w_used_num w) (w_free_num w) (w_ctl w).
Definition w_set_nums (clients used free : Z) (w : world D) : world D :=
  World (w_block_size w) (w_copies w) (w_max_num w) clients (w_time w) (w_mstime w)
        (w_map w) (w_conns w) (w_sql w) (w_queue w) used free (w_ctl w).
Definition w_add_ctl (c : ctl) (w : world D) : world D :=
  World (w_block_size w) (w_copies w) (w_max_num w) (w_client_num w) (w_time w) (w_mstime w)
        (w_map w) (w_conns w) (w_sql w) (w_queue w) (w_used_num w) (w_free_num w)
        (w_ctl w ++ [c]).

Definition set_world (w : world D) (st : svc D) : svc D := TLoop (tl_tree st) (tl_timers st) w.
Definition upd_world (f : world D → world D) : SV unit :=
  modify (λ st, set_world (f (tl_world st)) st).
Definition in_sql {A} (m : M (sqlst D) A) : SV A :=
  zoom (λ st, w_sql (tl_world st)) (λ q st, set_world (w_set_sql q (tl_world st)) st) m.
Definition in_map {A} (m : M netmap A) : SV A :=
  zoom (λ st, w_map (tl_world st)) (λ q st, set_world (w_set_map q (tl_world st)) st) m.
Definition in_lists {A} (m : M qheap A) : SV A :=
  zoom (λ st, w_queue (tl_world st)) (λ q st, set_world (w_set_queue q (tl_world st)) st) m.
Definition get_conn (a : Z) : SV conn := getsM (λ st, w_conns (tl_world st) !! a).
Definition set_conn (a : Z) (c : conn) : SV unit :=
  upd_world (λ w, w_set_conns (<[a := c]> (w_conns w)) w).
Definition upd_conn (a : Z) (f : conn → conn) : SV unit := c ← get_conn a; set_conn a (f c).

(** ** The request being handled

    [gfs_busi_t] with the blocks behind [reh] and [rsh], the response buffer,
    whether its [data] is null, the connection, the list behind
    [rsh->dslist] and the blocks behind [data], over the state of the
    service. *)
Record busi := Busi {
  b_type : Z; b_req : bytes; b_rsp : bytes; b_sbuf : netbuf; b_c : Z;
  b_dslist : option bytes; b_blist : list sql_block; b_ns : svc D }.
Local Abbreviation BM := (M busi).

Definition set_req (r : bytes) : BM unit := modify (λ b,
  Busi (b_type b) r (b_rsp b) (b_sbuf b) (b_c b) (b_dslist b) (b_blist b) (b_ns b)).
Definition set_rsp (r : bytes) : BM unit := modify (λ b,
  Busi (b_type b) (b_req b) r (b_sbuf b) (b_c b) (b_dslist b) (b_blist b) (b_ns b)).
Definition set_sbuf (s : netbuf) : BM unit := modify (λ b,
  Busi (b_type b) (b_req b) (b_rsp b) s (b_c b) (b_dslist b) (b_blist b) (b_ns b)).
Definition set_dslist (l : option bytes) : BM unit := modify (λ b,
  Busi (b_type b) (b_req b) (b_rsp b) (b_sbuf b) (b_c b) l (b_blist b) (b_ns b)).
Definition set_blist (l : list sql_block) : BM unit := modify (λ b,
  Busi (b_type b) (b_req b) (b_rsp b) (b_sbuf b) (b_c b) (b_dslist b) l (b_ns b)).
Definition in_ns {A} (m : SV A) : BM A := zoom b_ns (λ n b,
  Busi (b_type b) (b_req b) (b_rsp b) (b_sbuf b) (b_c b) (b_dslist b) (b_blist b) n) m.

(** Fields of the request and response blocks, as stored. *)
Definition req32 (off : nat) : BM Z := getsM (λ b, ld32 off (b_req b)).
Definition req64 (off : nat) : BM Z := getsM (λ b, ld64 off (b_req b)).
Definition req_bytes (n off : nat) : BM bytes := getsM (λ b, ld_bytes n off (b_req b)).
Definition put_req (n off : nat) (v : Z) : BM unit :=
  b ← get; r ← lift (stn n off v (b_req b)); set_req r.
Definition rsp32 (off : nat) : BM Z := getsM (λ b, ld32 off (b_rsp b)).
Definition rsp_bytes (n off : nat) : BM bytes := getsM (λ b, ld_bytes n off (b_rsp b)).
Definition put_rsp (n off : nat) (v : Z) : BM unit :=
  b ← get; r ← lift (stn n off v (b_rsp b)); set_rsp r.
End service.
Arguments busi : clear implicits.

(** What the message handlers of busi/ share: the response head, the return
    code, the file hash as text, and the buffer for the answer. *)
Section base.
Context {D : Type} `{!Env}.
Local Abbreviation BM := (M (busi D)).

(** The five assignments every response starts with. *)
Definition rsp_head (len rtn : Z) : BM unit :=
  put_rsp 4 0 (htonl len);;
  id ← req32 4; put_rsp 4 4 id;;
  type ← req32 8; put_rsp 4 8 type;;
  put_rsp 4 16 (htonl 0);;
  put_rsp 4 12 (htonl rtn).
Definition set_rtn (rtn : Z) : BM unit := put_rsp 4 12 (htonl rtn).

(** [x = ntohl(x)] and [x = ntohll(x)] for a field of the request. *)
Definition swap_req32 (off : nat) : BM unit := v ← req32 off; put_req 4 off (ntohl v).
Definition swap_req64 (off : nat) : BM unit := v ← req64 off; put_req 8 off (ntohll v).

(** [gfs_hextostr(req->hash, 16, hash); hash[32] = 0] *)
Definition req_hash : BM bytes :=
  h ← req_bytes 16 16; r ← lift (gfs_hextostr h 16); mret r.2.

(** Allocating the buffer for the answer. *)
Definition malloc (n : Z) : BM (option bytes) := mret (env_malloc n).

(** The calls a handler makes to the map of data servers. *)
Definition map_add (keyid net : Z) : M (svc D) Z :=
  in_map (gfs_net_map_add env_sentinel env_dslist env_fuel keyid net).
Definition map_get (keyid : Z) : M (svc D) Z :=
  in_map (gfs_net_map_get env_sentinel env_fuel keyid).
Definition map_remove (keyid : Z) : M (svc D) Z :=
  in_map (gfs_net_map_remove env_sentinel env_fuel keyid).
Definition map_gettopn (num : Z) : M (svc D) (Z * list Z) :=
  st ← get; in_map (gfs_net_map_gettopn env_dslist env_fuel env_raw (w_time (tl_world st)) num).
End base.
