(* ===== verification/Login.v ===== *)
(** Login and heartbeat: busi/gfs_busi_login.c and busi/gfs_busi_heartbeat.c. *)
From S2P Require Import Prelude Rbtree Timer Bytes NetBuf Sql State.

Section login.
Context {D : Type} `{!Mysql D, !Env}.
Local Abbreviation BM := (M (busi D)).

(** [gfs_busi_req_login_t]: [type] at 16, [dsid] at 20, [remain] at 24, [disk]
    at 32, [port] at 40 and [separate] at 44; [gfs_busi_rsp_login_t]: [bsize]
    at 20 and [separate] at 24. *)
Definition login_rsp (rtn : Z) : BM unit :=
  rsp_head 28 rtn;;
  b ← get;
  put_rsp 4 20 (htonl (w_block_size (tl_world (b_ns b))));;
  put_rsp 4 24 0.

Definition gfs_busi_login_parse : BM Z :=
  swap_req32 0;;
  len ← req32 0;
  if negb (len =? 48) then
    login_rsp GFS_BUSI_RTN_MSG_FORMAT_ERR;; mret GFS_BUSI_ERR
  else
    swap_req32 12;;
    swap_req32 16;;
    swap_req32 20;;
    swap_req64 24;;
    swap_req64 32;;
    swap_req32 40;;
    swap_req32 44;;
    mret GFS_OK.

Definition gfs_busi_login_handle : BM Z :=
  login_rsp GFS_BUSI_RTN_OK;;
  b ← get;
  encrypt ← req32 12;
  if negb (encrypt =? 0) then set_rtn GFS_BUSI_RTN_OK;; mret GFS_OK else
  type ← req32 16;
  if type =? GFS_CLIENT_TYPE_PS then mret GFS_OK else
  if negb (type =? GFS_CLIENT_TYPE_DS) then
    set_rtn GFS_BUSI_RTN_UNKNOWN_CLIENT;; mret GFS_OK else
  dsid ← req32 20;
  remain ← req64 24;
  disk ← req64 32;
  port ← req32 40;
  if disk <? remain then set_rtn GFS_BUSI_RTN_OK;; mret GFS_OK else
  ret ← in_ns (in_sql (gfs_mysql_login dsid disk remain));
  if negb (ret =? SQL_OK) then set_rtn GFS_BUSI_RTN_SYS_ERR;; mret GFS_OK else
  if disk =? 0 then ub else
  in_ns (upd_conn (b_c b) (λ c,
    conn_user (User type dsid remain disk (u32 (u64 (remain * 100) `div` disk))
                    (u_weight (c_user c)) port) c));;
  ret ← in_ns (map_add dsid (b_c b));
  if negb (ret =? GFS_OK) then set_rtn GFS_BUSI_RTN_SYS_ERR;; mret GFS_OK else
  mret GFS_OK.

(** [gfs_busi_login_tobuf]: the size passed to [gfs_mem_malloc] is
    [busi->rsh->len] as stored, in network byte order. *)
Definition gfs_busi_login_tobuf : BM Z :=
  len ← rsp32 0;
  let pos := ntohl len in
  b ← get;
  set_sbuf (NetBuf (nb_data (b_sbuf b)) pos pos (nb_hd (b_sbuf b)));;
  data ← malloc len;
  match data with
  | None => mret GFS_BUSI_ERR
  | Some data =>
      v ← rsp_bytes (Z.to_nat pos) 0;
      data ← lift (st_bytes 0 v data);
      set_sbuf (NetBuf data pos pos (nb_hd (b_sbuf b)));;
      mret GFS_OK
  end.

(** [gfs_busi_heartbeat_t]: [type] at 16 and [weighted] at 20. *)
Definition gfs_busi_heartbeat_parse : BM Z :=
  swap_req32 0;;
  len ← req32 0;
  if negb (len =? 28) then mret GFS_BUSI_ERR else
  swap_req32 12;;
  swap_req32 16;;
  swap_req32 20;;
  mret GFS_OK.

Definition gfs_busi_heartbeat_handle : BM Z :=
  b ← get;
  encrypt ← req32 12;
  if negb (encrypt =? 0) then mret GFS_OK else
  c ← in_ns (get_conn (b_c b));
  if u_ctype (c_user c) =? GFS_CLIENT_TYPE_PS then mret GFS_OK else
  weighted ← req32 20;
  if (weighted <? 0) || (100 <? weighted) then mret GFS_OK else
  let u := c_user c in
  in_ns (upd_conn (b_c b) (conn_user
    (User (u_ctype u) (u_dsid u) (u_resize u) (u_dsize u) (u_cfft u) weighted (u_port u))));;
  mret GFS_OK.

Definition gfs_busi_heartbeat_tobuf : BM Z := mret GFS_OK.
End login.
