(* ===== verification/Upload.v ===== *)
(** Upload: busi/gfs_busi_upload.c. *)
From S2P Require Import Prelude Rbtree Timer Bytes NetBuf Sql State.

Section upload.
Context {D : Type} `{!Mysql D, !Env}.
Local Abbreviation BM := (M (busi D)).

(** [gfs_busi_req_upload_t]: [hash] at 16, [fsize] at 32, [bnum] at 40,
    [bindex] at 44 and [separate] at 48; [gfs_busi_rsp_upload_t]: [fid] at 24,
    [dsnum] at 32, [dslist] (kept in [b_dslist]) and [separate] at 48. *)
Definition upload_rsp (rtn : Z) : BM unit :=
  rsp_head 36 rtn;;
  put_rsp 4 32 (htonl 0);;
  put_rsp 8 24 (htonl 0);;
  set_dslist None;;
  put_rsp 4 48 (htonl 0).

Definition gfs_busi_upload_parse : BM Z :=
  swap_req32 0;;
  len ← req32 0;
  if negb (len =? 52) then
    upload_rsp GFS_BUSI_RTN_MSG_FORMAT_ERR;; mret GFS_BUSI_ERR
  else
    swap_req32 12;;
    swap_req64 32;;
    swap_req32 40;;
    swap_req32 44;;
    swap_req32 48;;
    mret GFS_OK.

(** The loop that fills [rsp->dslist]: an entry has its address at 0 and its
    port at 16. *)
Fixpoint fill_dslist (pnet : list Z) (i : nat) (pdata : bytes) : BM bytes :=
  match pnet with
  | [] => mret pdata
  | net :: pnet =>
      c ← in_ns (get_conn net);
      pdata ← lift (st_bytes (20 * i) (c_addr c) pdata);
      pdata ← lift (st32 (20 * i + 16) (htonl (u_port (c_user c))) pdata);
      fill_dslist pnet (S i) pdata
  end.

(** The part of [gfs_busi_upload_handle] after the list of servers. *)
Definition upload_file : BM Z :=
  hash ← req_hash;
  fsize ← req64 32;
  bnum ← req32 40;
  bindex ← req32 44;
  r ← in_ns (in_sql (gfs_mysql_upload hash fsize bnum (i32 bindex) 0));
  let '(ret, status, fid) := r in
  if negb (ret =? SQL_OK) then set_rtn GFS_BUSI_RTN_SYS_ERR;; mret GFS_OK
  else if status =? SQL_FILE_EXIT_COMPLETE then set_rtn GFS_BUSI_RTN_FILE_FINISHED;; mret GFS_OK
  else if status =? SQL_BLOCK_EXIST then set_rtn GFS_BUSI_RTN_BLOCK_EXIST;; mret GFS_OK
  else put_rsp 8 24 (htonll fid);; mret GFS_OK.

Definition gfs_busi_upload_handle : BM Z :=
  upload_rsp GFS_BUSI_RTN_OK;;
  encrypt ← req32 12;
  if negb (encrypt =? 0) then set_rtn GFS_BUSI_RTN_OK;; mret GFS_OK else
  bindex ← req32 44;
  bnum ← req32 40;
  fsize ← req64 32;
  if (i32 bindex <? -1) || (bnum <? 1) || (fsize <=? 0) then
    set_rtn GFS_BUSI_RTN_OK;; mret GFS_OK else
  if 150 <? bnum then set_rtn GFS_BUSI_RTN_BLOCK_TOO_MUCH;; mret GFS_OK else
  r ← in_ns (map_gettopn 3);
  let '(ret, pnet) := r in
  if negb (ret =? GFS_OK) then set_rtn GFS_BUSI_RTN_SYS_ERR;; mret GFS_OK else
  let num := Z.of_nat (length pnet) in
  len ← rsp32 0;
  put_rsp 4 0 (htonl (u32 (ntohl len + num * 20)));;
  put_rsp 4 32 (htonl num);;
  dsnum ← rsp32 32;
  if dsnum =? 0 then set_rtn GFS_BUSI_RTN_NO_DS_USE;; mret GFS_OK else
  pdata ← malloc (num * 20);
  match pdata with
  | None => set_rtn GFS_BUSI_RTN_SYS_ERR;; mret GFS_OK
  | Some pdata =>
      pdata ← fill_dslist pnet 0 pdata;
      set_dslist (Some pdata);;
      upload_file
  end.

(** [memcpy] from [rsp->dslist], which may be null when [len] is 0. *)
Definition dslist_bytes (len : Z) : BM bytes :=
  b ← get;
  match b_dslist b with
  | Some l => lift (ld_bytes (Z.to_nat len) 0 l)
  | None => if len =? 0 then mret [] else ub
  end.

Definition gfs_busi_upload_tobuf : BM Z :=
  len ← rsp32 0;
  let pos := htonl len in
  b ← get;
  set_sbuf (NetBuf (nb_data (b_sbuf b)) pos pos (nb_hd (b_sbuf b)));;
  pdata ← malloc pos;
  match pdata with
  | None => set_dslist None;; mret GFS_BUSI_ERR
  | Some pdata =>
      head ← rsp_bytes 20 0;
      pdata ← lift (st_bytes 0 head pdata);
      fid ← rsp_bytes 8 24;
      pdata ← lift (st_bytes 20 fid pdata);
      dsnum ← rsp_bytes 4 32;
      pdata ← lift (st_bytes 28 dsnum pdata);
      dsnum ← rsp32 32;
      let len := u32 (ntohl dsnum * 20) in
      l ← dslist_bytes len;
      pdata ← lift (st_bytes 32 l pdata);
      pdata ← lift (st_bytes (32 + Z.to_nat len) [0; 0; 0; 0] pdata);
      set_sbuf (NetBuf pdata pos pos (nb_hd (b_sbuf b)));;
      set_dslist None;;
      mret GFS_OK
  end.
End upload.
