(* ===== verification/Download.v ===== *)
(** Download: busi/gfs_busi_download.c. *)
From S2P Require Import Prelude Rbtree Timer Bytes NetBuf Sql State.

Section download.
Context {D : Type} `{!Mysql D, !Env}.
Local Abbreviation BM := (M (busi D)).

(** [gfs_busi_req_download_t]: [hash] at 16 and [bindex] at 32;
    [gfs_busi_rsp_download_t]: [pnum] at 20, [pindex] at 22, [fid] at 24, [bnum]
    at 32, [blist] and [separate] at 48. *)
Definition download_rsp (rtn : Z) : BM unit :=
  rsp_head 36 rtn;;
  put_rsp 2 20 (htons 1);;
  put_rsp 2 22 (htons 0);;
  put_rsp 4 32 (htonl 0);;
  put_rsp 4 48 (htonl 0).

Definition gfs_busi_download_parse : BM Z :=
  swap_req32 0;;
  len ← req32 0;
  if negb (len =? 40) then
    download_rsp GFS_BUSI_RTN_MSG_FORMAT_ERR;; mret GFS_BUSI_ERR
  else
    swap_req32 12;;
    swap_req32 32;;
    mret GFS_OK.

(** [busi->data] is set on the last path only. *)
Definition gfs_busi_download_handle : BM Z :=
  download_rsp GFS_BUSI_RTN_OK;;
  encrypt ← req32 12;
  if negb (encrypt =? 0) then set_rtn GFS_BUSI_RTN_OK;; mret GFS_OK else
  hash ← req_hash;
  bindex ← req32 32;
  if i32 bindex <? -1 then set_rtn GFS_BUSI_RTN_OK;; mret GFS_OK else
  out ← in_ns (in_sql (gfs_mysql_download (λ n, bool_decide (is_Some (env_malloc n))) hash bindex 0));
  if do_rtn out =? SQL_EMPTY then set_rtn GFS_BUSI_RTN_FILE_NOT_EXIST;; mret GFS_OK
  else if do_rtn out =? SQL_ERROR then set_rtn GFS_BUSI_RTN_SYS_ERR;; mret GFS_OK
  else
    put_rsp 8 24 (htonll (do_fid out));;
    let bnum := Z.of_nat (length (do_blist out)) in
    if bnum <? 1 then set_rtn GFS_BUSI_RTN_BLOCK_NOT_EXIST;; mret GFS_OK else
    put_rsp 4 32 (htonl bnum);;
    set_blist (do_blist out);;
    mret GFS_OK.

(** The [for] loop of [gfs_busi_download_tobuf] over the blocks that are left.
    [data] is the answer, whose list [rsp->blist] begins at 32 with entries of
    24 bytes: [bindex] at 0, [port] at 4 and [ip] at 8.  [b], [dsnum] and
    [bindex] are the variables of the source; the result is [data] and [b]. *)
Fixpoint download_blocks (blist : list sql_block) (data : bytes) (b dsnum bindex : Z) :
    BM (bytes * Z) :=
  match blist with
  | [] => mret (data, b)
  | bl :: blist =>
      st ← get;
      let full := w_copies (tl_world (b_ns st)) <=? dsnum in
      same ← (if full then
                if b =? 0 then ub
                else last ← lift (ld32 (Z.to_nat (32 + 24 * (b - 1))) data);
                     mret (last =? htonl (sb_bindex bl))
              else mret false);
      if same : bool then download_blocks blist data b dsnum bindex else
      let dsnum := if full then 0 else dsnum in
      if 150 <? b then mret (data, b) else
      data ← lift (st32 (Z.to_nat (32 + 24 * b)) (htonl (sb_bindex bl)) data);
      net ← in_ns (map_get (sb_dsid bl));
      if bool_decide (net = NULL) then download_blocks blist data b dsnum bindex else
      c ← in_ns (get_conn net);
      data ← lift (st_bytes (Z.to_nat (32 + 24 * b + 8)) (c_addr c) data);
      data ← lift (st32 (Z.to_nat (32 + 24 * b + 4)) (htonl (u_port (c_user c))) data);
      if negb (bindex =? sb_bindex bl) then download_blocks blist data (b + 1) 1 (sb_bindex bl)
      else download_blocks blist data (b + 1) (u32 (dsnum + 1)) bindex
  end.

Definition gfs_busi_download_tobuf : BM Z :=
  bnum ← rsp32 32;
  let bnum := ntohl bnum in
  len ← rsp32 0;
  let pos := htonl len in
  bs ← get;
  set_sbuf (NetBuf (nb_data (b_sbuf bs)) pos pos (nb_hd (b_sbuf bs)));;
  let len := if bnum =? 0 then pos else u32 (bnum * 24 + 36) in
  pdata ← malloc len;
  match pdata with
  | None => set_blist [];; mret GFS_BUSI_ERR
  | Some data =>
      head ← rsp_bytes 20 0;
      data ← lift (st_bytes 0 head data);
      fid ← rsp_bytes 8 24;
      data ← lift (st_bytes 20 fid data);
      if Z.of_nat (length (b_blist bs)) <? bnum then ub else
      r ← download_blocks (take (Z.to_nat bnum) (b_blist bs)) data 0 0 0;
      let '(data, b) := r in
      put_rsp 4 32 (htonl b);;
      data ← lift (st32 28 (htonl b) data);
      let len := u32 (b * 24) in
      data ← lift (st_bytes (32 + Z.to_nat len) [0; 0; 0; 0] data);
      hlen ← rsp32 0;
      let len := u32 (len + ntohl hlen) in
      put_rsp 4 0 (htonl len);;
      data ← lift (st32 0 (htonl len) data);
      set_sbuf (NetBuf data len len (nb_hd (b_sbuf bs)));;
      set_blist [];;
      mret GFS_OK
  end.
End download.
