(* ===== verification/BusiFile.v ===== *)
(** The requests on files and the notices on blocks: busi/gfs_busi_getfsize.c,
    busi/gfs_busi_delete_file.c, busi/gfs_busi_delete_block.c and
    busi/gfs_busi_copy_block.c. *)
From S2P Require Import Prelude Rbtree Timer Bytes NetBuf Sql State.

Section file.
Context {D : Type} `{!Mysql D, !Env}.
Local Abbreviation BM := (M (busi D)).

(** [gfs_busi_req_getfsize_t]: [hash] at 16 and [separate] at 32;
    [gfs_busi_rsp_getfsize_t]: [fsize] at 24, [bsize] at 32 and [separate] at
    36. *)
Definition gfs_busi_getfsize_parse : BM Z :=
  swap_req32 0;;
  len ← req32 0;
  if negb (len =? 36) then
    rsp_head 36 GFS_BUSI_RTN_MSG_FORMAT_ERR;;
    put_rsp 4 36 (htonl 0);;
    mret GFS_BUSI_ERR
  else
    swap_req32 12;;
    swap_req32 32;;
    mret GFS_OK.

Definition gfs_busi_getfsize_handle : BM Z :=
  rsp_head 36 GFS_BUSI_RTN_OK;;
  b ← get;
  put_rsp 4 32 (htonl (w_block_size (tl_world (b_ns b))));;
  put_rsp 8 24 (htonll 0);;
  put_rsp 4 36 (htonl 0);;
  hash ← req_hash;
  r ← in_ns (in_sql (gfs_mysql_getfsize hash));
  let '(ret, fsize) := r in
  if negb (ret =? SQL_OK) then set_rtn GFS_BUSI_RTN_FILE_NOT_EXIST;; mret GFS_OK else
  fsize ← lift fsize;
  put_rsp 8 24 (htonll fsize);;
  mret GFS_OK.

(** Like [gfs_busi_login_tobuf], it allocates [busi->rsh->len] bytes in network
    byte order. *)
Definition gfs_busi_getfsize_tobuf : BM Z :=
  len ← rsp32 0;
  let pos := ntohl len in
  b ← get;
  set_sbuf (NetBuf (nb_data (b_sbuf b)) pos pos (nb_hd (b_sbuf b)));;
  data ← malloc len;
  match data with
  | None => mret GFS_BUSI_ERR
  | Some data =>
      head ← rsp_bytes 20 0;
      data ← lift (st_bytes 0 head data);
      fsize ← rsp_bytes 8 24;
      data ← lift (st_bytes 20 fsize data);
      bsize ← rsp_bytes 4 32;
      data ← lift (st_bytes 28 bsize data);
      data ← lift (st_bytes 32 [0; 0; 0; 0] data);
      set_sbuf (NetBuf data pos pos (nb_hd (b_sbuf b)));;
      mret GFS_OK
  end.

(** [gfs_busi_req_delfile_t]: [hash] at 16 and [separate] at 32;
    [gfs_busi_rsp_delfile_t]: [separate] at 20. *)
Definition gfs_busi_delete_file_parse : BM Z :=
  swap_req32 0;;
  len ← req32 0;
  if negb (len =? 36) then
    rsp_head 24 GFS_BUSI_RTN_MSG_FORMAT_ERR;;
    put_rsp 4 20 (htonl 0);;
    mret GFS_BUSI_ERR
  else
    swap_req32 12;;
    swap_req32 32;;
    mret GFS_OK.

Definition gfs_busi_delete_file_handle : BM Z :=
  rsp_head 24 GFS_BUSI_RTN_OK;;
  put_rsp 4 20 (htonl 0);;
  encrypt ← req32 12;
  if negb (encrypt =? 0) then set_rtn GFS_BUSI_RTN_OK;; mret GFS_OK else
  hash ← req_hash;
  ret ← in_ns (in_sql (gfs_mysql_delfile hash));
  if ret =? SQL_FILE_NOT_EXIST then set_rtn GFS_BUSI_RTN_FILE_NOT_EXIST;; mret GFS_OK
  else if negb (ret =? SQL_OK) then set_rtn GFS_BUSI_RTN_SYS_ERR;; mret GFS_OK
  else mret GFS_OK.

Definition gfs_busi_delete_file_tobuf : BM Z :=
  len ← rsp32 0;
  let pos := ntohl len in
  b ← get;
  set_sbuf (NetBuf (nb_data (b_sbuf b)) pos pos (nb_hd (b_sbuf b)));;
  data ← malloc pos;
  match data with
  | None => mret GFS_BUSI_ERR
  | Some data =>
      v ← rsp_bytes (Z.to_nat pos) 0;
      data ← lift (st_bytes 0 v data);
      set_sbuf (NetBuf data pos pos (nb_hd (b_sbuf b)));;
      mret GFS_OK
  end.

(** [gfs_busi_nte_delblock_t]: [bid] at 16, [remain] at 32 and [separate] at 40,
    which is behind the 40 bytes of the message. *)
Definition gfs_busi_delete_block_parse : BM Z :=
  swap_req32 0;;
  len ← req32 0;
  if negb (len =? 40) then mret GFS_BUSI_ERR else
  swap_req32 12;;
  swap_req64 32;;
  swap_req32 40;;
  mret GFS_OK.

Definition gfs_busi_delete_block_handle : BM Z :=
  b ← get;
  encrypt ← req32 12;
  if negb (encrypt =? 0) then mret GFS_OK else
  fid ← req64 16;
  bindex ← req32 24;
  c ← in_ns (get_conn (b_c b));
  ret ← in_ns (in_sql (gfs_mysql_delblock (ntohll fid) (ntohl bindex) (u_dsid (c_user c))));
  mret GFS_OK.

Definition gfs_busi_delete_block_tobuf : BM Z := mret GFS_OK.

(** [gfs_busi_nte_cpy_block_t]: [dsid] at 16, [bid] at 20, [remain] at 32 and
    [separate] at 40. *)
Definition gfs_busi_copy_block_parse : BM Z :=
  swap_req32 0;;
  len ← req32 0;
  if negb (len =? 44) then mret GFS_BUSI_ERR else
  swap_req32 12;;
  swap_req32 4;;
  swap_req32 16;;
  swap_req64 32;;
  swap_req32 40;;
  mret GFS_OK.

Definition gfs_busi_copy_block_handle : BM Z :=
  encrypt ← req32 12;
  if negb (encrypt =? 0) then mret GFS_OK else
  fid ← req64 20;
  bindex ← req32 28;
  dsid ← req32 16;
  ret ← in_ns (in_sql (gfs_mysql_cpyblock (ntohll fid) (ntohl bindex) dsid));
  if negb (ret =? SQL_OK) then mret GFS_ERR else mret GFS_OK.

Definition gfs_busi_copy_block_tobuf : BM Z := mret GFS_OK.
End file.
