(* ===== verification/Net.v ===== *)
(** Connections: [gfs_event_add] and [gfs_event_del] of event/gfs_event.c and
    the connection pool of net/gfs_net.c. *)
From S2P Require Import Prelude Queue Rbtree Timer Bytes NetBuf Sql NetMap State.

(** ** Registering events

    The constants of <sys/epoll.h>. *)
Definition EPOLLIN := 1.
Definition EPOLLOUT := 4.
Definition EPOLLERR := 8.
Definition EPOLLHUP := 16.
Definition EPOLLRDHUP := 8192.
Definition EPOLLET := 2 ^ 31.

Definition GFS_NET_SEND_BUFFER_SIZE := 4096.
Definition GFS_NET_RECV_BUFFER_SIZE := 4096.

(** The handlers that timers name. *)
Definition h_net_timer : Z := 1.
Definition h_notice : Z := 2.

Section net.
Context {D : Type} `{!Env}.
Local Abbreviation SV := (M (svc D)).

Definition epoll_ctl (c : ctl) : SV Z :=
  upd_world (w_add_ctl c);; mret (if env_ctl c then 0 else -1).

Definition gfs_event_add (a flag : Z) : SV Z :=
  c ← get_conn a;
  let events := Z.lor (Z.lor (if Z.land flag GFS_EVENT_READ =? 0 then 0 else EPOLLIN)
                             (if Z.land flag GFS_EVENT_WRITE =? 0 then 0 else EPOLLOUT))
                      (if Z.land flag GFS_EVENT_ET =? 0 then 0 else EPOLLET) in
  set_conn a (conn_ev (c_ready c) (i32 events) c);;
  r ← epoll_ctl (if c_flag c =? GFS_EVENT_NONE then CtlAdd (c_fd c) events
                 else CtlMod (c_fd c) events);
  mret (if r =? -1 then GFS_EPOLL_ERR else GFS_OK).

Definition gfs_event_del (a : Z) : SV Z :=
  c ← get_conn a;
  r ← epoll_ctl (CtlDel (c_fd c));
  mret (if r =? -1 then GFS_EPOLL_ERR else GFS_OK).

(** ** The pool of connections *)

(** What the allocations for one connection return: the address of the
    [gfs_net_t], whether its memory pool was created, and the blocks of the
    two buffers. *)
Record net_alloc := NetAlloc {
  na_c : option Z; na_pool : bool; na_rbuf : option bytes; na_sbuf : option bytes }.

Definition conn0 (data : bytes) : conn :=
  Conn (-1) 0 0 [0; 0; 0; 0] user0 (NetBuf data GFS_NET_RECV_BUFFER_SIZE 0 0)
       (NetBuf [] 0 0 0) [] [] [] 0 0 0.

(** The part of a [memset] that clears a queue node. *)
Definition clear_qnode (q : Z) : SV unit := in_lists (modify <[q := QNode 0 0]>).

(** The loop of [gfs_net_pool_create]; [inl] is the [gfs_errno] of a
    failure. *)
Fixpoint pool_create_loop (allocs : list net_alloc) : SV (Z + unit) :=
  match allocs with
  | [] => mret (inr tt)
  | al :: allocs =>
      match na_c al with
      | None => mret (inl GFS_MEMPOOL_MALLOC_ERR)
      | Some c =>
          clear_qnode (c_qnode c);;
          clear_qnode (ev_qnode c);;
          in_lists (gfs_queue_insert_tail env_free_list (c_qnode c));;
          if negb (na_pool al) then mret (inl GFS_MEMPOOL_CREATE_ERR) else
          match na_rbuf al with
          | None => mret (inl GFS_MEMPOOL_MALLOC_ERR)
          | Some rd =>
              match na_sbuf al with
              | None => mret (inl GFS_MEMPOOL_MALLOC_ERR)
              | Some sd =>
                  set_conn c (conn_sbuf (NetBuf sd GFS_NET_SEND_BUFFER_SIZE 0 0) (conn0 rd));;
                  pool_create_loop allocs
              end
          end
      end
  end.

(** [gfs_net_pool_create]; the counters are fields of the loop. *)
Definition gfs_net_pool_create (loop : option Z) (allocs : list net_alloc) : SV (Z + unit) :=
  match loop with
  | None => mret (inl GFS_MEMPOOL_MALLOC_ERR)
  | Some _ =>
      let num := Z.of_nat (length allocs) in
      upd_world (λ w, w_set_nums (w_client_num w) 0 num w);;
      in_lists (gfs_queue_init env_free_list);;
      in_lists (gfs_queue_init env_used_list);;
      pool_create_loop allocs
  end.

(** The two loops of [gfs_net_pool_destory]: the connections they free, in
    order.  They read the link of a connection after [gfs_mem_free] of it: the block
    stays a part of its pool, which changes its tags and the first words only, so the
    link has still its value. *)
Fixpoint queue_walk (fuel : nat) (q h : Z) : M qheap (list Z) :=
  match fuel with
  | O => ub
  | S fuel =>
      if bool_decide (q = h) then mret [] else
      n ← gfs_queue_next q; t ← queue_walk fuel n h; mret (q :: t)
  end.
Definition gfs_net_pool_destory (have_loop : bool) : SV (list Z) :=
  if negb have_loop then mret [] else
  q ← in_lists (gfs_queue_head env_free_list);
  l1 ← in_lists (queue_walk env_fuel q env_free_list);
  q ← in_lists (gfs_queue_head env_used_list);
  l2 ← in_lists (queue_walk env_fuel q env_used_list);
  mret ((λ q, q - c_qnode 0) <$> l1 ++ l2).

(** [gfs_net_node_get]; the loop pointer is not null. *)
Definition gfs_net_node_get (fd : Z) : SV (option Z) :=
  e ← in_lists (gfs_queue_empty env_free_list);
  if e : bool then mret None else
  q ← in_lists (gfs_queue_head env_free_list);
  in_lists (gfs_queue_remove q);;
  in_lists (gfs_queue_insert_head env_used_list q);;
  let a := q - c_qnode 0 in
  upd_world (λ w, w_set_nums (w_client_num w) (u32 (w_used_num w + 1)) (u32 (w_free_num w - 1)) w);;
  st ← get;
  let now := w_mstime (tl_world st) in
  upd_conn a (λ c, Conn fd GFS_NET_READY 0 (c_addr c) user0 (c_rbuf c) (c_sbuf c)
    (c_recv c) (c_send c) (c_out c) now (now + GFS_CONN_TIMEOUT_MS) (c_resets c));;
  clear_qnode (ev_qnode a);;
  gfs_timer_set (c_timer a) 10000 (-1) h_net_timer a now;;
  gfs_timer_add env_fuel env_tsentinel env_tloop (c_timer a);;
  mret (Some a).

(** [gfs_net_close] *)
Definition gfs_net_close (a : Z) : SV Z :=
  if bool_decide (a = NULL) then mret GFS_PARAM_FUN_ERR else
  gfs_event_del a;;
  upd_conn a (λ c, Conn (-1) (c_ready c) (c_flag c) [0; 0; 0; 0] (c_user c)
    (NetBuf (nb_data (c_rbuf c)) (nb_len (c_rbuf c)) 0 0)
    (NetBuf (nb_data (c_sbuf c)) (nb_len (c_sbuf c)) 0 0)
    (c_recv c) (c_send c) (c_out c) (c_tstart c) (c_tend c) (c_resets c + 1));;
  gfs_timer_del env_fuel env_tsentinel env_tloop (c_timer a);;
  in_lists (gfs_queue_remove (c_qnode a));;
  in_lists (gfs_queue_insert_head env_free_list (c_qnode a));;
  c ← get_conn a;
  (if u_ctype (c_user c) =? GFS_CLIENT_TYPE_DS then map_remove (u_dsid (c_user c)) else mret GFS_OK);;
  upd_world (λ w, w_set_nums (w_client_num w - 1) (w_used_num w) (w_free_num w) w);;
  mret GFS_OK.

(** [gfs_net_timer_handle] *)
Definition gfs_net_timer_handle (a : Z) : SV Z :=
  c ← get_conn a;
  st ← get;
  (if c_tend c <=? w_mstime (tl_world st) then gfs_net_close a else mret GFS_OK);;
  mret GFS_OK.
End net.

(** The event handlers of a connection: core/gfs_handle.c.

    [gfs_handle_tcp_send] may call the packet loop, which calls
    [gfs_busi_handle], which sends; the packet loop is therefore an argument
    [parse] here and Busi.v ties the knot. *)
Section handle.
Context {D : Type} `{!Env}.
Local Abbreviation SV := (M (svc D)).

(** [c->rbuf], as the packet loop sees it. *)
Definition conn_get_rbuf (a : Z) (st : svc D) : option netbuf :=
  c_rbuf <$> w_conns (tl_world st) !! a.
Definition conn_set_rbuf (a : Z) (b : netbuf) (st : svc D) : svc D :=
  match w_conns (tl_world st) !! a with
  | Some c => set_world (w_set_conns (<[a := conn_rbuf b c]> (w_conns (tl_world st))) (tl_world st)) st
  | None => st
  end.
Lemma conn_get_set_rbuf a b st :
  is_Some (conn_get_rbuf a st) → conn_get_rbuf a (conn_set_rbuf a b st) = Some b.
Proof.
  unfold conn_get_rbuf, conn_set_rbuf. intros [r Hr].
  destruct (w_conns (tl_world st) !! a) as [c|] eqn:Hc; [|done].
  simpl. by rewrite lookup_insert_eq.
Qed.
Definition conn_rbuf_ops (a : Z) : rbuf_ops (svc D) :=
  RbufOps _ (conn_get_rbuf a) (conn_set_rbuf a) (conn_get_set_rbuf a).

(** [gfs_handle_init] registers the listening socket: the event [ev] of the
    server is described by its descriptor [fd] and its old [flag]. *)
Definition gfs_handle_init (fd flag : Z) : SV Z :=
  epoll_ctl (if flag =? GFS_EVENT_NONE then CtlAdd fd EPOLLIN else CtlMod fd EPOLLIN);;
  mret GFS_OK.

(** [gfs_handle_tcp] *)
Definition gfs_handle_tcp (a : Z) : SV Z :=
  upd_conn a (λ c, conn_ev GFS_NET_READY (c_flag c) c);;
  gfs_event_add a (Z.lor GFS_EVENT_READ GFS_EVENT_ET);;
  mret GFS_OK.

(** [gfs_handle_tcp_close] *)
Definition gfs_handle_tcp_close (a : Z) : SV Z := gfs_net_close a;; mret GFS_OK.

(** [gfs_net_tcp_send] and [gfs_net_tcp_recv] on the buffers of a
    connection. *)
Definition conn_send (a : Z) : SV Z :=
  c ← get_conn a;
  r ← lift (gfs_net_tcp_send (c_send c) (c_sbuf c));
  let '(rtn, sbuf, out, script) := r in
  set_conn a (Conn (c_fd c) (c_ready c) (c_flag c) (c_addr c) (c_user c) (c_rbuf c) sbuf
    (c_recv c) script (c_out c ++ out) (c_tstart c) (c_tend c) (c_resets c));;
  mret rtn.
Definition conn_recv (a : Z) : SV Z :=
  c ← get_conn a;
  st ← get;
  r ← lift (gfs_net_tcp_recv (c_recv c) (c_rbuf c));
  let '(rtn, rbuf, renewed, script) := r in
  let tend := if renewed : bool then w_mstime (tl_world st) + GFS_CONN_TIMEOUT_MS else c_tend c in
  set_conn a (Conn (c_fd c) (c_ready c) (c_flag c) (c_addr c) (c_user c) rbuf (c_sbuf c)
    script (c_send c) (c_out c) (c_tstart c) tend (c_resets c));;
  mret rtn.

(** [gfs_handle_tcp_send] *)
Definition gfs_handle_tcp_send (parse : Z → SV Z) (a : Z) : SV Z :=
  rtn ← conn_send a;
  c ← get_conn a;
  (if rtn =? GFS_NET_CLOSE then gfs_handle_tcp_close a
   else if rtn =? GFS_NET_AGAIN then
     set_conn a (conn_ev (Z.land (c_ready c) (Z.lnot GFS_NET_READY)) (c_flag c) c);;
     gfs_event_add a (Z.lor GFS_EVENT_WRITE GFS_EVENT_ET)
   else if (rtn =? GFS_OK) && (Z.land (c_ready c) GFS_NET_READY =? 0) then
     set_conn a (conn_ev (Z.lor (c_ready c) GFS_NET_READY) (c_flag c) c);;
     gfs_event_add a (Z.lor GFS_EVENT_READ GFS_EVENT_ET)
   else mret GFS_OK);;
  c ← get_conn a;
  (if negb (Z.land (c_ready c) GFS_EVENT_WRITE =? 0) then
     set_conn a (conn_ev (Z.land (c_ready c) (Z.lnot GFS_EVENT_WRITE)) (c_flag c) c);;
     parse a
   else mret GFS_OK);;
  c ← get_conn a;
  sbuf ← lift (buf_compact (c_sbuf c));
  set_conn a (conn_sbuf sbuf c);;
  mret rtn.

(** [gfs_handle_tcp_recv] *)
Definition gfs_handle_tcp_recv (parse : Z → SV Z) (a : Z) : SV Z :=
  rtn ← conn_recv a;
  (if rtn =? GFS_NET_CLOSE then gfs_handle_tcp_close a else parse a);;
  mret rtn.

(** The loop that ends [gfs_busi_handle] and the two notice functions: copy
    into [c->sbuf] what fits, and send.  [alive] says that the memory of
    [buf] is still there after sending. *)
Fixpoint send_loop (parse : Z → SV Z) (alive : SV bool) (fuel : nat) (a : Z) (buf : netbuf) : SV unit :=
  match fuel with
  | O => ub
  | S fuel =>
      if nb_hd buf <? nb_pos buf then
        c ← get_conn a;
        r ← lift (gfs_net_memcopy (c_sbuf c) buf);
        let '(_, sbuf, buf) := r in
        set_conn a (conn_sbuf sbuf c);;
        gfs_handle_tcp_send parse a;;
        ok ← alive;
        if ok : bool then send_loop parse alive fuel a buf else ub
      else mret tt
  end.
End handle.
