(* ===== verification/Notice.v ===== *)
(** The notices the name service sends to data servers: busi/gfs_busi_notice.c. *)
From S2P Require Import Prelude Rbtree Timer Bytes NetBuf Sql State Net.

(** [dsblist_t]; [db_dsid] are the entries of the array in use. *)
Record dsblist := Dsblist { db_fid : Z; db_bindex : Z; db_dsid : list Z }.
Definition MAX_COPIES : Z := 10.

(** The messages: words in network order.  [gap] are the bytes of the local
    array that are never written. *)
Definition delete_msg (now fid bindex : Z) : bytes :=
  be_bytes 4 32 ++ be_bytes 4 now ++ be_bytes 4 5 ++ be_bytes 4 0 ++
  le_bytes 8 (htonll fid) ++ be_bytes 4 bindex ++ be_bytes 4 0.
Definition copy_msg (gap1 gap2 : bytes) (now fid bindex : Z) (ip1 : bytes) (port1 : Z)
    (ip2 : bytes) (port2 : Z) : bytes :=
  be_bytes 4 72 ++ be_bytes 4 now ++ be_bytes 4 7 ++ be_bytes 4 0 ++
  le_bytes 8 (htonll fid) ++ be_bytes 4 bindex ++ ip1 ++ gap1 ++ be_bytes 4 port1 ++
  ip2 ++ gap2 ++ be_bytes 4 port2 ++ be_bytes 4 0.

Section notice.
Context {D : Type} `{!Mysql D, !Env}.
Local Abbreviation SV := (M (svc D)).
Context (parse : Z → SV Z) (fuel : nat) (gap1 gap2 : bytes).

(** [gfs_busi_notice_delete_block] *)
Definition gfs_busi_notice_delete_block (dsid fid bindex : Z) : SV Z :=
  net ← map_get dsid;
  if bool_decide (net = NULL) then mret GFS_BUSI_ERR else
  ret ← in_sql (gfs_mysql_set_deling fid bindex dsid);
  if negb (ret =? SQL_OK) then mret GFS_BUSI_ERR else
  st ← get;
  send_loop parse (mret true) fuel net
    (NetBuf (delete_msg (w_time (tl_world st)) fid bindex) 32 32 0);;
  mret GFS_OK.

(** [gfs_busi_notice_copy_block] *)
Definition gfs_busi_notice_copy_block (dsid_src c_dst fid bindex : Z) : SV Z :=
  net ← map_get dsid_src;
  if bool_decide (net = NULL) then mret GFS_BUSI_ERR else
  st ← get;
  s ← get_conn net;
  d ← get_conn c_dst;
  send_loop parse (mret true) fuel net
    (NetBuf (copy_msg gap1 gap2 (w_time (tl_world st)) fid bindex
               (c_addr s) (u_port (c_user s)) (c_addr d) (u_port (c_user d))) 72 72 0);;
  mret GFS_OK.

(** The grouping of blocks by file and index, which the two checks share: the
    loop over [dsblist] for one block, and the loop over the blocks.  An
    eleventh server of a block is written past its array. *)
Fixpoint group_add (bl : sql_block) (ds : list dsblist) : option (list dsblist) :=
  match ds with
  | [] => Some [Dsblist (sb_fid bl) (sb_bindex bl) [sb_dsid bl]]
  | d :: ds =>
      if (sb_fid bl =? db_fid d) && (sb_bindex bl =? db_bindex d) then
        if MAX_COPIES <=? Z.of_nat (length (db_dsid d)) then None
        else Some (Dsblist (db_fid d) (db_bindex d) (db_dsid d ++ [sb_dsid bl]) :: ds)
      else ds ← group_add bl ds; Some (d :: ds)
  end.
Fixpoint group_blocks (blist : list sql_block) (ds : list dsblist) : option (list dsblist) :=
  match blist with
  | [] => Some ds
  | bl :: blist => ds ← group_add bl ds; group_blocks blist ds
  end.

Fixpoint delete_each (blist : list sql_block) : SV unit :=
  match blist with
  | [] => mret tt
  | bl :: blist =>
      gfs_busi_notice_delete_block (sb_dsid bl) (sb_fid bl) (sb_bindex bl);; delete_each blist
  end.

(** The [for (j = 0; j < num; j++)] loop: more turns than servers read the
    array past its end. *)
Fixpoint delete_first (num : nat) (dsid : list Z) (fid bindex : Z) : SV unit :=
  match num, dsid with
  | O, _ => mret tt
  | S _, [] => ub
  | S num, d :: dsid =>
      gfs_busi_notice_delete_block d fid bindex;; delete_first num dsid fid bindex
  end.
Fixpoint delete_extra (ds : list dsblist) (copies : Z) : SV unit :=
  match ds with
  | [] => mret tt
  | d :: ds =>
      let num := u32 (Z.of_nat (length (db_dsid d)) - copies) in
      (if MAX_COPIES <? num then ub
       else delete_first (Z.to_nat num) (db_dsid d) (db_fid d) (db_bindex d));;
      delete_extra ds copies
  end.

(** [gfs_busi_check_del_block] *)
Definition gfs_busi_check_del_block : SV Z :=
  st ← get;
  let copies := w_copies (tl_world st) in
  r ← in_sql (gfs_mysql_get_delblock 0 copies);
  let '(ret, blist) := r in
  if negb (ret =? SQL_OK) || (Z.of_nat (length blist) <? 1) then mret GFS_ERR else
  delete_each blist;;
  r ← in_sql (gfs_mysql_get_delblock 1 copies);
  let '(ret, blist) := r in
  if negb (ret =? SQL_OK) || (Z.of_nat (length blist) <? 1) then mret GFS_ERR else
  ds ← lift (group_blocks blist []);
  delete_extra ds copies;;
  mret GFS_OK.

(** The loop of [gfs_busi_cpys_handle] over the connections. *)
Fixpoint cpys_loop (dsb : dsblist) (num : Z) (pnet : list Z) : SV unit :=
  match pnet with
  | [] => mret tt
  | p :: pnet =>
      if num <? 1 then mret tt else
      c ← get_conn p;
      if bool_decide (u_dsid (c_user c) ∈ db_dsid dsb) then cpys_loop dsb num pnet
      else match db_dsid dsb with
           | [] => ub
           | src :: _ =>
               gfs_busi_notice_copy_block src p (db_fid dsb) (db_bindex dsb);;
               cpys_loop dsb (num - 1) pnet
           end
  end.
Definition gfs_busi_cpys_handle (dsb : dsblist) (copies : Z) (pnet : list Z) : SV unit :=
  cpys_loop dsb (i32 (copies - Z.of_nat (length (db_dsid dsb)))) pnet.

Fixpoint cpys_each (ds : list dsblist) (copies : Z) (pnet : list Z) : SV unit :=
  match ds with
  | [] => mret tt
  | d :: ds => gfs_busi_cpys_handle d copies pnet;; cpys_each ds copies pnet
  end.

(** [gfs_busi_check_cpy_block] *)
Definition gfs_busi_check_cpy_block : SV Z :=
  st ← get;
  let copies := w_copies (tl_world st) in
  r ← in_sql (gfs_mysql_get_cpyblock copies);
  let '(ret, blist) := r in
  if negb (ret =? SQL_OK) || (Z.of_nat (length blist) <? 1) then mret GFS_ERR else
  r ← map_gettopn 10;
  let '(ret, pnet) := r in
  if negb (ret =? GFS_OK) || (Z.of_nat (length pnet) <? 2) then mret GFS_ERR else
  ds ← lift (group_blocks blist []);
  cpys_each ds copies pnet;;
  mret GFS_OK.

(** [gfs_busi_notice_handle] *)
Definition gfs_busi_notice_handle : SV Z :=
  gfs_busi_check_cpy_block;;
  gfs_busi_check_del_block;;
  mret GFS_OK.
End notice.
