(* ===== verification/Busi.v ===== *)
(** The dispatcher of requests: busi/gfs_busi.c, and the knot it ties with the
    packet loop of core/gfs_handle.c. *)
From S2P Require Import Prelude Rbtree Timer Bytes NetBuf Sql State Login Upload Download BusiFile Net Notice.

(** The column [rsp_size] of [gfs_busi_data]. *)
Definition rsp_size (type : Z) : Z :=
  match type with
  | 1 => 28 | 2 => 56 | 3 => 56 | 4 => 24 | 6 => 48 | 8 => 48 | 9 => 48 | 10 => 40 | _ => 0
  end.
Definition sizeof_busi : Z := 112.

Section busi.
Context {D : Type} `{!Mysql D, !Env}.
Local Abbreviation SV := (M (svc D)).

(** [gfs_busi_create]: a copy of the packet and an uninitialised response
    block.  The handlers run on the state in [b_ns]. *)
Definition gfs_busi_create (c : Z) (data : bytes) (len : Z) : SV (option (busi D)) :=
  if bool_decide (env_malloc sizeof_busi = None) then mret None else
  match env_malloc len with
  | None => mret None
  | Some pbuf =>
      rbuf ← lift (v ← ld_bytes (Z.to_nat len) 0 data; st_bytes 0 v pbuf);
      id ← lift (ld32 4 data);
      type ← lift (ntohl <$> ld32 8 data);
      if (type <? 1) || (10 <? type) then mret None else
      match env_malloc (rsp_size type) with
      | None => mret None
      | Some rsh =>
          st ← get;
          mret (Some (Busi type rbuf rsh (NetBuf [] 0 0 0) c None [] st))
      end
  end.

(** [gfs_busi_destory] frees the blocks of a request; [alive] says that they
    have not been freed with their pool. *)
Definition gfs_busi_destory (alive : SV bool) : SV Z :=
  ok ← alive; if ok : bool then mret GFS_OK else ub.

(** One case of the [switch]. *)
Definition busi_case (parse handle tobuf : M (busi D) Z) : M (busi D) Z :=
  ret ← parse;
  if negb (ret =? GFS_OK) then tobuf else handle;; tobuf.

(** The [switch]; [None] is its [default]. *)
Definition busi_switch (type : Z) : option (M (busi D) Z) :=
  match type with
  | 1 => Some (busi_case gfs_busi_login_parse gfs_busi_login_handle gfs_busi_login_tobuf)
  | 2 => Some (busi_case gfs_busi_upload_parse gfs_busi_upload_handle gfs_busi_upload_tobuf)
  | 3 => Some (busi_case gfs_busi_download_parse gfs_busi_download_handle gfs_busi_download_tobuf)
  | 4 => Some (busi_case gfs_busi_delete_file_parse gfs_busi_delete_file_handle gfs_busi_delete_file_tobuf)
  | 6 => Some (busi_case gfs_busi_delete_block_parse gfs_busi_delete_block_handle gfs_busi_delete_block_tobuf)
  | 8 => Some (busi_case gfs_busi_copy_block_parse gfs_busi_copy_block_handle gfs_busi_copy_block_tobuf)
  | 9 => Some (busi_case gfs_busi_heartbeat_parse gfs_busi_heartbeat_handle gfs_busi_heartbeat_tobuf)
  | 10 => Some (busi_case gfs_busi_getfsize_parse gfs_busi_getfsize_handle gfs_busi_getfsize_tobuf)
  | _ => None
  end.

Definition busi_with (b : busi D) (st : svc D) : busi D :=
  Busi (b_type b) (b_req b) (b_rsp b) (b_sbuf b) (b_c b) (b_dslist b) (b_blist b) st.
Definition run_busi (b : busi D) (m : M (busi D) Z) : SV (busi D) := λ st,
  match m (busi_with b st) with
  | Some (_, b) => Some (b, b_ns b)
  | None => None
  end.

(** [gfs_busi_handle]: [fuel] bounds the turns of the sending loop. *)
Definition gfs_busi_handle (parse : Z → SV Z) (fuel : nat) (a : Z) (data : bytes) : SV Z :=
  c ← get_conn a;
  let alive := c' ← get_conn a; mret (c_resets c' =? c_resets c) in
  b ← gfs_busi_create a data (Z.of_nat (length data));
  match b with
  | None => mret GFS_ERR
  | Some b =>
      match busi_switch (b_type b) with
      | None => gfs_busi_destory alive;; mret GFS_OK
      | Some m =>
          b ← run_busi b m;
          send_loop parse alive fuel a (b_sbuf b);;
          gfs_busi_destory alive;;
          mret GFS_OK
      end
  end.

(** The packet loop of a connection, with [n] levels of nested calls. *)
Fixpoint handle_tcp_parse (n fuel : nat) (a : Z) : SV Z :=
  match n with
  | O => ub
  | S n => gfs_handle_tcp_parse (conn_rbuf_ops a)
             (gfs_busi_handle (handle_tcp_parse n fuel) fuel a) fuel
  end.

(** [gfs_busi_init] *)
Definition gfs_busi_init : SV Z :=
  st ← get;
  gfs_timer_set env_notice_timer 3000000 (-1) h_notice NULL (w_mstime (tl_world st));;
  gfs_timer_add env_fuel env_tsentinel env_tloop env_notice_timer;;
  mret GFS_OK.
End busi.
