(* ===== verification/Server.v ===== *)
(** The event loop: [gfs_net_tcp_accept] of net/gfs_net_tcp.c and
    event/gfs_event.c.  What [accept] and [epoll_wait] report is given as
    scripts. *)
From S2P Require Import Prelude Queue Rbtree Timer Bytes NetBuf Sql State Net Notice Busi.

Definition ECONNABORTED := 103.
Definition EBADF := 9.
Definition EFAULT := 14.
Definition EINVAL := 22.

(** The outcome of one [accept]: a descriptor and the four bytes of the peer's
    address, or an [errno]. *)
Inductive accept_res := AccFd (fd : Z) (addr : bytes) | AccErr (e : Z).

(** The outcome of [epoll_wait]: an [errno], or the events; each has the
    connection it belongs to, or, for the listening socket, the outcomes of
    the [accept] calls it leads to. *)
Inductive epoll_ev :=
  EvConn (a : Z) (revents : Z) | EvListen (revents : Z) (script : list accept_res).
Inductive wait_res := WaitErr (e : Z) | WaitEv (evs : list epoll_ev).

Section server.
Context {D : Type} `{!Mysql D, !Env}.
Local Abbreviation SV := (M (svc D)).
(** The depth of nested packet loops, the turns of the sending loops and of the
    timer loop, and the bytes of the notices that are never written. *)
Context (depth fuel : nat) (gap1 gap2 : bytes).

(** [gfs_net_tcp_accept]; a script that runs out is a call that never
    returns. *)
Fixpoint gfs_net_tcp_accept (script : list accept_res) : SV Z :=
  match script with
  | [] => ub
  | AccErr e :: script =>
      if e =? EAGAIN then mret GFS_NET_AGAIN
      else if (e =? EINTR) || (e =? ECONNABORTED) then gfs_net_tcp_accept script
      else mret GFS_NFD_ERR
  | AccFd fd addr :: script =>
      st ← get;
      if w_max_num (tl_world st) <=? w_client_num (tl_world st) then gfs_net_tcp_accept script else
      c ← gfs_net_node_get fd;
      match c with
      | None => mret GFS_NET_LOOP_UNUSED
      | Some a =>
          upd_conn a (λ c, Conn (c_fd c) (c_ready c) (c_flag c) addr (c_user c) (c_rbuf c)
            (c_sbuf c) (c_recv c) (c_send c) (c_out c) (c_tstart c) (c_tend c) (c_resets c));;
          upd_world (λ w, w_set_nums (w_client_num w + 1) (w_used_num w) (w_free_num w) w);;
          gfs_handle_tcp a;;
          gfs_net_tcp_accept script
      end
  end.

Local Abbreviation parse := (handle_tcp_parse depth fuel).

(** The loop of [gfs_event_delay_run]. *)
Fixpoint delay_loop (n : nat) (q : Z) : SV unit :=
  match n with
  | O => ub
  | S n =>
      if bool_decide (q = env_delay) then mret tt else
      let a := q - ev_qnode 0 in
      c ← get_conn a;
      (if Z.land (c_ready c) GFS_NET_READY =? 0 then mret tt else
       (if Z.land (c_ready c) GFS_EVENT_WRITE =? 0 then mret GFS_OK
        else gfs_handle_tcp_send parse a);;
       c ← get_conn a;
       if Z.land (c_ready c) GFS_EVENT_READ =? 0 then in_lists (gfs_queue_remove q) else
       rtn ← gfs_handle_tcp_recv parse a;
       if rtn =? GFS_NET_OUTOF_MEMORY then mret tt else
       whenM (rtn =? GFS_NET_AGAIN)
         (upd_conn a (λ c, conn_ev (Z.land (c_ready c) (Z.lnot GFS_EVENT_READ)) (c_flag c) c));;
       in_lists (gfs_queue_remove q));;
      q ← in_lists (gfs_queue_next q);
      delay_loop n q
  end.
Definition gfs_event_delay_run : SV unit :=
  q ← in_lists (gfs_queue_head env_delay); delay_loop env_fuel q.

(** The [for] loop of [gfs_event_loop_run].  Closing the event of the
    listening socket takes the server for a connection. *)
Fixpoint dispatch_events (evs : list epoll_ev) : SV unit :=
  match evs with
  | [] => mret tt
  | EvListen revents script :: evs =>
      if negb (Z.land revents (Z.lor EPOLLERR (Z.lor EPOLLHUP EPOLLRDHUP)) =? 0) then ub else
      gfs_net_tcp_accept script;;
      dispatch_events evs
  | EvConn a revents :: evs =>
      if negb (Z.land revents (Z.lor EPOLLERR (Z.lor EPOLLHUP EPOLLRDHUP)) =? 0) then
        gfs_handle_tcp_close a;; dispatch_events evs
      else
        c ← get_conn a;
        whenM (Z.land (c_ready c) GFS_EVENT_READ =? 0)
          (in_lists (gfs_queue_insert_tail env_delay (ev_qnode a)));;
        let ready := if Z.land revents EPOLLIN =? 0 then c_ready c
                     else Z.lor (c_ready c) GFS_EVENT_READ in
        let ready := if Z.land revents EPOLLOUT =? 0 then ready
                     else Z.lor ready GFS_EVENT_WRITE in
        set_conn a (conn_ev ready (c_flag c) c);;
        dispatch_events evs
  end.

(** [timer->handle(timer->param)] *)
Definition run_timer (h p : Z) : SV unit :=
  if h =? h_net_timer then gfs_net_timer_handle p;; mret tt
  else if h =? h_notice then gfs_busi_notice_handle parse fuel gap1 gap2;; mret tt
  else ub.

(** [gfs_event_loop_run] *)
Definition gfs_event_loop_run (wait : wait_res) : SV Z :=
  st ← get;
  gfs_timer_loop_run fuel env_fuel run_timer env_tsentinel (u32 (w_mstime (tl_world st)));;
  gfs_event_delay_run;;
  match wait with
  | WaitErr e =>
      if (e =? EBADF) || (e =? EFAULT) || (e =? EINVAL) then mret GFS_EPOLL_ERR
      else if e =? EINTR then mret GFS_EVENT_EPOLL_WAIT_INTR
      else mret GFS_OK
  | WaitEv [] => mret GFS_EVENT_NOEVENTS
  | WaitEv evs => dispatch_events evs;; mret GFS_OK
  end.
End server.
