(* ===== verification/Fields.v ===== *)
(** Messages as sequences of fields.

    A block is written [concat fs]; a load or store at the offset of a field
    reads or replaces that field.  The tactic [busi_steps] runs the
    straight-line parts of the message handlers this way. *)
From S2P Require Import Prelude Rbtree Timer Bytes Tools NetBuf Sql NetMap State.

Lemma ld_concat fs i v n off :
  fs !! i = Some v → n = length v → off = length (concat (take i fs)) →
  ld_bytes n off (concat fs) = Some v.
Proof.
  intros Hi -> ->. rewrite <- (take_drop_middle fs i v Hi) at 2.
  rewrite concat_app. simpl. by apply ld_bytes_mid.
Qed.

Lemma st_concat fs i old v off :
  fs !! i = Some old → length v = length old → off = length (concat (take i fs)) →
  st_bytes off v (concat fs) = Some (concat (<[i:=v]> fs)).
Proof.
  intros Hi Hl ->. rewrite <- (take_drop_middle fs i old Hi) at 2.
  rewrite insert_take_drop by (by eapply lookup_lt_Some).
  rewrite !concat_app. simpl. by apply st_bytes_mid.
Qed.

(** A long enough block has fields of any given sizes. *)
Lemma split_fields (sizes : list nat) (l : bytes) :
  (sum_list sizes ≤ length l)%nat →
  ∃ fs rest, l = concat (fs ++ [rest]) ∧ length <$> fs = sizes.
Proof.
  revert l. induction sizes as [|n sizes IH]; intros l H; simpl in H.
  - exists [], l. simpl. by rewrite app_nil_r.
  - destruct (IH (drop n l)) as (fs & rest & Hd & Hl); [rewrite length_drop; lia|].
    exists (take n l :: fs), rest. split; [simpl; by rewrite <- Hd, take_drop|].
    rewrite fmap_cons, Hl, length_take. f_equal. lia.
Qed.

Lemma le_val_be_bytes n x : le_val (be_bytes n x) = bswap n x.
Proof. done. Qed.
Lemma be_bytes_is n x : is_bytes (be_bytes n x).
Proof. apply Forall_rev, le_bytes_is. Qed.
Lemma le_bytes_ntohl x : le_bytes 4 (ntohl (le_val (be_bytes 4 x))) = le_bytes 4 x.
Proof.
  change (le_val (be_bytes 4 x)) with (htonl x). rewrite ntohl_htonl.
  apply (le_bytes_mod 4).
Qed.
Lemma ntohll_bswap v : is_u64 v → ntohll v = bswap 8 v.
Proof. apply htonll_bswap. Qed.
Lemma le_bytes_ntohll x : le_bytes 8 (ntohll (le_val (be_bytes 8 x))) = le_bytes 8 x.
Proof.
  rewrite ntohll_bswap by apply (bswap_range 8).
  rewrite le_val_be_bytes, bswap_involutive. apply le_bytes_mod.
Qed.
Lemma le_bytes_le_val l n : is_bytes l → length l = n → le_bytes n (le_val l) = l.
Proof. intros ? <-. by apply le_bytes_val. Qed.

(** The hash of a request as text. *)
Lemma hash_run h :
  is_bytes h → length h = 16%nat → gfs_hextostr h 16 = Some (32, hex_digits h).
Proof.
  intros Hb Hl. unfold gfs_hextostr. change (Z.to_nat 16) with 16%nat. rewrite <- Hl.
  rewrite <- (app_nil_r h) at 2. by rewrite hextostr_run.
Qed.

Section fields.
Context {D : Type} `{!Env}.
Implicit Types (ns : svc D) (fs gs : list bytes).

(** Addresses are four bytes and ports are words. *)
Definition conns_ok ns : Prop :=
  map_Forall (λ _ c, length (c_addr c) = 4%nat ∧ is_u32 (u_port (c_user c))) (w_conns (tl_world ns)).
Lemma get_conn_inv a ns c ns' :
  get_conn a ns = Some (c, ns') → ns' = ns ∧ w_conns (tl_world ns) !! a = Some c.
Proof.
  unfold get_conn, getsM. destruct (w_conns _ !! a); [|done]. by intros [= <- <-].
Qed.

Lemma req_run n ty fs i v rsp sb c dl bl ns off :
  fs !! i = Some v → n = length v → off = length (concat (take i fs)) →
  getsM (λ b, ldn n off (b_req b)) (Busi ty (concat fs) rsp sb c dl bl ns) =
    Some (le_val v, Busi ty (concat fs) rsp sb c dl bl ns).
Proof. intros. unfold getsM, ldn. cbn [b_req]. by rewrite (ld_concat _ i v) by done. Qed.
Lemma req_bytes_run n ty fs i v rsp sb c dl bl ns off :
  fs !! i = Some v → n = length v → off = length (concat (take i fs)) →
  req_bytes n off (Busi ty (concat fs) rsp sb c dl bl ns) =
    Some (v, Busi ty (concat fs) rsp sb c dl bl ns).
Proof. intros. unfold req_bytes, getsM. cbn [b_req]. by rewrite (ld_concat _ i v) by done. Qed.
Lemma rsp_run n ty gs i v req sb c dl bl ns off :
  gs !! i = Some v → n = length v → off = length (concat (take i gs)) →
  getsM (λ b, ldn n off (b_rsp b)) (Busi ty req (concat gs) sb c dl bl ns) =
    Some (le_val v, Busi ty req (concat gs) sb c dl bl ns).
Proof. intros. unfold getsM, ldn. cbn [b_rsp]. by rewrite (ld_concat _ i v) by done. Qed.
Lemma rsp_bytes_run n ty gs i v req sb c dl bl ns off :
  gs !! i = Some v → n = length v → off = length (concat (take i gs)) →
  rsp_bytes n off (Busi ty req (concat gs) sb c dl bl ns) =
    Some (v, Busi ty req (concat gs) sb c dl bl ns).
Proof. intros. unfold rsp_bytes, getsM. cbn [b_rsp]. by rewrite (ld_concat _ i v) by done. Qed.

Lemma put_req_run n x ty fs i old rsp sb c dl bl ns off :
  fs !! i = Some old → n = length old → off = length (concat (take i fs)) →
  put_req n off x (Busi ty (concat fs) rsp sb c dl bl ns) =
    Some (tt, Busi ty (concat (<[i := le_bytes n x]> fs)) rsp sb c dl bl ns).
Proof.
  intros ? Hn ?. unfold put_req, set_req, stn, lift. M_unfold. cbn [b_req].
  by erewrite st_concat by (rewrite ?le_bytes_length; done).
Qed.
Lemma put_rsp_run n x ty gs i old req sb c dl bl ns off :
  gs !! i = Some old → n = length old → off = length (concat (take i gs)) →
  put_rsp n off x (Busi ty req (concat gs) sb c dl bl ns) =
    Some (tt, Busi ty req (concat (<[i := le_bytes n x]> gs)) sb c dl bl ns).
Proof.
  intros ? Hn ?. unfold put_rsp, set_rsp, stn, lift. M_unfold. cbn [b_rsp].
  by erewrite st_concat by (rewrite ?le_bytes_length; done).
Qed.

Lemma swap32_run x ty fs i rsp sb c dl bl ns off :
  fs !! i = Some (be_bytes 4 x) → off = length (concat (take i fs)) →
  swap_req32 off (Busi ty (concat fs) rsp sb c dl bl ns) =
    Some (tt, Busi ty (concat (<[i := le_bytes 4 x]> fs)) rsp sb c dl bl ns).
Proof.
  intros Hi Hoff. unfold swap_req32, req32.
  erewrite M_bind_Some by (eapply req_run; [exact Hi|by rewrite be_bytes_length|done]).
  erewrite put_req_run by (done || by rewrite be_bytes_length). by rewrite le_bytes_ntohl.
Qed.
Lemma swap64_run x ty fs i rsp sb c dl bl ns off :
  fs !! i = Some (be_bytes 8 x) → off = length (concat (take i fs)) →
  swap_req64 off (Busi ty (concat fs) rsp sb c dl bl ns) =
    Some (tt, Busi ty (concat (<[i := le_bytes 8 x]> fs)) rsp sb c dl bl ns).
Proof.
  intros Hi Hoff. unfold swap_req64, req64.
  erewrite M_bind_Some by (eapply req_run; [exact Hi|by rewrite be_bytes_length|done]).
  erewrite put_req_run by (done || by rewrite be_bytes_length). by rewrite le_bytes_ntohll.
Qed.

(** Copying the fields a response begins with. *)
Lemma rsp_prefix_run n ty gs1 gs gs2 req sb c dl bl ns :
  gs = gs1 ++ gs2 → n = length (concat gs1) →
  rsp_bytes n 0 (Busi ty req (concat gs) sb c dl bl ns) =
    Some (concat gs1, Busi ty req (concat gs) sb c dl bl ns).
Proof.
  intros -> ->. unfold rsp_bytes, getsM. cbn [b_rsp]. rewrite concat_app.
  by rewrite ld_bytes_front.
Qed.

(** The other fields of the request. *)
Lemma set_sbuf_run s ty req rsp sb c dl bl ns :
  set_sbuf s (Busi ty req rsp sb c dl bl ns) = Some (tt, Busi (D:=D) ty req rsp s c dl bl ns).
Proof. done. Qed.
Lemma set_dslist_run l ty req rsp sb c dl bl ns :
  set_dslist l (Busi ty req rsp sb c dl bl ns) = Some (tt, Busi (D:=D) ty req rsp sb c l bl ns).
Proof. done. Qed.
Lemma set_blist_run l ty req rsp sb c dl bl ns :
  set_blist l (Busi ty req rsp sb c dl bl ns) = Some (tt, Busi (D:=D) ty req rsp sb c dl l ns).
Proof. done. Qed.
Lemma lift_bind {A B} (o : option A) (f : A → M (busi D) B) x (b : busi D) :
  o = Some x → (lift o ≫= f) b = f x b.
Proof. by intros ->. Qed.

(** A call into the service. *)
Lemma in_ns_bind {A B} (m : M (svc D) A) (f : A → M (busi D) B) ty req rsp sb c dl bl ns :
  (in_ns m ≫= f) (Busi ty req rsp sb c dl bl ns) =
    (r ← m ns; f r.1 (Busi ty req rsp sb c dl bl r.2)).
Proof.
  unfold in_ns, zoom. M_unfold. cbn [b_ns]. by destruct (m ns) as [[x ns']|].
Qed.
End fields.

Lemma le_val_le_bytes4 x : is_u32 x → le_val (le_bytes 4 x) = x.
Proof. intros H. rewrite le_val_bytes. by apply Z.mod_small. Qed.
Lemma le_val_le_bytes8 x : is_u64 x → le_val (le_bytes 8 x) = x.
Proof. intros H. rewrite le_val_bytes. by apply Z.mod_small. Qed.
Lemma le_bytes_of_be n x : le_bytes n (le_val (be_bytes n x)) = be_bytes n x.
Proof. apply le_bytes_le_val; [apply be_bytes_is|apply be_bytes_length]. Qed.
Lemma ntohl_be x : ntohl (le_val (be_bytes 4 x)) = u32 x.
Proof. apply ntohl_htonl. Qed.
Lemma htonl_be x : htonl (le_val (be_bytes 4 x)) = u32 x.
Proof. apply ntohl_htonl. Qed.
(** Storing the head of an allocated block. *)
Lemma st_prefix v data :
  (length v ≤ length data)%nat → st_bytes 0 v data = Some (v ++ drop (length v) data).
Proof. intros H. rewrite st_bytes_ok by lia. by rewrite take_0. Qed.

Ltac split_fs Hl :=
  lazymatch type of Hl with
  | _ <$> ?fs = [] => apply fmap_nil_inv in Hl; subst fs; cbn [app]
  | _ <$> ?fs = _ =>
      destruct fs as [|? fs]; [discriminate Hl|];
      rewrite fmap_cons in Hl; injection Hl as ? Hl; split_fs Hl
  end.
(** [split_block l sizes] names the fields of the block [l]. *)
Ltac split_block l sizes :=
  let fs := fresh "fs" in let rest := fresh "rest" in let Hfs := fresh "Hfs" in
  destruct (split_fields sizes l) as (fs & rest & -> & Hfs); [simpl; lia|]; split_fs Hfs.

(** The side condition on an offset: lengths of literal field lists. *)
Ltac fld_off :=
  cbn [take concat]; rewrite ?length_app, ?be_bytes_length, ?le_bytes_length;
  cbn [length]; lia.
Ltac fld_len := rewrite ?be_bytes_length, ?le_bytes_length; cbn [length]; (done || lia).
Ltac fld_red := cbn [insert list_insert].

(** Try a lemma at every field of the list. *)
Ltac at_field tac :=
  first [tac 0%nat | tac 1%nat | tac 2%nat | tac 3%nat | tac 4%nat | tac 5%nat | tac 6%nat
        |tac 7%nat | tac 8%nat | tac 9%nat | tac 10%nat | tac 11%nat | tac 12%nat].

Ltac bstep1 :=
  lazymatch goal with
  | |- (swap_req32 _ ≫= _) _ = _ =>
      at_field ltac:(fun k => erewrite M_bind_Some; [|eapply swap32_run with (i := k); [reflexivity|fld_off]])
  | |- (swap_req64 _ ≫= _) _ = _ =>
      at_field ltac:(fun k => erewrite M_bind_Some; [|eapply swap64_run with (i := k); [reflexivity|fld_off]])
  | |- ((req32 _) ≫= _) _ = _ =>
      at_field ltac:(fun k => erewrite M_bind_Some; [|eapply (req_run 4) with (i := k); [reflexivity|fld_len|fld_off]])
  | |- ((req64 _) ≫= _) _ = _ =>
      at_field ltac:(fun k => erewrite M_bind_Some; [|eapply (req_run 8) with (i := k); [reflexivity|fld_len|fld_off]])
  | |- ((req_bytes _ _) ≫= _) _ = _ =>
      at_field ltac:(fun k => erewrite M_bind_Some; [|eapply req_bytes_run with (i := k); [reflexivity|fld_len|fld_off]])
  | |- ((rsp32 _) ≫= _) _ = _ =>
      at_field ltac:(fun k => erewrite M_bind_Some; [|eapply (rsp_run 4) with (i := k); [reflexivity|fld_len|fld_off]])
  | |- ((rsp_bytes _ _) ≫= _) _ = _ =>
      at_field ltac:(fun k => erewrite M_bind_Some; [|eapply rsp_bytes_run with (i := k); [reflexivity|fld_len|fld_off]])
  | |- ((put_rsp _ _ _) ≫= _) _ = _ =>
      at_field ltac:(fun k => erewrite M_bind_Some; [|eapply put_rsp_run with (i := k); [reflexivity|fld_len|fld_off]])
  | |- ((put_req _ _ _) ≫= _) _ = _ =>
      at_field ltac:(fun k => erewrite M_bind_Some; [|eapply put_req_run with (i := k); [reflexivity|fld_len|fld_off]])
  | |- (get ≫= _) _ = _ => erewrite M_bind_Some; [|reflexivity]; cbv beta;
      cbn [b_ns b_c b_sbuf b_req b_rsp b_type b_dslist b_blist]
  | |- (malloc _ ≫= _) _ = _ => erewrite M_bind_Some; [|reflexivity]
  | |- (mret _ ≫= _) _ = _ => erewrite M_bind_Some; [|reflexivity]
  | |- (set_sbuf _ ≫= _) _ = _ => erewrite M_bind_Some; [|apply set_sbuf_run]
  | |- (set_dslist _ ≫= _) _ = _ => erewrite M_bind_Some; [|apply set_dslist_run]
  | |- (set_blist _ ≫= _) _ = _ => erewrite M_bind_Some; [|apply set_blist_run]
  | |- ((_ ≫= _) ≫= _) _ = _ => rewrite M_bind_assoc
  | |- (rsp_head _ _ ≫= _) _ = _ => unfold rsp_head
  | |- (set_rtn _ ≫= _) _ = _ => unfold set_rtn
  | |- (req_hash ≫= _) _ = _ => unfold req_hash
  end; fld_red; cbv beta.

(** Values that come back out of fields. *)
Ltac fld_simpl :=
  rewrite ?le_bytes_of_be, ?le_bytes_htonl, ?ntohl_be, ?htonl_be;
  rewrite ?le_val_le_bytes4, ?le_val_le_bytes8 by assumption.
(** A program that ends in a store, as a bind. *)
Lemma M_bind_ret {S} (m : M S unit) s : (x ← m; mret x) s = m s.
Proof. M_unfold. by destruct (m s) as [[[] s']|]. Qed.

(** Writing on behind what has been written; [n] bytes are left. *)
Lemma st_append off fin v data :
  off = length fin → (length v ≤ length data)%nat →
  st_bytes off v (fin ++ data) = Some ((fin ++ v) ++ drop (length v) data).
Proof.
  intros -> H. rewrite <- (take_drop (length v) data) at 1.
  rewrite st_bytes_mid by (rewrite length_take; lia). by rewrite <- app_assoc.
Qed.
Lemma lift_prefix {D} {B} v data (f : bytes → M (busi D) B) b :
  (length v ≤ length data)%nat →
  (lift (st_bytes 0 v data) ≫= f) b = f (v ++ drop (length v) data) b.
Proof. intros H. by apply lift_bind, st_prefix. Qed.
Lemma lift_append {D} {B} off fin v data (f : bytes → M (busi D) B) b :
  off = length fin → (length v ≤ length data)%nat →
  (lift (st_bytes off v (fin ++ data)) ≫= f) b = f ((fin ++ v) ++ drop (length v) data) b.
Proof. intros ? H. by apply lift_bind, st_append. Qed.

Ltac bsteps := repeat (bstep1; fld_simpl).
