(* ===== verification/LoginSpec.v ===== *)
(** What the login and heartbeat requests promise, and that the handlers keep
    it. *)
From S2P Require Import Prelude Rbtree Timer Bytes NetBuf Sql State Login Busi Fields.

(** A login request on the wire and its answer. *)
Record login_msg := LoginMsg {
  lm_id : Z; lm_encrypt : Z; lm_type : Z; lm_dsid : Z; lm_remain : Z; lm_disk : Z; lm_port : Z }.
Definition login_msg_ok (m : login_msg) : Prop :=
  is_u32 (lm_encrypt m) ∧ is_u32 (lm_type m) ∧ is_u32 (lm_dsid m) ∧ is_u64 (lm_remain m) ∧
  is_u64 (lm_disk m) ∧ is_u32 (lm_port m).
Definition login_req (m : login_msg) : list bytes :=
  [be_bytes 4 48; be_bytes 4 (lm_id m); be_bytes 4 1; be_bytes 4 (lm_encrypt m);
   be_bytes 4 (lm_type m); be_bytes 4 (lm_dsid m); be_bytes 8 (lm_remain m);
   be_bytes 8 (lm_disk m); be_bytes 4 (lm_port m); be_bytes 4 0].
Definition login_ans (id rtn bsize : Z) : list bytes :=
  [be_bytes 4 28; be_bytes 4 id; be_bytes 4 1; be_bytes 4 rtn; be_bytes 4 0;
   be_bytes 4 bsize; be_bytes 4 0].

Section spec.
Context {D : Type} `{!Mysql D, !Env}.

(** The effect of a login on the service, and the code of the answer. *)
Definition login_effect (a : Z) (m : login_msg) : M (svc D) Z :=
  if negb (lm_encrypt m =? 0) then mret GFS_BUSI_RTN_OK
  else if lm_type m =? GFS_CLIENT_TYPE_PS then mret GFS_BUSI_RTN_OK
  else if negb (lm_type m =? GFS_CLIENT_TYPE_DS) then mret GFS_BUSI_RTN_UNKNOWN_CLIENT
  else if lm_disk m <? lm_remain m then mret GFS_BUSI_RTN_OK
  else
    ret ← in_sql (gfs_mysql_login (lm_dsid m) (lm_disk m) (lm_remain m));
    if negb (ret =? SQL_OK) then mret GFS_BUSI_RTN_SYS_ERR else
    if lm_disk m =? 0 then ub else
    upd_conn a (λ c, conn_user (User (lm_type m) (lm_dsid m) (lm_remain m) (lm_disk m)
      (u32 (u64 (lm_remain m * 100) `div` lm_disk m)) (u_weight (c_user c)) (lm_port m)) c);;
    ret ← map_add (lm_dsid m) a;
    mret (if negb (ret =? GFS_OK) then GFS_BUSI_RTN_SYS_ERR else GFS_BUSI_RTN_OK).

(** The request after [gfs_busi_login_parse]: the fields but the first three in
    host order. *)
Definition login_host (m : login_msg) : list bytes :=
  [le_bytes 4 48; be_bytes 4 (lm_id m); be_bytes 4 1; le_bytes 4 (lm_encrypt m);
   le_bytes 4 (lm_type m); le_bytes 4 (lm_dsid m); le_bytes 8 (lm_remain m);
   le_bytes 8 (lm_disk m); le_bytes 4 (lm_port m); le_bytes 4 0].

Lemma login_parse_run m slack rsp sb a dl bl (ns : svc D) :
  gfs_busi_login_parse (Busi 1 (concat (login_req m ++ [slack])) rsp sb a dl bl ns) =
    Some (GFS_OK, Busi 1 (concat (login_host m ++ [slack])) rsp sb a dl bl ns).
Proof.
  unfold gfs_busi_login_parse. cbn [login_req app]. bsteps.
  change (negb (_ =? 48)) with false. cbv iota. by bsteps.
Qed.

Lemma login_handle_run m slack rsp sb a dl bl (ns : svc D) :
  login_msg_ok m → (28 ≤ length rsp)%nat → ∃ rest,
  gfs_busi_login_handle (Busi 1 (concat (login_host m ++ [slack])) rsp sb a dl bl ns) =
    (r ← login_effect a m ns;
     Some (GFS_OK, Busi 1 (concat (login_host m ++ [slack]))
       (concat (login_ans (lm_id m) r.1 (w_block_size (tl_world ns)) ++ [rest])) sb a dl bl r.2)).
Proof.
  intros (H1 & H2 & H3 & H4 & H5 & H6) Hrsp.
  split_block rsp [4; 4; 4; 4; 4; 4; 4]%nat. exists rest.
  unfold gfs_busi_login_handle, login_rsp, login_effect. cbn [login_host app]. bsteps.
  destruct (lm_encrypt m =? 0); cbn [negb]; cbv iota; [|by bsteps]. bsteps.
  destruct (lm_type m =? GFS_CLIENT_TYPE_PS); [done|].
  destruct (lm_type m =? GFS_CLIENT_TYPE_DS); cbn [negb]; cbv iota; [|by bsteps]. bsteps.
  destruct (lm_disk m <? lm_remain m); [by bsteps|].
  rewrite in_ns_bind, (M_bind_opt (in_sql _)).
  destruct (in_sql _ ns) as [[ret ns1]|]; [|done]. cbn [mbind option_bind fst snd].
  destruct (ret =? SQL_OK); cbn [negb]; cbv iota; [|by bsteps].
  destruct (lm_disk m =? 0); [done|].
  rewrite in_ns_bind, (M_bind_opt (upd_conn _ _)).
  destruct (upd_conn _ _ ns1) as [[[] ns2]|]; [|done]. cbn [mbind option_bind fst snd].
  rewrite in_ns_bind, (M_bind_opt (map_add _ _)).
  destruct (map_add _ _ ns2) as [[ret' ns3]|]; [|done]. cbn [mbind option_bind fst snd].
  destruct (ret' =? GFS_OK); cbn [negb]; cbv iota; by bsteps.
Qed.

Lemma login_tobuf_run id rtn bsize req rest data a dl bl (ns : svc D) :
  env_malloc (htonl 28) = Some data →
  let ans := login_ans id rtn bsize in
  gfs_busi_login_tobuf (Busi 1 req (concat (ans ++ [rest])) (NetBuf [] 0 0 0) a dl bl ns) =
    Some (GFS_OK, Busi 1 req (concat (ans ++ [rest]))
            (NetBuf (concat ans ++ drop 28 data) 28 28 0) a dl bl ns).
Proof.
  intros Hdata ans. unfold gfs_busi_login_tobuf.
  assert (length (concat ans) = 28%nat) as Hlen by done.
  assert (28 ≤ length data)%nat as Hsz.
  { apply env_malloc_size in Hdata. assert (28 ≤ htonl 28) by done. lia. }
  unfold rsp32. erewrite M_bind_Some by (by apply (rsp_run 4) with (i := 0%nat)). bsteps.
  change (le_val (be_bytes 4 28)) with (htonl 28). rewrite Hdata.
  erewrite M_bind_Some by (by eapply (rsp_prefix_run _ _ ans)).
  rewrite (lift_bind _ _ _ _ (st_prefix (concat ans) data ltac:(rewrite Hlen; exact Hsz))), Hlen. done.
Qed.

(** C28: a login request is answered by one login response: for every
    well-formed request the three handlers leave in [sbuf] the 28 bytes of the
    answer with the code that [login_effect] gives, and change the service as
    it says: the database is told, the connection takes the data of the
    server and enters the map of data servers.  The buffer for the answer must
    come from an allocation of [htonl(28)] bytes. *)
Theorem gfs_busi_login_refines m slack rsp data a dl bl (ns : svc D) :
  login_msg_ok m → (28 ≤ length rsp)%nat → env_malloc (htonl 28) = Some data →
  ∃ req' rest,
  busi_case gfs_busi_login_parse gfs_busi_login_handle gfs_busi_login_tobuf
    (Busi 1 (concat (login_req m ++ [slack])) rsp (NetBuf [] 0 0 0) a dl bl ns) =
  (r ← login_effect a m ns;
   let ans := login_ans (lm_id m) r.1 (w_block_size (tl_world ns)) in
   Some (GFS_OK, Busi 1 req' (concat (ans ++ [rest]))
     (NetBuf (concat ans ++ drop 28 data) 28 28 0) a dl bl r.2)).
Proof.
  intros Hm Hrsp Hdata.
  destruct (login_handle_run m slack rsp (NetBuf [] 0 0 0) a dl bl ns Hm Hrsp) as [rest Hh].
  exists (concat (login_host m ++ [slack])), rest. unfold busi_case.
  rewrite (M_bind_Some _ _ _ _ _ (login_parse_run _ _ _ _ _ _ _ _)). cbn [negb Z.eqb GFS_OK].
  rewrite M_bind_opt, Hh. destruct (login_effect a m ns) as [[rtn ns']|]; [|done].
  by apply login_tobuf_run.
Qed.
End spec.
