(* ===== verification/UploadSpec.v ===== *)
(** What an upload request promises, and that its handlers keep it. *)
From S2P Require Import Prelude Queue Rbtree Timer Bytes Tools NetBuf Sql NetMap State Upload Busi Fields.

(** An upload request on the wire. *)
Record upload_msg := UploadMsg {
  um_id : Z; um_encrypt : Z; um_hash : bytes; um_fsize : Z; um_bnum : Z; um_bindex : Z }.
Definition upload_msg_ok (m : upload_msg) : Prop :=
  is_u32 (um_encrypt m) ∧ is_bytes (um_hash m) ∧ length (um_hash m) = 16%nat ∧
  is_u64 (um_fsize m) ∧ is_u32 (um_bnum m) ∧ is_u32 (um_bindex m).
Definition upload_req (m : upload_msg) : list bytes :=
  [be_bytes 4 52; be_bytes 4 (um_id m); be_bytes 4 2; be_bytes 4 (um_encrypt m); um_hash m;
   be_bytes 8 (um_fsize m); be_bytes 4 (um_bnum m); be_bytes 4 (um_bindex m); be_bytes 4 0].
Definition upload_host (m : upload_msg) : list bytes :=
  [le_bytes 4 52; be_bytes 4 (um_id m); be_bytes 4 2; le_bytes 4 (um_encrypt m); um_hash m;
   le_bytes 8 (um_fsize m); le_bytes 4 (um_bnum m); le_bytes 4 (um_bindex m); le_bytes 4 0].

(** An entry of the list of servers: the address, twelve bytes of the block
    that are never written, and the port. *)
Fixpoint ds_bytes (conns : list conn) (blk : bytes) : bytes :=
  match conns with
  | [] => []
  | c :: conns =>
      c_addr c ++ take 12 (drop 4 blk) ++ be_bytes 4 (u_port (c_user c)) ++
      ds_bytes conns (drop 20 blk)
  end.

(** The answer: code, file id and servers. *)
Record upload_out := UploadOut { uo_rtn : Z; uo_fid : Z; uo_num : Z; uo_list : bytes }.
Definition upload_ans (id : Z) (o : upload_out) : bytes :=
  be_bytes 4 (36 + uo_num o * 20) ++ be_bytes 4 id ++ be_bytes 4 2 ++ be_bytes 4 (uo_rtn o) ++
  be_bytes 4 0 ++ be_bytes 8 (uo_fid o) ++ be_bytes 4 (uo_num o) ++ uo_list o ++ [0; 0; 0; 0].

Section spec.
Context {D : Type} `{!Mysql D, !Env}.
Implicit Types ns : svc D.

(** The connections behind a list of addresses. *)
Fixpoint get_conns (l : list Z) : M (svc D) (list conn) :=
  match l with
  | [] => mret []
  | a :: l => c ← get_conn a; t ← get_conns l; mret (c :: t)
  end.

(** The outcome of [gfs_mysql_upload]. *)
Definition upload_result (num : Z) (l : bytes) (r : Z * Z * Z) : upload_out :=
  let '(ret, status, fid) := r in
  if negb (ret =? SQL_OK) then UploadOut GFS_BUSI_RTN_SYS_ERR 0 num l
  else if status =? SQL_FILE_EXIT_COMPLETE then UploadOut GFS_BUSI_RTN_FILE_FINISHED 0 num l
  else if status =? SQL_BLOCK_EXIST then UploadOut GFS_BUSI_RTN_BLOCK_EXIST 0 num l
  else UploadOut GFS_BUSI_RTN_OK fid num l.

(** The effect of an upload on the service, and its answer.  A failed
    allocation of the list leaves a null pointer with a count that is not
    zero, which the copying follows. *)
Definition upload_effect (m : upload_msg) : M (svc D) upload_out :=
  if negb (um_encrypt m =? 0) then mret (UploadOut GFS_BUSI_RTN_OK 0 0 [])
  else if (i32 (um_bindex m) <? -1) || (um_bnum m <? 1) || (um_fsize m <=? 0) then
    mret (UploadOut GFS_BUSI_RTN_OK 0 0 [])
  else if 150 <? um_bnum m then mret (UploadOut GFS_BUSI_RTN_BLOCK_TOO_MUCH 0 0 [])
  else
    r ← map_gettopn 3;
    let num := Z.of_nat (length r.2) in
    if num =? 0 then mret (UploadOut GFS_BUSI_RTN_NO_DS_USE 0 0 []) else
    match env_malloc (num * 20) with
    | None => ub
    | Some blk =>
        conns ← get_conns r.2;
        q ← in_sql (gfs_mysql_upload (hex_digits (um_hash m)) (um_fsize m) (um_bnum m)
                      (i32 (um_bindex m)) 0);
        mret (upload_result num (ds_bytes conns blk) q)
    end.

Lemma upload_parse_run m slack rsp sb a dl bl ns :
  length (um_hash m) = 16%nat →
  gfs_busi_upload_parse (Busi 2 (concat (upload_req m ++ [slack])) rsp sb a dl bl ns) =
    Some (GFS_OK, Busi 2 (concat (upload_host m ++ [slack])) rsp sb a dl bl ns).
Proof.
  intros Hh. unfold gfs_busi_upload_parse. cbn [upload_req app]. bsteps.
  change (negb (_ =? 52)) with false. cbv iota. by bsteps.
Qed.

Lemma get_conns_length l ns conns ns' :
  get_conns l ns = Some (conns, ns') → length conns = length l ∧ ns' = ns.
Proof.
  revert conns ns'. induction l as [|a l IH]; intros conns ns'; simpl.
  - intros [= <- <-]. done.
  - intros (c & s & Hc & Hr)%M_bind_inv. apply M_bind_inv in Hr as (t & s' & Ht & [= <- <-]).
    unfold get_conn, getsM in Hc. destruct (w_conns _ !! a); [|done]. injection Hc as <- <-.
    apply IH in Ht as [<- ->]. done.
Qed.

Lemma ds_bytes_length conns blk :
  Forall (λ c, length (c_addr c) = 4%nat) conns → (20 * length conns ≤ length blk)%nat →
  length (ds_bytes conns blk) = (20 * length conns)%nat.
Proof.
  intros Hc. revert blk. induction Hc as [|c conns Hc Hcs IH]; intros blk Hl; [done|].
  cbn [length ds_bytes] in *. rewrite !length_app, be_bytes_length, length_take, length_drop, IH
    by (rewrite length_drop; lia). lia.
Qed.

Lemma ds_entry_split (blk : bytes) :
  (20 ≤ length blk)%nat →
  ∃ b4 p rest, blk = b4 ++ take 12 (drop 4 blk) ++ p ++ rest ∧ length b4 = 4%nat ∧
    length p = 4%nat ∧ rest = drop 20 blk.
Proof.
  intros Hl. exists (take 4 blk), (take 4 (drop 16 blk)), (drop 20 blk).
  rewrite !length_take, !length_drop. split_and!; [|lia..|done].
  rewrite <- (take_drop 4 blk) at 1. f_equal. rewrite <- (take_drop 12 (drop 4 blk)) at 1. f_equal.
  rewrite drop_drop. rewrite <- (take_drop 4 (drop (4 + 12) blk)) at 1. by rewrite drop_drop.
Qed.

Lemma fill_dslist_run pnet i fin blk b ns :
  b_ns b = ns → conns_ok ns → length fin = (20 * i)%nat → (20 * length pnet ≤ length blk)%nat →
  fill_dslist pnet i (fin ++ blk) b =
    (r ← get_conns pnet ns; Some (fin ++ ds_bytes r.1 blk ++ drop (20 * length pnet) blk, b)).
Proof.
  intros Hb Hok. revert i fin blk. induction pnet as [|a pnet IH]; intros i fin blk Hfin Hblk.
  { simpl. by rewrite drop_0. }
  cbn [fill_dslist get_conns]. destruct b as [ty req rsp sb c dl bl ns0]. simpl in Hb. subst ns0.
  rewrite in_ns_bind, (M_bind_opt (get_conn a)).
  destruct (get_conn a ns) as [[cn ns']|] eqn:Hc; [|done]. cbn [mbind option_bind fst snd].
  unfold get_conn, getsM in Hc. destruct (w_conns _ !! a) as [cn'|] eqn:Hl; [|done].
  injection Hc as <- <-. destruct (Hok _ _ Hl) as [H4 Hport].
  rewrite length_cons in Hblk.
  destruct (ds_entry_split blk) as (b4 & p & rest & Hsplit & Hb4 & Hp & Hrest); [lia|].
  set (g := take 12 (drop 4 blk)) in *.
  assert (length g = 12%nat) as Hg by (unfold g; rewrite length_take, length_drop; lia).
  replace (fin ++ blk) with (concat [fin; b4; g; p; rest])
    by (rewrite Hsplit; simpl; by rewrite !app_nil_r).
  erewrite lift_bind by (apply st_concat with (i := 1%nat) (old := b4);
    [done|lia|simpl; rewrite app_nil_r; lia]). fld_red.
  unfold stn at 1.
  erewrite lift_bind by (apply st_concat with (i := 3%nat) (old := p);
    [done|by rewrite le_bytes_length|simpl; rewrite !length_app; simpl; lia]). fld_red.
  rewrite le_bytes_htonl.
  replace (concat [fin; c_addr cn'; g; be_bytes 4 (u_port (c_user cn')); rest])
    with ((fin ++ c_addr cn' ++ g ++ be_bytes 4 (u_port (c_user cn'))) ++ rest)
    by (simpl; by rewrite <- !app_assoc, app_nil_r).
  rewrite IH; [|rewrite !length_app, be_bytes_length; lia|rewrite Hrest, length_drop; lia].
  rewrite (M_bind_opt (get_conns pnet)).
  destruct (get_conns pnet ns) as [[cs ns']|]; [|done]. cbn [mbind option_bind fst snd].
  unfold mret, M_ret. cbn [mbind option_bind fst snd ds_bytes]. fold g. rewrite <- Hrest.
  replace (drop (20 * length (a :: pnet)) blk) with (drop (20 * length pnet) rest)
    by (rewrite Hrest, drop_drop; f_equal; cbn [length]; lia).
  by rewrite <- !app_assoc.
Qed.

(** The list has at most as many entries as were asked for. *)
Lemma topn_loop_length n q index num st l st' :
  index < num → topn_loop env_dslist n q index num st = Some (l, st') → Z.of_nat (length l) ≤ num - index.
Proof.
  revert q index st l st'. induction n as [|n IH]; intros q index st l st' Hi; [done|]. cbn [topn_loop].
  case_bool_decide; [intros [= <- <-]; simpl; lia|].
  intros (d & s1 & _ & Hr)%M_bind_inv.
  destruct (Z.leb_spec num (index + 1)); [injection Hr as <- <-; simpl; lia|].
  apply M_bind_inv in Hr as (q' & s2 & _ & Hr). apply M_bind_inv in Hr as (t & s3 & Ht & [= <- <-]).
  apply IH in Ht; [|lia]. cbn [length]. lia.
Qed.
Lemma map_gettopn_length num ns r ns' :
  1 ≤ num → map_gettopn num ns = Some (r, ns') → r.1 = GFS_OK ∧ Z.of_nat (length r.2) ≤ num ∧
  w_conns (tl_world ns') = w_conns (tl_world ns).
Proof.
  intros Hn. unfold map_gettopn. intros (w & s & [= <- <-] & Hr)%M_bind_inv.
  unfold in_map, zoom in Hr.
  destruct (gfs_net_map_gettopn _ _ _ _ _ _) as [[x q]|] eqn:Ht; [|done]. injection Hr as <- <-.
  unfold gfs_net_map_gettopn in Ht. destruct (Z.ltb_spec num 1); [lia|].
  apply M_bind_inv in Ht as (st & s1 & _ & Ht). apply M_bind_inv in Ht as (u & s2 & _ & Ht).
  apply M_bind_inv in Ht as (q0 & s3 & _ & Ht). apply M_bind_inv in Ht as (l & s4 & Hl & [= <- <-]).
  split; [done|]. split; [|done]. apply topn_loop_length in Hl; simpl; lia.
Qed.

(** The response block and the list behind [dslist] when the handler is
    done. *)
Definition upload_block (id : Z) (o : upload_out) (p1 p2 p3 : bytes) : list bytes :=
  [be_bytes 4 (36 + uo_num o * 20); be_bytes 4 id; be_bytes 4 2; be_bytes 4 (uo_rtn o);
   be_bytes 4 0; p1; be_bytes 8 (uo_fid o); be_bytes 4 (uo_num o); p2; p3; be_bytes 4 0].
Definition upload_list (o : upload_out) : option bytes :=
  if uo_num o =? 0 then None
  else blk ← env_malloc (uo_num o * 20); Some (uo_list o ++ drop (Z.to_nat (20 * uo_num o)) blk).

Lemma gfs_mysql_upload_fid h fs bn bi (st : sqlst D) ret status fid st' :
  gfs_mysql_upload h fs bn bi 0 st = Some ((ret, status, fid), st') → is_u64 fid.
Proof.
  intros [[e [= -> -> ->]]|(c & q & s & Hr)]%run_query_inv; [done|].
  apply M_bind_inv in Hr as (r & s4 & Hq & Hr). apply M_bind_inv in Hr as (u' & s5 & _ & [= -> <-]).
  repeat case_match; try discriminate Hq; try (injection Hq as <- <- <- <-; done).
  apply M_bind_inv in Hq as (x & s6 & _ & Hq). apply M_bind_inv in Hq as (y & s7 & _ & [= <- <- <- <-]).
  apply u64_range.
Qed.

Lemma upload_file_run m id num l ty slack p1 p2 p3 rest sb a dl bl ns :
  upload_msg_ok m → length p1 = 4%nat →
  upload_file (Busi ty (concat (upload_host m ++ [slack]))
    (concat (upload_block id (UploadOut GFS_BUSI_RTN_OK 0 num []) p1 p2 p3 ++ [rest])) sb a dl bl ns) =
  (r ← in_sql (gfs_mysql_upload (hex_digits (um_hash m)) (um_fsize m) (um_bnum m) (i32 (um_bindex m)) 0) ns;
   Some (GFS_OK, Busi ty (concat (upload_host m ++ [slack]))
     (concat (upload_block id (upload_result num l r.1) p1 p2 p3 ++ [rest])) sb a dl bl r.2)).
Proof.
  intros (H1 & H2 & H3 & H4 & H5 & H6) Hp1.
  unfold upload_file. cbn [upload_host upload_block app uo_rtn uo_fid uo_num]. bsteps.
  erewrite lift_bind by (by apply hash_run). bsteps.
  rewrite in_ns_bind.
  destruct (in_sql _ ns) as [[[[ret status] fid] ns1]|] eqn:Hq; [|done]. cbn [mbind option_bind fst snd].
  unfold upload_result.
  destruct (ret =? SQL_OK); cbn [negb]; cbv iota; [|by bsteps].
  destruct (status =? SQL_FILE_EXIT_COMPLETE); [by bsteps|].
  destruct (status =? SQL_BLOCK_EXIST); [by bsteps|]. bsteps.
  rewrite le_bytes_htonll; [done|].
  unfold in_sql, zoom in Hq. destruct (gfs_mysql_upload _ _ _ _ _ _) as [[[[??]?] ?]|] eqn:Hq'; [|done].
  injection Hq as -> -> -> <-. by eapply gfs_mysql_upload_fid.
Qed.

Lemma upload_handle_run m slack rsp sb a dl bl ns :
  upload_msg_ok m → conns_ok ns → (56 ≤ length rsp)%nat →
  (∀ k, 1 ≤ k ≤ 3 → is_Some (env_malloc (k * 20))) → ∃ p1 p2 p3 rest,
  length p1 = 4%nat ∧ length p2 = 4%nat ∧ length p3 = 8%nat ∧
  gfs_busi_upload_handle (Busi 2 (concat (upload_host m ++ [slack])) rsp sb a dl bl ns) =
  (o ← upload_effect m ns;
   Some (GFS_OK, Busi 2 (concat (upload_host m ++ [slack]))
     (concat (upload_block (um_id m) o.1 p1 p2 p3 ++ [rest])) sb a (upload_list o.1) bl o.2)).
Proof.
  intros Hm Hok Hrsp Hmem. pose proof Hm as (H1 & H2 & H3 & H4 & H5 & H6).
  split_block rsp [4; 4; 4; 4; 4; 4; 8; 4; 4; 8; 4]%nat.
  exists l4, l7, l8, rest. split; [done|]. split; [done|]. split; [done|].
  unfold gfs_busi_upload_handle, upload_rsp, upload_effect. cbn [upload_host app]. bsteps.
  destruct (um_encrypt m =? 0); cbn [negb]; cbv iota; [|by bsteps]. bsteps.
  destruct ((i32 (um_bindex m) <? -1) || (um_bnum m <? 1) || (um_fsize m <=? 0)); [by bsteps|].
  destruct (150 <? um_bnum m); [by bsteps|].
  rewrite in_ns_bind, (M_bind_opt (map_gettopn 3)).
  destruct (map_gettopn 3 ns) as [[[ret pnet] ns1]|] eqn:Htop; [|done]. cbn [mbind option_bind fst snd].
  apply map_gettopn_length in Htop as (Hret & Hlen & Hconns); [|lia]. simpl in Hret, Hlen. subst ret.
  cbn [negb Z.eqb GFS_OK]. cbv iota. bsteps.
  set (num := Z.of_nat (length pnet)) in *.
  assert (conns_ok ns1) as Hok1 by (unfold conns_ok; by rewrite Hconns).
  destruct (Z.eqb_spec num 0) as [Hn0|Hn0].
  { rewrite Hn0. change (le_val (be_bytes 4 0) =? 0) with true. cbv iota. by bsteps. }
  assert ((le_val (be_bytes 4 num) =? 0) = false) as ->.
  { assert (num = 1 ∨ num = 2 ∨ num = 3) as [-> | [-> | ->]] by lia; done. }
  assert (u32 (u32 36 + num * 20) = 36 + num * 20) as -> by (change (u32 36) with 36; apply u32_small; unfold is_u32; lia).
  destruct (Hmem num) as [blk Hblk]; [lia|]. bsteps. rewrite Hblk.
  assert (20 * length pnet ≤ length blk)%nat as Hsz by (apply env_malloc_size in Hblk; lia).
  rewrite M_bind_opt. change blk with ([] ++ blk) at 1.
  rewrite (fill_dslist_run _ _ _ _ _ ns1); [|done|exact Hok1|done|exact Hsz]. rewrite (M_bind_opt (get_conns pnet)).
  destruct (get_conns pnet ns1) as [[conns ns1']|] eqn:Hcs; [|done]. cbn [mbind option_bind fst snd].
  apply get_conns_length in Hcs as [Hcl ->]. cbn [app]. bsteps.
  rewrite (M_bind_opt (in_sql _)).
  change (le_bytes 8 (htonl 0)) with (be_bytes 8 0).
  pose proof (upload_file_run m (um_id m) num (ds_bytes conns blk) 2 slack l4 l7 l8 rest sb a
    (Some (ds_bytes conns blk ++ drop (20 * length pnet) blk)) bl ns1 Hm ltac:(done)) as Hfile.
  cbn [upload_host upload_block app uo_rtn uo_fid uo_num] in Hfile. rewrite Hfile.
  destruct (in_sql _ ns1) as [[q ns2]|]; [|done]. cbn [mbind option_bind fst snd].
  assert (upload_list (upload_result num (ds_bytes conns blk) q) =
    Some (ds_bytes conns blk ++ drop (20 * length pnet) blk)) as Hlist.
  { unfold upload_list. replace (uo_num (upload_result _ _ _)) with num
      by (unfold upload_result; by repeat case_match).
    replace (uo_list (upload_result _ _ _)) with (ds_bytes conns blk)
      by (unfold upload_result; by repeat case_match).
    destruct (Z.eqb_spec num 0); [done|]. rewrite Hblk. cbn [mbind option_bind]. do 3 f_equal. lia. }
  unfold mret at 1, M_ret. cbn [mbind option_bind fst snd]. by rewrite Hlist.
Qed.

(** What [upload_effect] can answer: at most three servers, and the list they
    fill. *)
Lemma upload_effect_out m ns o ns' :
  conns_ok ns → upload_effect m ns = Some (o, ns') →
  0 ≤ uo_num o ≤ 3 ∧ length (uo_list o) = Z.to_nat (20 * uo_num o) ∧
  (uo_num o ≠ 0 → is_Some (env_malloc (uo_num o * 20))).
Proof.
  intros Hok. unfold upload_effect.
  destruct (negb _); [by intros [= <- _]|]. destruct (_ || _); [by intros [= <- _]|].
  destruct (150 <? _); [by intros [= <- _]|].
  intros ([ret pnet] & s1 & Htop & Hr)%M_bind_inv. cbn [snd] in Hr.
  apply map_gettopn_length in Htop as (_ & Hlen & Hconns); [|lia]. cbn [snd] in Hlen.
  destruct (Z.of_nat (length pnet) =? 0); [by injection Hr as <- _|].
  destruct (env_malloc _) as [blk|] eqn:Hblk; [|done].
  apply M_bind_inv in Hr as (conns & s2 & Hcs & Hr). apply M_bind_inv in Hr as (q & s3 & _ & [= <- _]).
  assert (Forall (λ c, length (c_addr c) = 4%nat) conns) as Hc4.
  { clear -Hok Hconns Hcs. unfold conns_ok in Hok. rewrite <- Hconns in Hok. clear Hconns.
    revert conns s1 s2 Hok Hcs. induction pnet as [|p pnet IH]; intros conns s1 s2 Hok Hcs.
    - by injection Hcs as <- _.
    - apply M_bind_inv in Hcs as (c & s3 & Hc & Hcs). apply M_bind_inv in Hcs as (t & s4 & Ht & [= <- _]).
      unfold get_conn, getsM in Hc. destruct (w_conns _ !! p) as [c'|] eqn:Hl; [|done].
      injection Hc as -> <-. constructor; [by apply (Hok p)|by eapply IH]. }
  apply get_conns_length in Hcs as [Hcl _].
  assert (20 * length conns ≤ length blk)%nat as Hsz by (apply env_malloc_size in Hblk; lia).
  pose proof (ds_bytes_length conns blk Hc4 Hsz) as Hds.
  assert (∀ l, uo_num (upload_result (Z.of_nat (length pnet)) l q) = Z.of_nat (length pnet) ∧
    uo_list (upload_result (Z.of_nat (length pnet)) l q) = l) as Hres
    by (intros l; unfold upload_result; by repeat case_match).
  destruct (Hres (ds_bytes conns blk)) as [-> ->]. rewrite Hds. split_and!; [lia|lia|lia|by eexists].
Qed.

Lemma dslist_run o ty req rsp sb a bl ns :
  0 ≤ uo_num o → length (uo_list o) = Z.to_nat (20 * uo_num o) →
  (uo_num o ≠ 0 → is_Some (env_malloc (uo_num o * 20))) →
  dslist_bytes (uo_num o * 20) (Busi ty req rsp sb a (upload_list o) bl ns) =
    Some (uo_list o, Busi ty req rsp sb a (upload_list o) bl ns).
Proof.
  intros Hn Hll Hmem. unfold dslist_bytes. rewrite M_bind_opt.
  cbn [get mbind option_bind fst snd b_dslist]. unfold upload_list. destruct (Z.eqb_spec (uo_num o) 0) as [H0|H0].
  - rewrite H0 in *. cbn. by destruct (uo_list o).
  - destruct (Hmem H0) as [blk ->]. cbn [mbind option_bind].
    unfold lift. rewrite ld_bytes_front; [done|]. rewrite Hll. f_equal. lia.
Qed.

Lemma upload_tobuf_run m o p1 p2 p3 rest req data a bl ns :
  0 ≤ uo_num o ≤ 3 → length (uo_list o) = Z.to_nat (20 * uo_num o) →
  (uo_num o ≠ 0 → is_Some (env_malloc (uo_num o * 20))) →
  length p1 = 4%nat → length p2 = 4%nat → length p3 = 8%nat →
  env_malloc (36 + uo_num o * 20) = Some data →
  gfs_busi_upload_tobuf (Busi 2 req (concat (upload_block (um_id m) o p1 p2 p3 ++ [rest]))
    (NetBuf [] 0 0 0) a (upload_list o) bl ns) =
  Some (GFS_OK, Busi 2 req (concat (upload_block (um_id m) o p1 p2 p3 ++ [rest]))
    (NetBuf (upload_ans (um_id m) o ++ drop (Z.to_nat (36 + uo_num o * 20)) data)
       (36 + uo_num o * 20) (36 + uo_num o * 20) 0) a None bl ns).
Proof.
  intros Hn Hll Hmem Hp1 Hp2 Hp3 Hdata. unfold gfs_busi_upload_tobuf. cbn [upload_block app]. bsteps.
  assert (u32 (36 + uo_num o * 20) = 36 + uo_num o * 20) as -> by (apply u32_small; unfold is_u32; lia).
  rewrite Hdata.
  apply env_malloc_size in Hdata. set (n := Z.to_nat (20 * uo_num o)) in *.
  assert (36 + n ≤ length data)%nat as Hsz by lia.
  assert (u32 (u32 (uo_num o) * 20) = uo_num o * 20) as Hu
    by (rewrite (u32_small (uo_num o)), u32_small; unfold is_u32; lia).
  assert (Z.to_nat (uo_num o * 20) = n) as Hn' by lia.
  set (head := [be_bytes 4 (36 + uo_num o * 20); be_bytes 4 (um_id m); be_bytes 4 2;
    be_bytes 4 (uo_rtn o); be_bytes 4 0]).
  assert (length (concat head) = 20%nat) as Hhead by done.
  erewrite M_bind_Some by (by eapply (rsp_prefix_run 20 2 head)).
  rewrite lift_prefix by lia. rewrite Hhead. cbv beta. bsteps.
  rewrite lift_append by (rewrite ?length_drop, ?be_bytes_length; lia).
  rewrite be_bytes_length, drop_drop. cbv beta. bsteps.
  rewrite lift_append by (rewrite ?length_app, ?length_drop, ?be_bytes_length; lia).
  rewrite be_bytes_length, drop_drop. cbv beta. bsteps. rewrite Hu, Hn'.
  erewrite M_bind_Some by (apply dslist_run; [lia|done|done]).
  rewrite lift_append by (rewrite ?length_app, ?length_drop, ?be_bytes_length; lia). cbv beta.
  rewrite Hll, drop_drop.
  rewrite lift_append by (rewrite ?length_app, ?length_drop, ?be_bytes_length; cbn [length]; lia).
  cbv beta. bsteps. cbn [length]. rewrite drop_drop.
  replace (Z.to_nat (36 + uo_num o * 20)) with (20 + 8 + 4 + n + 4)%nat by lia.
  assert ((((concat head ++ be_bytes 8 (uo_fid o)) ++ be_bytes 4 (uo_num o)) ++ uo_list o) ++ [0; 0; 0; 0] =
    upload_ans (um_id m) o) as -> by (unfold upload_ans, head; cbn [concat]; by rewrite <- !app_assoc).
  done.
Qed.

Lemma gfs_busi_upload_run m slack rsp a bl ns :
  upload_msg_ok m → conns_ok ns → (56 ≤ length rsp)%nat →
  (∀ k, 1 ≤ k ≤ 3 → is_Some (env_malloc (k * 20))) →
  (∀ k, 0 ≤ k ≤ 3 → is_Some (env_malloc (36 + k * 20))) → ∃ req' rsp' tail,
  busi_case gfs_busi_upload_parse gfs_busi_upload_handle gfs_busi_upload_tobuf
    (Busi 2 (concat (upload_req m ++ [slack])) rsp (NetBuf [] 0 0 0) a None bl ns) =
  (o ← upload_effect m ns;
   let len := 36 + uo_num o.1 * 20 in
   Some (GFS_OK, Busi 2 req' (rsp' o.1)
     (NetBuf (upload_ans (um_id m) o.1 ++ tail o.1) len len 0) a None bl o.2)).
Proof.
  intros Hm Hok Hrsp Hmem Hmem2. pose proof Hm as (_ & _ & Hh & _).
  destruct (upload_handle_run m slack rsp (NetBuf [] 0 0 0) a None bl ns Hm Hok Hrsp Hmem)
    as (p1 & p2 & p3 & rest & Hp1 & Hp2 & Hp3 & Hrun).
  exists (concat (upload_host m ++ [slack])), (λ o, concat (upload_block (um_id m) o p1 p2 p3 ++ [rest])),
    (λ o, drop (Z.to_nat (36 + uo_num o * 20)) (default [] (env_malloc (36 + uo_num o * 20)))).
  unfold busi_case. rewrite (M_bind_Some _ _ _ _ _ (upload_parse_run _ _ _ _ _ _ _ _ Hh)).
  cbn [negb Z.eqb GFS_OK]. rewrite M_bind_opt, Hrun.
  destruct (upload_effect m ns) as [[o ns']|] eqn:Heff; [|done]. cbn [mbind option_bind fst snd].
  destruct (upload_effect_out m ns o ns' Hok Heff) as (H3 & Hll & Halloc).
  destruct (Hmem2 (uo_num o) H3) as [data Hdata]. rewrite Hdata. by apply upload_tobuf_run.
Qed.

(** C29: an upload request is answered by one upload response: for every
    well-formed request the three handlers leave in [sbuf] the answer that
    [upload_effect] describes (code, file id, and the addresses and ports of
    up to three data servers, framed by its own length), and the service is
    left as [upload_effect] says. *)
Theorem gfs_busi_upload_refines m slack rsp a bl ns :
  upload_msg_ok m → conns_ok ns → (56 ≤ length rsp)%nat →
  (∀ k, 1 ≤ k ≤ 3 → is_Some (env_malloc (k * 20))) →
  (∀ k, 0 ≤ k ≤ 3 → is_Some (env_malloc (36 + k * 20))) → ∃ req' rsp' tail,
  busi_case gfs_busi_upload_parse gfs_busi_upload_handle gfs_busi_upload_tobuf
    (Busi 2 (concat (upload_req m ++ [slack])) rsp (NetBuf [] 0 0 0) a None bl ns) =
  (o ← upload_effect m ns;
   let len := 36 + uo_num o.1 * 20 in
   Some (GFS_OK, Busi 2 req' (rsp' o.1)
     (NetBuf (upload_ans (um_id m) o.1 ++ tail o.1) len len 0) a None bl o.2)).
Proof. apply gfs_busi_upload_run. Qed.
End spec.
