(* ===== verification/DownloadSpec.v ===== *)
(** What a download request promises, and that its handlers keep it. *)
From stdpp Require Import sorting list.
From S2P Require Import Prelude Queue Rbtree Timer Bytes Text Tools NetBuf Sql NetMap State Download Busi Fields.

(** ** Choosing the blocks

    A located block: its index and, if its server is connected, the
    connection. *)
Abbreviation located := (Z * option conn)%type.

(** The blocks that [gfs_busi_download_tobuf] reports: at most [copies] in a row
    for one index and at most 151 altogether.  [cur] is the index reported
    last, [dsnum] how often, [n] the number of blocks so far. *)
Fixpoint select (copies : Z) (l : list located) (cur dsnum n : Z) : list (Z * conn) :=
  match l with
  | [] => []
  | (bi, oc) :: l =>
      let full := copies <=? dsnum in
      if full && (bi =? cur) then select copies l cur dsnum n else
      let dsnum := if full then 0 else dsnum in
      if 150 <? n then [] else
      match oc with
      | None => select copies l cur dsnum n
      | Some c => (bi, c) :: select copies l bi (if bi =? cur then dsnum + 1 else 1) (n + 1)
      end
  end.

Lemma select_bound copies l cur dsnum n :
  0 ≤ n ≤ 151 → Z.of_nat (length (select copies l cur dsnum n)) ≤ 151 - n.
Proof.
  revert cur dsnum n. induction l as [|[bi oc] l IH]; intros cur dsnum n Hn; cbn [select]; [simpl; lia|].
  destruct (_ && _); [by apply IH|]. destruct (Z.ltb_spec 150 n); [simpl; lia|].
  destruct oc as [c|]; [|by apply IH]. cbn [length].
  pose proof (IH bi (if bi =? cur then (if copies <=? dsnum then 0 else dsnum) + 1 else 1) (n + 1)). lia.
Qed.
Lemma select_length copies l cur dsnum n : (length (select copies l cur dsnum n) ≤ length l)%nat.
Proof.
  revert cur dsnum n. induction l as [|[bi oc] l IH]; intros cur dsnum n; cbn [select length]; [lia|].
  destruct (_ && _); [etrans; [apply IH|lia]|]. destruct (_ <? _); [simpl; lia|].
  destruct oc; cbn [length]; [apply le_n_S, IH|etrans; [apply IH|lia]].
Qed.

(** The connected blocks with a given index. *)
Definition online (i : Z) (l : list located) : list (Z * conn) :=
  omap (λ e : located, if e.1 =? i then pair i <$> e.2 else None) l.
Definition chosen (i : Z) (l : list (Z * conn)) : list (Z * conn) := filter (λ e, e.1 = i) l.

(** When blocks with the same index stand together, every index is reported
    with its first [copies] connected servers. *)
Lemma select_other copies l cur dsnum n i :
  Forall (λ e : located, e.1 ≠ i) l → chosen i (select copies l cur dsnum n) = [] ∧ online i l = [].
Proof.
  intros H. revert cur dsnum n. induction H as [|[bi oc] l Hbi Hl IH]; intros cur dsnum n; [done|].
  simpl in Hbi. cbn [select]. unfold online. cbn [omap list_omap fst snd].
  destruct (Z.eqb_spec bi i); [done|]. split; [|by apply (IH 0 0 0)].
  destruct (_ && _); [apply IH|]. destruct (_ <? _); [done|]. destruct oc as [c|]; [|apply IH].
  unfold chosen. rewrite filter_cons_False by done. apply IH.
Qed.

Lemma online_cons i bi oc l :
  online i ((bi, oc) :: l) =
    (if bi =? i then match oc with Some c => [(i, c)] | None => [] end else []) ++ online i l.
Proof. unfold online. cbn. destruct (bi =? i); [|done]. by destruct oc. Qed.
Lemma online_gt i j l : i < j → Forall (λ e : located, j ≤ e.1) l → online i l = [].
Proof.
  intros Hij Hl. apply (select_other 0 l 0 0 0).
  eapply Forall_impl; [exact Hl|]. intros e He Heq. simpl in *. lia.
Qed.

Lemma chosen_cons i bi c l :
  chosen i ((bi, c) :: l) = (if bi =? i then [(i, c)] else []) ++ chosen i l.
Proof.
  unfold chosen. rewrite filter_cons. simpl fst. destruct (Z.eqb_spec bi i) as [->|].
  - by rewrite decide_True.
  - by rewrite decide_False.
Qed.
Lemma take_S_Z {A} z (x : A) l : 1 ≤ z → x :: take (Z.to_nat (z - 1)) l = take (Z.to_nat z) (x :: l).
Proof. intros H. by replace (Z.to_nat z) with (S (Z.to_nat (z - 1))) by lia. Qed.

Lemma select_run copies l cur dsnum n :
  1 ≤ copies → 0 ≤ dsnum ≤ copies → n + Z.of_nat (length l) ≤ 150 →
  StronglySorted Z.le l.*1 → Forall (λ e : located, cur ≤ e.1) l →
  ∀ i, chosen i (select copies l cur dsnum n) =
    take (Z.to_nat (if i =? cur then copies - dsnum else copies)) (online i l).
Proof.
  intros Hc. revert cur dsnum n. induction l as [|[bi oc] l IH]; intros cur dsnum n Hd Hn Hs Hf i.
  { cbn. by rewrite take_nil. }
  cbn [length] in Hn. rewrite fmap_cons in Hs. apply StronglySorted_inv in Hs as [Hs Hbi].
  apply Forall_cons in Hf as [Hcb Hf]. cbn [fst] in *. rewrite Forall_fmap in Hbi.
  assert (bi ≠ cur → i = cur → online i l = []) as Hgt
    by (intros ? ->; apply (online_gt cur bi); [lia|done]).
  cbn [select]. rewrite online_cons. destruct (Z.ltb_spec 150 n); [lia|].
  destruct (Z.leb_spec copies dsnum) as [Hfull|Hfull], (Z.eqb_spec bi cur) as [Heq|Hne]; cbn [andb];
    [subst bi| | |]; try (destruct oc as [c|]; [rewrite chosen_cons|]); rewrite IH by (done || lia);
    destruct (Z.eqb_spec i cur) as [Hic|Hic]; try (rewrite (Hgt Hne Hic));
    repeat match goal with |- context [?x =? ?y] => destruct (Z.eqb_spec x y); try lia end;
    subst; rewrite ?take_nil; try (replace (Z.to_nat (copies - dsnum)) with 0%nat by lia); try done.
  all: cbn [app]; replace (copies - (dsnum + 1)) with (copies - dsnum - 1) by lia.
  all: first [by rewrite take_nil|by rewrite take_S_Z by lia].
Qed.

Section spec.
Context {D : Type} `{!Mysql D, !Env}.
Implicit Types ns : svc D.

(** A download request on the wire. *)
Record download_msg := DownloadMsg {
  dm_id : Z; dm_encrypt : Z; dm_hash : bytes; dm_bindex : Z }.
Definition download_msg_ok (m : download_msg) : Prop :=
  is_u32 (dm_encrypt m) ∧ is_bytes (dm_hash m) ∧ length (dm_hash m) = 16%nat ∧ is_u32 (dm_bindex m).
Definition download_req (m : download_msg) : list bytes :=
  [be_bytes 4 40; be_bytes 4 (dm_id m); be_bytes 4 3; be_bytes 4 (dm_encrypt m); dm_hash m;
   be_bytes 4 (dm_bindex m); be_bytes 4 0].
Definition download_host (m : download_msg) : list bytes :=
  [le_bytes 4 40; be_bytes 4 (dm_id m); be_bytes 4 3; le_bytes 4 (dm_encrypt m); dm_hash m;
   le_bytes 4 (dm_bindex m); be_bytes 4 0].

(** The effect of the query: code, file id (the eight bytes [g] when it is not
    set) and blocks. *)
Definition download_find (g : bytes) (m : download_msg) : M (svc D) (Z * bytes * list sql_block) :=
  if negb (dm_encrypt m =? 0) then mret (GFS_BUSI_RTN_OK, g, [])
  else if i32 (dm_bindex m) <? -1 then mret (GFS_BUSI_RTN_OK, g, [])
  else
    out ← in_sql (gfs_mysql_download (λ n, bool_decide (is_Some (env_malloc n)))
                    (hex_digits (dm_hash m)) (dm_bindex m) 0);
    if do_rtn out =? SQL_EMPTY then mret (GFS_BUSI_RTN_FILE_NOT_EXIST, g, [])
    else if do_rtn out =? SQL_ERROR then mret (GFS_BUSI_RTN_SYS_ERR, g, [])
    else if bool_decide (do_blist out = []) then
      mret (GFS_BUSI_RTN_BLOCK_NOT_EXIST, be_bytes 8 (do_fid out), [])
    else mret (GFS_BUSI_RTN_OK, be_bytes 8 (do_fid out), do_blist out).

(** The connections of the servers of the blocks. *)
Fixpoint locate (l : list sql_block) : M (svc D) (list located) :=
  match l with
  | [] => mret []
  | bl :: l =>
      net ← map_get (sb_dsid bl);
      oc ← (if bool_decide (net = NULL) then mret None else c ← get_conn net; mret (Some c));
      t ← locate l; mret ((sb_bindex bl, oc) :: t)
  end.

(** The entries of the answer: index, port, address and twelve bytes of the
    block that are never written. *)
Fixpoint bl_bytes (sel : list (Z * conn)) (blk : bytes) : bytes :=
  match sel with
  | [] => []
  | (bi, c) :: sel =>
      be_bytes 4 bi ++ be_bytes 4 (u_port (c_user c)) ++ c_addr c ++ take 12 (drop 12 blk) ++
      bl_bytes sel (drop 24 blk)
  end.
Definition download_ans (id rtn : Z) (fid : bytes) (n : Z) (l : bytes) : bytes :=
  be_bytes 4 (36 + 24 * n) ++ be_bytes 4 id ++ be_bytes 4 3 ++ be_bytes 4 rtn ++ be_bytes 4 0 ++
  fid ++ be_bytes 4 n ++ l ++ [0; 0; 0; 0].

Lemma download_parse_run m slack rsp sb a dl bl ns :
  length (dm_hash m) = 16%nat →
  gfs_busi_download_parse (Busi 3 (concat (download_req m ++ [slack])) rsp sb a dl bl ns) =
    Some (GFS_OK, Busi 3 (concat (download_host m ++ [slack])) rsp sb a dl bl ns).
Proof.
  intros Hh. unfold gfs_busi_download_parse. cbn [download_req app]. bsteps.
  change (negb (_ =? 40)) with false. cbv iota. by bsteps.
Qed.

(** The response block when the handler is done. *)
Definition download_block (id rtn : Z) (fid : bytes) (n : Z) (p1 p2 : bytes) : list bytes :=
  [be_bytes 4 36; be_bytes 4 id; be_bytes 4 3; be_bytes 4 rtn; be_bytes 4 0; be_bytes 2 1;
   be_bytes 2 0; fid; be_bytes 4 n; p1; p2; be_bytes 4 0].

Lemma download_handle_run m slack rsp sb a dl ns :
  download_msg_ok m → (56 ≤ length rsp)%nat → ∃ g p1 p2 rest,
  length g = 8%nat ∧ length p1 = 4%nat ∧ length p2 = 8%nat ∧
  gfs_busi_download_handle (Busi 3 (concat (download_host m ++ [slack])) rsp sb a dl [] ns) =
  (r ← download_find g m ns;
   let '(rtn, fid, l) := r.1 in
   Some (GFS_OK, Busi 3 (concat (download_host m ++ [slack]))
     (concat (download_block (dm_id m) rtn fid (Z.of_nat (length l)) p1 p2 ++ [rest])) sb a dl l r.2)).
Proof.
  intros (H1 & H2 & H3 & H4) Hrsp.
  split_block rsp [4; 4; 4; 4; 4; 2; 2; 8; 4; 4; 8; 4]%nat.
  exists l6, l8, l9, rest. split_and!; try done.
  unfold gfs_busi_download_handle, download_rsp, download_find. cbn [download_host app].
  bsteps. rewrite ?le_bytes_htons.
  destruct (dm_encrypt m =? 0); cbn [negb]; cbv iota; [|by bsteps]. bsteps.
  erewrite lift_bind by (by apply hash_run). bsteps.
  destruct (i32 (dm_bindex m) <? -1); [by bsteps|].
  rewrite in_ns_bind, (M_bind_opt (in_sql _)).
  destruct (in_sql _ ns) as [[out ns1]|] eqn:Hq; [|done]. cbn [mbind option_bind fst snd].
  assert (download_out_ok out) as [Hfid _].
  { unfold in_sql, zoom in Hq. destruct (gfs_mysql_download _ _ _ _ _) as [[o q]|] eqn:Hd; [|done].
    injection Hq as <- _. by eapply gfs_mysql_download_ok; [|exact Hd]. }
  destruct (do_rtn out =? SQL_EMPTY); [by bsteps|].
  destruct (do_rtn out =? SQL_ERROR); [by bsteps|]. bsteps. rewrite le_bytes_htonll by done.
  case_bool_decide as Hbl.
  - rewrite Hbl. cbn [length]. change (Z.of_nat 0 <? 1) with true. cbv iota. by bsteps.
  - destruct (Z.ltb_spec (Z.of_nat (length (do_blist out))) 1) as [Hl|Hl].
    { exfalso. apply Hbl. destruct (do_blist out); [done|]. simpl in Hl. lia. }
    by bsteps.
Qed.

(** Looking up a server changes nothing. *)
Lemma rb_lookup_loop_pure fuel s k p st x st' :
  rb_lookup_loop fuel s k p st = Some (x, st') → st' = st.
Proof.
  revert p. induction fuel as [|fuel IH]; intros p; simpl; [done|].
  case_bool_decide; [by intros [= _ <-]|].
  assert (∀ {A} (f : rbnode → A) q y s', (n ← nd q; mret (f n)) st = Some (y, s') → s' = st) as Hnd.
  { intros A f q y s'. unfold nd, getsM. M_unfold. destruct (rb_heap st !! q); [|done]. by intros [= _ <-]. }
  intros (tk & s1 & Hk & Hr)%M_bind_inv. apply Hnd in Hk as ->.
  case_bool_decide; [|by injection Hr as _ <-].
  apply M_bind_inv in Hr as (nx & s2 & Hn & Hr).
  destruct (k <? tk); apply Hnd in Hn as ->; by apply IH in Hr.
Qed.
Lemma map_get_pure k ns x ns' : map_get k ns = Some (x, ns') → ns' = ns.
Proof.
  unfold map_get, in_map, zoom. destruct (gfs_net_map_get _ _ _ _) as [[y q]|] eqn:Hg; [|done].
  intros [= -> <-]. enough (q = w_map (tl_world ns)) as ->.
  { destruct ns as [tr tm w]. by destruct w. }
  unfold gfs_net_map_get in Hg. apply M_bind_inv in Hg as (m & s1 & Hl & Hr).
  assert (s1 = w_map (tl_world ns)) as ->.
  { unfold in_tree in Hl. destruct (gfs_rbtree_lookup_value _ _ _ _) as [[z t]|] eqn:Hb; [|done].
    injection Hl as <- <-. unfold gfs_rbtree_lookup_value in Hb. apply M_bind_inv in Hb as (r & s2 & [= <- <-] & Hb).
    apply rb_lookup_loop_pure in Hb as ->. by destruct (w_map (tl_world ns)). }
  case_bool_decide; [|by injection Hr as _ <-].
  unfold get_data, getsM in Hr. destruct (nm_data _ !! m); [|done]. by injection Hr as _ <-.
Qed.

(** ** The loop over the blocks *)

Lemma bl_bytes_ext sel blk blk' : drop 4 blk = drop 4 blk' → bl_bytes sel blk = bl_bytes sel blk'.
Proof.
  revert blk blk'. induction sel as [|[bi c] sel IH]; intros blk blk' Hs; [done|].
  cbn [bl_bytes]. do 3 f_equal.
  assert (∀ n, (4 ≤ n)%nat → drop n blk = drop n blk') as Hn.
  { intros n Hle. replace n with (4 + (n - 4))%nat by lia. by rewrite <- !drop_drop, Hs. }
  f_equal; [by rewrite Hn by lia|]. apply IH. by rewrite !drop_drop, Hn by lia.
Qed.

(** One entry: its index, then its address, then its port. *)
Lemma entry_split (blk : bytes) :
  (24 ≤ length blk)%nat →
  ∃ b1 b2 b3, blk = b1 ++ b2 ++ b3 ++ take 12 (drop 12 blk) ++ drop 24 blk ∧
    length b1 = 4%nat ∧ length b2 = 4%nat ∧ length b3 = 4%nat.
Proof.
  intros Hs. exists (take 4 blk), (take 4 (drop 4 blk)), (take 4 (drop 8 blk)).
  rewrite !length_take, !length_drop. split_and!; [|lia..].
  rewrite <- (take_drop 4 blk) at 1. f_equal. rewrite <- (take_drop 4 (drop 4 blk)) at 1. f_equal.
  rewrite drop_drop. rewrite <- (take_drop 4 (drop (4 + 4) blk)) at 1. f_equal. rewrite drop_drop.
  rewrite <- (take_drop 12 (drop (4 + 4 + 4) blk)) at 1. by rewrite drop_drop.
Qed.

Lemma st_entry_index off fin bi blk :
  off = length fin → (4 ≤ length blk)%nat →
  st32 off (htonl bi) (fin ++ blk) = Some (fin ++ be_bytes 4 bi ++ drop 4 blk).
Proof.
  intros -> Hs. unfold stn. rewrite le_bytes_htonl, st_append by (rewrite ?be_bytes_length; lia).
  by rewrite be_bytes_length, <- app_assoc.
Qed.
Lemma st_entry_rest off fin bi c blk :
  off = length fin → (24 ≤ length blk)%nat → length (c_addr c) = 4%nat →
  (data ← st_bytes (off + 8) (c_addr c) (fin ++ be_bytes 4 bi ++ drop 4 blk);
   st32 (off + 4) (htonl (u_port (c_user c))) data) =
  Some ((fin ++ be_bytes 4 bi ++ be_bytes 4 (u_port (c_user c)) ++ c_addr c ++ take 12 (drop 12 blk)) ++
        drop 24 blk).
Proof.
  intros -> Hs Ha. destruct (entry_split blk Hs) as (b1 & b2 & b3 & Hb & H1 & H2 & H3).
  set (g := take 12 (drop 12 blk)) in *. set (r := drop 24 blk) in *.
  replace (drop 4 blk) with (b2 ++ b3 ++ g ++ r) by (rewrite Hb; by rewrite <- H1, drop_app_length).
  replace (fin ++ be_bytes 4 bi ++ b2 ++ b3 ++ g ++ r) with (concat [fin; be_bytes 4 bi; b2; b3; g; r])
    by (cbn [concat]; by rewrite app_nil_r).
  rewrite (st_concat _ 3 b3); [|done|by rewrite Ha|
    cbn [take concat]; rewrite !length_app, be_bytes_length; cbn [length]; lia].
  cbn [mbind option_bind insert list_insert]. unfold stn.
  rewrite (st_concat _ 2 b2); [|done|by rewrite le_bytes_length|
    cbn [take concat]; rewrite !length_app, be_bytes_length; cbn [length]; lia].
  cbn [insert list_insert]. rewrite le_bytes_htonl. f_equal. cbn [concat].
  by rewrite app_nil_r, <- !app_assoc.
Qed.

Lemma htonl_eqb x y :
  - 2 ^ 31 ≤ x < 2 ^ 31 → - 2 ^ 31 ≤ y < 2 ^ 31 → (htonl x =? htonl y) = (y =? x).
Proof.
  intros Hx Hy. destruct (Z.eqb_spec y x) as [->|Hne]; [apply Z.eqb_refl|].
  apply Z.eqb_neq. intros Heq. apply Hne. apply (f_equal ntohl) in Heq. rewrite !ntohl_htonl in Heq.
  rewrite <- (i32_small x), <- (i32_small y) by done. unfold i32. by rewrite Heq.
Qed.

(** Where the loop stands: [b] entries have been written, the last one with
    index [cur]. *)
Definition loop_at (fin : bytes) (b dsnum cur : Z) : Prop :=
  length fin = Z.to_nat (32 + 24 * b) ∧ - 2 ^ 31 ≤ cur < 2 ^ 31 ∧
  ((b = 0 ∧ dsnum = 0) ∨
   (1 ≤ b ≤ 151 ∧ ∃ pre post, fin = pre ++ be_bytes 4 cur ++ post ∧
      length pre = Z.to_nat (32 + 24 * (b - 1)))).

Lemma same_run copies fin blk b dsnum cur bi (bs : busi D) :
  loop_at fin b dsnum cur → 1 ≤ copies → - 2 ^ 31 ≤ bi < 2 ^ 31 →
  (if copies <=? dsnum then
     if b =? 0 then ub
     else last ← lift (ld32 (Z.to_nat (32 + 24 * (b - 1))) (fin ++ blk)); mret (last =? htonl bi)
   else mret false) bs = Some ((copies <=? dsnum) && (bi =? cur), bs).
Proof.
  intros (Hl & Hcur & Hat) Hc Hbi. destruct (Z.leb_spec copies dsnum); [|done].
  destruct Hat as [[-> ->]|(Hb & pre & post & Hfin & Hpre)]; [lia|].
  destruct (Z.eqb_spec b 0); [lia|]. rewrite <- Hpre, Hfin, <- !app_assoc. unfold ldn.
  rewrite ld_bytes_mid by (by rewrite be_bytes_length).
  change (mret (M:=M (busi D)) (htonl cur =? htonl bi) bs = Some (true && (bi =? cur), bs)).
  by rewrite htonl_eqb.
Qed.

Lemma locate_cons bl blist l ns ns' :
  locate (bl :: blist) ns = Some (l, ns') → ∃ net oc t,
    l = (sb_bindex bl, oc) :: t ∧ map_get (sb_dsid bl) ns = Some (net, ns) ∧
    locate blist ns = Some (t, ns') ∧
    (net = NULL ∧ oc = None ∨ net ≠ NULL ∧ ∃ c, oc = Some c ∧ w_conns (tl_world ns) !! net = Some c).
Proof.
  cbn [locate]. intros (net & s1 & Hg & Hr)%M_bind_inv. pose proof (map_get_pure _ _ _ _ Hg) as ->.
  apply M_bind_inv in Hr as (oc & s2 & Ho & Hr). apply M_bind_inv in Hr as (t & s3 & Ht & [= <- <-]).
  exists net, oc, t. split; [done|]. split; [done|]. case_bool_decide as Hn.
  - injection Ho as <- <-. split; [done|]. left. done.
  - apply M_bind_inv in Ho as (c & s4 & Hc & [= <- <-]). apply get_conn_inv in Hc as [-> Hc].
    split; [done|]. right. eauto.
Qed.

Lemma download_blocks_run copies ns blist l ns' b dsnum cur fin blk (bs : busi D) :
  b_ns bs = ns → w_copies (tl_world ns) = copies → 1 ≤ copies < 2 ^ 32 → conns_ok ns →
  locate blist ns = Some (l, ns') → Forall (λ bl, - 2 ^ 31 ≤ sb_bindex bl < 2 ^ 31) blist →
  (24 * length blist ≤ length blk)%nat → loop_at fin b dsnum cur → 0 ≤ dsnum ≤ copies →
  ∃ rest, length (bl_bytes (select copies l cur dsnum b) blk ++ rest) = length blk ∧
  download_blocks blist (fin ++ blk) b dsnum cur bs =
    Some ((fin ++ bl_bytes (select copies l cur dsnum b) blk ++ rest,
           b + Z.of_nat (length (select copies l cur dsnum b))), bs).
Proof.
  intros Hns Hcp Hc Hok. revert l b dsnum cur fin blk.
  induction blist as [|bl blist IH]; intros l b dsnum cur fin blk Hloc Hf Hlen Hat Hd.
  { injection Hloc as <- _. exists blk. cbn. by rewrite Z.add_0_r. }
  apply locate_cons in Hloc as (net & oc & t & -> & Hget & Hloc & Hnet).
  apply Forall_cons in Hf as [Hbi Hf]. cbn [length] in Hlen. cbn [download_blocks select].
  erewrite M_bind_Some by reflexivity. rewrite Hns, Hcp.
  erewrite M_bind_Some by (apply (same_run copies); [done|lia|done]).
  destruct ((copies <=? dsnum) && (sb_bindex bl =? cur)) eqn:Hskip; [apply IH; (done || lia)|].
  set (dn := if copies <=? dsnum then 0 else dsnum).
  assert (0 ≤ dn < copies) as Hdn by (unfold dn; destruct (Z.leb_spec copies dsnum); lia).
  assert (loop_at fin b dn cur) as Hat'.
  { destruct Hat as (? & ? & Hat). split; [done|]. split; [done|].
    destruct Hat as [[-> ->]|Hat]; [left|by right]. unfold dn. by destruct (copies <=? 0). }
  clearbody dn. destruct (Z.ltb_spec 150 b) as [Hb150|Hb150].
  { exists blk. cbn. by rewrite Z.add_0_r. }
  pose proof Hat' as (Hfl & Hcur & Hcase).
  assert (0 ≤ b) as Hb0 by (destruct Hcase as [[-> _]|[? _]]; lia).
  erewrite lift_bind by (apply st_entry_index; [by rewrite Hfl|lia]).
  destruct bs as [ty req rsp sb c0 dl bl0 ns0]. cbn [b_ns] in Hns. subst ns0.
  rewrite in_ns_bind, Hget. cbn [mbind option_bind fst snd].
  destruct Hnet as [[-> ->]|(Hnn & c & -> & Hc')].
  - rewrite bool_decide_true by done.
    destruct (IH t b dn cur fin (be_bytes 4 (sb_bindex bl) ++ drop 4 blk)) as (rest & Hrl & Hrun);
      [done|done|rewrite length_app, be_bytes_length, length_drop; lia|done|lia|].
    exists rest. rewrite (bl_bytes_ext _ blk (be_bytes 4 (sb_bindex bl) ++ drop 4 blk)) by done.
    split; [rewrite Hrl, length_app, be_bytes_length, length_drop; lia|done].
  - rewrite bool_decide_false by done. rewrite in_ns_bind. unfold get_conn at 1, getsM. rewrite Hc'.
    cbn [mbind option_bind fst snd]. destruct (Hok _ _ Hc') as [Ha4 _].
    pose proof (st_entry_rest (length fin) fin (sb_bindex bl) c blk eq_refl ltac:(lia) Ha4) as Hent.
    replace (Z.to_nat (32 + 24 * b + 8)) with (length fin + 8)%nat by lia.
    replace (Z.to_nat (32 + 24 * b + 4)) with (length fin + 4)%nat by lia.
    destruct (st_bytes (length fin + 8) _ _) as [data|] eqn:Hst; [|done]. cbn [mbind option_bind] in Hent.
    erewrite lift_bind by reflexivity. erewrite lift_bind by exact Hent.
    set (entry := be_bytes 4 (sb_bindex bl) ++ be_bytes 4 (u_port (c_user c)) ++ c_addr c ++
      take 12 (drop 12 blk)) in *. set (dn' := if _ =? cur then dn + 1 else 1).
    assert (length (fin ++ entry) = Z.to_nat (32 + 24 * (b + 1))) as Hel
      by (unfold entry; rewrite !length_app, !be_bytes_length, length_take, length_drop; lia).
    destruct (IH t (b + 1) dn' (sb_bindex bl) (fin ++ entry) (drop 24 blk)) as (rest & Hrl & Hrun);
      [done|done|rewrite length_drop; lia| |unfold dn'; destruct (_ =? _); lia|].
    { split; [done|]. split; [done|]. right. split; [lia|]. exists fin.
      eexists; split; [by unfold entry|]. rewrite Hfl. f_equal. lia. }
    exists rest. cbn [bl_bytes length].
    replace (be_bytes 4 (sb_bindex bl) ++ be_bytes 4 (u_port (c_user c)) ++ c_addr c ++
      take 12 (drop 12 blk) ++ bl_bytes (select copies t (sb_bindex bl) dn' (b + 1)) (drop 24 blk))
      with (entry ++ bl_bytes (select copies t (sb_bindex bl) dn' (b + 1)) (drop 24 blk))
      by (unfold entry; by rewrite <- !app_assoc).
    split; [rewrite <- app_assoc, length_app, Hrl, length_drop; rewrite length_app in Hel; lia|].
    etrans; [|etrans; [exact Hrun|]].
    + unfold dn'. rewrite (Z.eqb_sym cur). destruct (Z.eqb_spec (sb_bindex bl) cur) as [->|]; [|done].
      cbn [negb]. by rewrite u32_small by (unfold is_u32; lia).
    + rewrite <- !app_assoc. do 3 f_equal. lia.
Qed.

Lemma bl_bytes_length sel blk :
  Forall (λ e : Z * conn, length (c_addr e.2) = 4%nat) sel → (24 * length sel ≤ length blk)%nat →
  length (bl_bytes sel blk) = (24 * length sel)%nat.
Proof.
  intros Hs. revert blk. induction Hs as [|[bi c] sel Hc Hs IH]; intros blk Hl; [done|].
  cbn [length bl_bytes snd] in *.
  rewrite !length_app, !be_bytes_length, length_take, length_drop, IH by (rewrite length_drop; lia). lia.
Qed.
Lemma select_addr copies l cur dsnum n :
  Forall (λ e : located, ∀ c, e.2 = Some c → length (c_addr c) = 4%nat) l →
  Forall (λ e : Z * conn, length (c_addr e.2) = 4%nat) (select copies l cur dsnum n).
Proof.
  intros Hs. revert cur dsnum n. induction Hs as [|[bi oc] l Hc Hs IH]; intros cur dsnum n; cbn [select]; [done|].
  destruct (_ && _); [done|]. destruct (_ <? _); [done|]. destruct oc as [c|]; [|done].
  constructor; [by apply Hc|done].
Qed.
Lemma locate_out blist ns l ns' :
  conns_ok ns → locate blist ns = Some (l, ns') →
  ns' = ns ∧ length l = length blist ∧
  Forall (λ e : located, ∀ c, e.2 = Some c → length (c_addr c) = 4%nat) l.
Proof.
  intros Hok. revert l. induction blist as [|bl blist IH]; intros l Hloc.
  { injection Hloc as <- <-. done. }
  apply locate_cons in Hloc as (net & oc & t & -> & _ & Ht & Hnet).
  apply IH in Ht as (-> & Hlt & Hf). split; [done|]. split; [cbn [length]; by rewrite Hlt|].
  constructor; [|done].
  intros c [= ->]. destruct Hnet as [[_ ?]|(_ & c' & [= <-] & Hc)]; [done|]. by apply (Hok net).
Qed.

(** The end of [gfs_busi_download_tobuf]: the number of entries, the zero word
    and the length are filled in. *)
Lemma download_finish len0 head fid slot l rest n :
  length len0 = 4%nat → length head = 16%nat → length fid = 8%nat → length slot = 4%nat →
  length l = Z.to_nat (24 * n) → 0 ≤ n → (4 ≤ length rest)%nat →
  ∃ d1 d2, st32 28 (htonl n) ((len0 ++ head ++ fid ++ slot) ++ l ++ rest) = Some d1 ∧
   st_bytes (32 + Z.to_nat (24 * n)) [0; 0; 0; 0] d1 = Some d2 ∧
   st32 0 (htonl (36 + 24 * n)) d2 =
     Some ((be_bytes 4 (36 + 24 * n) ++ head ++ fid ++ be_bytes 4 n ++ l ++ [0; 0; 0; 0]) ++ drop 4 rest).
Proof.
  intros H0 H1 H2 H3 H4 Hn H5.
  exists (concat [len0; head; fid; be_bytes 4 n; l; take 4 rest; drop 4 rest]),
    (concat [len0; head; fid; be_bytes 4 n; l; [0; 0; 0; 0]; drop 4 rest]).
  replace ((len0 ++ head ++ fid ++ slot) ++ l ++ rest)
    with (concat [len0; head; fid; slot; l; take 4 rest; drop 4 rest])
    by (cbn [concat]; rewrite app_nil_r, take_drop; by rewrite <- !app_assoc).
  unfold stn. split_and!.
  - rewrite (st_concat _ 3 slot); [by rewrite le_bytes_htonl|done|by rewrite le_bytes_length|
      cbn [take concat]; rewrite !length_app; cbn [length]; lia].
  - rewrite (st_concat _ 5 (take 4 rest)); [done|done|rewrite length_take; cbn [length]; lia|
      cbn [take concat]; rewrite !length_app, be_bytes_length; cbn [length]; lia].
  - rewrite (st_concat _ 0 len0); [|done|by rewrite le_bytes_length|done].
    rewrite le_bytes_htonl. f_equal. cbn [concat insert list_insert].
    by rewrite app_nil_r, <- !app_assoc.
Qed.

Lemma download_tobuf_run m rtn fid blist l ns ns' copies p1 p2 rest req data a dl :
  w_copies (tl_world ns) = copies → 1 ≤ copies < 2 ^ 32 → conns_ok ns →
  locate blist ns = Some (l, ns') → Forall (λ bl, - 2 ^ 31 ≤ sb_bindex bl < 2 ^ 31) blist →
  length fid = 8%nat → length p1 = 4%nat → length p2 = 8%nat →
  36 + 24 * Z.of_nat (length blist) < 2 ^ 32 →
  env_malloc (36 + 24 * Z.of_nat (length blist)) = Some data →
  let sel := select copies l 0 0 0 in let n := Z.of_nat (length sel) in
  ∃ blk rest' rsp',
  gfs_busi_download_tobuf (Busi 3 req
    (concat (download_block (dm_id m) rtn fid (Z.of_nat (length blist)) p1 p2 ++ [rest]))
    (NetBuf [] 0 0 0) a dl blist ns) =
  Some (GFS_OK, Busi 3 req rsp'
    (NetBuf (download_ans (dm_id m) rtn fid n (bl_bytes sel blk) ++ rest') (36 + 24 * n) (36 + 24 * n) 0)
    a dl [] ns).
Proof.
  intros Hcp Hc Hok Hloc Hf Hfid Hp1 Hp2 Hn Hdata sel n.
  destruct (locate_out _ _ _ _ Hok Hloc) as (_ & Hll & Haddr).
  pose proof (env_malloc_size _ _ Hdata) as Hsz.
  assert (length sel ≤ length l)%nat as Hsl by apply select_length.
  set (bn := Z.of_nat (length blist)) in *.
  set (head16 := be_bytes 4 (dm_id m) ++ be_bytes 4 3 ++ be_bytes 4 rtn ++ be_bytes 4 0).
  set (fin := be_bytes 4 36 ++ head16 ++ fid ++ take 4 (drop 28 data)).
  assert (loop_at fin 0 0 0) as Hat.
  { split; [unfold fin; rewrite !length_app, be_bytes_length, length_take, length_drop, Hfid;
      change (length head16) with 16%nat; lia|]. split; [lia|]. by left. }
  destruct (download_blocks_run copies ns blist l ns' 0 0 0 fin (drop 32 data)
    (Busi 3 req (concat (download_block (dm_id m) rtn fid bn p1 p2 ++ [rest]))
      (NetBuf [] 36 36 0) a dl blist ns)) as (rst & Hrl & Hrun);
    [done|done|done|done|exact Hloc|done|rewrite length_drop; lia|done|lia|].
  assert (length (bl_bytes sel (drop 32 data)) = Z.to_nat (24 * n)) as Hbl.
  { rewrite bl_bytes_length; [lia|by apply select_addr|rewrite length_drop; lia]. }
  destruct (download_finish (be_bytes 4 36) head16 fid (take 4 (drop 28 data))
    (bl_bytes sel (drop 32 data)) rst n) as (d1 & d2 & Hd1 & Hd2 & Hd3);
    [done|done|done|rewrite length_take, length_drop; lia|done|lia| |].
  { fold sel in Hrl. rewrite length_app, Hbl, length_drop in Hrl. lia. }
  eexists (drop 32 data), (drop 4 rst), _.
  unfold gfs_busi_download_tobuf. cbn [download_block app]. bsteps.
  rewrite (u32_small bn) by (unfold is_u32; lia). change (u32 36) with 36.
  replace (if bn =? 0 then 36 else u32 (bn * 24 + 36)) with (36 + 24 * bn)
    by (destruct (Z.eqb_spec bn 0); [lia|rewrite u32_small; unfold is_u32; lia]).
  rewrite Hdata.
  erewrite M_bind_Some by (by eapply (rsp_prefix_run 20 3
    [be_bytes 4 36; be_bytes 4 (dm_id m); be_bytes 4 3; be_bytes 4 rtn; be_bytes 4 0])).
  rewrite lift_prefix by (change (length (concat _)) with 20%nat; lia). cbv beta. bsteps.
  rewrite lift_append by (first [done|rewrite length_drop, Hfid;
    change (length (concat _)) with 20%nat; lia]). cbv beta.
  change (length (concat _)) with 20%nat. rewrite drop_drop, Hfid.
  change (20 + 8)%nat with 28%nat.
  destruct (Z.ltb_spec (Z.of_nat (length blist)) bn); [lia|]. rewrite firstn_all2 by lia.
  replace ((concat _ ++ fid) ++ drop 28 data) with (fin ++ drop 32 data).
  2:{ unfold fin, head16. cbn [concat]. rewrite <- !app_assoc. do 5 f_equal. cbn [app]. f_equal.
      rewrite <- (take_drop 4 (drop 28 data)) at 2. by rewrite drop_drop. }
  erewrite M_bind_Some by exact Hrun. fold sel. cbv beta iota. rewrite Z.add_0_l. fold n.
  assert (u32 (n * 24) = 24 * n) as Hn24 by (rewrite u32_small; unfold is_u32; lia).
  assert (u32 (24 * n + 36) = 36 + 24 * n) as Hn36 by (rewrite u32_small; unfold is_u32; lia).
  cbn [download_block app]. bsteps. unfold fin. erewrite lift_bind by exact Hd1. rewrite Hn24.
  erewrite lift_bind by exact Hd2. bsteps. change (u32 36) with 36. rewrite Hn36.
  erewrite lift_bind by exact Hd3. bsteps. unfold download_ans, head16, mret, M_ret.
  by rewrite <- !app_assoc.
Qed.

(** The index of a block is an int. *)
Lemma download_find_out g m ns rtn fid l ns' :
  length g = 8%nat → download_find g m ns = Some ((rtn, fid, l), ns') →
  length fid = 8%nat ∧ Forall (λ bl, - 2 ^ 31 ≤ sb_bindex bl < 2 ^ 31) l.
Proof.
  intros Hg. unfold download_find.
  destruct (negb _); [by intros [= _ <- <- _]|]. destruct (_ <? _); [by intros [= _ <- <- _]|].
  intros (out & s1 & Hq & Hr)%M_bind_inv.
  destruct (_ =? SQL_EMPTY); [by injection Hr as _ <- <- _|].
  destruct (_ =? SQL_ERROR); [by injection Hr as _ <- <- _|].
  unfold in_sql, zoom in Hq. destruct (gfs_mysql_download _ _ _ _ _) as [[o q]|] eqn:Hd; [|done].
  injection Hq as -> _. apply gfs_mysql_download_ok in Hd as [_ Hf]; [|done].
  case_bool_decide; injection Hr as _ <- <- _; rewrite be_bytes_length; split; try done.
  eapply Forall_impl; [exact Hf|]. by intros ? [? _].
Qed.

(** C30: a download request is answered by one download response: for every
    well-formed request the handlers look the file up as [download_find] says
    and leave in [sbuf] an answer that is framed by its own length and lists,
    of the blocks found, those that [select] chooses, with the addresses and
    ports of their connected servers. *)
Theorem gfs_busi_download_refines m slack rsp a dl ns :
  download_msg_ok m → conns_ok ns → (56 ≤ length rsp)%nat → 1 ≤ w_copies (tl_world ns) < 2 ^ 32 →
  (∀ k, 0 ≤ k → 36 + 24 * k < 2 ^ 32 → is_Some (env_malloc (36 + 24 * k))) →
  ∃ g, length g = 8%nat ∧
  ∀ rtn fid blist l ns1 ns2, download_find g m ns = Some ((rtn, fid, blist), ns1) →
    conns_ok ns1 → w_copies (tl_world ns1) = w_copies (tl_world ns) →
    36 + 24 * Z.of_nat (length blist) < 2 ^ 32 → locate blist ns1 = Some (l, ns2) →
    let sel := select (w_copies (tl_world ns)) l 0 0 0 in let n := Z.of_nat (length sel) in
    ∃ req' rsp' blk tail,
    busi_case gfs_busi_download_parse gfs_busi_download_handle gfs_busi_download_tobuf
      (Busi 3 (concat (download_req m ++ [slack])) rsp (NetBuf [] 0 0 0) a dl [] ns) =
    Some (GFS_OK, Busi 3 req' rsp'
      (NetBuf (download_ans (dm_id m) rtn fid n (bl_bytes sel blk) ++ tail) (36 + 24 * n) (36 + 24 * n) 0)
      a dl [] ns1).
Proof.
  intros Hm Hok Hrsp Hcp Hmem. pose proof Hm as (_ & _ & Hh & _).
  destruct (download_handle_run m slack rsp (NetBuf [] 0 0 0) a dl ns Hm Hrsp)
    as (g & p1 & p2 & rest & Hg & Hp1 & Hp2 & Hrun).
  exists g. split; [done|]. intros rtn fid blist l ns1 ns2 Hfind Hok1 Hcp1 Hn Hloc sel n.
  destruct (download_find_out _ _ _ _ _ _ _ Hg Hfind) as [Hfid Hf].
  destruct (Hmem (Z.of_nat (length blist)) ltac:(lia) Hn) as [data Hdata].
  destruct (download_tobuf_run m rtn fid blist l ns1 ns2 (w_copies (tl_world ns)) p1 p2 rest
    (concat (download_host m ++ [slack])) data a dl Hcp1 Hcp Hok1 Hloc Hf Hfid Hp1 Hp2 Hn Hdata)
    as (blk & tail & rsp' & Htb).
  eexists _, rsp', blk, tail. unfold busi_case.
  rewrite (M_bind_Some _ _ _ _ _ (download_parse_run _ _ _ _ _ _ _ _ Hh)).
  cbn [negb Z.eqb GFS_OK]. rewrite M_bind_opt, Hrun, Hfind. exact Htb.
Qed.

(** The loop of [gfs_busi_download_tobuf] reports at most 151 blocks; and
    when the blocks of the file come in order, at most 150 of them, it reports
    for every index exactly the first [copies] blocks whose servers are
    connected. *)
Theorem download_blocks_correct copies ns blist l ns' fin blk (bs : busi D) :
  b_ns bs = ns → w_copies (tl_world ns) = copies → 1 ≤ copies < 2 ^ 32 → conns_ok ns →
  locate blist ns = Some (l, ns') → Forall (λ bl, - 2 ^ 31 ≤ sb_bindex bl < 2 ^ 31) blist →
  (24 * length blist ≤ length blk)%nat → length fin = 32%nat →
  ∃ sel rest,
    download_blocks blist (fin ++ blk) 0 0 0 bs =
      Some ((fin ++ bl_bytes sel blk ++ rest, Z.of_nat (length sel)), bs) ∧
    (length sel ≤ 151)%nat ∧
    (StronglySorted Z.le l.*1 → Forall (λ e : located, 0 ≤ e.1) l → (length l ≤ 150)%nat →
     ∀ i, chosen i sel = take (Z.to_nat copies) (online i l)).
Proof.
  intros Hns Hcp Hc Hok Hloc Hf Hlen Hfin.
  destruct (download_blocks_run copies ns blist l ns' 0 0 0 fin blk bs) as (rest & _ & Hrun);
    try done; [|lia|].
  { split; [by rewrite Hfin|]. split; [lia|]. by left. }
  exists (select copies l 0 0 0), rest. split; [exact Hrun|]. split.
  - pose proof (select_bound copies l 0 0 0). lia.
  - intros Hs Hf0 Hl i. rewrite select_run by (done || lia). by destruct (i =? 0); rewrite ?Z.sub_0_r.
Qed.
End spec.
