(* ===== verification/FileSpec.v ===== *)
(** What the requests on whole files and the notices of data servers promise,
    and that the handlers keep it: file size, file deletion, deleted and copied
    blocks, heartbeat. *)
From S2P Require Import Prelude Rbtree Timer Bytes Tools NetBuf Sql State Login BusiFile Busi Fields.

(** A request that names a file by its hash, of type [ty]. *)
Record file_msg := FileMsg { fm_id : Z; fm_encrypt : Z; fm_hash : bytes }.
Definition file_msg_ok (m : file_msg) : Prop :=
  is_u32 (fm_encrypt m) ∧ is_bytes (fm_hash m) ∧ length (fm_hash m) = 16%nat.
Definition file_req (ty : Z) (m : file_msg) : list bytes :=
  [be_bytes 4 36; be_bytes 4 (fm_id m); be_bytes 4 ty; be_bytes 4 (fm_encrypt m); fm_hash m;
   be_bytes 4 0].
Definition file_host (ty : Z) (m : file_msg) : list bytes :=
  [le_bytes 4 36; be_bytes 4 (fm_id m); be_bytes 4 ty; le_bytes 4 (fm_encrypt m); fm_hash m;
   le_bytes 4 0].
Definition rsp_head_bytes (len id ty rtn : Z) : list bytes :=
  [be_bytes 4 len; be_bytes 4 id; be_bytes 4 ty; be_bytes 4 rtn; be_bytes 4 0].

(** The answers. *)
Definition getfsize_ans (id rtn fsize bsize : Z) : list bytes :=
  rsp_head_bytes 36 id 10 rtn ++ [be_bytes 8 fsize; be_bytes 4 bsize; [0; 0; 0; 0]].
Definition delete_file_ans (id rtn : Z) : list bytes :=
  rsp_head_bytes 24 id 4 rtn ++ [be_bytes 4 0].

Section spec.
Context {D : Type} `{!Mysql D, !Env}.
Implicit Types (ns : svc D) (sb : netbuf).

(** ** File size *)

(** The code and the size. *)
Definition getfsize_effect (m : file_msg) : M (svc D) (Z * Z) :=
  r ← in_sql (gfs_mysql_getfsize (hex_digits (fm_hash m)));
  match r with
  | (ret, fsize) =>
      if negb (ret =? SQL_OK) then mret (GFS_BUSI_RTN_FILE_NOT_EXIST, 0)
      else match fsize with Some n => mret (GFS_BUSI_RTN_OK, n) | None => ub end
  end.

Lemma getfsize_parse_run m slack rsp sb a dl bl ns :
  length (fm_hash m) = 16%nat →
  gfs_busi_getfsize_parse (Busi 10 (concat (file_req 10 m ++ [slack])) rsp sb a dl bl ns) =
    Some (GFS_OK, Busi 10 (concat (file_host 10 m ++ [slack])) rsp sb a dl bl ns).
Proof.
  intros Hh. unfold gfs_busi_getfsize_parse. cbn [file_req app]. bsteps.
  change (negb (_ =? 36)) with false. cbv iota. by bsteps.
Qed.

Lemma getfsize_effect_u64 m ns rtn fsize ns' :
  getfsize_effect m ns = Some ((rtn, fsize), ns') → is_u64 fsize.
Proof.
  unfold getfsize_effect. intros ([ret o] & s1 & Hq & Hr)%M_bind_inv.
  case_match; [injection Hr as <- <- <-; done|]. destruct o as [n|]; [|done].
  injection Hr as <- <- <-. unfold in_sql, zoom in Hq.
  destruct (gfs_mysql_getfsize _ _) as [[x q]|] eqn:Hx; [|done]. injection Hq as -> <-.
  apply run_query_inv in Hx as [[e [=]]|(c & q' & s & Hx)].
  apply M_bind_inv in Hx as (r & s2 & Hrow & Hx). apply M_bind_inv in Hx as (u & s3 & _ & Hx). injection Hx as -> _.
  repeat case_match; try done; simplify_eq/=; try (injection Hrow as [=]).
  all: apply M_bind_inv in Hrow as (t & s4 & _ & [= <- <-]); apply u64_range.
Qed.

Lemma getfsize_handle_run m slack rsp sb a dl bl ns :
  file_msg_ok m → (40 ≤ length rsp)%nat → ∃ gap rest, length gap = 4%nat ∧
  gfs_busi_getfsize_handle (Busi 10 (concat (file_host 10 m ++ [slack])) rsp sb a dl bl ns) =
    (r ← getfsize_effect m ns;
     Some (GFS_OK, Busi 10 (concat (file_host 10 m ++ [slack]))
       (concat (rsp_head_bytes 36 (fm_id m) 10 r.1.1 ++
          [gap; be_bytes 8 r.1.2; be_bytes 4 (w_block_size (tl_world ns)); be_bytes 4 0; rest]))
       sb a dl bl r.2)).
Proof.
  intros (He & Hb & Hh) Hrsp. split_block rsp [4; 4; 4; 4; 4; 4; 8; 4; 4]%nat. exists l4, rest. split; [done|].
  unfold gfs_busi_getfsize_handle, rsp_head_bytes. cbn [file_host app]. bsteps.
  rewrite (lift_bind _ _ _ _ (hash_run _ Hb Hh)). bsteps.
  rewrite (le_bytes_htonll 0) by done.
  destruct (getfsize_effect m ns) as [[[rtn fsize] ns']|] eqn:Heff.
  - pose proof (getfsize_effect_u64 _ _ _ _ _ Heff) as Hu. revert Heff.
    unfold getfsize_effect. rewrite in_ns_bind, M_bind_opt.
    destruct (in_sql _ ns) as [[[ret o] ns1]|]; [|done]. cbn [mbind option_bind fst snd].
    destruct (ret =? SQL_OK); cbn [negb]; cbv iota.
    + destruct o as [n|]; [|done]. intros [= <- <- <-]. rewrite (lift_bind (Some n) _ n) by done.
      cbv beta. bsteps. by rewrite le_bytes_htonll by done.
    + intros [= <- <- <-]. by bsteps.
  - revert Heff. unfold getfsize_effect. rewrite in_ns_bind, M_bind_opt.
    destruct (in_sql _ ns) as [[[ret o] ns1]|]; [|done]. cbn [mbind option_bind fst snd].
    destruct (ret =? SQL_OK); cbn [negb]; cbv iota; [|done]. by destruct o.
Qed.

(** The side conditions of [lift_append] behind a response head. *)
Local Ltac fin_side :=
  first [done|rewrite !length_drop, ?be_bytes_length; change (length (concat _)) with 20%nat; simpl; lia].

Lemma getfsize_tobuf_run id rtn fsize bsize req gap rest data a dl bl ns :
  length gap = 4%nat → env_malloc (htonl 36) = Some data →
  let rsp := concat (rsp_head_bytes 36 id 10 rtn ++
               [gap; be_bytes 8 fsize; be_bytes 4 bsize; be_bytes 4 0; rest]) in
  gfs_busi_getfsize_tobuf (Busi 10 req rsp (NetBuf [] 0 0 0) a dl bl ns) =
    Some (GFS_OK, Busi 10 req rsp
            (NetBuf (concat (getfsize_ans id rtn fsize bsize) ++ drop 36 data) 36 36 0) a dl bl ns).
Proof.
  intros Hgap Hdata rsp. unfold gfs_busi_getfsize_tobuf, rsp.
  assert (36 ≤ length data)%nat as Hsz.
  { apply env_malloc_size in Hdata. assert (36 ≤ htonl 36) by done. lia. }
  unfold rsp_head_bytes. cbn [app].
  unfold rsp32. erewrite M_bind_Some by (by apply (rsp_run 4) with (i := 0%nat)). bsteps.
  change (le_val (be_bytes 4 36)) with (htonl 36). rewrite Hdata.
  set (head := [be_bytes 4 36; be_bytes 4 id; be_bytes 4 10; be_bytes 4 rtn; be_bytes 4 0]).
  erewrite M_bind_Some by (by eapply (rsp_prefix_run _ _ head)).
  rewrite lift_prefix by (change (length (concat head)) with 20%nat; lia). cbv beta. bsteps.
  rewrite lift_append by fin_side. cbv beta. bsteps.
  rewrite lift_append by fin_side. cbv beta. bsteps.
  rewrite lift_append by fin_side. cbv beta. bsteps.
  rewrite !drop_drop. by rewrite <- !app_assoc.
Qed.

Lemma gfs_busi_getfsize_run m slack rsp data a dl bl ns :
  file_msg_ok m → (40 ≤ length rsp)%nat → env_malloc (htonl 36) = Some data →
  ∃ req' rsp',
  busi_case gfs_busi_getfsize_parse gfs_busi_getfsize_handle gfs_busi_getfsize_tobuf
    (Busi 10 (concat (file_req 10 m ++ [slack])) rsp (NetBuf [] 0 0 0) a dl bl ns) =
  (r ← getfsize_effect m ns;
   let ans := getfsize_ans (fm_id m) r.1.1 r.1.2 (w_block_size (tl_world ns)) in
   Some (GFS_OK, Busi 10 req' (rsp' r.1) (NetBuf (concat ans ++ drop 36 data) 36 36 0) a dl bl r.2)).
Proof.
  intros Hm Hrsp Hdata.
  destruct (getfsize_handle_run m slack rsp (NetBuf [] 0 0 0) a dl bl ns Hm Hrsp) as (gap & rest & Hgap & Hh).
  exists (concat (file_host 10 m ++ [slack])), (λ r, concat (rsp_head_bytes 36 (fm_id m) 10 r.1 ++
    [gap; be_bytes 8 r.2; be_bytes 4 (w_block_size (tl_world ns)); be_bytes 4 0; rest])).
  unfold busi_case. pose proof Hm as (_ & _ & Hl).
  rewrite (M_bind_Some _ _ _ _ _ (getfsize_parse_run _ _ _ _ _ _ _ _ Hl)). cbn [negb Z.eqb GFS_OK].
  rewrite M_bind_opt, Hh. destruct (getfsize_effect m ns) as [[[rtn fsize] ns']|]; [|done].
  cbn [mbind option_bind fst snd].
  by apply getfsize_tobuf_run.
Qed.

(** A request for the size of a file is answered by one response of 36
    bytes with the code and the size that [getfsize_effect] gives and the block
    size of the service; beyond the query the service is unchanged.  The buffer
    for the answer must come from an allocation of [htonl(36)] bytes. *)
Theorem gfs_busi_getfsize_refines m slack rsp data a dl bl ns :
  file_msg_ok m → (40 ≤ length rsp)%nat → env_malloc (htonl 36) = Some data →
  ∃ req' rsp',
  busi_case gfs_busi_getfsize_parse gfs_busi_getfsize_handle gfs_busi_getfsize_tobuf
    (Busi 10 (concat (file_req 10 m ++ [slack])) rsp (NetBuf [] 0 0 0) a dl bl ns) =
  (r ← getfsize_effect m ns;
   let ans := getfsize_ans (fm_id m) r.1.1 r.1.2 (w_block_size (tl_world ns)) in
   Some (GFS_OK, Busi 10 req' (rsp' r.1) (NetBuf (concat ans ++ drop 36 data) 36 36 0) a dl bl r.2)).
Proof. apply gfs_busi_getfsize_run. Qed.

(** ** Deleting a file *)

Definition delete_file_effect (m : file_msg) : M (svc D) Z :=
  if negb (fm_encrypt m =? 0) then mret GFS_BUSI_RTN_OK else
  ret ← in_sql (gfs_mysql_delfile (hex_digits (fm_hash m)));
  mret (if ret =? SQL_FILE_NOT_EXIST then GFS_BUSI_RTN_FILE_NOT_EXIST
        else if ret =? SQL_OK then GFS_BUSI_RTN_OK else GFS_BUSI_RTN_SYS_ERR).

Lemma delete_file_parse_run m slack rsp sb a dl bl ns :
  length (fm_hash m) = 16%nat →
  gfs_busi_delete_file_parse (Busi 4 (concat (file_req 4 m ++ [slack])) rsp sb a dl bl ns) =
    Some (GFS_OK, Busi 4 (concat (file_host 4 m ++ [slack])) rsp sb a dl bl ns).
Proof.
  intros Hh. unfold gfs_busi_delete_file_parse. cbn [file_req app]. bsteps.
  change (negb (_ =? 36)) with false. cbv iota. by bsteps.
Qed.

Lemma delete_file_handle_run m slack rsp sb a dl bl ns :
  file_msg_ok m → (24 ≤ length rsp)%nat → ∃ rest,
  gfs_busi_delete_file_handle (Busi 4 (concat (file_host 4 m ++ [slack])) rsp sb a dl bl ns) =
    (r ← delete_file_effect m ns;
     Some (GFS_OK, Busi 4 (concat (file_host 4 m ++ [slack]))
       (concat (delete_file_ans (fm_id m) r.1 ++ [rest])) sb a dl bl r.2)).
Proof.
  intros (He & Hb & Hh) Hrsp. split_block rsp [4; 4; 4; 4; 4; 4]%nat. exists rest.
  unfold gfs_busi_delete_file_handle, delete_file_ans, rsp_head_bytes, delete_file_effect.
  cbn [file_host app]. bsteps.
  destruct (fm_encrypt m =? 0); cbn [negb]; cbv iota; [|by bsteps]. bsteps.
  rewrite (lift_bind _ _ _ _ (hash_run _ Hb Hh)). bsteps.
  rewrite in_ns_bind, (M_bind_opt (in_sql _)).
  destruct (in_sql _ ns) as [[ret ns1]|]; [|done]. cbn [mbind option_bind fst snd].
  destruct (ret =? SQL_FILE_NOT_EXIST); [by bsteps|].
  destruct (ret =? SQL_OK); cbn [negb]; cbv iota; by bsteps.
Qed.

Lemma delete_file_tobuf_run id rtn req rest data a dl bl ns :
  env_malloc 24 = Some data →
  let ans := delete_file_ans id rtn in
  gfs_busi_delete_file_tobuf (Busi 4 req (concat (ans ++ [rest])) (NetBuf [] 0 0 0) a dl bl ns) =
    Some (GFS_OK, Busi 4 req (concat (ans ++ [rest]))
            (NetBuf (concat ans ++ drop 24 data) 24 24 0) a dl bl ns).
Proof.
  intros Hdata ans. unfold gfs_busi_delete_file_tobuf.
  assert (length (concat ans) = 24%nat) as Hlen by done.
  pose proof (env_malloc_size _ _ Hdata).
  unfold rsp32. erewrite M_bind_Some by (by apply (rsp_run 4) with (i := 0%nat)). bsteps.
  change (u32 24) with 24. rewrite Hdata.
  erewrite M_bind_Some by (by eapply (rsp_prefix_run _ _ ans)).
  rewrite lift_prefix by (rewrite Hlen; lia). by rewrite Hlen.
Qed.

Lemma gfs_busi_delete_file_run m slack rsp data a dl bl ns :
  file_msg_ok m → (24 ≤ length rsp)%nat → env_malloc 24 = Some data →
  ∃ req' rest,
  busi_case gfs_busi_delete_file_parse gfs_busi_delete_file_handle gfs_busi_delete_file_tobuf
    (Busi 4 (concat (file_req 4 m ++ [slack])) rsp (NetBuf [] 0 0 0) a dl bl ns) =
  (r ← delete_file_effect m ns;
   let ans := delete_file_ans (fm_id m) r.1 in
   Some (GFS_OK, Busi 4 req' (concat (ans ++ [rest])) (NetBuf (concat ans ++ drop 24 data) 24 24 0)
     a dl bl r.2)).
Proof.
  intros Hm Hrsp Hdata. pose proof Hm as (_ & _ & Hl).
  destruct (delete_file_handle_run m slack rsp (NetBuf [] 0 0 0) a dl bl ns Hm Hrsp) as (rest & Hh).
  exists (concat (file_host 4 m ++ [slack])), rest. unfold busi_case.
  rewrite (M_bind_Some _ _ _ _ _ (delete_file_parse_run _ _ _ _ _ _ _ _ Hl)). cbn [negb Z.eqb GFS_OK].
  rewrite M_bind_opt, Hh. destruct (delete_file_effect m ns) as [[rtn ns']|]; [|done].
  by apply delete_file_tobuf_run.
Qed.

(** A request to delete a file is answered by one response of 24 bytes
    with the code that [delete_file_effect] gives; the database is asked to
    delete the file unless the request is marked as encrypted, and nothing else
    of the service changes. *)
Theorem gfs_busi_delete_file_refines m slack rsp data a dl bl ns :
  file_msg_ok m → (24 ≤ length rsp)%nat → env_malloc 24 = Some data →
  ∃ req' rest,
  busi_case gfs_busi_delete_file_parse gfs_busi_delete_file_handle gfs_busi_delete_file_tobuf
    (Busi 4 (concat (file_req 4 m ++ [slack])) rsp (NetBuf [] 0 0 0) a dl bl ns) =
  (r ← delete_file_effect m ns;
   let ans := delete_file_ans (fm_id m) r.1 in
   Some (GFS_OK, Busi 4 req' (concat (ans ++ [rest])) (NetBuf (concat ans ++ drop 24 data) 24 24 0)
     a dl bl r.2)).
Proof. apply gfs_busi_delete_file_run. Qed.

(** ** Notices of data servers

    They are not answered: [sbuf] stays empty. *)

Record block_msg := BlockMsg { bm_id : Z; bm_encrypt : Z; bm_fid : Z; bm_bindex : Z; bm_dsid : Z }.
Definition block_msg_ok (m : block_msg) : Prop :=
  is_u32 (bm_encrypt m) ∧ is_u64 (bm_fid m) ∧ is_u32 (bm_bindex m) ∧ is_u32 (bm_dsid m).

(** A deleted block: [tl1] and [tl2] are the last 12 of the 40 bytes, [tl3] the
    four bytes behind the message that the handler takes for [separate]. *)
Definition delete_block_req (m : block_msg) (tl1 tl2 tl3 : bytes) : list bytes :=
  [be_bytes 4 40; be_bytes 4 (bm_id m); be_bytes 4 6; be_bytes 4 (bm_encrypt m);
   be_bytes 8 (bm_fid m); be_bytes 4 (bm_bindex m); tl1; tl2; tl3].
Definition delete_block_effect (a : Z) (m : block_msg) : M (svc D) unit :=
  if negb (bm_encrypt m =? 0) then mret tt else
  c ← get_conn a;
  _ ← in_sql (gfs_mysql_delblock (bm_fid m) (bm_bindex m) (u_dsid (c_user c)));
  mret tt.

(** A copied block: 44 bytes. *)
Definition copy_block_req (m : block_msg) (remain : Z) : list bytes :=
  [be_bytes 4 44; be_bytes 4 (bm_id m); be_bytes 4 8; be_bytes 4 (bm_encrypt m);
   be_bytes 4 (bm_dsid m); be_bytes 8 (bm_fid m); be_bytes 4 (bm_bindex m); be_bytes 8 remain;
   be_bytes 4 0].
Definition copy_block_effect (m : block_msg) : M (svc D) unit :=
  if negb (bm_encrypt m =? 0) then mret tt else
  _ ← in_sql (gfs_mysql_cpyblock (bm_fid m) (bm_bindex m) (bm_dsid m)); mret tt.

(** A heartbeat: 28 bytes with the load of the server. *)
Record beat_msg := BeatMsg { hm_id : Z; hm_encrypt : Z; hm_type : Z; hm_weight : Z }.
Definition beat_msg_ok (m : beat_msg) : Prop :=
  is_u32 (hm_encrypt m) ∧ is_u32 (hm_type m) ∧ is_u32 (hm_weight m).
Definition beat_req (m : beat_msg) : list bytes :=
  [be_bytes 4 28; be_bytes 4 (hm_id m); be_bytes 4 9; be_bytes 4 (hm_encrypt m);
   be_bytes 4 (hm_type m); be_bytes 4 (hm_weight m); be_bytes 4 0].
Definition with_weight (w : Z) (u : user) : user :=
  User (u_ctype u) (u_dsid u) (u_resize u) (u_dsize u) (u_cfft u) w (u_port u).
Definition beat_effect (m : beat_msg) (c : conn) : conn :=
  if bool_decide (hm_encrypt m = 0 ∧ u_ctype (c_user c) ≠ GFS_CLIENT_TYPE_PS ∧ hm_weight m ≤ 100)
  then conn_user (with_weight (hm_weight m) (c_user c)) c else c.

Lemma ntohll_be x : is_u64 x → ntohll (le_val (be_bytes 8 x)) = x.
Proof.
  intros Hx. rewrite ntohll_bswap by apply (bswap_range 8).
  rewrite le_val_be_bytes, bswap_involutive. by apply Z.mod_small.
Qed.

(** A notice that a block was deleted is not answered; unless it is
    marked as encrypted the database is told that the server of this connection
    has no longer the block, whatever it replies, and nothing else changes. *)
Theorem gfs_busi_delete_block_refines m tl1 tl2 tl3 slack rsp sb a dl bl ns :
  block_msg_ok m → length tl1 = 4%nat → length tl2 = 8%nat → length tl3 = 4%nat → ∃ req',
  busi_case gfs_busi_delete_block_parse gfs_busi_delete_block_handle gfs_busi_delete_block_tobuf
    (Busi 6 (concat (delete_block_req m tl1 tl2 tl3 ++ [slack])) rsp sb a dl bl ns) =
  (r ← delete_block_effect a m ns; Some (GFS_OK, Busi 6 req' rsp sb a dl bl r.2)).
Proof.
  intros (He & Hf & Hb & _) H1 H2 H3. eexists. unfold busi_case, gfs_busi_delete_block_parse.
  cbn [delete_block_req app]. bsteps. change (negb (_ =? 40)) with false. cbv iota. bsteps.
  unfold swap_req64, swap_req32. bsteps.
  cbn [negb Z.eqb GFS_OK]. unfold gfs_busi_delete_block_handle, gfs_busi_delete_block_tobuf, delete_block_effect. bsteps.
  destruct (bm_encrypt m =? 0); cbn [negb]; cbv iota; [|by bsteps]. bsteps.
  rewrite ntohll_be, u32_small, in_ns_bind, (M_bind_opt (get_conn a)) by done.
  destruct (get_conn a ns) as [[c ns1]|]; [|done]. cbn [mbind option_bind fst snd].
  bsteps. rewrite in_ns_bind, (M_bind_opt (in_sql _)).
  by destruct (in_sql _ ns1) as [[ret ns2]|].
Qed.

(** A notice that a block was copied is not answered; unless it is marked
    as encrypted the database is told that server [bm_dsid] has the block. *)
Theorem gfs_busi_copy_block_refines m remain slack rsp sb a dl bl ns :
  block_msg_ok m → ∃ req',
  busi_case gfs_busi_copy_block_parse gfs_busi_copy_block_handle gfs_busi_copy_block_tobuf
    (Busi 8 (concat (copy_block_req m remain ++ [slack])) rsp sb a dl bl ns) =
  (r ← copy_block_effect m ns; Some (GFS_OK, Busi 8 req' rsp sb a dl bl r.2)).
Proof.
  intros (He & Hf & Hb & Hd). eexists. unfold busi_case, gfs_busi_copy_block_parse.
  cbn [copy_block_req app]. bsteps. change (negb (_ =? 44)) with false. cbv iota. bsteps.
  cbn [negb Z.eqb GFS_OK]. unfold gfs_busi_copy_block_handle, gfs_busi_copy_block_tobuf, copy_block_effect. bsteps.
  destruct (bm_encrypt m =? 0); cbn [negb]; cbv iota; [|by bsteps]. bsteps.
  rewrite ntohll_be, u32_small, in_ns_bind, (M_bind_opt (in_sql _)) by done.
  destruct (in_sql _ ns) as [[ret ns2]|]; [|done]. cbn [mbind option_bind fst snd].
  by destruct (ret =? SQL_OK).
Qed.

(** A heartbeat is not answered; it changes at most the weight of its
    connection, exactly when the connection is no proxy, the weight is at most
    100 and the message is not marked as encrypted. *)
Theorem gfs_busi_heartbeat_refines m slack rsp sb a c dl bl ns :
  beat_msg_ok m → w_conns (tl_world ns) !! a = Some c → ∃ req',
  busi_case gfs_busi_heartbeat_parse gfs_busi_heartbeat_handle gfs_busi_heartbeat_tobuf
    (Busi 9 (concat (beat_req m ++ [slack])) rsp sb a dl bl ns) =
  Some (GFS_OK, Busi 9 req' rsp sb a dl bl
    (set_world (w_set_conns (<[a := beat_effect m c]> (w_conns (tl_world ns))) (tl_world ns)) ns)).
Proof.
  intros (He & Ht & Hw) Hc. eexists. unfold busi_case, gfs_busi_heartbeat_parse.
  cbn [beat_req app]. bsteps. change (negb (_ =? 28)) with false. cbv iota. bsteps.
  cbn [negb Z.eqb GFS_OK]. unfold gfs_busi_heartbeat_handle, gfs_busi_heartbeat_tobuf. bsteps.
  assert (beat_effect m c = c →
    set_world (w_set_conns (<[a := beat_effect m c]> (w_conns (tl_world ns))) (tl_world ns)) ns = ns) as Hsame.
  { intros ->. rewrite insert_id by done. by destruct ns as [? ? []]. }
  unfold beat_effect in *. destruct (Z.eqb_spec (hm_encrypt m) 0) as [H0|H0]; cbn [negb]; cbv iota.
  2:{ bsteps. by rewrite Hsame by (rewrite bool_decide_false; [done|naive_solver]). }
  rewrite M_bind_assoc, in_ns_bind. unfold get_conn at 1, getsM. rewrite Hc. cbn [mbind option_bind fst snd].
  destruct (Z.eqb_spec (u_ctype (c_user c)) GFS_CLIENT_TYPE_PS) as [Hty|Hty].
  { bsteps. by rewrite Hsame by (rewrite bool_decide_false; [done|naive_solver]). }
  bsteps. destruct (Z.ltb_spec (hm_weight m) 0) as [Hneg|_]; [unfold is_u32 in Hw; lia|].
  destruct (Z.ltb_spec 100 (hm_weight m)) as [H100|H100]; cbn [orb]; cbv iota.
  { bsteps. by rewrite Hsame by (rewrite bool_decide_false; [done|lia]). }
  rewrite bool_decide_true by done. bsteps. rewrite in_ns_bind. unfold upd_conn, get_conn, getsM.
  M_unfold. by rewrite Hc.
Qed.
End spec.
