(* ===== verification/NetMapSpec.v ===== *)
(** The map of data servers refines a finite map from server ids to connections
    that remembers the order of registration.

    [netmap_rep st es n]: [st] holds the entries [es], pairs of an id and a
    connection in the order of [dslist], and [n] nodes are left in
    [maplist]. *)
From stdpp Require Import sorting list.
From S2P Require Import Prelude Queue Rbtree RbtreeRep RbtreeMap RbtreeUnlink NetMap.

Section rep.
Context (sentinel dslist : Z) (fuel : nat).
Implicit Types (st : netmap) (t : tree) (ns free : list Z) (es : list (Z * Z)).

(** The free nodes from [h] on, linked by [next]. *)
Fixpoint chain (next : gmap Z Z) (h : Z) (free : list Z) : Prop :=
  match free with
  | [] => h = NULL
  | m :: free => h = m ∧ ∃ n, next !! m = Some n ∧ chain next n free
  end.

Definition qaddr (m : Z) : Z := m + qnode_off.

Record map_nodes st t ns free : Prop := {
  mn_tree : is_rbtree sentinel (nm_tree st) t;
  mn_sorted : key_sorted t;
  mn_perm : ns ≡ₚ ptrs t;
  mn_ring : ring (nm_queue st) dslist (qaddr <$> ns);
  mn_chain : chain (nm_next st) (nm_maplist st) free;
  mn_nodup : NoDup (NULL :: sentinel :: ns ++ free);
  mn_free : ∀ m, m ∈ free →
    is_Some (rb_heap (nm_tree st) !! m) ∧ is_Some (nm_queue st !! qaddr m) ∧ qaddr m ≠ dslist }.

Definition entry_at st t (m : Z) (e : Z * Z) : Prop :=
  (m, e.1) ∈ inorder t ∧ nm_data st !! m = Some e.2.

Definition netmap_rep st es (n : nat) : Prop :=
  ∃ t ns free, map_nodes st t ns free ∧ Forall2 (entry_at st t) ns es ∧ NoDup es.*1 ∧
    length free = n.

(** ** Running the tree and list operations *)

Lemma in_tree_run {A} (m : M rbt A) st x tr :
  m (nm_tree st) = Some (x, tr) →
  in_tree m st = Some (x, NetMap tr (nm_queue st) (nm_maplist st) (nm_data st) (nm_next st) (nm_sort_time st)).
Proof. unfold in_tree. by intros ->. Qed.
Lemma in_tree_read {A} (m : M rbt A) st x :
  m (nm_tree st) = Some (x, nm_tree st) → in_tree m st = Some (x, st).
Proof. intros H. rewrite (in_tree_run _ _ _ _ H). by destruct st. Qed.
Lemma in_queue_run {A} (m : M qheap A) st x q :
  m (nm_queue st) = Some (x, q) →
  in_queue m st = Some (x, NetMap (nm_tree st) q (nm_maplist st) (nm_data st) (nm_next st) (nm_sort_time st)).
Proof. unfold in_queue. by intros ->. Qed.
Lemma in_queue_read {A} (m : M qheap A) st x :
  m (nm_queue st) = Some (x, nm_queue st) → in_queue m st = Some (x, st).
Proof. intros H. rewrite (in_queue_run _ _ _ _ H). by destruct st. Qed.

Lemma set_key_at a v n (tr : rbt) :
  rb_heap tr !! a = Some n →
  set_key a v tr = Some (tt, Rbt (rb_root tr)
    (<[a := RbNode v (n_left n) (n_right n) (n_parent n) (n_red n)]> (rb_heap tr))).
Proof. destruct tr. apply set_key_run. Qed.

(** ** Entries and nodes *)

Lemma inorder_inj t p k k' :
  NoDup (ptrs t) → (p, k) ∈ inorder t → (p, k') ∈ inorder t → k = k'.
Proof.
  rewrite ptrs_inorder. intros Hd [i Hi]%list_elem_of_lookup [j Hj]%list_elem_of_lookup.
  assert (i = j) as ->.
  { eapply NoDup_lookup; [exact Hd|by rewrite list_lookup_fmap, Hi|by rewrite list_lookup_fmap, Hj]. }
  by simplify_eq.
Qed.

Lemma node_entry st t ns free es m :
  map_nodes st t ns free → Forall2 (entry_at st t) ns es → m ∈ ns →
  ∃ i e, ns !! i = Some m ∧ es !! i = Some e ∧ entry_at st t m e.
Proof.
  intros Hm Hes [i Hi]%list_elem_of_lookup. destruct (Forall2_lookup_l _ _ _ _ _ Hes Hi) as (e & He & Hat).
  eauto.
Qed.

Lemma rep_length st t ns free es :
  map_nodes st t ns free → Forall2 (entry_at st t) ns es → length (ptrs t) = length es.
Proof. intros Hm Hes. rewrite <- (mn_perm _ _ _ _ Hm). by eapply Forall2_length. Qed.

(** What the lookup in the tree finds. *)
Lemma lookup_node st t ns free es k :
  map_nodes st t ns free → Forall2 (entry_at st t) ns es → NoDup es.*1 → (length es < fuel)%nat →
  ∃ p, in_tree (gfs_rbtree_lookup_value fuel sentinel k) st = Some (p, st) ∧
    (p = NULL ∧ k ∉ es.*1 ∨
     p ≠ NULL ∧ ∃ i d, ns !! i = Some p ∧ es !! i = Some (k, d) ∧ nm_data st !! p = Some d).
Proof.
  intros Hm Hes Hk Hf. pose proof (rep_length _ _ _ _ _ Hm Hes) as Hl. pose proof (mn_nodup _ _ _ _ Hm) as Hd.
  assert (NULL ∉ ptrs t) as Hnull.
  { rewrite <- (mn_perm _ _ _ _ Hm). apply NoDup_cons in Hd as [Hd _]. set_solver. }
  destruct (lookup_value_run sentinel k _ _ fuel (mn_tree _ _ _ _ Hm) (mn_sorted _ _ _ _ Hm) Hnull)
    as (p & Hrun & Hp); [lia|].
  exists p. split; [by apply in_tree_read|]. destruct Hp as [[-> Hp]|[Hne Hp]]; [left|right]; (split; [done|]).
  - intros ([k' d] & -> & He)%list_elem_of_fmap. apply list_elem_of_lookup in He as [i Hi].
    destruct (Forall2_lookup_r _ _ _ _ _ Hes Hi) as (m & Hm' & Hin & _). by apply (Hp m).
  - assert (p ∈ ns) as Hin.
    { rewrite (mn_perm _ _ _ _ Hm), ptrs_inorder. by apply (list_elem_of_fmap_2 fst) in Hp. }
    destruct (node_entry _ _ _ _ _ _ Hm Hes Hin) as (i & [k' d] & Hi & Hei & [Hin' Hdat]).
    exists i, d. simpl in *. split_and!; [done| |done].
    rewrite Hei. do 2 f_equal. eapply inorder_inj; [|exact Hin'|exact Hp].
    pose proof (rbt_nodup _ _ _ (mn_tree _ _ _ _ Hm)) as Hnd. by apply NoDup_cons in Hnd as [_ ?].
Qed.

(** ** The finite map of a list of entries *)

Abbreviation to_map := (list_to_map : list (Z * Z) → gmap Z Z).

Lemma to_map_update es i k d d' :
  NoDup es.*1 → es !! i = Some (k, d) → to_map (<[i := (k, d')]> es) = <[k := d']> (to_map es).
Proof.
  revert i. induction es as [|[k' x] es IH]; intros i Hd Hi; [done|].
  rewrite fmap_cons, NoDup_cons in Hd. destruct Hd as [Hk Hd]. destruct i as [|i]; simpl in *.
  - injection Hi as -> ->. by rewrite insert_insert_eq.
  - rewrite (IH i Hd Hi). apply insert_insert_ne. intros ->. apply Hk.
    apply list_elem_of_lookup_2, (list_elem_of_fmap_2 fst) in Hi. done.
Qed.
Lemma to_map_snoc es k d : k ∉ es.*1 → to_map (es ++ [(k, d)]) = <[k := d]> (to_map es).
Proof.
  intros Hk. rewrite list_to_map_app. simpl. rewrite insert_empty.
  apply map_eq. intros j. destruct (decide (j = k)) as [->|Hj].
  - rewrite lookup_insert_eq, lookup_union_r; [by rewrite lookup_singleton_eq|by apply not_elem_of_list_to_map_1].
  - rewrite lookup_insert_ne, lookup_union by done. rewrite lookup_singleton_ne by done. by destruct (to_map es !! j).
Qed.
Lemma to_map_delete es1 es2 k d :
  NoDup (es1 ++ (k, d) :: es2).*1 → to_map (es1 ++ es2) = delete k (to_map (es1 ++ (k, d) :: es2)).
Proof.
  rewrite fmap_app, fmap_cons, NoDup_app, NoDup_cons. intros (Hd1 & H12 & Hk & Hd2). simpl in *.
  rewrite !list_to_map_app. simpl. apply map_eq. intros j. destruct (decide (j = k)) as [->|Hj].
  - rewrite lookup_delete_eq, lookup_union_None. split; apply not_elem_of_list_to_map_1; [|done].
    intros Hin. apply (H12 k); [done|set_solver].
  - rewrite lookup_delete_ne, !lookup_union, lookup_insert_ne by done. done.
Qed.

(** ** The operations *)

Lemma map_get_run st es n k :
  netmap_rep st es n → (length es < fuel)%nat →
  gfs_net_map_get sentinel fuel k st = Some (default NULL (to_map es !! k), st).
Proof.
  intros (t & ns & free & Hm & Hes & Hd & _) Hf. unfold gfs_net_map_get.
  destruct (lookup_node st t ns free es k Hm Hes Hd Hf) as (p & Hrun & [[-> Hk]|(Hp & i & d & Hi & Hei & Hdat)]).
  - rewrite (M_bind_Some _ _ _ _ _ Hrun), bool_decide_false by (intros H; by apply H).
    by rewrite not_elem_of_list_to_map_1.
  - rewrite (M_bind_Some _ _ _ _ _ Hrun), bool_decide_true by done.
    unfold get_data, getsM. rewrite Hdat.
    by erewrite elem_of_list_to_map_1 by (done || by eapply list_elem_of_lookup_2).
Qed.

(** [gfs_net_map_get] returns the connection registered under the id, or
    null, and changes nothing. *)
Theorem gfs_net_map_get_correct st es n k :
  netmap_rep st es n → (length es < fuel)%nat →
  gfs_net_map_get sentinel fuel k st = Some (default NULL (to_map es !! k), st).
Proof. apply map_get_run. Qed.

(** The state after a change of [data] only. *)
Definition with_data (m d : Z) st : netmap :=
  NetMap (nm_tree st) (nm_queue st) (nm_maplist st) (<[m := d]> (nm_data st)) (nm_next st) (nm_sort_time st).
Lemma update_rep st t ns free es i p k d d' :
  map_nodes st t ns free → Forall2 (entry_at st t) ns es → NoDup es.*1 →
  ns !! i = Some p → es !! i = Some (k, d) →
  netmap_rep (with_data p d' st) (<[i := (k, d')]> es) (length free).
Proof.
  intros Hm Hes Hd Hi Hei. exists t, ns, free. split_and!; [by destruct Hm| | |done].
  - apply Forall2_same_length_lookup. split; [by rewrite length_insert, (Forall2_length _ _ _ Hes)|].
    intros j q e Hq He. unfold entry_at, with_data. cbn [nm_data].
    destruct (decide (j = i)) as [->|Hj].
    + rewrite list_lookup_insert_eq in He by (by eapply lookup_lt_Some). simplify_eq.
      destruct (Forall2_lookup_lr _ _ _ _ _ _ Hes Hi Hei) as [Hin _]. by rewrite lookup_insert_eq.
    + rewrite list_lookup_insert_ne in He by done.
      destruct (Forall2_lookup_lr _ _ _ _ _ _ Hes Hq He) as [Hin Hdat]. split; [done|].
      rewrite lookup_insert_ne; [done|]. intros ->. apply Hj. eapply NoDup_lookup; [|exact Hq|exact Hi].
      pose proof (mn_nodup _ _ _ _ Hm) as Hnd. rewrite !NoDup_cons, NoDup_app in Hnd. naive_solver.
  - by rewrite list_fmap_insert, list_insert_id by (by rewrite list_lookup_fmap, Hei).
Qed.

(** A new entry: the first free node [m], with its key set, goes into tree and
    list. *)
Lemma insert_rep st t ns m nx nd free es k d :
  map_nodes st t ns (m :: free) → Forall2 (entry_at st t) ns es → NoDup es.*1 →
  k ∉ es.*1 → nm_next st !! m = Some nx → n_key nd = k → (S (length es) < fuel)%nat →
  ∃ tr q, gfs_rbtree_insert fuel (gfs_rbtree_insert_value fuel) sentinel m
      (Rbt (rb_root (nm_tree st)) (<[m := nd]> (rb_heap (nm_tree st)))) = Some (tt, tr) ∧
    gfs_queue_insert_tail dslist (qaddr m) (nm_queue st) = Some (tt, q) ∧
    netmap_rep (NetMap tr q nx (<[m := d]> (nm_data st)) (nm_next st) (nm_sort_time st))
      (es ++ [(k, d)]) (length free).
Proof.
  intros Hm Hes Hd Hk Hnx Hnd Hf. pose proof (rep_length _ _ _ _ _ Hm Hes) as Hl.
  destruct Hm as [Htree Hsort Hperm Hring [_ (nx' & Hnx' & Hchain)] Hnodup Hfree]. simplify_eq/=.
  pose proof Hnodup as Hdis. rewrite !NoDup_cons, NoDup_app, NoDup_cons in Hdis.
  destruct Hdis as (Hnull & Hs & Hdn & Hdm & Hmf & _).
  assert (m ∉ ptrs t) as Hmt by (rewrite <- Hperm; set_solver).
  destruct (Hfree m) as (_ & Hq & Hqd); [set_solver|].
  destruct (insert_value_run sentinel m nd (Rbt (rb_root (nm_tree st)) (<[m := nd]> (rb_heap (nm_tree st)))) t fuel fuel)
    as (tr & t' & la & lb & Hrun & Htree' & Hsort' & Hin & Hin' & _ & _ & Hoff).
  { eapply (is_rbtree_off _ _ _ _ [m]); [exact Htree|done| |set_solver].
    intros y Hy. simpl. apply lookup_insert_ne. set_solver. }
  { done. } { apply lookup_insert_eq. } { set_solver. } { lia. } { lia. }
  destruct (insert_tail_ring (nm_queue st) dslist (qaddr <$> ns) (qaddr m)) as (q & Hqrun & Hring' & _ & Hdom); [done..| |].
  { intros [?|(y & Hy & Hyn)%list_elem_of_fmap]%elem_of_cons; [done|].
    assert (y = m) as -> by (unfold qaddr in Hy; lia). set_solver. }
  exists tr, q. split; [done|]. split; [done|]. exists t', (ns ++ [m]), free. split_and!.
  - split; simpl; [done|done| |by rewrite fmap_app|done| |].
    + rewrite Hperm, !ptrs_inorder, Hin, Hin', !fmap_app, fmap_cons. simpl. solve_Permutation.
    + by rewrite <- app_assoc.
    + intros y Hy. destruct (Hfree y) as (Hh & Hyq & Hyd); [set_solver|]. split_and!; [|by apply Hdom|done].
      rewrite Hoff by (rewrite <- Hperm; set_solver). simpl. rewrite lookup_insert_ne; [done|set_solver].
  - apply Forall2_app.
    + eapply Forall2_impl_in; [exact Hes|]. intros y e Hy [Hye Hyd]. split; simpl.
      * rewrite Hin'. rewrite Hin in Hye. set_solver.
      * rewrite lookup_insert_ne; [done|set_solver].
    + constructor; [|done]. split; simpl; [rewrite Hin'; set_solver|by rewrite lookup_insert_eq].
  - rewrite fmap_app. apply NoDup_app. split_and!; [done|set_solver|apply NoDup_singleton].
  - done.
Qed.

Lemma map_add_run st es n k d :
  netmap_rep st es n → (S (length es) < fuel)%nat →
  ∃ st' es', gfs_net_map_add sentinel dslist fuel k d st =
      Some (if bool_decide (n = O) then GFS_ERR else GFS_OK, st') ∧
    netmap_rep st' es' (if bool_decide (k ∈ es.*1) then n else pred n) ∧
    to_map es' = (if bool_decide (n = O) then to_map es else <[k := d]> (to_map es)) ∧
    es'.*1 = (if bool_decide (n = O ∨ k ∈ es.*1) then es.*1 else es.*1 ++ [k]) ∧
    (n = O → st' = st ∧ es' = es).
Proof.
  intros Hrep Hf. pose proof Hrep as (t & ns & free & Hm & Hes & Hd & <-). unfold gfs_net_map_add.
  rewrite (M_bind_Some _ _ st (nm_maplist st) st) by done.
  destruct free as [|m free].
  - rewrite (mn_chain _ _ _ _ Hm). rewrite !bool_decide_true by (done || by left).
    exists st, es. split_and!; [done| |done..]. by destruct (bool_decide _).
  - destruct (mn_chain _ _ _ _ Hm) as [Hml (nx & Hnx & _)]. simpl length.
    pose proof (mn_nodup _ _ _ _ Hm) as Hnd. rewrite !NoDup_cons in Hnd. destruct Hnd as (Hnull & _ & _).
    rewrite bool_decide_false by (rewrite Hml; set_solver).
    rewrite (bool_decide_false (S (length free) = 0%nat)) by done.
    destruct (lookup_node st t ns _ es k Hm Hes Hd ltac:(lia)) as (p & Hrun & [[-> Hk]|(Hp & i & d0 & Hi & Hei & Hdat)]).
    + rewrite (M_bind_Some _ _ _ _ _ Hrun), bool_decide_false by (intros H; by apply H).
      destruct (mn_free _ _ _ _ Hm m) as ((nd & Hheap) & _); [set_solver|].
      destruct (insert_rep st t ns m nx (RbNode k (n_left nd) (n_right nd) (n_parent nd) (n_red nd)) free es k d)
        as (tr & q & Htr & Hq & Hrep'); [done..|].
      exists (NetMap tr q nx (<[m := d]> (nm_data st)) (nm_next st) (nm_sort_time st)), (es ++ [(k, d)]).
      rewrite Hml, !bool_decide_false by naive_solver. split_and!; [|done|by apply to_map_snoc|by rewrite fmap_app|done].
      rewrite (M_bind_Some _ _ st nx st) by (unfold get_mnext, getsM; by rewrite Hnx).
      erewrite M_bind_Some by done. erewrite M_bind_Some by done.
      erewrite M_bind_Some by (apply in_tree_run; simpl; by apply set_key_at).
      erewrite M_bind_Some by (apply in_tree_run; simpl; exact Htr).
      by erewrite M_bind_Some by (apply in_queue_run; simpl; exact Hq).
    + rewrite (M_bind_Some _ _ _ _ _ Hrun), bool_decide_true by done.
      exists (with_data p d st), (<[i := (k, d)]> es).
      assert (k ∈ es.*1) as Hk by (apply list_elem_of_lookup_2, (list_elem_of_fmap_2 fst) in Hei; done).
      rewrite !bool_decide_true by auto. split_and!; [done|by eapply (update_rep _ _ _ (m :: free))| | |done].
      * by eapply to_map_update.
      * by rewrite list_fmap_insert, list_insert_id by (by rewrite list_lookup_fmap, Hei).
Qed.

(** C31: while a free node is left [gfs_net_map_add] returns [GFS_OK] and makes
    the map send the id to the connection; a new id goes to the end of the
    order and takes a free node, an id that is there keeps its place.  When no
    node is left it fails and changes nothing, even for an id that is
    there. *)
Theorem gfs_net_map_add_correct st es n k d :
  netmap_rep st es n → (S (length es) < fuel)%nat →
  ∃ st' es', gfs_net_map_add sentinel dslist fuel k d st =
      Some (if bool_decide (n = O) then GFS_ERR else GFS_OK, st') ∧
    netmap_rep st' es' (if bool_decide (k ∈ es.*1) then n else pred n) ∧
    to_map es' = (if bool_decide (n = O) then to_map es else <[k := d]> (to_map es)) ∧
    es'.*1 = (if bool_decide (n = O ∨ k ∈ es.*1) then es.*1 else es.*1 ++ [k]) ∧
    (n = O → st' = st ∧ es' = es).
Proof. apply map_add_run. Qed.

(** Unlinking the node of an entry. *)
Lemma delete_rep st t ns1 p ns2 free es1 k d es2 :
  map_nodes st t (ns1 ++ p :: ns2) free →
  Forall2 (entry_at st t) (ns1 ++ p :: ns2) (es1 ++ (k, d) :: es2) → length ns1 = length es1 →
  NoDup (es1 ++ (k, d) :: es2).*1 → (S (S (length (es1 ++ (k, d) :: es2))) < fuel)%nat →
  ∃ tr q, gfs_rbtree_delete fuel sentinel p (nm_tree st) = Some (tt, tr) ∧
    gfs_queue_remove (qaddr p) (nm_queue st) = Some (tt, q) ∧
    netmap_rep (NetMap tr q (nm_maplist st) (nm_data st) (nm_next st) (nm_sort_time st))
      (es1 ++ es2) (length free).
Proof.
  intros Hm Hes Hlen Hd Hf. pose proof (rep_length _ _ _ _ _ Hm Hes) as Hl.
  destruct Hm as [Htree Hsort Hperm Hring Hchain Hnodup Hfree].
  apply Forall2_app_inv in Hes as [H1 Hes]; [|done]. apply Forall2_cons_1 in Hes as [[Hpk _] H2].
  pose proof Hnodup as Hdis. rewrite !NoDup_cons, !NoDup_app, NoDup_cons in Hdis.
  destruct Hdis as (Hnull & Hs & (Hd1 & H12 & Hp2 & Hd2) & Hnf & Hdf). simpl in Hpk.
  pose proof Hpk as (la & lb & Hin)%list_elem_of_split.
  destruct (delete_run sentinel p k _ t la lb fuel Htree Hin) as (tr & t' & Hrun & Htree' & Hin' & Hoff & _); [lia|].
  rewrite fmap_app, fmap_cons in Hring.
  destruct (remove_ring _ _ _ _ _ Hring) as (q & Hq & Hring' & _ & Hdom).
  exists tr, q. split; [done|]. split; [done|]. exists t', (ns1 ++ ns2), free. split_and!; [| | |done].
  - assert (ptrs t ≡ₚ p :: ptrs t') as Hpt.
    { rewrite !ptrs_inorder, Hin, Hin', !fmap_app, fmap_cons. simpl. solve_Permutation. }
    split; simpl; [done| | |by rewrite fmap_app|done| |].
    + unfold key_sorted in *. rewrite Hin in Hsort. rewrite Hin'. revert Hsort.
      rewrite !StronglySorted_app. intros (Hab & Ha & Hb). apply StronglySorted_inv in Hb as [Hb _].
      split_and!; [set_solver|done|done].
    + rewrite Hpt in Hperm. apply (Permutation_cons_inv (a := p)). rewrite <- Hperm. solve_Permutation.
    + rewrite !NoDup_cons, !NoDup_app. set_solver.
    + intros y Hy. destruct (Hfree y Hy) as (Hh & Hyq & Hyd). split_and!; [|by apply Hdom|done].
      rewrite Hoff; [done|]. rewrite <- Hperm. set_solver.
  - apply Forall2_app.
    + eapply Forall2_impl_in; [exact H1|]. intros y e Hy [Hye Hyd]. split; [|done].
      rewrite Hin in Hye. rewrite Hin'. set_solver.
    + eapply Forall2_impl_in; [exact H2|]. intros y e Hy [Hye Hyd]. split; [|done].
      rewrite Hin in Hye. rewrite Hin'. set_solver.
  - rewrite fmap_app, fmap_cons in Hd. rewrite fmap_app. revert Hd. rewrite !NoDup_app, NoDup_cons. set_solver.
Qed.

Lemma map_remove_run st es n k :
  netmap_rep st es n → (S (S (length es)) < fuel)%nat →
  ∃ st' es', gfs_net_map_remove sentinel fuel k st =
      Some (if bool_decide (n = O) then GFS_ERR else GFS_OK, st') ∧
    netmap_rep st' es' n ∧
    to_map es' = (if bool_decide (n = O) then to_map es else delete k (to_map es)) ∧
    es' = (if bool_decide (n = O) then es else filter (λ e, e.1 ≠ k) es) ∧
    (n = O → st' = st).
Proof.
  intros Hrep Hf. pose proof Hrep as (t & ns & free & Hm & Hes & Hd & <-). unfold gfs_net_map_remove.
  rewrite (M_bind_Some _ _ st (nm_maplist st) st) by done.
  destruct free as [|m free].
  { rewrite (mn_chain _ _ _ _ Hm). rewrite !bool_decide_true by done. by exists st, es. }
  destruct (mn_chain _ _ _ _ Hm) as [Hml _].
  pose proof (mn_nodup _ _ _ _ Hm) as Hnd. rewrite !NoDup_cons in Hnd. destruct Hnd as (Hnull & _ & _).
  rewrite bool_decide_false by (rewrite Hml; set_solver).
  rewrite !(bool_decide_false (length (m :: free) = 0%nat)) by done.
  destruct (lookup_node st t ns _ es k Hm Hes Hd ltac:(lia)) as (p & Hrun & [[-> Hk]|(Hp & i & d & Hi & Hei & Hdat)]).
  - exists st, es. rewrite (M_bind_Some _ _ _ _ _ Hrun), bool_decide_false by (intros H; by apply H).
    split_and!; [done|done| | |done].
    + rewrite delete_id; [done|by apply not_elem_of_list_to_map_1].
    + by rewrite filter_key_none.
  - rewrite (M_bind_Some _ _ _ _ _ Hrun), bool_decide_true by done.
    pose proof (take_drop_middle _ _ _ Hi) as Hns. pose proof (take_drop_middle _ _ _ Hei) as Hess.
    set (ns1 := take i ns) in *. set (ns2 := drop (S i) ns) in *.
    set (es1 := take i es) in *. set (es2 := drop (S i) es) in *.
    assert (length ns1 = length es1) as Hlen.
    { unfold ns1, es1. rewrite !length_take. apply Forall2_length in Hes. by rewrite Hes. }
    rewrite <- Hns in Hm, Hes. rewrite <- Hess in Hes, Hd, Hf |- *.
    destruct (delete_rep st t ns1 p ns2 (m :: free) es1 k d es2) as (tr & q & Htr & Hq & Hrep'); [done..|].
    eexists _, (es1 ++ es2). split; [|split; [exact Hrep'|]].
    + unfold whenM. rewrite M_bind_assoc.
      erewrite M_bind_Some by (apply in_tree_run; exact Htr).
      by erewrite M_bind_Some by (apply in_queue_run; exact Hq).
    + split_and!; [by eapply to_map_delete|by rewrite (filter_key_mid k d)|done].
Qed.

(** While a free node is left [gfs_net_map_remove] returns [GFS_OK] and
    takes the id out of the map, keeping the order of the others; the node it
    unlinks is not given back, the number of free nodes stays the same.  When no
    node is left it fails and changes nothing. *)
Theorem gfs_net_map_remove_correct st es n k :
  netmap_rep st es n → (S (S (length es)) < fuel)%nat →
  ∃ st' es', gfs_net_map_remove sentinel fuel k st =
      Some (if bool_decide (n = O) then GFS_ERR else GFS_OK, st') ∧
    netmap_rep st' es' n ∧
    to_map es' = (if bool_decide (n = O) then to_map es else delete k (to_map es)) ∧
    es' = (if bool_decide (n = O) then es else filter (λ e, e.1 ≠ k) es) ∧
    (n = O → st' = st).
Proof. apply map_remove_run. Qed.
(** A data server that logs in and goes away again, [n] times. *)
Fixpoint cycles (n : nat) (k d : Z) : M netmap unit :=
  match n with
  | O => mret tt
  | S n =>
      gfs_net_map_add sentinel dslist fuel k d;; gfs_net_map_remove sentinel fuel k;; cycles n k d
  end.

(** C32: the nodes of the map run out: after as many logins and logouts of one
    server as there were free nodes, the last connection stays in the map
    although it was removed, and every further login fails, that of the same
    server too. *)
Theorem gfs_net_map_nodes_run_out n st k d :
  netmap_rep st [] (S n) → (3 < fuel)%nat →
  ∃ st', cycles (S n) k d st = Some (tt, st') ∧
    gfs_net_map_get sentinel fuel k st' = Some (d, st') ∧
    ∀ k' d', gfs_net_map_add sentinel dslist fuel k' d' st' = Some (GFS_ERR, st').
Proof.
  intros Hrep Hf. revert st Hrep. induction n as [|n IH]; intros st Hrep.
  all: destruct (map_add_run st [] _ k d Hrep) as (st1 & es1 & Hadd & Hrep1 & Hmap & Hkeys & _); [simpl; lia|].
  all: rewrite bool_decide_false in Hadd, Hmap by done.
  all: rewrite bool_decide_false in Hrep1, Hkeys by set_solver; simpl in Hrep1, Hkeys.
  all: assert (length es1 = 1%nat) as Hlen by (by rewrite <- (length_fmap fst), Hkeys).
  all: destruct (map_remove_run st1 es1 _ k Hrep1) as (st2 & es2 & Hrm & Hrep2 & _ & Hes2 & H0); [lia|].
  all: rewrite (M_bind_Some _ _ _ _ _ Hadd) || (cbn [cycles]; setoid_rewrite (M_bind_Some _ _ _ _ _ Hadd)).
  - specialize (H0 eq_refl) as ->. exists st1. setoid_rewrite (M_bind_Some _ _ _ _ _ Hrm).
    split_and!; [done| |].
    + rewrite (map_get_run _ _ _ k Hrep1) by lia. by rewrite Hmap, lookup_insert_eq.
    + intros k' d'. destruct (map_add_run st1 es1 _ k' d' Hrep1) as (st3 & es3 & Hadd3 & _ & _ & _ & H0); [lia|].
      by specialize (H0 eq_refl) as [-> _].
  - setoid_rewrite (M_bind_Some _ _ _ _ _ Hrm). apply IH. rewrite bool_decide_false in Hes2 by done.
    destruct es1 as [|[k1 d1] [|]]; simplify_eq/=. by rewrite filter_cons_False in Hrep2 by naive_solver.
Qed.

(** ** The first servers of the list *)

Lemma topn_run st ns1 ns2 ds index num n :
  ring (nm_queue st) dslist (qaddr <$> ns1 ++ ns2) → Forall2 (λ m d, nm_data st !! m = Some d) ns2 ds →
  (length ns2 < n)%nat → index < num →
  topn_loop dslist n (hd dslist (qaddr <$> ns2)) index num st =
    Some (take (Z.to_nat (num - index)) ds, st).
Proof.
  revert ns1 ns2 ds index. induction n as [|n IH]; intros ns1 ns2 ds index Hr Hds Hn Hi; [lia|].
  destruct Hds as [|m d ns2 ds Hd Hds]; simpl.
  { by rewrite bool_decide_true, take_nil. }
  assert (qaddr m ≠ dslist) as Hm.
  { destruct Hr as [_ Hnd]. apply NoDup_cons in Hnd as [Hnd _]. set_solver. }
  rewrite bool_decide_false by done. simpl in Hn.
  replace (qaddr m - qnode_off) with m by (unfold qaddr; lia).
  erewrite M_bind_Some by (unfold get_data, getsM; by rewrite Hd).
  destruct (Z.leb_spec num (index + 1)).
  { replace (Z.to_nat (num - index)) with 1%nat by lia. done. }
  assert (gfs_queue_next (qaddr m) (nm_queue st) = Some (hd dslist (qaddr <$> ns2), nm_queue st)) as Hnext.
  { apply next_run. rewrite fmap_app, fmap_cons in Hr. apply ring_split in Hr as (_ & Hs & _).
    by apply seg_first in Hs as [? _]. }
  rewrite (M_bind_Some _ _ _ _ _ (in_queue_read _ _ _ Hnext)).
  erewrite M_bind_Some by (apply (IH (ns1 ++ [m])); [by rewrite <- app_assoc|done|lia|lia]).
  replace (Z.to_nat (num - index)) with (S (Z.to_nat (num - (index + 1)))) by lia. done.
Qed.

(** Sorting the list permutes the entries. *)
Lemma sort_rep st es n cmp :
  netmap_rep st es n → (length es < fuel)%nat →
  ∃ q es', gfs_queue_sort fuel cmp dslist (nm_queue st) = Some (tt, q) ∧ es' ≡ₚ es ∧
    netmap_rep (NetMap (nm_tree st) q (nm_maplist st) (nm_data st) (nm_next st) (nm_sort_time st)) es' n.
Proof.
  intros (t & ns & free & [Htree Hsort Hperm Hring Hchain Hnodup Hfree] & Hes & Hd & <-) Hf.
  destruct (queue_sort_run cmp fuel _ _ _ Hring) as (q & Hrun & Hring' & _ & Hdom).
  { rewrite length_fmap. by rewrite (Forall2_length _ _ _ Hes). }
  set (ns' := (λ q, q - qnode_off) <$> queue_sort_spec cmp (qaddr <$> ns)).
  assert (qaddr <$> ns' = queue_sort_spec cmp (qaddr <$> ns)) as Hns'.
  { unfold ns'. rewrite <- list_fmap_compose. rewrite <- (list_fmap_id (queue_sort_spec _ _)) at 2.
    apply list_fmap_ext. intros _ x _. unfold qaddr. simpl. lia. }
  assert (ns' ≡ₚ ns) as Hp.
  { unfold ns'. rewrite queue_sort_spec_perm, <- list_fmap_compose.
    replace (_ <$> ns) with ns; [done|]. rewrite <- (list_fmap_id ns) at 1.
    apply list_fmap_ext. intros _ x _. unfold qaddr. simpl. lia. }
  destruct (Permutation_Forall2 (symmetry Hp) Hes) as (es' & Hpe & Hes').
  exists q, es'. split; [done|]. split; [done|]. exists t, ns', free. split_and!; [|done|by rewrite <- Hpe|done].
  split; simpl; [done|done|by rewrite Hp|by rewrite Hns'|done|by rewrite Hp|].
  intros m Hm. destruct (Hfree m Hm) as (? & ? & ?). split_and!; [done|by apply Hdom|done].
Qed.

(** [gfs_net_map_gettopn] asked for at least one server returns the
    connections of the first [num] entries in the order of the list, each once;
    the list is left as it was, or, when the last sort is five minutes old,
    permuted. *)
Theorem gfs_net_map_gettopn_correct raw st es n now num :
  netmap_rep st es n → (length es < fuel)%nat → 1 ≤ num →
  ∃ st' es', gfs_net_map_gettopn dslist fuel raw now num st =
      Some ((GFS_OK, take (Z.to_nat num) es'.*2), st') ∧
    netmap_rep st' es' n ∧ es' ≡ₚ es ∧
    (if bool_decide (300 ≤ now - nm_sort_time st) then nm_sort_time st' = now else st' = st ∧ es' = es).
Proof.
  intros Hrep Hf Hnum. unfold gfs_net_map_gettopn.
  destruct (Z.ltb_spec num 1); [lia|]. rewrite (M_bind_Some _ _ st st st) by done.
  assert (∃ st' es', whenM (5 * 60 <=? now - nm_sort_time st)
    (in_queue (gfs_queue_sort fuel (gfs_net_ds_cmp raw (nm_tree st)) dslist);; set_sort_time now) st = Some (tt, st') ∧
    netmap_rep st' es' n ∧ es' ≡ₚ es ∧
    (if bool_decide (300 ≤ now - nm_sort_time st) then nm_sort_time st' = now else st' = st ∧ es' = es))
    as (st' & es' & Hrun & Hrep' & Hp & Hcase).
  { destruct (Z.leb_spec (5 * 60) (now - nm_sort_time st)).
    - rewrite bool_decide_true by lia.
      destruct (sort_rep st es n (gfs_net_ds_cmp raw (nm_tree st)) Hrep Hf) as (q & es' & Hrun & Hp & Hrep').
      eexists _, es'. split; [|split_and!; [|done|]].
      + unfold whenM. by rewrite (M_bind_Some _ _ _ _ _ (in_queue_run _ _ _ _ Hrun)).
      + destruct Hrep' as (t & ns & free & [] & ?). exists t, ns, free. split; [by split|done].
      + done.
    - rewrite bool_decide_false by lia. by exists st, es. }
  exists st', es'. split_and!; [|done..]. rewrite (M_bind_Some _ _ _ _ _ Hrun).
  destruct Hrep' as (t & ns & free & Hm & Hes & Hd & _).
  pose proof (mn_ring _ _ _ _ Hm) as Hring.
  assert (gfs_queue_head dslist (nm_queue st') = Some (hd dslist (qaddr <$> ns), nm_queue st')) as Hhead.
  { apply next_run. destruct Hring as [Hs _]. by apply seg_first in Hs as [? _]. }
  rewrite (M_bind_Some _ _ _ _ _ (in_queue_read _ _ _ Hhead)).
  erewrite M_bind_Some; [|apply (topn_run st' [] ns es'.*2); [done| | |lia]].
  - by rewrite Z.sub_0_r.
  - apply Forall2_fmap_r. eapply Forall2_impl; [exact Hes|]. by intros m e [_ ?].
  - rewrite (Forall2_length _ _ _ Hes), Hp. done.
Qed.
(** ** Start-up *)

(** The nodes of the array at [m]. *)
Fixpoint nodes (n : nat) (m : Z) : list Z :=
  match n with O => [] | S n => m :: nodes n (m + map_size) end.

Lemma nodes_lt n m y : y ∈ nodes n m → m ≤ y.
Proof.
  revert m. induction n as [|n IH]; intros m; simpl; [set_solver|].
  intros [->|Hy]%elem_of_cons; [lia|]. apply IH in Hy. unfold map_size in Hy. lia.
Qed.
Lemma nodes_nodup n m : NoDup (nodes n m).
Proof.
  revert m. induction n as [|n IH]; intros m; simpl; constructor; [|done].
  intros Hm%nodes_lt. unfold map_size in Hm. lia.
Qed.

Lemma nodes_length n m : length (nodes n m) = n.
Proof. revert m. induction n as [|n IH]; intros m; simpl; [done|]. by rewrite IH. Qed.

Lemma chain_off next m v h free : m ∉ free → chain next h free → chain (<[m := v]> next) h free.
Proof.
  revert h. induction free as [|y free IH]; intros h Hm; simpl; [done|].
  intros [-> (n & Hn & Hc)]. split; [done|]. exists n. rewrite lookup_insert_ne by set_solver.
  split; [done|]. apply IH; [set_solver|done].
Qed.

Lemma map_init_loop_run n m h free st :
  chain (nm_next st) h free → (∀ y, y ∈ nodes n m → y ∉ free) →
  ∃ h' next', map_init_loop n m h st =
      Some (h', NetMap (nm_tree st) (nm_queue st) (nm_maplist st) (nm_data st) next' (nm_sort_time st)) ∧
    chain next' h' (rev (nodes n m) ++ free).
Proof.
  revert m h free st. induction n as [|n IH]; intros m h free st Hc Hd; simpl.
  { exists h, (nm_next st). by destruct st. }
  simpl in Hd. destruct (IH (m + map_size) m (m :: free) (NetMap (nm_tree st) (nm_queue st) (nm_maplist st)
    (nm_data st) (<[m := h]> (nm_next st)) (nm_sort_time st))) as (h' & next' & Hrun & Hc').
  - simpl. split; [done|]. exists h. split; [apply lookup_insert_eq|]. apply chain_off; [set_solver|done].
  - intros y Hy Hyf. pose proof (nodes_lt _ _ _ Hy). unfold map_size in *. set_unfold.
    destruct Hyf as [->|?]; [lia|]. by apply (Hd y); [right|].
  - exists h', next'. split; [exact Hrun|]. by rewrite <- app_assoc.
Qed.

(** [gfs_net_map_init] on an array of 1024 nodes makes an empty map in
    which every node is free; without the array it fails. *)
Theorem gfs_net_map_init_correct st map n :
  rb_heap (nm_tree st) !! sentinel = Some n → is_Some (nm_queue st !! dslist) →
  NULL ≠ sentinel → NULL ∉ nodes (Z.to_nat GFS_NET_DS_MAPS) map → sentinel ∉ nodes (Z.to_nat GFS_NET_DS_MAPS) map →
  (∀ m, m ∈ nodes (Z.to_nat GFS_NET_DS_MAPS) map → is_Some (rb_heap (nm_tree st) !! m) ∧
     is_Some (nm_queue st !! qaddr m) ∧ qaddr m ≠ dslist) →
  gfs_net_map_init sentinel dslist None st = Some (GFS_ERR, st) ∧
  ∃ st', gfs_net_map_init sentinel dslist (Some map) st = Some (GFS_OK, st') ∧ netmap_rep st' [] (Z.to_nat GFS_NET_DS_MAPS).
Proof.
  intros Hs Hq Hns. split; [done|]. unfold gfs_net_map_init.
  generalize dependent (Z.to_nat GFS_NET_DS_MAPS). intros N Hnull Hsn Hnodes.
  destruct (map_init_loop_run N map NULL [] st) as (h & next & Hrun & Hc); [done|set_solver|].
  rewrite (M_bind_Some _ _ _ _ _ Hrun). erewrite M_bind_Some by done.
  destruct (init_ring _ _ Hq) as (q & Hqrun & Hring & _ & Hdom).
  assert (gfs_rbtree_init sentinel (nm_tree st) = Some (tt, Rbt sentinel
    (<[sentinel := RbNode (n_key n) (n_left n) (n_right n) (n_parent n) false]> (rb_heap (nm_tree st))))) as Htree.
  { destruct (nm_tree st) as [r hp]. simpl in Hs. unfold gfs_rbtree_init, gfs_rbt_black.
    by rewrite (M_bind_Some _ _ _ _ _ (set_color_run _ _ _ _ _ Hs)). }
  erewrite M_bind_Some by (apply in_tree_run; exact Htree).
  erewrite M_bind_Some by (apply in_queue_run; exact Hqrun).
  assert (∀ y, y ∈ rev (nodes N map) ↔ y ∈ nodes N map) as Hrev
    by (intros y; by rewrite !list_elem_of_In, <- in_rev).
  eexists. split; [done|]. exists E, [], (rev (nodes N map)). split_and!; [|constructor|constructor|].
  - split; cbn [nm_tree nm_queue nm_maplist nm_data nm_next nm_sort_time].
    + split; simpl; [by exists 0|done|apply NoDup_singleton|eexists; by rewrite lookup_insert_eq|exists 0%nat; constructor].
    + constructor.
    + done.
    + done.
    + by rewrite app_nil_r in Hc.
    + simpl app. rewrite !NoDup_cons. split_and!; [set_solver|set_solver|].
      apply NoDup_ListNoDup, List.NoDup_rev, NoDup_ListNoDup, nodes_nodup.
    + intros m Hm. apply Hrev in Hm. destruct (Hnodes m Hm) as (Hh & Hmq & Hmd).
      split_and!; [|by apply Hdom|done]. simpl. rewrite lookup_insert_ne; [done|]. by intros <-.
  - rewrite length_rev. apply nodes_length.
Qed.
End rep.
