(* ===== verification/SqlSpec.v ===== *)
(** The database layer: the balance of the connection pool, and which queries
    keep their statements inside their buffers. *)
From Stdlib Require Import (notations) String.
From S2P Require Import Prelude Bytes Text Sql.

(** ** Lengths of printed numbers *)

Lemma digits_length_le fuel k n acc :
  0 ≤ n < 10 ^ Z.of_nat k → (1 ≤ k)%nat → (length (digits fuel n acc) ≤ k + length acc)%nat.
Proof.
  revert k n acc. induction fuel as [|fuel IH]; intros k n acc Hn Hk; simpl; [lia|].
  destruct (Z.ltb_spec n 10); simpl; [lia|].
  destruct k as [|[|k]]; [lia|simpl in Hn; lia|].
  rewrite Nat2Z.inj_succ, Z.pow_succ_r in Hn by lia.
  specialize (IH (S k) (n `div` 10) ((48 + n `mod` 10) :: acc)). simpl in IH.
  assert (0 ≤ n `div` 10 < 10 ^ Z.of_nat (S k)).
  { split; [apply Z.div_pos; lia|apply Z.div_lt_upper_bound; lia]. }
  specialize (IH ltac:(done) ltac:(lia)). lia.
Qed.
Lemma digits_length_ge fuel k n acc :
  10 ^ Z.of_nat k ≤ n → (k < fuel)%nat → (k + length acc < length (digits fuel n acc))%nat.
Proof.
  assert (∀ fuel n acc, (length acc ≤ length (digits fuel n acc))%nat) as Hmono.
  { clear. induction fuel as [|fuel IH]; intros n acc; simpl; [lia|].
    case_match; simpl; [lia|]. specialize (IH (n `div` 10) ((48 + n `mod` 10) :: acc)). cbn [length] in IH. lia. }
  revert k n acc. induction fuel as [|fuel IH]; intros k n acc Hn Hk; [lia|]. simpl.
  destruct k as [|k].
  { case_match; simpl; [lia|]. specialize (Hmono fuel (n `div` 10) ((48 + n `mod` 10) :: acc)).
    simpl in Hmono. lia. }
  rewrite Nat2Z.inj_succ, Z.pow_succ_r in Hn by lia.
  assert (0 < 10 ^ Z.of_nat k) by (apply Z.pow_pos_nonneg; lia).
  destruct (Z.ltb_spec n 10); [lia|].
  specialize (IH k (n `div` 10) ((48 + n `mod` 10) :: acc)). simpl in IH.
  assert (10 ^ Z.of_nat k ≤ n `div` 10) by (apply Z.div_le_lower_bound; lia).
  specialize (IH ltac:(done) ltac:(lia)). lia.
Qed.
Lemma fmt_u_le k n : 0 ≤ n < 10 ^ Z.of_nat k → (1 ≤ k)%nat → (length (fmt_u n) ≤ k)%nat.
Proof. intros Hn Hk. pose proof (digits_length_le 20 k n [] Hn Hk) as H. cbn [length] in H. unfold fmt_u. lia. Qed.
Lemma fmt_u_ge k n : 10 ^ Z.of_nat k ≤ n → (k < 20)%nat → (k < length (fmt_u n))%nat.
Proof. intros Hn Hk. pose proof (digits_length_ge 20 k n [] Hn Hk) as H. cbn [length] in H. unfold fmt_u. lia. Qed.
Ltac dec_lia := unfold is_u32, is_u64 in *; cbn [Z.of_nat Pos.of_succ_nat Pos.succ]; lia.
Lemma fmt_d_i32 n : (length (fmt_d (i32 n)) ≤ 11)%nat.
Proof.
  pose proof (i32_range n). unfold fmt_d. case_match; simpl.
  - assert (length (fmt_u (- i32 n)) ≤ 10)%nat by (apply fmt_u_le; dec_lia). lia.
  - assert (length (fmt_u (i32 n)) ≤ 10)%nat by (apply fmt_u_le; dec_lia). lia.
Qed.

(** The text of a statement and its terminating zero fit a buffer. *)
Definition fits (cap : Z) (text : bytes) : Prop := Z.of_nat (length text) + 1 ≤ cap.

(** ** The pool *)

(** The queries of sql/gfs_sql.c with their arguments. *)
Inductive sql_op :=
  | OpLogin (dsid dsize remain : Z) | OpUpload (fhash : bytes) (fsize bnum bindex fid : Z)
  | OpDelfile (fhash : bytes) | OpDelblock (fid bindex dsid : Z) | OpCpyblock (fid bindex dsid : Z)
  | OpSetDeling (fid bindex dsid : Z) | OpGetfsize (fhash : bytes)
  | OpDownload (malloc : Z → bool) (fhash : bytes) (bindex fid : Z)
  | OpGetDelblock (opt copies : Z) | OpGetCpyblock (copies : Z).

Section pool.
Context {D : Type} `{!Mysql D}.
Local Abbreviation SM := (M (sqlst D)).
Implicit Types (st : sqlst D) (c : sql_conn).

Definition run_op (o : sql_op) : SM unit :=
  match o with
  | OpLogin a b r => _ ← gfs_mysql_login a b r; mret tt
  | OpUpload h s b i f => _ ← gfs_mysql_upload h s b i f; mret tt
  | OpDelfile h => _ ← gfs_mysql_delfile h; mret tt
  | OpDelblock f b d => _ ← gfs_mysql_delblock f b d; mret tt
  | OpCpyblock f b d => _ ← gfs_mysql_cpyblock f b d; mret tt
  | OpSetDeling f b d => _ ← gfs_mysql_set_deling f b d; mret tt
  | OpGetfsize h => _ ← gfs_mysql_getfsize h; mret tt
  | OpDownload m h b f => _ ← gfs_mysql_download m h b f; mret tt
  | OpGetDelblock o c => _ ← gfs_mysql_get_delblock o c; mret tt
  | OpGetCpyblock c => _ ← gfs_mysql_get_cpyblock c; mret tt
  end.
Fixpoint run_ops (os : list sql_op) : SM unit :=
  match os with [] => mret tt | o :: os => run_op o;; run_ops os end.

(** The counter is the length of the list, free and used connections add up to
    [n], and no free one is marked. *)
Definition pool_inv (n : Z) st : Prop :=
  sq_conn_num st = Z.of_nat (length (sq_conn st)) ∧ sq_conn_num st + sq_used_num st = n ∧
  Forall (λ c, sc_used c = 0) (sq_conn st).

(** Two states with the same pool; programs that leave the pool alone. *)
Definition same_pool st st' : Prop :=
  sq_conn st' = sq_conn st ∧ sq_conn_num st' = sq_conn_num st ∧ sq_used_num st' = sq_used_num st.
Definition frame {A} (m : SM A) : Prop := ∀ st x st', m st = Some (x, st') → same_pool st st'.

#[local] Instance same_pool_refl : Reflexive same_pool.
Proof. by intros st. Qed.
#[local] Instance same_pool_trans : Transitive same_pool.
Proof. intros s1 s2 s3 (? & ? & ?) (? & ? & ?). split_and!; congruence. Qed.
Lemma same_pool_inv n st st' : same_pool st st' → pool_inv n st → pool_inv n st'.
Proof. intros (H1 & H2 & H3) (? & ? & ?). unfold pool_inv. rewrite H1, H2, H3. done. Qed.

Lemma frame_ret {A} (x : A) : frame (mret x).
Proof. by intros st y st' [= -> ->]. Qed.
Lemma frame_bind {A B} (m : SM A) (f : A → SM B) :
  frame m → (∀ x, frame (f x)) → frame (x ← m; f x).
Proof.
  intros Hm Hf st y st' (x & s1 & H1 & H2)%M_bind_inv. etrans; [by eapply Hm|by eapply Hf].
Qed.
Lemma frame_ub {A} : frame (ub : SM A).
Proof. done. Qed.
Lemma frame_col row i : frame (col row i).
Proof. unfold col. intros st x st'. case_match; [|done]. by intros [= -> ->]. Qed.
Lemma frame_pages a b d : frame (set_pages a b d).
Proof. intros st x st' Hr. injection Hr as <- <-. done. Qed.
Create HintDb frame.
#[local] Hint Resolve frame_ret frame_bind frame_ub frame_col frame_pages : frame.

Lemma frame_fetch_blocks rows : frame (fetch_blocks rows).
Proof. induction rows; simpl; auto 8 with frame. Qed.
Lemma frame_fetch_notice rows : frame (fetch_notice rows).
Proof. induction rows; simpl; auto 12 with frame. Qed.
#[local] Hint Resolve frame_fetch_blocks frame_fetch_notice : frame.
Lemma frame_download_loop mal sets i out : frame (download_loop mal sets i out).
Proof.
  revert i out. induction sets as [|[rows e|n] sets IH]; intros i out; simpl; [auto with frame|..].
  - repeat case_match; auto with frame.
  - case_match; auto with frame.
Qed.
Lemma frame_notice_rows pages f q : (∀ p, frame (f p)) → frame (notice_rows pages f q).
Proof. intros Hf. unfold notice_rows. repeat case_match; auto 8 with frame. Qed.
#[local] Hint Resolve frame_download_loop frame_notice_rows : frame.

(** What one query does: the invariant stays, and unless a connection could not
    be opened again as many are in use as before. *)
Definition keeps {A} (m : SM A) : Prop := ∀ n st x st',
  pool_inv n st → m st = Some (x, st') →
  pool_inv n st' ∧ ((∀ d, is_Some (my_connect d)) → sq_used_num st' = sq_used_num st).

(** After [gfs_mysql_get], one connection is out. *)
Definition taken (n : Z) (u : Z) st : Prop := pool_inv n st ∧ sq_used_num st = u + 1.

Lemma put_run n u c st x st' :
  taken n u st → gfs_mysql_put c st = Some (x, st') →
  pool_inv n st' ∧ (sc_used c ≠ 1 ∨ (∀ d, is_Some (my_connect d)) → sq_used_num st' = u).
Proof.
  intros [(H1 & H2 & H3) Hu] Hr. unfold gfs_mysql_put in Hr.
  apply M_bind_inv in Hr as (node & s1 & Hn & Hr).
  assert (∀ c1 s1, same_pool st s1 →
    (s ← get; set_pool (SqlConn (sc_conn c1) 0 :: sq_conn s) (sq_conn_num s + 1) (sq_used_num s - 1);; mret 0) s1 =
      Some (x, st') → pool_inv n st' ∧ sq_used_num st' = u) as Hput.
  { intros c1 s2 (E1 & E2 & E3) [= <- <-]. unfold pool_inv. cbn [sq_conn sq_conn_num sq_used_num].
    rewrite E1, E2, E3. cbn [length]. split_and!; [lia|lia|by constructor|lia]. }
  destruct (Z.eqb_spec (sc_used c) 1) as [Hc|Hc].
  - unfold gfs_connect_to in Hn. apply M_bind_inv in Hn as (o & s2 & Ho & [= <- <-]).
    apply M_bind_inv in Ho as (s3 & s4 & [= <- <-] & Ho).
    destruct (my_connect (sq_db st)) as [[id d]|] eqn:Hcon; simpl in Ho.
    + injection Ho as <- <-. apply Hput in Hr as [? ?]; [done|]. by split_and!.
    + injection Ho as <- <-. injection Hr as <- <-. split; [done|].
      intros [?|Hall]; [done|]. destruct (Hall (sq_db st)). congruence.
  - injection Hn as <- <-. by apply Hput in Hr as [? ?]; [|done].
Qed.

Lemma run_query_keeps {A} cap text err (fail : Z → A) (k : sql_conn → sql_reply → SM A) :
  (∀ c q st x st', k c q st = Some (x, st') →
     ∃ st1 y st2, same_pool st st1 ∧ gfs_mysql_put c st1 = Some (y, st2) ∧ same_pool st2 st') →
  keeps (run_query cap text err fail k).
Proof.
  intros Hk n st x st' Hinv Hr. unfold run_query in Hr. pose proof Hinv as (H1 & H2 & H3).
  apply M_bind_inv in Hr as (o & s1 & Hget & Hr). unfold gfs_mysql_get in Hget.
  rewrite (M_bind_Some _ _ st st st) in Hget by done.
  destruct (sq_conn st) as [|c rest] eqn:Hc; [injection Hget as <- <-; by injection Hr as <- <-|].
  destruct (Z.eqb_spec (sq_conn_num st) 0) as [?|Hne]; cbn [negb] in Hget;
    [injection Hget as <- <-; by injection Hr as <- <-|].
  injection Hget as <- <-. case_match; [done|]. rewrite (M_bind_Some get _ _ _ _ eq_refl) in Hr. simpl in Hr.
  destruct (mysql_query text _) as [q d]. simpl in Hr. apply Forall_cons in H3 as [Hc0 H3]. simpl in H1.
  apply M_bind_inv in Hr as (u & s2 & Hdb & Hr). injection Hdb as _ Hs2.
  assert (taken n (sq_used_num st) s2) as Ht by (subst s2; split; [split_and!; simpl; [lia|lia|done]|done]).
  destruct (negb (q_err q =? 0)).
  - apply M_bind_inv in Hr as (u' & s3 & Hput & [= <- <-]).
    destruct (put_run _ _ _ _ _ _ Ht Hput) as [? Hu]. split; [done|]. intros Hall. apply Hu. by right.
  - destruct (Hk _ _ _ _ _ Hr) as (s3 & y & s4 & E1 & Hput & E2).
    assert (taken n (sq_used_num st) s3) as Ht3.
    { destruct Ht as [? Hu]. split; [by eapply same_pool_inv|]. destruct E1 as (_ & _ & ->). done. }
    destruct (put_run _ _ _ _ _ _ Ht3 Hput) as [? Hu]. split; [by eapply same_pool_inv|].
    intros _. destruct E2 as (_ & _ & ->). apply Hu. left. rewrite Hc0. lia.
Qed.

(** The continuation of every query reads its reply and gives the connection
    back. *)
Lemma put_last {A} (m : SM A) c st x st' :
  frame m → (r ← m; gfs_mysql_put c;; mret r) st = Some (x, st') →
  ∃ st1 y st2, same_pool st st1 ∧ gfs_mysql_put c st1 = Some (y, st2) ∧ same_pool st2 st'.
Proof.
  intros Hm (r & s1 & Hr & H)%M_bind_inv. apply M_bind_inv in H as (y & s2 & Hput & [= <- <-]).
  exists s1, y, s2. split_and!; [by eapply Hm|done|done].
Qed.
Lemma put_only {A} (r : A) c st x st' :
  (gfs_mysql_put c;; mret r) st = Some (x, st') →
  ∃ st1 y st2, same_pool st st1 ∧ gfs_mysql_put c st1 = Some (y, st2) ∧ same_pool st2 st'.
Proof. intros (y & s2 & Hput & [= <- <-])%M_bind_inv. by exists st, y, s2. Qed.

Lemma run_op_keeps o : keeps (run_op o).
Proof.
  assert (∀ A (m : SM A), keeps m → keeps (_ ← m; mret tt)) as Hdrop.
  { intros A m Hm n st x st' Hinv (y & s1 & H1 & [= <- <-])%M_bind_inv. by eapply Hm. }
  destruct o; apply Hdrop; clear Hdrop.
  1, 3, 4, 5, 6: apply run_query_keeps; intros c q s1 x s2; apply put_only.
  all: try (apply run_query_keeps; intros c q s1 x s2 Hr; eapply put_last; [|exact Hr]; repeat case_match; auto 8 with frame).
  - intros n st x st' Hinv Hr. unfold gfs_mysql_get_delblock in Hr.
    rewrite (M_bind_Some get _ _ _ _ eq_refl) in Hr. case_match; [done|].
    eapply run_query_keeps; [|exact Hinv|exact Hr]. intros c q s1 y s2 Hr'. eapply put_last; [|exact Hr'].
    apply frame_notice_rows. intros p. case_match; auto with frame.
  - intros n st x st' Hinv Hr. unfold gfs_mysql_get_cpyblock in Hr.
    rewrite (M_bind_Some get _ _ _ _ eq_refl) in Hr.
    eapply run_query_keeps; [|exact Hinv|exact Hr]. intros c q s1 y s2 Hr'. eapply put_last; [|exact Hr'].
    auto with frame.
Qed.

Lemma pool_fill_inv k n st st' :
  pool_inv n st → pool_fill k st = Some (true, st') →
  pool_inv (n + Z.of_nat k) st' ∧ sq_used_num st' = sq_used_num st.
Proof.
  revert n st. induction k as [|k IH]; intros n st Hinv Hr; simpl in Hr.
  { injection Hr as <-. by rewrite Z.add_0_r. }
  apply M_bind_inv in Hr as (o & s1 & Ho & Hr). unfold gfs_connect_to in Ho.
  apply M_bind_inv in Ho as (s2 & s3 & [= <- <-] & Ho).
  destruct (my_connect (sq_db st)) as [[id d]|]; injection Ho as <- <-; [|done].
  simpl in Hr. apply (IH (n + 1)) in Hr as [? ?]; [split; [by replace (n + Z.of_nat (S k)) with (n + 1 + Z.of_nat k) by lia|done]|].
  destruct Hinv as (H1 & H2 & H3). split_and!; cbn [sq_conn sq_conn_num sq_used_num length]; [lia|lia|by constructor].
Qed.

(** C33: however the queries are interleaved and fail, the counter of the pool
    is the length of its list, and free and used connections add up to the
    number that was opened; when every lost connection can be opened again, all
    of them are back after any sequence of queries. *)
Theorem gfs_mysql_pool_balance k st0 st1 os st :
  gfs_mysql_pool_create k st0 = Some (true, st1) → run_ops os st1 = Some (tt, st) →
  pool_inv (Z.of_nat k) st ∧
  ((∀ d, is_Some (my_connect d)) → sq_conn_num st = Z.of_nat k ∧ length (sq_conn st) = k).
Proof.
  intros Hc Hr. unfold gfs_mysql_pool_create in Hc.
  apply M_bind_inv in Hc as (u & s1 & [= <- <-] & Hc).
  apply (pool_fill_inv k 0) in Hc as [Hinv Hu]; [|by split_and!]. simpl in Hinv, Hu.
  assert (∀ os st1, pool_inv (Z.of_nat k) st1 → run_ops os st1 = Some (tt, st) → pool_inv (Z.of_nat k) st ∧
    ((∀ d, is_Some (my_connect d)) → sq_used_num st = sq_used_num st1)) as Hall.
  { clear. intros os. induction os as [|o os IH]; intros st1 Hinv Hr; simpl in Hr; [by injection Hr as <-|].
    apply M_bind_inv in Hr as ([] & s1 & H1 & H2).
    destruct (run_op_keeps o _ _ _ _ Hinv H1) as [Hinv1 Hu1].
    destruct (IH _ Hinv1 H2) as [? Hu2]. split; [done|]. intros Hcon. rewrite Hu2, Hu1 by done. done. }
  destruct (Hall os st1 Hinv Hr) as [Hfin Hu']. split; [done|]. intros Hcon.
  destruct Hfin as (H1 & H2 & _). rewrite Hu', Hu in H2 by done. lia.
Qed.
End pool.

(** ** Statements that do not fit *)

Section overflow.
Context {D : Type} `{!Mysql D}.
Implicit Types (st : sqlst D).

Definition available st : Prop := sq_conn st ≠ [] ∧ sq_conn_num st ≠ 0.

Lemma run_query_overflow {A} cap text err (fail : Z → A) k st :
  available st → ¬ fits cap text → run_query cap text err fail k st = None.
Proof.
  intros [Hc Hn] Hf. unfold run_query, gfs_mysql_get.
  destruct (sq_conn st) as [|c rest] eqn:Hst; [done|].
  rewrite M_bind_assoc, (M_bind_Some get _ _ _ _ eq_refl), Hst.
  destruct (Z.eqb_spec (sq_conn_num st) 0); [done|]. cbn [negb]. rewrite M_bind_assoc.
  erewrite M_bind_Some by done. erewrite M_bind_Some by done.
  unfold fits in Hf. by destruct (Z.ltb_spec cap (Z.of_nat (length text) + 1)); [|lia].
Qed.

(** A server that refuses every statement: a query comes back with its error as soon
    as its text has been printed and sent. *)
Definition refusing st : Prop := ∀ text, q_err (mysql_query text (sq_db st)).1 ≠ 0.

Lemma put_defined c st : ∃ r st', gfs_mysql_put c st = Some (r, st').
Proof.
  unfold gfs_mysql_put, gfs_connect_to. M_unfold. destruct (sc_used c =? 1); [|by eexists _, _].
  destruct (my_connect (sq_db st)) as [[id d]|]; by eexists _, _.
Qed.
Lemma run_query_refused {A} cap text err (fail : Z → A) k st x :
  available st → refusing st → fail err = x → fits cap text → ∃ st', run_query cap text err fail k st = Some (x, st').
Proof.
  intros [Hc Hn] Hr <- Hf. unfold run_query, gfs_mysql_get.
  destruct (sq_conn st) as [|c rest] eqn:Hst; [done|].
  rewrite M_bind_assoc, (M_bind_Some get _ _ _ _ eq_refl), Hst.
  destruct (Z.eqb_spec (sq_conn_num st) 0); [done|]. cbn [negb]. rewrite M_bind_assoc.
  erewrite M_bind_Some by done. erewrite M_bind_Some by done. unfold fits in Hf.
  destruct (Z.ltb_spec cap (Z.of_nat (length text) + 1)); [lia|]. erewrite M_bind_Some by done. cbn [sq_db].
  specialize (Hr text). destruct (mysql_query text (sq_db st)) as [q d]. cbn [fst] in Hr.
  erewrite M_bind_Some by done. destruct (Z.eqb_spec (q_err q) 0); [done|]. cbn [negb].
  edestruct put_defined as (r & st' & Hp). erewrite M_bind_Some by exact Hp. by exists st'.
Qed.
(** So a query is defined exactly when its statement fits. *)
Lemma run_query_crash {A} cap text err (fail : Z → A) k st :
  available st → refusing st → run_query cap text err fail k st = None ↔ ¬ fits cap text.
Proof.
  intros Ha Hr. split; [|by apply run_query_overflow].
  intros Hn Hf. destruct (run_query_refused cap text err fail k st _ Ha Hr eq_refl Hf) as [st' Hs]. congruence.
Qed.

(** The counters of the pages are of type [int]. *)
Definition pages_ok st : Prop := ∀ p, p ∈ [sq_cpy_pages st; sq_del0_pages st; sq_del1_pages st] → i32 p = p.

(** C34: the queries of sql/gfs_sql.c print their statements with [sprintf] into
    buffers on the stack.  With a connection at hand and a server that refuses the
    statement, the queries for an upload, the deletion and the size of a file, a stored
    block, a block being deleted and the notices return the error of the query,
    whatever their arguments of type [int], unsigned 32 and 64 bits are, as long as a
    hash has 32 digits and [opt] is 0 or 1.  The other three write past the end for
    some of these arguments: the download of a block from the index 10,000,000 on, the
    login when its numbers have more than 44 digits together, and the deletion of a
    block when they have, with the sign, more than 40. *)
Theorem gfs_mysql_statements_fit st :
  available st → refusing st → pages_ok st →
  (∀ fhash fsize bnum bindex fid, length fhash = 32%nat → is_u64 fsize → is_u32 bnum →
     ∃ st', gfs_mysql_upload fhash fsize bnum (i32 bindex) fid st = Some ((SQL_ARGS_ERR, -1, fid), st')) ∧
  (∀ fhash, length fhash = 32%nat →
     (∃ st', gfs_mysql_delfile fhash st = Some (SQL_ARGS_ERR, st')) ∧
     (∃ st', gfs_mysql_getfsize fhash st = Some ((SQL_ARGS_ERR, None), st'))) ∧
  (∀ fid bindex dsid, is_u64 fid → is_u32 dsid →
     (∃ st', gfs_mysql_cpyblock fid bindex dsid st = Some (SQL_ARGS_ERR, st')) ∧
     (∃ st', gfs_mysql_set_deling fid bindex dsid st = Some (SQL_ARGS_ERR, st'))) ∧
  (∀ opt copies, opt = 0 ∨ opt = 1 →
     (∃ st', gfs_mysql_get_delblock opt copies st = Some ((SQL_ARGS_ERR, []), st')) ∧
     (∃ st', gfs_mysql_get_cpyblock copies st = Some ((SQL_ARGS_ERR, []), st'))) ∧
  (∀ malloc fhash bindex fid, length fhash = 32%nat → 0 ≤ bindex < 2 ^ 31 →
     gfs_mysql_download malloc fhash bindex fid st = None ↔ 10 ^ 7 ≤ bindex) ∧
  (∀ dsid dsize remain, gfs_mysql_login dsid dsize remain st = None ↔
     (44 < length (fmt_u dsid) + length (fmt_u dsize) + length (fmt_u remain))%nat) ∧
  (∀ fid bindex dsid, gfs_mysql_delblock fid bindex dsid st = None ↔
     (40 < length (fmt_u fid) + length (fmt_d (i32 bindex)) + length (fmt_u dsid))%nat).
Proof.
  intros Hav Hrf Hpg.
  assert (∀ n, is_u64 n → (length (fmt_u n) ≤ 20)%nat) as H64 by (intros; apply fmt_u_le; dec_lia).
  assert (∀ n, is_u32 n → (length (fmt_u n) ≤ 10)%nat) as H32 by (intros; apply fmt_u_le; dec_lia).
  assert (∀ p, p ∈ [sq_cpy_pages st; sq_del0_pages st; sq_del1_pages st] → (length (fmt_d p) ≤ 11)%nat) as Hp
    by (intros p Hin; rewrite <- (Hpg p Hin); apply fmt_d_i32).
  split_and!.
  - intros * Hh Hs Hb. apply run_query_refused; [done..|]. unfold fits, upload_query, comma.
    pose proof (fmt_d_i32 bindex). pose proof (H64 _ Hs). pose proof (H32 _ Hb). rewrite !length_app, Hh. cbn [lit length]. lia.
  - intros * Hh. split; apply run_query_refused; try done; unfold fits, delfile_query, getfsize_query;
      rewrite !length_app, Hh; cbn [lit length]; lia.
  - intros * Hf Hd. pose proof (fmt_d_i32 bindex). pose proof (H64 _ Hf). pose proof (H32 _ Hd).
    split; apply run_query_refused; try done; unfold fits, block_query, comma; rewrite !length_app; cbn [lit length]; lia.
  - intros * Ho. pose proof (fmt_d_i32 copies).
    assert (length (fmt_d opt) = 1%nat) as Hl by (by destruct Ho as [-> | ->]).
    split; unfold gfs_mysql_get_delblock, gfs_mysql_get_cpyblock; rewrite (M_bind_Some get _ _ _ _ eq_refl).
    + replace ((opt =? 0)%Z || (opt =? 1)%Z) with true by (by destruct Ho as [-> | ->]). cbn [negb]. cbv zeta.
      apply run_query_refused; [done..|]. unfold fits, delblock_query, comma.
      assert (length (fmt_d (if (opt =? 0)%Z then sq_del0_pages st else sq_del1_pages st)) ≤ 11)%nat
        by (destruct (opt =? 0)%Z; apply Hp; set_solver).
      rewrite !length_app, Hl. cbn [lit length]. lia.
    + apply run_query_refused; [done..|]. unfold fits, cpyblock_query, comma.
      assert (length (fmt_d (sq_cpy_pages st)) ≤ 11)%nat by (apply Hp; set_solver).
      rewrite !length_app. cbn [lit length]. lia.
  - intros * Hh Hb. unfold gfs_mysql_download. rewrite run_query_crash by done. unfold fits, download_query.
    rewrite i32_small by lia. unfold fmt_d. destruct (Z.ltb_spec bindex 0); [lia|]. rewrite !length_app, Hh. cbn [lit length].
    split; intros Hx.
    + destruct (decide (10 ^ 7 ≤ bindex)) as [?|?]; [done|]. assert (length (fmt_u bindex) ≤ 7)%nat by (apply fmt_u_le; dec_lia). lia.
    + assert (7 < length (fmt_u bindex))%nat by (apply fmt_u_ge; dec_lia). lia.
  - intros *. unfold gfs_mysql_login. rewrite run_query_crash by done. unfold fits, login_query, comma.
    rewrite !length_app. cbn [lit length]. lia.
  - intros *. unfold gfs_mysql_delblock. rewrite run_query_crash by done. unfold fits, block_query, comma.
    rewrite !length_app. cbn [lit length]. lia.
Qed.

(** With a connection at hand, the statement of a download whose block
    index has eight digits, of a login of a server with five digits and sizes
    of twenty, and of a deleted block with the largest numbers is written past
    the end of its 64 bytes. *)
Theorem gfs_mysql_query_overflow st :
  available st →
  (∀ malloc fhash bindex fid, length fhash = 32%nat → 10 ^ 7 ≤ bindex < 2 ^ 31 →
     gfs_mysql_download malloc fhash bindex fid st = None) ∧
  (∀ dsid dsize remain, 10 ^ 4 ≤ dsid → 10 ^ 19 ≤ dsize → 10 ^ 19 ≤ remain →
     gfs_mysql_login dsid dsize remain st = None) ∧
  (∀ fid bindex dsid, 10 ^ 19 ≤ fid → 2 ^ 31 ≤ bindex ≤ 2 ^ 32 - 10 ^ 9 → 10 ^ 9 ≤ dsid →
     gfs_mysql_delblock fid bindex dsid st = None).
Proof.
  intros Hav. split_and!.
  - intros * Hh Hb. apply run_query_overflow; [done|]. unfold fits, download_query.
    rewrite i32_small by lia. unfold fmt_d. destruct (Z.ltb_spec bindex 0); [lia|].
    assert (7 < length (fmt_u bindex))%nat by (apply fmt_u_ge; dec_lia). rewrite !length_app, Hh. cbn [lit length]. lia.
  - intros * H1 H2 H3. apply run_query_overflow; [done|]. unfold fits, login_query, comma.
    assert (4 < length (fmt_u dsid))%nat by (apply fmt_u_ge; dec_lia). assert (19 < length (fmt_u dsize))%nat by (apply fmt_u_ge; dec_lia). assert (19 < length (fmt_u remain))%nat by (apply fmt_u_ge; dec_lia).
    rewrite !length_app. cbn [lit length]. lia.
  - intros * H1 H2 H3. apply run_query_overflow; [done|]. unfold fits, block_query, comma.
    assert (i32 bindex = bindex - 2 ^ 32) as ->.
    { unfold i32. rewrite u32_small by (unfold is_u32; lia). by destruct (Z.ltb_spec bindex (2 ^ 31)); [lia|]. }
    unfold fmt_d. destruct (Z.ltb_spec (bindex - 2 ^ 32) 0); [|lia].
    assert (19 < length (fmt_u fid))%nat by (apply fmt_u_ge; dec_lia). assert (9 < length (fmt_u (- (bindex - 2 ^ 32))))%nat by (apply fmt_u_ge; dec_lia). assert (9 < length (fmt_u dsid))%nat by (apply fmt_u_ge; dec_lia).
    rewrite !length_app. cbn [lit length]. lia.
Qed.
End overflow.
