(* ===== verification/BusiSpec.v ===== *)
(** What a program leaves alone: programs whose steps all stay in a preorder on
    states, and the preorder "the connections are the same". *)
From S2P Require Import Prelude Queue Rbtree Timer Bytes NetBuf Sql NetMap State Net Busi.

Section keeps.
Context {S : Type} (R : relation S) `{!PreOrder R}.

Definition keeps {A} (m : M S A) : Prop := ∀ st x st', m st = Some (x, st') → R st st'.

Lemma keeps_ret {A} (x : A) : keeps (mret x).
Proof. intros st y st' [= <- <-]. reflexivity. Qed.
Lemma keeps_bind {A B} (m : M S A) (f : A → M S B) :
  keeps m → (∀ x, keeps (f x)) → keeps (m ≫= f).
Proof.
  intros Hm Hf st y st' (x & s & Hx & Hy)%M_bind_inv. etrans; [by eapply Hm|by eapply Hf].
Qed.
Lemma keeps_ub {A} : keeps (@ub S A).
Proof. by intros st y st'. Qed.
Lemma keeps_get : keeps get.
Proof. intros st y st' [= <- <-]. reflexivity. Qed.
Lemma keeps_getsM {A} (f : S → option A) : keeps (getsM f).
Proof. intros st y st'. unfold getsM. destruct (f st); [|done]. intros [= <- <-]. reflexivity. Qed.
Lemma keeps_lift {A} (o : option A) : keeps (lift o).
Proof. intros st y st'. unfold lift. destruct o; [|done]. intros [= <- <-]. reflexivity. Qed.
Lemma keeps_modify (f : S → S) : (∀ st, R st (f st)) → keeps (modify f).
Proof. intros Hf st y st' [= <- <-]. apply Hf. Qed.
Lemma keeps_whenM (b : bool) (m : M S unit) : keeps m → keeps (whenM b m).
Proof. destruct b; [done|]. intros _. apply keeps_ret. Qed.
Lemma keeps_zoom {T A} (rd : S → T) (wr : T → S → S) (m : M T A) :
  (∀ t st, R st (wr t st)) → keeps (zoom rd wr m).
Proof.
  intros Hw st y st'. unfold zoom. destruct (m (rd st)) as [[x t]|]; [|done]. intros [= <- <-]. apply Hw.
Qed.
End keeps.

(** One rule at a time; what is left are the writes. *)
Ltac keeps_step :=
  match goal with
  | |- keeps _ (mret _) => apply keeps_ret
  | |- keeps _ (_ ≫= _) => apply keeps_bind; [apply _| |intros ?]
  | |- keeps _ ub => apply keeps_ub
  | |- keeps _ get => apply keeps_get
  | |- keeps _ (getsM _) => apply keeps_getsM
  | |- keeps _ (lift _) => apply keeps_lift
  | |- keeps _ (whenM _ _) => apply keeps_whenM
  | |- keeps _ (if ?b then _ else _) => destruct b
  | |- keeps _ (match ?b with _ => _ end) => destruct b
  | |- keeps _ (let '(_, _) := ?p in _) => destruct p
  end.
Ltac keeps_auto := repeat keeps_step; try apply _; auto with gfs.

(** ** The connections *)

Section conns.
Context {D : Type} `{!Env}.
Local Abbreviation SV := (M (svc D)).

Definition same_conns (st st' : svc D) : Prop := w_conns (tl_world st') = w_conns (tl_world st).
#[export] Instance same_conns_preorder : PreOrder same_conns.
Proof. split; [done|]. intros st1 st2 st3 H12 H23. unfold same_conns in *. congruence. Qed.

Lemma keeps_on_tree {A} (m : M rbt A) : keeps same_conns (on_tree m).
Proof.
  intros st y st'. unfold on_tree. destruct (m (tl_tree st)) as [[x t]|]; [|done]. by intros [= <- <-].
Qed.
Lemma keeps_set_timer t v : keeps same_conns (set_timer t v).
Proof. by intros st y st' [= <- <-]. Qed.
Lemma keeps_in_lists {A} (m : M qheap A) : keeps same_conns (in_lists m).
Proof. by apply keeps_zoom. Qed.
Lemma keeps_in_map {A} (m : M netmap A) : keeps same_conns (in_map m).
Proof. by apply keeps_zoom. Qed.
Lemma keeps_in_sql {A} (m : M (sqlst D) A) : keeps same_conns (in_sql m).
Proof. by apply keeps_zoom. Qed.
#[local] Hint Resolve keeps_on_tree keeps_set_timer keeps_in_lists keeps_in_map keeps_in_sql : gfs.
Lemma keeps_nums f g h :
  keeps same_conns (upd_world (λ w, w_set_nums (f w) (g w) (h w) w)).
Proof. by intros st y st' [= <- <-]. Qed.
Lemma keeps_epoll_ctl c : keeps same_conns (epoll_ctl c).
Proof. unfold epoll_ctl. apply keeps_bind; [apply _|by intros st y st' [= <- <-]|intros ?; apply keeps_ret; apply _]. Qed.
#[local] Hint Resolve keeps_nums keeps_epoll_ctl : gfs.
Lemma keeps_timer_del fuel s l t : keeps same_conns (gfs_timer_del fuel s l t).
Proof.
  unfold gfs_timer_del, get_timer. keeps_auto.
Qed.
Lemma keeps_get_conn a : keeps same_conns (get_conn a).
Proof. apply keeps_getsM. apply _. Qed.
Lemma keeps_event_del a : keeps same_conns (gfs_event_del a).
Proof. unfold gfs_event_del, get_conn. keeps_auto. Qed.
Lemma keeps_map_remove k : keeps same_conns (map_remove k).
Proof. apply keeps_in_map. Qed.
End conns.
#[export] Hint Resolve keeps_on_tree keeps_set_timer keeps_in_lists keeps_in_map keeps_in_sql : gfs.
#[export] Hint Resolve keeps_nums keeps_epoll_ctl keeps_timer_del keeps_get_conn keeps_event_del keeps_map_remove : gfs.

(** The dispatcher and the sending of its answers: what [gfs_busi_handle] puts
    on the wire, and what happens when the connection closes under it. *)
(** ** A socket that takes everything

    [accepts script n script']: the outcomes of [send] take [n] bytes, in
    pieces and with interruptions, and [script'] is what is left of them. *)
Inductive accepts : list send_res → Z → list send_res → Prop :=
  | acc_done s : accepts s 0 s
  | acc_len n s m s' : 0 < n ≤ m → accepts s (m - n) s' → accepts (SendLen n :: s) m s'
  | acc_intr s m s' : 0 < m → accepts s m s' → accepts (SendErr EINTR :: s) m s'.

Lemma accepts_nonneg s m s' : accepts s m s' → 0 ≤ m.
Proof. induction 1; lia. Qed.

Lemma ld_bytes_split n m off b v :
  ld_bytes (n + m) off b = Some v →
  ld_bytes n off b = Some (take n v) ∧ ld_bytes m (off + n) b = Some (drop n v).
Proof.
  unfold ld_bytes. case_decide; [|done]. intros [= <-].
  rewrite !decide_True by lia. split; f_equal.
  - rewrite take_take. f_equal. lia.
  - rewrite skipn_firstn_comm, drop_drop. do 2 f_equal; lia.
Qed.

Lemma tcp_send_all script m script' d len pos hd v :
  accepts script m script' → 0 ≤ hd → pos - hd = m → m < 2 ^ 31 →
  ld_bytes (Z.to_nat m) (Z.to_nat hd) d = Some v →
  gfs_net_tcp_send script (NetBuf d len pos hd) = Some (GFS_OK, NetBuf d len pos pos, v, script').
Proof.
  intros Ha. revert hd v. induction Ha as [s|n s m s' Hn Ha IH|s m s' Hm Ha IH]; intros hd v Hh Hpos Hlt Hv.
  - destruct s; simpl; rewrite i32_small by lia; replace pos with hd by lia; rewrite Z.sub_diag; simpl;
      unfold ld_bytes in Hv; case_decide; by simplify_eq/=.
  - simpl. rewrite i32_small by lia. destruct (Z.leb_spec (pos - hd) 0); [lia|].
    destruct (Z.ltb_spec n 0); [lia|]. destruct (Z.ltb_spec (pos - hd) n); [lia|]. cbn [orb].
    replace (Z.to_nat m) with (Z.to_nat n + Z.to_nat (m - n))%nat in Hv by lia.
    apply ld_bytes_split in Hv as [-> Hv]. simpl.
    replace (Z.to_nat hd + Z.to_nat n)%nat with (Z.to_nat (hd + n)) in Hv by lia.
    rewrite (IH (hd + n) (drop (Z.to_nat n) v)) by first [lia|exact Hv]. simpl. by rewrite take_drop.
  - simpl. rewrite i32_small by lia. destruct (Z.leb_spec (pos - hd) 0); [lia|].
    by erewrite IH by first [lia|exact Hv].
Qed.

Lemma compact_empty d len n :
  (Z.to_nat n ≤ length d)%nat → buf_compact (NetBuf d len n n) = Some (NetBuf d len 0 0).
Proof.
  intros Hn. unfold buf_compact. cbn [nb_pos nb_hd nb_data nb_len]. rewrite Z.ltb_irrefl, Z.sub_diag.
  unfold ld_bytes. rewrite decide_True by lia. reflexivity.
Qed.

Section dispatch.
Context {D : Type} `{!Mysql D, !Env}.
Local Abbreviation SV := (M (svc D)).
Implicit Types (st : svc D) (c : conn) (a : Z).

(** [st] with the connection [a] replaced. *)
Definition upd (a : Z) (c : conn) st : svc D :=
  set_world (w_set_conns (<[a := c]> (w_conns (tl_world st))) (tl_world st)) st.

Lemma get_conn_run a c st : w_conns (tl_world st) !! a = Some c → get_conn a st = Some (c, st).
Proof. intros Hc. unfold get_conn, getsM. by rewrite Hc. Qed.
Lemma get_conn_upd a c st : get_conn a (upd a c st) = Some (c, upd a c st).
Proof. apply get_conn_run. simpl. apply lookup_insert_eq. Qed.
Lemma set_conn_run a c st : set_conn a c st = Some (tt, upd a c st).
Proof. done. Qed.
Lemma upd_upd a c c' st : upd a c' (upd a c st) = upd a c' st.
Proof.
  unfold upd, set_world, w_set_conns. simpl. f_equal. f_equal. by rewrite insert_insert_eq.
Qed.

(** A connection whose send buffer is empty and that is ready. *)
Definition idle c : Prop :=
  nb_pos (c_sbuf c) = 0 ∧ nb_hd (c_sbuf c) = 0 ∧ 0 ≤ nb_len (c_sbuf c) < 2 ^ 31 ∧
  (Z.to_nat (nb_len (c_sbuf c)) ≤ length (nb_data (c_sbuf c)))%nat ∧
  Z.land (c_ready c) GFS_NET_READY ≠ 0 ∧ Z.land (c_ready c) GFS_EVENT_WRITE = 0.

(** [c] after [out] has been sent through its buffer. *)
Definition sent (out : bytes) (script : list send_res) (sd : bytes) c : conn :=
  Conn (c_fd c) (c_ready c) (c_flag c) (c_addr c) (c_user c) (c_rbuf c)
    (NetBuf sd (nb_len (c_sbuf c)) 0 0) (c_recv c) script (c_out c ++ out)
    (c_tstart c) (c_tend c) (c_resets c).

(** [conn_send] and [gfs_handle_tcp_send] when the socket takes all that is
    buffered. *)
Lemma conn_send_all a c st d n script v :
  c_sbuf c = NetBuf d (nb_len (c_sbuf c)) n 0 → 0 ≤ n < 2 ^ 31 →
  ld_bytes (Z.to_nat n) 0 d = Some v → accepts (c_send c) n script →
  conn_send a (upd a c st) = Some (GFS_OK, upd a (Conn (c_fd c) (c_ready c) (c_flag c) (c_addr c)
    (c_user c) (c_rbuf c) (NetBuf d (nb_len (c_sbuf c)) n n) (c_recv c) script (c_out c ++ v)
    (c_tstart c) (c_tend c) (c_resets c)) st).
Proof.
  intros Hs Hn Hv Hacc. unfold conn_send. rewrite (M_bind_Some _ _ _ _ _ (get_conn_upd _ _ _)).
  pose proof (tcp_send_all _ _ _ d (nb_len (c_sbuf c)) n 0 v Hacc ltac:(lia) ltac:(lia) ltac:(lia) Hv) as Hsend.
  rewrite <- Hs in Hsend. erewrite M_bind_Some by (unfold lift; by rewrite Hsend).
  cbv beta iota. by rewrite (M_bind_Some _ _ _ _ _ (set_conn_run _ _ _)), upd_upd.
Qed.

Lemma handle_tcp_send_all parse a c st d n script v :
  c_sbuf c = NetBuf d (nb_len (c_sbuf c)) n 0 → 0 ≤ n < 2 ^ 31 →
  ld_bytes (Z.to_nat n) 0 d = Some v → accepts (c_send c) n script →
  Z.land (c_ready c) GFS_NET_READY ≠ 0 → Z.land (c_ready c) GFS_EVENT_WRITE = 0 →
  gfs_handle_tcp_send parse a (upd a c st) = Some (GFS_OK, upd a (sent v script d c) st).
Proof.
  intros Hs Hn Hv Hacc Hr Hw. unfold gfs_handle_tcp_send.
  rewrite (M_bind_Some _ _ _ _ _ (conn_send_all _ _ _ _ _ _ _ Hs Hn Hv Hacc)).
  cbv beta. rewrite (M_bind_Some _ _ _ _ _ (get_conn_upd _ _ _)). cbv beta.
  change (GFS_OK =? GFS_NET_CLOSE) with false. change (GFS_OK =? GFS_NET_AGAIN) with false.
  cbn [c_ready]. rewrite (proj2 (Z.eqb_neq _ _) Hr). cbn [andb Z.eqb GFS_OK].
  erewrite M_bind_Some by done. cbv beta. rewrite (M_bind_Some _ _ _ _ _ (get_conn_upd _ _ _)). cbv beta.
  cbn [c_ready]. rewrite Hw. cbn [Z.eqb negb].
  erewrite M_bind_Some by done. cbv beta. rewrite (M_bind_Some _ _ _ _ _ (get_conn_upd _ _ _)). cbv beta.
  cbn [c_sbuf]. rewrite compact_empty by (unfold ld_bytes in Hv; case_decide; [lia|done]).
  erewrite M_bind_Some by done. cbv beta. by rewrite (M_bind_Some _ _ _ _ _ (set_conn_run _ _ _)), upd_upd.
Qed.

(** ** The copy into the send buffer *)

Lemma memcopy_idle c ans slack L :
  idle c → L = Z.of_nat (length ans) → 0 < L ≤ nb_len (c_sbuf c) →
  ∃ d, gfs_net_memcopy (c_sbuf c) (NetBuf (ans ++ slack) L L 0) =
         Some (GFS_OK, NetBuf d (nb_len (c_sbuf c)) L 0, NetBuf (ans ++ slack) L L L) ∧
       ld_bytes (Z.to_nat L) 0 d = Some ans.
Proof.
  intros (Hp & Hh & Hl & Hd & _) HL HLl. unfold gfs_net_memcopy. cbn [nb_len nb_pos nb_hd nb_data].
  rewrite Hp, Hh, !Z.sub_0_r, !i32_small by lia.
  assert (Hmin : (if L <? nb_len (c_sbuf c) then L else nb_len (c_sbuf c)) = L) by (case_match; lia).
  rewrite Hmin. destruct (Z.ltb_spec L 0); [lia|].
  replace (Z.to_nat L) with (length ans) by lia.
  change (Z.to_nat 0) with O. unfold ld_bytes at 1. rewrite decide_True by (rewrite length_app; lia).
  rewrite drop_0, take_app_length. cbn [mbind option_bind]. unfold st_bytes.
  rewrite decide_True by lia. cbn [mbind option_bind take app Nat.add]. rewrite !Z.add_0_l.
  eexists. split; [done|]. change (take 0 ?l ++ ?m) with m. unfold ld_bytes. rewrite decide_True by (rewrite length_app; lia).
  by rewrite drop_0, take_app_length.
Qed.

(** The sending loop hands over an answer that fits and that the socket
    takes. *)
Lemma send_loop_all parse alive fuel a c st ans slack L script :
  w_conns (tl_world st) !! a = Some c → idle c → L = Z.of_nat (length ans) → 0 < L ≤ nb_len (c_sbuf c) →
  accepts (c_send c) L script →
  (∀ d, alive (upd a (sent ans script d c) st) = Some (true, upd a (sent ans script d c) st)) →
  ∃ d, send_loop parse alive (S (S fuel)) a (NetBuf (ans ++ slack) L L 0) st =
       Some (tt, upd a (sent ans script d c) st).
Proof.
  intros Hc Hi HL HLl Hacc Halive. destruct (memcopy_idle c ans slack L) as (d & Hcopy & Hd); [done..|].
  exists d. remember (S fuel) as fuel'. cbn [send_loop nb_hd nb_pos]. destruct (Z.ltb_spec 0 L); [|lia].
  rewrite (M_bind_Some _ _ _ _ _ (get_conn_run _ _ _ Hc)). cbv beta. rewrite Hcopy.
  erewrite M_bind_Some by done. cbv beta iota. rewrite (M_bind_Some _ _ _ _ _ (set_conn_run _ _ _)). cbv beta.
  destruct Hi as (_ & _ & Hl & _ & Hr & Hw).
  assert (Hs : gfs_handle_tcp_send parse a (upd a (conn_sbuf (NetBuf d (nb_len (c_sbuf c)) L 0) c) st) =
               Some (GFS_OK, upd a (sent ans script d c) st)) 
    by (apply (handle_tcp_send_all parse a (conn_sbuf (NetBuf d (nb_len (c_sbuf c)) L 0) c) st d L script ans);
      try done; simpl; lia).
  rewrite (M_bind_Some _ _ _ _ _ Hs). cbv beta. rewrite (M_bind_Some _ _ _ _ _ (Halive d)). cbv beta iota.
  subst fuel'. cbn [send_loop nb_hd nb_pos]. by rewrite Z.ltb_irrefl.
Qed.

(** ** The dispatcher *)

(** The request made for a packet: a copy of the packet and an uninitialised
    response. *)
Definition fresh_busi (type a : Z) (data pbuf rsh : bytes) st : busi D :=
  Busi type (data ++ drop (length data) pbuf) rsh (NetBuf [] 0 0 0) a None [] st.

Lemma busi_create_run a data type pbuf rsh st :
  env_malloc sizeof_busi ≠ None → env_malloc (Z.of_nat (length data)) = Some pbuf →
  (12 ≤ length data)%nat → ntohl <$> ld32 8 data = Some type → 1 ≤ type ≤ 10 →
  env_malloc (rsp_size type) = Some rsh →
  gfs_busi_create a data (Z.of_nat (length data)) st = Some (Some (fresh_busi type a data pbuf rsh st), st).
Proof.
  intros Hb Hp Hl Ht Hr Hrsh. unfold gfs_busi_create. rewrite bool_decide_false, Hp by done.
  pose proof (env_malloc_size _ _ Hp) as Hpl.
  rewrite Nat2Z.id in *. unfold ld_bytes at 1. rewrite decide_True by lia. rewrite drop_0, firstn_all.
  cbn [mbind option_bind]. unfold st_bytes. rewrite decide_True by lia.
  erewrite M_bind_Some by done. cbv beta.
  assert (is_Some (ld32 4 data)) as [id Hid].
  { unfold ld32, ldn, ld_bytes. rewrite decide_True by lia. eauto. }
  rewrite Hid. erewrite M_bind_Some by done. cbv beta.
  rewrite Ht. erewrite M_bind_Some by done. cbv beta.
  destruct (Z.ltb_spec type 1), (Z.ltb_spec 10 type); [lia..|]. cbn [orb]. by rewrite Hrsh.
Qed.

(** A packet that [gfs_busi_create] turns into a request, and what its handlers
    make of it: [b], when they return. *)
Definition accepted (type : Z) (data pbuf rsh : bytes) : Prop :=
  env_malloc sizeof_busi ≠ None ∧ env_malloc (Z.of_nat (length data)) = Some pbuf ∧
  (12 ≤ length data)%nat ∧ ntohl <$> ld32 8 data = Some type ∧ 1 ≤ type ≤ 10 ∧
  env_malloc (rsp_size type) = Some rsh.
Definition handled (type a : Z) (data pbuf rsh : bytes) st (b : busi D) : Prop :=
  accepted type data pbuf rsh ∧
  ∃ m r, busi_switch type = Some m ∧ m (fresh_busi type a data pbuf rsh st) = Some (r, b).

(** [gfs_busi_handle] up to the sending loop. *)
Lemma busi_handle_run parse fuel a data type pbuf rsh c b st :
  handled type a data pbuf rsh st b → w_conns (tl_world st) !! a = Some c →
  gfs_busi_handle parse fuel a data st =
  (let alive : SV bool := c' ← get_conn a; mret (c_resets c' =? c_resets c) in
   send_loop parse alive fuel a (b_sbuf b);; gfs_busi_destory alive;; mret GFS_OK) (b_ns b).
Proof.
  intros [(Hb & Hp & Hl & Ht & Hr & Hrsh) (m & r & Hm & Hrun)] Hc. unfold gfs_busi_handle.
  rewrite (M_bind_Some _ _ _ _ _ (get_conn_run _ _ _ Hc)). cbv beta zeta.
  rewrite (M_bind_Some _ _ _ _ _ (busi_create_run _ _ _ _ _ _ Hb Hp Hl Ht Hr Hrsh)). cbv beta iota.
  cbn [b_type fresh_busi]. rewrite Hm.
  erewrite M_bind_Some by (unfold run_busi; change (busi_with _ st) with (fresh_busi type a data pbuf rsh st);
    by rewrite Hrun). done.
Qed.

(** C35: a packet of a known type is answered with the bytes its handlers leave
    in the buffer of the request: when the connection is ready, has nothing
    buffered and its socket takes them, in pieces and with interruptions, they
    are appended to what went over the wire, in order and once, and the send
    buffer is empty again; nothing else changes after the handlers.  A request
    whose handlers leave no answer sends nothing. *)
Theorem gfs_busi_handle_answers parse fuel a data type pbuf rsh c c' b st ans slack :
  handled type a data pbuf rsh st b → w_conns (tl_world st) !! a = Some c →
  w_conns (tl_world (b_ns b)) !! a = Some c' → c_resets c' = c_resets c →
  b_sbuf b = NetBuf (ans ++ slack) (Z.of_nat (length ans)) (Z.of_nat (length ans)) 0 →
  (ans = [] → gfs_busi_handle parse (S (S fuel)) a data st = Some (GFS_OK, b_ns b)) ∧
  (∀ script, ans ≠ [] → idle c' → Z.of_nat (length ans) ≤ nb_len (c_sbuf c') →
     accepts (c_send c') (Z.of_nat (length ans)) script →
     ∃ d, gfs_busi_handle parse (S (S fuel)) a data st = Some (GFS_OK, upd a (sent ans script d c') (b_ns b))).
Proof.
  intros Hh Hc Hc' Hres Hs. rewrite (busi_handle_run _ _ _ _ _ _ _ _ _ _ Hh Hc), Hs. cbv zeta. split.
  - intros ->. remember (S fuel) as fuel'. cbn [length Z.of_nat send_loop nb_hd nb_pos Z.ltb Z.compare].
    erewrite M_bind_Some by done. unfold gfs_busi_destory. rewrite M_bind_assoc.
    erewrite M_bind_Some by (rewrite (M_bind_Some _ _ _ _ _ (get_conn_run _ _ _ Hc')); cbv beta; by rewrite Hres).
    by rewrite Z.eqb_refl.
  - intros script Hne Hi Hle Hacc. assert (0 < length ans)%nat by (destruct ans; [done|simpl; lia]).
    set (alive := c0 ← get_conn a; mret (c_resets c0 =? c_resets c) : SV bool).
    assert (Hal : ∀ d, alive (upd a (sent ans script d c') (b_ns b)) =
                       Some (true, upd a (sent ans script d c') (b_ns b))).
    { intros d. unfold alive. rewrite (M_bind_Some _ _ _ _ _ (get_conn_upd _ _ _)). cbn [c_resets sent].
      by rewrite Hres, Z.eqb_refl. }
    destruct (send_loop_all parse alive fuel a c' (b_ns b) ans slack _ script Hc' Hi eq_refl) as [d Hsend];
      [lia|done..|].
    exists d. rewrite (M_bind_Some _ _ _ _ _ Hsend). unfold gfs_busi_destory. cbv beta. rewrite M_bind_assoc.
    by rewrite (M_bind_Some _ _ _ _ _ (Hal d)).
Qed.

(** ** A connection that closes under the dispatcher *)

Lemma event_del_conns a st x st' :
  gfs_event_del a st = Some (x, st') → w_conns (tl_world st') = w_conns (tl_world st).
Proof. apply keeps_event_del. Qed.

(** [gfs_net_close] counts the reset of the pool and leaves the readiness of
    the connection as it was. *)
Lemma net_close_resets a c st x st' :
  a ≠ NULL → w_conns (tl_world st) !! a = Some c → gfs_net_close a st = Some (x, st') →
  ∃ c', w_conns (tl_world st') !! a = Some c' ∧ c_resets c' = c_resets c + 1 ∧ c_ready c' = c_ready c.
Proof.
  intros Ha Hc. unfold gfs_net_close. rewrite bool_decide_false by done.
  intros (x1 & s1 & H1%event_del_conns & Hr)%M_bind_inv. rewrite <- H1 in Hc. clear H1.
  unfold upd_conn in Hr. rewrite M_bind_assoc, (M_bind_Some _ _ _ _ _ (get_conn_run _ _ _ Hc)) in Hr.
  apply M_bind_inv in Hr as (x2 & s2 & H2 & Hr). rewrite set_conn_run in H2. injection H2 as _ <-.
  match type of Hr with ?m _ = _ => assert (Hk : keeps same_conns m) by keeps_auto end.
  apply Hk in Hr. unfold same_conns in Hr. rewrite Hr. eexists. split; [apply lookup_insert_eq|done].
Qed.

(** The outcomes of [send] take less than [n] bytes before an error. *)
Inductive breaks : list send_res → Z → Prop :=
  | brk_err e s m : 0 < m → e ≠ EINTR → e ≠ EAGAIN → breaks (SendErr e :: s) m
  | brk_len n s m : 0 < n < m → breaks s (m - n) → breaks (SendLen n :: s) m
  | brk_intr s m : 0 < m → breaks s m → breaks (SendErr EINTR :: s) m.

Lemma tcp_send_breaks script m d len pos hd v :
  breaks script m → 0 ≤ hd → pos - hd = m → m < 2 ^ 31 →
  ld_bytes (Z.to_nat m) (Z.to_nat hd) d = Some v →
  ∃ hd' out script', gfs_net_tcp_send script (NetBuf d len pos hd) =
    Some (GFS_NET_CLOSE, NetBuf d len pos hd', out, script').
Proof.
  intros Hb. revert hd v. induction Hb as [e s m Hm H1 H2|n s m Hn Hb IH|s m Hm Hb IH]; intros hd v Hh Hpos Hlt Hv.
  all: cbn [gfs_net_tcp_send nb_pos nb_hd nb_data nb_len]; rewrite i32_small by lia; destruct (Z.leb_spec (pos - hd) 0); [lia|].
  - rewrite (proj2 (Z.eqb_neq _ _) H1), (proj2 (Z.eqb_neq _ _) H2). eauto.
  - destruct (Z.ltb_spec n 0); [lia|]. destruct (Z.ltb_spec (pos - hd) n); [lia|]. cbn [orb].
    replace (Z.to_nat m) with (Z.to_nat n + Z.to_nat (m - n))%nat in Hv by lia.
    apply ld_bytes_split in Hv as [-> Hv]. cbn [mbind option_bind].
    replace (Z.to_nat hd + Z.to_nat n)%nat with (Z.to_nat (hd + n)) in Hv by lia.
    destruct (IH (hd + n) _ ltac:(lia) ltac:(lia) ltac:(lia) Hv) as (hd' & out & s' & ->). cbn. eauto.
  - cbn. eauto.
Qed.

(** The buffer of the connection is loaded and sending breaks: the handler
    resets the pool of the connection, once. *)
Lemma handle_tcp_send_breaks parse a c st d n v x st' :
  a ≠ NULL → c_sbuf c = NetBuf d (nb_len (c_sbuf c)) n 0 → 0 ≤ n < 2 ^ 31 →
  ld_bytes (Z.to_nat n) 0 d = Some v → breaks (c_send c) n → Z.land (c_ready c) GFS_EVENT_WRITE = 0 →
  gfs_handle_tcp_send parse a (upd a c st) = Some (x, st') →
  ∃ c', w_conns (tl_world st') !! a = Some c' ∧ c_resets c' = c_resets c + 1.
Proof.
  intros Ha Hs Hn Hv Hb Hw. unfold gfs_handle_tcp_send, conn_send.
  destruct (tcp_send_breaks _ _ d (nb_len (c_sbuf c)) n 0 v Hb) as (hd' & out & script' & Hsend); [lia..|done|].
  rewrite <- Hs in Hsend. rewrite M_bind_assoc, (M_bind_Some _ _ _ _ _ (get_conn_upd _ _ _)).
  cbv beta. rewrite M_bind_assoc, Hsend. erewrite M_bind_Some by done. cbv beta iota.
  rewrite M_bind_assoc, (M_bind_Some _ _ _ _ _ (set_conn_run _ _ _)), upd_upd.
  erewrite M_bind_Some by done. cbv beta. rewrite (M_bind_Some _ _ _ _ _ (get_conn_upd _ _ _)). cbv beta.
  change (GFS_NET_CLOSE =? GFS_NET_CLOSE) with true. cbv iota. unfold gfs_handle_tcp_close. 
  intros (x1 & s1 & H1 & Hr)%M_bind_inv. apply M_bind_inv in H1 as (x2 & s2 & H2 & [= <- <-]).
  eapply net_close_resets in H2 as (c2 & Hc2 & Hr2 & Hy2); [|done|apply lookup_insert_eq].
  cbn [c_resets c_ready] in Hr2, Hy2. rewrite (M_bind_Some _ _ _ _ _ (get_conn_run _ _ _ Hc2)) in Hr.
  cbv beta in Hr. rewrite Hy2, Hw in Hr. cbn [Z.eqb negb] in Hr.
  erewrite M_bind_Some in Hr by done. cbv beta in Hr. rewrite (M_bind_Some _ _ _ _ _ (get_conn_run _ _ _ Hc2)) in Hr.
  cbv beta in Hr. apply M_bind_inv in Hr as (sb & s3 & Hsb & Hr).
  assert (s3 = s2) as -> by (unfold lift in Hsb; destruct (buf_compact _); naive_solver).
  rewrite (M_bind_Some _ _ _ _ _ (set_conn_run _ _ _)) in Hr. injection Hr as _ <-.
  eexists. split; [apply lookup_insert_eq|]. done.
Qed.

(** C36: when the peer goes away while the answer is being sent, the connection
    is closed and its pool is reset, which frees the request that the
    dispatcher still reads and destroys: the run is undefined. *)
Theorem gfs_busi_handle_close_uaf parse fuel a data type pbuf rsh c c' b st ans slack :
  handled type a data pbuf rsh st b → w_conns (tl_world st) !! a = Some c → a ≠ NULL →
  w_conns (tl_world (b_ns b)) !! a = Some c' → c_resets c' = c_resets c →
  b_sbuf b = NetBuf (ans ++ slack) (Z.of_nat (length ans)) (Z.of_nat (length ans)) 0 →
  idle c' → 0 < Z.of_nat (length ans) ≤ nb_len (c_sbuf c') → breaks (c_send c') (Z.of_nat (length ans)) →
  gfs_busi_handle parse fuel a data st = None.
Proof.
  intros Hh Hc Ha Hc' Hres Hs Hi HL Hb. rewrite (busi_handle_run _ _ _ _ _ _ _ _ _ _ Hh Hc), Hs. cbv zeta.
  destruct fuel as [|fuel]; [done|]. cbn [send_loop nb_hd nb_pos]. destruct (Z.ltb_spec 0 (Z.of_nat (length ans))); [|lia].
  rewrite M_bind_assoc, (M_bind_Some _ _ _ _ _ (get_conn_run _ _ _ Hc')). cbv beta.
  destruct (memcopy_idle c' ans slack _ Hi eq_refl HL) as (d & Hcopy & Hd).
  rewrite M_bind_assoc, Hcopy. erewrite M_bind_Some by done. cbv beta iota.
  rewrite M_bind_assoc, (M_bind_Some _ _ _ _ _ (set_conn_run _ _ _)). cbv beta.
  match goal with |- ?t = None => destruct t as [[x st']|] eqn:Hrun; [exfalso|done] end.
  apply M_bind_inv in Hrun as (u & s1 & Hrun & _). apply M_bind_inv in Hrun as (r & s2 & Hsend & Hrun).
  destruct Hi as (_ & _ & Hl & _ & _ & Hw).
  eapply (handle_tcp_send_breaks parse a (conn_sbuf (NetBuf d (nb_len (c_sbuf c')) (Z.of_nat (length ans)) 0) c')) in Hsend
    as (c2 & Hc2 & Hr2); [|done..|simpl; lia|exact Hd|done|done].
  apply M_bind_inv in Hrun as (ok & s3 & Hok & Hrun).
  rewrite (M_bind_Some _ _ _ _ _ (get_conn_run _ _ _ Hc2)) in Hok. injection Hok as <- <-.
  cbn [c_resets conn_sbuf] in Hr2. rewrite Hr2, Hres in Hrun.
  destruct (Z.eqb_spec (c_resets c + 1) (c_resets c)); [lia|done].
Qed.
End dispatch.
