(* ===== verification/Store.v ===== *)
(** The memory of the allocator of core/gfs_mem.c: words of eight bytes at
    their addresses, the blocks of the C library, and the monad of programs on
    them.

    Besides undefined behaviour ([Crash]: an access to an address outside every
    block, or a [free] of something that is no block) a program may leave
    through [exit]: the allocator does so when the C library has no memory
    ([NoMem]) and when it finds its tags overwritten ([Corrupt]). *)
From S2P Require Import Prelude.

Inductive cell := Word (a : Z) | Sys (p : Z).
#[export] Instance cell_eq_dec : EqDecision cell.
Proof. solve_decision. Defined.
#[export] Instance cell_countable : Countable cell.
Proof.
  refine (inj_countable' (λ c, match c with Word a => inl a | Sys p => inr p end)
                         (λ s, match s with inl a => Word a | inr p => Sys p end) _).
  by intros [].
Defined.

(** [Word a] is the word at [a]; [Sys p] says that the C library handed out a
    block of that many bytes at [p]. *)
Abbreviation mem := (gmap cell Z).

Inductive outcome (A : Type) := Ret (x : A) (m : mem) | NoMem | Corrupt | Crash.
Arguments Ret {A}. Arguments NoMem {A}. Arguments Corrupt {A}. Arguments Crash {A}.
Definition MM (A : Type) : Type := mem → outcome A.

#[export] Instance MM_ret : MRet MM := λ A x m, Ret x m.
#[export] Instance MM_bind : MBind MM := λ A B f c m,
  match c m with
  | Ret x m => f x m
  | NoMem => NoMem
  | Corrupt => Corrupt
  | Crash => Crash
  end.

Definition ldw (a : Z) : MM Z := λ m,
  match m !! Word a with Some v => Ret v m | None => Crash end.
Definition stw (a v : Z) : MM unit := λ m,
  match m !! Word a with Some _ => Ret tt (<[Word a := v]> m) | None => Crash end.
Definition exit_nomem {A} : MM A := λ _, NoMem.
Definition exit_corrupt {A} : MM A := λ _, Corrupt.
Definition crash {A} : MM A := λ _, Crash.

(** A loop over a linked list: no list has more nodes than the store has
    words. *)
Definition fuelled {A} (f : nat → MM A) : MM A := λ m, f (S (size m)) m.

(** What the C library promises: blocks are aligned and overlap nothing that is
    in use; the contents of a new block are arbitrary. *)
Class Libc := {
  sys_malloc : Z → mem → option Z;
  sys_junk : Z → Z;
  sys_malloc_ok : ∀ n m p, sys_malloc n m = Some p →
    0 < p ∧ (16 | p) ∧ m !! Sys p = None ∧ ∀ a, p ≤ a < p + n → m !! Word a = None }.

Section libc.
Context `{!Libc}.

(** The words of [k] words of memory from [p]. *)
Fixpoint fresh_words (p : Z) (k : nat) : mem :=
  match k with
  | O => ∅
  | S k => <[Word p := sys_junk p]> (fresh_words (p + 8) k)
  end.
Fixpoint drop_words (p : Z) (k : nat) (m : mem) : mem :=
  match k with
  | O => m
  | S k => delete (Word p) (drop_words (p + 8) k m)
  end.
Definition nwords (n : Z) : nat := Z.to_nat ((n + 7) / 8).

(** [malloc] and [free] of the C library. *)
Definition libc_malloc (n : Z) : MM Z := λ m,
  match sys_malloc n m with
  | Some p => Ret p (<[Sys p := n]> (fresh_words p (nwords n) ∪ m))
  | None => Ret 0 m
  end.
Definition libc_free (p : Z) : MM unit := λ m,
  match m !! Sys p with
  | Some n => Ret tt (delete (Sys p) (drop_words p (nwords n) m))
  | None => Crash
  end.
End libc.
