(* ===== verification/HeapLogic.v ===== *)
(** A separation logic for the programs of Store.v: assertions on parts of the
    memory, as a logic of the Iris proof mode, and weakest preconditions for
    total correctness with the frame built in; and a second kind, [wpf], that also
    says which blocks a program frees. *)
From iris.proofmode Require Import proofmode.
From S2P Require Import Prelude Store.

(** ** Assertions

    An assertion holds of a part of the memory and of everything larger. *)
Record hprop := HProp {
  holds :> mem → Prop;
  holds_mono h h' : holds h → h ⊆ h' → holds h' }.
Add Printing Constructor hprop.

Section ofe.
Inductive hprop_equiv' (P Q : hprop) : Prop := HEquiv : (∀ h, P h ↔ Q h) → hprop_equiv' P Q.
#[export] Instance hprop_equiv : Equiv hprop := hprop_equiv'.
#[export] Instance hprop_equivalence : Equivalence (≡@{hprop}).
Proof.
  split.
  - intros P. by constructor.
  - intros P Q [HPQ]. constructor=> h. by rewrite HPQ.
  - intros P Q R [H1] [H2]. constructor=> h. by rewrite H1 H2.
Qed.
Canonical Structure hpropO := discreteO hprop.
End ofe.

Section connectives.
Inductive hentails (P Q : hprop) : Prop := HEntails : (∀ h, P h → Q h) → hentails P Q.

Program Definition hemp : hprop := HProp (λ _, True) _.
Next Obligation. done. Qed.
Program Definition hpure (φ : Prop) : hprop := HProp (λ _, φ) _.
Next Obligation. done. Qed.
Program Definition hand (P Q : hprop) : hprop := HProp (λ h, P h ∧ Q h) _.
Next Obligation. simpl. intros P Q h h' [??] ?. eauto using holds_mono. Qed.
Program Definition hor (P Q : hprop) : hprop := HProp (λ h, P h ∨ Q h) _.
Next Obligation. simpl. intros P Q h h' [?|?] ?; eauto using holds_mono. Qed.
Program Definition himpl (P Q : hprop) : hprop := HProp (λ h, ∀ h', h ⊆ h' → P h' → Q h') _.
Next Obligation. simpl. intros P Q h h' HPQ Hh h2 Hh2 HP. apply HPQ; [by etrans|done]. Qed.
Program Definition hforall {A} (Φ : A → hprop) : hprop := HProp (λ h, ∀ x, Φ x h) _.
Next Obligation. simpl. intros A Φ h h' HΦ Hh x. eauto using holds_mono. Qed.
Program Definition hexist {A} (Φ : A → hprop) : hprop := HProp (λ h, ∃ x, Φ x h) _.
Next Obligation. simpl. intros A Φ h h' [x HΦ] Hh. eauto using holds_mono. Qed.
Program Definition hsep (P Q : hprop) : hprop :=
  HProp (λ h, ∃ h1 h2, h1 ##ₘ h2 ∧ h1 ∪ h2 ⊆ h ∧ P h1 ∧ Q h2) _.
Next Obligation. simpl. intros P Q h h' (h1 & h2 & Hd & Hs & HP & HQ) Hh. exists h1, h2. split_and!; [done|by etrans|done..]. Qed.
Program Definition hwand (P Q : hprop) : hprop :=
  HProp (λ h, ∀ h', h ##ₘ h' → P h' → Q (h ∪ h')) _.
Next Obligation.
  simpl. intros P Q h h' HPQ Hh h2 Hd HP. apply (holds_mono _ (h ∪ h2)).
  - apply HPQ; [|done]. by eapply map_disjoint_weaken_l.
  - by apply map_union_mono_r.
Qed.
Definition hpers (P : hprop) : hprop := hpure (hentails hemp P).
End connectives.

Lemma hprop_bi_mixin : BiMixin hentails hemp hpure hand hor himpl (@hforall) (@hexist) hsep hwand.
Proof.
  split.
  - split; [by constructor|]. intros P Q R [H1] [H2]. constructor; eauto.
  - intros P Q. split; [intros [H]; split; constructor; naive_solver|].
    intros [[H1] [H2]]. constructor. naive_solver.
  - intros n φ ψ H. constructor=> h. done.
  - intros n P P' [HP] Q Q' [HQ]. constructor=> h /=. by rewrite HP HQ.
  - intros n P P' [HP] Q Q' [HQ]. constructor=> h /=. by rewrite HP HQ.
  - intros n P P' [HP] Q Q' [HQ]. constructor=> h /=. by setoid_rewrite HP; setoid_rewrite HQ.
  - intros A n Φ Ψ H. constructor=> h /=. split=> HH x; by apply (H x).
  - intros A n Φ Ψ H. constructor=> h /=. split=> -[x HH]; exists x; by apply (H x).
  - intros n P P' [HP] Q Q' [HQ]. constructor=> h /=. by setoid_rewrite HP; setoid_rewrite HQ.
  - intros n P P' [HP] Q Q' [HQ]. constructor=> h /=. by setoid_rewrite HP; setoid_rewrite HQ.
  - intros φ P H. by constructor.
  - intros φ P H. constructor=> h Hφ. by apply (H Hφ).
  - intros P Q. constructor. by intros h [? ?].
  - intros P Q. constructor. by intros h [? ?].
  - intros P Q R [H1] [H2]. constructor=> h. split; eauto.
  - intros P Q. constructor=> h. by left.
  - intros P Q. constructor=> h. by right.
  - intros P Q R [H1] [H2]. constructor=> h [?|?]; eauto.
  - intros P Q R [H]. constructor=> h HP h' Hh HQ. apply H. split; [by eapply holds_mono|done].
  - intros P Q R [H]. constructor=> h [HP HQ]. by apply (H h HP h).
  - intros A P Φ H. constructor=> h HP x. by apply (H x).
  - intros A Φ x. constructor=> h H. apply H.
  - intros A Φ x. constructor=> h H. by exists x.
  - intros A Φ Q H. constructor=> h [x Hx]. by apply (H x).
  - intros P P' Q Q' [H1] [H2]. constructor. intros h (h1 & h2 & ? & ? & ? & ?). exists h1, h2. naive_solver.
  - intros P. constructor=> h HP. exists ∅, h. rewrite map_empty_union. split_and!; [apply map_disjoint_empty_l|done..].
  - intros P. constructor. intros h (h1 & h2 & Hd & Hs & _ & HP). eapply holds_mono; [done|].
    etrans; [by apply map_union_subseteq_r|done].
  - intros P Q. constructor. intros h (h1 & h2 & Hd & Hs & HP & HQ). exists h2, h1.
    split_and!; [done|by rewrite map_union_comm|done..].
  - intros P Q R. constructor. intros h (h12 & h3 & Hd & Hs & (h1 & h2 & Hd' & Hs' & HP & HQ) & HR).
    assert (h2 ##ₘ h3) by (eapply map_disjoint_weaken_l; [exact Hd|]; etrans; [by apply map_union_subseteq_r|exact Hs']).
    assert (h1 ##ₘ h3) by (eapply map_disjoint_weaken_l; [exact Hd|]; etrans; [by apply map_union_subseteq_l|exact Hs']).
    exists h1, (h2 ∪ h3). split_and!.
    + by apply map_disjoint_union_r.
    + rewrite assoc_L. etrans; [|exact Hs]. by apply map_union_mono_r.
    + done.
    + by exists h2, h3.
  - intros P Q R [H]. constructor=> h HP h' Hd HQ. apply H. by exists h, h'.
  - intros P Q R [H]. constructor. intros h (h1 & h2 & Hd & Hs & HP & HQ). eapply holds_mono; [|done]. by apply H.
Qed.

Lemma hprop_pers_mixin : BiPersistentlyMixin hentails hemp hand (@hexist) hsep hpers.
Proof.
  eapply bi_persistently_mixin_discrete, hprop_bi_mixin; [done| |done].
  intros A Φ [H]. destruct (H ∅ I) as [x Hx]. exists x. constructor=> h _. eapply holds_mono; [done|].
  apply map_empty_subseteq.
Qed.
Lemma hprop_later_mixin : BiLaterMixin hentails hpure hor himpl (@hforall) (@hexist) hsep hpers id.
Proof. eapply bi_later_mixin_id, hprop_bi_mixin. done. Qed.

Canonical Structure hpropI : bi :=
  {| bi_ofe_mixin := ofe_mixin_of hprop; bi_bi_mixin := hprop_bi_mixin;
     bi_bi_persistently_mixin := hprop_pers_mixin; bi_bi_later_mixin := hprop_later_mixin |}.
#[export] Instance hprop_affine : BiAffine hpropI | 0.
Proof. intros P. by constructor. Qed.
#[export] Instance hprop_pure_forall : BiPureForall hpropI.
Proof. intros A φ. by constructor. Qed.

(** ** Memory *)

Program Definition pt (a v : Z) : hprop := HProp (λ h, h !! Word a = Some v) _.
Next Obligation. simpl. intros a v h h' Ha Hh. by eapply lookup_weaken. Qed.
Program Definition sys (p n : Z) : hprop := HProp (λ h, h !! Sys p = Some n) _.
Next Obligation. simpl. intros a v h h' Ha Hh. by eapply lookup_weaken. Qed.
Notation "a ↦ v" := (pt a v) (at level 20) : bi_scope.

(** [k] words from [p] with any contents. *)
Fixpoint junk (p : Z) (k : nat) : hprop :=
  match k with
  | O => emp
  | S k => (∃ v, p ↦ v) ∗ junk (p + 8) k
  end%I.

Lemma junk_add p k l : junk p (k + l) ⊣⊢ junk p k ∗ junk (p + 8 * Z.of_nat k) l.
Proof.
  revert p. induction k as [|k IH]=> p; cbn [junk Nat.add].
  - rewrite left_id. by replace (p + 8 * Z.of_nat 0) with p by lia.
  - rewrite IH -bi.sep_assoc. by replace (p + 8 + 8 * Z.of_nat k) with (p + 8 * Z.of_nat (S k)) by lia.
Qed.
Lemma junk_split p k l : (k ≤ l)%nat → junk p l ⊣⊢ junk p k ∗ junk (p + 8 * Z.of_nat k) (l - k).
Proof. intros Hkl. rewrite -junk_add. by replace (k + (l - k))%nat with l by lia. Qed.

(** ** Weakest preconditions

    Every run from a memory that has [h] as a part ends, with a result, in a
    memory where [h] was replaced by something that satisfies [Φ] and the rest is
    as it was, or leaves because the C library has no memory. *)
Program Definition wp {A} (m : MM A) (Φ : A → hprop) : hprop := HProp (λ h, ∀ hf, h ##ₘ hf →
  match m (h ∪ hf) with
  | Ret x st => ∃ h', h' ##ₘ hf ∧ st = h' ∪ hf ∧ Φ x h'
  | NoMem => True
  | Corrupt | Crash => False
  end) _.
Next Obligation.
  simpl. intros A m Φ h h2 Hwp Hsub hf Hd.
  pose proof (map_difference_union h h2 Hsub) as Heq.
  assert (Hd2 : h ##ₘ h2 ∖ h) by exact (map_disjoint_difference_r1 h2 h h (reflexivity h)).
  assert (h2 ∖ h ##ₘ hf) 
    by exact (map_disjoint_weaken_l _ h2 hf Hd (map_subseteq_difference_l h2 h h2 (reflexivity h2))).
  assert (h ##ₘ h2 ∖ h ∪ hf).
  { apply map_disjoint_union_r. split; [done|]. exact (map_disjoint_weaken_l _ h2 hf Hd Hsub). }
  specialize (Hwp (h2 ∖ h ∪ hf) ltac:(done)). rewrite assoc_L Heq in Hwp.
  destruct (m (h2 ∪ hf)) as [x st| | |]; [|done..].
  destruct Hwp as (h' & [Hd1 Hd3]%map_disjoint_union_r & -> & HΦ).
  exists (h' ∪ h2 ∖ h). split_and!.
  - by apply map_disjoint_union_l.
  - by rewrite assoc_L.
  - eapply holds_mono; [done|]. apply map_union_subseteq_l.
Qed.

(** The triple, for statements. *)
Definition triple {A} (P : hprop) (m : MM A) (Φ : A → hprop) : Prop := P ⊢ wp m Φ.

(** What an entailment and a triple say about memories. *)
Lemma entails_holds (P Q : hprop) h : (P ⊢ Q) → P h → Q h.
Proof. intros [HPQ]. apply HPQ. Qed.
Lemma triple_run {A} P (m : MM A) Φ h :
  triple P m Φ → P h →
  match m h with
  | Ret x h' => Φ x h'
  | NoMem => True
  | Corrupt | Crash => False
  end.
Proof.
  intros Ht HP. apply (entails_holds _ _ h) in Ht; [|done].
  specialize (Ht ∅ (map_disjoint_empty_r _)). rewrite right_id_L in Ht.
  destruct (m h) as [x st| | |]; [|done..]. destruct Ht as (h' & _ & -> & HΦ). by rewrite right_id_L.
Qed.

Section rules.
Implicit Types P Q : hprop.

Lemma wp_ret {A} (x : A) (Φ : A → hprop) : Φ x ⊢ wp (mret x) Φ.
Proof. constructor. intros h HΦ hf Hd. simpl. by exists h. Qed.

Lemma wp_bind {A B} (m : MM A) (f : A → MM B) Φ : wp m (λ x, wp (f x) Φ) ⊢ wp (m ≫= f) Φ.
Proof.
  constructor. intros h Hwp hf Hd. specialize (Hwp hf Hd). unfold mbind, MM_bind.
  destruct (m (h ∪ hf)) as [x st| | |]; [|done..]. destruct Hwp as (h' & Hd' & -> & Hwp). by apply Hwp.
Qed.

Lemma wp_wand {A} (m : MM A) (Φ Ψ : A → hprop) : wp m Φ ∗ (∀ x, Φ x -∗ Ψ x) ⊢ wp m Ψ.
Proof.
  constructor. intros h (h1 & h2 & Hd & Hs & Hwp & HΦΨ). apply (holds_mono _ (h1 ∪ h2)); [|done].
  intros hf [H1 H2]%map_disjoint_union_l. specialize (Hwp (h2 ∪ hf)).
  rewrite assoc_L in Hwp. destruct (m (h1 ∪ h2 ∪ hf)) as [x st| | |].
  - destruct Hwp as (h' & [Hd1 Hd2]%map_disjoint_union_r & -> & HΦ); [by apply map_disjoint_union_r|].
    exists (h2 ∪ h'). split_and!.
    + by apply map_disjoint_union_l.
    + rewrite assoc_L. f_equal. by apply map_union_comm.
    + by apply (HΦΨ x h').
  - done.
  - apply Hwp. by apply map_disjoint_union_r.
  - apply Hwp. by apply map_disjoint_union_r.
Qed.

Lemma wp_nomem {A} (Φ : A → hprop) : ⊢ wp exit_nomem Φ.
Proof. constructor. intros h _ hf Hd. done. Qed.

Lemma wp_ldw a v Φ : a ↦ v ∗ (a ↦ v -∗ Φ v) ⊢ wp (ldw a) Φ.
Proof.
  constructor. intros h (h1 & h2 & Hd & Hs & Ha & HΦ). apply (holds_mono _ (h1 ∪ h2)); [|done].
  intros hf Hf. unfold ldw. simpl in Ha.
  assert (((h1 ∪ h2) ∪ hf) !! Word a = Some v) as -> by (by do 2 apply lookup_union_Some_l).
  exists (h1 ∪ h2). split_and!; [done|done|]. rewrite map_union_comm //. by apply HΦ; [apply map_disjoint_sym|].
Qed.

Lemma wp_stw a v w Φ : a ↦ v ∗ (a ↦ w -∗ Φ tt) ⊢ wp (stw a w) Φ.
Proof.
  constructor. intros h (h1 & h2 & Hd & Hs & Ha & HΦ). apply (holds_mono _ (h1 ∪ h2)); [|done].
  intros hf [H1 H2]%map_disjoint_union_l. unfold stw. simpl in Ha.
  assert (((h1 ∪ h2) ∪ hf) !! Word a = Some v) as -> by (by do 2 apply lookup_union_Some_l).
  exists (<[Word a := w]> h1 ∪ h2). split_and!.
  - apply map_disjoint_union_l. split; [|done].
    apply map_disjoint_insert_l. split; [exact (map_disjoint_Some_l _ _ _ _ H1 Ha)|done].
  - by rewrite !insert_union_l.
  - rewrite map_union_comm; last first.
    { apply map_disjoint_insert_l. split; [exact (map_disjoint_Some_l _ _ _ _ Hd Ha)|done]. }
    apply HΦ; [|apply lookup_insert_eq].
    apply map_disjoint_insert_r. split; [exact (map_disjoint_Some_l _ _ _ _ Hd Ha)|by apply map_disjoint_sym].
Qed.

Lemma pt_excl a v w : a ↦ v ∗ a ↦ w ⊢ False.
Proof.
  constructor. intros h (h1 & h2 & Hd & Hs & H1 & H2). simpl in *.
  by eapply map_disjoint_spec in Hd.
Qed.
Lemma pt_ne a b v w : a ↦ v ∗ b ↦ w ⊢ ⌜a ≠ b⌝.
Proof.
  destruct (decide (a = b)) as [->|Hne]; [|by iIntros "_"].
  rewrite pt_excl. by iIntros "?".
Qed.
End rules.

(** ** Counting words, for the fuel of loops *)

Program Definition at_least (k : nat) : hprop := HProp (λ h, (k ≤ size h)%nat) _.
Next Obligation. simpl. intros k h h' Hk Hh. pose proof (map_subseteq_size h h' Hh). lia. Qed.

Lemma at_least_pt a v : a ↦ v ⊢ at_least 1.
Proof.
  constructor. intros h Ha. simpl in *. assert (size h ≠ 0)%nat; [|lia].
  intros ->%map_size_empty_inv. by rewrite lookup_empty in Ha.
Qed.
Lemma at_least_add k l : at_least k ∗ at_least l ⊢ at_least (k + l).
Proof.
  constructor. intros h (h1 & h2 & Hd & Hs & H1 & H2). simpl in *.
  apply map_subseteq_size in Hs. rewrite map_size_disj_union // in Hs. lia.
Qed.
Lemma at_least_list {A} (l : list A) (f : A → Z) : ([∗ list] x ∈ l, ∃ v, f x ↦ v) ⊢ at_least (length l).
Proof.
  induction l as [|x l IH].
  - constructor. intros h _. simpl. lia.
  - rewrite big_sepL_cons IH bi.sep_exist_r. apply bi.exist_elim=> v. rewrite (at_least_pt (f x) v).
    apply (at_least_add 1).
Qed.

Lemma wp_fuelled {A} (f : nat → MM A) k P Φ :
  (P ⊢ at_least k) → (∀ n, (k < n)%nat → P ⊢ wp (f n) Φ) → P ⊢ wp (fuelled f) Φ.
Proof.
  intros Hk Hf. constructor. intros h HP hf Hd. unfold fuelled.
  apply (entails_holds _ _ h) in Hk; [|done]. simpl in Hk.
  assert (h ⊆ h ∪ hf) as Hsub%map_subseteq_size by apply map_union_subseteq_l.
  assert (k < S (size (h ∪ hf)))%nat as Hlt by lia.
  by apply (entails_holds _ _ h (Hf _ Hlt) HP hf Hd).
Qed.

(** The same with the part [P] of the memory that bounds the fuel singled out. *)
Lemma wp_fuelled_with {A} (f : nat → MM A) k P Φ :
  (P ⊢ at_least k) → P ∗ (∀ n, ⌜(k < n)%nat⌝ -∗ P -∗ wp (f n) Φ) ⊢ wp (fuelled f) Φ.
Proof.
  intros Hk. apply (wp_fuelled _ k).
  - iIntros "[HP _]". by iApply Hk.
  - intros n Hn. iIntros "[HP HΦ]". iApply ("HΦ" with "[//] HP").
Qed.

(** ** Blocks of the C library *)

Section libc.
Context `{!Libc}.

Lemma fresh_words_key p k c v :
  fresh_words p k !! c = Some v → ∃ i, 0 ≤ i < Z.of_nat k ∧ c = Word (p + 8 * i).
Proof.
  revert p. induction k as [|k IH]=> p; cbn [fresh_words]; [by rewrite lookup_empty|].
  intros [[<- _]|[Hne Hc]]%lookup_insert_Some.
  - exists 0. split; [lia|]. f_equal. lia.
  - apply IH in Hc as (i & Hi & ->). exists (i + 1). split; [lia|]. f_equal. lia.
Qed.
Lemma fresh_words_junk p k : junk p k (fresh_words p k).
Proof.
  revert p. induction k as [|k IH]=> p; [done|].
  assert (Hn : fresh_words (p + 8) k !! Word p = None).
  { destruct (_ !! _) as [v|] eqn:Hv; [|done]. apply fresh_words_key in Hv as (i & Hi & [= Hp]). lia. }
  exists {[Word p := sys_junk p]}, (fresh_words (p + 8) k). split_and!.
  - by apply map_disjoint_singleton_l.
  - by rewrite -insert_union_singleton_l.
  - exists (sys_junk p). apply lookup_singleton_eq.
  - apply IH.
Qed.

(** A block of the library whose contents are given away. *)
Definition sys_block (p n : Z) : hprop := (sys p n ∗ junk p (nwords n))%I.

Lemma wp_malloc n Φ :
  Φ 0 ∧ (∀ p, ⌜0 < p ∧ (16 | p)⌝ -∗ sys_block p n -∗ Φ p) ⊢ wp (libc_malloc n) Φ.
Proof.
  constructor. intros h [H0 HΦ] hf Hd. unfold libc_malloc.
  destruct (sys_malloc n (h ∪ hf)) as [p|] eqn:Hp; [|by exists h].
  apply sys_malloc_ok in Hp as (Hpos & Hdiv & Hsys & Hw).
  assert (Hn : fresh_words p (nwords n) ##ₘ h ∪ hf).
  { apply map_disjoint_spec. intros c v w (i & Hi & ->)%fresh_words_key Hc. rewrite Hw in Hc; [done|].
    unfold nwords in Hi. assert (8 * ((n + 7) / 8) ≤ n + 7) by (apply Z.mul_div_le; lia). lia. }
  assert (Hs : fresh_words p (nwords n) !! Sys p = None).
  { destruct (fresh_words p (nwords n) !! Sys p) as [v|] eqn:Hv; [|done]. by apply fresh_words_key in Hv as (i & Hi & [=]). }
  set (b := <[Sys p := n]> (fresh_words p (nwords n))).
  assert (Hb : b ##ₘ h ∪ hf) by (by apply map_disjoint_insert_l).
  apply map_disjoint_union_r in Hb as [Hb Hbf].
  exists (h ∪ b). split_and!.
  - by apply map_disjoint_union_l.
  - rewrite insert_union_l -/b assoc_L. f_equal. by apply map_union_comm, map_disjoint_sym.
  - specialize (HΦ p ∅). rewrite right_id_L in HΦ.
    specialize (HΦ (map_disjoint_empty_r _) (conj Hpos Hdiv) b). apply HΦ; [by apply map_disjoint_sym|].
    exists {[Sys p := n]}, (fresh_words p (nwords n)). split_and!.
    + by apply map_disjoint_singleton_l.
    + by rewrite -insert_union_singleton_l.
    + apply lookup_singleton_eq.
    + apply fresh_words_junk.
Qed.

Lemma drop_words_union p k m1 m2 :
  (∀ i, 0 ≤ i < Z.of_nat k → m2 !! Word (p + 8 * i) = None) →
  drop_words p k (m1 ∪ m2) = drop_words p k m1 ∪ m2.
Proof.
  revert p. induction k as [|k IH]=> p Hm; [done|]. cbn [drop_words]. rewrite IH.
  - rewrite delete_union (delete_id m2) //. specialize (Hm 0 ltac:(lia)). by rewrite Z.mul_0_r Z.add_0_r in Hm.
  - intros i Hi. rewrite -(Hm (i + 1)); [|lia]. do 2 f_equal. lia.
Qed.
Lemma drop_words_sub p k m1 m2 :
  m1 ⊆ m2 → (∀ i, 0 ≤ i < Z.of_nat k → m1 !! Word (p + 8 * i) = None) → m1 ⊆ drop_words p k m2.
Proof.
  revert p. induction k as [|k IH]=> p Hs Hm; [done|]. cbn [drop_words].
  assert (Hp : m1 !! Word p = None) by (specialize (Hm 0 ltac:(lia)); by rewrite Z.mul_0_r Z.add_0_r in Hm).
  rewrite -(delete_id m1 (Word p)) //. apply delete_mono, IH; [done|].
  intros i Hi. rewrite -(Hm (i + 1)); [|lia]. do 2 f_equal. lia.
Qed.
Lemma drop_words_le p k m : drop_words p k m ⊆ m.
Proof. revert p. induction k as [|k IH]=> p; [done|]. cbn [drop_words]. etrans; [apply delete_subseteq|apply IH]. Qed.
Lemma junk_words p k h i : junk p k h → 0 ≤ i < Z.of_nat k → is_Some (h !! Word (p + 8 * i)).
Proof.
  revert p i h. induction k as [|k IH]=> p i h; [lia|]. cbn [junk].
  intros (h1 & h2 & Hd & Hs & [v Hv] & Hj) Hi. destruct (decide (i = 0)) as [->|Hne].
  - exists v. rewrite Z.mul_0_r Z.add_0_r. eapply lookup_weaken; [apply lookup_union_Some_l, Hv|done].
  - destruct (IH (p + 8) (i - 1) h2 Hj) as [w Hw]; [lia|]. exists w.
    replace (p + 8 * i) with (p + 8 + 8 * (i - 1)) by lia.
    eapply lookup_weaken; [|exact Hs]. by apply lookup_union_Some_r.
Qed.

Lemma wp_free p n Φ : sys_block p n ∗ Φ tt ⊢ wp (libc_free p) Φ.
Proof.
  constructor. intros h (h0 & h3 & Hd & Hs & (h1 & h2 & Hd' & Hs' & Hsys & Hj) & HΦ) hf Hf.
  simpl in Hsys. unfold libc_free.
  assert (Hp : h !! Sys p = Some n).
  { eapply lookup_weaken; [apply lookup_union_Some_l, (lookup_weaken _ _ _ _ (lookup_union_Some_l _ _ _ _ Hsys) Hs')|done]. }
  assert (H0 : ∀ i, 0 ≤ i < Z.of_nat (nwords n) → is_Some (h0 !! Word (p + 8 * i))).
  { intros i Hi. destruct (junk_words p _ h2 i Hj Hi) as [v Hv]. exists v.
    eapply lookup_weaken; [|exact Hs']. by apply lookup_union_Some_r. }
  assert (Hh : ∀ c v, h0 !! c = Some v → h !! c = Some v).
  { intros c v Hc. eapply lookup_weaken; [by apply lookup_union_Some_l|exact Hs]. }
  rewrite (lookup_union_Some_l _ _ _ _ Hp) drop_words_union; last first.
  { intros i Hi. destruct (H0 i Hi) as [v Hv]. by eapply map_disjoint_Some_l; [|apply Hh]. }
  rewrite delete_union (delete_id hf); last by eapply map_disjoint_Some_l.
  eexists. split_and!; [|done|].
  - eapply map_disjoint_weaken_l; [exact Hf|]. etrans; [apply delete_subseteq|apply drop_words_le].
  - eapply holds_mono; [exact HΦ|]. rewrite -(delete_id h3 (Sys p)).
    + apply delete_mono, drop_words_sub; [etrans; [by apply map_union_subseteq_r|exact Hs]|].
      intros i Hi. destruct (H0 i Hi) as [v Hv]. by eapply map_disjoint_Some_l.
    + eapply map_disjoint_Some_l; [exact Hd|]. eapply lookup_weaken; [apply lookup_union_Some_l, Hsys|exact Hs'].
Qed.

(** ** Giving blocks back

    Assertions hold of everything larger, so a triple alone does not say that a
    program leaves nothing behind.  [wpf D] does: besides what [wp] says, the run does
    not leave the program, and the cells in use at its end are those at its start but
    for the blocks [D], pairs of an address and a size. *)
Definition block_cells (b : Z * Z) : gset cell :=
  {[Sys b.1]} ∪ list_to_set ((λ i, Word (b.1 + 8 * Z.of_nat i)) <$> seq 0 (nwords b.2)).
Definition cells_of (D : list (Z * Z)) : gset cell := ⋃ (block_cells <$> D).

Program Definition wpf {A} (D : list (Z * Z)) (m : MM A) (Φ : A → hprop) : hprop :=
  HProp (λ h, wp m Φ h ∧ ∀ hf, h ##ₘ hf →
    ∃ x st, m (h ∪ hf) = Ret x st ∧ dom st = dom (h ∪ hf) ∖ cells_of D) _.
Next Obligation.
  simpl. intros A D m Φ h h2 [Hwp HD] Hsub. split; [exact (holds_mono (wp m Φ) h h2 Hwp Hsub)|]. intros hf Hd.
  pose proof (map_difference_union h h2 Hsub) as Heq.
  destruct (HD (h2 ∖ h ∪ hf)) as (x & st & Hm & Hst).
  - apply map_disjoint_union_r. split; [|by eapply map_disjoint_weaken_l].
    exact (map_disjoint_difference_r1 h2 h h (reflexivity h)).
  - exists x, st. by rewrite -Heq -assoc_L.
Qed.
Definition triple_frees {A} (D : list (Z * Z)) (P : hprop) (m : MM A) (Φ : A → hprop) : Prop := P ⊢ wpf D m Φ.

Lemma triple_frees_run {A} D P (m : MM A) Φ h :
  triple_frees D P m Φ → P h → ∃ x h', m h = Ret x h' ∧ Φ x h' ∧ dom h' = dom h ∖ cells_of D.
Proof.
  intros Ht HP. destruct (entails_holds _ _ h Ht HP) as [Hwp HD].
  destruct (HD ∅ (map_disjoint_empty_r _)) as (x & st & Hm & Hst). rewrite right_id_L in Hm, Hst.
  specialize (Hwp ∅ (map_disjoint_empty_r _)). rewrite right_id_L Hm in Hwp. destruct Hwp as (h' & _ & -> & HΦ).
  exists x, h'. rewrite right_id_L in Hm Hst |- *. done.
Qed.

(** Programs that use memory as it is. *)
Definition keeps_cells {A} (m : MM A) : Prop :=
  ∀ h, match m h with Ret _ h' => dom h' = dom h | NoMem => False | Corrupt | Crash => True end.

Lemma keeps_cells_ret {A} (x : A) : keeps_cells (mret x).
Proof. done. Qed.
Lemma keeps_cells_bind {A B} (m : MM A) (f : A → MM B) :
  keeps_cells m → (∀ x, keeps_cells (f x)) → keeps_cells (m ≫= f).
Proof.
  intros Hm Hf h. specialize (Hm h). unfold mbind, MM_bind. destruct (m h) as [x h'| | |]; [|done..].
  specialize (Hf x h'). destruct (f x h'); [by rewrite -Hm|done..].
Qed.
Lemma keeps_ldw a : keeps_cells (ldw a).
Proof. intros h. unfold ldw. by destruct (h !! Word a). Qed.
Lemma keeps_stw a v : keeps_cells (stw a v).
Proof. intros h. unfold stw. destruct (h !! Word a) eqn:E; [|done]. by apply dom_insert_lookup_L. Qed.

Lemma wpf_ret {A} (x : A) (Φ : A → hprop) : Φ x ⊢ wpf [] (mret x) Φ.
Proof.
  constructor. intros h HΦ. split; [exact (entails_holds _ _ h (wp_ret x Φ) HΦ)|].
  intros hf Hd. exists x, (h ∪ hf). split; [done|]. by rewrite difference_empty_L.
Qed.
Lemma wpf_bind {A B} D1 D2 (m : MM A) (f : A → MM B) Φ :
  wpf D1 m (λ x, wpf D2 (f x) Φ) ⊢ wpf (D1 ++ D2) (m ≫= f) Φ.
Proof.
  constructor. intros h [Hwp HD]. split.
  - apply (entails_holds _ _ h (wp_bind m f Φ)). intros hf Hd. specialize (Hwp hf Hd).
    destruct (m (h ∪ hf)) as [x st| | |]; [|done..]. destruct Hwp as (h' & ? & ? & [? _]). by exists h'.
  - intros hf Hd. destruct (HD hf Hd) as (x & st & Hm & Hst). specialize (Hwp hf Hd). rewrite Hm in Hwp.
    destruct Hwp as (h' & Hd' & -> & [_ HD']). destruct (HD' hf Hd') as (y & st' & Hf & Hst').
    exists y, st'. split; [unfold mbind, MM_bind; by rewrite Hm|]. rewrite Hst' Hst.
    unfold cells_of. rewrite fmap_app union_list_app_L. set_solver.
Qed.
Lemma wpf_keeps {A} (m : MM A) Φ : keeps_cells m → wp m Φ ⊢ wpf [] m Φ.
Proof.
  intros Hk. constructor. intros h Hwp. split; [done|]. intros hf Hd. specialize (Hwp hf Hd). specialize (Hk (h ∪ hf)).
  destruct (m (h ∪ hf)) as [x st| | |]; [|done..]. exists x, st. split; [done|]. by rewrite difference_empty_L.
Qed.
Lemma wpf_mono {A} D (m : MM A) (Φ Ψ : A → hprop) : (∀ x, Φ x ⊢ Ψ x) → wpf D m Φ ⊢ wpf D m Ψ.
Proof.
  intros HΦ. constructor. intros h [Hwp HD]. split; [|done]. intros hf Hd. specialize (Hwp hf Hd).
  destruct (m (h ∪ hf)) as [x st| | |]; [|done..]. destruct Hwp as (h' & ? & ? & Hx). exists h'.
  split_and!; [done..|]. exact (entails_holds _ _ h' (HΦ x) Hx).
Qed.
Lemma wpf_step {A B} D (m : MM A) (f : A → MM B) Φ :
  keeps_cells m → wp m (λ x, wpf D (f x) Φ) ⊢ wpf D (m ≫= f) Φ.
Proof. intros Hk. rewrite (wpf_keeps m) //. apply (wpf_bind []). Qed.

Lemma wpf_fuelled_with {A} D (f : nat → MM A) k P Φ :
  (P ⊢ at_least k) → P ∗ (∀ n, ⌜(k < n)%nat⌝ -∗ P -∗ wpf D (f n) Φ) ⊢ wpf D (fuelled f) Φ.
Proof.
  intros Hk. constructor. intros h HP. split.
  - apply (entails_holds _ _ h (wp_fuelled_with f k P Φ Hk)). revert HP. apply entails_holds.
    iIntros "[$ HΦ]" (n Hn) "HP". iDestruct ("HΦ" with "[//] HP") as "HΦ". iStopProof. constructor. by intros h' [? _].
  - assert (at_least k h) as Hsz.
    { revert HP. apply entails_holds. iIntros "[HP _]". by iApply Hk. }
    intros hf Hd. unfold fuelled. simpl in Hsz.
    assert (h ⊆ h ∪ hf) as Hsub%map_subseteq_size by apply map_union_subseteq_l.
    assert (k < S (size (h ∪ hf)))%nat as Hlt by lia.
    assert (wpf D (f (S (size (h ∪ hf)))) Φ h) as [_ HD]; [|by apply HD].
    revert HP. apply entails_holds. iIntros "[HP HΦ]". iApply ("HΦ" with "[//] HP").
Qed.

Lemma dom_drop_words p k m :
  dom (drop_words p k m) = dom m ∖ list_to_set ((λ i, Word (p + 8 * Z.of_nat i)) <$> seq 0 k).
Proof.
  revert p. induction k as [|k IH]=> p; cbn [drop_words seq]; [set_solver|].
  rewrite dom_delete_L IH fmap_cons list_to_set_cons -fmap_S_seq -list_fmap_compose Z.add_0_r.
  rewrite (list_fmap_ext (λ i, Word (p + 8 + 8 * Z.of_nat i)) ((λ i, Word (p + 8 * Z.of_nat i)) ∘ S)); [set_solver|].
  intros i x _. simpl. f_equal. lia.
Qed.
Lemma wpf_free p n Φ : sys_block p n ∗ Φ tt ⊢ wpf [(p, n)] (libc_free p) Φ.
Proof.
  constructor. intros h HP. split; [exact (entails_holds _ _ h (wp_free p n Φ) HP)|]. intros hf Hd.
  assert (h !! Sys p = Some n) as Hp.
  { destruct HP as (h0 & h3 & _ & Hs & (h1 & h2 & _ & Hs' & Hsys & _) & _). simpl in Hsys.
    eapply lookup_weaken; [apply lookup_union_Some_l, (lookup_weaken _ _ _ _ (lookup_union_Some_l _ _ _ _ Hsys) Hs')|done]. }
  unfold libc_free. rewrite (lookup_union_Some_l _ _ _ _ Hp). eexists _, _. split; [done|].
  rewrite dom_delete_L dom_drop_words. unfold cells_of, block_cells. simpl. set_solver.
Qed.
End libc.

(** The programs that keep their cells are found by their shape. *)
Create HintDb keeps.
#[export] Hint Resolve keeps_cells_ret keeps_ldw keeps_stw : keeps.
Ltac keeps := intros; repeat first
  [ solve [auto with keeps] | apply keeps_cells_bind; intros | case_match ].
