(* ===== verification/Mem.v ===== *)
(** The memory pool: core/gfs_mem.c.

    A pool is a list of pages of 4096 bytes.  A page is a head word, blocks one
    after the other, and a tail word; a block has its size and its flags in a
    word before ([HDRP]) and in its last word ([FTRP]).  Free blocks are on one
    of eight rings by their size; larger allocations are blocks of the C library
    on a ring of their own.  Everything, the pool itself included, lives in the
    words of Store.v. *)
From S2P Require Import Prelude Store.

Definition WSIZE := 8.
Definition DSIZE := 16.
Definition PAGESIZE := 4096.
Definition UNALLOCATED := 0.
Definition ALLOCATED := 1.
Definition INITIAL := 2.
Definition LARGE := 4.
Definition BLOCK_MIN := 3 * DSIZE.
Definition MIN_LARGE_SIZE := 3072.

(** ** The tags *)

Definition PACK (size alloc : Z) : Z := Z.lor size alloc.
Definition GET (p : Z) : MM Z := w ← ldw p; mret (u32 w).
Definition PUT (p val : Z) : MM unit := w ← ldw p; stw p (w - u32 w + u32 val).
Definition GET_SIZE (p : Z) : MM Z := g ← GET p; mret (Z.land g (2 ^ 32 - 8)).
Definition GET_ALLOC (p : Z) : MM Z := g ← GET p; mret (Z.land g 1).
Definition GET_INIT (p : Z) : MM Z := g ← GET p; mret (Z.land g 2).
Definition GET_LARGE (p : Z) : MM Z := g ← GET p; mret (Z.land g 4).
Definition HDRP (bp : Z) : Z := bp - WSIZE.
Definition FTRP (bp : Z) : MM Z := s ← GET_SIZE (HDRP bp); mret (bp + s - DSIZE).
Definition NEXT_BLKP (bp : Z) : MM Z := s ← GET_SIZE (bp - WSIZE); mret (bp + s).
Definition PREV_BLKP (bp : Z) : MM Z := s ← GET_SIZE (bp - DSIZE); mret (bp - s).
Definition gfs_mem_align (d a : Z) : Z := Z.land (u32 (d + (a - 1))) (u32 (Z.lnot (a - 1))).

(** Both tags of a block. *)
Definition put_tags (bp val : Z) : MM unit :=
  PUT (HDRP bp) val;; f ← FTRP bp; PUT f val.

(** ** The rings: [next] is the first word of a node, [prev] the second *)

Definition gfs_mem_queue_next (q : Z) : MM Z := ldw q.
Definition gfs_mem_queue_prev (q : Z) : MM Z := ldw (q + 8).
Definition set_mnext (q v : Z) : MM unit := stw q v.
Definition set_mprev (q v : Z) : MM unit := stw (q + 8) v.
Definition gfs_mem_queue_init (q : Z) : MM unit := set_mprev q q;; set_mnext q q.
Definition gfs_mem_queue_insert_head (h x : Z) : MM unit :=
  n ← gfs_mem_queue_next h; set_mnext x n;;
  n ← gfs_mem_queue_next x; set_mprev n x;;
  set_mprev x h;;
  set_mnext h x.
Definition gfs_mem_queue_insert_tail (h x : Z) : MM unit :=
  p ← gfs_mem_queue_prev h; set_mprev x p;;
  p ← gfs_mem_queue_prev x; set_mnext p x;;
  set_mnext x h;;
  set_mprev h x.
Definition gfs_mem_queue_remove (x : Z) : MM unit :=
  n ← gfs_mem_queue_next x; p ← gfs_mem_queue_prev x; set_mprev n p;;
  p ← gfs_mem_queue_prev x; n ← gfs_mem_queue_next x; set_mnext p n.

(** ** The structures

    [gfs_mem_pool_t] at [pool]: the ring of pages at its start, the eight rings
    of free blocks, the ring of large blocks and four counters.
    [gfs_mem_page_t]: [start] and [end] behind the ring node.
    [gfs_mem_large_t]: [addr] and [size] behind the ring node. *)
Definition pool_page (pool : Z) : Z := pool.
Definition pool_block (pool i : Z) : Z := pool + 32 + 16 * i.
Definition pool_large (pool : Z) : Z := pool + 160.
Definition pool_size (pool : Z) : Z := pool + 192.
Definition pool_used (pool : Z) : Z := pool + 200.
Definition pool_msize (pool : Z) : Z := pool + 208.
Definition pool_init_pages (pool : Z) : Z := pool + 216.
Definition sizeof_pool : Z := 224.
Definition sizeof_page : Z := 32.
Definition sizeof_large : Z := 32.
Definition page_start (page : Z) : Z := page + 16.
Definition page_end (page : Z) : Z := page + 24.
Definition large_addr (large : Z) : Z := large + 16.
Definition large_size (large : Z) : Z := large + 24.

(** [*p += d] for an [unsigned long]. *)
Definition add_field (p d : Z) : MM unit := v ← ldw p; stw p (u64 (v + d)).

(** [gfs_mem_getindex]; [num] has 32 bits, so the loop has less turns than its
    fuel. *)
Fixpoint index_loop (fuel : nat) (num index : Z) : Z :=
  match fuel with
  | O => index
  | S fuel =>
      let num := Z.shiftr num 1 in
      if num =? 0 then index else index_loop fuel num (index + 1)
  end.
Definition gfs_mem_getindex (num : Z) : Z :=
  let num := u32 num in
  if num <=? 32 then 0
  else if 2048 <? num then 7
  else index_loop 32 (Z.shiftr (num - 1) 4) 0.

Section mem.
Context `{!Libc}.
(** The address of [gfs_mem_allsize]. *)
Context (gfs_mem_allsize : Z).

Definition gfs_mem_malloc_internal (size : Z) : MM Z :=
  ptr ← libc_malloc size;
  if bool_decide (ptr = 0) then exit_nomem else
  add_field gfs_mem_allsize size;;
  mret ptr.
Definition gfs_mem_free_internal (bp size : Z) : MM unit :=
  if bool_decide (bp = 0) || (size =? 0) then mret tt else
  add_field gfs_mem_allsize (- size);;
  libc_free bp.

(** [gfs_mem_place] *)
Definition gfs_mem_place (pool bp asize : Z) : MM unit :=
  gfs_mem_queue_remove bp;;
  csize ← GET_SIZE (HDRP bp);
  if BLOCK_MIN <=? u64 (csize - asize) then
    put_tags bp (PACK asize ALLOCATED);;
    bp ← NEXT_BLKP bp;
    put_tags bp (PACK (u64 (csize - asize)) UNALLOCATED);;
    gfs_mem_queue_insert_head (pool_block pool (gfs_mem_getindex (csize - asize))) bp;;
    add_field (pool_used pool) asize
  else
    put_tags bp (PACK csize ALLOCATED);;
    add_field (pool_used pool) csize.

(** [gfs_mem_find_fit]; 0 is the null pointer. *)
Fixpoint fit_loop (fuel : nat) (block q asize : Z) : MM Z :=
  match fuel with
  | O => crash
  | S fuel =>
      if bool_decide (q = block) then mret 0 else
      s ← GET_SIZE (HDRP q);
      if asize <=? s then mret q else
      q ← gfs_mem_queue_next q; fit_loop fuel block q asize
  end.
Definition gfs_mem_find_fit (bp asize : Z) : MM Z :=
  fuelled (λ fuel, q ← gfs_mem_queue_next bp; fit_loop fuel bp q asize).

(** [gfs_mem_coalesce], case by case. *)
Definition coalesce_none (pool bp : Z) : MM Z :=
  size ← GET_SIZE (HDRP bp);
  gfs_mem_queue_insert_head (pool_block pool (gfs_mem_getindex size)) bp;;
  mret bp.
Definition coalesce_next (pool bp size : Z) : MM Z :=
  block ← NEXT_BLKP bp;
  gfs_mem_queue_remove block;;
  n ← NEXT_BLKP bp; s ← GET_SIZE (HDRP n);
  let size := size + s in
  put_tags bp (PACK size 0);;
  gfs_mem_queue_insert_head (pool_block pool (gfs_mem_getindex size)) bp;;
  mret bp.
Definition coalesce_prev (pool bp size : Z) : MM Z :=
  block ← PREV_BLKP bp;
  gfs_mem_queue_remove block;;
  p ← PREV_BLKP bp; s ← GET_SIZE (HDRP p);
  let size := size + s in
  f ← FTRP bp; PUT f (PACK size 0);;
  p ← PREV_BLKP bp; PUT (HDRP p) (PACK size 0);;
  bp ← PREV_BLKP bp;
  gfs_mem_queue_insert_head (pool_block pool (gfs_mem_getindex size)) block;;
  mret bp.
Definition coalesce_both (pool bp size : Z) : MM Z :=
  block ← NEXT_BLKP bp;
  gfs_mem_queue_remove block;;
  block ← PREV_BLKP bp;
  gfs_mem_queue_remove block;;
  p ← PREV_BLKP bp; s1 ← GET_SIZE (HDRP p);
  n ← NEXT_BLKP bp; f ← FTRP n; s2 ← GET_SIZE f;
  let size := size + u32 (s1 + s2) in
  p ← PREV_BLKP bp; PUT (HDRP p) (PACK size 0);;
  n ← NEXT_BLKP bp; f ← FTRP n; PUT f (PACK size 0);;
  bp ← PREV_BLKP bp;
  gfs_mem_queue_insert_head (pool_block pool (gfs_mem_getindex size)) block;;
  mret bp.
Definition gfs_mem_coalesce (pool bp : Z) : MM Z :=
  p ← PREV_BLKP bp; f ← FTRP p; prev_alloc ← GET_ALLOC f;
  n ← NEXT_BLKP bp; next_alloc ← GET_ALLOC (HDRP n);
  size ← GET_SIZE (HDRP bp);
  if negb (prev_alloc =? 0) && negb (next_alloc =? 0) then coalesce_none pool bp
  else if negb (prev_alloc =? 0) && (next_alloc =? 0) then coalesce_next pool bp size
  else if (prev_alloc =? 0) && negb (next_alloc =? 0) then coalesce_prev pool bp size
  else coalesce_both pool bp size.

(** One turn of the loops that add pages: [gfs_mem_pool_create] from its second
    page on ([init]) and [gfs_mem_extend_pool]. *)
Definition add_page (pool : Z) (init : bool) : MM unit :=
  ptr ← gfs_mem_malloc_internal PAGESIZE;
  (if init then mret tt else add_field (pool_size pool) PAGESIZE);;
  let flags := if init then Z.lor ALLOCATED INITIAL else ALLOCATED in
  PUT ptr (PACK 0 flags);;
  PUT (ptr + PAGESIZE - WSIZE) (PACK 0 flags);;
  add_field (pool_used pool) DSIZE;;
  let bp := ptr + DSIZE in
  put_tags bp (PACK (PAGESIZE - DSIZE) UNALLOCATED);;
  gfs_mem_queue_insert_head (pool_block pool (gfs_mem_getindex (PAGESIZE - DSIZE))) bp;;
  gfs_mem_place pool bp (sizeof_page + DSIZE);;
  stw (page_start bp) ptr;;
  stw (page_end bp) (ptr + PAGESIZE);;
  gfs_mem_queue_insert_head (pool_page pool) bp.
Fixpoint add_pages (n : nat) (pool : Z) (init : bool) : MM unit :=
  match n with
  | O => mret tt
  | S n => add_page pool init;; add_pages n pool init
  end.

(** [gfs_mem_extend_pool]: the number of turns is in the pool. *)
Definition gfs_mem_extend_pool (pool : Z) : MM unit :=
  n ← ldw (pool_init_pages pool); add_pages (Z.to_nat n) pool false.

(** The [for] loops over the eight rings; [n] counts down from 8. *)
Fixpoint init_blocks (n : nat) (pool : Z) : MM unit :=
  match n with
  | O => mret tt
  | S n => gfs_mem_queue_init (pool_block pool (8 - Z.of_nat (S n)));; init_blocks n pool
  end.

(** [gfs_mem_pool_create] *)
Definition gfs_mem_pool_create (pages : Z) : MM Z :=
  if pages =? 0 then mret 0 else
  ptr ← gfs_mem_malloc_internal PAGESIZE;
  PUT ptr (PACK 0 (Z.lor ALLOCATED INITIAL));;
  PUT (ptr + PAGESIZE - WSIZE) (PACK 0 (Z.lor ALLOCATED INITIAL));;
  let size := sizeof_page + sizeof_pool + DSIZE in
  let bp := ptr + DSIZE in
  put_tags bp (PACK size ALLOCATED);;
  let page := bp in
  stw (page_start page) ptr;;
  stw (page_end page) (ptr + PAGESIZE);;
  let pool := bp + sizeof_page in
  stw (pool_size pool) (u32 (PAGESIZE * pages));;
  s ← GET_SIZE (ptr + WSIZE);
  stw (pool_used pool) (u32 (s + DSIZE));;
  stw (pool_msize pool) 0;;
  stw (pool_init_pages pool) pages;;
  gfs_mem_queue_init (pool_large pool);;
  gfs_mem_queue_init (pool_page pool);;
  gfs_mem_queue_insert_tail (pool_page pool) page;;
  init_blocks 8 pool;;
  bp ← NEXT_BLKP bp;
  let size := PAGESIZE - size - DSIZE in
  put_tags bp (PACK size UNALLOCATED);;
  gfs_mem_queue_insert_head (pool_block pool (gfs_mem_getindex size)) bp;;
  add_pages (Z.to_nat (pages - 1)) pool true;;
  mret pool.

(** What [gfs_mem_malloc] does with the block it has found. *)
Definition take_block (pool bp asize : Z) : MM Z :=
  gfs_mem_place pool bp asize;;
  s ← GET_SIZE (HDRP bp);
  add_field (pool_msize pool) s;;
  stw bp pool;;
  mret (bp + WSIZE).

(** The [for] loop of [gfs_mem_malloc] from ring [i] on; [n] is [8 - i]. *)
Fixpoint search_blocks (n : nat) (pool i asize : Z) : MM Z :=
  match n with
  | O => mret 0
  | S n =>
      bp ← gfs_mem_find_fit (pool_block pool i) asize;
      if bool_decide (bp = 0) then search_blocks n pool (i + 1) asize else mret bp
  end.

(** The branch of [gfs_mem_malloc] for large sizes; [size] has 32 bits. *)
Definition malloc_large (pool size : Z) : MM Z :=
  let size := gfs_mem_align size 8 in
  let size := u32 (size + (sizeof_large + DSIZE)) in
  bp ← gfs_mem_malloc_internal size;
  let large := bp in
  stw (large_addr large) bp;;
  stw (large_size large) size;;
  add_field (pool_used pool) size;;
  add_field (pool_msize pool) size;;
  gfs_mem_queue_insert_tail (pool_large pool) large;;
  let bp := bp + sizeof_large in
  PUT bp (PACK size (Z.lor ALLOCATED LARGE));;
  let bp := bp + WSIZE in
  stw bp pool;;
  mret (bp + WSIZE).

Definition malloc_index (asize : Z) : Z :=
  let i := gfs_mem_getindex asize in
  if (Z.shiftl 1 (i + 4) <? asize) && (i <? 7) then i + 1 else i.

(** [gfs_mem_malloc] *)
Definition gfs_mem_malloc (pool size : Z) : MM Z :=
  if bool_decide (pool = 0) || (size =? 0) then mret 0 else
  if (DSIZE <? size) && (MIN_LARGE_SIZE <? size) then malloc_large pool size else
  let asize := if size <=? DSIZE then BLOCK_MIN else gfs_mem_align size 8 + 2 * DSIZE in
  let i := malloc_index asize in
  bp ← search_blocks (Z.to_nat (8 - i)) pool i asize;
  if bool_decide (bp ≠ 0) then take_block pool bp asize else
  gfs_mem_extend_pool pool;;
  bp ← gfs_mem_find_fit (pool_block pool 7) asize;
  if bool_decide (bp = 0) then mret 0 else
  take_block pool bp asize.

(** [gfs_mem_free] *)
Definition gfs_mem_free (ptr : Z) : MM unit :=
  if bool_decide (ptr = 0) then mret tt else
  let bp := ptr - WSIZE in
  pool ← ldw bp;
  size ← GET_SIZE (HDRP bp);
  add_field (pool_used pool) (- size);;
  add_field (pool_msize pool) (- size);;
  l ← GET_LARGE (HDRP bp);
  if negb (l =? 0) then
    let large := bp - WSIZE - sizeof_large in
    gfs_mem_queue_remove large;;
    addr ← ldw (large_addr large);
    gfs_mem_free_internal addr size
  else
    h ← GET (HDRP bp); f ← FTRP bp; f ← GET f;
    if negb (h =? f) then exit_corrupt else
    put_tags bp (PACK size UNALLOCATED);;
    gfs_mem_coalesce pool bp;;
    mret tt.

(** The loop that frees the large blocks. *)
Fixpoint free_larges (fuel : nat) (lhead large : Z) : MM unit :=
  match fuel with
  | O => crash
  | S fuel =>
      if bool_decide (large = lhead) then mret tt else
      lnext ← gfs_mem_queue_next large;
      gfs_mem_queue_remove large;;
      addr ← ldw (large_addr large); size ← ldw (large_size large);
      gfs_mem_free_internal addr size;;
      free_larges fuel lhead lnext
  end.
Definition free_all_larges (pool : Z) : MM unit := fuelled (λ fuel,
  large ← gfs_mem_queue_next (pool_large pool); free_larges fuel (pool_large pool) large).

(** The second loop of [gfs_mem_pool_reset]: the pages of the start are cleared,
    the others freed. *)
Fixpoint reset_pages (fuel : nat) (pool page : Z) : MM unit :=
  match fuel with
  | O => crash
  | S fuel =>
      if bool_decide (page = pool_page pool) then mret tt else
      pnext ← gfs_mem_queue_next page;
      start ← ldw (page_start page);
      init ← GET_INIT start;
      (if negb (init =? 0) then
         s ← GET_SIZE (HDRP page);
         let size := u32 (PAGESIZE - s - DSIZE) in
         bp ← NEXT_BLKP page;
         put_tags bp (PACK size UNALLOCATED);;
         gfs_mem_queue_insert_head (pool_block pool (gfs_mem_getindex size)) bp;;
         add_field (pool_used pool) (PAGESIZE - size)
       else
         gfs_mem_queue_remove page;;
         start ← ldw (page_start page);
         gfs_mem_free_internal start PAGESIZE);;
      reset_pages fuel pool pnext
  end.

(** [gfs_mem_pool_reset] *)
Definition gfs_mem_pool_reset (pool : Z) : MM unit :=
  if bool_decide (pool = 0) then mret tt else
  free_all_larges pool;;
  n ← ldw (pool_init_pages pool);
  stw (pool_size pool) (u64 (n * PAGESIZE));;
  stw (pool_used pool) 0;;
  stw (pool_msize pool) 0;;
  gfs_mem_queue_init (pool_large pool);;
  init_blocks 8 pool;;
  fuelled (λ fuel, page ← gfs_mem_queue_next (pool_page pool); reset_pages fuel pool page).

(** [gfs_mem_pool_destory] *)
Fixpoint destory_pages (fuel : nat) (phead page : Z) : MM unit :=
  match fuel with
  | O => crash
  | S fuel =>
      if bool_decide (page = phead) then mret tt else
      pnext ← gfs_mem_queue_next page;
      gfs_mem_queue_remove page;;
      start ← ldw (page_start page);
      gfs_mem_free_internal start PAGESIZE;;
      destory_pages fuel phead pnext
  end.
Definition gfs_mem_pool_destory (pool : Z) : MM unit :=
  if bool_decide (pool = 0) then mret tt else
  free_all_larges pool;;
  fuelled (λ fuel, page ← gfs_mem_queue_next (pool_page pool); destory_pages fuel (pool_page pool) page).
End mem.
