(* ===== verification/MemRep.v ===== *)
(** Assertions for the structures of the memory pool: tags, rings, blocks and
    the free lists, with the rules of the operations of Mem.v on them. *)
From iris.proofmode Require Import proofmode.
From S2P Require Import Prelude Store HeapLogic Mem.

(** ** Words and tags *)

Definition word (p : Z) : hprop := (∃ v, p ↦ v)%I.
Lemma junk_one p : junk p 1 ⊣⊢ word p.
Proof. simpl. by rewrite right_id. Qed.
(** The low half of a word; sizes and flags are kept there. *)
Definition tag (p t : Z) : hprop := (∃ w, p ↦ w ∗ ⌜u32 w = t⌝)%I.

Lemma word_intro p v : p ↦ v ⊢ word p.
Proof. iIntros "H". by iExists v. Qed.
Lemma tag_word p t : tag p t ⊢ word p.
Proof. iIntros "(%w & H & _)". by iExists w. Qed.
Lemma word_tag p : word p ⊢ ∃ t, tag p t.
Proof. iIntros "(%w & H)". iExists (u32 w), w. by iFrame. Qed.

(** Sizes of blocks. *)
Definition szok (s : Z) : Prop := 0 ≤ s < 2 ^ 32 ∧ (8 | s).

Lemma land_size s a : szok s → 0 ≤ a < 8 → Z.land (s + a) (2 ^ 32 - 8) = s.
Proof.
  intros [Hs [k ->]] Ha. change (2 ^ 32 - 8) with (Z.ldiff (Z.ones 32) (Z.ones 3)).
  assert (Hl : ∀ x y z, Z.land x (Z.ldiff y z) = Z.ldiff (Z.land x y) z).
  { intros x y z. apply Z.bits_inj'=> i Hi. rewrite !(Z.land_spec, Z.ldiff_spec). by rewrite andb_assoc. }
  rewrite Hl Z.land_ones; [|lia]. rewrite Z.mod_small; [|lia].
  rewrite Z.ldiff_ones_r; [|lia]. rewrite Z.shiftr_div_pow2; [|lia]. rewrite Z.shiftl_mul_pow2; [|lia].
  change (2 ^ 3) with 8. rewrite Z.div_add_l; [|lia]. rewrite (Z.div_small a 8); lia.
Qed.
Lemma land_flag s a k : szok s → 0 ≤ k < 3 → Z.land (s + a) (2 ^ k) = Z.land a (2 ^ k).
Proof.
  intros [_ [q ->]] Hk. apply Z.bits_inj'=> i Hi. rewrite !Z.land_spec (Z.pow2_bits_eqb k); [|lia].
  destruct (Z.eqb_spec k i) as [->|]; [|by rewrite !andb_false_r]. rewrite !andb_true_r.
  rewrite !Z.testbit_odd !Z.shiftr_div_pow2; [|lia..].
  replace (q * 8 + a) with (a + (q * 2 ^ (3 - i)) * 2 ^ i) by (rewrite -Z.mul_assoc -Z.pow_add_r; [|lia..];
    replace (3 - i + i) with 3 by lia; lia).
  rewrite Z.div_add; [|lia]. rewrite Z.odd_add Z.odd_mul Z.odd_pow; [|lia]. by rewrite andb_false_r xorb_false_r.
Qed.
Lemma pack_add s a : szok s → 0 ≤ a < 8 → PACK s a = s + a.
Proof.
  intros [Hs [k ->]] Ha. unfold PACK. rewrite -Z.add_lor_land.
  assert (Z.land (k * 8) a = 0) as ->; [|lia].
  rewrite -(Z.mod_small a (2 ^ 3)); [|lia]. rewrite -Z.land_ones; [|lia].
  rewrite (Z.land_comm a) Z.land_assoc Z.land_ones; [|lia]. by rewrite Z.mod_mul.
Qed.
Lemma szok_add s1 s2 : szok s1 → szok s2 → s1 + s2 < 2 ^ 32 → szok (s1 + s2).
Proof. intros [? ?] [? ?] ?. split; [lia|by apply Z.divide_add_r]. Qed.
Lemma szok_sub s1 s2 : szok s1 → szok s2 → s2 ≤ s1 → szok (s1 - s2).
Proof. intros [? ?] [? ?] ?. split; [lia|by apply Z.divide_sub_r]. Qed.
Lemma szok_u32 s a : szok s → 0 ≤ a < 8 → u32 (s + a) = s + a.
Proof. intros [? [k ->]] ?. apply u32_small. unfold is_u32. lia. Qed.

Section rules.
Implicit Types Φ : Z → hprop.

Lemma wp_GET p t Φ : tag p t ∗ (tag p t -∗ Φ t) ⊢ wp (GET p) Φ.
Proof.
  iIntros "[(%w & Hp & %Ht) HΦ]". iApply wp_bind. iApply (wp_ldw with "[$Hp HΦ]"). iIntros "Hp".
  iApply wp_ret. rewrite Ht. iApply "HΦ". iExists w. by iFrame.
Qed.
Lemma wp_PUT p v (Φ : unit → hprop) : word p ∗ (tag p (u32 v) -∗ Φ tt) ⊢ wp (PUT p v) Φ.
Proof.
  iIntros "[(%w & Hp) HΦ]". iApply wp_bind. iApply (wp_ldw with "[$Hp HΦ]"). iIntros "Hp".
  iApply (wp_stw with "[$Hp HΦ]"). iIntros "Hp". iApply "HΦ". iExists _. iFrame. iPureIntro.
  unfold u32. rewrite Zplus_mod Zminus_mod Zmod_mod Z.sub_diag Zmod_0_l Z.add_0_l. by rewrite !Zmod_mod.
Qed.
Lemma wp_word p w (Φ : unit → hprop) : word p ∗ (p ↦ w -∗ Φ tt) ⊢ wp (stw p w) Φ.
Proof. iIntros "[(%v & Hp) HΦ]". iApply (wp_stw with "[$Hp HΦ]"). iIntros "Hp". by iApply "HΦ". Qed.

Lemma wp_GET_SIZE p s a Φ :
  szok s → 0 ≤ a < 8 → tag p (s + a) ∗ (tag p (s + a) -∗ Φ s) ⊢ wp (GET_SIZE p) Φ.
Proof.
  iIntros (Hs Ha) "[Hp HΦ]". iApply wp_bind. iApply (wp_GET with "[$Hp HΦ]"). iIntros "Hp".
  iApply wp_ret. rewrite land_size //. by iApply "HΦ".
Qed.
Lemma wp_GET_ALLOC p s a Φ :
  szok s → tag p (s + a) ∗ (tag p (s + a) -∗ Φ (Z.land a 1)) ⊢ wp (GET_ALLOC p) Φ.
Proof.
  iIntros (Hs) "[Hp HΦ]". iApply wp_bind. iApply (wp_GET with "[$Hp HΦ]"). iIntros "Hp".
  iApply wp_ret. rewrite (land_flag _ _ 0) //. by iApply "HΦ".
Qed.
Lemma wp_GET_LARGE p s a Φ :
  szok s → tag p (s + a) ∗ (tag p (s + a) -∗ Φ (Z.land a 4)) ⊢ wp (GET_LARGE p) Φ.
Proof.
  iIntros (Hs) "[Hp HΦ]". iApply wp_bind. iApply (wp_GET with "[$Hp HΦ]"). iIntros "Hp".
  iApply wp_ret. rewrite (land_flag _ _ 2) //. by iApply "HΦ".
Qed.
Lemma wp_NEXT_BLKP bp s a Φ :
  szok s → 0 ≤ a < 8 → tag (bp - 8) (s + a) ∗ (tag (bp - 8) (s + a) -∗ Φ (bp + s)) ⊢ wp (NEXT_BLKP bp) Φ.
Proof.
  iIntros (Hs Ha) "[Hp HΦ]". iApply wp_bind. iApply (wp_GET_SIZE with "[$Hp HΦ]"); [done..|]. iIntros "Hp".
  iApply wp_ret. by iApply "HΦ".
Qed.
Lemma wp_PREV_BLKP bp s a Φ :
  szok s → 0 ≤ a < 8 → tag (bp - 16) (s + a) ∗ (tag (bp - 16) (s + a) -∗ Φ (bp - s)) ⊢ wp (PREV_BLKP bp) Φ.
Proof.
  iIntros (Hs Ha) "[Hp HΦ]". iApply wp_bind. iApply (wp_GET_SIZE with "[$Hp HΦ]"); [done..|]. iIntros "Hp".
  iApply wp_ret. by iApply "HΦ".
Qed.
Lemma wp_FTRP bp s a Φ :
  szok s → 0 ≤ a < 8 → tag (bp - 8) (s + a) ∗ (tag (bp - 8) (s + a) -∗ Φ (bp + s - 16)) ⊢ wp (FTRP bp) Φ.
Proof.
  iIntros (Hs Ha) "[Hp HΦ]". iApply wp_bind. iApply (wp_GET_SIZE with "[$Hp HΦ]"); [done..|]. iIntros "Hp".
  iApply wp_ret. by iApply "HΦ".
Qed.
Lemma wp_add_field p v d (Φ : unit → hprop) : p ↦ v ∗ (p ↦ u64 (v + d) -∗ Φ tt) ⊢ wp (add_field p d) Φ.
Proof.
  iIntros "[Hp HΦ]". iApply wp_bind. iApply (wp_ldw with "[$Hp HΦ]"). iIntros "Hp".
  iApply (wp_stw with "[$Hp HΦ]"). iIntros "Hp". by iApply "HΦ".
Qed.

Lemma wp_add_word p d (Φ : unit → hprop) : word p ∗ (word p -∗ Φ tt) ⊢ wp (add_field p d) Φ.
Proof.
  iIntros "[[%v Hp] HΦ]". iApply (wp_add_field with "[$Hp HΦ]"). iIntros "Hp". iApply "HΦ". by iExists _.
Qed.

(** Both tags of a block. *)
Definition tags (bp s a : Z) : hprop := (tag (bp - 8) (s + a) ∗ tag (bp + s - 16) (s + a))%I.

Lemma wp_put_tags bp s a (Φ : unit → hprop) :
  szok s → 0 ≤ a < 8 →
  word (bp - 8) ∗ word (bp + s - 16) ∗ (tags bp s a -∗ Φ tt) ⊢ wp (put_tags bp (PACK s a)) Φ.
Proof.
  iIntros (Hs Ha) "(H1 & H2 & HΦ)". rewrite pack_add //. iApply wp_bind. iApply (wp_PUT with "[$H1 H2 HΦ]").
  iIntros "H1". rewrite szok_u32 //. iApply wp_bind. iApply (wp_FTRP with "[$H1 H2 HΦ]"); [done..|].
  iIntros "H1". iApply (wp_PUT with "[$H2 H1 HΦ]"). iIntros "H2". rewrite szok_u32 //. iApply "HΦ". iFrame.
Qed.
End rules.

(** ** Rings *)

Definition mlink (a b : Z) : hprop := (a ↦ b ∗ (b + 8) ↦ a)%I.
(** The nodes [l] between [a] and [z]. *)
Fixpoint mseg (a : Z) (l : list Z) (z : Z) : hprop :=
  match l with
  | [] => mlink a z
  | x :: l => (mlink a x ∗ mseg x l z)%I
  end.
Definition mring (h : Z) (l : list Z) : hprop := mseg h l h.

Lemma mseg_app a l1 x l2 z : mseg a (l1 ++ x :: l2) z ⊣⊢ mseg a l1 x ∗ mseg x l2 z.
Proof.
  revert a. induction l1 as [|y l1 IH]=> a; simpl; [done|]. rewrite IH. by rewrite bi.sep_assoc.
Qed.
(** The last link of a segment. *)
Lemma mseg_last a l z :
  mseg a l z ⊣⊢ ∃ p, (z + 8) ↦ p ∗ p ↦ z ∗ (∀ z', (z' + 8) ↦ p -∗ p ↦ z' -∗ mseg a l z').
Proof.
  apply bi.equiv_entails. split.
  - revert a. induction l as [|y l IH]=> a; simpl.
    + iIntros "[H1 H2]". iExists a. iFrame. iIntros (z') "$ $".
    + rewrite IH. iIntros "[$ (%p & $ & $ & H)]". iIntros (z') "H2 H3". iApply ("H" with "H2 H3").
  - iIntros "(%p & H1 & H2 & H)". iApply ("H" with "H1 H2").
Qed.

Section ring_rules.
Implicit Types Φ : unit → hprop.

Lemma wp_mqueue_init q Φ : word q ∗ word (q + 8) ∗ (mring q [] -∗ Φ tt) ⊢ wp (gfs_mem_queue_init q) Φ.
Proof.
  iIntros "(H1 & H2 & HΦ)". iApply wp_bind. iApply (wp_word with "[$H2 H1 HΦ]"). iIntros "H2".
  iApply (wp_word with "[$H1 H2 HΦ]"). iIntros "H1". iApply "HΦ". iFrame.
Qed.

Lemma wp_minsert_head h l x Φ :
  mring h l ∗ word x ∗ word (x + 8) ∗ (mring h (x :: l) -∗ Φ tt) ⊢ wp (gfs_mem_queue_insert_head h x) Φ.
Proof.
  iIntros "(Hr & Hx & Hx8 & HΦ)".
  iAssert (∃ n, h ↦ n ∗ (n + 8) ↦ h ∗ (mlink x n -∗ mseg x l h))%I with "[Hr]" as (n) "(Hh & Hn & Hc)".
  { unfold mring. destruct l as [|y l]; simpl; [iDestruct "Hr" as "[H1 H2]"|iDestruct "Hr" as "[[H1 H2] Hr]"]; iExists _; iFrame.
    - iIntros "H". iFrame.
    - iIntros "H". iFrame. }
  unfold gfs_mem_queue_insert_head.
  iApply wp_bind. iApply (wp_ldw with "[$Hh Hn Hc Hx Hx8 HΦ]"). iIntros "Hh".
  iApply wp_bind. iApply (wp_word with "[$Hx Hh Hn Hc Hx8 HΦ]"). iIntros "Hx".
  iApply wp_bind. iApply (wp_ldw with "[$Hx Hh Hn Hc Hx8 HΦ]"). iIntros "Hx".
  iApply wp_bind. iApply (wp_stw with "[$Hn Hh Hx Hc Hx8 HΦ]"). iIntros "Hn".
  iApply wp_bind. iApply (wp_word with "[$Hx8 Hh Hx Hc Hn HΦ]"). iIntros "Hx8".
  iApply (wp_stw with "[$Hh Hx8 Hx Hc Hn HΦ]"). iIntros "Hh".
  iApply "HΦ". iFrame. iApply "Hc". iFrame.
Qed.

Lemma wp_minsert_tail h l x Φ :
  mring h l ∗ word x ∗ word (x + 8) ∗ (mring h (l ++ [x]) -∗ Φ tt) ⊢ wp (gfs_mem_queue_insert_tail h x) Φ.
Proof.
  iIntros "(Hr & Hx & Hx8 & HΦ)". unfold mring at 1. rewrite mseg_last.
  iDestruct "Hr" as (p) "(Hh & Hp & Hc)". unfold gfs_mem_queue_insert_tail.
  iApply wp_bind. iApply (wp_ldw with "[$Hh Hp Hc Hx Hx8 HΦ]"). iIntros "Hh".
  iApply wp_bind. iApply (wp_word with "[$Hx8 Hh Hp Hc Hx HΦ]"). iIntros "Hx8".
  iApply wp_bind. iApply (wp_ldw with "[$Hx8 Hh Hp Hc Hx HΦ]"). iIntros "Hx8".
  iApply wp_bind. iApply (wp_stw with "[$Hp Hh Hx Hc Hx8 HΦ]"). iIntros "Hp".
  iApply wp_bind. iApply (wp_word with "[$Hx Hh Hx8 Hc Hp HΦ]"). iIntros "Hx".
  iApply (wp_stw with "[$Hh Hx8 Hx Hc Hp HΦ]"). iIntros "Hh".
  iApply "HΦ". unfold mring. rewrite mseg_app. iDestruct ("Hc" with "Hx8 Hp") as "$". iFrame.
Qed.

Lemma wp_mremove h l1 x l2 Φ :
  mring h (l1 ++ x :: l2) ∗ (mring h (l1 ++ l2) -∗ word x -∗ word (x + 8) -∗ Φ tt) ⊢
  wp (gfs_mem_queue_remove x) Φ.
Proof.
  iIntros "[Hr HΦ]". unfold mring at 1. rewrite mseg_app mseg_last.
  iDestruct "Hr" as "[(%p & Hx8 & Hp & Hc1) H2]".
  iAssert (∃ n, x ↦ n ∗ (n + 8) ↦ x ∗ (p ↦ n -∗ (n + 8) ↦ p -∗ mring h (l1 ++ l2)))%I
    with "[H2 Hc1]" as (n) "(Hx & Hn & Hc)".
  { destruct l2 as [|y l2]; simpl.
    - iDestruct "H2" as "[$ $]". rewrite app_nil_r. iIntros "Hp Hn". iApply ("Hc1" with "Hn Hp").
    - iDestruct "H2" as "[[$ $] H2]". iIntros "Hp Hn". unfold mring. rewrite mseg_app. iFrame.
      iApply ("Hc1" with "Hn Hp"). }
  unfold gfs_mem_queue_remove.
  iApply wp_bind. iApply (wp_ldw with "[$Hx Hp Hc Hn Hx8 HΦ]"). iIntros "Hx".
  iApply wp_bind. iApply (wp_ldw with "[$Hx8 Hp Hc Hn Hx HΦ]"). iIntros "Hx8".
  iApply wp_bind. iApply (wp_stw with "[$Hn Hp Hc Hx8 Hx HΦ]"). iIntros "Hn".
  iApply wp_bind. iApply (wp_ldw with "[$Hx8 Hp Hc Hn Hx HΦ]"). iIntros "Hx8".
  iApply wp_bind. iApply (wp_ldw with "[$Hx Hp Hc Hn Hx8 HΦ]"). iIntros "Hx".
  iApply (wp_stw with "[$Hp Hn Hc Hx8 Hx HΦ]"). iIntros "Hp".
  iApply ("HΦ" with "[Hc Hp Hn] [Hx]"); [iApply ("Hc" with "Hp Hn")|by iExists _|by iExists _].
Qed.

(** The first link of a ring, and the link behind a node. *)
Lemma mring_head h l :
  mring h l ⊢ h ↦ default h (head l) ∗ (h ↦ default h (head l) -∗ mring h l).
Proof.
  unfold mring. destruct l as [|x l]; simpl; [iIntros "[$ $]"|iIntros "[[$ $] $]"]; by iIntros.
Qed.
Lemma mring_next h l1 x l2 :
  mring h (l1 ++ x :: l2) ⊢
  x ↦ default h (head l2) ∗ (x ↦ default h (head l2) -∗ mring h (l1 ++ x :: l2)).
Proof.
  unfold mring. rewrite mseg_app.
  destruct l2 as [|y l2]; simpl; [iIntros "[$ [$ $]]"|iIntros "[$ [[$ $] $]]"]; by iIntros.
Qed.

Lemma mseg_words a l z : mseg a l z ⊢ [∗ list] x ∈ (a :: l), word x.
Proof.
  revert a. induction l as [|x l IH]=> a; rewrite big_sepL_cons; simpl.
  - iIntros "[H1 H2]". rewrite right_id. by iExists _.
  - rewrite IH. iIntros "[[H1 H2] $]". by iExists _.
Qed.
Lemma mring_at_least h l : mring h l ⊢ at_least (S (length l)).
Proof. unfold mring. rewrite mseg_words. apply (at_least_list (h :: l) id). Qed.
Lemma words_ne l x : ([∗ list] y ∈ l, word y) ∗ word x ⊢ ⌜x ∉ l⌝.
Proof.
  iIntros "[Hl [%v Hx]]" (Hin). iDestruct (big_sepL_elem_of with "Hl") as "[%w Hy]"; [exact Hin|].
  iDestruct (pt_excl with "[$Hx $Hy]") as "[]".
Qed.
Lemma mring_ne h l : mring h l ⊢ ⌜h ∉ l⌝.
Proof.
  unfold mring. rewrite mseg_words big_sepL_cons. iIntros "[H Hl]". iApply (words_ne with "[$Hl $H]").
Qed.
End ring_rules.

(** ** Free lists

    [flist F]: the eight rings of the pool hold the free blocks [F], pairs of an
    address and a size, each on the ring of its size. *)
Section free_lists.
Context (pool : Z).
Implicit Types Φ : unit → hprop.
Implicit Types F : list (Z * Z).
Implicit Types Ls : list (list (Z * Z)).

Definition rings Ls : hprop := ([∗ list] i ↦ L ∈ Ls, mring (pool_block pool (Z.of_nat i)) L.*1)%I.
Definition sorted_rings Ls : Prop :=
  length Ls = 8%nat ∧ ∀ i L x, Ls !! i = Some L → x ∈ L → gfs_mem_getindex x.2 = Z.of_nat i.
Definition flist F : hprop := (∃ Ls, ⌜sorted_rings Ls ∧ concat Ls ≡ₚ F⌝ ∗ rings Ls)%I.

#[export] Instance flist_perm : Proper ((≡ₚ) ==> (⊣⊢)) flist.
Proof.
  intros F F' HF. unfold flist. apply bi.exist_proper=> Ls. apply bi.sep_proper; [|done].
  apply bi.pure_proper. by rewrite HF.
Qed.

Lemma concat_insert Ls i L L' :
  Ls !! i = Some L → L' ++ concat (<[i := []]> Ls) ≡ₚ concat (<[i := L']> Ls).
Proof.
  revert i. induction Ls as [|L0 Ls IH]; intros [|i] Hi; simplify_eq/=; [done|].
  rewrite -(IH i) //. solve_Permutation.
Qed.
Lemma concat_elem Ls i L x : Ls !! i = Some L → x ∈ L → x ∈ concat Ls.
Proof. intros HL Hx. apply list_elem_of_In, in_concat. exists L. split; apply list_elem_of_In; [by eapply list_elem_of_lookup_2|done]. Qed.
Lemma elem_concat Ls x : x ∈ concat Ls → ∃ i L, Ls !! i = Some L ∧ x ∈ L.
Proof.
  intros (L & HL & Hx)%list_elem_of_In%in_concat. apply list_elem_of_In, list_elem_of_lookup in HL as [i Hi].
  exists i, L. split; [done|]. by apply list_elem_of_In.
Qed.

Lemma wp_flist_remove F bp s Φ :
  flist ((bp, s) :: F) ∗ (flist F -∗ word bp -∗ word (bp + 8) -∗ Φ tt) ⊢ wp (gfs_mem_queue_remove bp) Φ.
Proof.
  iIntros "[(%Ls & [%Hs %HF] & Hr) HΦ]".
  assert ((bp, s) ∈ concat Ls) as (i & L & Hi & HL)%elem_concat by (rewrite HF; left).
  apply list_elem_of_split in HL as (l1 & l2 & ->).
  iDestruct (big_sepL_insert_acc with "Hr") as "[HL Hr]"; [done|]. rewrite fmap_app fmap_cons.
  iApply (wp_mremove with "[$HL HΦ Hr]"). iIntros "HL Hbp Hbp8". iApply ("HΦ" with "[HL Hr] Hbp Hbp8").
  iExists (<[i := l1 ++ l2]> Ls). iSplit; last first.
  { iApply "Hr". by rewrite fmap_app. }
  iPureIntro. split; [split|].
  - rewrite length_insert. apply Hs.
  - intros j L x [(-> & <- & _)|[Hne Hj]]%list_lookup_insert_Some Hx; [|by eapply Hs].
    eapply Hs; [done|]. set_solver.
  - rewrite -(concat_insert _ _ _ _ Hi). apply (Permutation.Permutation_cons_inv (a := (bp, s))). rewrite -HF.
    transitivity (concat (<[i := l1 ++ (bp, s) :: l2]> Ls)); [|by rewrite list_insert_id].
    rewrite -(concat_insert _ _ _ (l1 ++ (bp, s) :: l2) Hi). solve_Permutation.
Qed.

Lemma wp_flist_insert F bp s Φ :
  0 ≤ gfs_mem_getindex s < 8 →
  flist F ∗ word bp ∗ word (bp + 8) ∗ (flist ((bp, s) :: F) -∗ Φ tt) ⊢
  wp (gfs_mem_queue_insert_head (pool_block pool (gfs_mem_getindex s)) bp) Φ.
Proof.
  iIntros (Hi) "((%Ls & [%Hs %HF] & Hr) & H1 & H2 & HΦ)".
  destruct (lookup_lt_is_Some_2 Ls (Z.to_nat (gfs_mem_getindex s))) as [L HL]; [destruct Hs; lia|].
  iDestruct (big_sepL_insert_acc with "Hr") as "[HL Hr]"; [done|]. rewrite Z2Nat.id; [|lia].
  iApply (wp_minsert_head with "[$HL $H1 $H2 Hr HΦ]"). iIntros "HL". iApply "HΦ".
  iExists (<[Z.to_nat (gfs_mem_getindex s) := (bp, s) :: L]> Ls). iSplit; last by iApply "Hr".
  iPureIntro. split; [split|].
  - rewrite length_insert. apply Hs.
  - intros j L' x [(<- & <- & _)|[Hne Hj]]%list_lookup_insert_Some Hx; [|by eapply Hs].
    apply elem_of_cons in Hx as [->|Hx]; [simpl; lia|by eapply Hs].
  - rewrite -(concat_insert _ _ _ _ HL) -HF. simpl. constructor.
    rewrite concat_insert //. by rewrite list_insert_id.
Qed.

(** ** First fit *)

Definition fits (F : list (Z * Z)) : hprop := ([∗ list] x ∈ F, tag (x.1 - 8) (x.2 + 0))%I.
Lemma fits_app F1 F2 : fits (F1 ++ F2) ⊣⊢ fits F1 ∗ fits F2.
Proof. apply big_sepL_app. Qed.
Lemma fits_one bp s : fits [(bp, s)] ⊣⊢ tag (bp - 8) (s + 0).
Proof. apply big_sepL_singleton. Qed.
Definition fl_ok F : Prop := ∀ x, x ∈ F → 0 < x.1 ∧ (8 | x.1) ∧ szok x.2.

Lemma wp_fit_loop F h l1 l2 asize fuel (Φ : Z → hprop) :
  fl_ok F → (length l2 < fuel)%nat → (∀ x, x ∈ l2 → x ∈ F) →
  mring h (l1 ++ l2).*1 ∗ fits F ∗
    (∀ q, ⌜q = 0 ∧ (∀ x, x ∈ l2 → x.2 < asize) ∨ 0 < q ∧ ∃ s, (q, s) ∈ l2 ∧ asize ≤ s⌝ -∗
       mring h (l1 ++ l2).*1 -∗ fits F -∗ Φ q) ⊢
  wp (fit_loop fuel h (default h (head l2.*1)) asize) Φ.
Proof.
  intros Hok. revert l1 fuel. induction l2 as [|[q s] l2 IH]; intros l1 [|fuel] Hf Hin; simpl in Hf; try lia.
  - iIntros "(Hr & Hf & HΦ)". simpl. rewrite bool_decide_true //. iApply wp_ret.
    iApply ("HΦ" with "[] Hr Hf"). iPureIntro. left. split; [done|]. intros x Hx. by apply elem_of_nil in Hx.
  - iIntros "(Hr & Hf & HΦ)". iDestruct (mring_ne with "Hr") as %Hne. simpl.
    destruct (Hok (q, s)) as (Hq & _ & Hs); [by apply Hin; left|]. simpl in *.
    rewrite bool_decide_false; last first.
    { intros ->. apply Hne. rewrite fmap_app fmap_cons. set_solver. }
    iDestruct (big_sepL_elem_of_acc _ _ (q, s) with "Hf") as "[Ht Hf]"; [by apply Hin; left|].
    iApply wp_bind. iApply (wp_GET_SIZE _ s 0 with "[$Ht Hf Hr HΦ]"); [done..|]. iIntros "Ht".
    iDestruct ("Hf" with "Ht") as "Hf". destruct (Z.leb_spec asize s).
    + iApply wp_ret. iApply ("HΦ" with "[] Hr Hf"). iPureIntro. right. split; [done|]. exists s. by split; [left|].
    + rewrite fmap_app fmap_cons. simpl. iDestruct (mring_next with "Hr") as "[Hq Hr]".
      iApply wp_bind. iApply (wp_ldw with "[$Hq Hf Hr HΦ]"). iIntros "Hq". iDestruct ("Hr" with "Hq") as "Hr".
      iApply (IH (l1 ++ [(q, s)]) with "[-]"); [lia|set_solver|]. rewrite -!assoc_L /= fmap_app fmap_cons /=.
      iFrame. iIntros (r Hr). iApply "HΦ". iPureIntro. destruct Hr as [[-> Hr]|(Hr & s' & Hs' & ?)].
      * left. split; [done|]. intros x [->|Hx]%elem_of_cons; [simpl; lia|by apply Hr].
      * right. split; [done|]. exists s'. by split; [right|].
Qed.

Lemma wp_find_fit F i asize (Φ : Z → hprop) :
  fl_ok F → 0 ≤ i < 8 →
  flist F ∗ fits F ∗
    (∀ q, ⌜q = 0 ∧ (∀ x, x ∈ F → gfs_mem_getindex x.2 = i → x.2 < asize) ∨
           0 < q ∧ ∃ s, (q, s) ∈ F ∧ asize ≤ s⌝ -∗ flist F -∗ fits F -∗ Φ q) ⊢
  wp (gfs_mem_find_fit (pool_block pool i) asize) Φ.
Proof.
  iIntros (Hok Hi) "((%Ls & [%Hs %HF] & Hr) & Hf & HΦ)".
  destruct (lookup_lt_is_Some_2 Ls (Z.to_nat i)) as [L HL]; [destruct Hs; lia|].
  iDestruct (big_sepL_lookup_acc with "Hr") as "[HL Hr]"; [done|]. rewrite Z2Nat.id; [|lia].
  iApply (wp_fuelled_with _ _ (mring (pool_block pool i) L.*1) with "[$HL Hr Hf HΦ]"); [apply mring_at_least|].
  iIntros (n Hn) "HL". iDestruct (mring_head with "HL") as "[Hh HL]".
  iApply wp_bind. iApply (wp_ldw with "[$Hh HL Hr Hf HΦ]"). iIntros "Hh". iDestruct ("HL" with "Hh") as "HL".
  iApply (wp_fit_loop F _ [] L with "[$HL $Hf Hr HΦ]"); [done|rewrite length_fmap in Hn; lia| |].
  { intros x Hx. rewrite -HF. by eapply concat_elem. }
  iIntros (q Hq) "HL Hf". iApply ("HΦ" with "[] [HL Hr] Hf").
  - iPureIntro. destruct Hq as [[-> Hq]|(Hq & s & Hin & Hle)].
    + left. split; [done|]. intros x Hx Hxi. apply Hq. rewrite -HF in Hx. apply elem_concat in Hx as (j & L' & Hj & Hx).
      destruct Hs as [_ Hs]. rewrite (Hs _ _ _ Hj Hx) in Hxi. subst i. rewrite Nat2Z.id in HL. congruence.
    + right. split; [done|]. exists s. split; [|done]. rewrite -HF. by eapply concat_elem.
  - iExists Ls. iSplit; [done|]. by iApply "Hr".
Qed.
End free_lists.
