(* ===== verification/MemBlocks.v ===== *)
(** Blocks and pages of the memory pool, and the operations on them:
    [gfs_mem_place] and [gfs_mem_coalesce]. *)
From iris.proofmode Require Import proofmode.
From S2P Require Import Prelude Store HeapLogic Mem MemRep.

(** One step of a program: the rule [lem] for it, with the assertion [H] it needs
    and gives back. *)
Ltac wside := first [done | lia | match goal with Hb : _ |- szok _ => apply Hb end].
Ltac wstep lem Hs := iApply wp_bind; iApply (lem with "[-]"); last (iFrame Hs; iIntros Hs); [wside..|].

(** ** Size classes *)

Lemma index_loop_log2 fuel n i : 0 < n < 2 ^ Z.of_nat fuel → index_loop fuel n i = i + Z.log2 n.
Proof.
  revert n i. induction fuel as [|fuel IH]; intros n i Hn; [simpl in Hn; lia|]. cbn [index_loop].
  rewrite Z.shiftr_div_pow2 //. change (2 ^ 1) with 2. destruct (Z.eqb_spec (n / 2) 0) as [H0|H0].
  - assert (n = 1) as -> by (pose proof (Z.div_mod n 2); pose proof (Z.mod_pos_bound n 2); lia). simpl. lia.
  - assert (0 < n / 2) by (pose proof (Z.div_pos n 2); lia). rewrite IH.
    + pose proof (Z.log2_shiftr n 1 ltac:(lia)) as Hl. rewrite Z.shiftr_div_pow2 // in Hl.
      change (2 ^ 1) with 2 in Hl. rewrite Hl Z.max_r; [lia|].
      assert (1 ≤ Z.log2 n); [|lia]. apply Z.log2_le_pow2; [lia|]. pose proof (Z.mul_div_le n 2). lia.
    + split; [done|]. apply Z.div_lt_upper_bound; [lia|]. rewrite -Z.pow_succ_r; [|lia].
      replace (Z.succ (Z.of_nat fuel)) with (Z.of_nat (S fuel)) by lia. apply Hn.
Qed.
Lemma getindex_range s : 0 ≤ gfs_mem_getindex s < 8.
Proof.
  unfold gfs_mem_getindex. destruct (Z.leb_spec (u32 s) 32); [lia|]. destruct (Z.ltb_spec 2048 (u32 s)); [lia|].
  rewrite Z.shiftr_div_pow2 //. change (2 ^ 4) with 16.
  assert (2 ≤ (u32 s - 1) / 16) by (apply Z.div_le_lower_bound; lia).
  assert ((u32 s - 1) / 16 < 128) by (apply Z.div_lt_upper_bound; lia).
  rewrite index_loop_log2; [|split; [lia|]; etrans; [done|vm_compute; done]].
  assert (Z.log2 ((u32 s - 1) / 16) < 7) by (apply Z.log2_lt_pow2; lia).
  pose proof (Z.log2_nonneg ((u32 s - 1) / 16)). lia.
Qed.

(** ** Blocks *)

Definition nw (s : Z) : nat := Z.to_nat (s / 8).
Definition bsz (s : Z) : Prop := szok s ∧ 48 ≤ s.

Lemma nw_mul k : 0 ≤ k → nw (k * 8) = Z.to_nat k.
Proof. intros ?. unfold nw. by rewrite Z.div_mul. Qed.
Lemma bsz_ex s : bsz s → ∃ k, s = k * 8 ∧ 6 ≤ k.
Proof. intros [[Hs [k ->]] ?]. exists k. split; [done|lia]. Qed.

Lemma bsz_add s t : bsz s → bsz t → s + t < 2 ^ 32 → bsz (s + t).
Proof. intros [? ?] [? ?] ?. split; [by apply szok_add|lia]. Qed.

(** The words of a block between its tags. *)
Lemma inside_split bp s :
  bsz s → junk bp (nw s - 2) ⊣⊢ word bp ∗ word (bp + 8) ∗ junk (bp + 16) (nw s - 4).
Proof.
  intros (k & -> & Hk)%bsz_ex. rewrite nw_mul; [|lia].
  replace (Z.to_nat k - 2)%nat with (1 + (1 + (Z.to_nat k - 4)))%nat by lia.
  rewrite !junk_add /= !right_id. rewrite -Z.add_assoc. done.
Qed.
Lemma inside_cut bp s t :
  bsz s → bsz t →
  junk bp (nw (s + t) - 2) ⊣⊢
  junk bp (nw s - 2) ∗ word (bp + s - 16) ∗ word (bp + s - 8) ∗ junk (bp + s) (nw t - 2).
Proof.
  intros (k & -> & Hk)%bsz_ex (l & -> & Hl)%bsz_ex. rewrite -Z.mul_add_distr_r !nw_mul; [|lia..].
  replace (Z.to_nat (k + l) - 2)%nat with ((Z.to_nat k - 2) + (1 + (1 + (Z.to_nat l - 2))))%nat by lia.
  rewrite !junk_add. rewrite /= !right_id.
  replace (bp + 8 * Z.of_nat (Z.to_nat k - 2)) with (bp + k * 8 - 16) by lia.
  replace (bp + k * 8 - 16 + 8) with (bp + k * 8 - 8) by lia.
  by replace (bp + k * 8 - 8 + 8) with (bp + k * 8) by lia.
Qed.

Section blocks.
Context (pool : Z).

(** A block of [s] bytes: its tags, and for a free one the words behind its
    links; the links belong to the free lists, the words behind the pointer to
    the pool to whoever allocated the block. *)
Definition blk (bp s : Z) (al : bool) : hprop :=
  (tags bp s (if al then 1 else 0) ∗ if al then bp ↦ pool else junk (bp + 16) (nw s - 4))%I.
Fixpoint blks (bp : Z) (bs : list (Z * bool)) : hprop :=
  match bs with
  | [] => emp
  | (s, al) :: bs => blk bp s al ∗ blks (bp + s) bs
  end%I.

Fixpoint total (bs : list (Z * bool)) : Z :=
  match bs with [] => 0 | (s, _) :: bs => s + total bs end.
(** The free blocks, and the allocated ones as the pointer the client has and
    the number of words it may use. *)
Fixpoint frees (bp : Z) (bs : list (Z * bool)) : list (Z * Z) :=
  match bs with
  | [] => []
  | (s, al) :: bs => (if al then [] else [(bp, s)]) ++ frees (bp + s) bs
  end.
Fixpoint lives (bp : Z) (bs : list (Z * bool)) : list (Z * nat) :=
  match bs with
  | [] => []
  | (s, al) :: bs => (if al then [(bp + 8, (nw s - 3)%nat)] else []) ++ lives (bp + s) bs
  end.

Lemma total_app bs1 bs2 : total (bs1 ++ bs2) = total bs1 + total bs2.
Proof. induction bs1 as [|[s al] bs1 IH]; simpl; lia. Qed.
Lemma blks_app bp bs1 bs2 : blks bp (bs1 ++ bs2) ⊣⊢ blks bp bs1 ∗ blks (bp + total bs1) bs2.
Proof.
  revert bp. induction bs1 as [|[s al] bs1 IH]=> bp; simpl; [by rewrite left_id Z.add_0_r|].
  by rewrite IH -bi.sep_assoc Z.add_assoc.
Qed.
Lemma frees_app bp bs1 bs2 : frees bp (bs1 ++ bs2) = frees bp bs1 ++ frees (bp + total bs1) bs2.
Proof.
  revert bp. induction bs1 as [|[s al] bs1 IH]=> bp; simpl; [by rewrite Z.add_0_r|].
  by rewrite IH app_assoc Z.add_assoc.
Qed.
Lemma lives_app bp bs1 bs2 : lives bp (bs1 ++ bs2) = lives bp bs1 ++ lives (bp + total bs1) bs2.
Proof.
  revert bp. induction bs1 as [|[s al] bs1 IH]=> bp; simpl; [by rewrite Z.add_0_r|].
  by rewrite IH app_assoc Z.add_assoc.
Qed.
Lemma frees_elem bp bs q s :
  (q, s) ∈ frees bp bs → ∃ bs1 bs2, bs = bs1 ++ (s, false) :: bs2 ∧ q = bp + total bs1.
Proof.
  revert bp. induction bs as [|[t al] bs IH]=> bp; simpl; [by intros ?%elem_of_nil|].
  intros [Hq|(bs1 & bs2 & -> & ->)%IH]%elem_of_app.
  - destruct al; [by apply elem_of_nil in Hq|]. apply list_elem_of_singleton in Hq as [= -> ->].
    exists [], bs. split; [done|]. simpl. lia.
  - exists ((t, al) :: bs1), bs2. split; [done|]. simpl. lia.
Qed.
Lemma lives_elem bp bs q n :
  (q, n) ∈ lives bp bs →
  ∃ bs1 s bs2, bs = bs1 ++ (s, true) :: bs2 ∧ q = bp + total bs1 + 8 ∧ n = (nw s - 3)%nat.
Proof.
  revert bp. induction bs as [|[t al] bs IH]=> bp; simpl; [by intros ?%elem_of_nil|].
  intros [Hq|(bs1 & s & bs2 & -> & -> & ->)%IH]%elem_of_app.
  - destruct al; [|by apply elem_of_nil in Hq]. apply list_elem_of_singleton in Hq as [= -> ->].
    exists [], t, bs. simpl. split_and!; [done|lia|done].
  - exists ((t, al) :: bs1), s, bs2. simpl. split_and!; [done|lia|done].
Qed.

(** ** [gfs_mem_place] *)

(** What becomes of a free block of [c] bytes of which [a] are taken: the block
    that is allocated, and the rest. *)
Definition place_size (c a : Z) : Z := if 48 <=? c - a then a else c.
Definition place_rest (c a : Z) : list (Z * bool) := if 48 <=? c - a then [(c - a, false)] else [].

Lemma wp_place F bp c a (Φ : unit → hprop) :
  bsz c → bsz a → a ≤ c →
  flist pool ((bp, c) :: F) ∗ blk bp c false ∗ word (pool_used pool) ∗
    (flist pool (frees (bp + place_size c a) (place_rest c a) ++ F) -∗
       tags bp (place_size c a) 1 -∗ junk bp (nw (place_size c a) - 2) -∗
       blks (bp + place_size c a) (place_rest c a) -∗ word (pool_used pool) -∗ Φ tt) ⊢
  wp (gfs_mem_place pool bp a) Φ.
Proof.
  iIntros (Hc Ha Hac) "(HF & [[Ht1 Ht2] Hj] & Hu & HΦ)". unfold gfs_mem_place.
  iApply wp_bind. iApply (wp_flist_remove with "[$HF Ht1 Ht2 Hj Hu HΦ]"). iIntros "HF Hb Hb8".
  iDestruct (inside_split bp c with "[$Hb $Hb8 $Hj]") as "Hj"; [done|].
  iApply wp_bind. iApply (wp_GET_SIZE with "[$Ht1 Ht2 Hj Hu HΦ HF]"); [apply Hc|done|]. iIntros "Ht1".
  assert (Hsmall : u64 (c - a) = c - a).
  { apply u64_small. unfold is_u64. destruct Hc as [[? _] _], Ha as [[? _] _]. lia. }
  rewrite Hsmall. unfold place_size, place_rest. change BLOCK_MIN with 48.
  destruct (Z.leb_spec 48 (c - a)) as [Hle|Hlt].
  - assert (Hr : bsz (c - a)) by (split; [by apply szok_sub; [apply Hc|apply Ha|]|lia]).
    iAssert (junk bp (nw (a + (c - a)) - 2)) with "[Hj]" as "Hj"; [by replace (a + (c - a)) with c by lia|].
    rewrite (inside_cut bp a (c - a)) //. iDestruct "Hj" as "(Hj & Hw1 & Hw2 & Hj2)".
    iApply wp_bind. iApply (wp_put_tags with "[Ht1 $Hw1 Ht2 Hj Hw2 Hj2 Hu HΦ HF]"); [apply Ha|done|].
    iDestruct (tag_word with "Ht1") as "$". iIntros "[Ht1 Ht3]".
    iApply wp_bind. iApply (wp_NEXT_BLKP with "[$Ht1 Ht2 Ht3 Hj Hw2 Hj2 Hu HΦ HF]"); [apply Ha|done|]. iIntros "Ht1".
    iApply wp_bind. iDestruct (tag_word with "Ht2") as "Ht2". replace (bp + c - 16) with (bp + a + (c - a) - 16) by lia.
    iApply (wp_put_tags with "[$Hw2 $Ht2 Ht1 Ht3 Hj Hj2 Hu HΦ HF]"); [apply Hr|done|]. iIntros "Htr".
    rewrite (inside_split (bp + a)) //. iDestruct "Hj2" as "(Hl1 & Hl2 & Hj2)".
    iApply wp_bind. iApply (wp_flist_insert with "[$HF $Hl1 $Hl2 Htr Ht1 Ht3 Hj Hj2 Hu HΦ]"); [apply getindex_range|].
    iIntros "HF". iApply (wp_add_word with "[$Hu Htr Ht1 Ht3 Hj Hj2 HF HΦ]"). iIntros "Hu".
    iApply ("HΦ" with "[HF] [Ht1 Ht3] Hj [Htr Hj2] Hu"); simpl; [done|iFrame|by iFrame].
  - iApply wp_bind. iDestruct (tag_word with "Ht1") as "Ht1". iDestruct (tag_word with "Ht2") as "Ht2".
    iApply (wp_put_tags with "[$Ht1 $Ht2 Hj Hu HΦ HF]"); [apply Hc|done|]. iIntros "Ht".
    iApply (wp_add_word with "[$Hu Ht Hj HF HΦ]"). iIntros "Hu".
    iApply ("HΦ" with "[HF] Ht Hj [] Hu"); simpl; done.
Qed.

(** ** [gfs_mem_coalesce] *)

(** A free block whose words are all at hand, links and all. *)
Definition loose (bp s : Z) : hprop := (tags bp s 0 ∗ junk bp (nw s - 2))%I.

Lemma loose_blk bp s : bsz s → loose bp s ⊣⊢ blk bp s false ∗ word bp ∗ word (bp + 8).
Proof.
  intros Hs. unfold loose, blk. rewrite inside_split //. iSplit.
  - iIntros "($ & $ & $ & $)".
  - iIntros "(($ & $) & $ & $)".
Qed.
Lemma tags_word1 bp s a : tags bp s a ⊢ word (bp - 8) ∗ word (bp + s - 16).
Proof. unfold tags. by rewrite !tag_word. Qed.
(** Two neighbours, with the tags between them given up. *)
Lemma loose_join bp s t :
  bsz s → bsz t → loose bp s ∗ loose (bp + s) t ⊢
  tag (bp - 8) (s + 0) ∗ junk bp (nw (s + t) - 2) ∗ word (bp + s + t - 16).
Proof.
  iIntros (Hs Ht) "[[[$ H1] H2] [[H3 H4] H5]]". rewrite inside_cut //. iFrame.
  rewrite !tag_word. iFrame.
Qed.
Lemma loose_intro bp s t :
  bsz (s + t) → junk bp (nw (s + t) - 2) ∗ tags bp (s + t) 0 ⊢ loose bp (s + t).
Proof. intros Hs. iIntros "[$ $]". Qed.

(** Putting a loose block on the free list of its size. *)
Lemma wp_insert_loose F bp s (Φ : unit → hprop) :
  bsz s → flist pool F ∗ loose bp s ∗ (flist pool ((bp, s) :: F) -∗ blk bp s false -∗ Φ tt) ⊢
  wp (gfs_mem_queue_insert_head (pool_block pool (gfs_mem_getindex s)) bp) Φ.
Proof.
  iIntros (Hs) "(HF & Hl & HΦ)". rewrite loose_blk //. iDestruct "Hl" as "(Hb & H1 & H2)".
  iApply (wp_flist_insert with "[$HF $H1 $H2 Hb HΦ]"); [apply getindex_range|]. iIntros "HF".
  iApply ("HΦ" with "HF Hb").
Qed.
Lemma wp_remove_blk F bp s (Φ : unit → hprop) :
  bsz s → flist pool ((bp, s) :: F) ∗ blk bp s false ∗ (flist pool F -∗ loose bp s -∗ Φ tt) ⊢
  wp (gfs_mem_queue_remove bp) Φ.
Proof.
  iIntros (Hs) "(HF & Hb & HΦ)". iApply (wp_flist_remove with "[$HF Hb HΦ]"). iIntros "HF H1 H2".
  iApply ("HΦ" with "HF"). rewrite loose_blk //. iFrame.
Qed.

(** What coalescing looks at: the tags of the block before, of [sp] bytes, and
    the head of the block behind. *)
Definition prev_nb (bp sp : Z) (al : bool) : hprop :=
  if al then tags (bp - sp) sp 1 else blk (bp - sp) sp false.
Definition next_nb (bq sn fl : Z) : hprop :=
  if Z.land fl 1 =? 0 then blk bq sn false else tag (bq - 8) (sn + fl).

Lemma prev_nb_tags bp sp al :
  prev_nb bp sp al ⊢ tags (bp - sp) sp (if al then 1 else 0) ∗
    (tags (bp - sp) sp (if al then 1 else 0) -∗ prev_nb bp sp al).
Proof. destruct al; simpl; [iIntros "$"; by iIntros|]. iIntros "[$ $]". by iIntros. Qed.
Lemma next_nb_tag bq sn fl :
  fl = 0 ∨ Z.land fl 1 ≠ 0 →
  next_nb bq sn fl ⊢ tag (bq - 8) (sn + fl) ∗ (tag (bq - 8) (sn + fl) -∗ next_nb bq sn fl).
Proof.
  unfold next_nb. intros [->|Hfl]; simpl.
  - iIntros "[[$ $] $]". by iIntros.
  - rewrite (proj2 (Z.eqb_neq _ _) Hfl). iIntros "$". by iIntros.
Qed.

(** The three reads all cases begin with. *)
Lemma wp_coalesce_reads bp s sp sn fl al (K : Z → Z → Z → MM Z) (Φ : Z → hprop) :
  bsz s → szok sp → szok sn → 0 ≤ fl < 8 → fl = 0 ∨ Z.land fl 1 ≠ 0 →
  tags bp s 0 ∗ prev_nb bp sp al ∗ next_nb (bp + s) sn fl ∗
    (tags bp s 0 -∗ prev_nb bp sp al -∗ next_nb (bp + s) sn fl -∗
     wp (K (if al then 1 else 0) (Z.land fl 1) s) Φ) ⊢
  wp (p ← PREV_BLKP bp; f ← FTRP p; prev_alloc ← GET_ALLOC f;
      n ← NEXT_BLKP bp; next_alloc ← GET_ALLOC (HDRP n);
      size ← GET_SIZE (HDRP bp); K prev_alloc next_alloc size) Φ.
Proof.
  iIntros ([Hs _] Hsp Hsn Hfl Hfl0) "([Ht1 Ht2] & Hp & Hn & HΦ)".
  iDestruct (prev_nb_tags with "Hp") as "[[Hp1 Hp2] Hp]". replace (bp - sp + sp - 16) with (bp - 16) by lia.
  assert (Ha : 0 ≤ (if al then 1 else 0) < 8) by (destruct al; lia).
  iApply wp_bind. iApply (wp_PREV_BLKP with "[$Hp2 Ht1 Ht2 Hp1 Hp Hn HΦ]"); [done..|]. iIntros "Hp2".
  iApply wp_bind. iApply (wp_FTRP with "[$Hp1 Ht1 Ht2 Hp2 Hp Hn HΦ]"); [done..|]. iIntros "Hp1".
  replace (bp - sp + sp - 16) with (bp - 16) by lia.
  iApply wp_bind. iApply (wp_GET_ALLOC with "[$Hp2 Ht1 Ht2 Hp1 Hp Hn HΦ]"); [done..|]. iIntros "Hp2".
  iApply wp_bind. iApply (wp_NEXT_BLKP with "[$Ht1 Ht2 Hp1 Hp2 Hp Hn HΦ]"); [done..|]. iIntros "Ht1".
  iDestruct (next_nb_tag with "Hn") as "[Hn1 Hn]"; [done|].
  iApply wp_bind. iApply (wp_GET_ALLOC with "[$Hn1 Ht1 Ht2 Hp1 Hp2 Hp Hn HΦ]"); [done..|]. iIntros "Hn1".
  iApply wp_bind. iApply (wp_GET_SIZE with "[$Ht1 Hn1 Ht2 Hp1 Hp2 Hp Hn HΦ]"); [done..|]. iIntros "Ht1".
  replace (Z.land (if al then 1 else 0) 1) with (if al then 1 else 0) by (by destruct al).
  iApply ("HΦ" with "[$Ht1 $Ht2] [Hp Hp1 Hp2] [Hn Hn1]"); [|by iApply "Hn"].
  iApply "Hp". iFrame. by replace (bp - sp + sp - 16) with (bp - 16) by lia.
Qed.

(** The outcome: where the free block begins, its size, and what happens to the
    neighbours. *)
Definition merged_at (bp sp : Z) (al : bool) : Z := if al then bp else bp - sp.
Definition merged_size (s sp sn fl : Z) (al : bool) : Z :=
  (if al then 0 else sp) + s + (if Z.land fl 1 =? 0 then sn else 0).
Definition merged_in (bp s sp sn fl : Z) (al : bool) (F : list (Z * Z)) : list (Z * Z) :=
  (if Z.land fl 1 =? 0 then [(bp + s, sn)] else []) ++ (if al then [] else [(bp - sp, sp)]) ++ F.

(** The four cases. *)
Lemma wp_coalesce_none F bp s (Φ : Z → hprop) :
  bsz s →
  flist pool F ∗ loose bp s ∗ (flist pool ((bp, s) :: F) -∗ blk bp s false -∗ ∀ r, Φ r) ⊢
  wp (coalesce_none pool bp) Φ.
Proof.
  iIntros (Hs) "(HF & [[Ht1 Ht2] Hj] & HΦ)". unfold coalesce_none.
  wstep wp_GET_SIZE "Ht1".
  iApply wp_bind. iApply (wp_insert_loose with "[$HF $Ht1 $Ht2 $Hj HΦ]"); [done|]. iIntros "HF Hb".
  iApply wp_ret. iApply ("HΦ" with "HF Hb").
Qed.

Lemma wp_coalesce_next F bp s t (Φ : Z → hprop) :
  bsz s → bsz t → bsz (s + t) →
  flist pool ((bp + s, t) :: F) ∗ loose bp s ∗ blk (bp + s) t false ∗
    (flist pool ((bp, s + t) :: F) -∗ blk bp (s + t) false -∗ ∀ r, Φ r) ⊢
  wp (coalesce_next pool bp s) Φ.
Proof.
  iIntros (Hs Ht Hst) "(HF & [[Ht1 Ht2] Hj] & Hb & HΦ)". unfold coalesce_next.
  wstep wp_NEXT_BLKP "Ht1".
  iApply wp_bind. iApply (wp_remove_blk with "[$HF $Hb Ht1 Ht2 Hj HΦ]"); [done|]. iIntros "HF [[Hn1 Hn2] Hn]".
  wstep wp_NEXT_BLKP "Ht1". wstep wp_GET_SIZE "Hn1".
  iDestruct (loose_join with "[$Ht1 $Ht2 $Hj $Hn1 $Hn2 $Hn]") as "(Ht1 & Hj & Hw)"; [done..|].
  rewrite tag_word -Z.add_assoc. iApply wp_bind.
  iApply (wp_put_tags with "[$Ht1 $Hw HF Hj HΦ]"); [apply Hst|done|]. iIntros "Ht".
  iApply wp_bind. iApply (wp_insert_loose with "[$HF $Ht $Hj HΦ]"); [done|]. iIntros "HF Hb".
  iApply wp_ret. iApply ("HΦ" with "HF Hb").
Qed.

Lemma wp_coalesce_prev F q s t (Φ : Z → hprop) :
  bsz s → bsz t → bsz (t + s) →
  flist pool ((q, t) :: F) ∗ loose (q + t) s ∗ blk q t false ∗
    (flist pool ((q, t + s) :: F) -∗ blk q (t + s) false -∗ ∀ r, Φ r) ⊢
  wp (coalesce_prev pool (q + t) s) Φ.
Proof.
  iIntros (Hs Ht Hst) "(HF & [[Ht1 Ht2] Hj] & [[Hp1 Hp2] Hp] & HΦ)". unfold coalesce_prev.
  wstep wp_PREV_BLKP "Hp2". rewrite Z.add_simpl_r.
  iApply wp_bind. iApply (wp_remove_blk with "[$HF $Hp1 $Hp2 $Hp Ht1 Ht2 Hj HΦ]"); [done|]. iIntros "HF [[Hp1 Hp2] Hp]".
  wstep wp_PREV_BLKP "Hp2". rewrite Z.add_simpl_r. wstep wp_GET_SIZE "Hp1".
  wstep wp_FTRP "Ht1". rewrite (Z.add_comm s t) pack_add; [|apply Hst|done].
  iDestruct (tag_word with "Ht2") as "Ht2". wstep wp_PUT "Ht2".
  wstep wp_PREV_BLKP "Hp2". rewrite Z.add_simpl_r.
  iDestruct (tag_word with "Hp1") as "Hp1". wstep wp_PUT "Hp1".
  wstep wp_PREV_BLKP "Hp2". rewrite Z.add_simpl_r !szok_u32; [|apply Hst|done].
  iDestruct (tag_word with "Ht1") as "Ht1". iDestruct (tag_word with "Hp2") as "Hp2".
  iApply wp_bind. iApply (wp_insert_loose with "[$HF Ht1 Ht2 Hj Hp1 Hp2 Hp HΦ]"); [done|].
  iSplitR "HΦ"; [|iIntros "HF Hb"; iApply wp_ret; iApply ("HΦ" with "HF Hb")].
  unfold loose, tags. rewrite inside_cut // Z.add_assoc. iFrame.
Qed.

Lemma wp_coalesce_both F q s t r (Φ : Z → hprop) :
  bsz s → bsz t → bsz r → bsz (t + (s + r)) →
  flist pool ((q + t + s, r) :: (q, t) :: F) ∗ loose (q + t) s ∗ blk q t false ∗ blk (q + t + s) r false ∗
    (flist pool ((q, t + (s + r)) :: F) -∗ blk q (t + (s + r)) false -∗ ∀ r, Φ r) ⊢
  wp (coalesce_both pool (q + t) s) Φ.
Proof.
  iIntros (Hs Ht Hr Hst) "(HF & [[Ht1 Ht2] Hj] & [[Hp1 Hp2] Hp] & [[Hn1 Hn2] Hn] & HΦ)". unfold coalesce_both.
  wstep wp_NEXT_BLKP "Ht1".
  iApply wp_bind. iApply (wp_remove_blk with "[$HF $Hn1 $Hn2 $Hn Hp1 Hp2 Hp Ht1 Ht2 Hj HΦ]"); [done|]. iIntros "HF [[Hn1 Hn2] Hn]".
  wstep wp_PREV_BLKP "Hp2". rewrite Z.add_simpl_r.
  iApply wp_bind. iApply (wp_remove_blk with "[$HF $Hp1 $Hp2 $Hp Hn1 Hn2 Hn Ht1 Ht2 Hj HΦ]"); [done|]. iIntros "HF [[Hp1 Hp2] Hp]".
  wstep wp_PREV_BLKP "Hp2". rewrite Z.add_simpl_r. wstep wp_GET_SIZE "Hp1".
  wstep wp_NEXT_BLKP "Ht1". wstep wp_FTRP "Hn1". wstep wp_GET_SIZE "Hn2".
  wstep wp_PREV_BLKP "Hp2". rewrite Z.add_simpl_r.
  rewrite (u32_small (t + r)); [|destruct Hs as [_ ?], Ht as [_ ?], Hr as [_ ?], Hst as [[? _] _]; unfold is_u32; lia].
  replace (s + (t + r)) with (t + (s + r)) by lia. rewrite pack_add; [|apply Hst|done].
  iDestruct (tag_word with "Hp1") as "Hp1". wstep wp_PUT "Hp1".
  wstep wp_NEXT_BLKP "Ht1". wstep wp_FTRP "Hn1".
  iDestruct (tag_word with "Hn2") as "Hn2". wstep wp_PUT "Hn2".
  wstep wp_PREV_BLKP "Hp2". rewrite Z.add_simpl_r !szok_u32; [|apply Hst|done].
  iDestruct (tag_word with "Ht1") as "Ht1". iDestruct (tag_word with "Hp2") as "Hp2".
  iDestruct (tag_word with "Hn1") as "Hn1". iDestruct (tag_word with "Ht2") as "Ht2".
  assert (Hsr : bsz (s + r)) by (apply bsz_add; [done..|destruct Hst as [[? _] _], Ht; lia]).
  iApply wp_bind. iApply (wp_insert_loose with "[$HF Ht1 Ht2 Hj Hp1 Hp2 Hp Hn1 Hn2 Hn HΦ]"); [done|].
  iSplitR "HΦ"; [|iIntros "HF Hb"; iApply wp_ret; iApply ("HΦ" with "HF Hb")].
  unfold loose, tags. rewrite (inside_cut q t (s + r)) // (inside_cut (q + t) s r) // !Z.add_assoc. iFrame.
Qed.

Lemma wp_coalesce F bp s sp sn fl al (Φ : Z → hprop) :
  bsz s → bsz sp → szok sn → (Z.land fl 1 = 0 → bsz sn) → 0 ≤ fl < 8 → fl = 0 ∨ Z.land fl 1 ≠ 0 →
  sp + s + sn < 2 ^ 32 →
  flist pool (merged_in bp s sp sn fl al F) ∗ loose bp s ∗ prev_nb bp sp al ∗ next_nb (bp + s) sn fl ∗
    (flist pool ((merged_at bp sp al, merged_size s sp sn fl al) :: F) -∗
     blk (merged_at bp sp al) (merged_size s sp sn fl al) false -∗
     (if al then tags (bp - sp) sp 1 else emp) -∗
     (if Z.land fl 1 =? 0 then emp else tag (bp + s - 8) (sn + fl)) -∗ ∀ r, Φ r) ⊢
  wp (gfs_mem_coalesce pool bp) Φ.
Proof.
  iIntros (Hs Hsp Hsn Hsn' Hfl Hfl0 Hsum) "(HF & [Ht Hj] & Hp & Hn & HΦ)". unfold gfs_mem_coalesce.
  iApply (wp_coalesce_reads with "[$Ht $Hp $Hn HF Hj HΦ]"); [done|apply Hsp|done..|]. iIntros "Ht Hp Hn".
  assert (Hb : ∀ x y, bsz x → bsz y → x + y < 2 ^ 32 → bsz (x + y)) by apply bsz_add.
  assert (48 ≤ sp) by apply Hsp. assert (48 ≤ s) by apply Hs. assert (0 ≤ sn) by apply Hsn.
  unfold merged_in, merged_at, merged_size, next_nb, prev_nb.
  destruct al, (Z.eqb_spec (Z.land fl 1) 0) as [Hz|Hz];
    cbn [app negb andb Z.eqb].
  - rewrite Z.add_0_l. iApply (wp_coalesce_next with "[$HF $Ht $Hj $Hn HΦ Hp]"); [auto..|apply Hb; auto; lia|].
    iIntros "HF Hb". iApply ("HΦ" with "HF Hb Hp []"). done.
  - rewrite Z.add_0_l Z.add_0_r.
    iApply (wp_coalesce_none with "[$HF $Ht $Hj HΦ Hp Hn]"); [auto..|]. iIntros "HF Hb". iApply ("HΦ" with "HF Hb Hp Hn").
  - replace (sp + s + sn) with (sp + (s + sn)) by lia.
    remember (bp - sp) as q eqn:Hq. assert (bp = q + sp) as -> by lia. clear Hq.
    iApply (wp_coalesce_both with "[$HF $Ht $Hj $Hp $Hn HΦ]"); [by auto..|apply Hb; [done|apply Hb; auto; lia|lia]|].
    iIntros "HF Hb". iApply ("HΦ" with "HF Hb [] []"); done.
  - rewrite Z.add_0_r. remember (bp - sp) as q eqn:Hq. assert (bp = q + sp) as -> by lia. clear Hq.
    iApply (wp_coalesce_prev with "[$HF $Ht $Hj $Hp HΦ Hn]"); [done..|apply Hb; [done..|lia]|].
    iIntros "HF Hb". iApply ("HΦ" with "HF Hb [] Hn"). done.
Qed.
End blocks.
