(* ===== verification/MemPool.v ===== *)
(** The invariant of a memory pool and what it says about its pages. *)
From iris.proofmode Require Import proofmode.
From S2P Require Import Prelude Store HeapLogic Mem MemRep MemBlocks.

(** ** Pages

    A page: its address, whether it is one of the pages of the start, the size of
    its first block, which holds the page header (and in one page the pool), and
    the blocks behind it, with whether they are allocated. *)
Record apage := APage { ap_start : Z; ap_init : bool; ap_first : Z; ap_blocks : list (Z * bool) }.
Definition page_bp (P : apage) : Z := ap_start P + 16.
Definition page_base (P : apage) : Z := ap_start P + 16 + ap_first P.
Definition page_flag (P : apage) : Z := if ap_init P then 3 else 1.
Definition with_blocks (P : apage) (bs : list (Z * bool)) : apage :=
  APage (ap_start P) (ap_init P) (ap_first P) bs.

(** No two neighbours are free; [p] says whether the block before is allocated. *)
Fixpoint coal (p : bool) (bs : list (Z * bool)) : Prop :=
  match bs with
  | [] => True
  | (_, al) :: bs => (p = false → al = true) ∧ coal al bs
  end.
Fixpoint last_al (p : bool) (bs : list (Z * bool)) : bool :=
  match bs with [] => p | (_, al) :: bs => last_al al bs end.
Lemma coal_app p bs1 bs2 : coal p (bs1 ++ bs2) ↔ coal p bs1 ∧ coal (last_al p bs1) bs2.
Proof. revert p. induction bs1 as [|[s al] bs1 IH]=> p; simpl; [tauto|]. rewrite IH. tauto. Qed.
Lemma last_al_snoc p bs s al : last_al p (bs ++ [(s, al)]) = al.
Proof. revert p. induction bs as [|[t al'] bs IH]=> p; simpl; [done|apply IH]. Qed.
Lemma coal_true p bs : coal p bs → coal true bs.
Proof. destruct bs as [|[s al] bs]; simpl; [done|]. by intros [_ ?]. Qed.

Definition page_ok (P : apage) : Prop :=
  0 < ap_start P ∧ (8 | ap_start P) ∧ (ap_first P = 48 ∨ ap_first P = 272) ∧
  ap_first P + total (ap_blocks P) = 4080 ∧
  (∀ x, x ∈ ap_blocks P → bsz x.1) ∧ coal true (ap_blocks P).

Lemma first_bsz P : page_ok P → bsz (ap_first P).
Proof. intros (_ & _ & [-> | ->] & _); (split; [split; [lia|]|lia]); [by exists 6|by exists 34]. Qed.

Lemma total_nonneg bs : (∀ x, x ∈ bs → bsz x.1) → 0 ≤ total bs.
Proof.
  induction bs as [|[s al] bs IH]; simpl; [lia|]. intros Hb.
  assert (0 ≤ total bs) by (apply IH; intros x Hx; apply Hb; by right).
  destruct (Hb (s, al)) as [_ ?]; [by left|]. simpl in *. lia.
Qed.

Lemma total_div bs : (∀ x, x ∈ bs → bsz x.1) → (8 | total bs).
Proof.
  induction bs as [|[s al] bs IH]; simpl; intros Hb; [by exists 0|]. apply Z.divide_add_r.
  - apply (Hb (s, al)). by left.
  - apply IH. intros x Hx. apply Hb. by right.
Qed.
(** Where the block behind [bs1] lies. *)
Lemma page_addr P bs1 bs2 :
  page_ok P → ap_blocks P = bs1 ++ bs2 →
  0 < page_base P + total bs1 ∧ (8 | page_base P + total bs1).
Proof.
  intros (H1 & H2 & H3 & _ & Hb & _) HP. rewrite HP in Hb. unfold page_base.
  assert (0 ≤ total bs1) by (apply total_nonneg; set_solver).
  assert (8 | total bs1) by (apply total_div; set_solver).
  assert (8 | ap_first P) by (destruct H3 as [-> | ->]; [by exists 6|by exists 34]).
  split; [lia|]. do 3 (try apply Z.divide_add_r; try done). by exists 2.
Qed.

Section pool.
Context (pool : Z).

Definition pfrees (ps : list apage) : list (Z * Z) := ps ≫= λ P, frees (page_base P) (ap_blocks P).
Definition plives (ps : list apage) : list (Z * nat) := ps ≫= λ P, lives (page_base P) (ap_blocks P).

Definition page_frame (P : apage) : hprop :=
  (tag (ap_start P) (0 + page_flag P) ∗ tags (page_bp P) (ap_first P) 1 ∗
   tag (ap_start P + 4096 - 8) (0 + page_flag P) ∗ sys (ap_start P) 4096 ∗
   page_start (page_bp P) ↦ ap_start P ∗ page_end (page_bp P) ↦ (ap_start P + 4096))%I.
Definition page_rep (P : apage) : hprop := (page_frame P ∗ blks pool (page_base P) (ap_blocks P))%I.

(** The first block of the last page of the ring holds the pool. *)
Definition pool_page_ok (ps : list apage) : Prop := ∃ ps0 P, ps = ps0 ++ [P] ∧
  ap_start P + 48 = pool ∧ ap_first P = 272 ∧ ap_init P = true ∧ ∀ Q, Q ∈ ps0 → ap_first Q = 48.

(** ** Large blocks *)

Definition large_ok (x : Z * Z) : Prop := 0 < x.1 ∧ (8 | x.1) ∧ szok x.2 ∧ 48 < x.2.
Definition large_rep (x : Z * Z) : hprop :=
  (sys x.1 x.2 ∗ large_addr x.1 ↦ x.1 ∗ large_size x.1 ↦ x.2 ∗ tag (x.1 + 32) (x.2 + 5) ∗
   (x.1 + 40) ↦ pool)%I.
Definition llives (lg : list (Z * Z)) : list (Z * nat) := (λ x, (x.1 + 48, (nw x.2 - 6)%nat)) <$> lg.

(** ** The pool *)

(** The counters, and the fields of the list heads that are never used. *)
Definition fields (n : Z) : hprop :=
  (word (pool_size pool) ∗ word (pool_used pool) ∗ word (pool_msize pool) ∗
   pool_init_pages pool ↦ n ∗ junk (pool + 16) 2 ∗ junk (pool + 176) 2)%I.

Definition pool_inv (ps : list apage) (lg : list (Z * Z)) (n : Z) : hprop :=
  (⌜(∀ P, P ∈ ps → page_ok P) ∧ pool_page_ok ps ∧ (∀ x, x ∈ lg → large_ok x) ∧ 1 ≤ n < 2 ^ 32⌝ ∗
   ([∗ list] P ∈ ps, page_rep P) ∗ flist pool (pfrees ps) ∗ mring (pool_page pool) (page_bp <$> ps) ∗
   mring (pool_large pool) lg.*1 ∗ ([∗ list] x ∈ lg, large_rep x) ∗ fields n)%I.

(** What a client sees: the pool with the allocations [L], each the pointer and
    the number of words at the client's disposal. *)
Definition mem_pool (L : list (Z * nat)) : hprop :=
  (∃ ps lg n, pool_inv ps lg n ∗ ⌜L ≡ₚ plives ps ++ llives lg⌝)%I.

#[export] Instance mem_pool_perm : Proper ((≡ₚ) ==> (⊣⊢)) mem_pool.
Proof.
  intros L L' HL. apply bi.exist_proper=> ps. apply bi.exist_proper=> lg. apply bi.exist_proper=> n.
  apply bi.sep_proper; [done|]. apply bi.pure_proper. by rewrite HL.
Qed.

(** ** Finding blocks in pages *)

Lemma pages_split {A} (f : apage → list A) ps x :
  x ∈ ps ≫= f → ∃ ps1 P ps2, ps = ps1 ++ P :: ps2 ∧ x ∈ f P.
Proof.
  intros (P & Hx & HP)%list_elem_of_bind. apply list_elem_of_split in HP as (ps1 & ps2 & ->). eauto.
Qed.

Lemma pages_fl_ok ps : (∀ P, P ∈ ps → page_ok P) → fl_ok (pfrees ps).
Proof.
  intros Hok [q s] (ps1 & P & ps2 & -> & Hx)%pages_split. apply frees_elem in Hx as (bs1 & bs2 & Hbs & ->).
  assert (HP : page_ok P) by (apply Hok; set_solver).
  destruct (page_addr P _ _ HP Hbs) as [H1 H2]. split; [done|split; [done|]].
  destruct HP as (_ & _ & _ & _ & Hb & _). apply (Hb (s, false)). rewrite Hbs. set_solver.
Qed.

(** The sizes of the free blocks, for first fit. *)
Lemma blks_fits bp bs :
  blks pool bp bs ⊢ fits (frees bp bs) ∗ (fits (frees bp bs) -∗ blks pool bp bs).
Proof.
  revert bp. induction bs as [|[s al] bs IH]=> bp; simpl.
  - iIntros "_". iSplitL; [|iIntros "_"]; iEmpIntro.
  - rewrite fits_app. iIntros "[Hb H]". iDestruct (IH with "H") as "[$ Hc]". destruct al.
    + iSplit; [iEmpIntro|]. iIntros "[_ H]". iFrame. by iApply "Hc".
    + rewrite fits_one. iDestruct "Hb" as "[[$ Ht] Hj]". iIntros "[H Hf]". iFrame. by iApply "Hc".
Qed.
Lemma pages_fits ps :
  ([∗ list] P ∈ ps, page_rep P) ⊢ fits (pfrees ps) ∗ (fits (pfrees ps) -∗ [∗ list] P ∈ ps, page_rep P).
Proof.
  induction ps as [|P ps IH]; simpl.
  - iIntros "_". iSplitL; [|iIntros "_"]; iEmpIntro.
  - rewrite fits_app. iIntros "[[Hp Hb] H]". iDestruct (IH with "H") as "[$ H2]".
    iDestruct (blks_fits with "Hb") as "[$ H1]". iIntros "[H3 H4]". iFrame.
    iSplitL "H1 H3"; [by iApply "H1"|by iApply "H2"].
Qed.

(** ** Working on a few neighbouring blocks of one page *)

(** The free and the allocated blocks outside [mid], which is [t] bytes long. *)
Definition frees_but ps1 P bs1 t bs2 ps2 : list (Z * Z) :=
  pfrees ps1 ++ frees (page_base P) bs1 ++ frees (page_base P + total bs1 + t) bs2 ++ pfrees ps2.
Definition lives_but ps1 P bs1 t bs2 ps2 : list (Z * nat) :=
  plives ps1 ++ lives (page_base P) bs1 ++ lives (page_base P + total bs1 + t) bs2 ++ plives ps2.

Lemma pfrees_focus ps1 P bs1 mid bs2 ps2 :
  pfrees (ps1 ++ with_blocks P (bs1 ++ mid ++ bs2) :: ps2) ≡ₚ
  frees (page_base P + total bs1) mid ++ frees_but ps1 P bs1 (total mid) bs2 ps2.
Proof.
  unfold pfrees, frees_but. rewrite bind_app bind_cons. simpl. rewrite !frees_app.
  change (page_base (with_blocks P _)) with (page_base P). solve_Permutation.
Qed.
Lemma plives_focus ps1 P bs1 mid bs2 ps2 :
  plives (ps1 ++ with_blocks P (bs1 ++ mid ++ bs2) :: ps2) ≡ₚ
  lives (page_base P + total bs1) mid ++ lives_but ps1 P bs1 (total mid) bs2 ps2.
Proof.
  unfold plives, lives_but. rewrite bind_app bind_cons. simpl. rewrite !lives_app.
  change (page_base (with_blocks P _)) with (page_base P). solve_Permutation.
Qed.

Lemma pool_page_ok_focus ps1 P bs ps2 :
  pool_page_ok (ps1 ++ P :: ps2) → pool_page_ok (ps1 ++ with_blocks P bs :: ps2).
Proof.
  intros (ps0 & Q & Heq & Hs & Hf & Hi & H0). destruct ps2 as [|R ps2 _] using rev_ind.
  - apply app_inj_tail in Heq as [-> ->]. exists ps0, (with_blocks Q bs). done.
  - exists (ps1 ++ with_blocks P bs :: ps2), Q. rewrite app_comm_cons app_assoc in Heq.
    apply app_inj_tail in Heq as [<- ->]. rewrite -assoc_L. split_and!; try done.
    intros T [HT|[->|HT]%elem_of_cons]%elem_of_app.
    + apply H0. set_solver.
    + apply (H0 P). set_solver.
    + apply H0. set_solver.
Qed.
Lemma with_blocks_id P : with_blocks P (ap_blocks P) = P.
Proof. by destruct P. Qed.

Lemma pool_inv_focus ps1 P bs1 mid bs2 ps2 lg n :
  ap_blocks P = bs1 ++ mid ++ bs2 →
  pool_inv (ps1 ++ P :: ps2) lg n ⊢ ⌜page_ok P ∧ 1 ≤ n < 2 ^ 32⌝ ∗
    page_frame P ∗ blks pool (page_base P) bs1 ∗ blks pool (page_base P + total bs1) mid ∗
    blks pool (page_base P + total bs1 + total mid) bs2 ∗
    flist pool (frees (page_base P + total bs1) mid ++ frees_but ps1 P bs1 (total mid) bs2 ps2) ∗ fields n ∗
    (∀ mid', ⌜total mid' = total mid ∧ (∀ x, x ∈ mid' → bsz x.1) ∧ coal true (bs1 ++ mid' ++ bs2)⌝ -∗
       page_frame P -∗ blks pool (page_base P) bs1 -∗ blks pool (page_base P + total bs1) mid' -∗
       blks pool (page_base P + total bs1 + total mid) bs2 -∗
       flist pool (frees (page_base P + total bs1) mid' ++ frees_but ps1 P bs1 (total mid) bs2 ps2) -∗
       fields n -∗ pool_inv (ps1 ++ with_blocks P (bs1 ++ mid' ++ bs2) :: ps2) lg n).
Proof.
  iIntros (HP) "([%Hok (%Hpool & %Hlg & %Hn)] & Hps & HF & Hpr & Hlr & Hl & Hf)".
  assert (HokP : page_ok P) by (apply Hok; set_solver).
  rewrite -{1 2}(with_blocks_id P) HP pfrees_focus. rewrite big_sepL_app big_sepL_cons.
  iDestruct "Hps" as "(Hps1 & [Hframe Hb] & Hps2)". simpl. rewrite !blks_app.
  iDestruct "Hb" as "(Hb1 & Hb2 & Hb3)". iSplit; [done|]. iFrame "Hframe Hb1 Hb2 Hb3 HF Hf".
  iIntros (mid' (Ht & Hbm & Hc)) "Hframe Hb1 Hb2 Hb3 HF Hf". unfold pool_inv.
  rewrite pfrees_focus big_sepL_app big_sepL_cons Ht. iFrame "HF Hps1 Hps2 Hlr Hl Hf Hframe".
  iSplit; [|iSplitR "Hpr"].
  - iPureIntro. split; [|split; [by apply pool_page_ok_focus|done]].
    intros Q [HQ|[->|HQ]%elem_of_cons]%elem_of_app; [by apply Hok; set_solver| |by apply Hok; set_solver].
    destruct HokP as (H1 & H2 & H3 & H4 & H5 & H6). split_and!; try done; simpl.
    + rewrite HP !total_app in H4. rewrite !total_app. lia.
    + intros x [Hx|[Hx|Hx]%elem_of_app]%elem_of_app; [|by apply Hbm|]; apply H5; rewrite HP; set_solver.
  - simpl. rewrite !blks_app Ht. iFrame.
  - by rewrite !fmap_app !fmap_cons.
Qed.
End pool.
