(* ===== verification/MemSpec.v ===== *)
(** What [gfs_mem_malloc] and [gfs_mem_free] promise: a client owns the words it
    was given, and the pool keeps everything else. *)
From iris.proofmode Require Import proofmode.
From S2P Require Import Prelude Store HeapLogic Mem MemRep MemBlocks MemPool.

(** Membership in a concatenation. *)
Ltac in_app := rewrite !(elem_of_app, elem_of_cons); tauto.

Section spec.
Context (pool : Z) (allsize : Z) `{!Libc}.
Implicit Types Φ : Z → hprop.

(** ** Taking a block *)

Lemma wp_search F n i asize Φ :
  fl_ok F → 0 ≤ i → i + Z.of_nat n = 8 →
  flist pool F ∗ fits F ∗
    (∀ q, ⌜q = 0 ∨ 0 < q ∧ ∃ s, (q, s) ∈ F ∧ asize ≤ s⌝ -∗ flist pool F -∗ fits F -∗ Φ q) ⊢
  wp (search_blocks n pool i asize) Φ.
Proof.
  intros Hok. revert i. induction n as [|n IH]=> i Hi Hn; iIntros "(HF & Hf & HΦ)"; simpl.
  - iApply wp_ret. iApply ("HΦ" with "[] HF Hf"). by iLeft.
  - iApply wp_bind. iApply (wp_find_fit with "[$HF $Hf HΦ]"); [done|lia|]. iIntros (q Hq) "HF Hf".
    case_bool_decide as Hz.
    + iApply (IH with "[$HF $Hf $HΦ]"); lia.
    + iApply wp_ret. iApply ("HΦ" with "[] HF Hf"). iPureIntro. destruct Hq as [[? _]|?]; [done|by right].
Qed.

Lemma place_bsz c a : bsz c → bsz a → a ≤ c → bsz (place_size c a) ∧ a ≤ place_size c a.
Proof. intros Hc Ha Hle. unfold place_size. case_match; [split; [done|lia]|done]. Qed.
Lemma place_total c a : place_size c a + total (place_rest c a) = c.
Proof. unfold place_size, place_rest. case_match; simpl; lia. Qed.

Lemma place_rest_bsz c a x : bsz c → bsz a → x ∈ place_rest c a → bsz x.1.
Proof.
  intros Hc Ha. unfold place_rest. case_match; [|by intros ?%elem_of_nil].
  intros ->%list_elem_of_singleton. split; simpl; [apply szok_sub; [apply Hc|apply Ha|lia]|lia].
Qed.
Lemma place_coal c a bs1 bs2 :
  coal true (bs1 ++ (c, false) :: bs2) → coal true (bs1 ++ ((place_size c a, true) :: place_rest c a) ++ bs2).
Proof.
  rewrite -app_comm_cons coal_app (coal_app true bs1) /=. intros [H1 [_ H2]]. split; [done|]. split; [done|].
  unfold place_rest. case_match; simpl; [done|by eapply coal_true].
Qed.

(** The words a client gets for a block of [s] bytes. *)
Lemma wp_take_block ps lg n q c a Φ :
  bsz a → (q, c) ∈ pfrees ps → a ≤ c →
  pool_inv pool ps lg n ∗
    (∀ ps' k, ⌜plives ps' ≡ₚ ((q + 8)%Z, k) :: plives ps ∧ a ≤ (8 * Z.of_nat k + 24)%Z⌝ -∗
       pool_inv pool ps' lg n -∗ junk (q + 8) k -∗ Φ (q + 8)) ⊢
  wp (take_block pool q a) Φ.
Proof.
  iIntros (Ha Hq Hac) "[Hinv HΦ]". apply pages_split in Hq as (ps1 & P & ps2 & -> & Hq).
  apply frees_elem in Hq as (bs1 & bs2 & HP & ->).
  iDestruct (pool_inv_focus pool ps1 P bs1 [(c, false)] bs2 ps2 with "Hinv")
    as "([%HokP %Hn] & Hfr & Hb1 & [Hb _] & Hb3 & HF & Hf & Hclose)"; [done|].
  simpl. set (q := page_base P + total bs1).
  destruct HokP as (_ & _ & _ & _ & Hbs & Hcoal). rewrite HP in Hcoal.
  assert (Hc : bsz c) by (apply (Hbs (c, false)); rewrite HP; set_solver).
  destruct (place_bsz c a Hc Ha Hac) as [Hps Hle].
  iDestruct "Hf" as "(Hf1 & Hu & Hm & Hf4 & Hf5)". unfold take_block.
  iApply wp_bind. iApply (wp_place with "[$HF $Hb $Hu Hfr Hb1 Hb3 Hf1 Hm Hf4 Hf5 Hclose HΦ]"); [done..|].
  iIntros "HF [Ht1 Ht2] Hj Hrest Hu". rewrite Z.add_0_r.
  iApply wp_bind. iApply (wp_GET_SIZE with "[-]"); last (iFrame "Ht1"; iIntros "Ht1"); [wside..|].
  iApply wp_bind. iApply (wp_add_word with "[-]"). iFrame "Hm". iIntros "Hm".
  destruct (bsz_ex _ Hps) as (k & Hk & Hk6). rewrite Hk nw_mul; [|lia].
  replace (Z.to_nat k - 2)%nat with (1 + (Z.to_nat k - 3))%nat by lia. rewrite junk_add. simpl.
  iDestruct "Hj" as "[[Hw _] Hj]". iApply wp_bind. iApply (wp_word with "[-]"). iFrame "Hw". iIntros "Hw".
  iApply wp_ret. change (q + WSIZE) with (q + 8). replace (q + 8 * Z.of_nat 1) with (q + 8) by lia.
  iApply ("HΦ" $! (ps1 ++ with_blocks P (bs1 ++ ((place_size c a, true) :: place_rest c a) ++ bs2) :: ps2)
    with "[] [-Hj] Hj").
  - iPureIntro. split; [|rewrite Hk in Hle; lia].
    rewrite -{2}(with_blocks_id P) HP (plives_focus ps1 P bs1 [(c, false)]) plives_focus /=.
    rewrite place_total Z.add_0_r. rewrite Hk nw_mul; [|lia].
    unfold place_rest. case_match; done.
  - iApply ("Hclose" with "[] Hfr Hb1 [Ht1 Ht2 Hw Hrest] [Hb3] [HF] [$Hf1 $Hf4 $Hf5 $Hu $Hm]").
    + iPureIntro. split; [apply place_total|split; [|by apply place_coal]].
      intros x [->|Hx]%elem_of_cons; [done|]. exact (place_rest_bsz c a x Hc Ha Hx).
    + simpl. rewrite Hk. iFrame.
    + done.
    + by rewrite /= Hk.
Qed.

(** ** New pages *)

Lemma wp_malloc_internal n Φ :
  word allsize ∗ (∀ p, ⌜0 < p ∧ (16 | p)⌝ -∗ sys_block p n -∗ word allsize -∗ Φ p) ⊢
  wp (gfs_mem_malloc_internal allsize n) Φ.
Proof.
  iIntros "[Ha HΦ]". iApply wp_bind. iApply wp_malloc. iSplit.
  - rewrite bool_decide_true //. iApply wp_nomem.
  - iIntros (p [Hp Hd]) "Hb". rewrite bool_decide_false; [|lia].
    iApply wp_bind. iApply (wp_add_word with "[-]"). iFrame "Ha". iIntros "Ha".
    iApply wp_ret. iApply ("HΦ" with "[//] Hb Ha").
Qed.

(** The words of a fresh page. *)
Lemma page_words p :
  junk p 512 ⊢ word p ∗ word (p + 16 - 8) ∗ junk (p + 16) (nw 4080 - 2) ∗
    word (p + 16 + 4080 - 16) ∗ word (p + 4096 - 8).
Proof.
  change 512%nat with (1 + (1 + ((nw 4080 - 2) + (1 + 1))))%nat. rewrite !junk_add !junk_one.
  change (8 * Z.of_nat 1) with 8. change (8 * Z.of_nat (nw 4080 - 2)) with 4064.
  replace (p + 8 + 8 + 4064 + 8) with (p + 4096 - 8) by lia. replace (p + 8 + 8 + 4064) with (p + 16 + 4080 - 16) by lia.
  replace (p + 8 + 8) with (p + 16) by lia. replace (p + 8) with (p + 16 - 8) by lia. done.
Qed.
Lemma bsz_4080 : bsz 4080.
Proof. split; [split; [lia|by exists 510]|lia]. Qed.
Lemma bsz_4032 : bsz 4032.
Proof. split; [split; [lia|by exists 504]|lia]. Qed.
Lemma bsz_48 : bsz 48.
Proof. split; [split; [lia|by exists 6]|lia]. Qed.

Definition new_page (p : Z) (init : bool) : apage := APage p init 48 [(4032, false)].

Lemma new_page_ok p init ps (lg : list (Z * Z)) n :
  0 < p → (16 | p) →
  (∀ P, P ∈ ps → page_ok P) → pool_page_ok pool ps → (∀ x, x ∈ lg → large_ok x) → 1 ≤ n < 2 ^ 32 →
  (∀ P, P ∈ new_page p init :: ps → page_ok P) ∧ pool_page_ok pool (new_page p init :: ps) ∧
  (∀ x, x ∈ lg → large_ok x) ∧ 1 ≤ n < 2 ^ 32.
Proof.
  intros Hp Hd Hok (ps0 & P & -> & H1 & H2 & H3 & H4) Hlg Hn. split; [|split; [|done]].
  - intros Q [->|HQ]%elem_of_cons; [|by apply Hok]. split_and!; simpl; try done.
    + etrans; [|exact Hd]. by exists 2.
    + by left.
    + intros x ->%list_elem_of_singleton. apply bsz_4032.
  - exists (new_page p init :: ps0), P. split_and!; try done. intros Q [->|HQ]%elem_of_cons; [done|by apply H4].
Qed.

Lemma wp_grow init (Φ' : unit → hprop) :
  word (pool_size pool) ∗ (word (pool_size pool) -∗ Φ' tt) ⊢
  wp (if init : bool then mret tt else add_field (pool_size pool) PAGESIZE) Φ'.
Proof.
  iIntros "[H HΦ]". destruct init; [iApply wp_ret; by iApply "HΦ"|]. iApply (wp_add_word with "[$H $HΦ]").
Qed.

Lemma wp_add_page ps lg n init (Φ' : unit → hprop) :
  pool_inv pool ps lg n ∗ word allsize ∗
    (∀ p, pool_inv pool (new_page p init :: ps) lg n -∗ word allsize -∗ Φ' tt) ⊢
  wp (add_page allsize pool init) Φ'.
Proof.
  iIntros "(([%Hok (%Hpool & %Hlg & %Hn)] & Hps & HF & Hpr & Hlr & Hl & Hf) & Ha & HΦ)". unfold add_page.
  iApply wp_bind. iApply (wp_malloc_internal with "[-]"). iFrame "Ha". iIntros (p [Hp Hd]) "[Hsys Hj] Ha".
  iDestruct "Hf" as "(Hf1 & Hu & Hm & Hf4 & Hf5)".
  iDestruct (page_words with "Hj") as "(Hw1 & Hw2 & Hj & Hw3 & Hw4)".
  iApply wp_bind. iApply (wp_grow with "[-]"). iFrame "Hf1". iIntros "Hf1".
  iApply wp_bind. iApply (wp_PUT with "[-]"). iFrame "Hw1". iIntros "Hw1".
  iApply wp_bind. iApply (wp_PUT with "[-]"). iFrame "Hw4". iIntros "Hw4".
  iApply wp_bind. iApply (wp_add_word with "[-]"). iFrame "Hu". iIntros "Hu".
  iApply wp_bind. iApply (wp_put_tags _ 4080 0 with "[-]"); [apply bsz_4080|done|]. iFrame "Hw2 Hw3". iIntros "Ht".
  iApply wp_bind. iApply (wp_insert_loose _ _ _ 4080 with "[-]"); [apply bsz_4080|]. iFrame "HF Ht Hj". iIntros "HF Hb".
  iApply wp_bind. iApply (wp_place _ _ _ 4080 48 with "[-]"); [apply bsz_4080|apply bsz_48|lia|]. iFrame "HF Hb Hu".
  change (place_size 4080 48) with 48. change (place_rest 4080 48) with [(4032, false)].
  iIntros "HF Ht Hj Hrest Hu". change (nw 48 - 2)%nat with (1 + (1 + (1 + 1)))%nat. rewrite !junk_add !junk_one.
  change (8 * Z.of_nat 1) with 8. iDestruct "Hj" as "(Hl1 & Hl2 & Hs1 & Hs2)".
  iApply wp_bind. iApply (wp_word with "[-]"). replace (page_start (p + DSIZE)) with (p + 16 + 8 + 8) by (unfold page_start, DSIZE; lia).
  iFrame "Hs1". iIntros "Hs1".
  iApply wp_bind. iApply (wp_word with "[-]"). replace (page_end (p + DSIZE)) with (p + 16 + 8 + 8 + 8) by (unfold page_end, DSIZE; lia).
  iFrame "Hs2". iIntros "Hs2".
  iApply (wp_minsert_head with "[-]"). iFrame "Hpr Hl1 Hl2". iIntros "Hpr".
  iApply ("HΦ" $! p with "[-Ha] Ha").
  assert (u32 (PACK 0 (if init then Z.lor ALLOCATED INITIAL else ALLOCATED)) = 0 + (if init then 3 else 1)) as ->
    by (by destruct init).
  iSplit; [iPureIntro; by apply new_page_ok|].
  iSplitR "HF Hpr Hlr Hl Hf1 Hu Hm Hf4 Hf5"; [|by iFrame "HF Hpr Hlr Hl Hf1 Hu Hm Hf4 Hf5"].
  rewrite big_sepL_cons. iSplitR "Hps"; [|done]. unfold page_rep, page_frame. cbn [new_page ap_start ap_first ap_blocks]. unfold page_start, page_end.
  replace (page_bp (new_page p init) + 24) with (p + 16 + 8 + 8 + 8) by (unfold page_bp; simpl; lia).
  replace (page_bp (new_page p init) + 16) with (p + 16 + 8 + 8) by (unfold page_bp; simpl; lia). iFrame.
Qed.

(** The loops that add pages put them in front. *)
Definition new_pages (init : bool) (news : list apage) : Prop := ∀ P, P ∈ news → ∃ p, P = new_page p init.

Lemma wp_add_pages k ps lg n init (Φ' : unit → hprop) :
  pool_inv pool ps lg n ∗ word allsize ∗
    (∀ news, ⌜length news = k ∧ new_pages init news⌝ -∗ pool_inv pool (news ++ ps) lg n -∗ word allsize -∗ Φ' tt) ⊢
  wp (add_pages allsize k pool init) Φ'.
Proof.
  revert ps. induction k as [|k IH]=> ps; iIntros "(Hinv & Ha & HΦ)"; simpl.
  - iApply wp_ret. iApply ("HΦ" $! [] with "[] Hinv Ha"). iPureIntro. split; [done|]. by intros P ?%elem_of_nil.
  - iApply wp_bind. iApply (wp_add_page with "[-]"). iFrame "Hinv Ha". iIntros (p) "Hinv Ha".
    iApply (IH with "[-]"). iFrame "Hinv Ha". iIntros (news [Hlen Hnew]) "Hinv Ha".
    rewrite (cons_middle (new_page p init)) app_assoc. iApply ("HΦ" with "[] Hinv Ha"). iPureIntro.
    rewrite length_app /= Hlen. split; [lia|]. intros P [HP|HP]%elem_of_app; [by apply Hnew|].
    apply list_elem_of_singleton in HP as ->. by eexists.
Qed.

Lemma new_pages_lives init news ps : new_pages init news → plives (news ++ ps) = plives ps.
Proof.
  unfold plives. rewrite bind_app. induction news as [|P news IH]; intros Hn; [done|].
  rewrite bind_cons. destruct (Hn P) as [p ->]; [by left|]. apply IH. intros Q HQ. apply Hn. by right.
Qed.

(** The larger part of a new page is free, which is more than any small
    request. *)
Lemma new_pages_frees init news ps :
  news ≠ [] → new_pages init news → ∃ q, (q, 4032) ∈ pfrees (news ++ ps).
Proof.
  destruct news as [|P news]; [done|]. intros _ Hn. destruct (Hn P) as [p ->]; [by left|].
  exists (page_base (new_page p init)). by left.
Qed.

(** ** [gfs_mem_malloc] *)

(** What it needs of a request: the block size for it. *)
Definition asize_of (size : Z) : Z := if size <=? DSIZE then BLOCK_MIN else gfs_mem_align size 8 + 2 * DSIZE.

Lemma align8 d : 0 ≤ d → d + 7 < 2 ^ 32 → d ≤ gfs_mem_align d 8 < d + 8 ∧ szok (gfs_mem_align d 8).
Proof.
  intros Hd Hlt. unfold gfs_mem_align. simpl (8 - 1). rewrite u32_small; [|unfold is_u32; lia].
  change (u32 (Z.lnot 7)) with (2 ^ 32 - 8).
  assert (Hdm : d + 7 = (d + 7) / 8 * 8 + (d + 7) mod 8) by (rewrite {1}(Z.div_mod (d + 7) 8); lia).
  pose proof (Z.mod_pos_bound (d + 7) 8 ltac:(lia)).
  assert (Hs : szok ((d + 7) / 8 * 8)) by (split; [lia|by exists ((d + 7) / 8)]).
  rewrite {1 2 3}Hdm land_size //. split; [lia|done].
Qed.
Lemma asize_bsz size : 0 < size ≤ 3072 → bsz (asize_of size) ∧ size + 24 ≤ asize_of size ≤ 3104.
Proof.
  intros Hs. unfold asize_of, BLOCK_MIN, DSIZE. destruct (Z.leb_spec size 16).
  - split; [apply bsz_48|lia].
  - destruct (align8 size) as [Ha Hok]; [lia..|]. split; [|destruct Hok as [_ [k Hk]]; lia].
    split; [|lia]. apply (szok_add _ 32); [done|split; [lia|by exists 4]|lia].
Qed.

Lemma malloc_index_range a : 0 ≤ malloc_index a < 8.
Proof.
  unfold malloc_index. pose proof (getindex_range a). case_match eqn:Hc; [|done].
  apply andb_prop in Hc as [_ Hc%Z.ltb_lt]. lia.
Qed.

(** The ring of the requests of a size is never searched for them. *)
Lemma malloc_index_skips a : 48 ≤ a ≤ 2048 → malloc_index a = gfs_mem_getindex a + 1.
Proof.
  intros Ha. assert (forallb (λ a, malloc_index a =? gfs_mem_getindex a + 1) (seqZ 48 2001) = true) as Hall
    by (vm_compute; reflexivity).
  rewrite forallb_forall in Hall. apply Z.eqb_eq, Hall, list_elem_of_In, elem_of_seqZ. lia.
Qed.

(** First fit on the whole pool. *)
Lemma wp_pool_search ps lg n k i asize Φ :
  0 ≤ i → i + Z.of_nat k = 8 →
  pool_inv pool ps lg n ∗
    (∀ q, ⌜q = 0 ∨ 0 < q ∧ ∃ s, (q, s) ∈ pfrees ps ∧ asize ≤ s⌝ -∗ pool_inv pool ps lg n -∗ Φ q) ⊢
  wp (search_blocks k pool i asize) Φ.
Proof.
  iIntros (Hi Hk) "[([%Hok %Hr] & Hps & HF & Hrest) HΦ]".
  iDestruct (pages_fits with "Hps") as "[Hf Hps]".
  iApply (wp_search with "[-]"); [by apply pages_fl_ok|done..|]. iFrame "HF Hf". iIntros (q Hq) "HF Hf".
  iApply ("HΦ" with "[//]"). iSplit; [done|]. iFrame "HF Hrest". by iApply "Hps".
Qed.
Lemma wp_pool_find ps lg n asize Φ :
  (∃ q, (q, 4032) ∈ pfrees ps) → asize ≤ 4032 →
  pool_inv pool ps lg n ∗
    (∀ q s, ⌜0 < q ∧ (q, s) ∈ pfrees ps ∧ asize ≤ s⌝ -∗ pool_inv pool ps lg n -∗ Φ q) ⊢
  wp (gfs_mem_find_fit (pool_block pool 7) asize) Φ.
Proof.
  iIntros ([q0 Hq0] Ha) "[([%Hok %Hr] & Hps & HF & Hrest) HΦ]".
  iDestruct (pages_fits with "Hps") as "[Hf Hps]".
  iApply (wp_find_fit with "[-]"); [by apply pages_fl_ok|lia|]. iFrame "HF Hf". iIntros (q Hq) "HF Hf".
  destruct Hq as [[-> Hno]|(Hq & s & Hin & Hle)].
  { specialize (Hno _ Hq0 eq_refl). simpl in Hno. lia. }
  iApply ("HΦ" $! q s with "[//]"). iSplit; [done|]. iFrame "HF Hrest". by iApply "Hps".
Qed.

Lemma wp_extend_pool ps lg n (Φ' : unit → hprop) :
  pool_inv pool ps lg n ∗ word allsize ∗
    (∀ news, ⌜news ≠ [] ∧ new_pages false news⌝ -∗ pool_inv pool (news ++ ps) lg n -∗ word allsize -∗ Φ' tt) ⊢
  wp (gfs_mem_extend_pool allsize pool) Φ'.
Proof.
  iIntros "(([%Hok %Hr] & Hps & HF & Hpr & Hlr & Hl & (Hf1 & Hf2 & Hf3 & Hf4 & Hf5)) & Ha & HΦ)".
  iApply wp_bind. iApply (wp_ldw with "[-]"). iFrame "Hf4". iIntros "Hf4".
  iApply (wp_add_pages with "[-]"). iFrame "Hps HF Hpr Hlr Hl Hf1 Hf2 Hf3 Hf4 Hf5 Ha". iSplit; [done|].
  iIntros (news [Hlen Hnew]). iApply "HΦ". iPureIntro. split; [|done]. destruct Hr as (_ & _ & Hn).
  intros ->. simpl in Hlen. lia.
Qed.

(** The pool after a block of [a] bytes was taken for a request of [size]. *)
Definition got (L : list (Z * nat)) (size r : Z) : hprop :=
  (∃ k : nat, ⌜0 < r ∧ (8 | r) ∧ size ≤ (8 * Z.of_nat k)%Z⌝ ∗ mem_pool pool ((r, k) :: L) ∗ junk r k ∗ word allsize)%I.

Lemma wp_take L ps lg n q s size :
  0 < size ≤ 3072 → (q, s) ∈ pfrees ps → asize_of size ≤ s → L ≡ₚ plives ps ++ llives lg →
  pool_inv pool ps lg n ∗ word allsize ⊢ wp (take_block pool q (asize_of size)) (got L size).
Proof.
  iIntros (Hsz Hq Hs HL) "[Hinv Ha]". destruct (asize_bsz size Hsz) as [Hb Hle].
  iDestruct "Hinv" as "([%Hok %Hr] & Hinv)". destruct (pages_fl_ok ps Hok _ Hq) as (Hq0 & Hq8 & _).
  iApply (wp_take_block with "[-]"); [done..|]. iSplitL "Hinv"; [by iFrame|].
  iIntros (ps' k [Hlives Hk]) "Hinv Hj". iExists k. iFrame "Hj Ha". simpl in *. iSplit.
  { iPureIntro. split; [lia|split; [|lia]]. apply Z.divide_add_r; [done|by exists 1]. }
  iExists ps', lg, n. iFrame "Hinv". iPureIntro. by rewrite HL Hlives.
Qed.

Lemma wp_malloc_small L size :
  pool ≠ 0 → 0 < size ≤ 3072 →
  mem_pool pool L ∗ word allsize ⊢ wp (gfs_mem_malloc allsize pool size) (got L size).
Proof.
  iIntros (Hpool Hsz) "[(%ps & %lg & %n & Hinv & %HL) Ha]". unfold gfs_mem_malloc.
  rewrite bool_decide_false //. destruct (Z.eqb_spec size 0); [lia|].
  assert ((MIN_LARGE_SIZE <? size) = false) as -> by (apply Z.ltb_ge; unfold MIN_LARGE_SIZE; lia).
  rewrite andb_false_r. cbn [orb]. cbv zeta. change (if size <=? DSIZE then _ else _) with (asize_of size).
  destruct (asize_bsz size Hsz) as [Hb Hle]. pose proof (malloc_index_range (asize_of size)).
  iApply wp_bind. iApply (wp_pool_search with "[-]"); [|by rewrite Z2Nat.id; lia|]; [lia|].
  iFrame "Hinv". iIntros (q Hq) "Hinv". case_bool_decide as Hz.
  - destruct Hq as [?|(_ & s & Hin & Hs)]; [done|]. iApply (wp_take with "[$Hinv $Ha]"); done.
  - iApply wp_bind. iApply (wp_extend_pool with "[-]"). iFrame "Hinv Ha". iIntros (news [Hne Hnew]) "Hinv Ha".
    iApply wp_bind. iApply (wp_pool_find with "[-]"); [by eapply new_pages_frees|lia|]. iFrame "Hinv".
    iIntros (q' s (Hq' & Hin & Hs)) "Hinv". rewrite bool_decide_false; [|lia].
    iApply (wp_take with "[$Hinv $Ha]"); [done..|]. by erewrite new_pages_lives.
Qed.

(** The words of a fresh large block. *)
Lemma large_words p s :
  szok s → 48 < s →
  junk p (nwords s) ⊣⊢ word p ∗ word (p + 8) ∗ word (large_addr p) ∗ word (large_size p) ∗ word (p + 32) ∗
    word (p + 40) ∗ junk (p + 48) (nw s - 6).
Proof.
  intros [Hs [k ->]] Hlt. unfold nwords. rewrite nw_mul; [|lia].
  replace ((k * 8 + 7) / 8) with k by (apply (Z.div_unique _ _ _ 7); lia).
  replace (Z.to_nat k) with (1 + (1 + (1 + (1 + (1 + (1 + (Z.to_nat k - 6)))))))%nat at 1 by lia.
  rewrite !junk_add !junk_one. change (8 * Z.of_nat 1) with 8. rewrite -!Z.add_assoc. done.
Qed.

Lemma wp_malloc_large L size :
  3072 < size → size + 55 < 2 ^ 32 →
  mem_pool pool L ∗ word allsize ⊢ wp (malloc_large allsize pool size) (got L size).
Proof.
  iIntros (Hlo Hhi) "[(%ps & %lg & %n & Hinv & %HL) Ha]". unfold malloc_large. cbv zeta.
  destruct (align8 size) as [Hal Hok]; [lia..|]. change (sizeof_large + DSIZE) with 48.
  set (s := u32 (gfs_mem_align size 8 + 48)).
  assert (Hs : s = gfs_mem_align size 8 + 48) by (apply u32_small; unfold is_u32; lia).
  assert (Hsok : szok s) by (rewrite Hs; apply szok_add; [done|split; [lia|by exists 6]|lia]).
  iDestruct "Hinv" as "([%Hpok (%Hpool & %Hlg & %Hn)] & Hps & HF & Hpr & Hlr & Hl & (Hf1 & Hf2 & Hf3 & Hf4 & Hf5))".
  iApply wp_bind. iApply (wp_malloc_internal with "[-]"). iFrame "Ha". iIntros (p [Hp Hd]) "[Hsys Hj] Ha".
  assert (Hlt : 48 < s) by lia. iEval (rewrite large_words //) in "Hj". iDestruct "Hj" as "(Hw1 & Hw2 & Hw3 & Hw4 & Hw5 & Hw6 & Hj)".
  iApply wp_bind. iApply (wp_word with "[-]"). iFrame "Hw3". iIntros "Hw3".
  iApply wp_bind. iApply (wp_word with "[-]"). iFrame "Hw4". iIntros "Hw4".
  iApply wp_bind. iApply (wp_add_word with "[-]"). iFrame "Hf2". iIntros "Hf2".
  iApply wp_bind. iApply (wp_add_word with "[-]"). iFrame "Hf3". iIntros "Hf3".
  iApply wp_bind. iApply (wp_minsert_tail with "[-]"). iFrame "Hlr Hw1 Hw2". iIntros "Hlr".
  iApply wp_bind. iApply (wp_PUT with "[-]"). change (p + sizeof_large) with (p + 32). iFrame "Hw5". iIntros "Hw5".
  rewrite pack_add; [|done|done]. rewrite szok_u32; [|done|done].
  iApply wp_bind. iApply (wp_word with "[-]"). replace (p + 32 + WSIZE) with (p + 40) by (unfold WSIZE; lia).
  iFrame "Hw6". iIntros "Hw6". iApply wp_ret. replace (p + 40 + WSIZE) with (p + 48) by (unfold WSIZE; lia).
  iExists (nw s - 6)%nat. iFrame "Hj Ha". iSplit.
  - iPureIntro. split; [lia|split].
    + apply Z.divide_add_r; [|by exists 6]. etrans; [|exact Hd]. by exists 2.
    + destruct Hsok as [_ [k Hk]]. rewrite Hk nw_mul; lia.
  - iExists ps, (lg ++ [(p, s)]), n. iSplit; [|iPureIntro; rewrite HL /llives fmap_app /=; solve_Permutation].
    iSplit.
    { iPureIntro. split; [done|split; [done|split; [|done]]]. intros x [Hx|Hx]%elem_of_app; [by apply Hlg|].
      apply list_elem_of_singleton in Hx as ->. split_and!; simpl; [lia|etrans; [|exact Hd]; by exists 2|done..|lia]. }
    rewrite fmap_app big_sepL_app big_sepL_singleton. iFrame "Hps HF Hpr Hlr Hl Hf1 Hf2 Hf3 Hf4 Hf5".
    unfold large_rep. simpl. iFrame.
Qed.

(** ** [gfs_mem_free] *)

(** The free neighbours of an allocated block. *)
Definition free_nb (l : list (Z * bool)) : Prop := l = [] ∨ ∃ s, l = [(s, false)].
Lemma split_neighbours bs1 s bs2 :
  coal true (bs1 ++ (s, true) :: bs2) →
  ∃ A pre post B, bs1 = A ++ pre ∧ bs2 = post ++ B ∧ free_nb pre ∧ free_nb post ∧
    last_al true A = true ∧ coal true A ∧ coal false B.
Proof.
  rewrite coal_app /=. intros (H1 & _ & H2).
  assert (∃ A pre, bs1 = A ++ pre ∧ free_nb pre ∧ last_al true A = true ∧ coal true A) as (A & pre & -> & ? & ? & ?).
  { destruct bs1 as [|[t al] bs1 _] using rev_ind; [exists [], []; split_and!; try done; by left|].
    apply coal_app in H1 as [H1 [Hl _]]. destruct al.
    - exists (bs1 ++ [(t, true)]), []. rewrite app_nil_r last_al_snoc. split_and!; try done; [by left|].
      by apply coal_app.
    - exists bs1, [(t, false)]. split_and!; try done; [right; by exists t|]. destruct (last_al true bs1); naive_solver. }
  assert (∃ post B, bs2 = post ++ B ∧ free_nb post ∧ coal false B) as (post & B & -> & ? & ?).
  { destruct bs2 as [|[t al] bs2]; [exists [], []; split_and!; try done; by left|]. destruct al.
    - exists [], ((t, true) :: bs2). split_and!; [done|by left|]. destruct H2 as [_ H2]. by split.
    - exists [(t, false)], bs2. split_and!; [done|right; by exists t|]. by destruct H2 as [_ ?]. }
  by exists A, pre, post, B.
Qed.

Lemma block_le P bs x : page_ok P → x ∈ bs → (∃ A B, ap_blocks P = A ++ bs ++ B) → x.1 ≤ 4080.
Proof.
  intros (_ & _ & Hf & Ht & Hb & _) (l1 & l2 & ->)%list_elem_of_split (A & B & HP).
  destruct x as [s al]. rewrite HP in Ht Hb. rewrite !total_app /= in Ht.
  assert (0 ≤ total A) by (apply total_nonneg; set_solver). assert (0 ≤ total B) by (apply total_nonneg; set_solver).
  assert (0 ≤ total l1) by (apply total_nonneg; set_solver). assert (0 ≤ total l2) by (apply total_nonneg; set_solver).
  simpl. destruct Hf; lia.
Qed.

(** The tags of the block before, when it is allocated: the last of [A], or the
    first block of the page. *)
Lemma prev_access P A :
  page_ok P → (∀ x, x ∈ A → bsz x.1 ∧ x.1 ≤ 4080) → last_al true A = true →
  tags (page_bp P) (ap_first P) 1 ∗ blks pool (page_base P) A ⊢
  ∃ sp, ⌜bsz sp ∧ sp ≤ 4080⌝ ∗ tags (page_base P + total A - sp) sp 1 ∗
    (tags (page_base P + total A - sp) sp 1 -∗ tags (page_bp P) (ap_first P) 1 ∗ blks pool (page_base P) A).
Proof.
  intros HP HA Hl. destruct A as [|[t al] A _] using rev_ind.
  - iIntros "[Ht _]". iExists (ap_first P). simpl.
    replace (page_base P + 0 - ap_first P) with (page_bp P) by (unfold page_base, page_bp; lia). iFrame "Ht".
    iSplit; [iPureIntro; split; [by apply first_bsz|destruct HP as (_ & _ & [-> | ->] & _); lia]|].
    iIntros "$".
  - rewrite last_al_snoc in Hl. subst al. rewrite total_app /=. iIntros "[Ht HA]".
    iEval (rewrite blks_app /=) in "HA". iDestruct "HA" as "(HA & [[Hb1 Hb2] _])". iExists t. replace (page_base P + (total A + (t + 0)) - t) with (page_base P + total A) by lia. iFrame "Hb1".
    iSplit; [iPureIntro; apply (HA (t, true)); set_solver|]. iIntros "H". rewrite blks_app /=. iFrame.
Qed.
(** The head of the block behind, when it is allocated, or the tail of the
    page. *)
Lemma next_access P t B :
  (∀ x, x ∈ B → bsz x.1 ∧ x.1 ≤ 4080) → coal false B → (B = [] → page_base P + t = ap_start P + 4096) →
  tag (ap_start P + 4096 - 8) (0 + page_flag P) ∗ blks pool (page_base P + t) B ⊢
  ∃ sn fl, ⌜szok sn ∧ sn ≤ 4080 ∧ 0 ≤ fl < 8 ∧ Z.land fl 1 ≠ 0⌝ ∗ tag (page_base P + t - 8) (sn + fl) ∗
    (tag (page_base P + t - 8) (sn + fl) -∗
     tag (ap_start P + 4096 - 8) (0 + page_flag P) ∗ blks pool (page_base P + t) B).
Proof.
  intros HB Hc Hend. destruct B as [|[s al] B].
  - iIntros "[Ht _]". iExists 0, (page_flag P). rewrite Hend //. iFrame "Ht". iSplit.
    + iPureIntro. unfold page_flag. split; [split; [lia|by exists 0]|]. destruct (ap_init P); split_and!; done.
    + iIntros "$".
  - destruct Hc as [Hal _]. rewrite Hal //. simpl. iIntros "[Ht [[[H1 H2] Hp] HB]]". iExists s, 1. iFrame "H1".
    destruct (HB (s, al)) as [[Hs _] Hle]; [by left|]. iSplit; [iPureIntro; by split_and!|].
    iIntros "H". iFrame.
Qed.

Lemma prev_nb_of P A pre :
  page_ok P → (∀ x, x ∈ A ++ pre → bsz x.1 ∧ x.1 ≤ 4080) → free_nb pre → last_al true A = true →
  blks pool (page_base P + total A) pre ∗ tags (page_bp P) (ap_first P) 1 ∗ blks pool (page_base P) A ⊢
  ∃ sp (al : bool), ⌜bsz sp ∧ sp ≤ 4080 ∧ pre = if al then [] else [(sp, false)]⌝ ∗
    prev_nb pool (page_base P + total A + total pre) sp al ∗
    ((if al then tags (page_base P + total A + total pre - sp) sp 1 else emp) -∗
     tags (page_bp P) (ap_first P) 1 ∗ blks pool (page_base P) A).
Proof.
  intros HP Hb [->|[sp ->]] Hl; simpl.
  - iIntros "[_ H]". rewrite Z.add_0_r. rewrite app_nil_r in Hb.
    iDestruct (prev_access with "H") as (sp [Hsp Hle]) "[Ht Hc]"; [done..|]. iExists sp, true. by iFrame.
  - iIntros "[[Hb _] [$ $]]". iExists sp, false. rewrite Z.add_0_r /prev_nb Z.add_simpl_r. iFrame.
    destruct (Hb (sp, false)) as [H1 H2]; [set_solver|]. iSplit; [done|]. by iIntros "_".
Qed.
Lemma next_nb_of P t post B :
  (∀ x, x ∈ post ++ B → bsz x.1 ∧ x.1 ≤ 4080) → free_nb post → coal false B →
  page_base P + t + total post + total B = ap_start P + 4096 →
  blks pool (page_base P + t) post ∗ tag (ap_start P + 4096 - 8) (0 + page_flag P) ∗
    blks pool (page_base P + t + total post) B ⊢
  ∃ sn fl, ⌜szok sn ∧ sn ≤ 4080 ∧ 0 ≤ fl < 8 ∧ (fl = 0 ∨ Z.land fl 1 ≠ 0) ∧ (Z.land fl 1 = 0 → bsz sn) ∧
      post = if Z.land fl 1 =? 0 then [(sn, false)] else []⌝ ∗
    next_nb pool (page_base P + t) sn fl ∗
    ((if Z.land fl 1 =? 0 then emp else tag (page_base P + t - 8) (sn + fl)) -∗
     tag (ap_start P + 4096 - 8) (0 + page_flag P) ∗ blks pool (page_base P + t + total post) B).
Proof.
  intros Hb [->|[sn ->]] Hc Hend; simpl.
  - iIntros "[_ H]". rewrite Z.add_0_r.
    iDestruct (next_access P t B with "H") as (sn fl (Hsn & Hle & Hfl & Hfl1)) "[Ht Hcl]"; [done..| |].
    { intros ->. simpl in Hend. lia. }
    iExists sn, fl. unfold next_nb. rewrite (proj2 (Z.eqb_neq _ _) Hfl1). iFrame. iPureIntro. split_and!; try done; [lia..|by right].
  - iIntros "[[Hb _] [$ $]]". iExists sn, 0. simpl. iFrame.
    destruct (Hb (sn, false)) as [H1 H2]; [set_solver|]. iSplit; [|by iIntros "_"].
    iPureIntro. split_and!; try done; [apply H1..|by left].
Qed.

Lemma wp_coalesce_mid P A pre s post B F Φ :
  page_ok P → ap_blocks P = A ++ (pre ++ (s, true) :: post) ++ B → free_nb pre → free_nb post →
  last_al true A = true → coal false B →
  flist pool (frees (page_base P + total A) (pre ++ (s, true) :: post) ++ F) ∗
    blks pool (page_base P + total A) pre ∗ loose (page_base P + total A + total pre) s ∗
    blks pool (page_base P + total A + total pre + s) post ∗
    tags (page_bp P) (ap_first P) 1 ∗ blks pool (page_base P) A ∗ tag (ap_start P + 4096 - 8) (0 + page_flag P) ∗
    blks pool (page_base P + total A + total pre + s + total post) B ∗
    (flist pool ((page_base P + total A, total pre + s + total post) :: F) -∗
     blk pool (page_base P + total A) (total pre + s + total post) false -∗
     tags (page_bp P) (ap_first P) 1 -∗ blks pool (page_base P) A -∗ tag (ap_start P + 4096 - 8) (0 + page_flag P) -∗
     blks pool (page_base P + total A + total pre + s + total post) B -∗ ∀ r, Φ r) ⊢
  wp (gfs_mem_coalesce pool (page_base P + total A + total pre)) Φ.
Proof.
  intros HP Hbl Hpre Hpost HA HB. iIntros "(HF & Hpr & Hl & Hpo & Hfi & HbA & Hta & HbB & HΦ)".
  assert (Hsz : ∀ x, x ∈ ap_blocks P → bsz x.1 ∧ x.1 ≤ 4080).
  { intros x Hx. split; [by apply HP|]. eapply (block_le P (ap_blocks P)); [done..|]. exists [], []. by rewrite app_nil_r. }
  rewrite Hbl in Hsz. destruct (Hsz (s, true)) as [Hs Hsle]; [in_app|]. simpl in Hs, Hsle.
  iDestruct (prev_nb_of with "[$Hpr $Hfi $HbA]") as (sp al (Hsp & Hsple & Hpe)) "[Hp Hpc]"; [done|by intros x [?|?]%elem_of_app; apply Hsz; in_app|done..|].
  set (t := total A + total pre + s).
  replace (page_base P + total A + total pre + s) with (page_base P + t) by (unfold t; lia).
  iDestruct (next_nb_of with "[$Hpo $Hta $HbB]")
    as (sn fl (Hsn & Hsnle & Hfl & Hfl0 & Hsnb & Hpoe)) "[Hn Hnc]"; [by intros x [?|?]%elem_of_app; apply Hsz; in_app|done..| |].
  { destruct HP as (_ & _ & _ & Ht & _). rewrite Hbl !total_app /= in Ht. unfold t, page_base. lia. }
  set (bp := page_base P + total A + total pre).
  assert (Hat : merged_at bp sp al = page_base P + total A).
  { unfold merged_at, bp. rewrite Hpe. destruct al; simpl; lia. }
  assert (Hms : merged_size s sp sn fl al = total pre + s + total post).
  { unfold merged_size. rewrite Hpe Hpoe. destruct al, (_ =? _); simpl; lia. }
  assert (HF : frees (page_base P + total A) (pre ++ (s, true) :: post) ++ F ≡ₚ merged_in bp s sp sn fl al F).
  { unfold merged_in. rewrite frees_app /=. replace (page_base P + total A + total pre + s) with (bp + s) by done.
    replace (frees (bp + s) post) with (if Z.land fl 1 =? 0 then [(bp + s, sn)] else []) by (rewrite Hpoe; by case_match).
    replace (frees _ pre) with (if al then [] else [(bp - sp, sp)]); [solve_Permutation|].
    rewrite -Hat /merged_at Hpe. by destruct al. }
  rewrite HF -Hat -Hms. iApply (wp_coalesce _ F bp s sp sn fl al with "[-]"); try done; [lia|].
  replace (bp + s) with (page_base P + t) by (unfold bp, t; lia). iFrame "HF Hl Hp Hn". iIntros "HF Hb Hp Hn".
  iDestruct ("Hpc" with "Hp") as "[Hfi HbA]". iDestruct ("Hnc" with "Hn") as "[Hta HbB]".
  iApply ("HΦ" with "HF Hb Hfi HbA Hta HbB").
Qed.

Lemma free_nb_lives bp l : free_nb l → lives bp l = [].
Proof. by intros [->|[s ->]]. Qed.
Lemma mid_bsz P A mid B :
  page_ok P → ap_blocks P = A ++ mid ++ B → (∃ x, x ∈ mid) → bsz (total mid).
Proof.
  intros HP HB [[s al] Hx]. pose proof (block_le P mid _ HP Hx ltac:(by exists A, B)) as Hle.
  destruct HP as (_ & _ & Hf & Ht & Hb & _). rewrite HB in Ht Hb. rewrite !total_app in Ht.
  assert (Hm : ∀ y, y ∈ mid → bsz y.1) by (intros y Hy; apply Hb; in_app).
  assert (0 ≤ total A) by (apply total_nonneg; intros y Hy; apply Hb; in_app).
  assert (0 ≤ total B) by (apply total_nonneg; intros y Hy; apply Hb; in_app).
  assert (48 ≤ total mid).
  { apply list_elem_of_split in Hx as (l1 & l2 & ->). rewrite total_app /=.
    assert (0 ≤ total l1) by (apply total_nonneg; intros y Hy; apply Hm; in_app).
    assert (0 ≤ total l2) by (apply total_nonneg; intros y Hy; apply Hm; in_app).
    destruct (Hm (s, al)) as [_ ?]; [in_app|]. simpl in *. lia. }
  split; [split; [destruct Hf; lia|by apply total_div]|done].
Qed.

(** The reads and writes of [gfs_mem_free] before it coalesces. *)
Lemma wp_free_head bp s n (K : unit → hprop) :
  bsz s → 0 < bp →
  blk pool bp s true ∗ junk (bp + 8) (nw s - 3) ∗ fields pool n ∗
    (loose bp s -∗ fields pool n -∗ wp (gfs_mem_coalesce pool bp;; mret tt) K) ⊢
  wp (gfs_mem_free allsize (bp + 8)) K.
Proof.
  iIntros (Hs Hbp) "([[Ht1 Ht2] Hp] & Hj & (Hf1 & Hf2 & Hf3 & Hf4) & HK)". unfold gfs_mem_free.
  rewrite bool_decide_false; [|lia]. replace (bp + 8 - WSIZE) with bp by (unfold WSIZE; lia).
  iApply wp_bind. iApply (wp_ldw with "[-]"). iFrame "Hp". iIntros "Hp".
  wstep wp_GET_SIZE "Ht1". wstep wp_add_word "Hf2". wstep wp_add_word "Hf3".
  iApply wp_bind. iApply (wp_GET_LARGE with "[-]"); last (iFrame "Ht1"; iIntros "Ht1"); [wside|].
  change (Z.land 1 4 =? 0) with true. cbn [negb].
  wstep wp_GET "Ht1". wstep wp_FTRP "Ht1". wstep wp_GET "Ht2". rewrite Z.eqb_refl. cbn [negb].
  iDestruct (tag_word with "Ht1") as "Ht1". iDestruct (tag_word with "Ht2") as "Ht2".
  iApply wp_bind. iApply (wp_put_tags _ s 0 with "[-]"); [apply Hs|done|]. iFrame "Ht1 Ht2". iIntros "Ht".
  iApply ("HK" with "[Ht Hp Hj] [$Hf1 $Hf2 $Hf3 $Hf4]"). iFrame "Ht".
  destruct (bsz_ex _ Hs) as (k & -> & Hk). rewrite nw_mul; [|lia].
  replace (Z.to_nat k - 2)%nat with (1 + (Z.to_nat k - 3))%nat by lia. rewrite junk_add junk_one.
  change (8 * Z.of_nat 1) with 8. iFrame "Hj". by iExists _.
Qed.

Lemma wp_free_small ps lg n r k (Φ' : unit → hprop) :
  (r, k) ∈ plives ps →
  pool_inv pool ps lg n ∗ junk r k ∗
    (∀ ps', ⌜plives ps ≡ₚ (r, k) :: plives ps'⌝ -∗ pool_inv pool ps' lg n -∗ Φ' tt) ⊢
  wp (gfs_mem_free allsize r) Φ'.
Proof.
  iIntros (Hr) "(Hinv & Hj & HΦ)". iAssert ⌜∀ P, P ∈ ps → page_ok P⌝%I as %Hok.
  { iDestruct "Hinv" as "([%Hok _] & _)". done. }
  apply pages_split in Hr as (ps1 & P & ps2 & -> & Hr).
  assert (HP : page_ok P) by (apply Hok; in_app).
  apply lives_elem in Hr as (bs1 & s & bs2 & Hbl & -> & ->).
  assert (Hs : bsz s) by (destruct HP as (_ & _ & _ & _ & Hb & _); apply (Hb (s, true)); rewrite Hbl; in_app).
  destruct (page_addr P _ _ HP Hbl) as [Hpos _].
  destruct (split_neighbours bs1 s bs2) as (A & pre & post & B & -> & -> & Hpre & Hpost & HA & HcA & HcB).
  { rewrite -Hbl. apply HP. }
  assert (Hbl' : ap_blocks P = A ++ (pre ++ (s, true) :: post) ++ B) by (rewrite Hbl -!app_assoc; done).
  iDestruct (pool_inv_focus _ _ _ A (pre ++ (s, true) :: post) B with "Hinv")
    as "(_ & (Hfr1 & Hfr2 & Hfr3 & Hfr4) & HbA & Hmid & HbB & HF & Hf & Hclose)"; [done|].
  rewrite total_app in Hpos |- *. iEval (rewrite blks_app /=) in "Hmid". iDestruct "Hmid" as "(Hpr & Hb & Hpo)".
  rewrite Z.add_assoc in Hpos |- *. iApply (wp_free_head with "[-]"); [done..|]. iFrame "Hb Hj Hf". iIntros "Hl Hf".
  set (mid := pre ++ (s, true) :: post). assert (Hmid : total mid = total pre + s + total post).
  { unfold mid. rewrite total_app /=. lia. }
  replace (page_base P + total A + total mid) with (page_base P + total A + total pre + s + total post) by lia.
  iApply wp_bind. iApply (wp_coalesce_mid P A pre s post B with "[-]"); [done..|].
  iFrame "HF Hpr Hl Hpo Hfr2 HbA Hfr3 HbB". iIntros "HF Hb Hfr2 HbA Hfr3 HbB" (_). iApply wp_ret.
  rewrite -Hmid. iApply ("HΦ" $! (ps1 ++ with_blocks P (A ++ [(total mid, false)] ++ B) :: ps2) with "[]").
  - iPureIntro. rewrite -{1}(with_blocks_id P) Hbl' !plives_focus. fold mid.
    replace (total [(total mid, false)]) with (total mid) by (simpl; lia).
    rewrite {1}/mid lives_app /= !free_nb_lives //.
  - iApply ("Hclose" with "[] [$Hfr1 $Hfr2 $Hfr3 $Hfr4] HbA [Hb] HbB [HF] Hf").
    + iPureIntro. split; [simpl; lia|split].
      * intros x ->%list_elem_of_singleton. apply (mid_bsz P A mid B); [done..|]. exists (s, true). unfold mid. in_app.
      * apply coal_app. split; [done|]. rewrite HA. by split.
    + simpl. by rewrite right_id.
    + done.
Qed.

Lemma wp_free_internal p n (Φ' : unit → hprop) :
  0 < p → 0 < n → sys_block p n ∗ word allsize ∗ (word allsize -∗ Φ' tt) ⊢
  wp (gfs_mem_free_internal allsize p n) Φ'.
Proof.
  iIntros (Hp Hn) "(Hb & Ha & HΦ)". unfold gfs_mem_free_internal. rewrite bool_decide_false; [|lia].
  destruct (Z.eqb_spec n 0); [lia|]. cbn [orb]. wstep wp_add_word "Ha". iApply (wp_free with "[-]"). iFrame "Hb".
  by iApply "HΦ".
Qed.

(** The words of a large block, given back to the library. *)
Lemma large_sys_block p s :
  large_ok (p, s) → large_rep pool (p, s) ∗ junk (p + 48) (nw s - 6) ∗ word p ∗ word (p + 8) ⊢ sys_block p s.
Proof.
  intros (_ & _ & Hs & Hlt). iIntros "(($ & Hw3 & Hw4 & Hw5 & Hw6) & Hj & Hw1 & Hw2)". simpl in *.
  rewrite large_words // (tag_word (p + 32)) !word_intro. iFrame.
Qed.

Lemma wp_free_large ps lg n r k (Φ' : unit → hprop) :
  (r, k) ∈ llives lg →
  pool_inv pool ps lg n ∗ junk r k ∗ word allsize ∗
    (∀ lg', ⌜llives lg ≡ₚ (r, k) :: llives lg'⌝ -∗ pool_inv pool ps lg' n -∗ word allsize -∗ Φ' tt) ⊢
  wp (gfs_mem_free allsize r) Φ'.
Proof.
  intros ([p s] & [= -> ->] & Hin)%list_elem_of_fmap. apply list_elem_of_split in Hin as (g1 & g2 & ->).
  iIntros "(([%Hok (%Hpool & %Hlg & %Hn)] & Hps & HF & Hpr & Hlr & Hl & (Hf1 & Hf2 & Hf3 & Hf4)) & Hj & Ha & HΦ)".
  assert (Hlok : large_ok (p, s)) by (apply Hlg; in_app). destruct (Hlok) as (Hp & _ & Hs & Hlt). simpl in *.
  rewrite big_sepL_app big_sepL_cons fmap_app fmap_cons /=. iDestruct "Hl" as "(Hl1 & (Hsys & Had & Hsz & Ht & Hpo) & Hl2)". simpl.
  unfold gfs_mem_free. rewrite bool_decide_false; [|lia]. replace (p + 48 - WSIZE) with (p + 40) by (unfold WSIZE; lia).
  wstep wp_ldw "Hpo". replace (HDRP (p + 40)) with (p + 32) by (unfold HDRP, WSIZE; lia).
  iApply wp_bind. iApply (wp_GET_SIZE _ s 5 with "[-]"); [done|done|]. iFrame "Ht". iIntros "Ht".
  wstep wp_add_word "Hf2". wstep wp_add_word "Hf3".
  iApply wp_bind. iApply (wp_GET_LARGE _ s 5 with "[-]"); [done|]. iFrame "Ht". iIntros "Ht".
  change (Z.land 5 4 =? 0) with false. cbn [negb].
  replace (p + 40 - WSIZE - sizeof_large) with p by (unfold WSIZE, sizeof_large; lia).
  iApply wp_bind. iApply (wp_mremove with "[-]"). iFrame "Hlr". iIntros "Hlr Hw1 Hw2".
  wstep wp_ldw "Had". iApply (wp_free_internal with "[-]"); [done|lia|]. iFrame "Ha".
  iSplitL "Hsys Had Hsz Ht Hpo Hj Hw1 Hw2"; [iApply large_sys_block; [done|]; iFrame|].
  iIntros "Ha". iApply ("HΦ" $! (g1 ++ g2) with "[] [-Ha] Ha").
  - iPureIntro. rewrite /llives !fmap_app fmap_cons /=. solve_Permutation.
  - rewrite /pool_inv fmap_app big_sepL_app. iFrame. iPureIntro. split; [done|split; [done|split; [|done]]].
    intros x Hx. apply Hlg. rewrite elem_of_app elem_of_cons. apply elem_of_app in Hx. tauto.
Qed.

(** ** Both operations as a whole *)

Lemma mem_pool_pos L : mem_pool pool L ⊢ ⌜0 < pool⌝.
Proof.
  iIntros "(%ps & %lg & %n & ([%Hok (%Hp & _)] & _) & _)". iPureIntro.
  destruct Hp as (ps0 & P & -> & <- & _). destruct (Hok P) as [? _]; [in_app|]. lia.
Qed.

Lemma malloc_run L size :
  0 < size → size + 55 < 2 ^ 32 →
  mem_pool pool L ∗ word allsize ⊢ wp (gfs_mem_malloc allsize pool size) (got L size).
Proof.
  iIntros (Hlo Hhi) "[HP Ha]". iAssert ⌜0 < pool⌝%I as %Hpool.
  { by iApply (mem_pool_pos with "HP"). }
  destruct (Z.le_gt_cases size 3072) as [Hs|Hs]; [iApply (wp_malloc_small with "[$HP $Ha]"); lia|].
  unfold gfs_mem_malloc. rewrite bool_decide_false; [|lia]. destruct (Z.eqb_spec size 0); [lia|].
  rewrite (proj2 (Z.ltb_lt DSIZE size)); [|unfold DSIZE; lia].
  rewrite (proj2 (Z.ltb_lt MIN_LARGE_SIZE size)); [|unfold MIN_LARGE_SIZE; lia].
  iApply (wp_malloc_large with "[$HP $Ha]"); lia.
Qed.

Lemma free_run L r k :
  mem_pool pool ((r, k) :: L) ∗ junk r k ∗ word allsize ⊢
  wp (gfs_mem_free allsize r) (λ _, mem_pool pool L ∗ word allsize)%I.
Proof.
  iIntros "((%ps & %lg & %n & Hinv & %HL) & Hj & Ha)".
  assert (Hr : (r, k) ∈ plives ps ++ llives lg) by (rewrite -HL; by left).
  apply elem_of_app in Hr as [Hr|Hr].
  - iApply (wp_free_small with "[$Hinv $Hj Ha]"); [done|]. iIntros (ps' Hps') "Hinv". iFrame "Ha".
    iExists ps', lg, n. iFrame "Hinv". iPureIntro. apply (Permutation_cons_inv (a := (r, k))). by rewrite HL Hps'.
  - iApply (wp_free_large with "[$Hinv $Hj $Ha]"); [done|]. iIntros (lg' Hlg') "Hinv $".
    iExists ps, lg', n. iFrame "Hinv". iPureIntro. apply (Permutation_cons_inv (a := (r, k))).
    rewrite HL Hlg'. solve_Permutation.
Qed.
End spec.

(** C22: [gfs_mem_malloc] on a pool with the allocations [L], for a size that
    does not overflow when it is rounded up, returns an aligned pointer to as many
    bytes as were asked for.  They belong to the caller alone: the pool, its other
    allocations and everything else in memory are apart from them, and the pool's
    invariant holds.  No access is outside a block, no tag is found corrupt, all
    loops end. *)
Theorem gfs_mem_malloc_correct `{!Libc} allsize pool L size :
  0 < size → size + 55 < 2 ^ 32 →
  triple (mem_pool pool L ∗ word allsize)%I (gfs_mem_malloc allsize pool size) (got pool allsize L size).
Proof. apply malloc_run. Qed.

