(* ===== verification/MemLife.v ===== *)
(** The life of a pool: [gfs_mem_pool_create], [gfs_mem_pool_reset] and
    [gfs_mem_pool_destory], the last two with the blocks they free. *)
From iris.proofmode Require Import proofmode.
From S2P Require Import Prelude Store HeapLogic Mem MemRep MemBlocks MemPool MemSpec.

(** ** The rings of a new pool *)

(** The rings of the free blocks from the [k]-th on, all empty. *)
Definition empty_rings (pool : Z) (n : nat) : hprop :=
  ([∗ list] j ↦ L ∈ replicate n ([] : list (Z * Z)), mring (pool_block pool (8 - Z.of_nat n + Z.of_nat j)) L.*1)%I.

Lemma wp_init_blocks n pool (Φ : unit → hprop) :
  junk (pool_block pool (8 - Z.of_nat n)) (2 * n) ∗ (empty_rings pool n -∗ Φ tt) ⊢ wp (init_blocks n pool) Φ.
Proof.
  revert Φ. induction n as [|n IH]=> Φ; iIntros "[Hj HΦ]"; cbn [init_blocks].
  - iApply wp_ret. iApply "HΦ". done.
  - replace (2 * S n)%nat with (1 + (1 + 2 * n))%nat by lia.
    rewrite (junk_add _ 1 (1 + 2 * n)) (junk_add _ 1 (2 * n)) !junk_one.
    change (8 * Z.of_nat 1) with 8. iDestruct "Hj" as "(H1 & H2 & Hj)".
    iApply wp_bind. iApply (wp_mqueue_init with "[-]"). iFrame "H1 H2". iIntros "Hr".
    iApply (IH with "[-]"). replace (pool_block pool (8 - Z.of_nat n)) with (pool_block pool (8 - Z.of_nat (S n)) + 8 + 8)
      by (unfold pool_block; lia).
    iSplitL "Hj"; [iExact "Hj"|]. iIntros "Hrs". iApply "HΦ". unfold empty_rings. simpl.
    rewrite Z.add_0_r. iFrame "Hr". iApply (big_sepL_impl with "Hrs"). iIntros "!>" (j L _) "Hr".
    by replace (8 - Z.of_nat (S n) + Z.of_nat (S j)) with (8 - Z.of_nat n + Z.of_nat j) by lia.
Qed.
Lemma empty_rings_flist pool : empty_rings pool 8 ⊢ flist pool [].
Proof.
  iIntros "H". iExists (replicate 8 []). iSplit; [iPureIntro|done]. split; [split; [done|]|done].
  intros i L x HL%lookup_replicate_1 Hx. destruct HL as [-> _]. by apply elem_of_nil in Hx.
Qed.

(** ** The first page *)

(** Offsets from [p] in normal form. *)
Ltac offsets p :=
  repeat match goal with
  | |- context [p + ?a + ?b] => let c := eval vm_compute in (a + b) in replace (p + a + b) with (p + c) by lia
  | |- context [p + ?a - ?b] => let c := eval vm_compute in (a - b) in replace (p + a - b) with (p + c) by lia
  end.

(** The words of the page that holds the pool, and those of the pool. *)
Lemma first_page_words p :
  junk p 512 ⊣⊢ word p ∗ word (p + 16 - 8) ∗ word (p + 16) ∗ word (p + 24) ∗ word (p + 32) ∗ word (p + 40) ∗
    junk (p + 48) 28 ∗ word (p + 272) ∗ word (p + 288 - 8) ∗ junk (p + 288) (nw 3808 - 2) ∗
    word (p + 288 + 3808 - 16) ∗ word (p + 4096 - 8).
Proof.
  change 512%nat with (1 + (1 + (1 + (1 + (1 + (1 + (28 + (1 + (1 + ((nw 3808 - 2) + (1 + 1)))))))))))%nat.
  rewrite !junk_add !junk_one. change (8 * Z.of_nat 1) with 8. change (8 * Z.of_nat (nw 3808 - 2)) with 3792.
  change (8 * Z.of_nat 28) with 224.
  offsets p. done.
Qed.
Lemma pool_words pool :
  junk pool 28 ⊣⊢ word (pool_page pool) ∗ word (pool_page pool + 8) ∗ junk (pool + 16) 2 ∗ junk (pool_block pool 0) 16 ∗
    word (pool_large pool) ∗ word (pool_large pool + 8) ∗ junk (pool + 176) 2 ∗ word (pool_size pool) ∗
    word (pool_used pool) ∗ word (pool_msize pool) ∗ word (pool_init_pages pool).
Proof.
  change 28%nat with (1 + (1 + (2 + (16 + (1 + (1 + (2 + (1 + (1 + (1 + 1))))))))))%nat.
  rewrite !junk_add !junk_one. change (8 * Z.of_nat 1) with 8. change (8 * Z.of_nat 2) with 16.
  change (8 * Z.of_nat 16) with 128. unfold pool_block, pool_page, pool_large, pool_size, pool_used, pool_msize, pool_init_pages.
  offsets pool. done.
Qed.

Section create.
Context (allsize : Z) `{!Libc}.

Definition first_page (p : Z) : apage := APage p true 272 [(3808, false)].

Lemma bsz_272 : bsz 272.
Proof. split; [split; [lia|by exists 34]|lia]. Qed.
Lemma bsz_3808 : bsz 3808.
Proof. split; [split; [lia|by exists 476]|lia]. Qed.

(** What the first part of [gfs_mem_pool_create] leaves behind. *)
Lemma first_page_inv p n :
  0 < p → (16 | p) → 1 ≤ n < 2 ^ 32 →
  tag p 3 ∗ tags (p + 16) 272 1 ∗ tag (p + 4096 - 8) 3 ∗ sys p 4096 ∗ page_start (p + 16) ↦ p ∗
    page_end (p + 16) ↦ (p + 4096) ∗ flist (p + 48) [(p + 288, 3808)] ∗ blk (p + 48) (p + 288) 3808 false ∗
    mring (pool_page (p + 48)) [p + 16] ∗ mring (pool_large (p + 48)) [] ∗ fields (p + 48) n ⊢
  pool_inv (p + 48) [first_page p] [] n.
Proof.
  iIntros (Hp Hd Hn) "(H1 & H2 & H3 & H4 & H5 & H6 & HF & Hb & Hpr & Hlr & Hf)". iSplit.
  - iPureIntro. split_and!; [| |by intros x ?%elem_of_nil|lia..].
    + intros P ->%list_elem_of_singleton. split_and!; simpl; try done.
      * etrans; [|exact Hd]. by exists 2.
      * by right.
      * intros x ->%list_elem_of_singleton. apply bsz_3808.
    + exists [], (first_page p). split_and!; try done. by intros Q ?%elem_of_nil.
  - unfold pfrees. simpl. unfold page_rep, page_frame, page_base. simpl.
    replace (p + 16 + 272) with (p + 288) by lia. change (page_bp (first_page p)) with (p + 16).
    rewrite !right_id. change (0 + page_flag (first_page p)) with 3.
    iSplitL "H1 H2 H3 H4 H5 H6 Hb"; [iSplitR "Hb"; [|done]; iFrame "H1 H2 H3 H4 H5 H6"|].
    iSplitL "HF"; [done|]. iSplitL "Hpr"; [done|]. iFrame "Hlr Hf".
Qed.

(** The rings and the first free block; [m] is the rest of the function. *)
Lemma wp_create_rings pool p (m : MM Z) Φ :
  word (pool_large pool) ∗ word (pool_large pool + 8) ∗ word (pool_page pool) ∗ word (pool_page pool + 8) ∗
  word (p + 16) ∗ word (p + 16 + 8) ∗ junk (pool_block pool 0) 16 ∗ tag (p + 16 - 8) (272 + 1) ∗
  word (p + 288 - 8) ∗ word (p + 288 + 3808 - 16) ∗ junk (p + 288) (nw 3808 - 2) ∗
    (mring (pool_large pool) [] -∗ mring (pool_page pool) [p + 16] -∗ tag (p + 16 - 8) (272 + 1) -∗
     flist pool [(p + 288, 3808)] -∗ blk pool (p + 288) 3808 false -∗ wp m Φ) ⊢
  wp (gfs_mem_queue_init (pool_large pool);;
      gfs_mem_queue_init (pool_page pool);;
      gfs_mem_queue_insert_tail (pool_page pool) (p + 16);;
      init_blocks 8 pool;;
      bp ← NEXT_BLKP (p + 16);
      put_tags bp (PACK 3808 UNALLOCATED);;
      gfs_mem_queue_insert_head (pool_block pool (gfs_mem_getindex 3808)) bp;;
      m) Φ.
Proof.
  iIntros "(Hl1 & Hl2 & Hp1 & Hp2 & Hn1 & Hn2 & Hb & Ht & Hw1 & Hw2 & Hj & Hm)".
  iApply wp_bind. iApply (wp_mqueue_init with "[-]"). iFrame "Hl1 Hl2". iIntros "Hlr".
  iApply wp_bind. iApply (wp_mqueue_init with "[-]"). iFrame "Hp1 Hp2". iIntros "Hpr".
  iApply wp_bind. iApply (wp_minsert_tail with "[-]"). iFrame "Hpr Hn1 Hn2". iIntros "Hpr". simpl ([] ++ _).
  iApply wp_bind. iApply (wp_init_blocks with "[-]"). iSplitL "Hb"; [iExact "Hb"|]. iIntros "HF".
  iDestruct (empty_rings_flist with "HF") as "HF".
  iApply wp_bind. iApply (wp_NEXT_BLKP _ 272 1 with "[-]"); [apply bsz_272|done|]. iFrame "Ht". iIntros "Ht".
  replace (p + 16 + 272) with (p + 288) by lia.
  iApply wp_bind. iApply (wp_put_tags _ 3808 0 with "[-]"); [apply bsz_3808|done|]. iFrame "Hw1 Hw2". iIntros "Hts".
  iApply wp_bind. iApply (wp_insert_loose _ _ _ 3808 with "[-]"); [apply bsz_3808|]. iFrame "HF Hts Hj".
  iIntros "HF Hblk". iApply ("Hm" with "Hlr Hpr Ht HF Hblk").
Qed.

Lemma create_run pages :
  1 ≤ pages < 2 ^ 32 →
  word allsize ⊢ wp (gfs_mem_pool_create allsize pages) (λ pool, mem_pool pool [] ∗ word allsize)%I.
Proof.
  iIntros (Hn) "Ha". unfold gfs_mem_pool_create. destruct (Z.eqb_spec pages 0); [lia|].
  iApply wp_bind. iApply (wp_malloc_internal with "[-]"). iFrame "Ha". iIntros (p [Hp Hd]) "[Hsys Hj] Ha".
  iDestruct (first_page_words with "Hj") as "(Hw1 & Hw2 & Hn1 & Hn2 & Hs1 & Hs2 & Hpool & Hw3 & Hw4 & Hj & Hw5 & Hw6)".
  iDestruct (pool_words with "Hpool") as "(Hp1 & Hp2 & Hf5 & Hb & Hl1 & Hl2 & Hf6 & Hf1 & Hf2 & Hf3 & Hf4)".
  iApply wp_bind. iApply (wp_PUT with "[-]"). iFrame "Hw1". iIntros "Hw1".
  iApply wp_bind. iApply (wp_PUT with "[-]"). iFrame "Hw6". iIntros "Hw6".
  cbv zeta. change (sizeof_page + sizeof_pool + DSIZE) with 272. change (PAGESIZE - 272 - DSIZE) with 3808.
  change DSIZE with 16. change sizeof_page with 32.
  replace (p + 272) with (p + 16 + 272 - 16) by lia.
  iApply wp_bind. iApply (wp_put_tags _ 272 1 with "[-]"); [apply bsz_272|done|]. iFrame "Hw2 Hw3". iIntros "[Ht1 Ht2]".
  replace (p + 16 + 32) with (p + 48) by lia.
  replace (p + 32) with (page_start (p + 16)) by (unfold page_start; lia).
  replace (p + 40) with (page_end (p + 16)) by (unfold page_end; lia).
  wstep wp_word "Hs1". wstep wp_word "Hs2". wstep wp_word "Hf1".
  replace (p + WSIZE) with (p + 16 - 8) by (unfold WSIZE; lia).
  iApply wp_bind. iApply (wp_GET_SIZE _ 272 1 with "[-]"); [apply bsz_272|done|]. iFrame "Ht1". iIntros "Ht1".
  wstep wp_word "Hf2". wstep wp_word "Hf3". wstep wp_word "Hf4".
  replace (p + 24) with (p + 16 + 8) by lia. iApply (wp_create_rings with "[-]").
  iFrame "Hl1 Hl2 Hp1 Hp2 Hn1 Hn2 Hb Ht1 Hw4 Hw5 Hj". iIntros "Hlr Hpr Ht1 HF Hblk".
  iDestruct (first_page_inv p pages with "[Hw1 Ht1 Ht2 Hw6 Hsys Hs1 Hs2 HF Hblk Hpr Hlr Hf1 Hf2 Hf3 Hf4 Hf5 Hf6]") as "Hinv"; [done..| |].
  { change (u32 (PACK 0 (Z.lor ALLOCATED INITIAL))) with 3. iSplitL "Hw1"; [done|].
    iSplitL "Ht1 Ht2"; [by iSplitL "Ht1"|]. iSplitL "Hw6"; [done|]. iSplitL "Hsys"; [done|].
    iSplitL "Hs1"; [done|]. iSplitL "Hs2"; [done|]. iSplitL "HF"; [done|]. iSplitL "Hblk"; [done|].
    iSplitL "Hpr"; [done|]. iSplitL "Hlr"; [done|]. rewrite /fields (word_intro (pool_size _)) (word_intro (pool_used _)) (word_intro (pool_msize _)).
    iFrame "Hf1 Hf2 Hf3 Hf4 Hf5 Hf6". }
  iApply wp_bind. iApply (wp_add_pages with "[-]"). iFrame "Hinv Ha". iIntros (news [_ Hnew]) "Hinv Ha".
  iApply wp_ret. iFrame "Ha". iExists _, _, _. iFrame "Hinv". iPureIntro.
  by rewrite (new_pages_lives true).
Qed.
End create.

(** [gfs_mem_pool_create] for at least one page returns a pool without
    allocations whose invariant holds; for every number of pages its loop ends.
    Without memory the program leaves. *)
Theorem gfs_mem_pool_create_correct `{!Libc} allsize pages :
  1 ≤ pages < 2 ^ 32 →
  triple (word allsize) (gfs_mem_pool_create allsize pages) (λ pool, mem_pool pool [] ∗ word allsize)%I.
Proof. apply create_run. Qed.

(** The end of a pool: [gfs_mem_pool_reset] and [gfs_mem_pool_destory]. *)
(** ** What the words of a pool are *)

(** The two words of a node of a list. *)
Definition node (x : Z) : hprop := (word x ∗ word (x + 8))%I.

Lemma mseg_nodes a l z : mseg a l z ⊢ word a ∗ word (z + 8) ∗ [∗ list] x ∈ l, node x.
Proof.
  revert a. induction l as [|x l IH]=> a; simpl; iIntros "H".
  - iDestruct "H" as "[H1 H2]". rewrite !word_intro. by iFrame.
  - iDestruct "H" as "[[H1 H2] H]". iDestruct (IH with "H") as "(H & $ & $)". rewrite !word_intro. iFrame.
Qed.
Lemma mring_nodes h l : mring h l ⊢ node h ∗ [∗ list] x ∈ l, node x.
Proof. unfold mring. rewrite mseg_nodes. iIntros "($ & $ & $)". Qed.

Lemma junk_node p k : junk p (S (S k)) ⊣⊢ node p ∗ junk (p + 16) k.
Proof.
  rewrite (junk_add p 1 (S k)) (junk_add _ 1 k) !junk_one. change (8 * Z.of_nat 1) with 8.
  rewrite -Z.add_assoc. change (8 + 8) with 16. by rewrite /node assoc.
Qed.

Lemma rings_nodes pool Ls o :
  ([∗ list] i ↦ L ∈ Ls, mring (pool_block pool (o + Z.of_nat i)) (L : list (Z * Z)).*1) ⊢
  junk (pool_block pool o) (2 * length Ls) ∗ [∗ list] x ∈ concat Ls, node x.1.
Proof.
  revert o. induction Ls as [|L Ls IH]=> o; [iIntros "_"; simpl; by iSplit|].
  rewrite big_sepL_cons Z.add_0_r mring_nodes big_sepL_fmap. cbn [concat length].
  iIntros "[[H1 H2] H]". rewrite big_sepL_app. iFrame "H2".
  replace (2 * S (length Ls))%nat with (S (S (2 * length Ls))) by lia. rewrite junk_node. iFrame "H1".
  replace (pool_block pool o + 16) with (pool_block pool (o + 1)) by (unfold pool_block; lia).
  iApply IH. iApply (big_sepL_impl with "H"). iIntros "!>" (i L' _) "H".
  by replace (o + Z.of_nat (S i)) with (o + 1 + Z.of_nat i) by lia.
Qed.
Lemma flist_nodes pool F : flist pool F ⊢ junk (pool_block pool 0) 16 ∗ [∗ list] x ∈ F, node x.1.
Proof.
  iIntros "(%Ls & [[%Hlen _] %HF] & H)". iDestruct (rings_nodes pool Ls 0 with "H") as "[H1 H2]".
  rewrite Hlen HF. by iFrame.
Qed.

(** ** A page without its blocks *)

(** [s] bytes of blocks from [bp], as words. *)
Definition raw (bp s : Z) : hprop := (word (bp - 8) ∗ junk bp (nw s - 2) ∗ word (bp + s - 16))%I.

Lemma raw_join bp s t : bsz s → bsz t → raw bp s ∗ raw (bp + s) t ⊢ raw bp (s + t).
Proof.
  iIntros (Hs Ht) "[($ & H1 & H2) (H3 & H4 & H5)]". rewrite Z.add_assoc inside_cut //. iFrame.
Qed.

Definition live_junk (L : list (Z * nat)) : hprop := ([∗ list] x ∈ L, junk x.1 x.2)%I.

Lemma blk_raw pool bp s :
  bsz s → (blk pool bp s false ∗ node bp ⊢ raw bp s) ∧ (blk pool bp s true ∗ junk (bp + 8) (nw s - 3) ⊢ raw bp s).
Proof.
  intros Hs. unfold blk, raw. split.
  - rewrite inside_split // tags_word1. iIntros "[[[$ $] $] [$ $]]".
  - rewrite tags_word1. destruct (bsz_ex _ Hs) as (k & -> & Hk). rewrite nw_mul; [|lia].
    replace (Z.to_nat k - 2)%nat with (1 + (Z.to_nat k - 3))%nat by lia. rewrite junk_add junk_one word_intro.
    iIntros "[[[$ $] $] $]".
Qed.
Lemma blks_raw pool bp bs :
  bs ≠ [] → (∀ x, x ∈ bs → bsz x.1) → total bs ≤ 4080 →
  blks pool bp bs ∗ ([∗ list] x ∈ frees bp bs, node x.1) ∗ live_junk (lives bp bs) ⊢ raw bp (total bs).
Proof.
  revert bp. induction bs as [|[s al] bs IH]=> bp Hne Hb Ht; [done|]. cbn [blks frees lives total] in Ht |- *.
  assert (Hs : bsz s) by (apply (Hb (s, al)); by left). destruct (blk_raw pool bp s Hs) as [Hf Hl].
  unfold live_junk in *. rewrite !big_sepL_app.
  iIntros "([Hblk H] & [Hf1 Hf2] & [Hl1 Hl2])".
  iAssert (raw bp s) with "[Hblk Hf1 Hl1]" as "Hr".
  { destruct al; simpl; [iDestruct "Hl1" as "[Hl1 _]"; by iApply (Hl with "[$Hblk $Hl1]")|].
    iDestruct "Hf1" as "[Hf1 _]". by iApply (Hf with "[$Hblk $Hf1]"). }
  destruct (decide (bs = [])) as [->|Hne'].
  - by rewrite Z.add_0_r.
  - assert (Hb' : ∀ x, x ∈ bs → bsz x.1) by (intros x Hx; apply Hb; by right).
    destruct Hs as [[Hs0 Hs8] Hs48].
    iDestruct (IH with "[$H $Hf2 $Hl2]") as "H"; [done..|lia|]. iApply (raw_join with "[$Hr $H]"); [done|].
    destruct bs as [|[t al'] bs]; [done|]. split; [split|].
    + split; [apply total_nonneg; done|lia].
    + by apply total_div.
    + simpl. destruct (Hb' (t, al')) as [_ Ht48]; [by left|]. simpl in *.
      assert (0 ≤ total bs) by (apply total_nonneg; intros x Hx; apply Hb'; by right). lia.
Qed.

(** The first conjunct of the goal is the hypothesis [H]. *)
Ltac give Hs := iSplitL Hs; [iExact Hs|].

(** What a page is once its blocks are given up. *)
Definition page_raw (P : apage) : hprop := (page_frame P ∗ raw (page_base P) (4080 - ap_first P))%I.

Lemma page_total P : page_ok P → total (ap_blocks P) = 4080 - ap_first P ∧ ap_blocks P ≠ [] ∧ bsz (4080 - ap_first P).
Proof.
  intros (_ & _ & Hf & Ht & _). split; [lia|split].
  - intros Hn. rewrite Hn in Ht. simpl in Ht. destruct Hf; lia.
  - destruct Hf as [-> | ->]; [apply bsz_4032|apply bsz_3808].
Qed.
Lemma pages_raw pool ps :
  (∀ P, P ∈ ps → page_ok P) →
  ([∗ list] P ∈ ps, page_rep pool P) ∗ ([∗ list] x ∈ pfrees ps, node x.1) ∗ live_junk (plives ps) ⊢
  [∗ list] P ∈ ps, page_raw P.
Proof.
  induction ps as [|P ps IH]=> Hok; [by iIntros "_"|]. unfold pfrees, plives, live_junk. rewrite !bind_cons !big_sepL_app !big_sepL_cons.
  iIntros "([[$ Hb] H] & [Hf1 Hf2] & [Hl1 Hl2])". assert (HP : page_ok P) by (apply Hok; by left).
  destruct (page_total P HP) as (Ht & Hne & Hb).
  assert (0 < ap_first P) by (destruct HP as (_ & _ & [-> | ->] & _); lia). iSplitL "Hb Hf1 Hl1".
  - rewrite -Ht. iApply blks_raw; [done| |lia|by iFrame "Hb Hf1 Hl1"]. apply HP.
  - iApply IH; [intros Q HQ; apply Hok; by right|]. iSplitL "H"; [done|]. by iSplitL "Hf2".
Qed.

(** The words of a page that is given back to the library. *)
Lemma later_page_words p :
  junk p 512 ⊣⊢ word p ∗ word (p + 16 - 8) ∗ word (p + 16) ∗ word (p + 24) ∗ word (p + 32) ∗ word (p + 40) ∗
    word (p + 48) ∗ word (p + 64 - 8) ∗ junk (p + 64) (nw 4032 - 2) ∗ word (p + 64 + 4032 - 16) ∗ word (p + 4096 - 8).
Proof.
  change 512%nat with (1 + (1 + (1 + (1 + (1 + (1 + (1 + (1 + ((nw 4032 - 2) + (1 + 1))))))))))%nat.
  rewrite !junk_add !junk_one. change (8 * Z.of_nat 1) with 8. change (8 * Z.of_nat (nw 4032 - 2)) with 4016.
  offsets p. done.
Qed.
Lemma page_frame_words P :
  page_frame P ⊢ sys (ap_start P) 4096 ∗ word (ap_start P) ∗ word (ap_start P + 16 - 8) ∗ word (ap_start P + 32) ∗
    word (ap_start P + 40) ∗ word (ap_start P + 16 + ap_first P - 16) ∗ word (ap_start P + 4096 - 8).
Proof.
  unfold page_frame, page_bp, page_start, page_end. rewrite tags_word1 !tag_word !word_intro -!(Z.add_assoc _ 16 16) -!(Z.add_assoc _ 16 24).
  iIntros "($ & [$ $] & $ & $ & $ & $)".
Qed.
Lemma page_sys_block P : ap_first P = 48 → page_raw P ∗ node (page_bp P) ⊢ sys_block (ap_start P) 4096.
Proof.
  intros Hf. unfold page_raw, sys_block, page_base. change (nwords 4096) with 512%nat. rewrite page_frame_words later_page_words Hf.
  unfold raw, node, page_bp. change (4080 - 48) with 4032. rewrite -!(Z.add_assoc (ap_start P) 16).
  change (16 + 48) with 64. change (16 + 8) with 24.
  replace (ap_start P + 64 - 16) with (ap_start P + 48) by lia.
  iIntros "[[(H1 & H2 & H3 & H4 & H5 & H6 & H7) (H8 & H9 & H10)] [H11 H12]]".
  give "H1". give "H2". give "H3". give "H11". give "H12". give "H4". give "H5". give "H6". give "H8".
  give "H9". give "H10". iExact "H7".
Qed.
Lemma pool_page_sys_block P :
  ap_first P = 272 → page_raw P ∗ node (page_bp P) ∗ junk (ap_start P + 48) 28 ⊢ sys_block (ap_start P) 4096.
Proof.
  intros Hf. unfold page_raw, sys_block, page_base. change (nwords 4096) with 512%nat. rewrite page_frame_words first_page_words Hf.
  unfold raw, node, page_bp. change (4080 - 272) with 3808. rewrite -!(Z.add_assoc (ap_start P) 16).
  change (16 + 272) with 288. change (16 + 8) with 24.
  replace (ap_start P + 288 - 16) with (ap_start P + 272) by lia.
  iIntros "[[(H1 & H2 & H3 & H4 & H5 & H6 & H7) (H8 & H9 & H10)] ([H11 H12] & H13)]".
  give "H1". give "H2". give "H3". give "H11". give "H12". give "H4". give "H5". give "H13". give "H6". give "H8".
  give "H9". give "H10". iExact "H7".
Qed.

Section life.
Context (pool : Z) (allsize : Z) `{!Libc}.

(** The allocator's programs on words only.  [fstep] is a step with one of them in a
    program that also frees. *)
Lemma keeps_put_tags bp v : keeps_cells (put_tags bp v).
Proof. unfold put_tags, PUT, FTRP, GET_SIZE, GET. keeps. Qed.
Lemma keeps_mremove x : keeps_cells (gfs_mem_queue_remove x).
Proof. unfold gfs_mem_queue_remove, gfs_mem_queue_next, gfs_mem_queue_prev, set_mprev, set_mnext. keeps. Qed.
Lemma keeps_minsert_head h x : keeps_cells (gfs_mem_queue_insert_head h x).
Proof. unfold gfs_mem_queue_insert_head, gfs_mem_queue_next, set_mprev, set_mnext. keeps. Qed.
Lemma keeps_mqueue_init q : keeps_cells (gfs_mem_queue_init q).
Proof. unfold gfs_mem_queue_init, set_mprev, set_mnext. keeps. Qed.
Lemma keeps_init_blocks n q : keeps_cells (init_blocks n q).
Proof.
  revert q. induction n as [|n IH]=> q; cbn [init_blocks]; [apply keeps_cells_ret|].
  apply keeps_cells_bind; [apply keeps_mqueue_init|done].
Qed.
Lemma keeps_get_init p : keeps_cells (GET_INIT p).
Proof. unfold GET_INIT, GET. keeps. Qed.
Lemma keeps_get_size p : keeps_cells (GET_SIZE p).
Proof. unfold GET_SIZE, GET. keeps. Qed.
Lemma keeps_next_blkp p : keeps_cells (NEXT_BLKP p).
Proof. unfold NEXT_BLKP, GET_SIZE, GET. keeps. Qed.
Lemma keeps_add_field p d : keeps_cells (add_field p d).
Proof. unfold add_field. keeps. Qed.
Lemma keeps_next q : keeps_cells (gfs_mem_queue_next q).
Proof. apply keeps_ldw. Qed.
#[local] Hint Resolve keeps_put_tags keeps_mremove keeps_minsert_head keeps_mqueue_init keeps_init_blocks keeps_get_init
  keeps_get_size keeps_next_blkp keeps_add_field keeps_next : keeps.
Ltac fbind := iApply wpf_step; [keeps|].
Ltac fstep lem Hs := fbind; iApply (lem with "[-]"); last (iFrame Hs; iIntros Hs); [wside..|].

(** ** The large blocks *)

Lemma wpf_free_internal p n (Φ : unit → hprop) :
  0 < p → 0 < n →
  sys_block p n ∗ word allsize ∗ (word allsize -∗ Φ tt) ⊢ wpf [(p, n)] (gfs_mem_free_internal allsize p n) Φ.
Proof.
  iIntros (Hp Hn) "(Hb & Ha & HΦ)". unfold gfs_mem_free_internal. rewrite bool_decide_false; [|lia].
  destruct (Z.eqb_spec n 0); [lia|]. cbn [orb]. fstep wp_add_word "Ha".
  iApply wpf_free. iFrame "Hb". by iApply "HΦ".
Qed.
Lemma wpf_free_larges lh lg fuel (Φ : unit → hprop) :
  (∀ x, x ∈ lg → large_ok x) → (length lg < fuel)%nat →
  mring lh lg.*1 ∗ ([∗ list] x ∈ lg, large_rep pool x) ∗ live_junk (llives lg) ∗ word allsize ∗
    (mring lh [] -∗ word allsize -∗ Φ tt) ⊢
  wpf lg (free_larges allsize fuel lh (default lh (head lg.*1))) Φ.
Proof.
  revert fuel. induction lg as [|[p s] lg IH]; intros [|fuel] Hok Hfuel; simpl in Hfuel; try lia;
    iIntros "(Hr & Hl & Hj & Ha & HΦ)"; cbn [free_larges].
  - simpl. rewrite bool_decide_true //. iApply wpf_ret. by iApply ("HΦ" with "Hr Ha").
  - assert (Hlok : large_ok (p, s)) by (apply Hok; by left). destruct (Hlok) as (Hp & _ & Hs & Hlt). simpl in *.
    iDestruct (mring_ne with "Hr") as %Hne. rewrite bool_decide_false; [|set_solver].
    iDestruct (mring_next _ [] p lg.*1 with "Hr") as "[Hn Hr]".
    fstep wp_ldw "Hn". iDestruct ("Hr" with "Hn") as "Hr".
    fbind. iApply (wp_mremove _ [] p with "[-]"). iFrame "Hr". iIntros "Hr Hw1 Hw2". simpl ([] ++ _).
    iDestruct "Hl" as "[(Hsys & Had & Hsz & Hl5) Hl]". unfold live_junk. simpl. iDestruct "Hj" as "[Hj1 Hj]".
    fstep wp_ldw "Had". fstep wp_ldw "Hsz". iApply (wpf_bind [(p, s)] lg). iApply (wpf_free_internal with "[-]"); [done|lia|]. iFrame "Ha".
    iSplitL "Hsys Had Hsz Hl5 Hj1 Hw1 Hw2".
    { iApply large_sys_block; [done|]. iSplitR "Hj1 Hw1 Hw2"; [iFrame "Hsys Had Hsz Hl5"|]. give "Hj1". give "Hw1". iExact "Hw2". }
    iIntros "Ha". iApply (IH with "[-]"); [|lia|]; [by intros x Hx; apply Hok; right|]. give "Hr". give "Hl". give "Hj".
    give "Ha". iExact "HΦ".
Qed.

Lemma wpf_free_all_larges lg (Φ : unit → hprop) :
  (∀ x, x ∈ lg → large_ok x) →
  mring (pool_large pool) lg.*1 ∗ ([∗ list] x ∈ lg, large_rep pool x) ∗ live_junk (llives lg) ∗ word allsize ∗
    (mring (pool_large pool) [] -∗ word allsize -∗ Φ tt) ⊢
  wpf lg (free_all_larges allsize pool) Φ.
Proof.
  iIntros (Hok) "(Hr & Hl & Hj & Ha & HΦ)".
  iApply (wpf_fuelled_with _ _ _ (mring (pool_large pool) lg.*1) with "[$Hr Hl Hj Ha HΦ]"); [apply mring_at_least|].
  iIntros (n Hn) "Hr". iDestruct (mring_head with "Hr") as "[Hh Hr]". fstep wp_ldw "Hh". iDestruct ("Hr" with "Hh") as "Hr".
  iApply (wpf_free_larges with "[-]"); [done|rewrite length_fmap in Hn; lia|]. give "Hr". give "Hl". give "Hj". give "Ha". iExact "HΦ".
Qed.

(** ** [gfs_mem_pool_reset] *)

Definition cleared (P : apage) : apage := with_blocks P [(4080 - ap_first P, false)].

Lemma wp_GET_INIT p P Φ :
  tag p (0 + page_flag P) ∗ (tag p (0 + page_flag P) -∗ Φ (if ap_init P then 2 else 0)) ⊢ wp (GET_INIT p) Φ.
Proof.
  iIntros "[Ht HΦ]". iApply wp_bind. iApply (wp_GET with "[-]"). iFrame "Ht". iIntros "Ht". iApply wp_ret.
  unfold page_flag. destruct (ap_init P); by iApply "HΦ".
Qed.

(** One turn for a page of the start. *)
Lemma wp_reset_init P F (Φ : unit → hprop) :
  page_ok P →
  page_raw P ∗ flist pool F ∗ word (pool_used pool) ∗
    (page_rep pool (cleared P) -∗ flist pool ((page_base P, 4080 - ap_first P) :: F) -∗ word (pool_used pool) -∗ Φ tt) ⊢
  wp (s ← GET_SIZE (HDRP (page_bp P));
      let size := u32 (PAGESIZE - s - DSIZE) in
      bp ← NEXT_BLKP (page_bp P);
      put_tags bp (PACK size UNALLOCATED);;
      gfs_mem_queue_insert_head (pool_block pool (gfs_mem_getindex size)) bp;;
      add_field (pool_used pool) (PAGESIZE - size)) Φ.
Proof.
  intros HP. destruct (page_total P HP) as (_ & _ & Hb). destruct (first_bsz P HP) as [Hf _].
  iIntros "([(Hp1 & [Ht1 Ht2] & Hp3) (Hw1 & Hj & Hw2)] & HF & Hu & Hm)".
  iApply wp_bind. iApply (wp_GET_SIZE _ (ap_first P) 1 with "[-]"); [done|done|]. iFrame "Ht1". iIntros "Ht1". cbv zeta.
  assert (u32 (PAGESIZE - ap_first P - DSIZE) = 4080 - ap_first P) as ->.
  { rewrite u32_small; [unfold PAGESIZE, DSIZE; lia|]. destruct Hb as [[? _] _]. unfold is_u32, PAGESIZE, DSIZE. lia. }
  iApply wp_bind. iApply (wp_NEXT_BLKP _ (ap_first P) 1 with "[-]"); [done|done|]. iFrame "Ht1". iIntros "Ht1".
  change (page_bp P + ap_first P) with (page_base P).
  iApply wp_bind. iApply (wp_put_tags _ (4080 - ap_first P) 0 with "[-]"); [apply Hb|done|]. iFrame "Hw1 Hw2". iIntros "Ht".
  iApply wp_bind. iApply (wp_insert_loose _ _ _ (4080 - ap_first P) with "[-]"); [done|]. iFrame "HF". iSplitL "Ht Hj"; [by iSplitL "Ht"|].
  iIntros "HF Hblk". iApply (wp_add_word with "[-]"). iFrame "Hu". iIntros "Hu".
  iApply ("Hm" with "[Hp1 Ht1 Ht2 Hp3 Hblk] HF Hu"). iSplitR "Hblk"; [|by iSplitL "Hblk"].
  give "Hp1". iSplitL "Ht1 Ht2"; [by iSplitL "Ht1"|]. iExact "Hp3".
Qed.

(** The pages as blocks of the library. *)
Definition page_blocks (ps : list apage) : list (Z * Z) := (λ P, (ap_start P, 4096)) <$> ps.
(** The pages that a reset frees. *)
Definition dropped (ps : list apage) : list apage := filter (λ P, ap_init P = false) ps.
Lemma dropped_cons P ps : dropped (P :: ps) = (if ap_init P then [] else [P]) ++ dropped ps.
Proof. unfold dropped. rewrite filter_cons. destruct (ap_init P); by case_decide. Qed.

(** The pages that a reset keeps. *)
Definition kept (ps : list apage) : list apage := cleared <$> filter (λ P, ap_init P = true) ps.

Lemma kept_cons P ps : kept (P :: ps) = (if ap_init P then [cleared P] else []) ++ kept ps.
Proof. unfold kept. rewrite filter_cons. destruct (ap_init P); by case_decide. Qed.
Lemma kept_app ps1 ps2 : kept (ps1 ++ ps2) = kept ps1 ++ kept ps2.
Proof. unfold kept. by rewrite filter_app fmap_app. Qed.

(** The loop, after [ks] of the pages were kept. *)
Lemma wpf_reset_pages ks ps fuel (Φ : unit → hprop) :
  (∀ P, P ∈ ps → page_ok P ∧ (ap_init P = false → ap_first P = 48)) → (length ps < fuel)%nat →
  mring (pool_page pool) (page_bp <$> (ks ++ ps)) ∗ ([∗ list] P ∈ ps, page_raw P) ∗
  ([∗ list] P ∈ ks, page_rep pool P) ∗ flist pool (pfrees ks) ∗ word (pool_used pool) ∗ word allsize ∗
    (mring (pool_page pool) (page_bp <$> (ks ++ kept ps)) -∗ ([∗ list] P ∈ (ks ++ kept ps), page_rep pool P) -∗
     flist pool (pfrees (ks ++ kept ps)) -∗ word (pool_used pool) -∗ word allsize -∗ Φ tt) ⊢
  wpf (page_blocks (dropped ps)) (reset_pages allsize fuel pool (default (pool_page pool) (head (page_bp <$> ps)))) Φ.
Proof.
  revert ks fuel. induction ps as [|P ps IH]; intros ks [|fuel] Hok Hfuel; simpl in Hfuel; try lia;
    iIntros "(Hr & Hps & Hks & HF & Hu & Ha & HΦ)"; cbn [reset_pages].
  - rewrite bool_decide_true //. iApply wpf_ret. change (kept []) with ([] : list apage). rewrite !app_nil_r. by iApply ("HΦ" with "Hr Hks HF Hu Ha").
  - destruct (Hok P) as [HP Hf]; [by left|]. rewrite fmap_app !fmap_cons.
    iDestruct (mring_ne with "Hr") as %Hne. simpl. rewrite bool_decide_false; [|set_solver].
    iDestruct (mring_next _ (page_bp <$> ks) with "Hr") as "[Hn Hr]". fstep wp_ldw "Hn". iDestruct ("Hr" with "Hn") as "Hr".
    iDestruct "Hps" as "[[(Hp1 & Hp2 & Hp3 & Hp4 & Hp5 & Hp6) Hraw] Hps]".
    fstep wp_ldw "Hp5". fstep wp_GET_INIT "Hp1". rewrite kept_cons dropped_cons.
    destruct (ap_init P); simpl.
    + fbind. iApply (wp_reset_init P with "[-]"); [done|]. iFrame "HF Hu". iSplitL "Hp1 Hp2 Hp3 Hp4 Hp5 Hp6 Hraw".
      { iSplitR "Hraw"; [|done]. give "Hp1"; give "Hp2"; give "Hp3"; give "Hp4"; give "Hp5"; iExact "Hp6". }
      iIntros "HP HF Hu". iApply (IH (ks ++ [cleared P]) with "[-]"); [by intros Q HQ; apply Hok; right|lia|].
      rewrite -!app_assoc. rewrite big_sepL_snoc. iSplitL "Hr"; [by rewrite fmap_app|]. give "Hps".
      iSplitL "Hks HP"; [by iSplitL "Hks"|]. iSplitL "HF".
      { unfold pfrees. rewrite bind_app. simpl. by rewrite (comm app). }
      give "Hu". give "Ha". iExact "HΦ".
    + iApply (wpf_bind [(ap_start P, 4096)] (page_blocks (dropped ps))). fbind. iApply (wp_mremove with "[-]"). iFrame "Hr". iIntros "Hr Hw1 Hw2".
      fbind. iApply (wp_ldw with "[-]"). iFrame "Hp5". iIntros "Hp5".
      iApply (wpf_free_internal with "[-]"); [apply HP|done|]. iFrame "Ha".
      iSplitL "Hp1 Hp2 Hp3 Hp4 Hp5 Hp6 Hraw Hw1 Hw2".
      { iApply page_sys_block; [by apply Hf|]. iSplitR "Hw1 Hw2"; [|by iSplitL "Hw1"]. iSplitR "Hraw"; [|done].
        give "Hp1"; give "Hp2"; give "Hp3"; give "Hp4"; give "Hp5"; iExact "Hp6". }
      iIntros "Ha". iApply (IH ks with "[-]"); [by intros Q HQ; apply Hok; right|lia|]. rewrite -fmap_app.
      give "Hr". give "Hps". give "Hks". give "HF". give "Hu". give "Ha". iExact "HΦ".
Qed.

Lemma cleared_ok P : page_ok P → page_ok (cleared P).
Proof.
  intros HP. destruct (page_total P HP) as (_ & _ & Hb). destruct HP as (H1 & H2 & H3 & H4 & _). split_and!; simpl; try done.
  - lia.
  - by intros x ->%list_elem_of_singleton.
Qed.
Lemma kept_ok ps :
  (∀ P, P ∈ ps → page_ok P) → pool_page_ok pool ps → (∀ P, P ∈ kept ps → page_ok P) ∧ pool_page_ok pool (kept ps).
Proof.
  intros Hok (ps0 & P & -> & Hs & Hf & Hi & H0). split.
  - intros Q (P' & -> & [_ HP']%list_elem_of_filter)%list_elem_of_fmap. by apply cleared_ok, Hok.
  - exists (kept ps0), (cleared P). rewrite kept_app kept_cons Hi. split_and!; try done.
    intros Q (P' & -> & [_ HP']%list_elem_of_filter)%list_elem_of_fmap. by apply (H0 P').
Qed.
Lemma kept_lives ps : plives (kept ps) = [].
Proof. induction ps as [|P ps IH]; [done|]. rewrite kept_cons. destruct (ap_init P); [|done]. unfold plives. by rewrite bind_app. Qed.
Lemma first_small ps P : pool_page_ok pool ps → P ∈ ps → ap_init P = false → ap_first P = 48.
Proof.
  intros (ps0 & Q & -> & _ & _ & Hi & H0) [HP|HP]%elem_of_app Hf; [by apply H0|].
  apply list_elem_of_singleton in HP as ->. congruence.
Qed.

(** Everything in a pool whose allocations are given back, page by page. *)
Lemma pool_pos ps : (∀ P, P ∈ ps → page_ok P) → pool_page_ok pool ps → 0 < pool.
Proof. intros Hok (ps0 & P & -> & <- & _). destruct (Hok P) as [? _]; [in_app|]. lia. Qed.
Lemma pool_inv_raw ps lg n :
  pool_inv pool ps lg n ∗ live_junk (plives ps ++ llives lg) ⊢
  ⌜(∀ P, P ∈ ps → page_ok P) ∧ pool_page_ok pool ps ∧ (∀ x, x ∈ lg → large_ok x) ∧ 1 ≤ n < 2 ^ 32⌝ ∗
    ([∗ list] P ∈ ps, page_raw P) ∗ junk (pool_block pool 0) 16 ∗ mring (pool_page pool) (page_bp <$> ps) ∗
    mring (pool_large pool) lg.*1 ∗ ([∗ list] x ∈ lg, large_rep pool x) ∗ live_junk (llives lg) ∗ fields pool n.
Proof.
  iIntros "[([%Hok (%Hpool & %Hlg & %Hn)] & Hps & HF & Hpr & Hlr & Hl & Hf) Hj]".
  iSplit; [done|]. unfold live_junk. rewrite big_sepL_app. iDestruct "Hj" as "[Hj1 Hj2]".
  iDestruct (flist_nodes with "HF") as "[Hb Hn]".
  iSplitL "Hps Hn Hj1"; [iApply (pages_raw pool); [done|]; give "Hps"; give "Hn"; iExact "Hj1"|].
  give "Hb". give "Hpr". give "Hlr". give "Hl". give "Hj2". iExact "Hf".
Qed.

Lemma reset_run ps lg n :
  pool_inv pool ps lg n ∗ live_junk (plives ps ++ llives lg) ∗ word allsize ⊢
  wpf (lg ++ page_blocks (dropped ps)) (gfs_mem_pool_reset allsize pool) (λ _, pool_inv pool (kept ps) [] n ∗ word allsize)%I.
Proof.
  iIntros "(HP & Hj & Ha)". iDestruct (pool_inv_raw with "[$HP $Hj]") as "[%Hall H]". destruct Hall as (Hok & Hpool & Hlg & Hn).
  pose proof (pool_pos ps Hok Hpool) as Hpos. iDestruct "H" as "(Hps & Hb & Hpr & Hlr & Hl & Hj & (Hf1 & Hf2 & Hf3 & Hf4 & Hf5))".
  unfold gfs_mem_pool_reset. rewrite bool_decide_false; [|lia].
  iApply (wpf_bind lg). iApply (wpf_free_all_larges lg with "[-]"); [done|]. give "Hlr". give "Hl". give "Hj". give "Ha". iIntros "Hlr Ha".
  fstep wp_ldw "Hf4". fstep wp_word "Hf1". fstep wp_word "Hf2". fstep wp_word "Hf3".
  iDestruct (mring_nodes with "Hlr") as "[[Hl1 Hl2] _]".
  fbind. iApply (wp_mqueue_init with "[-]"). iFrame "Hl1 Hl2". iIntros "Hlr".
  fbind. iApply (wp_init_blocks with "[-]"). give "Hb". iIntros "HF". iDestruct (empty_rings_flist with "HF") as "HF".
  iApply (wpf_fuelled_with _ _ _ (mring (pool_page pool) (page_bp <$> ps)) with "[-]"); [apply mring_at_least|]. give "Hpr".
  iIntros (k Hk) "Hpr". iDestruct (mring_head with "Hpr") as "[Hh Hpr]". fstep wp_ldw "Hh". iDestruct ("Hpr" with "Hh") as "Hpr".
  iApply (wpf_reset_pages [] ps with "[-]"); [|rewrite length_fmap in Hk; lia|].
  { intros P HP. split; [by apply Hok|by apply (first_small ps)]. }
  give "Hpr". give "Hps". iSplitR; [done|]. give "HF". iSplitL "Hf2"; [by iApply word_intro|]. give "Ha".
  iIntros "Hpr Hps HF Hu $". destruct (kept_ok ps) as [Hok' Hpool']; [done..|].
  iSplit; [iPureIntro; split; [done|split; [done|split; [by intros x ?%elem_of_nil|done]]]|].
  give "Hps". give "HF". give "Hpr". give "Hlr". iSplitR; [done|]. rewrite (word_intro (pool_size _)) (word_intro (pool_msize _)).
  give "Hf1". give "Hu". give "Hf3". give "Hf4". iExact "Hf5".
Qed.

(** ** [gfs_mem_pool_destory] *)

(** The loop up to the page of the pool, which is last. *)
Lemma wpf_destory_pages ps P fuel (Φ : unit → hprop) :
  (∀ Q, Q ∈ ps ++ [P] → page_ok Q) → (∀ Q, Q ∈ ps → ap_first Q = 48) → ap_first P = 272 → ap_start P + 48 = pool →
  (length ps + 1 < fuel)%nat →
  mring (pool_page pool) (page_bp <$> (ps ++ [P])) ∗ ([∗ list] Q ∈ (ps ++ [P]), page_raw Q) ∗
  (node (pool_page pool) -∗ junk pool 28) ∗ word allsize ∗ (word allsize -∗ Φ tt) ⊢
  wpf (page_blocks (ps ++ [P])) (destory_pages allsize fuel (pool_page pool) (default (pool_page pool) (head (page_bp <$> (ps ++ [P]))))) Φ.
Proof.
  revert fuel. induction ps as [|Q ps IH]; intros [|fuel] Hok H48 H272 Hst Hfuel; simpl in Hfuel; try lia;
    iIntros "(Hr & Hps & Hpool & Ha & HΦ)"; cbn [destory_pages];
    iDestruct (mring_ne with "Hr") as %Hne; simpl; simpl in Hne; (rewrite bool_decide_false; [|set_solver]);
    iDestruct (mring_next _ [] with "Hr") as "[Hn Hr]"; fstep wp_ldw "Hn"; iDestruct ("Hr" with "Hn") as "Hr";
    iDestruct "Hps" as "[[(Hp1 & Hp2 & Hp3 & Hp4 & Hp5 & Hp6) Hraw] Hps]";
    fbind; iApply (wp_mremove _ [] with "[-]"); iFrame "Hr"; iIntros "Hr Hw1 Hw2"; simpl ([] ++ _);
    fbind; iApply (wp_ldw with "[-]"); iFrame "Hp5"; iIntros "Hp5".
  - iApply (wpf_bind [(ap_start P, 4096)] []). iApply (wpf_free_internal with "[-]"); [apply Hok; in_app|done|]. iFrame "Ha".
    iSplitR "HΦ".
    + iApply pool_page_sys_block; [done|]. iSplitR "Hw1 Hw2 Hr Hpool"; [iSplitR "Hraw"; [give "Hp1"; give "Hp2"; give "Hp3"; give "Hp4"; give "Hp5"; iExact "Hp6"|iExact "Hraw"]|].
      iSplitL "Hw1 Hw2"; [give "Hw1"; iExact "Hw2"|]. rewrite Hst.
      iDestruct (mring_nodes with "Hr") as "[Hr _]". iSpecialize ("Hpool" with "Hr"). iExact "Hpool".
    + iIntros "Ha". destruct fuel as [|fuel]; [lia|]. simpl. rewrite bool_decide_true //. iApply wpf_ret. by iApply "HΦ".
  - iApply (wpf_bind [(ap_start Q, 4096)] (page_blocks (ps ++ [P]))). iApply (wpf_free_internal with "[-]"); [apply Hok; in_app|done|]. iFrame "Ha".
    iSplitL "Hp1 Hp2 Hp3 Hp4 Hp5 Hp6 Hraw Hw1 Hw2".
    + iApply page_sys_block; [apply H48; in_app|]. iSplitR "Hw1 Hw2"; [|by iSplitL "Hw1"].
      iSplitR "Hraw"; [give "Hp1"; give "Hp2"; give "Hp3"; give "Hp4"; give "Hp5"; iExact "Hp6"|iExact "Hraw"].
    + iIntros "Ha". iApply (IH with "[-]"); [by intros R HR; apply Hok; right|by intros R HR; apply H48; right|done|done|lia|].
      give "Hr". give "Hps". give "Hpool". give "Ha". iExact "HΦ".
Qed.

Lemma destory_run ps lg n :
  pool_inv pool ps lg n ∗ live_junk (plives ps ++ llives lg) ∗ word allsize ⊢
  wpf (lg ++ page_blocks ps) (gfs_mem_pool_destory allsize pool) (λ _, word allsize).
Proof.
  iIntros "(HP & Hj & Ha)". iDestruct (pool_inv_raw with "[$HP $Hj]") as "[%Hall H]". destruct Hall as (Hok & Hpool & Hlg & Hn).
  pose proof (pool_pos ps Hok Hpool) as Hpos. iDestruct "H" as "(Hps & Hb & Hpr & Hlr & Hl & Hj & (Hf1 & Hf2 & Hf3 & Hf4 & Hf5 & Hf6))".
  unfold gfs_mem_pool_destory. rewrite bool_decide_false; [|lia].
  iApply (wpf_bind lg). iApply (wpf_free_all_larges lg with "[-]"); [done|]. give "Hlr". give "Hl". give "Hj". give "Ha". iIntros "Hlr Ha".
  iApply (wpf_fuelled_with _ _ _ (mring (pool_page pool) (page_bp <$> ps)) with "[-]"); [apply mring_at_least|]. give "Hpr".
  iIntros (k Hk) "Hpr". iDestruct (mring_head with "Hpr") as "[Hh Hpr]". fstep wp_ldw "Hh". iDestruct ("Hpr" with "Hh") as "Hpr".
  destruct Hpool as (ps0 & P & -> & Hst & Hf & _ & H0). rewrite length_fmap length_app /= in Hk.
  iApply (wpf_destory_pages ps0 P with "[-]"); [done..|lia|]. give "Hpr". give "Hps".
  iSplitR "Ha"; [|give "Ha"; by iIntros "$"]. iIntros "[Hn1 Hn2]". rewrite pool_words.
  iDestruct (mring_nodes with "Hlr") as "[[Hl1 Hl2] _]". rewrite (word_intro (pool_init_pages _)).
  give "Hn1". give "Hn2". give "Hf5". give "Hb". give "Hl1". give "Hl2". give "Hf6". give "Hf1". give "Hf2". give "Hf3". iExact "Hf4".
Qed.
End life.

(** C24: The end of a pool with the pages [ps] and the large blocks [lg], whose
    allocations have all been given back.  [gfs_mem_pool_reset] gives the large blocks
    and the pages that came after the start back to the C library and leaves a pool of
    the other pages, all free.  [gfs_mem_pool_destory] gives back the large blocks and
    all pages, each once, and nothing of the pool is left: the memory in use afterwards
    is what was in use before less these blocks.  Both end, although the pool itself
    lies in the last page that is freed. *)
Theorem gfs_mem_pool_end_correct `{!Libc} allsize pool ps lg n :
  let owned := (pool_inv pool ps lg n ∗ live_junk (plives ps ++ llives lg) ∗ word allsize)%I in
  triple_frees (lg ++ page_blocks (dropped ps)) owned (gfs_mem_pool_reset allsize pool)
    (λ _, pool_inv pool (kept ps) [] n ∗ ⌜plives (kept ps) = []⌝ ∗ word allsize)%I ∧
  triple_frees (lg ++ page_blocks ps) owned (gfs_mem_pool_destory allsize pool) (λ _, word allsize).
Proof.
  split; [|apply destory_run]. unfold triple_frees. rewrite reset_run. apply wpf_mono=> u. rewrite kept_lives.
  by iIntros "[$ $]".
Qed.
