(* ===== verification/ProxyText.v ===== *)
(** Text and integers of the proxy: core/gvfs_utils.c and core/gvfs_string.c
    under src/gvfsproxy/src.

    The readers of integers work on a block and an offset; outside the block
    they are undefined. *)
From Stdlib Require Import String.
From S2P Require Import Prelude Bytes Text Tools.

Definition GVFS_OK := 0.
Definition GVFS_ERROR := -1.
Definition GVFS_AGAIN := -2.

(** ** Integers *)

Definition gvfs_r8 (b : bytes) (p : nat) : option Z := b !! p.
Definition gvfs_rb16 (b : bytes) (p : nat) : option Z :=
  h ← gvfs_r8 b p; l ← gvfs_r8 b (p + 1); Some (Z.lor (u32 (Z.shiftl h 8)) l).
(** The high word is shifted by 16 where three bytes need 8. *)
Definition gvfs_rb24 (b : bytes) (p : nat) : option Z :=
  h ← gvfs_rb16 b p; l ← gvfs_r8 b (p + 2); Some (Z.lor (u32 (Z.shiftl h 16)) l).
Definition gvfs_rb32 (b : bytes) (p : nat) : option Z :=
  h ← gvfs_rb16 b p; l ← gvfs_rb16 b (p + 2); Some (Z.lor (u32 (Z.shiftl h 16)) l).
Definition gvfs_rb64 (b : bytes) (p : nat) : option Z :=
  h ← gvfs_rb32 b p; l ← gvfs_rb32 b (p + 4); Some (Z.lor (u64 (Z.shiftl h 32)) l).
Definition gvfs_rl16 (b : bytes) (p : nat) : option Z :=
  l ← gvfs_r8 b p; h ← gvfs_r8 b (p + 1); Some (Z.lor l (u32 (Z.shiftl h 8))).
Definition gvfs_rl24 (b : bytes) (p : nat) : option Z :=
  l ← gvfs_rl16 b p; h ← gvfs_r8 b (p + 2); Some (Z.lor l (u32 (Z.shiftl h 16))).
Definition gvfs_rl32 (b : bytes) (p : nat) : option Z :=
  l ← gvfs_rl16 b p; h ← gvfs_rl16 b (p + 2); Some (Z.lor l (u32 (Z.shiftl h 16))).
Definition gvfs_rl64 (b : bytes) (p : nat) : option Z :=
  l ← gvfs_rl32 b p; h ← gvfs_rl32 b (p + 4); Some (Z.lor l (u64 (Z.shiftl h 32))).

(** ** Hexadecimal *)

(** [gvfs_hex_dump dst src len], as what is written. *)
Fixpoint gvfs_hex_dump (len : nat) (src : bytes) : option bytes :=
  match len, src with
  | O, _ => Some []
  | S len, s :: src =>
      h ← hex_str !! Z.to_nat (Z.shiftr s 4); l ← hex_str !! Z.to_nat (Z.land s 15);
      t ← gvfs_hex_dump len src; Some (h :: l :: t)
  | S _, [] => None
  end.

(** The variables of [gvfs_hextoi]: the block behind [dst] and the offset in it,
    [len], [count] and [value]. *)
Record hexst := HexSt { hx_dst : bytes; hx_pos : nat; hx_len : Z; hx_count : Z; hx_value : Z }.

(** [*dst++ = value] when [0 < len]. *)
Definition hextoi_put (s : hexst) : option hexst :=
  if 0 <? hx_len s then
    d ← st_bytes (hx_pos s) [hx_value s] (hx_dst s);
    Some (HexSt d (S (hx_pos s)) (hx_len s) (hx_count s) (hx_value s))
  else Some s.
(** [value] after a character; one that is no digit counts but changes
    nothing. *)
Definition hextoi_digit (value ch : Z) : Z :=
  let c := Z.lor ch 32 in
  if (48 <=? ch) && (ch <=? 57) then u8 (value * 16 + (ch - 48))
  else if (97 <=? c) && (c <=? 102) then u8 (value * 16 + (c - 97 + 10))
  else value.
Definition hextoi_char (s : hexst) (ch : Z) : option hexst :=
  s ← (if hx_count s =? 2 then
         s ← hextoi_put s; Some (HexSt (hx_dst s) (hx_pos s) (u64 (hx_len s - 1)) 0 0)
       else Some s);
  Some (HexSt (hx_dst s) (hx_pos s) (hx_len s) (hx_count s + 1) (hextoi_digit (hx_value s) ch)).
Fixpoint hextoi_loop (line : bytes) (s : hexst) : option hexst :=
  match line with
  | [] => Some s
  | ch :: line => s ← hextoi_char s ch; hextoi_loop line s
  end.
(** [gvfs_hextoi dst len line n] for a [line] of [n] characters: the block
    behind [dst] afterwards. *)
Definition gvfs_hextoi (dst : bytes) (len : Z) (line : bytes) : option bytes :=
  s ← hextoi_loop line (HexSt dst 0 len 0 0); s ← hextoi_put s; Some (hx_dst s).

(** ** Base 64 *)

Definition basis64_chars : bytes := lit "ABCDEFGHIJKLMNOPQRSTUVWXYZabcdefghijklmnopqrstuvwxyz0123456789+/".
Definition enc64 (i : Z) : option Z := basis64_chars !! Z.to_nat i.
(** [gvfs_encode_base64 dst dlen src slen]: what is written; its length is
    [*dlen]. *)
Fixpoint gvfs_encode_base64 (s : bytes) : option bytes :=
  match s with
  | s0 :: s1 :: s2 :: s =>
      c0 ← enc64 (Z.land (Z.shiftr s0 2) 0x3f);
      c1 ← enc64 (Z.lor (Z.shiftl (Z.land s0 3) 4) (Z.shiftr s1 4));
      c2 ← enc64 (Z.lor (Z.shiftl (Z.land s1 0x0f) 2) (Z.shiftr s2 6));
      c3 ← enc64 (Z.land s2 0x3f);
      t ← gvfs_encode_base64 s; Some (c0 :: c1 :: c2 :: c3 :: t)
  | [s0] =>
      c0 ← enc64 (Z.land (Z.shiftr s0 2) 0x3f);
      c1 ← enc64 (Z.shiftl (Z.land s0 3) 4); Some [c0; c1; 61; 61]
  | [s0; s1] =>
      c0 ← enc64 (Z.land (Z.shiftr s0 2) 0x3f);
      c1 ← enc64 (Z.lor (Z.shiftl (Z.land s0 3) 4) (Z.shiftr s1 4));
      c2 ← enc64 (Z.shiftl (Z.land s1 0x0f) 2); Some [c0; c1; c2; 61]
  | [] => Some []
  end.

Definition basis64 : list Z :=
  [77; 77; 77; 77; 77; 77; 77; 77; 77; 77; 77; 77; 77; 77; 77; 77;
   77; 77; 77; 77; 77; 77; 77; 77; 77; 77; 77; 77; 77; 77; 77; 77;
   77; 77; 77; 77; 77; 77; 77; 77; 77; 77; 77; 62; 77; 77; 77; 63;
   52; 53; 54; 55; 56; 57; 58; 59; 60; 61; 77; 77; 77; 77; 77; 77;
   77;  0;  1;  2;  3;  4;  5;  6;  7;  8;  9; 10; 11; 12; 13; 14;
   15; 16; 17; 18; 19; 20; 21; 22; 23; 24; 25; 77; 77; 77; 77; 77;
   77; 26; 27; 28; 29; 30; 31; 32; 33; 34; 35; 36; 37; 38; 39; 40;
   41; 42; 43; 44; 45; 46; 47; 48; 49; 50; 51; 77; 77; 77; 77; 77] ++ replicate 128 77.
Definition dec64 (c : Z) : option Z := basis64 !! Z.to_nat c.

(** The first loop: the characters before the padding, or none when one is not
    in the alphabet. *)
Fixpoint base64_scan (src : bytes) : option (option bytes) :=
  match src with
  | [] => Some (Some [])
  | c :: src =>
      if c =? 61 then Some (Some []) else
      v ← dec64 c;
      if v =? 77 then Some None else r ← base64_scan src;
      Some (match r with Some t => Some (c :: t) | None => None end)
  end.
Fixpoint base64_loop (s : bytes) : option bytes :=
  match s with
  | s0 :: s1 :: s2 :: s3 :: s =>
      v0 ← dec64 s0; v1 ← dec64 s1; v2 ← dec64 s2; v3 ← dec64 s3;
      t ← base64_loop s;
      Some (u8 (Z.lor (Z.shiftl v0 2) (Z.shiftr v1 4)) ::
            u8 (Z.lor (Z.shiftl v1 4) (Z.shiftr v2 2)) :: u8 (Z.lor (Z.shiftl v2 6) v3) :: t)
  | [s0; s1; s2] =>
      v0 ← dec64 s0; v1 ← dec64 s1; v2 ← dec64 s2;
      Some [u8 (Z.lor (Z.shiftl v0 2) (Z.shiftr v1 4)); u8 (Z.lor (Z.shiftl v1 4) (Z.shiftr v2 2))]
  | [s0; s1] =>
      v0 ← dec64 s0; v1 ← dec64 s1; Some [u8 (Z.lor (Z.shiftl v0 2) (Z.shiftr v1 4))]
  | _ => Some []
  end.
(** [gvfs_decode_base64]: the result and what is written. *)
Definition gvfs_decode_base64 (src : bytes) : option (Z * bytes) :=
  r ← base64_scan src;
  match r with
  | None => Some (GVFS_ERROR, [])
  | Some s =>
      if (length s mod 4 =? 1)%nat then Some (GVFS_ERROR, []) else d ← base64_loop s; Some (GVFS_OK, d)
  end.

(** ** [gvfs_string_value]

    [value] is a block of [vlen] bytes; the result is the text written to it,
    and whether it ends with a zero: [strncpy] leaves that out of a text that
    fills the block. *)
Definition gvfs_string_value (buf key : bytes) (vlen : Z) (split : bytes) : Z * option (bytes * bool) :=
  let key_buf := take 63 (key ++ [61]) in
  match strstr buf key_buf with
  | None => (GVFS_ERROR, None)
  | Some p0 =>
      let p := drop (length key_buf) p0 in
      match strpbrk p split with
      | None => (GVFS_OK, Some (take (Z.to_nat vlen) p, Z.of_nat (length p) <? vlen))
      | Some v => if vlen <=? Z.of_nat (length v) then (GVFS_ERROR, None) else (GVFS_OK, Some (v, true))
      end
  end.
(** What a caller reads back with [atoll] or [strlen]: past an unterminated
    text it is undefined. *)
Definition value_text (v : bytes * bool) : option bytes := if v.2 then Some v.1 else None.

(** ** The readers and the byte order *)

(** Reading [n] bytes one by one. *)
Lemma ld_bytes_S n p b :
  ld_bytes (S n) p b = (x ← b !! p; t ← ld_bytes n (S p) b; Some (x :: t)).
Proof.
  unfold ld_bytes. destruct (b !! p) as [x|] eqn:Hx; simpl.
  - apply lookup_lt_Some in Hx as Hlt. rewrite (drop_S b x p Hx). destruct (decide (p + S n ≤ length b)%nat).
    + rewrite decide_True by lia. done.
    + rewrite decide_False by lia. done.
  - apply lookup_ge_None in Hx. by rewrite decide_False by lia.
Qed.
Lemma ld_bytes_0 p b : (p ≤ length b)%nat → ld_bytes 0 p b = Some [].
Proof. intros. unfold ld_bytes. by rewrite decide_True by lia. Qed.
Lemma ld_bytes_app n m p b :
  ld_bytes (n + m) p b = (h ← ld_bytes n p b; t ← ld_bytes m (p + n) b; Some (h ++ t)).
Proof.
  unfold ld_bytes. destruct (decide (p + (n + m) ≤ length b)%nat).
  - rewrite decide_True by lia. simpl. rewrite decide_True by lia. simpl. f_equal.
    rewrite <- (take_drop n (take (n + m) (drop p b))). rewrite take_take, Nat.min_l by lia. f_equal.
    rewrite skipn_firstn_comm, drop_drop. f_equal. lia.
  - destruct (decide (p + n ≤ length b)%nat); [|done]. simpl. by rewrite decide_False by lia.
Qed.

Lemma be_val_app l1 l2 : be_val (l1 ++ l2) = be_val l1 * 256 ^ Z.of_nat (length l2) + be_val l2.
Proof. unfold be_val. rewrite rev_app_distr, le_val_app, length_rev. lia. Qed.
Lemma be_val_range l : is_bytes l → 0 ≤ be_val l < 256 ^ Z.of_nat (length l).
Proof. intros Hl. unfold be_val. rewrite <- (length_rev l). by apply le_val_range, Forall_rev. Qed.

(** Two halves of [n] bytes joined with shifts, in both orders. *)
Lemma join_be n l1 l2 (cut : Z → Z) :
  is_bytes l1 → is_bytes l2 → length l1 = n → length l2 = n →
  (∀ z, 0 ≤ z < 2 ^ (16 * Z.of_nat n) → cut z = z) →
  Z.lor (cut (Z.shiftl (be_val l1) (8 * Z.of_nat n))) (be_val l2) = be_val (l1 ++ l2) ∧
  Z.lor (le_val l1) (cut (Z.shiftl (le_val l2) (8 * Z.of_nat n))) = le_val (l1 ++ l2).
Proof.
  intros H1 H2 Hl1 Hl2 Hcut.
  assert (256 ^ Z.of_nat n = 2 ^ (8 * Z.of_nat n)) as Hp by (rewrite Z.pow_mul_r by lia; done).
  assert (2 ^ (16 * Z.of_nat n) = 2 ^ (8 * Z.of_nat n) * 2 ^ (8 * Z.of_nat n)) as H16
    by (rewrite <- Z.pow_add_r by lia; f_equal; lia).
  pose proof (be_val_range l1 H1) as R1. pose proof (be_val_range l2 H2) as R2.
  pose proof (le_val_range l1 H1) as R3. pose proof (le_val_range l2 H2) as R4.
  rewrite Hl1, Hp in R1, R3. rewrite Hl2, Hp in R2, R4.
  rewrite !Hcut by (rewrite Z.shiftl_mul_pow2 by lia; nia). rewrite Z.lor_comm with (b := Z.shiftl _ _).
  rewrite !lor_shiftl_add by lia. rewrite be_val_app, le_val_app, Hl1, Hl2, Hp. lia.
Qed.

Lemma byte_val x b p : is_bytes b → b !! p = Some x → is_byte x ∧ be_val [x] = x ∧ le_val [x] = x.
Proof.
  intros Hb Hx. split; [|unfold be_val; simpl; lia]. by eapply Forall_lookup_1.
Qed.

Section readers.
Context (b : bytes) (Hb : is_bytes b).

Lemma r8_bytes p : gvfs_r8 b p = be_val <$> ld_bytes 1 p b ∧ gvfs_r8 b p = le_val <$> ld_bytes 1 p b.
Proof.
  unfold gvfs_r8. rewrite ld_bytes_S. destruct (b !! p) as [x|] eqn:Hx; simpl; [|done].
  apply lookup_lt_Some in Hx as Hlt. rewrite ld_bytes_0 by lia. destruct (byte_val x b p Hb Hx) as (_ & H1 & H2).
  simpl. unfold be_val. simpl. by rewrite Z.add_0_r.
Qed.

(** A reader of [2 n] bytes built from one of [n] bytes. *)
Lemma join_readers n (rb rl : bytes → nat → option Z) (cut : Z → Z) p :
  (∀ p, rb b p = be_val <$> ld_bytes n p b) → (∀ p, rl b p = le_val <$> ld_bytes n p b) →
  (∀ z, 0 ≤ z < 2 ^ (16 * Z.of_nat n) → cut z = z) →
  (h ← rb b p; l ← rb b (p + n)%nat; Some (Z.lor (cut (Z.shiftl h (8 * Z.of_nat n))) l)) =
    be_val <$> ld_bytes (n + n) p b ∧
  (l ← rl b p; h ← rl b (p + n)%nat; Some (Z.lor l (cut (Z.shiftl h (8 * Z.of_nat n))))) =
    le_val <$> ld_bytes (n + n) p b.
Proof.
  intros Hrb Hrl Hcut. rewrite ld_bytes_app, !Hrb, !Hrl.
  destruct (ld_bytes n p b) as [l1|] eqn:H1; simpl; [|done].
  destruct (ld_bytes n (p + n) b) as [l2|] eqn:H2; simpl; [|done].
  pose proof (ld_bytes_is _ _ _ _ Hb H1) as Hb1. pose proof (ld_bytes_is _ _ _ _ Hb H2) as Hb2.
  apply ld_bytes_Some in H1 as [Hl1 _], H2 as [Hl2 _].
  destruct (join_be n l1 l2 cut) as [H3 H4]; [done..|]. by rewrite H3, H4.
Qed.

Lemma r16_bytes p : gvfs_rb16 b p = be_val <$> ld_bytes 2 p b ∧ gvfs_rl16 b p = le_val <$> ld_bytes 2 p b.
Proof. apply (join_readers 1 gvfs_r8 gvfs_r8 u32); [apply r8_bytes..|]. intros z Hz. apply u32_small. unfold is_u32. simpl in Hz. lia. Qed.
Lemma r32_bytes p : gvfs_rb32 b p = be_val <$> ld_bytes 4 p b ∧ gvfs_rl32 b p = le_val <$> ld_bytes 4 p b.
Proof. apply (join_readers 2 gvfs_rb16 gvfs_rl16 u32); [apply r16_bytes..|]. intros z Hz. by apply u32_small. Qed.
Lemma r64_bytes p : gvfs_rb64 b p = be_val <$> ld_bytes 8 p b ∧ gvfs_rl64 b p = le_val <$> ld_bytes 8 p b.
Proof. apply (join_readers 4 gvfs_rb32 gvfs_rl32 u64); [apply r32_bytes..|]. intros z Hz. by apply u64_small. Qed.
End readers.

(** C38: the readers of two, four and eight bytes are those of the byte orders: at
    every offset of every block they give the big-endian and the little-endian
    integer there, and read outside the block exactly when it lies outside.  On the
    bytes of a 64-bit integer in host order [gvfs_rb64], which the proxy uses to
    build messages, is [htonll] of the name service. *)
Theorem gvfs_readers_correct b p :
  is_bytes b →
  (gvfs_rb16 b p = be_val <$> ld_bytes 2 p b ∧ gvfs_rl16 b p = le_val <$> ld_bytes 2 p b) ∧
  (gvfs_rb32 b p = be_val <$> ld_bytes 4 p b ∧ gvfs_rl32 b p = le_val <$> ld_bytes 4 p b) ∧
  (gvfs_rb64 b p = be_val <$> ld_bytes 8 p b ∧ gvfs_rl64 b p = le_val <$> ld_bytes 8 p b) ∧
  ∀ v, is_u64 v → gvfs_rb64 (le_bytes 8 v) 0 = Some (htonll v).
Proof.
  intros Hb. split_and!; try (by apply r16_bytes); try (by apply r32_bytes); try (by apply r64_bytes).
  intros v Hv. rewrite (proj1 (r64_bytes _ (le_bytes_is 8 v) 0)). unfold ld_bytes.
  rewrite le_bytes_length, decide_True by lia. rewrite drop_0, firstn_all2 by (by rewrite le_bytes_length).
  simpl. by rewrite htonll_bswap.
Qed.

(** ** Hexadecimal digits *)

Lemma hex_dump_digits l : is_bytes l → gvfs_hex_dump (length l) l = Some (hex_digits l).
Proof.
  induction 1 as [|b l Hb Hl IH]; [done|]. cbn [length gvfs_hex_dump].
  destruct (hex_str_lookup b Hb) as [H1 H2].
  rewrite Z.shiftr_div_pow2 by done. change (2 ^ 4) with 16. change 15 with (Z.ones 4).
  rewrite Z.land_ones by done. change (2 ^ 4) with 16. rewrite H1, H2, IH. done.
Qed.
Lemma hextoi_digits b :
  is_byte b → hextoi_digit 0 (hex_hi b) = b `div` 16 ∧ hextoi_digit (b `div` 16) (hex_lo b) = b.
Proof.
  apply (byte_check (λ b, hextoi_digit 0 (hex_hi b) = b `div` 16 ∧ hextoi_digit (b `div` 16) (hex_lo b) = b) _).
  by vm_compute.
Qed.

(** Field accesses of a state. *)
Ltac hx := cbn [hx_dst hx_pos hx_len hx_count hx_value mbind option_bind].

Definition hextoi_end (line : bytes) (s : hexst) : option bytes :=
  s ← hextoi_loop line s; s ← hextoi_put s; Some (hx_dst s).

Lemma hextoi_put_ok d p len c v :
  0 < len → (p < length d)%nat →
  hextoi_put (HexSt d p len c v) = Some (HexSt (take p d ++ v :: drop (S p) d) (S p) len c v).
Proof.
  intros Hlen Hp. unfold hextoi_put. hx. destruct (Z.ltb_spec 0 len); [|lia].
  rewrite st_bytes_ok by (simpl; lia). hx. cbn [app length]. by rewrite Nat.add_1_r.
Qed.
Lemma hextoi_char_pend d p len c v ch :
  c ≠ 2 → hextoi_char (HexSt d p len c v) ch = Some (HexSt d p len (c + 1) (hextoi_digit v ch)).
Proof. intros Hc. unfold hextoi_char. hx. by destruct (Z.eqb_spec c 2). Qed.
Lemma hextoi_char_full d p len v ch :
  hextoi_char (HexSt d p len 2 v) ch =
  (s ← hextoi_put (HexSt d p len 2 v);
   Some (HexSt (hx_dst s) (hx_pos s) (u64 (hx_len s - 1)) 1 (hextoi_digit 0 ch))).
Proof. unfold hextoi_char. hx. change (2 =? 2) with true. cbv iota. by destruct (hextoi_put _). Qed.

(** From a state with a byte [v] that is not written yet. *)
Lemma hextoi_end_digits l pre x d v len :
  is_bytes l → (length l ≤ length d)%nat → len = Z.of_nat (length (x :: d)) → len < 2 ^ 64 →
  hextoi_end (hex_digits l) (HexSt (pre ++ x :: d) (length pre) len 2 v) =
    Some (pre ++ v :: l ++ drop (length l) d).
Proof.
  intros Hl. revert pre x d v len. induction Hl as [|b l Hb Hl IH]; intros pre x d v len Hle Hlen Hlt.
  - unfold hextoi_end. change (hex_digits []) with (@nil Z). cbn [hextoi_loop]. hx.
    rewrite hextoi_put_ok by (rewrite ?length_app; simpl in *; lia). hx. f_equal.
    by rewrite take_app_length, drop_app_ge, Nat.sub_succ_l, Nat.sub_diag by lia.
  - destruct d as [|y d]; [simpl in Hle; lia|]. simpl in Hle.
    destruct (hextoi_digits b Hb) as [H1 H2].
    change (hex_digits (b :: l)) with (hex_hi b :: hex_lo b :: hex_digits l).
    unfold hextoi_end in *. cbn [hextoi_loop]. rewrite hextoi_char_full.
    rewrite hextoi_put_ok by (rewrite ?length_app; simpl in *; lia). hx.
    rewrite hextoi_char_pend, H1 by done. hx. rewrite H2.
    rewrite take_app_length, drop_app_ge, Nat.sub_succ_l, Nat.sub_diag by lia. change (1 + 1) with 2. cbn [drop].
    replace (u64 (len - 1)) with (Z.of_nat (length (y :: d))) by (rewrite u64_small; simpl in *; unfold is_u64; lia).
    specialize (IH (pre ++ [v]) y d b (Z.of_nat (length (y :: d))) ltac:(lia) eq_refl).
    rewrite <- app_assoc in IH. replace (length (pre ++ [v])) with (S (length pre)) in IH by (rewrite length_app; simpl; lia).
    cbn [app] in IH. rewrite IH by (simpl in *; lia). by rewrite <- app_assoc.
Qed.

(** A write that lies behind the block. *)
Lemma hextoi_put_bad s : 0 < hx_len s → hx_pos s = length (hx_dst s) → hextoi_put s = None.
Proof.
  intros Hlen Hpos. unfold hextoi_put. destruct (Z.ltb_spec 0 (hx_len s)); [|lia].
  unfold st_bytes. by rewrite decide_False by (simpl; lia).
Qed.
Lemma hextoi_end_bad line s : 0 < hx_len s → hx_pos s = length (hx_dst s) → hextoi_end line s = None.
Proof.
  unfold hextoi_end. revert s. induction line as [|ch line IH]; intros s Hlen Hpos; cbn [hextoi_loop]; hx.
  - by rewrite hextoi_put_bad.
  - destruct s as [d p len c v]. destruct (decide (c = 2)) as [->|Hc].
    + by rewrite hextoi_char_full, hextoi_put_bad.
    + rewrite hextoi_char_pend by done. by apply IH.
Qed.

Lemma hextoi_end_cons ch line s : hextoi_end (ch :: line) s = s ← hextoi_char s ch; hextoi_end line s.
Proof. unfold hextoi_end. cbn [hextoi_loop]. by destruct (hextoi_char s ch). Qed.
Lemma hextoi_end_defined line s L :
  Z.of_nat L < 2 ^ 64 → length (hx_dst s) = L → (hx_pos s ≤ L)%nat → hx_len s = Z.of_nat (L - hx_pos s) → 0 ≤ hx_count s ≤ 2 →
  is_Some (hextoi_end line s) ↔ 2 * Z.of_nat (hx_pos s) + hx_count s + Z.of_nat (length line) ≤ 2 * Z.of_nat L + 2.
Proof.
  intros HL. revert s. induction line as [|ch line IH]; intros [d p len count v] Hd Hp Hlen Hc; cbn [hx_dst hx_pos hx_len hx_count] in *.
  - split; [simpl; lia|]. intros _. unfold hextoi_end. cbn [hextoi_loop]. hx. destruct (decide (0 < len)).
    + rewrite hextoi_put_ok by lia. by eexists.
    + unfold hextoi_put. hx. destruct (Z.ltb_spec 0 len); [lia|]. by eexists.
  - rewrite length_cons, hextoi_end_cons. destruct (decide (count = 2)) as [->|Hne].
    + rewrite hextoi_char_full. destruct (decide (0 < len)).
      * rewrite hextoi_put_ok by lia. hx. rewrite IH; hx; [lia| |lia| |lia].
        { rewrite length_app, length_take, length_cons, length_drop. lia. }
        { rewrite u64_small by (unfold is_u64; lia). lia. }
      * assert (p = L) as -> by lia. assert (len = 0) as -> by lia. unfold hextoi_put at 1. hx.
        change (0 <? 0) with false. cbv iota. hx. split; [|lia].
        rewrite (hextoi_end_bad line) by done. by intros [].
    + rewrite hextoi_char_pend by done. hx. rewrite IH; hx; lia.
Qed.

Lemma gvfs_hextoi_run dst l line :
  is_bytes l → (0 < length l ≤ length dst)%nat → Z.of_nat (length dst) < 2 ^ 64 →
  gvfs_hex_dump (length l) l = Some (hex_digits l) ∧
  gvfs_hextoi dst (Z.of_nat (length dst)) (hex_digits l) = Some (l ++ drop (length l) dst) ∧
  (is_Some (gvfs_hextoi dst (Z.of_nat (length dst)) line) ↔ (length line ≤ 2 * length dst + 2)%nat).
Proof.
  intros Hl Hlen Hlt. split_and!.
  - by apply hex_dump_digits.
  - destruct Hl as [|b l Hb Hl]; [simpl in Hlen; lia|]. destruct dst as [|x dst]; [simpl in Hlen; lia|].
    destruct (hextoi_digits b Hb) as [H1 H2]. change (hex_digits (b :: l)) with (hex_hi b :: hex_lo b :: hex_digits l).
    unfold gvfs_hextoi. cbn [hextoi_loop]. rewrite hextoi_char_pend, H1 by done. hx.
    rewrite hextoi_char_pend, H2 by done. hx. apply (hextoi_end_digits l [] x dst b _ Hl); simpl in *; lia.
  - change (gvfs_hextoi dst (Z.of_nat (length dst)) line) with (hextoi_end line (HexSt dst 0 (Z.of_nat (length dst)) 0 0)).
    rewrite (hextoi_end_defined _ _ (length dst)); hx; try lia; done.
Qed.

(** [gvfs_hextoi] reads back the digits of every byte string that fills at
    most its block, and leaves the rest of the block as it was; the digits are what
    [gvfs_hex_dump] and the name service write.  Other lines stay inside the block
    exactly when they have at most two characters more than twice its size; from
    the third on the length wraps around and the function writes behind it. *)
Theorem gvfs_hextoi_correct dst l line :
  is_bytes l → (0 < length l ≤ length dst)%nat → Z.of_nat (length dst) < 2 ^ 64 →
  gvfs_hex_dump (length l) l = Some (hex_digits l) ∧
  gvfs_hextoi dst (Z.of_nat (length dst)) (hex_digits l) = Some (l ++ drop (length l) dst) ∧
  (is_Some (gvfs_hextoi dst (Z.of_nat (length dst)) line) ↔ (length line ≤ 2 * length dst + 2)%nat).
Proof. apply gvfs_hextoi_run. Qed.

(** ** Base 64, both ways *)

Lemma enc64_spec i :
  0 ≤ i < 64 → ∃ c, enc64 i = Some c ∧ dec64 c = Some i ∧ c ≠ 61 ∧ is_byte c.
Proof.
  intros Hi. exists (default 0 (enc64 i)). assert (is_byte i) as Hb by (unfold is_byte; lia). revert Hi.
  apply (byte_check (λ i, 0 ≤ i < 64 → enc64 i = Some (default 0 (enc64 i)) ∧ dec64 (default 0 (enc64 i)) = Some i ∧
    default 0 (enc64 i) ≠ 61 ∧ 0 ≤ default 0 (enc64 i) < 256) _); [by vm_compute|done].
Qed.

(** Division and remainder by constants. *)
Ltac dlia := Z.to_euclidean_division_equations; lia.

(** The shifts and masks as arithmetic. *)
Lemma bits64 s :
  is_byte s → Z.land (Z.shiftr s 2) 0x3f = s / 4 ∧ Z.land s 3 = s mod 4 ∧ Z.shiftr s 4 = s / 16 ∧
  Z.land s 0x0f = s mod 16 ∧ Z.shiftr s 6 = s / 64 ∧ Z.land s 0x3f = s mod 64.
Proof.
  intros Hs. unfold is_byte in Hs. change 0x3f with (Z.ones 6). change 3 with (Z.ones 2). change 0x0f with (Z.ones 4).
  rewrite !Z.land_ones, !Z.shiftr_div_pow2 by done. change (2 ^ 2) with 4. change (2 ^ 6) with 64. change (2 ^ 4) with 16.
  split_and!; try done. dlia.
Qed.

(** The six bits of each character, and the bytes from them. *)
Lemma quad64 s0 s1 s2 :
  is_byte s0 → is_byte s1 → is_byte s2 →
  let v0 := Z.land (Z.shiftr s0 2) 0x3f in
  let v1 := Z.lor (Z.shiftl (Z.land s0 3) 4) (Z.shiftr s1 4) in
  let v2 := Z.lor (Z.shiftl (Z.land s1 0x0f) 2) (Z.shiftr s2 6) in
  let v3 := Z.land s2 0x3f in
  (0 ≤ v0 < 64 ∧ 0 ≤ v1 < 64 ∧ 0 ≤ v2 < 64 ∧ 0 ≤ v3 < 64) ∧
  u8 (Z.lor (Z.shiftl v0 2) (Z.shiftr v1 4)) = s0 ∧
  u8 (Z.lor (Z.shiftl v1 4) (Z.shiftr v2 2)) = s1 ∧ u8 (Z.lor (Z.shiftl v2 6) v3) = s2.
Proof.
  intros H0 H1 H2 v0 v1 v2 v3. subst v0 v1 v2 v3.
  destruct (bits64 s0 H0) as (-> & -> & _), (bits64 s1 H1) as (_ & _ & -> & -> & _).
  destruct (bits64 s2 H2) as (_ & _ & _ & _ & -> & ->). unfold is_byte in *.
  rewrite (lor_shiftl_add (s0 mod 4)), (lor_shiftl_add (s1 mod 16)) by (simpl; dlia).
  change (2 ^ 4) with 16. change (2 ^ 2) with 4.
  assert (Z.shiftr (s0 mod 4 * 16 + s1 / 16) 4 = s0 mod 4) as -> by (rewrite Z.shiftr_div_pow2 by done; change (2 ^ 4) with 16; change (2 ^ 2) with 4; dlia).
  assert (Z.shiftr (s1 mod 16 * 4 + s2 / 64) 2 = s1 mod 16) as -> by (rewrite Z.shiftr_div_pow2 by done; change (2 ^ 4) with 16; change (2 ^ 2) with 4; dlia).
  rewrite !lor_shiftl_add by (simpl; dlia). change (2 ^ 4) with 16. change (2 ^ 2) with 4. change (2 ^ 6) with 64.
  unfold u8. split_and!; dlia.
Qed.

(** A character of the alphabet in front of a scanned line. *)
Lemma base64_scan_cons c v line t :
  dec64 c = Some v → 0 ≤ v < 64 → c ≠ 61 → base64_scan line = Some (Some t) →
  base64_scan (c :: line) = Some (Some (c :: t)).
Proof.
  intros Hd Hv Hc Hl. cbn [base64_scan]. destruct (Z.eqb_spec c 61); [done|]. rewrite Hd. simpl.
  destruct (Z.eqb_spec v 77); [lia|]. by rewrite Hl.
Qed.

Lemma base64_coded s :
  is_bytes s → ∃ e t, gvfs_encode_base64 s = Some e ∧ base64_scan e = Some (Some t) ∧
    (length t mod 4)%nat ≠ 1%nat ∧ base64_loop t = Some s ∧ length e = (4 * ((length s + 2) `div` 3))%nat.
Proof.
  remember (length s) as n eqn:Hn. revert s Hn. induction (lt_wf n) as [n _ IH]. intros s -> Hs.
  destruct s as [|s0 s]; [by exists [], []|].
  apply Forall_cons in Hs as [H0 Hs]. pose proof (quad64 s0 0 0 H0 ltac:(done) ltac:(done)) as Q1. cbn zeta in Q1.
  destruct s as [|s1 s]; [|apply Forall_cons in Hs as [H1 Hs]; pose proof (quad64 s0 s1 0 H0 H1 ltac:(done)) as Q2; cbn zeta in Q2];
    [|destruct s as [|s2 s]; [|apply Forall_cons in Hs as [H2 Hs]; pose proof (quad64 s0 s1 s2 H0 H1 H2) as Q3; cbn zeta in Q3]].
  - change (Z.shiftr 0 4) with 0 in Q1. rewrite Z.lor_0_r in Q1. destruct Q1 as ((R0 & R1 & _) & E0 & _).
    destruct (enc64_spec _ R0) as (c0 & C0 & D0 & N0 & _), (enc64_spec _ R1) as (c1 & C1 & D1 & N1 & _).
    exists [c0; c1; 61; 61], [c0; c1]. split_and!; try done.
    + simpl. rewrite C0. simpl. by rewrite C1.
    + eapply base64_scan_cons; [done..|]. by eapply base64_scan_cons.
    + simpl. rewrite D0. simpl. rewrite D1. simpl. by rewrite E0.
  - change (Z.shiftr 0 6) with 0 in Q2. rewrite Z.lor_0_r in Q2. destruct Q2 as ((R0 & R1 & R2 & _) & E0 & E1 & _).
    destruct (enc64_spec _ R0) as (c0 & C0 & D0 & N0 & _), (enc64_spec _ R1) as (c1 & C1 & D1 & N1 & _),
      (enc64_spec _ R2) as (c2 & C2 & D2 & N2 & _).
    exists [c0; c1; c2; 61], [c0; c1; c2]. split_and!; try done.
    + simpl. rewrite C0. simpl. rewrite C1. simpl. by rewrite C2.
    + do 2 (eapply base64_scan_cons; [done..|]). by eapply base64_scan_cons.
    + simpl. rewrite D0. simpl. rewrite D1. simpl. rewrite D2. simpl. by rewrite E0, E1.
  - destruct Q3 as ((R0 & R1 & R2 & R3) & E0 & E1 & E2).
    destruct (enc64_spec _ R0) as (c0 & C0 & D0 & N0 & _), (enc64_spec _ R1) as (c1 & C1 & D1 & N1 & _),
      (enc64_spec _ R2) as (c2 & C2 & D2 & N2 & _), (enc64_spec _ R3) as (c3 & C3 & D3 & N3 & _).
    destruct (IH (length s) ltac:(simpl; lia) s eq_refl Hs) as (e & t & He & Ht & Hm & Hloop & Hlen).
    exists (c0 :: c1 :: c2 :: c3 :: e), (c0 :: c1 :: c2 :: c3 :: t). cbn [length].
    split_and!.
    + cbn [gvfs_encode_base64]. rewrite C0. simpl. rewrite C1. simpl. rewrite C2. simpl. rewrite C3. simpl. by rewrite He.
    + do 4 (eapply base64_scan_cons; [done..|]). done.
    + replace (S (S (S (S (length t))))) with (length t + 1 * 4)%nat by lia. by rewrite Nat.Div0.mod_add.
    + cbn [base64_loop]. rewrite D0. simpl. rewrite D1. simpl. rewrite D2. simpl. rewrite D3. simpl. rewrite Hloop. simpl.
      by rewrite E0, E1, E2.
    + rewrite Hlen. replace (S (S (S (length s))) + 2)%nat with (length s + 2 + 1 * 3)%nat by lia.
      rewrite Nat.div_add by done. lia.
Qed.

(** [gvfs_decode_base64] gives back every byte string that
    [gvfs_encode_base64] wrote, whatever its length: the padding is found, the
    tables are inverse and the bits of each group of three bytes are joined again.
    The text has four characters for each group of three bytes, the last one
    filled up. *)
Theorem gvfs_base64_roundtrip s :
  is_bytes s → ∃ e, gvfs_encode_base64 s = Some e ∧ gvfs_decode_base64 e = Some (GVFS_OK, s) ∧
    length e = (4 * ((length s + 2) `div` 3))%nat.
Proof.
  intros Hs. destruct (base64_coded s Hs) as (e & t & He & Ht & Hm & Hloop & Hlen). exists e.
  split_and!; [done| |done]. unfold gvfs_decode_base64. rewrite Ht. cbn [mbind option_bind].
  destruct (Nat.eqb_spec (length t mod 4) 1); [done|]. by rewrite Hloop.
Qed.
