(* ===== verification/ProxyNet.v ===== *)
(** The sockets of the proxy: os/unix/gvfs_recv.c and os/unix/gvfs_send.c under
    src/gvfsproxy/src.

    They do not block: a script of outcomes that has run out is [EAGAIN] for
    [recv], and for [send] a socket that takes everything.  Data that a [recv] does
    not ask for stays in front of the script. *)
From S2P Require Import Prelude Bytes NetBuf ProxyText.

Definition ECONNRESET := 104.
Definition gvfs_connection_error (err : Z) : Z := if err =? ECONNRESET then 0 else GVFS_ERROR.

(** [gvfs_unix_recv]: the result, the data, the script, and the flag [rev->ready]. *)
Fixpoint gvfs_unix_recv (script : list recv_res) (size : Z) (ready : bool) :
    Z * bytes * list recv_res * bool :=
  if size =? 0 then (0, [], script, false) else
  match script with
  | [] => (GVFS_AGAIN, [], [], false)
  | RecvData [] :: _ => (0, [], script, false)
  | RecvData l :: script' =>
      let n := Z.min size (Z.of_nat (length l)) in
      (n, take (Z.to_nat n) l,
       match drop (Z.to_nat n) l with [] => script' | r => RecvData r :: script' end, ready)
  | RecvErr err :: script =>
      if err =? EINTR then gvfs_unix_recv script size ready
      else if err =? EAGAIN then (GVFS_AGAIN, [], script, false)
      else (gvfs_connection_error err, [], script, false)
  end.

(** [gvfs_unix_send] of [size] bytes: the result and the script. *)
Fixpoint gvfs_unix_send (script : list send_res) (size : Z) : Z * list send_res :=
  match script with
  | [] => (size, [])
  | SendLen n :: script => (Z.max 0 (Z.min n size), script)
  | SendErr err :: script =>
      if err =? EINTR then gvfs_unix_send script size
      else if err =? EAGAIN then (GVFS_AGAIN, script) else (GVFS_ERROR, script)
  end.

(** [gvfs_completed_send]: the result, what was put on the wire, the script.  The
    sleep between two attempts is left out.  Every attempt but the last uses up an
    outcome of the script. *)
Fixpoint completed_send_loop (fuel : nat) (script : list send_res) (data : bytes) :
    option (Z * bytes * list send_res) :=
  match fuel with
  | O => None
  | S fuel =>
      match gvfs_unix_send script (Z.of_nat (length data)) with
      | (n, script) =>
          if (n =? GVFS_AGAIN) || (n =? 0) then completed_send_loop fuel script data
          else if n =? GVFS_ERROR then Some (GVFS_ERROR, [], script)
          else
            let rest := drop (Z.to_nat n) data in
            if (length rest =? 0)%nat then Some (GVFS_OK, data, script)
            else r ← completed_send_loop fuel script rest;
                 Some (r.1.1, take (Z.to_nat n) data ++ r.1.2, r.2)
      end
  end.
Definition gvfs_completed_send (script : list send_res) (data : bytes) : option (Z * bytes * list send_res) :=
  completed_send_loop (S (length script)) script data.

(** ** Sending everything *)

(** An error that ends a transmission. *)
Definition send_fatal (s : send_res) : bool :=
  match s with SendLen _ => false | SendErr e => negb (e =? EINTR) && negb (e =? EAGAIN) end.

Lemma unix_send_out script size n script' :
  0 ≤ size → gvfs_unix_send script size = (n, script') →
  (n = GVFS_AGAIN ∨ n = GVFS_ERROR ∨ 0 ≤ n ≤ size) ∧
  (script = [] ∧ script' = [] ∧ n = size ∨ (length script' < length script)%nat) ∧
  (n = GVFS_ERROR → existsb send_fatal script = true) ∧
  (existsb send_fatal script = false → existsb send_fatal script' = false).
Proof.
  intros Hs. revert n script'. induction script as [|[k|e] script IH]; intros n script'; cbn [gvfs_unix_send existsb].
  - intros [= <- <-]. unfold GVFS_ERROR. split_and!; [lia|by left|lia|done].
  - intros [= <- <-]. unfold GVFS_ERROR. split_and!; [lia|right; simpl; lia|lia|done].
  - cbn [send_fatal]. destruct (Z.eqb_spec e EINTR); cbn [negb andb orb].
    + intros H. destruct (IH _ _ H) as (H1 & H2 & H3 & H4). split_and!; [done| |done|done].
      right. destruct H2 as [(-> & -> & _)|H2]; simpl in *; lia.
    + destruct (Z.eqb_spec e EAGAIN); intros [= <- <-]; cbn [negb andb orb]; unfold GVFS_AGAIN, GVFS_ERROR;
        (split_and!; [by auto|right; simpl; lia|by auto|by auto]).
Qed.

Lemma completed_send_run fuel script data :
  (length script < fuel)%nat → data ≠ [] → ∃ code out script',
  completed_send_loop fuel script data = Some (code, out, script') ∧
  (code = GVFS_OK ∧ out = data ∨
   code = GVFS_ERROR ∧ (∃ rest, rest ≠ [] ∧ data = out ++ rest) ∧ existsb send_fatal script = true) ∧
  (existsb send_fatal script = false → existsb send_fatal script' = false).
Proof.
  revert script data. induction fuel as [|fuel IH]; intros script data Hf Hd; [lia|].
  cbn [completed_send_loop]. destruct (gvfs_unix_send script (Z.of_nat (length data))) as [n script1] eqn:Hs.
  destruct (unix_send_out _ _ _ _ (Zle_0_nat _) Hs) as (Hn & Hl & He & Hfat).
  assert (0 < length data)%nat by (destruct data; [done|simpl; lia]).
  assert (∀ P : Prop, existsb send_fatal script1 = true → (existsb send_fatal script = true → P) → P) as Hf1.
  { intros P H1 HP. apply HP. destruct (existsb send_fatal script); [done|]. by rewrite Hfat in H1. }
  destruct (Z.eqb_spec n GVFS_AGAIN) as [Ha|Ha]; cbn [orb]; [|destruct (Z.eqb_spec n 0) as [H0|H0]; cbn [orb]].
  1,2: destruct (IH script1 data) as (code & out & script2 & Hr & H2 & Hf2);
    [destruct Hl as [(_ & _ & ->)|]; [unfold GVFS_AGAIN in *; lia|lia]|done|]; exists code, out, script2; split_and!; [done| |by auto];
    destruct H2 as [H2|(-> & H3 & H4)]; [by left|right; eapply Hf1; [done|by intros]].
  destruct (Z.eqb_spec n GVFS_ERROR) as [Her|Her].
  { exists GVFS_ERROR, [], script1. split_and!; [done| |done]. right. split_and!; [done| |by apply He]. by exists data. }
  destruct (Nat.eqb_spec (length (drop (Z.to_nat n) data)) 0) as [Hz|Hz].
  { exists GVFS_OK, data, script1. split_and!; [done|by left|done]. }
  destruct (IH script1 (drop (Z.to_nat n) data)) as (code & out & script2 & Hr & H2 & Hf2).
  - destruct Hl as [(_ & _ & ->)|]; [|lia]. rewrite length_drop in Hz. lia.
  - intros E. by rewrite E in Hz.
  - rewrite Hr. exists code, (take (Z.to_nat n) data ++ out), script2. split_and!; [done| |by auto].
    destruct H2 as [[-> ->]|(-> & (rest & Hrest & Hdr) & H4)]; [left; by rewrite take_drop|right].
    split_and!; [done| |by eapply Hf1]. exists rest. split; [done|].
    by rewrite <- app_assoc, <- Hdr, take_drop.
Qed.

(** C18: [gvfs_completed_send] of some data ends, whatever the socket does: it
    puts all of it on the wire, in order, and returns [GVFS_OK]; only an error
    other than [EINTR] and [EAGAIN] stops it before, and then a proper prefix was
    sent.  Sends that are cut short, refused or interrupted lose and repeat
    nothing.  With nothing to send it does not end. *)
Theorem gvfs_completed_send_all script data :
  (data ≠ [] → ∃ code out script', gvfs_completed_send script data = Some (code, out, script') ∧
     (code = GVFS_OK ∧ out = data ∨
      code = GVFS_ERROR ∧ (∃ rest, rest ≠ [] ∧ data = out ++ rest) ∧ existsb send_fatal script = true)) ∧
  ∀ fuel, completed_send_loop fuel [] [] = None.
Proof.
  split.
  - intros Hd. destruct (completed_send_run (S (length script)) script data ltac:(lia) Hd) as (code & out & script' & Hr & H & _).
    by exists code, out, script'.
  - induction fuel as [|fuel IH]; [done|]. exact IH.
Qed.


(** ** Receiving *)

(** What a script still delivers. *)
Definition rx_data (script : list recv_res) : bytes :=
  script ≫= λ e, match e with RecvData l => l | RecvErr _ => [] end.

Local Ltac none := intros [= <- <- <- <-]; split_and!; first [done|simpl; lia|intros ?; exfalso; unfold GVFS_AGAIN in *; lia].

(** A receive that succeeds takes bytes from the front and leaves the rest. *)
Lemma unix_recv_out script size ready n d script' ready' :
  0 ≤ size → gvfs_unix_recv script size ready = (n, d, script', ready') →
  rx_data script = d ++ rx_data script' ∧ Z.of_nat (length d) ≤ size ∧
  (0 < n → n = Z.of_nat (length d) ∧ ready' = ready) ∧ (n ≤ 0 → d = [] ∧ ready' = false).
Proof.
  intros Hs. revert n d script' ready'. induction script as [|[l|e] script IH]; intros n d script' ready'; cbn [gvfs_unix_recv];
    destruct (Z.eqb_spec size 0) as [->|Hz]; try none.
  - destruct l as [|x l]; [none|].
    set (m := Z.min size (Z.of_nat (length (x :: l)))). intros [= <- <- <- <-].
    assert (0 < m) by (subst m; simpl; lia).
    assert (length (take (Z.to_nat m) (x :: l)) = Z.to_nat m) as Hl by (rewrite length_take; subst m; lia).
    split_and!; [|rewrite Hl; lia|rewrite Hl; split; [lia|done]|lia].
    change (rx_data (RecvData (x :: l) :: script)) with ((x :: l) ++ rx_data script).
    rewrite <- (take_drop (Z.to_nat m) (x :: l)) at 1. rewrite <- app_assoc. f_equal.
    by destruct (drop (Z.to_nat m) (x :: l)).
  - change (rx_data (RecvErr e :: script)) with (rx_data script).
    destruct (e =? EINTR); [by apply IH|].
    destruct (e =? EAGAIN); [none|].
    unfold gvfs_connection_error. destruct (e =? ECONNRESET); none.
Qed.
