(* ===== verification/ProxyState.v ===== *)
(** The state of one client of the proxy: its HTTP request, the client's
    connection and the connection to the name service or a data server, with the
    primitive steps of core/gvfs_connection.c, event/gvfs_event_connect.c,
    http/gvfs_http_buf.c, http/gvfs_http_request_body.c and
    private/gvfs_upstream.c under src/gvfsproxy/src.

    A proxy worker is an event loop; the handlers of one client share nothing with
    those of another but the list of body buffers. *)
From S2P Require Import Prelude Bytes NetBuf ProxyText ProxyNet.

(** What the proxy takes from outside: the address of the name service in its
    configuration, what [gvfs_palloc] returns, as a block of any contents, and
    what uninitialised local arrays hold. *)
Class ProxyEnv := {
  pv_ns : Z * Z;
  pv_fresh : nat → bytes;
  pv_fresh_length : ∀ n, length (pv_fresh n) = n;
  pv_fresh_bytes : ∀ n, is_bytes (pv_fresh n);
  pv_stack : nat → bytes;
  pv_stack_length : ∀ n, length (pv_stack n) = n }.

(** [gvfs_buf_t] with [pos] at its start: the bytes up to [last]. *)
Record dbuf := DBuf { db_size : nat; db_data : bytes }.

(** Sizes and buffers of [gvfs_http_request_t]; [io_out] is [headers_out]. *)
Record iost := Io {
  io_body_size : Z; io_recv_size : Z; io_send_size : Z; io_out : bytes; io_body : option dbuf }.
(** The fields about the file.  An entry of an array is [None] until it is
    written. *)
Record file := File {
  fl_name : bytes; fl_fileid : Z; fl_blockindex : Z; fl_ds_number : Z; fl_end : Z;
  fl_block_number : Z; fl_block_index : list (option Z); fl_ds_addr : list (option (Z * Z)) }.

(** Handlers of read events. *)
Inductive uhandler := HNone | HNsHeader | HNsBody | HDsHeader | HDsBody.

(** The connection behind [upstream->peer.connection]. *)
Record peer := Peer {
  pe_handler : uhandler; pe_active : bool; pe_ready : bool; pe_timer : bool; pe_pool : bool;
  pe_recv : list recv_res; pe_send : list send_res }.
(** [gvfs_rsp_head_t], the fields of the message. *)
Record rsphead := RspHead { rh_len : Z; rh_id : Z; rh_type : Z; rh_encrypt : Z; rh_rtn : Z }.
(** [gvfs_upstream_t]; [us_buf] is the block behind [buf] and [us_last] the
    offset of its [last]. *)
Record upst := Upst {
  us_conn : option peer; us_buf : bytes; us_last : nat; us_head : rsphead; us_sid : Z;
  us_header_completed : bool; us_body_completed : bool; us_down : option dbuf }.

(** The client's connection. *)
Record client := Client {
  cl_active : bool; cl_ready : bool; cl_timer : bool;
  cl_recv : list recv_res; cl_send : list send_res }.

(** The outcome of [gvfs_event_connect_peer]: no socket or connection is left, the
    connection could not be set up, or the scripts of the new one. *)
Inductive dial := DialNone | DialFail | DialOk (recv : list recv_res) (send : list send_res).

(** What happens outside, in order. *)
Inductive act :=
  | AConnect (addr port : Z) | AUp (l : bytes) | ACloseUp
  | AClient (l : bytes) | AFile (l : bytes) | ACloseClient.

(** [px_path] and [px_query] are the parts of the URL that the HTTP parser found;
    [px_up] says whether [r->upstream] is not null; [px_bufs] is
    [gvfs_http_request_body_buf_list]; [px_ffd] says whether the file of the request
    has been opened ([r->ffd] is not 0) and with success; [px_dials] and [px_ask] script the outcomes of
    connecting and of the other calls that can fail ([epoll_ctl], allocations, the
    file); [px_time] is what [time] returns. *)
Record px := Px {
  px_path : bytes; px_query : bytes; px_io : iost; px_file : file; px_up : bool; px_us : upst;
  px_cl : client; px_bufs : list dbuf; px_ffd : option bool; px_randid : Z; px_time : Z;
  px_dials : list dial; px_ask : list bool; px_trace : list act }.
Local Abbreviation PM := (M px).

(** ** Assignments *)

Definition with_io (v : iost) (s : px) : px :=
  Px (px_path s) (px_query s) v (px_file s) (px_up s) (px_us s) (px_cl s) (px_bufs s) (px_ffd s)
     (px_randid s) (px_time s) (px_dials s) (px_ask s) (px_trace s).
Definition with_file (v : file) (s : px) : px :=
  Px (px_path s) (px_query s) (px_io s) v (px_up s) (px_us s) (px_cl s) (px_bufs s) (px_ffd s)
     (px_randid s) (px_time s) (px_dials s) (px_ask s) (px_trace s).
Definition with_up (v : bool) (s : px) : px :=
  Px (px_path s) (px_query s) (px_io s) (px_file s) v (px_us s) (px_cl s) (px_bufs s) (px_ffd s)
     (px_randid s) (px_time s) (px_dials s) (px_ask s) (px_trace s).
Definition with_us (v : upst) (s : px) : px :=
  Px (px_path s) (px_query s) (px_io s) (px_file s) (px_up s) v (px_cl s) (px_bufs s) (px_ffd s)
     (px_randid s) (px_time s) (px_dials s) (px_ask s) (px_trace s).
Definition with_cl (v : client) (s : px) : px :=
  Px (px_path s) (px_query s) (px_io s) (px_file s) (px_up s) (px_us s) v (px_bufs s) (px_ffd s)
     (px_randid s) (px_time s) (px_dials s) (px_ask s) (px_trace s).
Definition with_bufs (v : list dbuf) (s : px) : px :=
  Px (px_path s) (px_query s) (px_io s) (px_file s) (px_up s) (px_us s) (px_cl s) v (px_ffd s)
     (px_randid s) (px_time s) (px_dials s) (px_ask s) (px_trace s).
Definition with_ffd (v : option bool) (s : px) : px :=
  Px (px_path s) (px_query s) (px_io s) (px_file s) (px_up s) (px_us s) (px_cl s) (px_bufs s) v
     (px_randid s) (px_time s) (px_dials s) (px_ask s) (px_trace s).
Definition with_randid (v : Z) (s : px) : px :=
  Px (px_path s) (px_query s) (px_io s) (px_file s) (px_up s) (px_us s) (px_cl s) (px_bufs s) (px_ffd s)
     v (px_time s) (px_dials s) (px_ask s) (px_trace s).
Definition with_script (d : list dial) (a : list bool) (s : px) : px :=
  Px (px_path s) (px_query s) (px_io s) (px_file s) (px_up s) (px_us s) (px_cl s) (px_bufs s) (px_ffd s)
     (px_randid s) (px_time s) d a (px_trace s).
Definition with_trace (t : list act) (s : px) : px :=
  Px (px_path s) (px_query s) (px_io s) (px_file s) (px_up s) (px_us s) (px_cl s) (px_bufs s) (px_ffd s)
     (px_randid s) (px_time s) (px_dials s) (px_ask s) t.

Definition upd_io (f : iost → iost) : PM unit := modify (λ s, with_io (f (px_io s)) s).
Definition upd_file (f : file → file) : PM unit := modify (λ s, with_file (f (px_file s)) s).
Definition upd_us (f : upst → upst) : PM unit := modify (λ s, with_us (f (px_us s)) s).
Definition upd_cl (f : client → client) : PM unit := modify (λ s, with_cl (f (px_cl s)) s).
Definition emit (a : act) : PM unit := modify (λ s, with_trace (px_trace s ++ [a]) s).
Definition emit_all (a : bytes → act) (l : bytes) : PM unit :=
  if (length l =? 0)%nat then mret tt else emit (a l).

Definition set_sizes (b r n : Z) (i : iost) : iost := Io b r n (io_out i) (io_body i).
Definition set_body_size (v : Z) (i : iost) : iost :=
  Io v (io_recv_size i) (io_send_size i) (io_out i) (io_body i).
Definition set_recv_size (v : Z) (i : iost) : iost :=
  Io (io_body_size i) v (io_send_size i) (io_out i) (io_body i).
Definition set_send_size (v : Z) (i : iost) : iost :=
  Io (io_body_size i) (io_recv_size i) v (io_out i) (io_body i).
Definition set_out (v : bytes) (i : iost) : iost :=
  Io (io_body_size i) (io_recv_size i) (io_send_size i) v (io_body i).
Definition set_body (v : option dbuf) (i : iost) : iost :=
  Io (io_body_size i) (io_recv_size i) (io_send_size i) (io_out i) v.

Definition set_name (v : bytes) (f : file) : file :=
  File v (fl_fileid f) (fl_blockindex f) (fl_ds_number f) (fl_end f) (fl_block_number f)
       (fl_block_index f) (fl_ds_addr f).
Definition set_fileid (v : Z) (f : file) : file :=
  File (fl_name f) v (fl_blockindex f) (fl_ds_number f) (fl_end f) (fl_block_number f)
       (fl_block_index f) (fl_ds_addr f).
Definition set_blockindex (v : Z) (f : file) : file :=
  File (fl_name f) (fl_fileid f) v (fl_ds_number f) (fl_end f) (fl_block_number f)
       (fl_block_index f) (fl_ds_addr f).
Definition set_ds_number (v : Z) (f : file) : file :=
  File (fl_name f) (fl_fileid f) (fl_blockindex f) v (fl_end f) (fl_block_number f)
       (fl_block_index f) (fl_ds_addr f).
Definition set_end (v : Z) (f : file) : file :=
  File (fl_name f) (fl_fileid f) (fl_blockindex f) (fl_ds_number f) v (fl_block_number f)
       (fl_block_index f) (fl_ds_addr f).
Definition set_block_number (v : Z) (f : file) : file :=
  File (fl_name f) (fl_fileid f) (fl_blockindex f) (fl_ds_number f) (fl_end f) v
       (fl_block_index f) (fl_ds_addr f).
Definition set_block_index (v : list (option Z)) (f : file) : file :=
  File (fl_name f) (fl_fileid f) (fl_blockindex f) (fl_ds_number f) (fl_end f) (fl_block_number f)
       v (fl_ds_addr f).
Definition set_ds_addr (v : list (option (Z * Z))) (f : file) : file :=
  File (fl_name f) (fl_fileid f) (fl_blockindex f) (fl_ds_number f) (fl_end f) (fl_block_number f)
       (fl_block_index f) v.

Definition us_set_conn (v : option peer) (u : upst) : upst :=
  Upst v (us_buf u) (us_last u) (us_head u) (us_sid u) (us_header_completed u) (us_body_completed u) (us_down u).
Definition us_set_buf (b : bytes) (l : nat) (u : upst) : upst :=
  Upst (us_conn u) b l (us_head u) (us_sid u) (us_header_completed u) (us_body_completed u) (us_down u).
Definition us_set_head (h : rsphead) (u : upst) : upst :=
  Upst (us_conn u) (us_buf u) (us_last u) h (us_sid u) (us_header_completed u) (us_body_completed u) (us_down u).
Definition us_set_sid (v : Z) (u : upst) : upst :=
  Upst (us_conn u) (us_buf u) (us_last u) (us_head u) v (us_header_completed u) (us_body_completed u) (us_down u).
Definition us_set_done (h b : bool) (u : upst) : upst :=
  Upst (us_conn u) (us_buf u) (us_last u) (us_head u) (us_sid u) h b (us_down u).
Definition us_set_down (d : option dbuf) (u : upst) : upst :=
  Upst (us_conn u) (us_buf u) (us_last u) (us_head u) (us_sid u) (us_header_completed u) (us_body_completed u) d.

Definition pe_set_handler (h : uhandler) (p : peer) : peer :=
  Peer h (pe_active p) (pe_ready p) (pe_timer p) (pe_pool p) (pe_recv p) (pe_send p).
Definition pe_set_active (b : bool) (p : peer) : peer :=
  Peer (pe_handler p) b (pe_ready p) (pe_timer p) (pe_pool p) (pe_recv p) (pe_send p).
Definition pe_set_ready (b : bool) (p : peer) : peer :=
  Peer (pe_handler p) (pe_active p) b (pe_timer p) (pe_pool p) (pe_recv p) (pe_send p).
Definition pe_set_timer (b : bool) (p : peer) : peer :=
  Peer (pe_handler p) (pe_active p) (pe_ready p) b (pe_pool p) (pe_recv p) (pe_send p).
Definition pe_set_pool (b : bool) (p : peer) : peer :=
  Peer (pe_handler p) (pe_active p) (pe_ready p) (pe_timer p) b (pe_recv p) (pe_send p).
Definition pe_set_recv (s : list recv_res) (ready : bool) (p : peer) : peer :=
  Peer (pe_handler p) (pe_active p) ready (pe_timer p) (pe_pool p) s (pe_send p).
Definition pe_set_send (s : list send_res) (p : peer) : peer :=
  Peer (pe_handler p) (pe_active p) (pe_ready p) (pe_timer p) (pe_pool p) (pe_recv p) s.

Definition cl_set_active (b : bool) (c : client) : client :=
  Client b (cl_ready c) (cl_timer c) (cl_recv c) (cl_send c).
Definition cl_set_ready (b : bool) (c : client) : client :=
  Client (cl_active c) b (cl_timer c) (cl_recv c) (cl_send c).
Definition cl_set_timer (b : bool) (c : client) : client :=
  Client (cl_active c) (cl_ready c) b (cl_recv c) (cl_send c).
Definition cl_set_recv (s : list recv_res) (ready : bool) (c : client) : client :=
  Client (cl_active c) ready (cl_timer c) s (cl_send c).
Definition cl_set_send (s : list send_res) (c : client) : client :=
  Client (cl_active c) (cl_ready c) (cl_timer c) (cl_recv c) s.

(** ** Running the simple steps *)

Lemma get_bind {A} (k : px → PM A) s : (get ≫= k) s = k s s.
Proof. done. Qed.
Lemma lift_run {A B} (o : option A) (k : A → PM B) x s : o = Some x → (lift o ≫= k) s = k x s.
Proof. by intros ->. Qed.
Lemma upd_io_bind {A} f (k : unit → PM A) s : (upd_io f ≫= k) s = k tt (with_io (f (px_io s)) s).
Proof. done. Qed.
Lemma upd_file_bind {A} f (k : unit → PM A) s : (upd_file f ≫= k) s = k tt (with_file (f (px_file s)) s).
Proof. done. Qed.
Lemma upd_us_bind {A} f (k : unit → PM A) s : (upd_us f ≫= k) s = k tt (with_us (f (px_us s)) s).
Proof. done. Qed.
Lemma upd_cl_bind {A} f (k : unit → PM A) s : (upd_cl f ≫= k) s = k tt (with_cl (f (px_cl s)) s).
Proof. done. Qed.
Lemma ret_bind {A B} (x : A) (k : A → PM B) s : (mret x ≫= k) s = k x s.
Proof. done. Qed.

