(* ===== verification/ProxyHttp.v ===== *)
(** Connections and HTTP answers of the proxy: core/gvfs_connection.c,
    event/gvfs_event_connect.c, private/gvfs_upstream.c, private/gvfs_private.c,
    http/gvfs_http_buf.c, http/gvfs_http_response.c and the end of a request in
    http/gvfs_http_request.c. *)
From Stdlib Require Import String.
From S2P Require Import Prelude Bytes Text NetBuf ProxyText ProxyNet ProxyState.
Local Abbreviation PM := (M px).

Definition HTTP_Ok := 200.
Definition HTTP_Unauthorized := 401.
Definition HTTP_NotFound := 404.
Definition HTTP_NotAcceptable := 406.
Definition HTTP_InternalServerError := 500.
Definition HTTP_NotImplemented := 501.
Definition HTTP_ServiceUnavailable := 503.
Definition HTTP_MAIN_CHUNK_SIZE : nat := 1024.

(** The outcome of a call that can fail; a script that has run out lets it
    succeed. *)
Definition ask : PM bool :=
  s ← get;
  match px_ask s with
  | [] => mret true
  | b :: r => modify (with_script (px_dials s) r);; mret b
  end.

(** [gvfs_get_randid], with its static counter. *)
Definition gvfs_get_randid : PM Z :=
  s ← get;
  let id := if px_randid s =? 0 then u32 (px_time s) else px_randid s in
  modify (with_randid (u32 (id + 1)));; mret id.

(** [gvfs_palloc]: a block, or null. *)
Definition gvfs_palloc {PE : ProxyEnv} (size : nat) : PM (option bytes) :=
  ok ← ask; if (ok : bool) then mret (Some (pv_fresh size)) else mret None.

(** ** The connection to a server *)

(** [r->upstream], followed. *)
Definition upstream : PM upst := s ← get; if px_up s then mret (px_us s) else ub.
Definition get_us : PM upst := gets px_us.
(** [upstream->peer.connection], followed. *)
Definition get_peer : PM peer := u ← get_us; lift (us_conn u).
Definition upd_peer (f : peer → peer) : PM unit :=
  p ← get_peer; upd_us (us_set_conn (Some (f p))).

Definition gvfs_event_connect_peer (addr port : Z) : PM Z :=
  s ← get;
  modify (with_script (drop 1 (px_dials s)) (px_ask s));;
  match px_dials s with
  | [] | DialNone :: _ => mret GVFS_ERROR
  | DialFail :: _ => upd_us (us_set_conn None);; mret GVFS_ERROR
  | DialOk rx tx :: _ =>
      upd_us (us_set_conn (Some (Peer HNone false false false false rx tx)));;
      emit (AConnect addr (u16 port));; mret GVFS_OK
  end.
(** [gvfs_upstream_create] stores the address, [gvfs_upstream_connect] follows it. *)
Definition gvfs_upstream_init (addr port : Z) : PM Z :=
  upstream;; rc ← gvfs_event_connect_peer addr port;
  mret (if rc =? GVFS_OK then GVFS_OK else GVFS_ERROR).

(** [gvfs_epoll_add_event] and [gvfs_epoll_del_event] on either connection. *)
Definition epoll_up (active : bool) : PM Z :=
  ok ← ask; if (ok : bool) then upd_peer (pe_set_active active);; mret GVFS_OK else mret GVFS_ERROR.
Definition epoll_client (active : bool) : PM Z :=
  ok ← ask; if (ok : bool) then upd_cl (cl_set_active active);; mret GVFS_OK else mret GVFS_ERROR.

Definition send_up (data : bytes) : PM Z :=
  p ← get_peer; r ← lift (gvfs_completed_send (pe_send p) data);
  upd_peer (pe_set_send r.2);; emit_all AUp r.1.2;; mret r.1.1.
Definition send_client (data : bytes) : PM Z :=
  s ← get; r ← lift (gvfs_completed_send (cl_send (px_cl s)) data);
  upd_cl (cl_set_send r.2);; emit_all AClient r.1.2;; mret r.1.1.
Definition recv_up (size : Z) : PM (Z * bytes) :=
  p ← get_peer;
  match gvfs_unix_recv (pe_recv p) size (pe_ready p) with
  | (n, d, script, ready) => upd_peer (pe_set_recv script ready);; mret (n, d)
  end.
Definition recv_client (size : Z) : PM (Z * bytes) :=
  s ← get;
  match gvfs_unix_recv (cl_recv (px_cl s)) size (cl_ready (px_cl s)) with
  | (n, d, script, ready) => upd_cl (cl_set_recv script ready);; mret (n, d)
  end.

(** ** Body buffers: http/gvfs_http_buf.c *)

Definition gvfs_http_create_request_body_buf_list (size nelts : nat) : PM unit :=
  modify (with_bufs (replicate nelts (DBuf size []))).
Definition gvfs_http_get_request_buf_body : PM (option dbuf) :=
  s ← get;
  match px_bufs s with
  | [] => mret None
  | b :: l => modify (with_bufs l);; mret (Some (DBuf (db_size b) []))
  end.
Definition gvfs_http_free_request_body_buf (b : dbuf) : PM unit :=
  modify (λ s, with_bufs (px_bufs s ++ [b]) s).

(** ** Closing *)

(** [gvfs_close_connection(c); r->upstream = NULL], the error exit of the functions
    that send requests. *)
Definition drop_upstream : PM Z :=
  emit ACloseUp;; modify (with_up false);; mret GVFS_ERROR.

(** The pool of the connection is destroyed, with the response buffer in it. *)
Definition gvfs_free_upstream : PM unit :=
  p ← get_peer; if pe_pool p then upd_us (us_set_buf [] 0) else ub.
Definition gvfs_close_upstream : PM unit :=
  u ← upstream;
  match us_conn u with
  | None => mret tt
  | Some _ =>
      match us_down u with
      | Some d => gvfs_http_free_request_body_buf d;; upd_us (us_set_down None)
      | None => mret tt
      end;;
      gvfs_free_upstream;; emit ACloseUp;; upd_us (us_set_conn None)
  end.

Definition gvfs_http_free_request : PM unit :=
  s ← get;
  match io_body (px_io s) with
  | Some b => gvfs_http_free_request_body_buf b;; upd_io (set_body None)
  | None => mret tt
  end.
(** Without requests to the object store [upstream_busy] is never set. *)
Definition gvfs_http_close_request : PM unit :=
  modify (with_ffd None);; gvfs_close_upstream;; gvfs_http_free_request;; emit ACloseClient.

(** ** HTTP answers: http/gvfs_http_response.c *)

Definition crlf : bytes := [13; 10].
Definition quot : bytes := [34].

(** [http_responses[code]]; a null pointer where the table has no text, undefined
    outside. *)
Definition http_responses (code : Z) : option bytes :=
  if code =? 100 then Some (lit "Continue") else if code =? 200 then Some (lit "OK")
  else if code =? 201 then Some (lit "Created") else if code =? 202 then Some (lit "Accepted")
  else if code =? 400 then Some (lit "Bad Request") else if code =? 401 then Some (lit "Unauthorized")
  else if code =? 403 then Some (lit "Forbidden") else if code =? 404 then Some (lit "Not Found")
  else if code =? 406 then Some (lit "Not Acceptable")
  else if code =? 415 then Some (lit "Unsupported Media Type")
  else if code =? 500 then Some (lit "Internal Server Error")
  else if code =? 501 then Some (lit "Not Implemented")
  else if code =? 503 then Some (lit "Service Unavailable")
  else if code =? 505 then Some (lit "HTTP Version Not Supported") else None.
Definition gvfs_http_reason_phrase (code : Z) : option (option bytes) :=
  if (code <? 100) && (999 <=? code) then Some None
  else if (code <? 0) || (1000 <=? code) then None else Some (http_responses code).
(** What [snprintf] prints for it. *)
Definition phrase (code : Z) : PM bytes :=
  p ← lift (gvfs_http_reason_phrase code);
  mret (match p with Some t => t | None => lit "(null)" end).

(** [snprintf] at [headers_out->last] and the move of [last].  A text that does not
    fit would leave [last] behind the block: undefined. *)
Definition out_printf (t : bytes) : PM unit :=
  s ← get;
  let out := io_out (px_io s) in
  if (length out + length t <? HTTP_MAIN_CHUNK_SIZE)%nat then upd_io (set_out (out ++ t)) else ub.

Definition gvfs_http_response_headers (code content_length : Z) : PM unit :=
  p ← phrase code;
  out_printf (lit "HTTP/1.1 " ++ fmt_d code ++ lit " " ++ p ++ crlf ++
              lit "Server: gvfs/1.0.0" ++ crlf ++ lit "Content-Type: text/html" ++ crlf);;
  whenM (negb (content_length =? 0))
    (out_printf (lit "Content-Length: " ++ fmt_u content_length ++ crlf));;
  out_printf (lit "Connection: keep-alive" ++ crlf ++ crlf).

(** The page for a status. *)
Definition html (p : bytes) : bytes :=
  lit "<html>" ++ crlf ++ lit "<head>" ++ crlf ++ lit "<title>Welcome to gvfs</title>" ++ crlf ++
  lit "</head>" ++ crlf ++
  lit "<body bgcolor=" ++ quot ++ lit "white" ++ quot ++ lit " text=" ++ quot ++ lit "black" ++ quot ++
  lit ">" ++ crlf ++ lit "<center><h1>" ++ p ++ lit "!</h1></center>" ++ crlf ++
  lit "</body>" ++ crlf ++ lit "</html>" ++ crlf.

(** An answer with a text of its own: headers with its length, then the text. *)
Definition answer (code : Z) (body : bytes) : PM unit :=
  gvfs_http_response_headers code (Z.of_nat (length body));; out_printf body.
(** [gvfs_upstream_to_http_response r code NULL] *)
Definition gvfs_upstream_to_http_response (code : Z) : PM unit :=
  p ← phrase code; answer code (html p).

(** The headers are zeroed, so the parts of the URL are empty texts. *)
Definition gvfs_http_reinit_request : PM unit :=
  modify (λ s, Px [] [] (px_io s) (px_file s) (px_up s) (px_us s) (px_cl s) (px_bufs s) (px_ffd s)
                  (px_randid s) (px_time s) (px_dials s) (px_ask s) (px_trace s));;
  upd_io (λ i, set_out [] (set_sizes 0 0 0 i)).

Definition gvfs_http_finalize_request (code : Z) : PM unit :=
  s ← get;
  whenM (length (io_out (px_io s)) =? 0)%nat (p ← phrase code; answer code (html p));;
  s ← get; send_client (io_out (px_io s));; gvfs_http_reinit_request.
