(* ===== verification/ProxyMsg.v ===== *)
(** The requests the proxy sends: private/gvfs_http_query.c,
    private/gvfs_http_delete.c, private/gvfs_http_upload.c and
    private/gvfs_http_download.c under src/gvfsproxy/src.

    Integers go to the wire as [htonl] or [gvfs_rb64] makes them; arrays on the
    stack have the size of the source. *)
From Stdlib Require Import String.
From S2P Require Import Prelude Bytes Text Tools NetBuf ProxyText ProxyNet ProxyState ProxyHttp.
Local Abbreviation PM := (M px).

(** A C string: the bytes before the first zero. *)
Fixpoint cstr (b : bytes) : bytes :=
  match b with [] => [] | c :: b => if c =? 0 then [] else c :: cstr b end.

(** [char query_str[512]] after [snprintf(query_str, query_string_len + 1, "%s", ...)]. *)
Definition query_str (query : bytes) : option bytes :=
  let t := cstr query in if (length t <? 512)%nat then Some t else None.

(** The loop of [gvfs_query_querystr_parse] and [gvfs_delete_querystr_parse]: each
    [snprintf] of size 2 writes a character and a zero. *)
Fixpoint querystr_loop (p : bytes) (icnt filehash_len : nat) (filehash : bytes) : option bytes :=
  match p with
  | [] => Some filehash
  | c :: p =>
      if (icnt <? filehash_len)%nat
      then b ← st_bytes icnt [c; 0] filehash; querystr_loop p (S icnt) filehash_len b
      else Some filehash
  end.
Definition gvfs_query_querystr_parse (input filehash : bytes) (filehash_len : nat) : option (Z * bytes) :=
  match strstr input (lit "filehash=") with
  | None => Some (GVFS_ERROR, filehash)
  | Some p => b ← querystr_loop (drop 9 p) 0 filehash_len filehash; Some (GVFS_OK, b)
  end.
Definition gvfs_delete_querystr_parse := gvfs_query_querystr_parse.

Section env.
Context {PE : ProxyEnv}.

(** What every request function does with its message: [handler] waits for the
    answer in a new buffer of [bufsize] bytes.  Without memory for the buffer
    its address is null, and no byte can be stored in it. *)
Definition transmit (handler : uhandler) (sid : Z) (request : bytes) (bufsize : nat) (timer : bool) : PM Z :=
  upstream;;
  upd_us (us_set_sid sid);;
  upd_peer (pe_set_handler handler);;
  p ← get_peer;
  rc ← (if pe_active p then mret GVFS_OK else epoll_up true);
  if negb (rc =? GVFS_OK) then drop_upstream else
  rc ← send_up request;
  if negb (rc =? GVFS_OK) then drop_upstream else
  ok ← ask;
  if negb ok then drop_upstream else
  upd_peer (pe_set_pool true);;
  b ← gvfs_palloc bufsize;
  upd_us (us_set_buf (default [] b) 0);;
  whenM timer (upd_peer (pe_set_timer true));;
  mret GVFS_OK.

(** The heads of messages. *)
Definition ns_head (len sid type : Z) : bytes :=
  le_bytes 4 (htonl len) ++ le_bytes 4 (htonl sid) ++ le_bytes 4 (htonl type).

(** ** Query and delete *)

(** The message of 36 bytes in [request[52]]; encrypt and separate are skipped. *)
Definition file_message (sid type : Z) (filehash : bytes) : option bytes :=
  b ← st_bytes 0 (ns_head 36 sid type) (replicate 52 0);
  file_hash ← gvfs_hextoi (pv_stack 16) 16 (cstr filehash);
  b ← st_bytes 16 file_hash b; Some (take 36 b).

(** [gvfs_srand] seeds a generator that is not used. *)
Definition gvfs_ns_query_request : PM Z :=
  s ← get;
  q ← lift (query_str (px_query s));
  r ← lift (gvfs_query_querystr_parse q (replicate 64 0) 64);
  if negb (r.1 =? GVFS_OK) then mret GVFS_ERROR else
  rc ← gvfs_upstream_init pv_ns.1 pv_ns.2;
  if negb (rc =? GVFS_OK) then mret GVFS_ERROR else
  sid ← gvfs_get_randid;
  m ← lift (file_message sid 0x0a r.2);
  transmit HNsHeader sid m 3072 true.

Definition gvfs_ns_delete_request : PM Z :=
  s ← get;
  q ← lift (query_str (px_query s));
  r ← lift (gvfs_delete_querystr_parse q (replicate 64 0) 64);
  if negb (r.1 =? GVFS_OK) then mret GVFS_ERROR else
  rc ← gvfs_upstream_init pv_ns.1 pv_ns.2;
  if negb (rc =? GVFS_OK) then mret GVFS_ERROR else
  sid ← gvfs_get_randid;
  m ← lift (file_message sid 0x04 r.2);
  transmit HNsHeader sid m 3072 true.

(** ** Upload and download *)

(** [gvfs_string_value] of several keys in turn: the texts, or the first failure. *)
Fixpoint string_values (q : bytes) (keys : list (bytes * Z)) : option (list (bytes * bool)) :=
  match keys with
  | [] => Some []
  | (key, vlen) :: keys =>
      match gvfs_string_value q key vlen (lit "&") with
      | (_, None) => None
      | (_, Some v) => t ← string_values q keys; Some (v :: t)
      end
  end.
Definition upload_keys : list (bytes * Z) :=
  [(lit "filename", 128); (lit "filesize", 16); (lit "blocksize", 16); (lit "filehash", 64);
   (lit "blocknumber", 16); (lit "blockindex", 16)].
Definition download_keys : list (bytes * Z) :=
  [(lit "blocksize", 16); (lit "filehash", 64); (lit "blockindex", 16)].

Definition upload_message (sid : Z) (filehash filesize blocknum blockindex : bytes) : option bytes :=
  b ← st_bytes 0 (ns_head 52 sid 0x02) (replicate 52 0);
  file_hash ← gvfs_hextoi (pv_stack 16) 16 filehash;
  b ← st_bytes 16 file_hash b;
  file_size ← gvfs_rb64 (le_bytes 8 (atoll filesize)) 0;
  b ← st_bytes 32 (le_bytes 8 file_size) b;
  b ← st_bytes 40 (le_bytes 4 (htonl (u32 (atoll blocknum)))) b;
  b ← st_bytes 44 (le_bytes 4 (ntohl (u32 (atoll blockindex)))) b; Some b.

Definition gvfs_ns_upload_request : PM Z :=
  s ← get;
  q ← lift (query_str (px_query s));
  match string_values q upload_keys with
  | Some [filename; filesize; blocksize; filehash; blocknum; blockindex] =>
      name ← lift (value_text filename);
      upd_file (set_name (take 127 name));;
      rc ← gvfs_upstream_init pv_ns.1 pv_ns.2;
      if negb (rc =? GVFS_OK) then mret GVFS_ERROR else
      bs ← lift (value_text blocksize);
      upd_file (set_end (u32 (atoll bs)));;
      sid ← gvfs_get_randid;
      h ← lift (value_text filehash); fs ← lift (value_text filesize);
      bn ← lift (value_text blocknum); bi ← lift (value_text blockindex);
      upd_file (set_blockindex (u32 (atoll bi)));;
      m ← lift (upload_message sid h fs bn bi);
      transmit HNsHeader sid m 3072 true
  | _ => mret GVFS_ERROR
  end.

Definition download_message (sid : Z) (filehash blockindex : bytes) : option bytes :=
  b ← st_bytes 0 (ns_head 40 sid 0x03) (replicate 52 0);
  file_hash ← gvfs_hextoi (pv_stack 16) 16 filehash;
  b ← st_bytes 16 file_hash b;
  b ← st_bytes 32 (le_bytes 4 (ntohl (u32 (atoll blockindex)))) b; Some (take 40 b).

Definition gvfs_ns_download_request : PM Z :=
  s ← get;
  q ← lift (query_str (px_query s));
  match string_values q download_keys with
  | Some [blocksize; filehash; blockindex] =>
      rc ← gvfs_upstream_init pv_ns.1 pv_ns.2;
      if negb (rc =? GVFS_OK) then mret GVFS_ERROR else
      bs ← lift (value_text blocksize);
      upd_file (set_end (u32 (atoll bs)));;
      sid ← gvfs_get_randid;
      h ← lift (value_text filehash); bi ← lift (value_text blockindex);
      m ← lift (download_message sid h bi);
      transmit HNsHeader sid m 3072 true
  | _ => mret GVFS_ERROR
  end.

(** ** Requests to data servers *)

(** [r->ds_addr[cnt]] and [r->block_index[cnt]]. *)
Definition ds_addr (cnt : nat) : PM (Z * Z) :=
  s ← get; a ← lift (fl_ds_addr (px_file s) !! cnt); lift a.
Definition block_index (cnt : nat) : PM Z :=
  s ← get; a ← lift (fl_block_index (px_file s) !! cnt); lift a.

(** The first server that can be reached, of the [n] from [cnt] on.  [inet_addr]
    reads back what [inet_ntoa] wrote. *)
Fixpoint ds_connect (n cnt : nat) : PM (option nat) :=
  match n with
  | O => mret None
  | S n =>
      a ← ds_addr cnt;
      rc ← gvfs_upstream_init a.1 (ntohl a.2);
      if negb (rc =? GVFS_OK) then ds_connect n (S cnt) else mret (Some cnt)
  end.

(** The other servers, behind the [size] bytes written so far: the block and the
    new size. *)
Fixpoint ds_others (n cnt cur : nat) (size : nat) (request : bytes) : PM (bytes * nat) :=
  match n with
  | O => mret (request, size)
  | S n =>
      if (cur =? cnt)%nat then ds_others n (S cnt) cur size request else
      a ← ds_addr cnt;
      b ← lift (st_bytes size (le_bytes 4 a.1) request);
      b ← lift (st_bytes (size + 16) (le_bytes 4 a.2) b);
      ds_others n (S cnt) cur (size + 20) b
  end.

(** Head, block id and range of a message to a data server; [end - 1] is
    computed on 32 bits. *)
Definition ds_head (len sid type : Z) (encrypt : bytes) : bytes :=
  le_bytes 4 (htonl len) ++ le_bytes 4 (htonl sid) ++ le_bytes 4 (htonl type) ++ encrypt.
Definition ds_block (fileid blockindex end_ : Z) : option bytes :=
  id ← gvfs_rb64 (le_bytes 8 fileid) 0;
  Some (le_bytes 8 id ++ le_bytes 4 (htonl blockindex) ++ le_bytes 4 0 ++ le_bytes 4 (htonl (u32 (end_ - 1)))).

Definition gvfs_ds_upload_request : PM Z :=
  s ← get;
  let number := fl_ds_number (px_file s) in
  cur ← ds_connect (Z.to_nat number) 0;
  match cur with
  | None => mret GVFS_ERROR
  | Some cur =>
      let others := u32 (number - 1) in
      sid ← gvfs_get_randid;
      b ← lift (st_bytes 0 (ds_head (u32 (40 + others * 20)) sid 0x0101 (le_bytes 4 0)) (replicate 1460 0));
      blk ← lift (ds_block (fl_fileid (px_file s)) (fl_blockindex (px_file s)) (fl_end (px_file s)));
      b ← lift (st_bytes 16 blk b);
      b ← lift (st_bytes 36 (le_bytes 4 (htonl others)) b);
      r ← ds_others (Z.to_nat number) 0 cur 40 b;
      transmit HDsHeader sid (take r.2 r.1) 1024 false
  end.

(** The loop over the blocks leaves after the first one; [encrypt] is not set. *)
Definition gvfs_ds_download_request : PM Z :=
  s ← get;
  if fl_block_number (px_file s) <=? 0 then mret GVFS_ERROR else
  a ← ds_addr 0; bi ← block_index 0;
  rc ← gvfs_upstream_init a.1 (ntohl a.2);
  if negb (rc =? GVFS_OK) then mret GVFS_ERROR else
  sid ← gvfs_get_randid;
  b ← lift (st_bytes 0 (ds_head 36 sid 0x0102 (pv_stack 4)) (replicate 52 0));
  blk ← lift (ds_block (fl_fileid (px_file s)) bi (fl_end (px_file s)));
  b ← lift (st_bytes 16 blk b);
  transmit HDsHeader sid (take 36 b) 1024 true.
End env.
