(* ===== verification/ProxyRsp.v ===== *)
(** The answers of the name service and of data servers:
    private/gvfs_ns_file_query.c, gvfs_ns_file_delete.c, gvfs_ns_file_upload.c,
    gvfs_ns_file_download.c, gvfs_ds_file_upload.c, gvfs_ds_file_download.c and
    [gvfs_ns_process] and [gvfs_ds_process].

    An answer lies in [us_buf] from its start; fields are read there by offset. *)
From Stdlib Require Import String.
From S2P Require Import Prelude Bytes Text NetBuf ProxyText ProxyNet ProxyState ProxyHttp ProxyMsg.
Local Abbreviation PM := (M px).

Definition GVFS_NS_OK := 0.
Definition GVFS_NS_ERROR := 1.
Definition NS_FILE_UPLOAD := 0x0002.
Definition NS_FILE_DOWNLOAD := 0x0003.
Definition NS_FILE_DELETE := 0x0004.
Definition NS_FILE_QUERY := 0x000a.
Definition DS_BLOCK_UPLOAD := 0x0101.
Definition DS_BLOCK_DOWNLOAD := 0x0102.

(** A reader on the response buffer. *)
Definition rd (f : bytes → nat → option Z) (off : nat) : PM Z := u ← get_us; lift (f (us_buf u) off).
Definition head_rtn : PM Z := u ← get_us; mret (rh_rtn (us_head u)).

Section env.
Context {PE : ProxyEnv}.

(** ** Query *)

(** [rspq]: file size and block size. *)
Definition gvfs_ns_file_query_process : PM (Z * Z) :=
  rd gvfs_rb32 16;;
  file_size ← rd gvfs_rb64 20; block_size ← rd gvfs_rb32 28;
  rd gvfs_rb32 32;; mret (file_size, block_size).
Definition query_body (rtn : Z) (rspq : Z * Z) : bytes :=
  if (rtn =? 0) || (rtn =? 20)
  then lit "file_size=" ++ fmt_u rspq.1 ++ lit "&block_size=" ++ fmt_u rspq.2
  else lit "rtn=" ++ fmt_u rtn.
Definition gvfs_ns_file_query_completed (rspq : Z * Z) : PM Z :=
  rtn ← head_rtn; answer HTTP_Ok (query_body rtn rspq);; mret GVFS_NS_OK.

(** ** Delete *)

Definition gvfs_ns_file_delete_process : PM unit := rd gvfs_rb32 16;; rd gvfs_rb32 20;; mret tt.
Definition rtn_body (rtn : Z) : bytes := lit "rtn=" ++ fmt_u rtn.
Definition gvfs_ns_file_delete_completed : PM Z :=
  rtn ← head_rtn; answer HTTP_Ok (rtn_body rtn);; mret GVFS_NS_OK.

(** ** Upload *)

(** [r->ds_addr[i] = a]; outside the array undefined. *)
Definition put_ds_addr (i : nat) (a : Z * Z) : PM unit :=
  s ← get; let l := fl_ds_addr (px_file s) in
  if (i <? length l)%nat then upd_file (set_ds_addr (<[i := Some a]> l)) else ub.
Definition put_block_index (i : nat) (v : Z) : PM unit :=
  s ← get; let l := fl_block_index (px_file s) in
  if (i <? length l)%nat then upd_file (set_block_index (<[i := Some v]> l)) else ub.

(** Arrays of [n] entries from the pool, null when there is no memory. *)
Definition alloc_ds_addr (n : Z) : PM unit :=
  ok ← ask; upd_file (set_ds_addr (if (ok : bool) then replicate (Z.to_nat n) None else [])).
Definition alloc_block_index (n : Z) : PM unit :=
  ok ← ask; upd_file (set_block_index (if (ok : bool) then replicate (Z.to_nat n) None else [])).

(** The loop over the servers: the offset behind the last one. *)
Fixpoint upload_entries (n i p : nat) : PM nat :=
  match n with
  | O => mret p
  | S n =>
      ip ← rd (λ b p, ld32 p b) p; port ← rd (λ b p, ld32 p b) (p + 16);
      put_ds_addr i (ip, port);; upload_entries n (S i) (p + 20)
  end.
Definition gvfs_ns_file_upload_process : PM unit :=
  rd gvfs_rb32 16;;
  file_id ← rd gvfs_rb64 20; upd_file (set_fileid file_id);;
  number ← rd gvfs_rb32 28; upd_file (set_ds_number number);;
  p ← (if 0 <? number then alloc_ds_addr number;; upload_entries (Z.to_nat number) 0 32 else mret 32%nat);
  rd gvfs_rb32 p;; mret tt.
Definition upload_body (rtn number : Z) : bytes :=
  lit "rtn=" ++ fmt_u rtn ++ lit "&ds_number=" ++ fmt_u number.
Definition gvfs_ns_file_upload_completed : PM Z :=
  rtn ← head_rtn; s ← get;
  let number := fl_ds_number (px_file s) in
  answer HTTP_Ok (upload_body rtn number);;
  gvfs_close_upstream;;
  if (rtn =? 0) && (0 <? number) then
    rc ← gvfs_ds_upload_request;
    if negb (rc =? GVFS_OK)
    then upd_io (set_out []);; gvfs_upstream_to_http_response HTTP_NotAcceptable;; mret GVFS_NS_ERROR
    else mret GVFS_NS_OK
  else mret GVFS_NS_OK.

(** ** Download *)

Fixpoint download_entries (n i p : nat) : PM nat :=
  match n with
  | O => mret p
  | S n =>
      bi ← rd gvfs_rb32 p; put_block_index i bi;;
      port ← rd (λ b p, ld32 p b) (p + 4); ip ← rd (λ b p, ld32 p b) (p + 8);
      put_ds_addr i (ip, port);; download_entries n (S i) (p + 24)
  end.
(** The array of servers has [r->ds_number] entries. *)
Definition gvfs_ns_file_download_process : PM unit :=
  rd gvfs_rb32 16;;
  file_id ← rd gvfs_rb64 20; upd_file (set_fileid file_id);;
  number ← rd gvfs_rb32 28; upd_file (set_block_number number);;
  p ← (if 0 <? number then
         alloc_block_index number;; s ← get; alloc_ds_addr (fl_ds_number (px_file s));;
         download_entries (Z.to_nat number) 0 32
       else mret 32%nat);
  rd gvfs_rb32 p;; mret tt.
Definition download_body (rtn number : Z) : bytes :=
  lit "rtn=" ++ fmt_u rtn ++ lit "&block_number=" ++ fmt_u number.
Definition gvfs_ns_file_download_completed : PM Z :=
  rtn ← head_rtn; s ← get;
  let number := fl_block_number (px_file s) in
  answer (if rtn =? 0 then HTTP_Ok else HTTP_NotFound) (download_body rtn number);;
  gvfs_close_upstream;;
  if (rtn =? 0) && (0 <? number) then
    upd_io (set_out []);;
    rc ← gvfs_ds_download_request;
    if negb (rc =? GVFS_OK)
    then gvfs_upstream_to_http_response HTTP_NotAcceptable;; mret GVFS_NS_ERROR
    else mret GVFS_NS_OK
  else gvfs_http_finalize_request 200;; mret GVFS_NS_OK.

(** ** [gvfs_ns_process] *)

Definition gvfs_ns_process : PM Z :=
  u ← get_us;
  let type := rh_type (us_head u) in
  if negb (bool_decide (type ∈ [NS_FILE_QUERY; NS_FILE_UPLOAD; NS_FILE_DOWNLOAD; NS_FILE_DELETE]))
  then mret GVFS_ERROR else
  rsh ← ask;
  if negb rsh then mret GVFS_ERROR else
  rc ← (if type =? NS_FILE_QUERY then
          rspq ← gvfs_ns_file_query_process; rc ← gvfs_ns_file_query_completed rspq;
          gvfs_close_upstream;; mret rc
        else if type =? NS_FILE_UPLOAD then gvfs_ns_file_upload_process;; gvfs_ns_file_upload_completed
        else if type =? NS_FILE_DOWNLOAD then gvfs_ns_file_download_process;; gvfs_ns_file_download_completed
        else
          gvfs_ns_file_delete_process;; rc ← gvfs_ns_file_delete_completed;
          gvfs_close_upstream;; mret rc);
  mret (if rc =? GVFS_NS_OK then GVFS_OK else GVFS_ERROR).

(** ** Data servers *)

Definition gvfs_ds_file_upload_completed : PM unit :=
  rtn ← head_rtn; answer HTTP_Ok (rtn_body rtn).
(** A block comes with code 200: only headers are printed, and the client's timer
    is stopped. *)
Definition gvfs_ds_file_download_completed : PM unit :=
  rtn ← head_rtn; s ← get;
  if rtn =? 200 then
    whenM (cl_timer (px_cl s)) (upd_cl (cl_set_timer false));;
    gvfs_http_response_headers HTTP_Ok (io_body_size (px_io s))
  else answer HTTP_Ok (rtn_body rtn).
Definition gvfs_ds_process : PM Z :=
  u ← get_us;
  let type := rh_type (us_head u) in
  if type =? DS_BLOCK_UPLOAD then gvfs_ds_file_upload_completed;; mret GVFS_OK
  else if type =? DS_BLOCK_DOWNLOAD then gvfs_ds_file_download_completed;; mret GVFS_OK
  else mret GVFS_ERROR.
End env.
