(* ===== verification/ProxyLoop.v ===== *)
(** The handlers of the proxy's read events: private/gvfs_ns_interface.c,
    private/gvfs_ds_interface.c, http/gvfs_http_request_body.c and the dispatcher
    in http/gvfs_http_request.c.

    A handler is told whether its timer ran out.  Loops that receive take one unit of
    fuel for a call that succeeds; every such call takes at least one byte from the
    script, so one unit more than the script holds bytes is enough. *)
From Stdlib Require Import String.
From S2P Require Import Prelude Bytes Text NetBuf ProxyText ProxyNet ProxyState ProxyHttp ProxyMsg ProxyRsp.
Local Abbreviation PM := (M px).

(** The loop that fills the response buffer up to [size] bytes, common to the three
    readers: the last result of [recv].  [received] counts from the start of the
    call, [rsize] is what is missing in this turn. *)
Fixpoint fill_loop (fuel : nat) (size received : Z) : PM Z :=
  match fuel with
  | O => ub
  | S fuel =>
      u ← get_us;
      let rsize := u64 (size - Z.of_nat (us_last u)) in
      r ← recv_up rsize;
      if (r.1 =? GVFS_AGAIN) || (r.1 =? GVFS_ERROR) || (r.1 =? 0) then mret r.1 else
      b ← lift (st_bytes (us_last u) r.2 (us_buf u));
      upd_us (us_set_buf b (us_last u + length r.2));;
      let received := received + r.1 in
      if u64 received =? rsize then mret r.1 else fill_loop fuel size received
  end.
Definition up_fuel : PM nat := p ← get_peer; mret (S (length (rx_data (pe_recv p)))).
Definition fill (size : Z) : PM Z := f ← up_fuel; fill_loop f size 0.

Section env.
Context {PE : ProxyEnv}.

(** ** The name service *)

Definition gvfs_ns_read_response_header : PM Z :=
  n ← fill 16;
  if (n =? GVFS_AGAIN) || (n =? GVFS_ERROR) || (n =? 0) then mret n else
  u ← get_us; upd_us (us_set_done true (us_body_completed u));;
  len ← rd gvfs_rb32 0; id ← rd gvfs_rb32 4; type ← rd gvfs_rb32 8; rtn ← rd gvfs_rb32 12;
  upd_us (us_set_head (RspHead len id type (rh_encrypt (us_head u)) rtn));;
  mret n.

Definition gvfs_ns_read_response_body : PM Z :=
  u ← get_us; n ← fill (rh_len (us_head u));
  if (n =? GVFS_AGAIN) || (n =? GVFS_ERROR) || (n =? 0) then mret n else
  u ← get_us; upd_us (us_set_done (us_header_completed u) true);; mret n.

Definition fail_upstream (code : Z) : PM unit := gvfs_http_finalize_request code;; gvfs_close_upstream.

(** A receive that gives bytes completes the message and sets the flag, so the loop
    around it has one turn. *)
Definition gvfs_ns_process_response_body : PM unit :=
  n ← gvfs_ns_read_response_body;
  if n =? GVFS_AGAIN then mret tt
  else if n =? GVFS_ERROR then fail_upstream HTTP_InternalServerError
  else if n =? 0 then fail_upstream HTTP_NotAcceptable
  else
    u ← get_us;
    if negb (us_body_completed u) then ub else
    rc ← gvfs_ns_process;
    if negb (rc =? GVFS_OK) then fail_upstream HTTP_Ok else
    u ← get_us;
    whenM (negb (rh_type (us_head u) =? NS_FILE_DOWNLOAD)) (gvfs_http_finalize_request HTTP_Ok).

Definition gvfs_ns_process_response_header (timedout : bool) : PM unit :=
  if timedout then fail_upstream HTTP_NotAcceptable else
  n ← gvfs_ns_read_response_header;
  if n =? GVFS_AGAIN then mret tt
  else if n =? GVFS_ERROR then fail_upstream HTTP_InternalServerError
  else if n =? 0 then fail_upstream HTTP_NotAcceptable
  else
    u ← get_us;
    if negb (us_header_completed u) then ub else
    upd_peer (pe_set_handler HNsBody);; gvfs_ns_process_response_body.

(** ** Data servers *)

Definition gvfs_ds_write_download_data : PM Z :=
  upstream;; u ← get_us; d ← lift (us_down u);
  n ← send_client (db_data d);
  mret (if n =? GVFS_OK then GVFS_OK else GVFS_ERROR).

Definition gvfs_ds_read_respodse_header : PM Z :=
  n ← fill 20;
  if (n =? GVFS_AGAIN) || (n =? GVFS_ERROR) || (n =? 0) then mret n else
  u ← get_us; upd_us (us_set_done true (us_body_completed u));;
  len ← rd gvfs_rb32 0; id ← rd gvfs_rb32 4; type ← rd gvfs_rb32 8;
  encrypt ← rd gvfs_rb32 12; rtn ← rd gvfs_rb32 16;
  upd_us (us_set_head (RspHead len id type encrypt rtn));;
  mret n.

Definition gvfs_ds_read_respodse_body : PM Z :=
  p ← get_peer; u ← get_us; d ← lift (us_down u);
  r ← (if pe_ready p then recv_up (Z.of_nat (db_size d - length (db_data d))) else mret (GVFS_AGAIN, []));
  if r.1 =? GVFS_AGAIN then
    p ← get_peer;
    if negb (pe_active p) && negb (pe_ready p) then
      rc ← epoll_up true; mret (if rc =? GVFS_ERROR then GVFS_ERROR else GVFS_AGAIN)
    else mret GVFS_AGAIN
  else
    whenM (0 <? r.1) (upd_us (us_set_down (Some (DBuf (db_size d) (db_data d ++ r.2)))));;
    mret r.1.

Definition ds_body_end : PM unit :=
  s ← get; whenM (negb (cl_timer (px_cl s))) (upd_cl (cl_set_timer true));; gvfs_close_upstream.
Fixpoint ds_body_loop (fuel : nat) : PM unit :=
  match fuel with
  | O => ub
  | S fuel =>
      u ← get_us; d ← lift (us_down u);
      whenM (length (db_data d) =? db_size d)%nat
        (gvfs_ds_write_download_data;; upd_us (us_set_down (Some (DBuf (db_size d) []))));;
      n ← gvfs_ds_read_respodse_body;
      if n =? GVFS_AGAIN then mret tt
      else if (n =? GVFS_ERROR) || (n =? 0) then ds_body_end
      else
        s ← get;
        let got := io_recv_size (px_io s) + n in
        upd_io (set_recv_size got);;
        if io_body_size (px_io s) =? got then gvfs_ds_write_download_data;; ds_body_end
        else ds_body_loop fuel
  end.
Definition gvfs_ds_process_respodse_body : PM unit := f ← up_fuel; ds_body_loop f.

(** [r->start] is never set: the body has [r->end] bytes. *)
Definition gvfs_ds_process_respodse_header (timedout : bool) : PM unit :=
  if timedout then fail_upstream HTTP_NotAcceptable else
  upd_peer (pe_set_timer false);;
  n ← gvfs_ds_read_respodse_header;
  if n =? GVFS_AGAIN then mret tt
  else if n =? GVFS_ERROR then fail_upstream HTTP_InternalServerError
  else if n =? 0 then fail_upstream HTTP_NotAcceptable
  else
    u ← get_us;
    if negb (us_header_completed u) then ub
    else if rh_type (us_head u) =? DS_BLOCK_UPLOAD then gvfs_ds_process;; fail_upstream HTTP_Ok
    else if rh_type (us_head u) =? DS_BLOCK_DOWNLOAD then
      s ← get;
      let size := fl_end (px_file s) in
      upd_io (set_body_size size);;
      gvfs_ds_process;;
      d ← gvfs_http_get_request_buf_body;
      upd_us (us_set_down d);;
      match d with
      | None => upd_io (set_out []);; fail_upstream HTTP_ServiceUnavailable
      | Some _ =>
          gvfs_http_finalize_request HTTP_Ok;;
          p ← get_peer;
          rc ← (if pe_active p then epoll_up false else mret GVFS_OK);
          if negb (rc =? GVFS_OK) then fail_upstream HTTP_InternalServerError else
          upd_io (set_body_size size);;
          upd_peer (pe_set_handler HDsBody);; gvfs_ds_process_respodse_body
      end
    else fail_upstream HTTP_NotImplemented.

(** ** The body of the client's request: http/gvfs_http_request_body.c *)

Definition gvfs_http_read_request_body : PM Z :=
  s ← get; d ← lift (io_body (px_io s));
  r ← (if cl_ready (px_cl s) then recv_client (Z.of_nat (db_size d - length (db_data d))) else mret (GVFS_AGAIN, []));
  if r.1 =? GVFS_AGAIN then
    s ← get;
    if negb (cl_active (px_cl s)) && negb (cl_ready (px_cl s)) then
      rc ← epoll_client true; mret (if rc =? GVFS_ERROR then GVFS_ERROR else GVFS_AGAIN)
    else mret GVFS_AGAIN
  else
    whenM (0 <? r.1) (upd_io (set_body (Some (DBuf (db_size d) (db_data d ++ r.2)))));;
    mret r.1.

Definition gvfs_http_write_request_body : PM Z :=
  s ← get; d ← lift (io_body (px_io s));
  n ← send_up (db_data d);
  if n =? GVFS_OK then
    upd_io (set_send_size (io_send_size (px_io s) + Z.of_nat (length (db_data d))));; mret GVFS_OK
  else mret GVFS_ERROR.
(** Without a connection to a server the body goes to a file; [write] takes all.  An
    [open] that failed is not tried again: its -1 is not 0, and [write] refuses it. *)
Definition gvfs_http_write_request_body_to_file : PM Z :=
  s ← get; d ← lift (io_body (px_io s));
  ok ← match px_ffd s with
       | None => ok ← ask; modify (with_ffd (Some ok));; mret ok
       | Some ok => mret (ok || bool_decide (db_data d = []))
       end;
  if negb ok then mret GVFS_ERROR else
  emit_all AFile (db_data d);;
  upd_io (set_send_size (io_send_size (px_io s) + Z.of_nat (length (db_data d))));; mret GVFS_OK.
Definition write_body : PM unit :=
  u ← upstream;
  match us_conn u with
  | Some _ => gvfs_http_write_request_body;; mret tt
  | None => gvfs_http_write_request_body_to_file;; mret tt
  end.

Fixpoint client_body_loop (fuel : nat) : PM Z :=
  match fuel with
  | O => ub
  | S fuel =>
      s ← get; d ← lift (io_body (px_io s));
      whenM (length (db_data d) =? db_size d)%nat
        (write_body;; upd_io (set_body (Some (DBuf (db_size d) []))));;
      n ← gvfs_http_read_request_body;
      if n =? GVFS_AGAIN then mret GVFS_OK
      else if n =? GVFS_ERROR then gvfs_http_finalize_request HTTP_InternalServerError;; mret GVFS_OK
      else if n =? 0 then gvfs_http_close_request;; mret GVFS_OK
      else
        s ← get;
        let got := io_recv_size (px_io s) + n in
        upd_io (set_recv_size got);;
        if io_body_size (px_io s) =? got then
          u ← upstream;
          whenM (bool_decide (is_Some (us_conn u))) (upd_peer (pe_set_timer true));;
          write_body;; mret GVFS_OK
        else client_body_loop fuel
  end.
Definition gvfs_http_do_read_client_request_body : PM Z :=
  s ← get; client_body_loop (S (length (rx_data (cl_recv (px_cl s))))).
Definition gvfs_http_read_client_request_body_handler (timedout : bool) : PM unit :=
  if timedout then gvfs_http_close_request else
  upd_cl (cl_set_timer true);; gvfs_http_do_read_client_request_body;; mret tt.

(** ** The dispatcher *)

(** [strncmp(rp, name, n) == 0] of a text and a constant. *)
Fixpoint strncmp_eq (rp name : bytes) (n : nat) : bool :=
  match n with
  | O => true
  | S n =>
      match rp, name with
      | [], [] => true
      | c :: rp, d :: name => (c =? d) && ((c =? 0) || strncmp_eq rp name n)
      | c :: _, [] => c =? 0
      | [], d :: _ => d =? 0
      end
  end.

(** Requests to the object store (cos/) are an argument. *)
Definition gvfs_http_request_handler (gvfs_cos_request_init : PM Z) : PM Z :=
  u ← upstream;
  if bool_decide (is_Some (us_conn u)) then mret GVFS_OK else
  s ← get;
  match px_path s with
  | [] => ub
  | _ :: rp =>
  let rp_len := length rp in
  if (rp_len =? 0)%nat then mret GVFS_ERROR else
  rc ← (if strncmp_eq rp (lit "storage/v1/query") rp_len then gvfs_ns_query_request
        else if strncmp_eq rp (lit "storage/v1/upload") rp_len then gvfs_ns_upload_request
        else if strncmp_eq rp (lit "storage/v1/download") rp_len then gvfs_ns_download_request
        else if strncmp_eq rp (lit "storage/v1/delete") rp_len then gvfs_ns_delete_request
        else if strncmp_eq rp (lit "cos") rp_len then
          rc ← gvfs_cos_request_init;
          gvfs_http_finalize_request (if rc =? GVFS_OK then HTTP_Ok else HTTP_ServiceUnavailable);; mret rc
        else mret GVFS_ERROR);
  mret (if rc =? GVFS_OK then GVFS_OK else GVFS_ERROR)
  end.

(** An event on the connection to a server: data to read, or its timer. *)
Definition up_event (timedout : bool) : PM unit :=
  whenM (negb timedout) (upd_peer (pe_set_ready true));;
  p ← get_peer;
  match pe_handler p with
  | HNone => ub
  | HNsHeader => gvfs_ns_process_response_header timedout
  | HNsBody => gvfs_ns_process_response_body
  | HDsHeader => gvfs_ds_process_respodse_header timedout
  | HDsBody => gvfs_ds_process_respodse_body
  end.

(** An event on the client's connection while its body is read. *)
Definition client_event (timedout : bool) : PM unit :=
  whenM (negb timedout) (upd_cl (cl_set_ready true));;
  gvfs_http_read_client_request_body_handler timedout.
End env.
