(* ===== verification/ProxyRelay.v ===== *)
(** What the proxy relays: the body of an upload from the client to a data
    server, and a block from a data server to the client, arrive in order and once, and
    complete when all of it has come; and the end of an upload that stays in the
    buffer. *)
From S2P Require Import Prelude Bytes Text NetBuf ProxyText ProxyNet ProxyState ProxyHttp ProxyMsg ProxyRsp ProxyLoop.
Implicit Types (s : px) (d : dbuf) (t : list act).

(** What went to a server and to the client. *)
Definition sent_up t : bytes := t ≫= λ a, match a with AUp l => l | _ => [] end.
Definition sent_client t : bytes := t ≫= λ a, match a with AClient l => l | _ => [] end.
Lemma sent_up_app t1 t2 : sent_up (t1 ++ t2) = sent_up t1 ++ sent_up t2.
Proof. apply bind_app. Qed.
Lemma sent_client_app t1 t2 : sent_client (t1 ++ t2) = sent_client t1 ++ sent_client t2.
Proof. apply bind_app. Qed.

(** A socket that has data or has none, and is neither closed nor broken. *)
Definition calm (e : recv_res) : Prop :=
  match e with RecvData l => l ≠ [] | RecvErr e => e = EINTR ∨ e = EAGAIN end.

(** What a socket that is ready gives before it has none for now, is closed or
    breaks: an event has to take all of it. *)
Fixpoint available (script : list recv_res) : bytes :=
  match script with
  | [] | RecvData [] :: _ => []
  | RecvData l :: script => l ++ available script
  | RecvErr e :: script => if e =? EINTR then available script else []
  end.
Definition client_waits s : bytes := if cl_ready (px_cl s) then available (cl_recv (px_cl s)) else [].
Definition server_waits p : bytes := if pe_ready p then available (pe_recv p) else [].

Lemma unix_recv_calm script size ready n b script' ready' :
  0 < size → Forall calm script → gvfs_unix_recv script size ready = (n, b, script', ready') →
  Forall calm script' ∧ rx_data script = b ++ rx_data script' ∧
  (n = GVFS_AGAIN ∧ b = [] ∧ ready' = false ∧ available script = [] ∨
   0 < n ∧ n = Z.of_nat (length b) ∧ n ≤ size ∧ ready' = ready ∧ available script = b ++ available script').
Proof.
  intros Hs Hc Hr. destruct (unix_recv_out script size ready n b script' ready' ltac:(lia) Hr) as (Hd & Hle & Hpos & Hneg).
  assert (Forall calm script' ∧ (n = GVFS_AGAIN ∧ available script = [] ∨ 0 < n ∧ available script = b ++ available script')) as [H1 H2].
  { clear Hd Hle Hpos Hneg. revert n b script' ready' Hr.
    induction Hc as [|e script He Hc IH]; intros n b script' ready'; cbn [gvfs_unix_recv];
      destruct (Z.eqb_spec size 0); try lia; [intros [= <- <- <- _]; auto|].
    destruct e as [l|e]; cbn [calm] in He.
    - destruct l as [|x l]; [done|]. set (m := Z.min size _). intros [= <- <- <- _]. cbn [available].
      assert (∀ r, (x :: l) ++ r = take (Z.to_nat m) (x :: l) ++ drop (Z.to_nat m) (x :: l) ++ r) as Hl.
      { intros r. by rewrite app_assoc, take_drop. }
      destruct (drop (Z.to_nat m) (x :: l)) eqn:E; (split; [|right; split; [subst m; simpl; lia|apply Hl]]); [done|].
      by constructor.
    - cbn [available]. destruct (Z.eqb_spec e EINTR); [by apply IH|]. destruct (Z.eqb_spec e EAGAIN); [|tauto].
      intros [= <- _ <- _]. auto. }
  split_and!; [done..|]. destruct H2 as [[-> H2]|[H2 H3]]; [left|right].
  - destruct Hneg as [-> ->]; [unfold GVFS_AGAIN; lia|done].
  - destruct (Hpos H2) as [-> ->]. split_and!; [done..|lia|done|done].
Qed.

(** When just what is missing of the body is waiting, all of it is taken. *)
Lemma all_taken (got kept waits : bytes) before after body :
  after = before + Z.of_nat (length got) →
  kept = [] ∧ got `prefix_of` waits ∧ after = body ∨ got = waits ∧ (got = [] ∨ after ≠ body) →
  waits ≠ [] → before + Z.of_nat (length waits) = body → kept = [] ∧ got = waits.
Proof.
  intros -> [(-> & [l ->] & Hb)|[-> [->|Hb]]] Hne Hsz; [|done..]. split; [done|].
  rewrite length_app in Hsz. destruct l; simpl in Hsz; [by rewrite app_nil_r|lia].
Qed.

(** ** From the client to a server *)

(** The request has a connection to a server that takes data. *)
Definition can_send s : Prop :=
  px_up s = true ∧ ∃ p, us_conn (px_us s) = Some p ∧ existsb send_fatal (pe_send p) = false.

(** Reduction of the straight-line parts. *)
Ltac px_red := cbv beta iota zeta delta
  [mbind M_bind mret M_ret get gets modify lift option_bind upstream get_us get_peer upd_peer upd_us upd_io
   upd_cl upd_file emit emit_all whenM
   with_io with_file with_up with_us with_cl with_bufs with_ffd with_randid with_script with_trace];
  cbn [px_path px_query px_io px_file px_up px_us px_cl px_bufs px_ffd px_randid px_time px_dials px_ask px_trace].

(** The same for the fields of the upstream. *)
Ltac us_red :=
  cbv beta iota delta [us_set_conn us_set_buf us_set_head us_set_sid us_set_done us_set_down
    pe_set_handler pe_set_active pe_set_ready pe_set_timer pe_set_pool pe_set_recv pe_set_send];
  cbn [us_conn us_buf us_last us_head us_sid us_header_completed us_body_completed us_down
    pe_handler pe_active pe_ready pe_timer pe_pool pe_recv pe_send].

(** Steps whose outcome is known. *)
Lemma upstream_bind {A} (k : upst → M px A) s : px_up s = true → (upstream ≫= k) s = k (px_us s) s.
Proof. intros H. unfold upstream. px_red. by rewrite H. Qed.
Lemma get_us_bind {A} (k : upst → M px A) s : (get_us ≫= k) s = k (px_us s) s.
Proof. done. Qed.
Lemma get_peer_bind {A} (k : peer → M px A) s p : us_conn (px_us s) = Some p → (get_peer ≫= k) s = k p s.
Proof. intros H. unfold get_peer, get_us. px_red. by rewrite H. Qed.
Lemma upd_peer_bind {A} f (k : unit → M px A) s p :
  us_conn (px_us s) = Some p → (upd_peer f ≫= k) s = k tt (with_us (us_set_conn (Some (f p)) (px_us s)) s).
Proof. intros H. unfold upd_peer, get_peer, get_us. px_red. by rewrite H. Qed.
Lemma ask_bind {A} (k : bool → M px A) s : px_ask s = [] → (ask ≫= k) s = k true s.
Proof. intros H. unfold ask. px_red. by rewrite H. Qed.
Lemma epoll_up_bind {A} b (k : Z → M px A) s p :
  px_ask s = [] → us_conn (px_us s) = Some p →
  (epoll_up b ≫= k) s = k GVFS_OK (with_us (us_set_conn (Some (pe_set_active b p)) (px_us s)) s).
Proof. intros H Hp. unfold epoll_up. rewrite M_bind_assoc, ask_bind by done. cbv iota. rewrite M_bind_assoc. by rewrite (upd_peer_bind _ _ _ p). Qed.
Lemma emit_bind {A} a (k : unit → M px A) s : (emit a ≫= k) s = k tt (with_trace (px_trace s ++ [a]) s).
Proof. done. Qed.
Lemma send_up_run data s p :
  us_conn (px_us s) = Some p → existsb send_fatal (pe_send p) = false → data ≠ [] → ∃ tx, existsb send_fatal tx = false ∧
  send_up data s = Some (GVFS_OK, with_trace (px_trace s ++ [AUp data]) (with_us (us_set_conn (Some (pe_set_send tx p)) (px_us s)) s)).
Proof.
  intros Hp Hf Hd. destruct (completed_send_run (S (length (pe_send p))) (pe_send p) data ltac:(lia) Hd) as (code & out & tx & Hr & H & Hf').
  destruct H as [[-> ->]|(_ & _ & H)]; [|by rewrite H in Hf]. exists tx. split; [by apply Hf'|].
  unfold send_up. rewrite (get_peer_bind _ _ p) by done.
  rewrite (lift_run _ _ _ _ Hr), (upd_peer_bind _ _ _ p) by done. cbn [fst snd]. by destruct data.
Qed.

Lemma send_up_calm s data :
  can_send s → data ≠ [] → ∃ s', send_up data s = Some (GVFS_OK, s') ∧ can_send s' ∧
  px_io s' = px_io s ∧ px_cl s' = px_cl s ∧ px_ask s' = px_ask s ∧ px_trace s' = px_trace s ++ [AUp data].
Proof.
  intros (Hu & p & Hp & Hf) Hd. unfold can_send. destruct s as [a1 a2 io fl up us cl bufs ffd id tm dl ak tr]. cbn in Hu, Hp |- *. subst up.
  destruct (completed_send_run (S (length (pe_send p))) (pe_send p) data ltac:(lia) Hd) as (code & out & sc & Hr & H & Hf').
  destruct H as [[-> ->]|(_ & _ & H)]; [|by rewrite H in Hf].
  unfold send_up. px_red. rewrite Hp. px_red. unfold gvfs_completed_send. rewrite Hr. px_red. rewrite Hp. px_red.
  destruct data as [|x data]; [done|]. eexists. split; [reflexivity|]. cbn. split_and!; try done. eexists. split; [done|]. by apply Hf'.
Qed.

Lemma write_body_calm s d :
  can_send s → io_body (px_io s) = Some d → db_data d ≠ [] → ∃ s', write_body s = Some (tt, s') ∧ can_send s' ∧
  io_body (px_io s') = Some d ∧ io_body_size (px_io s') = io_body_size (px_io s) ∧ io_recv_size (px_io s') = io_recv_size (px_io s) ∧
  px_cl s' = px_cl s ∧ px_ask s' = px_ask s ∧ px_trace s' = px_trace s ++ [AUp (db_data d)].
Proof.
  intros Hs Hb Hd. destruct (send_up_calm s (db_data d) Hs Hd) as (s1 & Hsend & Hs1 & Hio & Hcl & Hak & Htr).
  destruct Hs as (Hu & p & Hp & Hf). destruct s as [a1 a2 io fl up us cl bufs ffd id tm dl ak tr]. cbn in Hu, Hp, Hb, Hio, Hcl, Hak, Htr |- *. subst up.
  unfold write_body, gvfs_http_write_request_body. px_red. rewrite Hp. px_red. rewrite Hb. px_red. rewrite Hsend.
  change (GVFS_OK =? GVFS_OK) with true. px_red.
  eexists. split; [reflexivity|]. destruct s1 as [b1 b2 io1 fl1 up1 us1 cl1 bufs1 ffd1 id1 tm1 dl1 ak1 tr1].
  unfold can_send in *. cbn in *. subst. split_and!; try done; tauto.
Qed.

Lemma read_body_calm s d :
  io_body (px_io s) = Some d → (length (db_data d) < db_size d)%nat → Forall calm (cl_recv (px_cl s)) → px_ask s = [] →
  ∃ n got s', gvfs_http_read_request_body s = Some (n, s') ∧
  (n = GVFS_AGAIN ∧ got = [] ∧ client_waits s = [] ∧ cl_ready (px_cl s') = false ∨
   0 < n ∧ n = Z.of_nat (length got) ∧ client_waits s = got ++ client_waits s') ∧
  rx_data (cl_recv (px_cl s)) = got ++ rx_data (cl_recv (px_cl s')) ∧ Forall calm (cl_recv (px_cl s')) ∧
  io_body (px_io s') = Some (DBuf (db_size d) (db_data d ++ got)) ∧ (length (db_data d ++ got) ≤ db_size d)%nat ∧
  io_body_size (px_io s') = io_body_size (px_io s) ∧ io_recv_size (px_io s') = io_recv_size (px_io s) ∧
  px_up s' = px_up s ∧ px_us s' = px_us s ∧ px_ask s' = [] ∧ px_trace s' = px_trace s.
Proof.
  intros Hb Hlt Hc Ha. destruct s as [a1 a2 io fl up us cl bufs ffd id tm dl ak tr]. cbn in Hb, Hc, Ha |- *. subst ak.
  unfold gvfs_http_read_request_body. px_red. rewrite Hb. px_red. destruct cl as [ac rdy ti rx tx]. cbn [cl_ready cl_active cl_recv] in *.
  assert (∀ rx' rdy', ∃ s', (if negb ac && negb rdy' then
      rc ← epoll_client true; mret (if rc =? GVFS_ERROR then GVFS_ERROR else GVFS_AGAIN) else mret GVFS_AGAIN : M px Z)
      (Px a1 a2 io fl up us (Client ac rdy' ti rx' tx) bufs ffd id tm dl [] tr) = Some (GVFS_AGAIN, s') ∧
      px_io s' = io ∧ px_up s' = up ∧ px_us s' = us ∧ px_ask s' = [] ∧ px_trace s' = tr ∧ cl_recv (px_cl s') = rx' ∧
      cl_ready (px_cl s') = rdy') as Hagain.
  { intros rx' rdy'. destruct (negb ac && negb rdy'); eexists; (split; [reflexivity|by split_and!]). }
  destruct rdy.
  - unfold recv_client. px_red. cbn [cl_recv cl_ready].
    destruct (gvfs_unix_recv rx _ true) as [[[n b] rx'] rdy'] eqn:Hr. px_red. cbn [fst snd cl_set_recv cl_active cl_timer cl_send].
    pose proof (λ H, unix_recv_calm _ _ _ _ _ _ _ H Hc Hr) as Hcalm. destruct Hcalm as (Hc' & Hd & [(-> & -> & -> & Hav)|(Hn & Hn' & Hle & -> & Hav)]); [lia| |].
    + change (GVFS_AGAIN =? GVFS_AGAIN) with true. cbv iota.
      destruct (Hagain rx' false) as (s' & Hs' & H1 & H2 & H3 & H4 & H5 & H6 & H7).
      exists GVFS_AGAIN, [], s'. split.
      { revert Hs'. px_red. cbn [cl_ready cl_active cl_set_recv negb andb]. by destruct ac. }
      rewrite H1, H2, H3, H4, H5, H6, app_nil_r. destruct d. split_and!; try done; [by left|simpl in *; lia].
    + destruct (Z.eqb_spec n GVFS_AGAIN); [unfold GVFS_AGAIN in *; lia|]. destruct (Z.ltb_spec 0 n); [|lia].
      eexists n, b, _. split; [reflexivity|]. cbn. split_and!; try done; [by right|rewrite length_app; lia].
  - destruct (Hagain rx false) as (s' & Hs' & H1 & H2 & H3 & H4 & H5 & H6 & H7).
    exists GVFS_AGAIN, [], s'. split.
    { revert Hs'. px_red. cbn [cl_ready cl_active fst snd negb andb]. by destruct ac. }
    rewrite H1, H2, H3, H4, H5, H6, app_nil_r. destruct d. split_and!; try done; [by left|simpl in *; lia].
Qed.

(** The first step of a turn leaves room in the buffer. *)
Lemma body_room s d :
  can_send s → io_body (px_io s) = Some d → (0 < db_size d)%nat → (length (db_data d) ≤ db_size d)%nat →
  ∃ s' d', whenM (length (db_data d) =? db_size d)%nat
             (write_body;; upd_io (set_body (Some (DBuf (db_size d) [])))) s = Some (tt, s') ∧ can_send s' ∧
  io_body (px_io s') = Some d' ∧ db_size d' = db_size d ∧ (length (db_data d') < db_size d')%nat ∧
  sent_up (px_trace s') ++ db_data d' = sent_up (px_trace s) ++ db_data d ∧
  px_cl s' = px_cl s ∧ px_ask s' = px_ask s ∧
  io_body_size (px_io s') = io_body_size (px_io s) ∧ io_recv_size (px_io s') = io_recv_size (px_io s).
Proof.
  intros Hs Hb H0 Hle. destruct (Nat.eqb_spec (length (db_data d)) (db_size d)) as [He|Hne].
  - destruct (write_body_calm s d Hs Hb) as (s1 & Hw & Hs1 & Hb1 & Hbs & Hrs & Hcl & Hak & Htr).
    { intros E. rewrite E in He. simpl in He. lia. }
    cbn [whenM]. rewrite (M_bind_Some _ _ _ _ _ Hw). do 2 eexists. split; [reflexivity|].
    destruct s1 as [a1 a2 io fl up us cl bufs ffd id tm dl ak tr]. cbn in *. subst.
    split_and!; try done. by rewrite sent_up_app, app_nil_r; cbn; rewrite app_nil_r.
  - exists s, d. split_and!; try done. lia.
Qed.

(** The end of the body: the rest of the buffer is sent. *)
Lemma body_done s d :
  can_send s → io_body (px_io s) = Some d → db_data d ≠ [] → ∃ s',
  (u ← upstream; whenM (bool_decide (is_Some (us_conn u))) (upd_peer (pe_set_timer true));; write_body;; mret GVFS_OK) s =
    Some (GVFS_OK, s') ∧ can_send s' ∧ px_cl s' = px_cl s ∧
  io_body_size (px_io s') = io_body_size (px_io s) ∧ io_recv_size (px_io s') = io_recv_size (px_io s) ∧
  px_trace s' = px_trace s ++ [AUp (db_data d)].
Proof.
  intros (Hu & p & Hp & Hf) Hb Hd.
  set (s1 := with_us (us_set_conn (Some (pe_set_timer true p)) (px_us s)) s).
  destruct (write_body_calm s1 d) as (s2 & Hw & Hs2 & _ & Hbs & Hrs & Hcl & _ & Htr); [| |done|].
  { split; [by destruct s|]. by exists (pe_set_timer true p). }
  { by destruct s. }
  exists s2. split_and!; [|done|by rewrite Hcl; destruct s|by rewrite Hbs; destruct s|by rewrite Hrs; destruct s|by rewrite Htr; destruct s].
  assert (upstream s = Some (px_us s, s)) as H1 by (unfold upstream; rewrite get_bind; by rewrite Hu).
  rewrite (M_bind_Some _ _ _ _ _ H1), Hp. cbn [whenM].
  assert (upd_peer (pe_set_timer true) s = Some (tt, s1)) as H2.
  { unfold upd_peer, get_peer, get_us. rewrite M_bind_assoc. px_red. by rewrite Hp. }
  change (bool_decide (is_Some (Some p))) with true. cbn [whenM].
  by rewrite (M_bind_Some _ _ _ _ _ H2), (M_bind_Some _ _ _ _ _ Hw).
Qed.

(** One call of the loop: everything is passed on or kept.  It stops when the client
    has nothing more for now, or with the last byte of the body, and then everything
    has been passed on. *)
Lemma client_body_loop_run fuel s d :
  can_send s → io_body (px_io s) = Some d → (0 < db_size d)%nat → (length (db_data d) ≤ db_size d)%nat →
  Forall calm (cl_recv (px_cl s)) → px_ask s = [] → (length (rx_data (cl_recv (px_cl s))) < fuel)%nat →
  ∃ s' got kept, client_body_loop fuel s = Some (GVFS_OK, s') ∧ can_send s' ∧
  rx_data (cl_recv (px_cl s)) = got ++ rx_data (cl_recv (px_cl s')) ∧
  io_recv_size (px_io s') = io_recv_size (px_io s) + Z.of_nat (length got) ∧
  io_body_size (px_io s') = io_body_size (px_io s) ∧
  sent_up (px_trace s') ++ kept = sent_up (px_trace s) ++ db_data d ++ got ∧
  (kept = [] ∧ got ≠ [] ∧ got `prefix_of` client_waits s ∧ io_recv_size (px_io s') = io_body_size (px_io s') ∨
   got = client_waits s ∧ cl_ready (px_cl s') = false ∧ (got = [] ∨ io_recv_size (px_io s') ≠ io_body_size (px_io s')) ∧
   ∃ d', io_body (px_io s') = Some d' ∧ db_size d' = db_size d ∧ db_data d' = kept ∧ (length kept ≤ db_size d)%nat).
Proof.
  revert s d. induction fuel as [|fuel IH]; intros s d Hs Hb H0 Hle Hc Ha Hf; [lia|].
  destruct (body_room s d Hs Hb H0 Hle) as (s1 & d1 & Hw & Hs1 & Hb1 & Hz1 & Hl1 & Ht1 & Hcl1 & Ha1 & Hbs1 & Hrs1).
  rewrite Ha in Ha1. assert (client_waits s = client_waits s1) as Hwt by (unfold client_waits; by rewrite Hcl1).
  rewrite Hwt. rewrite <- Hcl1 in *. rewrite <- Hbs1, <- Hrs1.
  destruct (read_body_calm s1 d1 Hb1 Hl1 Hc Ha1) as
    (n & got & s2 & Hr & Hn & Hd & Hc2 & Hb2 & Hl2 & Hbs2 & Hrs2 & Hup & Hus & Ha2 & Ht2).
  assert (can_send s2) as Hs2 by (unfold can_send; by rewrite Hup, Hus).
  cbn [client_body_loop]. rewrite get_bind, (lift_run _ _ _ _ Hb). rewrite (M_bind_Some _ _ _ _ _ Hw), (M_bind_Some _ _ _ _ _ Hr).
  destruct Hn as [(-> & -> & Hno & Hrdy)|(Hn & Hlen & Hmore)].
  - change (GVFS_AGAIN =? GVFS_AGAIN) with true. cbv iota. exists s2, [], (db_data d1).
    split_and!; try done; [by rewrite Hrs2, Z.add_0_r|by rewrite Ht2, app_nil_r, Ht1|].
    right. rewrite app_nil_r in Hb2. split_and!; try done; [by left|]. eexists. split_and!; [done|done|done|lia].
  - destruct (Z.eqb_spec n GVFS_AGAIN); [unfold GVFS_AGAIN in *; lia|].
    destruct (Z.eqb_spec n GVFS_ERROR); [unfold GVFS_ERROR in *; lia|]. destruct (Z.eqb_spec n 0); [lia|].
    rewrite get_bind, upd_io_bind.
    set (s3 := with_io (set_recv_size (io_recv_size (px_io s2) + n) (px_io s2)) s2).
    assert (can_send s3 ∧ io_body (px_io s3) = Some (DBuf (db_size d1) (db_data d1 ++ got)) ∧ px_cl s3 = px_cl s2 ∧
      px_ask s3 = [] ∧ px_trace s3 = px_trace s2 ∧ io_body_size (px_io s3) = io_body_size (px_io s2) ∧
      io_recv_size (px_io s3) = io_recv_size (px_io s1) + Z.of_nat (length got)) as (Hs3 & Hb3 & Hcl3 & Ha3 & Ht3 & Hbs3 & Hrs3).
    { subst s3 n. rewrite <- Hrs2. clear -Hs2 Hb2 Ha2. destruct s2. by split_and!. }
    clearbody s3. rewrite Hbs2 in Hbs3. rewrite Hbs2, Hrs2, Hlen, <- Hbs3, <- Hrs3.
    destruct (Z.eqb_spec (io_body_size (px_io s3)) (io_recv_size (px_io s3))) as [He|Hne].
    + destruct (body_done s3 (DBuf (db_size d1) (db_data d1 ++ got)) Hs3 Hb3) as (s4 & H4 & Hs4 & Hcl4 & Hbs4 & Hrs4 & Ht4).
      { cbn. destruct (db_data d1); [|done]. by destruct got. }
      cbn [db_data] in *. rewrite H4. exists s4, got, []. rewrite Hcl4, Hcl3, Hrs4, Hbs4. split_and!; try done.
      { by rewrite app_nil_r, Ht4, sent_up_app, Ht3, Ht2; cbn; rewrite app_nil_r, app_assoc, Ht1, <- app_assoc. }
      left. split_and!; try done; [|rewrite Hmore; by apply prefix_app_r]. intros ->. simpl in Hlen. lia.
    + destruct (IH s3 _ Hs3 Hb3) as (s4 & got4 & kept & H1 & H2 & H3 & H4 & H5 & H6 & H7); cbn [db_size db_data] in *;
        [lia|lia|by rewrite Hcl3|done|rewrite Hcl3; rewrite Hd, length_app in Hf; lia|].
      assert (client_waits s3 = client_waits s2) as Hw3 by (unfold client_waits; by rewrite Hcl3).
      exists s4, (got ++ got4), kept. rewrite Hz1 in H7. rewrite Hcl3 in H3. rewrite Hw3 in H7. rewrite Hmore.
      split_and!; try done; [by rewrite Hd, H3, app_assoc|rewrite H4, Hrs3, length_app; lia| |].
      { rewrite H6, Ht3, Ht2, <- !app_assoc. by rewrite app_assoc, Ht1, <- app_assoc. }
      destruct H7 as [(? & ? & ? & ?)|(-> & ? & Hz & ?)]; [left|right]; (split_and!; try done).
      * by intros [_ ?]%app_eq_nil.
      * by apply prefix_app.
      * right. destruct Hz as [Hz|?]; [|done]. rewrite H4, Hz. simpl. rewrite Z.add_0_r, H5. congruence.
Qed.


(** ** The end of an upload

    [gvfs_http_finalize_request] answers the client when the name service has
    answered, in the middle of the upload, and sets both counters to zero. *)

Lemma client_body_tail fuel s d :
  io_body (px_io s) = Some d → Forall calm (cl_recv (px_cl s)) → px_ask s = [] →
  io_body_size (px_io s) = 0 → 0 ≤ io_recv_size (px_io s) →
  (length (db_data d) + length (rx_data (cl_recv (px_cl s))) < db_size d)%nat →
  (length (rx_data (cl_recv (px_cl s))) < fuel)%nat →
  ∃ s', client_body_loop fuel s = Some (GVFS_OK, s') ∧
  px_trace s' = px_trace s ∧ io_body (px_io s') = Some (DBuf (db_size d) (db_data d ++ client_waits s)) ∧
  rx_data (cl_recv (px_cl s)) = client_waits s ++ rx_data (cl_recv (px_cl s')).
Proof.
  revert s d. induction fuel as [|fuel IH]; intros s d Hb Hc Ha Hbs Hrs Hlt Hf; [lia|].
  destruct (read_body_calm s d Hb ltac:(lia) Hc Ha) as
    (n & got & s2 & Hr & Hn & Hd & Hc2 & Hb2 & Hl2 & Hbs2 & Hrs2 & Hup & Hus & Ha2 & Ht2).
  cbn [client_body_loop]. rewrite get_bind, (lift_run _ _ _ _ Hb).
  destruct (Nat.eqb_spec (length (db_data d)) (db_size d)); [lia|]. cbn [whenM]. rewrite ret_bind, (M_bind_Some _ _ _ _ _ Hr).
  destruct Hn as [(-> & -> & Hno & _)|(Hn & Hlen & Hmore)].
  - change (GVFS_AGAIN =? GVFS_AGAIN) with true. cbv iota. rewrite Hno. by exists s2.
  - destruct (Z.eqb_spec n GVFS_AGAIN); [unfold GVFS_AGAIN in *; lia|].
    destruct (Z.eqb_spec n GVFS_ERROR); [unfold GVFS_ERROR in *; lia|]. destruct (Z.eqb_spec n 0); [lia|].
    rewrite get_bind, upd_io_bind. rewrite Hbs2, Hbs.
    destruct (Z.eqb_spec 0 (io_recv_size (px_io s2) + n)); [lia|].
    rewrite Hd, length_app in Hlt, Hf.
    destruct (IH (with_io (set_recv_size (io_recv_size (px_io s2) + n) (px_io s2)) s2) (DBuf (db_size d) (db_data d ++ got)))
      as (s3 & H1 & H2 & H3 & H4).
    1-7: destruct s2; cbn in *; rewrite ?length_app; try done; lia.
    exists s3. rewrite H1, H2, H3, Hmore, Hd, app_assoc. destruct s2; cbn in *. split_and!; try done.
    by rewrite H4, app_assoc.
Qed.

(** Once the counters have been reset, a body that fits the rest of the buffer is
    never sent to the data server: the size of the body is 0 and can no longer be
    reached, so every call of the reader keeps what it gets and sends nothing. *)
Theorem upload_tail_kept s d :
  io_body (px_io s) = Some d → Forall calm (cl_recv (px_cl s)) → px_ask s = [] →
  io_body_size (px_io s) = 0 → 0 ≤ io_recv_size (px_io s) →
  (length (db_data d) + length (rx_data (cl_recv (px_cl s))) < db_size d)%nat →
  ∃ s', gvfs_http_do_read_client_request_body s = Some (GVFS_OK, s') ∧
  px_trace s' = px_trace s ∧ io_body (px_io s') = Some (DBuf (db_size d) (db_data d ++ client_waits s)) ∧
  rx_data (cl_recv (px_cl s)) = client_waits s ++ rx_data (cl_recv (px_cl s')).
Proof.
  intros Hb Hc Ha Hbs Hrs Hlt. unfold gvfs_http_do_read_client_request_body. rewrite get_bind.
  apply client_body_tail; try done. lia.
Qed.

(** ** From a data server to the client *)

(** A block is being received: the connection to the server, the buffer, and a
    client that takes data. *)
Record relaying (p : peer) d s : Prop := {
  rl_up : px_up s = true;
  rl_conn : us_conn (px_us s) = Some p;
  rl_down : us_down (px_us s) = Some d;
  rl_client : existsb send_fatal (cl_send (px_cl s)) = false }.

Lemma write_download_calm p d s :
  relaying p d s → db_data d ≠ [] → ∃ s', gvfs_ds_write_download_data s = Some (GVFS_OK, s') ∧ relaying p d s' ∧
  px_io s' = px_io s ∧ px_bufs s' = px_bufs s ∧ px_ask s' = px_ask s ∧
  px_trace s' = px_trace s ++ [AClient (db_data d)].
Proof.
  intros [Hu Hp Hd Hc] Hne. destruct s as [a1 a2 io fl up us cl bufs ffd id tm dl ak tr]. cbn in Hu, Hp, Hd, Hc |- *. subst up.
  destruct (completed_send_run (S (length (cl_send cl))) (cl_send cl) (db_data d) ltac:(lia) Hne) as (code & out & sc & Hr & H & Hf').
  destruct H as [[-> ->]|(_ & _ & H)]; [|by rewrite H in Hc].
  unfold gvfs_ds_write_download_data, send_client. px_red. rewrite Hd. px_red. unfold gvfs_completed_send. rewrite Hr. px_red.
  cbn [fst snd]. destruct (db_data d) as [|x l] eqn:E; [done|]. eexists. split; [reflexivity|]. cbn. split_and!; try done.
  split; cbn; try done. by apply Hf'.
Qed.

Lemma ds_room p d s :
  relaying p d s → (0 < db_size d)%nat → (length (db_data d) ≤ db_size d)%nat →
  ∃ s' d', whenM (length (db_data d) =? db_size d)%nat
             (gvfs_ds_write_download_data;; upd_us (us_set_down (Some (DBuf (db_size d) [])))) s = Some (tt, s') ∧
  relaying p d' s' ∧ db_size d' = db_size d ∧ (length (db_data d') < db_size d')%nat ∧
  sent_client (px_trace s') ++ db_data d' = sent_client (px_trace s) ++ db_data d ∧
  px_io s' = px_io s ∧ px_bufs s' = px_bufs s ∧ px_ask s' = px_ask s.
Proof.
  intros Hs H0 Hle. destruct (Nat.eqb_spec (length (db_data d)) (db_size d)) as [He|Hne].
  - destruct (write_download_calm p d s Hs) as (s1 & Hw & [Hu Hp Hd Hc] & Hio & Hbf & Hak & Htr).
    { intros E. rewrite E in He. simpl in He. lia. }
    cbn [whenM]. rewrite (M_bind_Some _ _ _ _ _ Hw). exists (with_us (us_set_down (Some (DBuf (db_size d) [])) (px_us s1)) s1), (DBuf (db_size d) []).
    split; [reflexivity|]. destruct s1; cbn in *. subst. split_and!; try done.
    rewrite sent_client_app, app_nil_r; cbn; by rewrite app_nil_r.
  - exists s, d. split_and!; try done. lia.
Qed.

Lemma ds_read_calm p d s :
  relaying p d s → (length (db_data d) < db_size d)%nat → Forall calm (pe_recv p) → px_ask s = [] →
  ∃ n got p' s', gvfs_ds_read_respodse_body s = Some (n, s') ∧
  (n = GVFS_AGAIN ∧ got = [] ∧ server_waits p = [] ∧ pe_ready p' = false ∨
   0 < n ∧ n = Z.of_nat (length got) ∧ server_waits p = got ++ server_waits p') ∧
  relaying p' (DBuf (db_size d) (db_data d ++ got)) s' ∧ (length (db_data d ++ got) ≤ db_size d)%nat ∧
  rx_data (pe_recv p) = got ++ rx_data (pe_recv p') ∧ Forall calm (pe_recv p') ∧ pe_pool p' = pe_pool p ∧
  px_io s' = px_io s ∧ px_bufs s' = px_bufs s ∧ px_ask s' = [] ∧ px_trace s' = px_trace s.
Proof.
  intros [Hu Hp Hd Hcl] Hlt Hc Ha. destruct s as [a1 a2 io fl up us cl bufs ffd id tm dl ak tr]. cbn in Hu, Hp, Hd, Hcl, Ha |- *. subst ak up.
  unfold gvfs_ds_read_respodse_body. px_red. rewrite Hp. px_red. rewrite Hd. px_red.
  destruct us as [cn bf la hd sid hc bc dn]. cbn in Hp, Hd. subst cn dn. destruct p as [h ac rdy ti po rx tx]. cbn in *.
  assert (∀ rx' rdy', ∃ p' s', (p ← get_peer; if negb (pe_active p) && negb (pe_ready p) then
      rc ← epoll_up true; mret (if rc =? GVFS_ERROR then GVFS_ERROR else GVFS_AGAIN) else mret GVFS_AGAIN : M px Z)
      (Px a1 a2 io fl true (Upst (Some (Peer h ac rdy' ti po rx' tx)) bf la hd sid hc bc (Some d)) cl bufs ffd id tm dl [] tr) =
        Some (GVFS_AGAIN, s') ∧ relaying p' d s' ∧ pe_recv p' = rx' ∧ pe_pool p' = po ∧ pe_ready p' = rdy' ∧
      px_io s' = io ∧ px_bufs s' = bufs ∧ px_ask s' = [] ∧ px_trace s' = tr) as Hagain.
  { intros rx' rdy'. unfold get_peer, get_us. px_red. cbn. destruct (negb ac && negb rdy'); do 2 eexists; (split; [reflexivity|]);
      (split; [by split|by split_and!]). }
  destruct rdy.
  - unfold recv_up. px_red. cbn [pe_recv pe_ready us_conn].
    destruct (gvfs_unix_recv rx _ true) as [[[n b] rx'] rdy'] eqn:Hr. px_red. cbn [fst snd us_conn us_set_conn pe_set_recv pe_handler pe_active pe_timer pe_pool pe_recv pe_send us_buf us_last us_head us_sid us_header_completed us_body_completed us_down].
    pose proof (λ H, unix_recv_calm _ _ _ _ _ _ _ H Hc Hr) as Hcalm.
    destruct Hcalm as (Hc' & Hdd & [(-> & -> & -> & Hav)|(Hn & Hn' & Hle & -> & Hav)]); [lia| |].
    + change (GVFS_AGAIN =? GVFS_AGAIN) with true. cbv iota.
      destruct (Hagain rx' false) as (p' & s' & Hs' & H1 & H2 & H3 & Hrd & H4 & H5 & H6 & H7).
      exists GVFS_AGAIN, [], p', s'. split; [exact Hs'|].
      rewrite H2, H3, H4, H5, H6, H7, app_nil_r. destruct d. split_and!; try done; [by left|simpl in *; lia].
    + destruct (Z.eqb_spec n GVFS_AGAIN); [unfold GVFS_AGAIN in *; lia|]. destruct (Z.ltb_spec 0 n); [|lia].
      eexists n, b, _, _. split; [reflexivity|]. cbn. split_and!; try done; [by right|rewrite length_app; lia].
  - destruct (Hagain rx false) as (p' & s' & Hs' & H1 & H2 & H3 & Hrd & H4 & H5 & H6 & H7).
    exists GVFS_AGAIN, [], p', s'. split; [exact Hs'|].
    rewrite H2, H3, H4, H5, H6, H7, app_nil_r. destruct d. split_and!; try done; [by left|simpl in *; lia].
Qed.

(** The end of a block: what is left is sent and everything is closed. *)
Lemma ds_done p d s :
  relaying p d s → db_data d ≠ [] → pe_pool p = true → ∃ s',
  (gvfs_ds_write_download_data;; ds_body_end) s = Some (tt, s') ∧
  us_conn (px_us s') = None ∧ px_bufs s' = px_bufs s ++ [d] ∧ io_recv_size (px_io s') = io_recv_size (px_io s) ∧
  cl_timer (px_cl s') = true ∧ px_trace s' = px_trace s ++ [AClient (db_data d); ACloseUp].
Proof.
  intros Hs Hne Hpool. destruct (write_download_calm p d s Hs Hne) as (s1 & Hw & [Hu Hp Hd Hc] & Hio & Hbf & Hak & Htr).
  rewrite (M_bind_Some _ _ _ _ _ Hw). rewrite <- Hio, <- Hbf. unfold ds_body_end, gvfs_close_upstream, gvfs_free_upstream, gvfs_http_free_request_body_buf.
  replace (px_trace s ++ [AClient (db_data d); ACloseUp]) with (px_trace s1 ++ [ACloseUp]) by (by rewrite Htr, <- app_assoc).
  clear Hw Hio Hbf Hak Htr Hs. destruct s1 as [a1 a2 io fl up us cl bufs ffd id tm dl ak tr]. cbn in Hu, Hp, Hd, Hc |- *. subst up.
  px_red. destruct us as [cn bf la hd sid hc bc dn], cl as [ac rdy ti rx tx]. cbn in *. subst cn dn.
  destruct ti; cbn; rewrite Hpool; eexists; (split; [reflexivity|by split_and!]).
Qed.

Lemma ds_body_loop_run fuel s p d :
  relaying p d s → (0 < db_size d)%nat → (length (db_data d) ≤ db_size d)%nat → pe_pool p = true →
  Forall calm (pe_recv p) → px_ask s = [] → (length (rx_data (pe_recv p)) < fuel)%nat →
  ∃ s' got kept rest, ds_body_loop fuel s = Some (tt, s') ∧
  rx_data (pe_recv p) = got ++ rest ∧
  io_recv_size (px_io s') = io_recv_size (px_io s) + Z.of_nat (length got) ∧
  sent_client (px_trace s') ++ kept = sent_client (px_trace s) ++ db_data d ++ got ∧
  (kept = [] ∧ got ≠ [] ∧ got `prefix_of` server_waits p ∧ io_recv_size (px_io s') = io_body_size (px_io s) ∧
   us_conn (px_us s') = None ∧ (∃ d', px_bufs s' = px_bufs s ++ [d']) ∨
   got = server_waits p ∧ (got = [] ∨ io_recv_size (px_io s') ≠ io_body_size (px_io s)) ∧
   ∃ p' d', relaying p' d' s' ∧ db_size d' = db_size d ∧ db_data d' = kept ∧ (length kept ≤ db_size d)%nat ∧
     rx_data (pe_recv p') = rest ∧ pe_ready p' = false ∧ px_bufs s' = px_bufs s).
Proof.
  revert s p d. induction fuel as [|fuel IH]; intros s p d Hs H0 Hle Hpool Hc Ha Hf; [lia|].
  destruct (ds_room p d s Hs H0 Hle) as (s1 & d1 & Hw & Hs1 & Hz1 & Hl1 & Ht1 & Hio1 & Hbf1 & Ha1).
  rewrite Ha in Ha1. rewrite <- Hio1, <- Hbf1.
  destruct (ds_read_calm p d1 s1 Hs1 Hl1 Hc Ha1) as
    (n & got & p2 & s2 & Hr & Hn & Hs2 & Hl2 & Hd & Hc2 & Hpo2 & Hio2 & Hbf2 & Ha2 & Ht2).
  cbn [ds_body_loop]. change (get_us ≫= ?k) with (gets px_us ≫= k). rewrite (M_bind_Some _ _ _ (px_us s) s) by done.
  rewrite (lift_run _ _ d) by apply (rl_down _ _ _ Hs). rewrite (M_bind_Some _ _ _ _ _ Hw), (M_bind_Some _ _ _ _ _ Hr).
  destruct Hn as [(-> & -> & Hno & Hrdy)|(Hn & Hlen & Hmore)].
  - change (GVFS_AGAIN =? GVFS_AGAIN) with true. cbv iota. exists s2, [], (db_data d1), (rx_data (pe_recv p2)).
    rewrite Hio2, Ht2. split_and!; try done; [by rewrite Z.add_0_r|by rewrite app_nil_r|].
    right. rewrite app_nil_r in Hs2. split_and!; [done|by left|]. do 2 eexists. split_and!; try done. lia.
  - destruct (Z.eqb_spec n GVFS_AGAIN); [unfold GVFS_AGAIN in *; lia|].
    destruct (Z.eqb_spec n GVFS_ERROR); [unfold GVFS_ERROR in *; lia|]. destruct (Z.eqb_spec n 0); [lia|].
    cbn [orb]. rewrite get_bind, upd_io_bind.
    set (s3 := with_io (set_recv_size (io_recv_size (px_io s2) + n) (px_io s2)) s2).
    assert (relaying p2 (DBuf (db_size d1) (db_data d1 ++ got)) s3 ∧ px_bufs s3 = px_bufs s2 ∧
      px_ask s3 = [] ∧ px_trace s3 = px_trace s2 ∧ io_body_size (px_io s3) = io_body_size (px_io s1) ∧
      io_recv_size (px_io s3) = io_recv_size (px_io s1) + Z.of_nat (length got)) as (Hs3 & Hb3 & Ha3 & Ht3 & Hbs3 & Hrs3).
    { subst s3 n. rewrite <- Hio2. clear -Hs2 Ha2. destruct s2, Hs2. by split_and!. }
    clearbody s3. rewrite Hio2, Hlen, <- Hrs3.
    destruct (Z.eqb_spec (io_body_size (px_io s1)) (io_recv_size (px_io s3))) as [He|Hne].
    + destruct (ds_done p2 _ s3 Hs3) as (s4 & H4 & Hcn4 & Hbf4 & Hrs4 & _ & Ht4); [|by rewrite Hpo2|].
      { cbn. destruct (db_data d1); [|done]. by destruct got. }
      rewrite H4. exists s4, got, [], (rx_data (pe_recv p2)). rewrite Hrs4. split_and!; try done.
      * cbn [db_data] in Ht4. rewrite app_nil_r, Ht4, sent_client_app, Ht3, Ht2. cbn. by rewrite app_nil_r, app_assoc, Ht1, <- app_assoc.
      * left. split_and!; try done; [intros ->; simpl in Hlen; lia|rewrite Hmore; by apply prefix_app_r|]. rewrite Hbf4, Hb3, Hbf2. by eexists.
    + destruct (IH s3 p2 _ Hs3) as (s4 & got4 & kept & rest & H1 & H2 & H3 & H4 & H5); cbn [db_size db_data] in *;
        [lia|lia|by rewrite Hpo2|done|done|rewrite Hd, length_app in Hf; lia|].
      exists s4, (got ++ got4), kept, rest. rewrite Hz1, Hbs3, Hb3, Hbf2 in H5.
      split_and!; try done; [by rewrite Hd, H2, app_assoc|rewrite H3, Hrs3, length_app; lia| |].
      { rewrite H4, Ht3, Ht2, <- !app_assoc. by rewrite app_assoc, Ht1, <- app_assoc. }
      rewrite Hmore. destruct H5 as [(? & ? & ? & ? & ?)|(-> & Hz & ?)]; [left|right]; (split_and!; try tauto).
      * by intros [_ ?]%app_eq_nil.
      * by apply prefix_app.
      * right. destruct Hz as [Hz|?]; [|done]. rewrite H3, Hz. simpl. rewrite Z.add_0_r. congruence.
Qed.

