(* ===== verification/ProxyAns.v ===== *)
(** What the proxy answers to its clients, and how it reads the answers of the
    name service and of data servers. *)
From Stdlib Require Import String.
From S2P Require Import Prelude Bytes Text Tools NetBuf Fields ProxyText ProxyNet ProxyState ProxyHttp ProxyMsg ProxyRsp ProxyLoop ProxyRelay.
Implicit Types (s : px).

(** ** HTTP answers *)

Definition phrase_text (code : Z) : bytes :=
  match http_responses code with Some t => t | None => lit "(null)" end.
Definition status_lines (code : Z) : bytes :=
  lit "HTTP/1.1 " ++ fmt_d code ++ lit " " ++ phrase_text code ++ crlf ++
  lit "Server: gvfs/1.0.0" ++ crlf ++ lit "Content-Type: text/html" ++ crlf.
Definition length_line (n : Z) : bytes := lit "Content-Length: " ++ fmt_u n ++ crlf.
Definition last_lines : bytes := lit "Connection: keep-alive" ++ crlf ++ crlf.
Definition http_head (code content_length : Z) : bytes :=
  status_lines code ++ (if content_length =? 0 then [] else length_line content_length) ++ last_lines.
Definition answer_text (code : Z) (body : bytes) : bytes := http_head code (Z.of_nat (length body)) ++ body.
Definition page (code : Z) : bytes := answer_text code (html (phrase_text code)).

Lemma phrase_length code : (length (phrase_text code) ≤ 26)%nat.
Proof. unfold phrase_text, http_responses. repeat case_match; simplify_eq; vm_compute; lia. Qed.
Lemma fmt_d_length code : 0 ≤ code < 1000 → (length (fmt_d code) ≤ 20)%nat.
Proof. intros H. unfold fmt_d. destruct (Z.ltb_spec code 0); [lia|]. apply fmt_u_length. lia. Qed.
(** Lengths of literals. *)
Ltac lit_len := repeat match goal with
  |- context [length (lit ?x)] => let l := eval vm_compute in (length (lit x)) in change (length (lit x)) with l end.
Lemma lines_length code n : 0 ≤ code < 1000 → 0 ≤ n < 10 ^ 20 →
  (length (status_lines code) ≤ 103 ∧ length (length_line n) ≤ 38 ∧ length last_lines = 26)%nat.
Proof.
  intros Hc Hn. pose proof (phrase_length code). pose proof (fmt_d_length code Hc). pose proof (fmt_u_length n Hn).
  unfold status_lines, length_line. rewrite !length_app. lit_len. simpl length. split_and!; [lia..|by vm_compute].
Qed.
Lemma html_length p : length (html p) = (141 + length p)%nat.
Proof.
  unfold html. rewrite !length_app. lit_len.
  simpl length. lia.
Qed.

Lemma out_printf_run t s :
  (length (io_out (px_io s)) + length t < 1024)%nat →
  out_printf t s = Some (tt, with_io (set_out (io_out (px_io s) ++ t) (px_io s)) s).
Proof.
  intros H. unfold out_printf. rewrite get_bind. cbv zeta. unfold HTTP_MAIN_CHUNK_SIZE.
  destruct (Nat.ltb_spec (length (io_out (px_io s)) + length t) 1024); [done|lia].
Qed.
Lemma phrase_run code s : 0 ≤ code < 1000 → phrase code s = Some (phrase_text code, s).
Proof.
  intros H. unfold phrase, gvfs_http_reason_phrase, phrase_text.
  destruct (Z.ltb_spec code 100), (Z.leb_spec 999 code), (Z.ltb_spec code 0), (Z.leb_spec 1000 code); cbn [andb orb]; try lia; done.
Qed.

Lemma headers_run code n s :
  0 ≤ code < 1000 → 0 ≤ n < 10 ^ 20 → (length (io_out (px_io s)) ≤ 800)%nat →
  gvfs_http_response_headers code n s =
    Some (tt, with_io (set_out (io_out (px_io s) ++ http_head code n) (px_io s)) s).
Proof.
  intros Hc Hn Hl. destruct (lines_length code n Hc Hn) as (H1 & H2 & H3). unfold gvfs_http_response_headers, http_head.
  rewrite (M_bind_Some _ _ _ _ _ (phrase_run code s Hc)). fold (status_lines code).
  rewrite (M_bind_Some _ _ _ _ _ (out_printf_run (status_lines code) s ltac:(lia))).
  fold (length_line n). fold last_lines.
  generalize dependent (status_lines code). intros t1 H1. generalize dependent (length_line n). intros t2 H2.
  generalize dependent last_lines. intros t3 H3.
  destruct s as [a1 a2 [b r w out bd] fl up us cl bufs ffd id tm dl ak tr]. cbn [px_io io_out] in Hl. destruct (n =? 0); cbn [negb whenM].
  - rewrite ret_bind, out_printf_run by (cbn; rewrite length_app; lia). cbn. by rewrite <- app_assoc.
  - erewrite M_bind_Some by (apply out_printf_run; cbn; rewrite length_app; lia).
    rewrite out_printf_run by (cbn; rewrite !length_app; lia). cbn. by rewrite <- !app_assoc.
Qed.

Lemma answer_run code body s :
  0 ≤ code < 1000 → (length body ≤ 600)%nat → (length (io_out (px_io s)) ≤ 200)%nat →
  answer code body s = Some (tt, with_io (set_out (io_out (px_io s) ++ answer_text code body) (px_io s)) s).
Proof.
  intros Hc Hb Hl. unfold answer, answer_text.
  assert (Z.of_nat 600 < 10 ^ 20) by done.
  erewrite M_bind_Some by (apply headers_run; [done|lia|lia]).
  destruct (lines_length code (Z.of_nat (length body)) Hc ltac:(lia)) as (H1 & H2 & H3).
  assert (length (http_head code (Z.of_nat (length body))) ≤ 167)%nat as Hh.
  { unfold http_head. rewrite !length_app. destruct (_ =? 0); rewrite ?length_nil; lia. }
  generalize dependent (http_head code (Z.of_nat (length body))). intros t Ht. clear H1 H2 H3.
  destruct s as [a1 a2 [b r w out bd] fl up us cl bufs ffd id tm dl ak tr]. cbn [px_io io_out] in Hl.
  rewrite out_printf_run by (cbn; rewrite length_app; lia). cbn. by rewrite <- app_assoc.
Qed.

Lemma page_answer code s :
  0 ≤ code < 1000 → (length (io_out (px_io s)) ≤ 200)%nat →
  (p ← phrase code; answer code (html p)) s =
    Some (tt, with_io (set_out (io_out (px_io s) ++ page code) (px_io s)) s).
Proof.
  intros Hc Hl. rewrite (M_bind_Some _ _ _ _ _ (phrase_run code s Hc)). apply answer_run; [done| |done].
  rewrite html_length. pose proof (phrase_length code). lia.
Qed.

(** The state of a request that has been answered with [t]. *)
Definition answered (t : bytes) (tx : list send_res) s : px :=
  Px [] [] (Io 0 0 0 [] (io_body (px_io s))) (px_file s) (px_up s) (px_us s) (cl_set_send tx (px_cl s)) (px_bufs s)
     (px_ffd s) (px_randid s) (px_time s) (px_dials s) (px_ask s) (px_trace s ++ [AClient t]).
(** What the client gets: the text prepared in the header buffer, or a page. *)
Definition reply_text (code : Z) s : bytes :=
  if decide (io_out (px_io s) = []) then page code else io_out (px_io s).

Lemma finalize_run code s :
  0 ≤ code < 1000 → existsb send_fatal (cl_send (px_cl s)) = false →
  ∃ tx, existsb send_fatal tx = false ∧
  gvfs_http_finalize_request code s = Some (tt, answered (reply_text code s) tx s).
Proof.
  intros Hc Hf. unfold gvfs_http_finalize_request. rewrite get_bind.
  set (s1 := with_io (set_out (reply_text code s) (px_io s)) s).
  assert (whenM (length (io_out (px_io s)) =? 0)%nat (p ← phrase code; answer code (html p)) s = Some (tt, s1)) as H1.
  { subst s1. unfold reply_text. destruct (decide (io_out (px_io s) = [])) as [He|Hne].
    - rewrite He. cbn [length Nat.eqb whenM]. rewrite page_answer by (rewrite ?He; simpl; lia || done). by rewrite He.
    - destruct (Nat.eqb_spec (length (io_out (px_io s))) 0) as [E|E]; [by apply length_zero_iff_nil in E|].
      cbn [whenM]. destruct s as [? ? []]. done. }
  rewrite (M_bind_Some _ _ _ _ _ H1), get_bind.
  assert (reply_text code s ≠ []) as Hne.
  { unfold reply_text. case_decide; [|done]. unfold page, answer_text, http_head, status_lines. by destruct code. }
  destruct (completed_send_run (S (length (cl_send (px_cl s)))) (cl_send (px_cl s)) _ ltac:(lia) Hne) as (cd & out & tx & Hr & H & Hf').
  destruct H as [[-> ->]|(_ & _ & H)]; [|by rewrite H in Hf].
  exists tx. split; [by apply Hf'|]. clear H1. revert s1 Hr Hne. generalize (reply_text code s). intros t s1 Hr Hne. subst s1.
  destruct s as [a1 a2 io fl up us cl bufs ffd id tm dl ak tr], cl as [ac rdy ti rx tx0], io as [b r w o bd]. cbn [px_cl cl_send] in Hr. unfold send_client. px_red.
  cbn [io_out set_out cl_send]. unfold gvfs_completed_send. rewrite Hr. px_red. cbn [fst snd]. by destruct t.
Qed.

(** C37: the end of a request answers the client with one complete text: what was
    prepared in the header buffer, or a page for the status code, whose
    [Content-Length] is the length of its body and which always fits the buffer of
    1024 bytes.  All of it is sent, whatever pieces the socket takes, and the
    counters and buffers of the request are reset. *)
Theorem gvfs_http_finalize_answers code s :
  0 ≤ code < 1000 → existsb send_fatal (cl_send (px_cl s)) = false →
  (∃ tx, gvfs_http_finalize_request code s = Some (tt, answered (reply_text code s) tx s)) ∧
  (io_out (px_io s) = [] →
     let body := html (phrase_text code) in
     reply_text code s = status_lines code ++ length_line (Z.of_nat (length body)) ++ last_lines ++ body ∧
     (length (reply_text code s) < 1024)%nat).
Proof.
  intros Hc Hf. split; [destruct (finalize_run code s Hc Hf) as (tx & _ & H); by exists tx|].
  intros Ho body. unfold reply_text. rewrite decide_True by done. unfold page. fold body. unfold answer_text, http_head.
  pose proof (phrase_length code). assert (length body = (141 + length (phrase_text code))%nat) as Hl by apply html_length.
  destruct (Z.eqb_spec (Z.of_nat (length body)) 0); [lia|]. split; [by rewrite <- !app_assoc|].
  assert (Z.of_nat 200 < 10 ^ 20) by done.
  destruct (lines_length code (Z.of_nat (length body)) Hc ltac:(lia)) as (H1 & H2 & H3). rewrite !length_app. lia.
Qed.

(** ** Filling the response buffer *)

Section fill.
Context (h : uhandler) (ac rdy ti po : bool) (tx : list send_res) (hd : rsphead) (sid : Z) (hc bc : bool) (dn : option dbuf).

(** The state with these sockets and this buffer. *)
Definition filling (rx : list recv_res) (ready : bool) (blk : bytes) (la : nat) s : px :=
  with_us (Upst (Some (Peer h ac ready ti po rx tx)) blk la hd sid hc bc dn) s.

Lemma recv_filling size l rx blk la s :
  l ≠ [] → 0 < size →
  recv_up size (filling (RecvData l :: rx) rdy blk la s) =
    Some ((Z.min size (Z.of_nat (length l)), take (Z.to_nat (Z.min size (Z.of_nat (length l)))) l),
          filling (match drop (Z.to_nat (Z.min size (Z.of_nat (length l)))) l with [] => rx | r => RecvData r :: rx end) rdy blk la s).
Proof.
  intros Hl Hs. unfold recv_up, filling. destruct s. px_red. cbn [us_conn pe_recv pe_ready gvfs_unix_recv].
  destruct (Z.eqb_spec size 0); [lia|]. destruct l as [|x l]; [done|]. done.
Qed.
Lemma recv_again size rx blk la s :
  0 < size → recv_up size (filling (RecvErr EAGAIN :: rx) rdy blk la s) = Some ((GVFS_AGAIN, []), filling rx false blk la s).
Proof.
  intros Hs. unfold recv_up, filling. destruct s. px_red. cbn [us_conn pe_recv pe_ready gvfs_unix_recv].
  by destruct (Z.eqb_spec size 0); [lia|].
Qed.
Lemma recv_none rx blk la s : recv_up 0 (filling rx rdy blk la s) = Some ((0, []), filling rx false blk la s).
Proof. unfold recv_up, filling. destruct s. px_red. cbn [us_conn pe_recv pe_ready]. by destruct rx. Qed.

(** One turn of the loop that gets some bytes. *)
Lemma fill_turn fuel size received l rx blk la s :
  l ≠ [] → Z.of_nat la + Z.of_nat (length l) ≤ size < 2 ^ 64 → size ≤ Z.of_nat (length blk) → 0 ≤ received →
  received + Z.of_nat (length l) < 2 ^ 64 →
  fill_loop (S fuel) size received (filling (RecvData l :: rx) rdy blk la s) =
    (if received + Z.of_nat (length l) =? size - Z.of_nat la
     then Some (Z.of_nat (length l), filling rx rdy (take la blk ++ l ++ drop (la + length l) blk) (la + length l) s)
     else fill_loop fuel size (received + Z.of_nat (length l))
            (filling rx rdy (take la blk ++ l ++ drop (la + length l) blk) (la + length l) s)).
Proof.
  intros Hl Hsz Hb Hr Hrl. assert (0 < length l)%nat by (destruct l; [done|simpl; lia]).
  cbn [fill_loop]. change (get_us ≫= ?k) with (gets px_us ≫= k).
  erewrite M_bind_Some by reflexivity. cbn [us_last filling].
  change (px_us (filling (RecvData l :: rx) rdy blk la s)) with (Upst (Some (Peer h ac rdy ti po (RecvData l :: rx) tx)) blk la hd sid hc bc dn).
  cbn [us_last us_buf]. rewrite u64_small by (unfold is_u64; lia).
  rewrite (M_bind_Some _ _ _ _ _ (recv_filling (size - Z.of_nat la) l rx blk la s Hl ltac:(lia))).
  rewrite Z.min_r by lia. rewrite Nat2Z.id, firstn_all, drop_all. cbn [fst snd].
  destruct (Z.eqb_spec (Z.of_nat (length l)) GVFS_AGAIN); [unfold GVFS_AGAIN in *; lia|].
  destruct (Z.eqb_spec (Z.of_nat (length l)) GVFS_ERROR); [unfold GVFS_ERROR in *; lia|].
  destruct (Z.eqb_spec (Z.of_nat (length l)) 0); [lia|]. cbn [orb].
  rewrite st_bytes_ok by lia. rewrite (lift_run _ _ _ _ eq_refl), upd_us_bind.
  rewrite u64_small by (unfold is_u64; lia). destruct s. by destruct (_ =? _).
Qed.

(** More bytes than are asked for: the rest stays. *)
Lemma fill_front fuel size l rx blk la s :
  0 < size - Z.of_nat la < Z.of_nat (length l) → size < 2 ^ 64 → size ≤ Z.of_nat (length blk) →
  let k := Z.to_nat (size - Z.of_nat la) in
  fill_loop (S fuel) size 0 (filling (RecvData l :: rx) rdy blk la s) =
    Some (size - Z.of_nat la,
          filling (RecvData (drop k l) :: rx) rdy (take la blk ++ take k l ++ drop (la + k) blk) (la + k) s).
Proof.
  intros Hk Hsz Hb k. assert (l ≠ []) as Hl by (by intros ->; simpl in Hk; lia).
  cbn [fill_loop]. change (get_us ≫= ?k) with (gets px_us ≫= k). erewrite M_bind_Some by reflexivity.
  change (px_us (filling (RecvData l :: rx) rdy blk la s)) with (Upst (Some (Peer h ac rdy ti po (RecvData l :: rx) tx)) blk la hd sid hc bc dn).
  cbn [us_last us_buf]. rewrite u64_small by (unfold is_u64; lia).
  rewrite (M_bind_Some _ _ _ _ _ (recv_filling (size - Z.of_nat la) l rx blk la s Hl ltac:(lia))).
  rewrite Z.min_l by lia. fold k. cbn [fst snd].
  destruct (Z.eqb_spec (size - Z.of_nat la) GVFS_AGAIN); [unfold GVFS_AGAIN in *; lia|].
  destruct (Z.eqb_spec (size - Z.of_nat la) GVFS_ERROR); [unfold GVFS_ERROR in *; lia|].
  destruct (Z.eqb_spec (size - Z.of_nat la) 0); [lia|]. cbn [orb].
  assert (length (take k l) = k) as Ht by (rewrite length_take; lia).
  rewrite st_bytes_ok by (rewrite Ht; lia). rewrite (lift_run _ _ _ _ eq_refl), upd_us_bind, Ht.
  rewrite u64_small by (unfold is_u64; lia). rewrite Z.add_0_l, Z.eqb_refl.
  destruct (drop k l) eqn:E; [|by destruct s]. apply (f_equal length) in E. rewrite length_drop in E. simpl in E. lia.
Qed.
End fill.

(** The head of an answer in the buffer. *)
Lemma rd32_run (f : bytes → nat → option Z) off v s :
  f (us_buf (px_us s)) off = Some v → rd f off s = Some (v, s).
Proof. intros H. unfold rd, get_us. px_red. by rewrite H. Qed.

Lemma up_fuel_run s p : us_conn (px_us s) = Some p → up_fuel s = Some (S (length (rx_data (pe_recv p))), s).
Proof. intros H. unfold up_fuel, get_peer, get_us. px_red. by rewrite H. Qed.
Lemma fill_run s p size : us_conn (px_us s) = Some p →
  fill size s = fill_loop (S (length (rx_data (pe_recv p)))) size 0 s.
Proof. intros H. unfold fill. by rewrite (M_bind_Some _ _ _ _ _ (up_fuel_run s p H)). Qed.

(** A reader sees only the bytes that it reads. *)
Lemma ld_bytes_lookup n off b v i : ld_bytes n off b = Some v → (i < n)%nat → b !! (off + i)%nat = v !! i.
Proof.
  unfold ld_bytes. case_decide; [|done]. intros [= <-] Hi. by rewrite lookup_take_lt, lookup_drop by done.
Qed.
Lemma rb32_sub b off v : ld_bytes 4 off b = Some v → gvfs_rb32 b off = gvfs_rb32 v 0.
Proof.
  intros H. pose proof (λ i, ld_bytes_lookup _ _ _ _ i H) as Hl. unfold gvfs_rb32, gvfs_rb16, gvfs_r8.
  rewrite <- (Nat.add_0_r off) at 1. rewrite <- (Nat.add_assoc off 2 1), !Hl by lia. done.
Qed.
Lemma rb32_read b off v : ld_bytes 4 off b = Some v → is_bytes v → gvfs_rb32 b off = Some (be_val v).
Proof.
  intros H Hb. pose proof (ld_bytes_Some _ _ _ _ H) as [Hl _]. rewrite (rb32_sub _ _ _ H), (proj1 (r32_bytes v Hb 0)).
  rewrite <- Hl. by rewrite ld_bytes_whole.
Qed.
Lemma rb64_read b off v : ld_bytes 8 off b = Some v → is_bytes v → gvfs_rb64 b off = Some (be_val v).
Proof.
  intros H Hb. pose proof (ld_bytes_Some _ _ _ _ H) as [Hl _].
  assert (gvfs_rb64 b off = gvfs_rb64 v 0) as ->.
  { change 8%nat with (4 + 4)%nat in H. rewrite ld_bytes_app in H.
    destruct (ld_bytes 4 off b) as [v1|] eqn:H1; [|done]. simpl in H. destruct (ld_bytes 4 (off + 4) b) as [v2|] eqn:H2; [|done].
    injection H as <-. unfold gvfs_rb64. rewrite (rb32_sub _ _ _ H1), (rb32_sub _ _ _ H2).
    pose proof (ld_bytes_Some _ _ _ _ H1) as [L1 _]. pose proof (ld_bytes_Some _ _ _ _ H2) as [L2 _].
    rewrite (rb32_sub (v1 ++ v2) 0 v1), (rb32_sub (v1 ++ v2) (0 + 4) v2); [done| |].
    - pose proof (ld_bytes_mid v1 v2 [] 4 (eq_sym L2)) as X. by rewrite app_nil_r, L1 in X.
    - by apply ld_bytes_front. }
  rewrite (proj1 (r64_bytes v Hb 0)). rewrite <- Hl. by rewrite ld_bytes_whole.
Qed.

(** Word [i] of a message. *)
Definition word (i : nat) (m : bytes) : Z := be_val (take 4 (drop (4 * i) m)).
Lemma rb32_word i m rest :
  is_bytes (take 16 m) → (i < 4)%nat → (16 ≤ length m)%nat → gvfs_rb32 (m ++ rest) (4 * i) = Some (word i m).
Proof.
  intros Hb Hi Hl. apply rb32_read.
  - unfold ld_bytes. rewrite decide_True by (rewrite length_app; lia). f_equal.
    rewrite drop_app_le by lia. by rewrite take_app_le by (rewrite length_drop; lia).
  - replace (take 4 (drop (4 * i) m)) with (take 4 (drop (4 * i) (take 16 m)))
      by (rewrite skipn_firstn_comm, take_take; f_equal; lia).
    by apply Forall_take, Forall_drop.
Qed.

Section answer.
Context {PE : ProxyEnv}.

(** What follows the reading of a complete answer. *)
Definition ns_rest : M px unit :=
  rc ← gvfs_ns_process;
  if negb (rc =? GVFS_OK) then fail_upstream HTTP_Ok else
  u ← get_us;
  whenM (negb (rh_type (us_head u) =? NS_FILE_DOWNLOAD)) (gvfs_http_finalize_request HTTP_Ok).

Lemma ns_body_run ac rdy ti po tx hd sid bc dn m rx blk s :
  (16 < length m ≤ length blk)%nat → Z.of_nat (length blk) < 2 ^ 32 → rh_len hd = Z.of_nat (length m) →
  gvfs_ns_process_response_body
      (filling HNsBody ac ti po tx hd sid true bc dn (RecvData (drop 16 m) :: rx) rdy (take 16 m ++ drop 16 blk) 16 s) =
    ns_rest (filling HNsBody ac ti po tx hd sid true true dn rx rdy (m ++ drop (length m) blk) (length m) s).
Proof.
  intros [Hl1 Hl2] Hlt Hlen. unfold gvfs_ns_process_response_body, gvfs_ns_read_response_body.
  rewrite M_bind_assoc. change (get_us ≫= ?k) with (gets px_us ≫= k). erewrite M_bind_Some by reflexivity. cbv beta.
  rewrite M_bind_assoc.
  change (rh_len (us_head (px_us (filling _ _ _ _ _ hd _ _ _ _ _ _ _ _ s)))) with (rh_len hd). rewrite Hlen.
  assert (length (take 16 m ++ drop 16 blk) = length blk) as Hb by (rewrite length_app, length_take, length_drop; lia).
  assert (length (drop 16 m) = (length m - 16)%nat) as Hd by (rewrite length_drop; lia).
  set (n := Z.of_nat (length (drop 16 m))).
  assert (fill (Z.of_nat (length m)) (filling HNsBody ac ti po tx hd sid true bc dn (RecvData (drop 16 m) :: rx) rdy (take 16 m ++ drop 16 blk) 16 s) =
    Some (n, filling HNsBody ac ti po tx hd sid true bc dn rx rdy (m ++ drop (length m) blk) (length m) s)) as Hf.
  { erewrite fill_run by reflexivity. rewrite fill_turn.
    - rewrite Z.add_0_l, Hd. destruct (Z.eqb_spec (Z.of_nat (length m - 16)) (Z.of_nat (length m) - Z.of_nat 16)); [|lia].
      subst n. rewrite Hd. replace (16 + (length m - 16))%nat with (length m) by lia. do 3 f_equal.
      rewrite take_app_le by (rewrite length_take; lia). rewrite take_take, Nat.min_id, drop_app_ge by (rewrite length_take; lia).
      rewrite drop_drop, length_take, app_assoc, take_drop. do 2 f_equal. lia.
    - intros E. rewrite E in Hd. simpl in Hd. lia.
    - rewrite Hd. lia.
    - rewrite Hb. lia.
    - lia.
    - rewrite Hd. lia. }
  rewrite (M_bind_Some _ _ _ _ _ Hf). subst n. rewrite Hd. clear Hf.
  destruct (Z.eqb_spec (Z.of_nat (length m - 16)) GVFS_AGAIN); [unfold GVFS_AGAIN in *; lia|].
  destruct (Z.eqb_spec (Z.of_nat (length m - 16)) GVFS_ERROR); [unfold GVFS_ERROR in *; lia|].
  destruct (Z.eqb_spec (Z.of_nat (length m - 16)) 0); [lia|]. cbn [orb].
  unfold ns_rest. destruct s as [a1 a2 io fl up us cl bufs ffd id tm dl ak tr]. unfold filling. px_red. us_red.
  destruct (Z.eqb_spec (Z.of_nat (length m - 16)) GVFS_AGAIN); [unfold GVFS_AGAIN in *; lia|].
  destruct (Z.eqb_spec (Z.of_nat (length m - 16)) GVFS_ERROR); [unfold GVFS_ERROR in *; lia|].
  destruct (Z.eqb_spec (Z.of_nat (length m - 16)) 0); [lia|]. reflexivity.
Qed.

(** An answer that arrives in one piece is read whole and then processed. *)
Lemma ns_answer_run h ac rdy ti po tx hd sid hc bc dn m rx blk s :
  is_bytes (take 16 m) → (16 < length m ≤ length blk)%nat → Z.of_nat (length blk) < 2 ^ 32 → word 0 m = Z.of_nat (length m) →
  gvfs_ns_process_response_header false (filling h ac ti po tx hd sid hc bc dn (RecvData m :: rx) rdy blk 0 s) =
    ns_rest (filling HNsBody ac ti po tx (RspHead (word 0 m) (word 1 m) (word 2 m) (rh_encrypt hd) (word 3 m)) sid true true dn
               rx rdy (m ++ drop (length m) blk) (length m) s).
Proof.
  intros Hm [Hl1 Hl2] Hlt Hw. unfold gvfs_ns_process_response_header, gvfs_ns_read_response_header.
  rewrite M_bind_assoc. erewrite M_bind_Some; last first.
  { erewrite fill_run by reflexivity. apply (fill_front h ac rdy ti po tx hd sid hc bc dn); simpl; lia. }
  cbv beta. change (Z.to_nat (16 - Z.of_nat 0)) with 16%nat. change (16 - Z.of_nat 0) with 16. cbn [take app Nat.add].
  change (16 =? GVFS_AGAIN) with false. change (16 =? GVFS_ERROR) with false. change (16 =? 0) with false. cbn [orb].
  set (blk1 := take 16 m ++ drop 16 blk).
  assert (length (take 16 m) = 16%nat) as H16 by (rewrite length_take; lia).
  assert (∀ i, (i < 4)%nat → gvfs_rb32 blk1 (4 * i) = Some (word i m)) as Hrd.
  { intros i Hi. subst blk1. rewrite rb32_word by (rewrite ?H16, ?take_take; done || lia). f_equal. unfold word. f_equal.
    rewrite skipn_firstn_comm, take_take. f_equal. lia. }
  pose proof (Hrd 0%nat ltac:(lia)) as R0. pose proof (Hrd 1%nat ltac:(lia)) as R1.
  pose proof (Hrd 2%nat ltac:(lia)) as R2. pose proof (Hrd 3%nat ltac:(lia)) as R3. cbn [Nat.mul Nat.add] in R0, R1, R2, R3.
  change (take 0 blk ++ blk1) with blk1.
  unfold rd, filling. destruct s as [a1 a2 io fl up us cl bufs ffd id tm dl ak tr]. px_red. us_red.
  rewrite R0. px_red. us_red. rewrite R1. px_red. us_red. rewrite R2. px_red. us_red. rewrite R3. px_red. us_red.
  change (16 =? GVFS_AGAIN) with false. change (16 =? GVFS_ERROR) with false. change (16 =? 0) with false. cbv beta iota.
  cbn [negb]. cbv iota. px_red. us_red.
  exact (ns_body_run ac rdy ti po tx (RspHead (word 0 m) (word 1 m) (word 2 m) (rh_encrypt hd) (word 3 m)) sid bc dn m rx blk
           (Px a1 a2 io fl up us cl bufs ffd id tm dl ak tr) (conj Hl1 Hl2) Hlt Hw).
Qed.
End answer.

(** ** Fields of an answer *)

Lemma rb32_field fs i x off :
  fs !! i = Some (be_bytes 4 x) → off = length (concat (take i fs)) → gvfs_rb32 (concat fs) off = Some (u32 x).
Proof.
  intros Hi ->. rewrite (rb32_read _ _ (be_bytes 4 x)); [|by eapply ld_concat|apply be_bytes_is]. f_equal. apply be_val_bytes.
Qed.
Lemma rb64_field fs i x off :
  fs !! i = Some (be_bytes 8 x) → off = length (concat (take i fs)) → gvfs_rb64 (concat fs) off = Some (u64 x).
Proof.
  intros Hi ->. rewrite (rb64_read _ _ (be_bytes 8 x)); [|by eapply ld_concat|apply be_bytes_is]. f_equal. apply be_val_bytes.
Qed.
Lemma rd_bind {A} f off (k : Z → M px A) v s : f (us_buf (px_us s)) off = Some v → (rd f off ≫= k) s = k v s.
Proof. intros H. by rewrite (M_bind_Some _ _ _ _ _ (rd32_run _ _ _ _ H)). Qed.

Lemma close_upstream_run s p :
  px_up s = true → us_conn (px_us s) = Some p → pe_pool p = true → us_down (px_us s) = None →
  gvfs_close_upstream s =
    Some (tt, with_trace (px_trace s ++ [ACloseUp]) (with_us (us_set_conn None (us_set_buf [] 0 (px_us s))) s)).
Proof.
  intros Hu Hp Hpo Hd. unfold gvfs_close_upstream. rewrite upstream_bind, Hp, Hd by done. rewrite ret_bind.
  unfold gvfs_free_upstream. rewrite M_bind_assoc, (get_peer_bind _ _ p), Hpo by done. by rewrite upd_us_bind, emit_bind.
Qed.
