(* ===== verification/ProxyReq.v ===== *)
(** The requests of the proxy are those that the name service expects: the
    messages of ProxyMsg.v against the formats of FileSpec.v, UploadSpec.v and
    DownloadSpec.v, and their sending. *)
From Stdlib Require Import String.
From S2P Require Import Prelude Bytes Text Tools NetBuf Fields FileSpec UploadSpec DownloadSpec.
From S2P Require Import ProxyText ProxyNet ProxyState ProxyHttp ProxyMsg ProxyRsp ProxyLoop ProxyRelay ProxyAns.
Implicit Types (s : px).

(** ** Text of a hash *)

Lemma hex_digits_nonzero h : is_bytes h → Forall (λ c, c ≠ 0) (hex_digits h).
Proof.
  induction 1 as [|b h Hb Hh IH]; [constructor|]. change (hex_digits (b :: h)) with (hex_hi b :: hex_lo b :: hex_digits h).
  assert (hex_hi b ≠ 0 ∧ hex_lo b ≠ 0) as [? ?]; [|by repeat constructor].
  revert b Hb. apply (byte_check (λ b, hex_hi b ≠ 0 ∧ hex_lo b ≠ 0) _). by vm_compute.
Qed.
Lemma hash_digits_length h : length (hex_digits h) = (2 * length h)%nat.
Proof. induction h as [|b h IH]; [done|]. change (hex_digits (b :: h)) with (hex_hi b :: hex_lo b :: hex_digits h). simpl. lia. Qed.

Lemma cstr_text p rest : Forall (λ c, c ≠ 0) p → cstr (p ++ 0 :: rest) = p.
Proof.
  induction 1 as [|c p Hc Hp IH]; [done|]. simpl. destruct (Z.eqb_spec c 0); [done|]. by rewrite IH.
Qed.
Lemma cstr_whole p : Forall (λ c, c ≠ 0) p → cstr p = p.
Proof. induction 1 as [|c p Hc Hp IH]; [done|]. simpl. destruct (Z.eqb_spec c 0); [done|]. by rewrite IH. Qed.

(** The copy of a text with room for its zero. *)
Lemma querystr_loop_run p pre n len :
  (length p < n)%nat → len = (length pre + n)%nat →
  querystr_loop p (length pre) len (pre ++ replicate n 0) = Some (pre ++ p ++ replicate (n - length p) 0).
Proof.
  revert pre n. induction p as [|c p IH]; intros pre n Hp ->; simpl in Hp.
  - simpl. by rewrite Nat.sub_0_r.
  - cbn [querystr_loop]. destruct (Nat.ltb_spec (length pre) (length pre + n)); [|lia].
    destruct n as [|[|n]]; [lia|simpl in Hp; lia|].
    change (replicate (S (S n)) 0) with ([0; 0] ++ replicate n 0). rewrite st_bytes_mid by done.
    cbn [mbind option_bind]. specialize (IH (pre ++ [c]) (S n) ltac:(lia) ltac:(rewrite length_app; simpl; lia)).
    rewrite length_app in IH. simpl length in IH. rewrite Nat.add_1_r in IH. rewrite <- !app_assoc in IH.
    change ([c; 0] ++ replicate n 0) with ([c] ++ replicate (S n) 0).
    replace (pre ++ c :: replicate (S n) 0) with (pre ++ [c] ++ replicate (S n) 0) by done.
    by rewrite IH.
Qed.

(** ** The messages *)

Lemma st_bytes_front v old post : length v = length old → st_bytes 0 v (old ++ post) = Some (v ++ post).
Proof. apply (st_bytes_mid []). Qed.
Lemma st_bytes_at off pre old v post :
  length pre = off → length v = length old → st_bytes off v (pre ++ old ++ post) = Some (pre ++ v ++ post).
Proof. intros <-. apply st_bytes_mid. Qed.

Lemma hextoi_hash {PE : ProxyEnv} h :
  is_bytes h → length h = 16%nat → gvfs_hextoi (pv_stack 16) 16 (hex_digits h) = Some h.
Proof.
  intros Hb Hl. destruct (gvfs_hextoi_run (pv_stack 16) h []) as (_ & Hx & _); [done|rewrite pv_stack_length; lia|by rewrite pv_stack_length|].
  rewrite pv_stack_length in Hx. rewrite (Hx : gvfs_hextoi (pv_stack 16) 16 (hex_digits h) = _).
  rewrite Hl, drop_ge by (rewrite pv_stack_length; lia). by rewrite app_nil_r.
Qed.

Lemma ns_head_bytes len sid type : ns_head len sid type = be_bytes 4 len ++ be_bytes 4 sid ++ be_bytes 4 type.
Proof. unfold ns_head. by rewrite !le_bytes_htonl. Qed.

Lemma file_message_run {PE : ProxyEnv} sid ty h rest :
  is_bytes h → length h = 16%nat →
  file_message sid ty (hex_digits h ++ 0 :: rest) = Some (concat (file_req ty (FileMsg sid 0 h))).
Proof.
  intros Hb Hl. unfold file_message. rewrite ns_head_bytes.
  assert (length (be_bytes 4 36 ++ be_bytes 4 sid ++ be_bytes 4 ty) = 12%nat) as H12 by (by rewrite !length_app, !be_bytes_length).
  change (replicate 52 0) with (replicate 12 0 ++ replicate 4 0 ++ replicate 16 0 ++ replicate 20 0).
  rewrite st_bytes_front by (rewrite H12; done). cbn [mbind option_bind].
  rewrite cstr_text by (by apply hex_digits_nonzero). rewrite hextoi_hash by done. cbn [mbind option_bind].
  set (hd := be_bytes 4 36 ++ be_bytes 4 sid ++ be_bytes 4 ty) in *.
  rewrite (app_assoc hd (replicate 4 0)).
  rewrite st_bytes_at by (rewrite ?length_app, ?H12, ?Hl; done). cbn [mbind option_bind].
  f_equal. rewrite !app_assoc. change (replicate 20 0) with (replicate 4 0 ++ replicate 16 0). rewrite app_assoc.
  rewrite take_app_length' by (rewrite !length_app, Hl, H12; done).
  cbn [file_req concat fm_id fm_encrypt fm_hash]. rewrite app_nil_r. subst hd. by rewrite <- !app_assoc.
Qed.

Lemma rb64_host v : ∃ x, gvfs_rb64 (le_bytes 8 v) 0 = Some x ∧ le_bytes 8 x = be_bytes 8 v.
Proof.
  exists (bswap 8 v). split; [|apply le_bytes_bswap].
  rewrite (proj1 (r64_bytes _ (le_bytes_is 8 v) 0)).
  change 8%nat with (length (le_bytes 8 v)) at 1. by rewrite ld_bytes_whole.
Qed.

(** A store at field [i] of a message. *)
Ltac st_field i Hl :=
  erewrite (st_concat _ i); [|reflexivity|rewrite ?Hl, ?be_bytes_length; reflexivity
                             |cbn [take concat]; rewrite ?length_app, ?Hl; reflexivity];
  cbn [mbind option_bind insert list_insert].

Lemma upload_message_run {PE : ProxyEnv} sid h fs bn bi :
  is_bytes h → length h = 16%nat →
  upload_message sid (hex_digits h) fs bn bi =
    Some (concat (upload_req (UploadMsg sid 0 h (atoll fs) (u32 (atoll bn)) (u32 (atoll bi))))).
Proof.
  intros Hb Hl. unfold upload_message. rewrite ns_head_bytes, hextoi_hash by done.
  change (replicate 52 0) with (concat [replicate 12 0; replicate 4 0; replicate 16 0; replicate 8 0; replicate 4 0; replicate 4 0; replicate 4 0]).
  st_field 0%nat Hl. st_field 2%nat Hl. destruct (rb64_host (atoll fs)) as (x & -> & Hx). cbn [mbind option_bind].
  change ntohl with htonl. rewrite Hx, !le_bytes_htonl. st_field 3%nat Hl. st_field 4%nat Hl. st_field 5%nat Hl.
  reflexivity.
Qed.

Lemma download_message_run {PE : ProxyEnv} sid h bi :
  is_bytes h → length h = 16%nat →
  download_message sid (hex_digits h) bi = Some (concat (download_req (DownloadMsg sid 0 h (u32 (atoll bi))))).
Proof.
  intros Hb Hl. unfold download_message. rewrite ns_head_bytes, hextoi_hash by done.
  change (replicate 52 0) with (concat [replicate 12 0; replicate 4 0; replicate 16 0; replicate 4 0; replicate 4 0; replicate 12 0]).
  change ntohl with htonl. rewrite le_bytes_htonl. st_field 0%nat Hl. st_field 2%nat Hl. st_field 3%nat Hl.
  f_equal. cbn [concat]. rewrite app_nil_r, !app_assoc.
  rewrite take_app_length' by (rewrite !length_app, Hl; done).
  cbn [download_req concat dm_id dm_encrypt dm_hash dm_bindex]. by rewrite <- !app_assoc, app_nil_r.
Qed.

(** ** Sending *)

Section send.
Context {PE : ProxyEnv}.

(** A connection that was just opened. *)
Definition fresh_peer (rx : list recv_res) (tx : list send_res) : peer := Peer HNone false false false false rx tx.
(** The upstream that waits for an answer. *)
Definition waiting (h : uhandler) (sid : Z) (size : nat) (timer : bool) rx tx (u : upst) : upst :=
  Upst (Some (Peer h true false timer true rx tx)) (pv_fresh size) 0 (us_head u) sid
    (us_header_completed u) (us_body_completed u) (us_down u).

Lemma transmit_run h sid m size timer rx tx s :
  px_up s = true → us_conn (px_us s) = Some (fresh_peer rx tx) → existsb send_fatal tx = false → px_ask s = [] → m ≠ [] →
  ∃ tx', existsb send_fatal tx' = false ∧ transmit h sid m size timer s =
    Some (GVFS_OK, with_trace (px_trace s ++ [AUp m]) (with_us (waiting h sid size timer rx tx' (px_us s)) s)).
Proof.
  intros Hu Hc Hf Ha Hm.
  unfold transmit, gvfs_palloc. rewrite upstream_bind, upd_us_bind by done.
  destruct s as [a1 a2 io fl up us cl bufs ffd id tm dl ak tr], us as [cn bf la hd sd hc bc dn]. cbn in Hu, Hc, Ha. subst up cn ak.
  unfold waiting, fresh_peer in *. cbn [px_us with_us us_set_sid us_conn us_buf us_last us_head us_header_completed us_body_completed us_down].
  erewrite upd_peer_bind by reflexivity. erewrite get_peer_bind by reflexivity. cbn [pe_active pe_set_handler].
  erewrite epoll_up_bind by reflexivity. change (GVFS_OK =? GVFS_OK) with true. cbn [negb].
  match goal with |- context [(send_up m ≫= _) ?st] =>
    destruct (send_up_run m st (Peer h true false false false rx tx) eq_refl Hf Hm) as (tx' & Hf' & Hs) end.
  exists tx'. split; [done|]. rewrite (M_bind_Some _ _ _ _ _ Hs). clear Hs.
  change (GVFS_OK =? GVFS_OK) with true. cbn [negb]. rewrite ask_bind by done. cbn [negb].
  erewrite upd_peer_bind by reflexivity. rewrite M_bind_assoc, ask_bind by done. cbv iota. rewrite ret_bind, upd_us_bind.
  by destruct timer.
Qed.

Lemma connect_run addr port rx tx ds s :
  px_up s = true → px_dials s = DialOk rx tx :: ds →
  gvfs_upstream_init addr port s =
    Some (GVFS_OK, with_trace (px_trace s ++ [AConnect addr (u16 port)])
       (with_us (us_set_conn (Some (fresh_peer rx tx)) (px_us s)) (with_script ds (px_ask s) s))).
Proof.
  intros Hu Hd. unfold gvfs_upstream_init, gvfs_event_connect_peer. destruct s as [a1 a2 io fl up us cl bufs ffd id tm dl ak tr].
  cbn in Hu, Hd. subst up dl. by px_red.
Qed.

(** The number of the next request, and the counter behind it. *)
Definition next_id s : Z := if px_randid s =? 0 then u32 (px_time s) else px_randid s.
Lemma randid_run s : gvfs_get_randid s = Some (next_id s, with_randid (u32 (next_id s + 1)) s).
Proof. done. Qed.

(** The state when message [m] is on its way to the name service. *)
Definition requested (m : bytes) rx tx ds s : px :=
  with_trace (px_trace s ++ [AConnect pv_ns.1 (u16 pv_ns.2); AUp m])
    (with_us (waiting HNsHeader (next_id s) 3072 true rx tx (px_us s))
       (with_randid (u32 (next_id s + 1)) (with_script ds (px_ask s) s))).

(** Connecting and sending, once the message is known. *)
Lemma request_run m rx tx ds s :
  px_up s = true → px_dials s = DialOk rx tx :: ds → existsb send_fatal tx = false → px_ask s = [] → m ≠ [] →
  ∃ tx', existsb send_fatal tx' = false ∧
  (rc ← gvfs_upstream_init pv_ns.1 pv_ns.2;
   if negb (rc =? GVFS_OK) then mret GVFS_ERROR else
   sid ← gvfs_get_randid; transmit HNsHeader sid m 3072 true) s = Some (GVFS_OK, requested m rx tx' ds s).
Proof.
  intros Hu Hd Hf Ha Hm. rewrite (M_bind_Some _ _ _ _ _ (connect_run _ _ _ _ _ _ Hu Hd)).
  change (GVFS_OK =? GVFS_OK) with true. cbn [negb]. rewrite (M_bind_Some _ _ _ _ _ (randid_run _)).
  match goal with |- context [transmit _ ?sid _ _ _ ?st] =>
    destruct (transmit_run HNsHeader sid m 3072 true rx tx st) as (tx' & Hf' & Hs) end; [by destruct s..|done|].
  exists tx'. split; [done|]. rewrite Hs. clear Hs. destruct s as [a1 a2 io fl up us cl bufs ffd id tm dl ak tr].
  unfold requested. cbn in Ha |- *. subst ak. by rewrite <- app_assoc.
Qed.

Definition hash_query (h : bytes) : bytes := lit "filehash=" ++ hex_digits h.
Lemma hash_query_parse h :
  is_bytes h → length h = 16%nat →
  query_str (hash_query h) = Some (hash_query h) ∧
  gvfs_query_querystr_parse (hash_query h) (replicate 64 0) 64 =
    Some (GVFS_OK, hex_digits h ++ 0 :: replicate 31 0).
Proof.
  intros Hb Hl. pose proof (hex_digits_nonzero h Hb) as Hnz. pose proof (hash_digits_length h) as Hx. rewrite Hl in Hx.
  unfold hash_query. change (lit "filehash=") with [102; 105; 108; 101; 104; 97; 115; 104; 61]. split.
  - unfold query_str. rewrite cstr_whole by (apply Forall_app; split; [by repeat constructor|done]).
    destruct (Nat.ltb_spec (length ([102; 105; 108; 101; 104; 97; 115; 104; 61] ++ hex_digits h)) 512); [done|].
    rewrite length_app, Hx in *. simpl in *. lia.
  - unfold gvfs_query_querystr_parse. change (lit "filehash=") with [102; 105; 108; 101; 104; 97; 115; 104; 61].
    cbn [strstr app length take]. rewrite decide_True by done. cbn [drop].
    rewrite (querystr_loop_run (hex_digits h) [] 64) by (simpl; lia). by rewrite Hx.
Qed.

(** A request on a file by its hash. *)
Lemma file_request_run ty (query : bool) h rx tx ds s :
  is_bytes h → length h = 16%nat → ty = (if query then 10 else 4) → px_query s = hash_query h →
  px_up s = true → px_dials s = DialOk rx tx :: ds → existsb send_fatal tx = false → px_ask s = [] →
  ∃ tx', existsb send_fatal tx' = false ∧
  (if query then gvfs_ns_query_request else gvfs_ns_delete_request) s =
    Some (GVFS_OK, requested (concat (file_req ty (FileMsg (next_id s) 0 h))) rx tx' ds s).
Proof.
  intros Hb Hl Hty Hq Hu Hd Hf Ha. destruct (hash_query_parse h Hb Hl) as [H1 H2].
  destruct (request_run (concat (file_req ty (FileMsg (next_id s) 0 h))) rx tx ds s Hu Hd Hf Ha) as (tx' & Hf' & Hs); [by destruct query|].
  exists tx'. split; [done|]. rewrite <- Hs. clear Hs.
  destruct query; subst ty; [unfold gvfs_ns_query_request|unfold gvfs_ns_delete_request, gvfs_delete_querystr_parse];
    rewrite get_bind, Hq, (lift_run _ _ _ _ H1), (lift_run _ _ _ _ H2); cbn [fst snd];
    change (GVFS_OK =? GVFS_OK) with true; cbn [negb];
    rewrite !(M_bind_Some _ _ _ _ _ (connect_run _ _ _ _ _ _ Hu Hd));
    change (GVFS_OK =? GVFS_OK) with true; cbn [negb]; rewrite !(M_bind_Some _ _ _ _ _ (randid_run _));
    by rewrite (lift_run _ _ _ _ (file_message_run _ _ h _ Hb Hl)).
Qed.
End send.
