(* ===== verification/ProxyEnd.v ===== *)
(** End to end: the proxy and the name service together.  The bytes that the
    proxy sends are given to the handlers of busi/, and the answer they build is what
    the proxy reads. *)
From Stdlib Require Import String.
From S2P Require Import Prelude Rbtree Timer Bytes Text Tools NetBuf Sql State BusiFile Busi Fields UploadSpec DownloadSpec FileSpec ProxyText ProxyNet ProxyState.
From S2P Require Import ProxyHttp ProxyMsg ProxyRsp ProxyLoop ProxyRelay ProxyAns ProxyReq.

Implicit Types (s : px).

(** ** Size of a file *)

Lemma concat_is_bytes (fs : list bytes) : Forall is_bytes fs → is_bytes (concat fs).
Proof. induction 1 as [|f fs Hf Hfs IH]; [constructor|]. simpl. by apply Forall_app. Qed.

Section query.
Context {PE : ProxyEnv}.

Lemma getfsize_ans_bytes id rtn fsize bsize : is_bytes (concat (getfsize_ans id rtn fsize bsize)).
Proof. apply concat_is_bytes. repeat (constructor; [apply be_bytes_is|]). repeat constructor; done. Qed.

Lemma query_process_run id rtn fsize bsize rest s :
  us_buf (px_us s) = concat (getfsize_ans id rtn fsize bsize ++ [rest]) →
  gvfs_ns_file_query_process s = Some ((u64 fsize, u32 bsize), s).
Proof.
  intros Hb.
  unfold gvfs_ns_file_query_process.
  erewrite rd_bind by (rewrite Hb; by apply (rb32_field _ 4 0)).
  erewrite rd_bind by (rewrite Hb; by apply (rb64_field _ 5 fsize)).
  erewrite rd_bind by (rewrite Hb; by apply (rb32_field _ 6 bsize)).
  by erewrite rd_bind by (rewrite Hb; by apply (rb32_field _ 7 0)).
Qed.

(** The request is answered with [body] and its connection to the name service is
    closed. *)
Lemma ns_rest_answer hd tx sid dn_rx blk la body s :
  let st := filling HNsBody true true true tx hd sid true true None dn_rx true blk la s in
  px_up s = true → io_out (px_io s) = [] → existsb send_fatal (cl_send (px_cl s)) = false →
  rh_type hd ≠ NS_FILE_DOWNLOAD → (length body ≤ 600)%nat →
  gvfs_ns_process st = (answer HTTP_Ok body;; gvfs_close_upstream;; mret GVFS_OK) st →
  ∃ s', ns_rest st = Some (tt, s') ∧ px_trace s' = px_trace s ++ [ACloseUp; AClient (answer_text HTTP_Ok body)] ∧
    us_conn (px_us s') = None ∧ px_up s' = true.
Proof.
  intros st Hu Ho Hf Hty Hb Hp. unfold ns_rest. rewrite M_bind_opt, Hp.
  assert (io_out (px_io st) = []) as Host by (subst st; by destruct s).
  erewrite M_bind_Some by (apply answer_run; [done|done|rewrite Host; simpl; lia]). rewrite Host, app_nil_l. clear Hp.
  erewrite M_bind_Some by (apply (close_upstream_run _ (Peer HNsBody true true true true dn_rx tx)); [by destruct s|by destruct s|done|by destruct s]).
  cbn [mret M_ret mbind option_bind fst snd]. change (GVFS_OK =? GVFS_OK) with true. cbn [negb].
  rewrite get_us_bind. match goal with |- context [rh_type (us_head (px_us ?x))] => set (st2 := x) end.
  assert (rh_type (us_head (px_us st2)) = rh_type hd) as -> by (subst st2 st; by destruct s).
  destruct (Z.eqb_spec (rh_type hd) NS_FILE_DOWNLOAD); [done|]. cbn [negb whenM].
  destruct (finalize_run HTTP_Ok st2) as (tx2 & _ & Hfin); [done|subst st2 st; by destruct s|].
  rewrite Hfin. eexists. split; [done|]. subst st2 st. destruct s as [a1 a2 io fl up us cl bufs ffd id tm dl ak tr]. cbn in Ho, Hu |- *. subst up.
  unfold reply_text. cbn [px_io with_io with_us with_trace set_out filling io_out]. rewrite decide_False by done.
  cbn [answered px_trace]. by rewrite <- app_assoc.
Qed.

Lemma event_requested m rx tx ds s :
  us_down (px_us s) = None →
  up_event false (requested m rx tx ds s) =
    gvfs_ns_process_response_header false
      (filling HNsHeader true true true tx (us_head (px_us s)) (next_id s) (us_header_completed (px_us s))
         (us_body_completed (px_us s)) None rx true (pv_fresh 3072) 0 (requested m rx tx ds s)).
Proof. intros Hd. destruct s as [a1 a2 io fl up [] cl bufs ffd id tm dl ak tr]. cbn in Hd. by subst. Qed.

(** A short answer to a request, from the event to the client. *)
Lemma short_answer m rx tx ds body ans rtn ty s :
  px_up s = true → io_out (px_io s) = [] → px_ask s = [] → existsb send_fatal (cl_send (px_cl s)) = false → us_down (px_us s) = None →
  is_bytes (take 16 ans) → (16 < length ans ≤ 3072)%nat → word 0 ans = Z.of_nat (length ans) → word 2 ans = ty → word 3 ans = rtn →
  ty ≠ NS_FILE_DOWNLOAD → (length body ≤ 600)%nat →
  (∀ st, us_buf (px_us st) = ans ++ drop (length ans) (pv_fresh 3072) → rh_type (us_head (px_us st)) = ty →
     rh_rtn (us_head (px_us st)) = rtn → px_ask st = [] →
     gvfs_ns_process st = (answer HTTP_Ok body;; gvfs_close_upstream;; mret GVFS_OK) st) →
  ∃ s', up_event false (requested m (RecvData ans :: rx) tx ds s) = Some (tt, s') ∧
    px_trace s' = px_trace (requested m (RecvData ans :: rx) tx ds s) ++ [ACloseUp; AClient (answer_text HTTP_Ok body)] ∧
    us_conn (px_us s') = None ∧ px_up s' = true.
Proof.
  intros Hu Ho Ha Hf Hd Hb Hl H0 H2 H3 Hty Hbl Hproc. rewrite event_requested by done.
  rewrite ns_answer_run; [|done|by rewrite pv_fresh_length|by rewrite pv_fresh_length|done].
  apply ns_rest_answer; try done; [by rewrite <- H2 in Hty|]. by apply Hproc.
Qed.

(** What the name service's answer means to a client. *)
Lemma fmt_u_len n : 0 ≤ n < 2 ^ 64 → (length (fmt_u n) ≤ 20)%nat.
Proof. intros H. apply fmt_u_length. lia. Qed.
Lemma query_body_length rtn fs bs : is_u32 rtn → is_u64 fs → is_u32 bs → (length (query_body rtn (fs, bs)) ≤ 600)%nat.
Proof.
  intros H1 H2 H3. unfold query_body, is_u32, is_u64 in *. cbn [fst snd].
  pose proof (fmt_u_len rtn ltac:(lia)). pose proof (fmt_u_len fs ltac:(lia)). pose proof (fmt_u_len bs ltac:(lia)).
  case_match; rewrite !length_app; lit_len; lia.
Qed.

Lemma query_answer id m rx tx ds rtn fsize bsize s :
  px_up s = true → io_out (px_io s) = [] → px_ask s = [] → existsb send_fatal (cl_send (px_cl s)) = false → us_down (px_us s) = None →
  let ans := concat (getfsize_ans id rtn fsize bsize) in
  ∃ s', up_event false (requested m (RecvData ans :: rx) tx ds s) = Some (tt, s') ∧
    px_trace s' = px_trace (requested m (RecvData ans :: rx) tx ds s) ++
      [ACloseUp; AClient (answer_text HTTP_Ok (query_body (u32 rtn) (u64 fsize, u32 bsize)))] ∧
    us_conn (px_us s') = None ∧ px_up s' = true.
Proof.
  intros Hu Ho Ha Hf Hd ans. assert (length ans = 36%nat) as Hlen by done.
  apply (short_answer _ _ _ _ _ _ (u32 rtn) 10); try done; try (rewrite ?Hlen; lia).
  - by apply Forall_take, getfsize_ans_bytes.
  - exact (be_val_bytes 4 rtn).
  - apply query_body_length; [apply u32_range|apply u64_range|apply u32_range].
  - intros st Hbuf Hty Hrt Hak. unfold gvfs_ns_process. rewrite get_us_bind, Hty. cbv zeta.
    rewrite bool_decide_true by (by left). cbn [negb]. rewrite ask_bind by done. cbn [negb].
    change (10 =? NS_FILE_QUERY) with true. cbv iota. rewrite M_bind_assoc.
    assert (us_buf (px_us st) = concat (getfsize_ans id rtn fsize bsize ++ [drop 36 (pv_fresh 3072)])) as Hbuf'
      by (by rewrite Hbuf, concat_app; cbn [concat]; rewrite app_nil_r, Hlen).
    rewrite (M_bind_Some _ _ _ _ _ (query_process_run id rtn fsize bsize _ st Hbuf')).
    unfold gvfs_ns_file_query_completed, head_rtn. rewrite !M_bind_assoc, get_us_bind, ret_bind, Hrt.
    unfold mbind, M_bind. destruct (answer _ _ st) as [[u1 s1]|]; [|done]. cbn [mret M_ret].
    by destruct (gvfs_close_upstream s1) as [[u2 s2]|].
Qed.

Lemma delete_ans_bytes id rtn : is_bytes (concat (delete_file_ans id rtn)).
Proof. apply concat_is_bytes. repeat (constructor; [apply be_bytes_is|]). constructor. Qed.

Lemma delete_process_run id rtn rest s :
  us_buf (px_us s) = concat (delete_file_ans id rtn ++ [rest]) →
  gvfs_ns_file_delete_process s = Some (tt, s).
Proof.
  intros Hb.
  unfold gvfs_ns_file_delete_process.
  erewrite rd_bind by (rewrite Hb; by apply (rb32_field _ 4 0)).
  by erewrite rd_bind by (rewrite Hb; by apply (rb32_field _ 5 0)).
Qed.

Lemma delete_answer id m rx tx ds rtn s :
  px_up s = true → io_out (px_io s) = [] → px_ask s = [] → existsb send_fatal (cl_send (px_cl s)) = false → us_down (px_us s) = None →
  let ans := concat (delete_file_ans id rtn) in
  ∃ s', up_event false (requested m (RecvData ans :: rx) tx ds s) = Some (tt, s') ∧
    px_trace s' = px_trace (requested m (RecvData ans :: rx) tx ds s) ++
      [ACloseUp; AClient (answer_text HTTP_Ok (rtn_body (u32 rtn)))] ∧
    us_conn (px_us s') = None ∧ px_up s' = true.
Proof.
  intros Hu Ho Ha Hf Hd ans. assert (length ans = 24%nat) as Hlen by done.
  apply (short_answer _ _ _ _ _ _ (u32 rtn) 4); try done; try (rewrite ?Hlen; lia).
  - by apply Forall_take, delete_ans_bytes.
  - exact (be_val_bytes 4 rtn).
  - unfold rtn_body. rewrite length_app. lit_len. pose proof (u32_range rtn). pose proof (fmt_u_len (u32 rtn) ltac:(lia)). lia.
  - intros st Hbuf Hty Hrt Hak. unfold gvfs_ns_process. rewrite get_us_bind, Hty. cbv zeta.
    rewrite bool_decide_true by (do 3 right; left). cbn [negb]. rewrite ask_bind by done. cbn [negb].
    change (4 =? NS_FILE_QUERY) with false. change (4 =? NS_FILE_UPLOAD) with false. change (4 =? NS_FILE_DOWNLOAD) with false.
    cbv iota. rewrite M_bind_assoc.
    assert (us_buf (px_us st) = concat (delete_file_ans id rtn ++ [drop 24 (pv_fresh 3072)])) as Hbuf'
      by (by rewrite Hbuf, concat_app; cbn [concat]; rewrite app_nil_r, Hlen).
    rewrite (M_bind_Some _ _ _ _ _ (delete_process_run id rtn _ st Hbuf')).
    unfold gvfs_ns_file_delete_completed, head_rtn. rewrite !M_bind_assoc, get_us_bind, ret_bind, Hrt.
    unfold mbind, M_bind. destruct (answer _ _ st) as [[u1 s1]|]; [|done]. cbn [mret M_ret].
    by destruct (gvfs_close_upstream s1) as [[u2 s2]|].
Qed.
End query.

Section both.
Context {D : Type} `{!Mysql D} {E : Env} {PE : ProxyEnv}.
Implicit Types ns : svc D.

Lemma getfsize_effect_rtn m ns rtn fsize ns' :
  getfsize_effect m ns = Some ((rtn, fsize), ns') → (rtn = 0 ∨ rtn = 20) ∧ is_u64 fsize.
Proof.
  intros Heff. split; [|by eapply getfsize_effect_u64]. revert Heff. unfold getfsize_effect.
  intros ([ret o] & s1 & _ & Hr)%M_bind_inv. case_match; [injection Hr as <- <- <-; by right|].
  destruct o; [|done]. injection Hr as <- <- <-. by left.
Qed.

(** C2: a query for the size of a file, from the client's URL to the client's
    answer.  The proxy sends the name service exactly the request whose meaning is
    [getfsize_effect]; the name service answers it with the size that the effect
    gives; and the proxy, given these bytes, answers its client once, with this size
    and the block size of the name service as decimal text, after it has closed the
    connection. *)
Theorem query_end_to_end h rx tx ds s rtn fsize ns ns' slack rsp data a dl bl :
  let m := FileMsg (next_id s) 0 h in
  let ans := concat (getfsize_ans (next_id s) rtn fsize (w_block_size (tl_world ns))) in
  is_bytes h → length h = 16%nat → px_query s = hash_query h →
  px_up s = true → io_out (px_io s) = [] → px_ask s = [] → existsb send_fatal (cl_send (px_cl s)) = false →
  us_down (px_us s) = None → px_dials s = DialOk (RecvData ans :: rx) tx :: ds → existsb send_fatal tx = false →
  (40 ≤ length rsp)%nat → env_malloc (htonl 36) = Some data →
  getfsize_effect m ns = Some ((rtn, fsize), ns') →
  ∃ s1 s2 req' rsp',
  gvfs_ns_query_request s = Some (GVFS_OK, s1) ∧
  px_trace s1 = px_trace s ++ [AConnect pv_ns.1 (u16 pv_ns.2); AUp (concat (file_req 10 m))] ∧
  busi_case gfs_busi_getfsize_parse gfs_busi_getfsize_handle gfs_busi_getfsize_tobuf
    (Busi 10 (concat (file_req 10 m ++ [slack])) rsp (NetBuf [] 0 0 0) a dl bl ns) =
    Some (GFS_OK, Busi 10 req' rsp' (NetBuf (ans ++ drop 36 data) 36 36 0) a dl bl ns') ∧
  up_event false s1 = Some (tt, s2) ∧
  px_trace s2 = px_trace s1 ++
    [ACloseUp; AClient (answer_text HTTP_Ok
       (lit "file_size=" ++ fmt_u fsize ++ lit "&block_size=" ++ fmt_u (u32 (w_block_size (tl_world ns)))))] ∧
  us_conn (px_us s2) = None.
Proof.
  intros m ans Hb Hl Hq Hu Ho Ha Hf Hd Hdial Htx Hrsp Hdata Heff.
  destruct (file_request_run 10 true h (RecvData ans :: rx) tx ds s) as (tx' & Htx' & Hreq); [done..|].
  destruct (query_answer (next_id s) (concat (file_req 10 m)) rx tx' ds rtn fsize (w_block_size (tl_world ns)) s)
    as (s2 & Hev & Htr & Hcn & _); [done..|].
  destruct (gfs_busi_getfsize_run m slack rsp data a dl bl ns) as (req' & rsp' & Hns); [|done..|].
  { by split_and!. }
  rewrite Heff in Hns. destruct (getfsize_effect_rtn _ _ _ _ _ Heff) as [Hrtn Hfs].
  do 4 eexists. split; [exact Hreq|]. split; [by destruct s|]. split; [exact Hns|]. split; [exact Hev|].
  split; [|done]. rewrite Htr. do 4 f_equal. rewrite u64_small by done.
  unfold query_body. by destruct Hrtn as [-> | ->].
Qed.
End both.
