(* ===== verification/ProxyFail.v ===== *)
(** What goes wrong in the proxy: answers in pieces, requests that cannot be sent,
    downloads without room for the servers; and the choice of a handler by its
    name. *)
From Stdlib Require Import String.
From S2P Require Import Prelude Bytes Text Tools NetBuf Fields FileSpec ProxyText ProxyNet ProxyState ProxyHttp ProxyMsg ProxyRsp ProxyLoop ProxyRelay ProxyAns ProxyReq ProxyEnd.

Implicit Types (s : px).

(** ** Answers in pieces *)

Lemma rb32_total b off : (off + 4 ≤ length b)%nat → ∃ v, gvfs_rb32 b off = Some v.
Proof.
  intros H. unfold gvfs_rb32, gvfs_rb16, gvfs_r8.
  destruct (lookup_lt_is_Some_2 b off) as [x0 ->]; [lia|]. destruct (lookup_lt_is_Some_2 b (off + 1)) as [x1 ->]; [lia|].
  destruct (lookup_lt_is_Some_2 b (off + 2)) as [x2 ->]; [lia|]. destruct (lookup_lt_is_Some_2 b (off + 2 + 1)) as [x3 ->]; [lia|].
  by eexists.
Qed.

Section pieces.
Context (h : uhandler) (ac rdy ti po : bool) (tx : list send_res) (hd : rsphead) (sid : Z) (hc bc : bool) (dn : option dbuf).
Local Abbreviation fillst := (filling h ac ti po tx hd sid hc bc dn).

(** The buffer after two pieces. *)
Lemma two_pieces l1 l2 (blk : bytes) :
  (length l1 + length l2 ≤ length blk)%nat →
  take (length l1) (l1 ++ drop (length l1) blk) ++ l2 ++ drop (length l1 + length l2) (l1 ++ drop (length l1) blk) =
    l1 ++ l2 ++ drop (length l1 + length l2) blk.
Proof.
  intros H. rewrite take_app_length. do 2 f_equal. rewrite drop_app_ge by lia. rewrite drop_drop. f_equal. lia.
Qed.

(** Both pieces at once, without a pause between them. *)
Lemma fill_two fuel size l1 l2 rx blk s :
  l1 ≠ [] → l2 ≠ [] → Z.of_nat (length l1) + Z.of_nat (length l2) ≤ size < 2 ^ 63 → size ≤ Z.of_nat (length blk) →
  let st := fillst rx rdy (l1 ++ l2 ++ drop (length l1 + length l2) blk) (length l1 + length l2)%nat s in
  fill_loop (S (S fuel)) size 0 (fillst (RecvData l1 :: RecvData l2 :: rx) rdy blk 0 s) =
    if Z.of_nat (length l1) =? size then Some (Z.of_nat (length l1), fillst (RecvData l2 :: rx) rdy (l1 ++ drop (length l1) blk) (length l1) s)
    else if 2 * Z.of_nat (length l1) + Z.of_nat (length l2) =? size then Some (Z.of_nat (length l2), st)
    else fill_loop fuel size (Z.of_nat (length l1) + Z.of_nat (length l2)) st.
Proof.
  intros H1 H2 Hsz Hb st. rewrite fill_turn; [|done|lia|lia|lia|lia]. rewrite Z.add_0_l, Z.sub_0_r.
  change (take 0 blk ++ l1 ++ drop (0 + length l1) blk) with (l1 ++ drop (length l1) blk). cbn [Nat.add].
  destruct (Z.of_nat (length l1) =? size) eqn:E; [done|]. rewrite fill_turn; [|done|lia| |lia|lia].
  2:{ rewrite length_app, length_drop. lia. }
  rewrite two_pieces by lia. fold st.
  destruct (Z.eqb_spec (2 * Z.of_nat (length l1) + Z.of_nat (length l2)) size),
    (Z.eqb_spec (Z.of_nat (length l1) + Z.of_nat (length l2)) (size - Z.of_nat (length l1))); try lia; done.
Qed.

(** A turn when nothing is missing any more asks for no bytes, and takes the
    answer for the end of the connection. *)
Lemma fill_full fuel size received rx blk s la :
  Z.of_nat la = size → fill_loop (S fuel) size received (fillst rx rdy blk la s) = Some (0, fillst rx false blk la s).
Proof.
  intros H. cbn [fill_loop]. rewrite get_us_bind.
  change (px_us (fillst rx rdy blk la s)) with (Upst (Some (Peer h ac rdy ti po rx tx)) blk la hd sid hc bc dn). cbn [us_last].
  rewrite H, Z.sub_diag. change (u64 0) with 0. by rewrite (M_bind_Some _ _ _ _ _ (recv_none _ _ _ _ _ _ _ _ _ _ _ _ _ _ _)).
Qed.

(** Reading a head of 16 bytes from two pieces. *)
Lemma fill_split l1 l2 rx blk s :
  l1 ≠ [] → l2 ≠ [] → (16 ≤ length blk)%nat →
  let st := λ r, fillst rx r (l1 ++ l2 ++ drop (length l1 + length l2) blk) (length l1 + length l2)%nat s in
  ((length l1 + length l2 = 16)%nat → fill 16 (fillst (RecvData l1 :: RecvData l2 :: rx) rdy blk 0 s) = Some (0, st false)) ∧
  ((2 * length l1 + length l2 = 16)%nat →
     fill 16 (fillst (RecvData l1 :: RecvData l2 :: rx) rdy blk 0 s) = Some (Z.of_nat (length l2), st rdy)).
Proof.
  intros H1 H2 Hb st. assert (0 < length l1 ∧ 0 < length l2)%nat as [Hp1 Hp2] by (split; [destruct l1|destruct l2]; simpl; done || lia).
  assert (∃ fuel, S (length (rx_data (RecvData l1 :: RecvData l2 :: rx))) = S (S (S fuel))) as [fuel Hfuel].
  { exists (length l1 + length l2 + length (rx_data rx) - 2)%nat.
    change (rx_data (RecvData l1 :: RecvData l2 :: rx)) with (l1 ++ l2 ++ rx_data rx). rewrite !length_app. lia. }
  split; intros Hl; erewrite fill_run by reflexivity; cbn [pe_recv]; rewrite Hfuel, fill_two; try done; try lia;
    (destruct (Z.eqb_spec (Z.of_nat (length l1)) 16); [lia|]);
    destruct (Z.eqb_spec (2 * Z.of_nat (length l1) + Z.of_nat (length l2)) 16); try lia; [|done].
  apply fill_full. lia.
Qed.

(** The first piece when the second is not there yet, and the second later. *)
Lemma fill_pause l1 l2 rx blk s :
  l1 ≠ [] → l2 ≠ [] → (16 ≤ length blk)%nat → (length l1 + length l2 = 16)%nat →
  let st := fillst (RecvData l2 :: rx) false (l1 ++ drop (length l1) blk) (length l1) s in
  fill 16 (fillst (RecvData l1 :: RecvErr EAGAIN :: RecvData l2 :: rx) rdy blk 0 s) = Some (GVFS_AGAIN, st) ∧
  fill 16 st = Some (Z.of_nat (length l2), fillst rx false (l1 ++ l2 ++ drop 16 blk) 16 s).
Proof.
  intros H1 H2 Hb Hl st. assert (0 < length l1 ∧ 0 < length l2)%nat as [Hp1 Hp2] by (split; [destruct l1|destruct l2]; simpl; done || lia).
  split; (erewrite fill_run by reflexivity); cbn [pe_recv]; subst st.
  - change (rx_data (RecvData l1 :: RecvErr EAGAIN :: RecvData l2 :: rx)) with (l1 ++ l2 ++ rx_data rx).
    rewrite length_app. destruct (length l1 + length (l2 ++ rx_data rx))%nat as [|fuel] eqn:E; [lia|].
    rewrite fill_turn by (done || lia). destruct (Z.eqb_spec (0 + Z.of_nat (length l1)) (16 - Z.of_nat 0)); [lia|].
    cbn [fill_loop]. rewrite get_us_bind.
    match goal with |- context [fillst ?r ?b ?k ?n s] =>
      change (px_us (fillst r b k n s)) with (Upst (Some (Peer h ac b ti po r tx)) k n hd sid hc bc dn) end.
    cbn [us_last]. rewrite u64_small by (unfold is_u64; lia).
    erewrite M_bind_Some by (apply recv_again; lia). done.
  - change (rx_data (RecvData l2 :: rx)) with (l2 ++ rx_data rx). rewrite fill_turn by (rewrite ?length_app, ?length_drop; done || lia).
    destruct (Z.eqb_spec (0 + Z.of_nat (length l2)) (16 - Z.of_nat (length l1))); [|lia].
    rewrite two_pieces by lia. by rewrite Hl.
Qed.
End pieces.

Section env.
Context {PE : ProxyEnv}.

Lemma fail_upstream_run code s p :
  0 ≤ code < 1000 → existsb send_fatal (cl_send (px_cl s)) = false → io_out (px_io s) = [] →
  px_up s = true → us_conn (px_us s) = Some p → pe_pool p = true → us_down (px_us s) = None →
  ∃ s', fail_upstream code s = Some (tt, s') ∧ px_trace s' = px_trace s ++ [AClient (page code); ACloseUp] ∧
    us_conn (px_us s') = None.
Proof.
  intros Hc Hf Ho Hu Hp Hpo Hd. unfold fail_upstream. destruct (finalize_run code s Hc Hf) as (tx & _ & Hfin).
  rewrite (M_bind_Some _ _ _ _ _ Hfin). rewrite (close_upstream_run _ p) by done. eexists. split; [done|].
  unfold reply_text. rewrite decide_True by done. cbn [px_trace with_trace answered]. by rewrite <- app_assoc.
Qed.

(** The head once the buffer has been filled. *)
Lemma read_head n st st' :
  fill 16 st = Some (n, st') → 0 < n → (16 ≤ length (us_buf (px_us st')))%nat →
  ∃ s', gvfs_ns_read_response_header st = Some (n, s') ∧
    us_header_completed (px_us s') = true ∧ us_last (px_us s') = us_last (px_us st') ∧
    let blk := us_buf (px_us st') in let hd := us_head (px_us s') in
    gvfs_rb32 blk 0 = Some (rh_len hd) ∧ gvfs_rb32 blk 4 = Some (rh_id hd) ∧
    gvfs_rb32 blk 8 = Some (rh_type hd) ∧ gvfs_rb32 blk 12 = Some (rh_rtn hd).
Proof.
  intros Hf Hn Hl. unfold gvfs_ns_read_response_header. rewrite (M_bind_Some _ _ _ _ _ Hf).
  destruct (Z.eqb_spec n GVFS_AGAIN); [unfold GVFS_AGAIN in *; lia|].
  destruct (Z.eqb_spec n GVFS_ERROR); [unfold GVFS_ERROR in *; lia|]. destruct (Z.eqb_spec n 0); [lia|]. cbn [orb].
  pose proof (λ off H, rb32_total (us_buf (px_us st')) off H) as Hrd.
  destruct (Hrd 0%nat ltac:(lia)) as [v0 R0], (Hrd 4%nat ltac:(lia)) as [v1 R1], (Hrd 8%nat ltac:(lia)) as [v2 R2], (Hrd 12%nat ltac:(lia)) as [v3 R3].
  rewrite get_us_bind, upd_us_bind. destruct st' as [a1 a2 io fl up [] cl bufs ffd id tm dl ak tr]. cbn in R0, R1, R2, R3 |- *.
  erewrite rd_bind by exact R0. erewrite rd_bind by exact R1. erewrite rd_bind by exact R2. erewrite rd_bind by exact R3.
  rewrite upd_us_bind. eexists. split; [reflexivity|]. by cbn.
Qed.

(** C39: what becomes of the head of the name service's answer when it comes in two
    pieces depends on when the second arrives, for the reader compares what it has
    received since the call with what was missing in the last turn.  When the two
    pieces make up the 16 bytes of the head and both are there at the event, the
    reader asks for 0 more bytes, takes that for a closed connection and answers the
    client with an error, whatever the name service said.  When the second piece
    comes after the socket ran dry, the first event ends without an effect and the
    next call reads the head right.  And when both are there and the first piece,
    twice, and the second make up 16, the head is taken for complete with fewer bytes
    than it has. *)
Theorem ns_header_split l1 l2 m rx tx ds s :
  l1 ≠ [] → l2 ≠ [] →
  px_up s = true → io_out (px_io s) = [] → existsb send_fatal (cl_send (px_cl s)) = false → us_down (px_us s) = None →
  let st := requested m (RecvData l1 :: RecvData l2 :: rx) tx ds s in
  let st' := requested m (RecvData l1 :: RecvErr EAGAIN :: RecvData l2 :: rx) tx ds s in
  ((length l1 + length l2 = 16)%nat →
     ∃ s', up_event false st = Some (tt, s') ∧
       px_trace s' = px_trace st ++ [AClient (page HTTP_NotAcceptable); ACloseUp] ∧ us_conn (px_us s') = None) ∧
  ((length l1 + length l2 = 16)%nat → is_bytes (l1 ++ l2) →
     ∃ s1 s2, up_event false st' = Some (tt, s1) ∧ px_trace s1 = px_trace st' ∧
       gvfs_ns_read_response_header s1 = Some (Z.of_nat (length l2), s2) ∧ us_header_completed (px_us s2) = true ∧
       let hd := us_head (px_us s2) in
       rh_len hd = word 0 (l1 ++ l2) ∧ rh_id hd = word 1 (l1 ++ l2) ∧
       rh_type hd = word 2 (l1 ++ l2) ∧ rh_rtn hd = word 3 (l1 ++ l2)) ∧
  ((2 * length l1 + length l2 = 16)%nat →
     ∃ s', gvfs_ns_read_response_header st = Some (Z.of_nat (length l2), s') ∧
       us_header_completed (px_us s') = true ∧ us_last (px_us s') = (length l1 + length l2)%nat ∧
       (us_last (px_us s') < 16)%nat).
Proof.
  intros H1 H2 Hu Ho Hf Hd st st'.
  assert (0 < length l1 ∧ 0 < length l2)%nat as [Hp1 Hp2] by (split; [destruct l1|destruct l2]; simpl; done || lia).
  assert (16 ≤ length (pv_fresh 3072))%nat as Hfr by (rewrite pv_fresh_length; lia).
  split_and!; intros Hl.
  - destruct (fill_split HNsHeader true true true true tx (us_head (px_us s)) (next_id s) (us_header_completed (px_us s))
      (us_body_completed (px_us s)) None l1 l2 rx (pv_fresh 3072) st H1 H2 Hfr) as [Hsplit _]. specialize (Hsplit Hl).
    subst st. rewrite event_requested by done. unfold gvfs_ns_process_response_header, gvfs_ns_read_response_header.
    rewrite M_bind_assoc, (M_bind_Some _ _ _ _ _ Hsplit).
    change (0 =? GVFS_AGAIN) with false. change (0 =? GVFS_ERROR) with false. change (0 =? 0) with true. cbn [orb].
    rewrite ret_bind. change (0 =? GVFS_AGAIN) with false. change (0 =? GVFS_ERROR) with false. change (0 =? 0) with true. cbv iota.
    edestruct (fail_upstream_run HTTP_NotAcceptable) as (s' & Hs' & Htr & Hcn);
      [| | | | | | |exists s'; split_and!; [exact Hs'|exact Htr|exact Hcn]]; by try destruct s.
  - intros Hb.
    destruct (fill_pause HNsHeader true true true true tx (us_head (px_us s)) (next_id s) (us_header_completed (px_us s))
      (us_body_completed (px_us s)) None l1 l2 rx (pv_fresh 3072) st' H1 H2 Hfr Hl) as [Hone Htwo].
    destruct (read_head _ _ _ Htwo) as (s2 & Hs2 & Hhc & _ & R0 & R1 & R2 & R3); [lia|cbn; rewrite !length_app, length_drop; lia|].
    eexists _, s2. split; [|split; [|split; [exact Hs2|split; [exact Hhc|]]]].
    + subst st'. rewrite event_requested by done. unfold gvfs_ns_process_response_header, gvfs_ns_read_response_header.
      rewrite M_bind_assoc, (M_bind_Some _ _ _ _ _ Hone). change (GVFS_AGAIN =? GVFS_AGAIN) with true. cbn [orb]. rewrite ret_bind. reflexivity.
    + by destruct s.
    + assert (is_bytes (take 16 (l1 ++ l2))) as Hb' by by apply Forall_take.
      assert (16 ≤ length (l1 ++ l2))%nat as Hl' by (rewrite length_app; lia).
      change (us_buf (px_us (filling _ _ _ _ _ _ _ _ _ _ _ _ ?b _ _))) with b in R0, R1, R2, R3.
      rewrite app_assoc in R0, R1, R2, R3.
      rewrite (rb32_word 0 _ _ Hb' ltac:(lia) Hl') in R0. rewrite (rb32_word 1 _ _ Hb' ltac:(lia) Hl') in R1.
      rewrite (rb32_word 2 _ _ Hb' ltac:(lia) Hl') in R2. rewrite (rb32_word 3 _ _ Hb' ltac:(lia) Hl') in R3.
      split_and!; congruence.
  - destruct (fill_split HNsHeader true false true true tx (us_head (px_us s)) (next_id s) (us_header_completed (px_us s))
      (us_body_completed (px_us s)) None l1 l2 rx (pv_fresh 3072) st H1 H2 Hfr) as [_ Hsplit]. specialize (Hsplit Hl).
    match type of Hsplit with fill _ ?s0 = _ => assert (st = s0) as Hst end.
    { subst st. destruct s as [a1 a2 io fl up [] cl bufs ffd id tm dl ak tr]. cbn in Hd. by subst. }
    rewrite <- Hst in Hsplit. destruct (read_head _ _ _ Hsplit) as (s' & Hs' & Hhc & Hla & _); [lia|cbn; rewrite !length_app, length_drop; lia|].
    exists s'. split_and!; [exact Hs'|exact Hhc|exact Hla|]. rewrite Hla. cbn. lia.
Qed.

(** ** Requests that cannot be sent *)

(** When the name service accepts the connection but the request cannot be sent
    whole, the query fails and [r->upstream] is a null pointer from then on: the
    next request of this client and the closing of its connection follow it. *)
Theorem ns_send_failure_crash h e rx tx ds s :
  is_bytes h → length h = 16%nat → px_query s = hash_query h →
  px_up s = true → px_dials s = DialOk rx (SendErr e :: tx) :: ds → px_ask s = [] → e ≠ EINTR → e ≠ EAGAIN →
  ∃ s', gvfs_ns_query_request s = Some (GVFS_ERROR, s') ∧ px_up s' = false ∧
    (∀ cos, gvfs_http_request_handler cos s' = None) ∧ gvfs_http_close_request s' = None.
Proof.
  intros Hb Hl Hq Hu Hd Ha He1 He2. destruct (hash_query_parse h Hb Hl) as [H1 H2].
  unfold gvfs_ns_query_request. rewrite get_bind, Hq, (lift_run _ _ _ _ H1), (lift_run _ _ _ _ H2). cbn [fst snd].
  change (GVFS_OK =? GVFS_OK) with true. cbn [negb]. rewrite (M_bind_Some _ _ _ _ _ (connect_run _ _ _ _ _ _ Hu Hd)).
  change (GVFS_OK =? GVFS_OK) with true. cbn [negb]. rewrite (M_bind_Some _ _ _ _ _ (randid_run _)).
  rewrite (lift_run _ _ _ _ (file_message_run _ _ h _ Hb Hl)).
  match goal with |- context [transmit _ ?id ?m _ _ ?st] => set (msg := m); set (sid := id); set (st1 := st) end.
  assert (∃ s', transmit HNsHeader sid msg 3072 true st1 = Some (GVFS_ERROR, s') ∧ px_up s' = false) as (s' & Hs' & Hup).
  { destruct s as [a1 a2 io fl up us cl bufs ffd id tm dl ak tr], us as [cn bf la hd sd hc bc dn]. cbn in Hu, Hd, Ha. subst up dl ak.
    subst st1. unfold transmit, fresh_peer. rewrite upstream_bind, upd_us_bind by done.
    erewrite upd_peer_bind by reflexivity. erewrite get_peer_bind by reflexivity. cbn [pe_active pe_set_handler].
    erewrite epoll_up_bind by reflexivity. change (GVFS_OK =? GVFS_OK) with true. cbn [negb].
    unfold send_up. rewrite M_bind_assoc. erewrite get_peer_bind by reflexivity. rewrite M_bind_assoc.
    erewrite lift_run; [|unfold gvfs_completed_send; cbn [pe_send pe_set_active pe_set_handler completed_send_loop gvfs_unix_send length];
      destruct (Z.eqb_spec e EINTR); [done|]; destruct (Z.eqb_spec e EAGAIN); [done|]; reflexivity].
    eexists. split; [reflexivity|]. done. }
  exists s'. split_and!; [done|done| |].
  - intros cos. unfold gvfs_http_request_handler, upstream. rewrite M_bind_assoc, get_bind. by rewrite Hup.
  - unfold gvfs_http_close_request, gvfs_close_upstream, upstream. unfold modify at 1. destruct s'. cbn in Hup. subst. done.
Qed.

(** ** The choice of a handler *)

Lemma strncmp_prefix rp name :
  Forall (λ c, c ≠ 0) rp → strncmp_eq rp name (length rp) = bool_decide (rp `prefix_of` name).
Proof.
  intros H. revert name. induction H as [|c rp Hc Hrp IH]; intros name; [by rewrite bool_decide_true by apply prefix_nil|].
  destruct name as [|d name]; cbn [length strncmp_eq].
  - destruct (Z.eqb_spec c 0); [done|]. rewrite bool_decide_false; [done|]. intros ?%prefix_nil_inv. done.
  - rewrite IH. destruct (Z.eqb_spec c 0); [done|]. cbn [orb]. destruct (Z.eqb_spec c d) as [->|Hne]; cbn [andb].
    + apply bool_decide_ext. split; [apply prefix_cons|apply prefix_cons_inv_2].
    + rewrite bool_decide_false; [done|]. intros ?%prefix_cons_inv_1. done.
Qed.

(** An idle client's request is handed to a handler by the text behind the
    first slash: to the query when this text is a prefix of its name, however short,
    then to the upload, the download and the deletion likewise.  So "/s" asks for a
    file size and "/storage/v1/d" downloads. *)
Theorem request_dispatch cos c rp s :
  px_up s = true → us_conn (px_us s) = None → px_path s = c :: rp → rp ≠ [] → Forall (λ c, c ≠ 0) rp →
  gvfs_http_request_handler cos s =
    (rc ← (if decide (rp `prefix_of` lit "storage/v1/query") then gvfs_ns_query_request
           else if decide (rp `prefix_of` lit "storage/v1/upload") then gvfs_ns_upload_request
           else if decide (rp `prefix_of` lit "storage/v1/download") then gvfs_ns_download_request
           else if decide (rp `prefix_of` lit "storage/v1/delete") then gvfs_ns_delete_request
           else if decide (rp `prefix_of` lit "cos") then
             rc ← cos; gvfs_http_finalize_request (if rc =? GVFS_OK then HTTP_Ok else HTTP_ServiceUnavailable);; mret rc
           else mret GVFS_ERROR);
     mret (if rc =? GVFS_OK then GVFS_OK else GVFS_ERROR)) s.
Proof.
  intros Hu Hc Hp Hne Hz. unfold gvfs_http_request_handler. rewrite upstream_bind, Hc by done.
  rewrite bool_decide_false by (by intros []). rewrite get_bind, Hp. cbv zeta.
  destruct (Nat.eqb_spec (length rp) 0) as [E|_]; [by apply length_zero_iff_nil in E|].
  rewrite !strncmp_prefix by done. by repeat case_decide; rewrite ?bool_decide_true, ?bool_decide_false by done.
Qed.

(** ** Downloads *)

(** The arrays for the answer have [nb] and [na] entries. *)
Lemma download_entries_defined n i p s :
  (p + 24 * n ≤ length (us_buf (px_us s)))%nat → (i + n ≤ length (fl_block_index (px_file s)))%nat →
  (i ≤ length (fl_ds_addr (px_file s)))%nat →
  is_Some (download_entries n i p s) ↔ (i + n ≤ length (fl_ds_addr (px_file s)))%nat.
Proof.
  revert i p s. induction n as [|n IH]; intros i p s Hp Hb Ha; cbn [download_entries].
  { rewrite Nat.add_0_r. split; [done|]. intros _. by eexists. }
  destruct (rb32_total (us_buf (px_us s)) p) as [bi Hbi]; [lia|]. erewrite rd_bind by exact Hbi.
  assert (∀ off, (off + 4 ≤ length (us_buf (px_us s)))%nat → ∃ v, ld32 off (us_buf (px_us s)) = Some v) as Hld.
  { intros off H. destruct (ld_bytes_total 4 off (us_buf (px_us s)) H) as [b Eb]. exists (le_val b). unfold ldn. by rewrite Eb. }
  destruct (Hld (p + 4)%nat) as [port Hport]; [lia|]. destruct (Hld (p + 8)%nat) as [ip Hip]; [lia|].
  unfold put_block_index. rewrite M_bind_assoc, get_bind. cbv zeta.
  destruct (Nat.ltb_spec i (length (fl_block_index (px_file s)))); [|lia]. rewrite upd_file_bind.
  erewrite rd_bind by exact Hport. erewrite rd_bind by exact Hip.
  unfold put_ds_addr. rewrite M_bind_assoc, get_bind. cbv zeta. cbn [px_file with_file set_block_index fl_ds_addr].
  destruct (Nat.ltb_spec i (length (fl_ds_addr (px_file s)))) as [Hi|Hi].
  - rewrite upd_file_bind. rewrite IH.
    + cbn. rewrite length_insert. lia.
    + cbn. lia.
    + cbn. rewrite length_insert. lia.
    + cbn. rewrite length_insert. lia.
  - split; [by intros [? [=]]|lia].
Qed.

Lemma is_Some_bind {A B} (m : M px A) (f : A → M px B) s :
  (∀ x s', m s = Some (x, s') → is_Some (f x s')) → is_Some ((m ≫= f) s) ↔ is_Some (m s).
Proof.
  intros H. rewrite M_bind_opt. destruct (m s) as [[x s']|]; simpl; [|done].
  split; [by eexists|]. intros _. by apply H.
Qed.

Lemma download_entries_result n i p s x s' :
  download_entries n i p s = Some (x, s') → x = (p + 24 * n)%nat ∧ px_us s' = px_us s.
Proof.
  revert i p s. induction n as [|n IH]; intros i p s; cbn [download_entries].
  { intros [= <- <-]. by rewrite Nat.mul_0_r, Nat.add_0_r. }
  assert (∀ f off v s1 s2, rd f off s1 = Some (v, s2) → s2 = s1) as Hrd.
  { intros f off v s1 s2. unfold rd. rewrite get_us_bind. unfold lift. destruct (f _ _); [|done]. by intros [= _ <-]. }
  intros (bi & s1 & ->%Hrd & H)%M_bind_inv. apply M_bind_inv in H as (u1 & s2 & H1 & H).
  apply M_bind_inv in H as (port & s3 & ->%Hrd & H). apply M_bind_inv in H as (ip & s4 & ->%Hrd & H).
  apply M_bind_inv in H as (u2 & s5 & H2 & H). apply IH in H as [-> ->].
  unfold put_block_index in H1. rewrite get_bind in H1. cbv zeta in H1. case_match; [|done]. injection H1 as _ <-.
  unfold put_ds_addr in H2. rewrite get_bind in H2. cbv zeta in H2. case_match; [|done]. injection H2 as _ <-.
  split; [lia|done].
Qed.

(** C40: reading the name service's answer to a download stays inside its arrays
    exactly when the answer has no block, or not more blocks than [r->ds_number], the
    number of servers that an earlier upload on the same connection left there: the
    array for the servers is allocated with that number.  So a client's first request
    cannot be a download: every answer with a block is written outside. *)
Theorem download_needs_upload n s :
  gvfs_rb32 (us_buf (px_us s)) 28 = Some n → 0 ≤ n → 36 + 24 * n ≤ Z.of_nat (length (us_buf (px_us s))) →
  px_ask s = [] →
  (is_Some (gvfs_ns_file_download_process s) ↔ n = 0 ∨ n ≤ fl_ds_number (px_file s)).
Proof.
  intros Hn H0 Hlen Ha. unfold gvfs_ns_file_download_process.
  destruct (rb32_total (us_buf (px_us s)) 16) as [v1 R1]; [lia|]. erewrite rd_bind by exact R1.
  destruct (rb32_total (us_buf (px_us s)) 20) as [v2 R2]; [lia|]. destruct (rb32_total (us_buf (px_us s)) (20 + 4)) as [v3 R3]; [lia|].
  erewrite rd_bind by (unfold gvfs_rb64; rewrite R2; cbn [mbind option_bind]; by rewrite R3). rewrite upd_file_bind.
  erewrite rd_bind by exact Hn. rewrite upd_file_bind.
  set (s1 := with_file _ _). assert (px_us s1 = px_us s ∧ px_ask s1 = [] ∧ fl_ds_number (px_file s1) = fl_ds_number (px_file s)) as (Hus & Ha1 & Hds)
    by (by destruct s). clearbody s1.
  destruct (Z.ltb_spec 0 n) as [Hpos|Hz].
  - unfold alloc_block_index. rewrite !M_bind_assoc, ask_bind by done. rewrite upd_file_bind, M_bind_assoc, get_bind.
    unfold alloc_ds_addr. rewrite !M_bind_assoc, ask_bind by done. rewrite upd_file_bind. cbn [px_file with_file fl_ds_number set_block_index].
    rewrite is_Some_bind.
    + rewrite download_entries_defined; cbn; rewrite ?length_replicate, ?Hus; try lia.
    + intros x s2 [-> H2]%download_entries_result. cbn in H2.
      destruct (rb32_total (us_buf (px_us s)) (32 + 24 * Z.to_nat n)) as [v4 R4]; [lia|].
      erewrite rd_bind by (rewrite H2, Hus; exact R4). by eexists.
  - rewrite ret_bind. destruct (rb32_total (us_buf (px_us s)) 32) as [v4 R4]; [lia|].
    erewrite rd_bind by (rewrite Hus; exact R4). split; [intros _; lia|intros _; by eexists].
Qed.
End env.

(** The response buffer of the proxy: whatever arrives, in whatever pieces, the
    readers of answers end, append what they got, stay inside the buffer and leave
    well-formed values. *)
Implicit Types (u : upst) (p : peer).

(** ** Well-formed answers *)

Definition head_ok (h : rsphead) : Prop :=
  is_u32 (rh_len h) ∧ is_u32 (rh_id h) ∧ is_u32 (rh_type h) ∧ is_u32 (rh_encrypt h) ∧ is_u32 (rh_rtn h).
(** The buffer holds bytes, its cursor lies inside, and its connection delivers
    bytes. *)
Definition us_ok u : Prop :=
  (∃ p, us_conn u = Some p ∧ is_bytes (rx_data (pe_recv p))) ∧
  is_bytes (us_buf u) ∧ (us_last u ≤ length (us_buf u))%nat ∧ Z.of_nat (length (us_buf u)) < 2 ^ 32 ∧ head_ok (us_head u).

(** [got] was received and appended. *)
Definition appended (got : bytes) u u' : Prop :=
  us_last u' = (us_last u + length got)%nat ∧ length (us_buf u') = length (us_buf u) ∧
  take (us_last u') (us_buf u') = take (us_last u) (us_buf u) ++ got ∧
  drop (us_last u') (us_buf u') = drop (us_last u') (us_buf u) ∧
  ∃ p p', us_conn u = Some p ∧ us_conn u' = Some p' ∧ rx_data (pe_recv p) = got ++ rx_data (pe_recv p').

Lemma appended_trans g1 g2 u1 u2 u3 : appended g1 u1 u2 → appended g2 u2 u3 → appended (g1 ++ g2) u1 u3.
Proof.
  intros (A1 & A2 & A3 & A4 & p1 & p2 & A5 & A6 & A7) (B1 & B2 & B3 & B4 & p2' & p3 & B5 & B6 & B7).
  rewrite A6 in B5. injection B5 as <-. unfold appended. rewrite length_app. split_and!; [lia|lia| | |].
  - by rewrite B3, A3, app_assoc.
  - rewrite B4. rewrite B1, <- !drop_drop, A4. done.
  - exists p1, p3. split_and!; [done..|]. by rewrite A7, B7, app_assoc.
Qed.

Section env.
Context {PE : ProxyEnv}.

(** The codes of [recv]. *)
Lemma unix_recv_code script size ready n b script' ready' :
  0 ≤ size → gvfs_unix_recv script size ready = (n, b, script', ready') → 0 < n ∨ n = 0 ∨ n = GVFS_ERROR ∨ n = GVFS_AGAIN.
Proof.
  intros Hs. revert n b script' ready'. induction script as [|[l|e] script IH]; intros n b script' ready'; cbn [gvfs_unix_recv];
    destruct (Z.eqb_spec size 0); try (intros [= <- _ _ _]; tauto).
  - destruct l as [|x l]; intros [= <- _ _ _]; [tauto|]. destruct (Z.min_spec size (Z.of_nat (length (x :: l)))); simpl in *; lia.
  - destruct (e =? EINTR); [by apply IH|]. destruct (e =? EAGAIN); [intros [= <- _ _ _]; tauto|].
    unfold gvfs_connection_error. destruct (e =? ECONNRESET); intros [= <- _ _ _]; tauto.
Qed.

(** One [recv] on the response buffer. *)
Lemma recv_up_run size s p :
  us_conn (px_us s) = Some p → 0 ≤ size → ∃ n d p', recv_up size s = Some ((n, d), with_us (us_set_conn (Some p') (px_us s)) s) ∧
  rx_data (pe_recv p) = d ++ rx_data (pe_recv p') ∧ Z.of_nat (length d) ≤ size ∧
  (0 < n ∧ n = Z.of_nat (length d) ∨ (n = 0 ∨ n = GVFS_ERROR ∨ n = GVFS_AGAIN) ∧ d = []).
Proof.
  intros Hp Hs. unfold recv_up. rewrite (get_peer_bind _ _ p) by done.
  destruct (gvfs_unix_recv (pe_recv p) size (pe_ready p)) as [[[n d] sc] rdy] eqn:E.
  destruct (unix_recv_out _ _ _ _ _ _ _ Hs E) as (H1 & H2 & H3 & H4). pose proof (unix_recv_code _ _ _ _ _ _ _ Hs E) as Hc.
  exists n, d, (pe_set_recv sc rdy p). split_and!; [by rewrite (upd_peer_bind _ _ _ p)|done|done|].
  destruct (Z.ltb_spec 0 n); [left; split; [done|by apply H3]|right; split; [lia|by apply H4]].
Qed.

(** The loop that fills the buffer: it ends, and appends what it took. *)
Lemma fill_loop_run fuel size received s p :
  us_conn (px_us s) = Some p → (length (rx_data (pe_recv p)) < fuel)%nat →
  Z.of_nat (us_last (px_us s)) ≤ size ≤ Z.of_nat (length (us_buf (px_us s))) → size < 2 ^ 32 → ∃ r got s',
  fill_loop fuel size received s = Some (r, s') ∧ appended got (px_us s) (px_us s') ∧
  Z.of_nat (us_last (px_us s')) ≤ size ∧ us_head (px_us s') = us_head (px_us s).
Proof.
  revert received s p. induction fuel as [|fuel IH]; intros received s p Hp Hf Hsz Hlt; [lia|]. cbn [fill_loop].
  rewrite get_us_bind. cbv zeta. rewrite u64_small by (unfold is_u64; lia).
  destruct (recv_up_run (size - Z.of_nat (us_last (px_us s))) s p Hp ltac:(lia)) as (n & d & p' & Hr & Hd & Hle & Hn).
  rewrite (M_bind_Some _ _ _ _ _ Hr). cbn [fst snd]. clear Hr. set (s1 := with_us _ s).
  assert (px_us s1 = us_set_conn (Some p') (px_us s)) as Hu1 by (by destruct s).
  destruct Hn as [[Hpos ->]|[Hn ->]].
  - destruct (Z.eqb_spec (Z.of_nat (length d)) GVFS_AGAIN); [unfold GVFS_AGAIN in *; lia|].
    destruct (Z.eqb_spec (Z.of_nat (length d)) GVFS_ERROR); [unfold GVFS_ERROR in *; lia|].
    destruct (Z.eqb_spec (Z.of_nat (length d)) 0); [lia|]. cbn [orb].
    rewrite st_bytes_ok by lia. rewrite (lift_run _ _ _ _ eq_refl), upd_us_bind, Hu1. cbv zeta.
    set (u2 := us_set_buf _ _ _). set (s2 := with_us u2 s1).
    assert (px_us s2 = u2) as Hu2 by (subst s2; by destruct s1).
    assert (appended d (px_us s) u2) as H2.
    { split_and!; subst u2; cbn [us_set_buf us_set_conn us_conn us_buf us_last]; [done|..].
      - rewrite !length_app, length_take, length_drop. lia.
      - rewrite app_assoc, take_app_length'; [done|]. rewrite length_app, length_take. lia.
      - rewrite app_assoc, drop_app_length'; [done|]. rewrite length_app, length_take. lia.
      - by exists p, p'. }
    destruct (u64 _ =? _).
    + exists (Z.of_nat (length d)), d, s2. rewrite Hu2. split_and!; [done|done|subst u2; simpl; lia|done].
    + destruct (IH (received + Z.of_nat (length d)) s2 p') as (r & got & s3 & H3 & H4 & H5 & H6); [by rewrite Hu2| | |done|].
      * rewrite Hd, length_app in Hf. lia.
      * destruct H2 as (E1 & E2 & _). rewrite Hu2, E1, E2. lia.
      * exists r, (d ++ got), s3. split_and!; [done|by eapply appended_trans; [|rewrite <- Hu2]|done|by rewrite H6, Hu2].
  - assert ((n =? GVFS_AGAIN) || (n =? GVFS_ERROR) || (n =? 0) = true) as -> by (by destruct Hn as [->|[->| ->]]).
    exists n, [], s1. rewrite Hu1. split_and!; [done| |simpl; lia|done].
    split_and!; cbn [us_set_conn us_conn us_buf us_last length]; [lia|done|by rewrite app_nil_r|done|by exists p, p'].
Qed.

Lemma fill_typed size s :
  us_ok (px_us s) → Z.of_nat (us_last (px_us s)) ≤ size ≤ Z.of_nat (length (us_buf (px_us s))) → ∃ r got s',
  fill size s = Some (r, s') ∧ us_ok (px_us s') ∧ appended got (px_us s) (px_us s') ∧ Z.of_nat (us_last (px_us s')) ≤ size.
Proof.
  intros ((p & Hp & Hrx) & Hb & Hl & Hlt & Hh) Hs. rewrite (fill_run s p size Hp).
  destruct (fill_loop_run (S (length (rx_data (pe_recv p)))) size 0 s p Hp ltac:(lia) Hs ltac:(lia)) as (r & got & s' & Hf & Ha & Hle & Hhd).
  exists r, got, s'. split_and!; [done| |done|done].
  destruct Ha as (A1 & A2 & A3 & A4 & p1 & p2 & A5 & A6 & A7). rewrite Hp in A5. injection A5 as <-.
  rewrite A7 in Hrx. unfold is_bytes in Hrx. apply Forall_app in Hrx as [Hg Hrx].
  split_and!; [by exists p2| |lia|lia|by rewrite Hhd].
  rewrite <- (take_drop (us_last (px_us s')) (us_buf (px_us s'))), A3, A4. unfold is_bytes.
  rewrite !Forall_app. split_and!; [by apply Forall_take|done|by apply Forall_drop].
Qed.

(** Reading a field. *)
Lemma rb32_typed u off : us_ok u → (off + 4 ≤ length (us_buf u))%nat → ∃ v, gvfs_rb32 (us_buf u) off = Some v ∧ is_u32 v.
Proof.
  intros (_ & Hb & _) Ho. assert (ld_bytes 4 off (us_buf u) = Some (take 4 (drop off (us_buf u)))) as Hld
    by (unfold ld_bytes; by rewrite decide_True).
  assert (is_bytes (take 4 (drop off (us_buf u)))) as Hv by (by apply Forall_take, Forall_drop).
  eexists. split; [by apply rb32_read|]. unfold is_u32.
  pose proof (be_val_range _ Hv) as Hr. rewrite length_take, length_drop in Hr.
  replace (4 `min` (length (us_buf u) - off))%nat with 4%nat in Hr by lia. exact Hr.
Qed.
Lemma us_ok_done h b u : us_ok u → us_ok (us_set_done h b u).
Proof. done. Qed.
Lemma us_ok_head h u : us_ok u → head_ok h → us_ok (us_set_head h u).
Proof. by intros (H1 & H2 & H3 & H4 & _) Hh. Qed.

Lemma rd32_bind {A} (k : Z → M px A) off s :
  us_ok (px_us s) → (off + 4 ≤ length (us_buf (px_us s)))%nat → ∃ v, is_u32 v ∧ (rd gvfs_rb32 off ≫= k) s = k v s.
Proof. intros Hu Ho. destruct (rb32_typed _ _ Hu Ho) as (v & Hv & Hr). exists v. split; [done|]. by rewrite (rd_bind _ _ _ v). Qed.

(** What a reader does: it returns, and the answer stays well-formed. *)
Definition reads (f : M px Z) (size : Z) s : Prop :=
  ∃ n got s', f s = Some (n, s') ∧ us_ok (px_us s') ∧ appended got (px_us s) (px_us s') ∧ Z.of_nat (us_last (px_us s')) ≤ size.

Lemma reads_after f k size s :
  us_ok (px_us s) → Z.of_nat (us_last (px_us s)) ≤ size ≤ Z.of_nat (length (us_buf (px_us s))) →
  f s = (fill size ≫= k) s →
  (∀ n s1, us_ok (px_us s1) → length (us_buf (px_us s1)) = length (us_buf (px_us s)) → ∃ n' u',
     k n s1 = Some (n', with_us u' s1) ∧ us_ok u' ∧
     (us_conn u' = us_conn (px_us s1) ∧ us_buf u' = us_buf (px_us s1) ∧ us_last u' = us_last (px_us s1))) →
  reads f size s.
Proof.
  intros Hu Hs Hf Hk. destruct (fill_typed size s Hu Hs) as (r & got & s1 & Hr & Hu1 & Ha & Hle).
  destruct (Hk r s1 Hu1) as (n' & u' & Hn & Hu' & E1 & E2 & E3); [by destruct Ha as (_ & ? & _)|].
  exists n', got, (with_us u' s1). rewrite Hf, (M_bind_Some _ _ _ _ _ Hr), Hn.
  assert (px_us (with_us u' s1) = u') as -> by (by destruct s1).
  unfold appended in *. rewrite E1, E2, E3. split_and!; [done|done|tauto..|done].
Qed.

(** The next word of a head. *)
Ltac next_word :=
  let v := fresh "v" in let H := fresh "Hv" in let E := fresh "E" in
  edestruct (rd32_bind (A := Z)) as (v & H & E); [eassumption| |erewrite E; clear E]; [lia|].
(** The common part of both heads. *)
Ltac read_head s1 :=
  match goal with |- context [if ?b then _ else _] => destruct b; [eexists _, (px_us s1); split_and!; [by destruct s1|done..]|] end;
  rewrite get_us_bind, upd_us_bind; let s2 := fresh "s2" in set (s2 := with_us _ s1);
  assert (us_ok (px_us s2)) by (subst s2; by destruct s1);
  assert (length (us_buf (px_us s2)) = length (us_buf (px_us s1))) by (subst s2; by destruct s1);
  do 4 next_word.

(** C17: the response buffer is well typed at every moment: in whatever pieces the
    name service or a data server sends an answer, and whatever the bytes are, the
    readers of heads and of bodies return, and leave a buffer of bytes of the same
    size with its cursor inside and at most at the size that was asked for, the new
    bytes behind the old ones in the order in which they came, and a head of
    32-bit integers; nothing that was received is lost.  For the body this needs a
    length in the head that fits the buffer. *)
Theorem response_readers_typed s :
  us_ok (px_us s) →
  ((us_last (px_us s) ≤ 16 ≤ length (us_buf (px_us s)))%nat → reads gvfs_ns_read_response_header 16 s) ∧
  ((us_last (px_us s) ≤ 20 ≤ length (us_buf (px_us s)))%nat → reads gvfs_ds_read_respodse_header 20 s) ∧
  (let len := rh_len (us_head (px_us s)) in
   Z.of_nat (us_last (px_us s)) ≤ len ≤ Z.of_nat (length (us_buf (px_us s))) → reads gvfs_ns_read_response_body len s).
Proof.
  intros Hu. split_and!.
  - intros Hs. eapply reads_after; [done|lia|done|]. intros n s1 Hu1 Hl1. cbv beta. read_head s1.
    eexists n, _. split; [by rewrite upd_us_bind; destruct s1|]. split; [|done].
    apply us_ok_head; [done|]. destruct Hu1 as (_ & _ & _ & _ & _ & _ & _ & He & _). by split_and!.
  - intros Hs. eapply reads_after; [done|lia|done|]. intros n s1 Hu1 Hl1. cbv beta. read_head s1. next_word.
    eexists n, _. split; [by rewrite upd_us_bind; destruct s1|]. split; [|done].
    apply us_ok_head; [done|]. by split_and!.
  - intros len Hs. unfold reads. apply (reads_after _ (λ n, if (n =? GVFS_AGAIN) || (n =? GVFS_ERROR) || (n =? 0) then mret n else
      u ← get_us; upd_us (us_set_done (us_header_completed u) true);; mret n)); [done|done|done|].
    intros n s1 Hu1 _. cbv beta. destruct (_ || _); [eexists _, (px_us s1); split_and!; [by destruct s1|done..]|].
    eexists n, _. split; [by rewrite get_us_bind, upd_us_bind|]. by split; [apply us_ok_done|].
Qed.
End env.
