(* ===== verification/ProxyUp.v ===== *)
(** An upload through the proxy: the request to the name service, its answer, and
    the request to the first data server that can be reached. *)
From Stdlib Require Import String.
From S2P Require Import Prelude Rbtree Timer Bytes Text Tools NetBuf Sql State Upload Busi Fields UploadSpec ProxyText ProxyNet ProxyState ProxyHttp ProxyMsg.
From S2P Require Import ProxyRsp ProxyLoop ProxyRelay ProxyAns ProxyReq ProxyEnd.

Implicit Types (s : px).

(** ** The servers in an answer *)

(** An entry: address, gap and port. *)
Record entry := Entry { en_addr : bytes; en_gap : bytes; en_port : bytes }.
Definition entry_ok (e : entry) : Prop :=
  length (en_addr e) = 4%nat ∧ length (en_gap e) = 12%nat ∧ length (en_port e) = 4%nat ∧
  is_bytes (en_addr e) ∧ is_bytes (en_port e).
Definition entry_bytes (e : entry) : bytes := en_addr e ++ en_gap e ++ en_port e.
(** What the proxy keeps of it. *)
Definition entry_val (e : entry) : Z * Z := (le_val (en_addr e), le_val (en_port e)).
Definition entries (es : list entry) : bytes := es ≫= entry_bytes.

Lemma entries_cons e es : entries (e :: es) = en_addr e ++ en_gap e ++ en_port e ++ entries es.
Proof. unfold entries, entry_bytes. cbn [mbind list_bind]. by rewrite <- !app_assoc. Qed.
Lemma entries_length es : Forall entry_ok es → length (entries es) = (20 * length es)%nat.
Proof.
  induction 1 as [|e es (H1 & H2 & H3 & _) Hes IH]; [done|]. rewrite entries_cons, !length_app, H1, H2, H3, IH. simpl. lia.
Qed.

Section env.
Context {PE : ProxyEnv}.

Lemma upload_entries_run es i p s pre post done :
  Forall entry_ok es → us_buf (px_us s) = pre ++ entries es ++ post → length pre = p → length done = i →
  fl_ds_addr (px_file s) = done ++ replicate (length es) None →
  upload_entries (length es) i p s =
    Some ((p + 20 * length es)%nat, with_file (set_ds_addr (done ++ (Some ∘ entry_val <$> es)) (px_file s)) s).
Proof.
  intros Hes. revert i p s pre done. induction Hes as [|e es He Hes IH]; intros i p s pre dn Hb Hp Hi Ha; cbn [length upload_entries].
  { cbn [fmap list_fmap length replicate] in *. rewrite Nat.mul_0_r, Nat.add_0_r, app_nil_r in *.
    destruct s as [a1 a2 io fl up us cl bufs ffd id tm dl ak tr], fl. cbn in Ha |- *. by subst. }
  destruct He as (H1 & H2 & H3 & H4 & H5). rewrite entries_cons in Hb.
  erewrite rd_bind by (cbv beta; unfold ldn; rewrite Hb, <- Hp, <- !app_assoc; by rewrite (ld_bytes_mid pre (en_addr e)) by done).
  erewrite rd_bind.
  2:{ cbv beta. unfold ldn. rewrite Hb. rewrite <- !app_assoc, (app_assoc (en_addr e)), (app_assoc pre).
      replace (p + 16)%nat with (length (pre ++ en_addr e ++ en_gap e)) by (rewrite !length_app; lia).
      by rewrite (ld_bytes_mid _ (en_port e)) by done. }
  unfold put_ds_addr. rewrite M_bind_assoc, get_bind. cbv zeta. rewrite Ha.
  destruct (Nat.ltb_spec i (length (dn ++ replicate (length (e :: es)) None))) as [_|Hlt];
    [|rewrite length_app, length_replicate in Hlt; simpl in Hlt; lia].
  rewrite upd_file_bind. set (s1 := with_file _ s).
  rewrite (IH (S i) (p + 20)%nat s1 (pre ++ en_addr e ++ en_gap e ++ en_port e) (dn ++ [Some (entry_val e)])).
  - subst s1. replace (p + 20 + 20 * length es)%nat with (p + 20 * S (length es))%nat by lia. rewrite <- app_assoc. by destruct s.
  - subst s1. destruct s. cbn in *. by rewrite Hb, <- !app_assoc.
  - rewrite !length_app. lia.
  - rewrite length_app. simpl. lia.
  - subst s1. destruct s. cbn in *. subst i. rewrite insert_app_r_alt by lia. rewrite Nat.sub_diag. by rewrite <- app_assoc.
Qed.

(** The answer of the name service. *)
Lemma upload_process_run id rtn fid es rest s :
  Forall entry_ok es → Z.of_nat (length es) < 2 ^ 32 → is_u64 fid → px_ask s = [] →
  us_buf (px_us s) = upload_ans id (UploadOut rtn fid (Z.of_nat (length es)) (entries es)) ++ rest →
  ∃ a, gvfs_ns_file_upload_process s =
    Some (tt, with_file (set_ds_addr a (set_ds_number (Z.of_nat (length es)) (set_fileid fid (px_file s)))) s) ∧
    (es ≠ [] → a = Some ∘ entry_val <$> es).
Proof.
  intros Hes Hn Hf Ha Hb. pose proof (entries_length es Hes) as Hlen.
  set (num := Z.of_nat (length es)) in *.
  set (fs := [be_bytes 4 (36 + num * 20); be_bytes 4 id; be_bytes 4 2; be_bytes 4 rtn; be_bytes 4 0; be_bytes 8 fid; be_bytes 4 num;
    entries es; be_bytes 4 0; rest]).
  assert (us_buf (px_us s) = concat fs) as Hb'.
  { rewrite Hb. subst fs. unfold upload_ans. cbn [uo_num uo_rtn uo_fid uo_list concat]. rewrite <- !app_assoc. by rewrite app_nil_r. }
  unfold gvfs_ns_file_upload_process.
  erewrite rd_bind by (rewrite Hb'; by apply (rb32_field _ 4 0)).
  erewrite rd_bind by (rewrite Hb'; by apply (rb64_field _ 5 fid)). rewrite u64_small, upd_file_bind by done.
  erewrite rd_bind by (cbn [px_us with_file]; rewrite Hb'; by apply (rb32_field _ 6 num)).
  rewrite u32_small by (unfold is_u32; lia). rewrite upd_file_bind. set (s1 := with_file _ _).
  assert (px_us s1 = px_us s ∧ px_ask s1 = [] ∧ px_file s1 = set_ds_number num (set_fileid fid (px_file s)) ∧
    ∀ f, with_file f s1 = with_file f s) as (Hus & Ha1 & Hfl & Hw) by (by destruct s). clearbody s1.
  destruct (Z.ltb_spec 0 num) as [Hpos|Hz].
  - unfold alloc_ds_addr. rewrite !M_bind_assoc, ask_bind, upd_file_bind by done.
    exists (Some ∘ entry_val <$> es). split; [|done]. subst num. rewrite Nat2Z.id.
    rewrite (M_bind_Some _ _ _ _ _ (upload_entries_run es 0 32 (with_file (set_ds_addr (replicate (length es) None) (px_file s1)) s1)
      (concat (take 7 fs)) (be_bytes 4 0 ++ rest) [] Hes
      ltac:(cbn [px_us with_file]; rewrite Hus, Hb'; subst fs; cbn [take concat]; rewrite <- !app_assoc; by rewrite app_nil_r) eq_refl eq_refl eq_refl)).
    erewrite rd_bind by (cbn [px_us with_file]; rewrite Hus, Hb'; apply (rb32_field _ 8 0); [done|];
      subst fs; cbn [take concat]; rewrite !length_app, Hlen; rewrite !be_bytes_length; simpl; lia).
    rewrite <- Hfl. clear -Hw. set (a := Some ∘ entry_val <$> es). change (Some (tt, with_file (set_ds_addr a (px_file s1)) s1) =
      Some (tt, with_file (set_ds_addr a (px_file s1)) s)). by rewrite Hw.
  - rewrite ret_bind. assert (es = []) as -> by (destruct es; [done|subst num; simpl in Hz; lia]).
    exists (fl_ds_addr (px_file s)). split; [|done].
    erewrite rd_bind by (rewrite Hus, Hb'; by apply (rb32_field _ 8 0)). f_equal. f_equal.
    rewrite <- (Hw _). rewrite <- Hfl. destruct s1. cbn in *. subst. by destruct (px_file s).
Qed.

(** ** The request to a data server *)

(** An entry as the proxy writes it, and the request: the block goes to one server,
    which is told the addresses of the others. *)
Definition relay_entry (e : entry) : bytes := en_addr e ++ replicate 12 0 ++ en_port e.
Definition relayed (es : list entry) : bytes := es ≫= relay_entry.
Definition ds_upload_req (id fid bi end_ : Z) (es : list entry) : bytes :=
  be_bytes 4 (40 + Z.of_nat (length es) * 20) ++ be_bytes 4 id ++ be_bytes 4 0x0101 ++ be_bytes 4 0 ++
  be_bytes 8 fid ++ be_bytes 4 bi ++ be_bytes 4 0 ++ be_bytes 4 (u32 (end_ - 1)) ++
  be_bytes 4 (Z.of_nat (length es)) ++ relayed es.

Lemma relay_entry_length e : entry_ok e → length (relay_entry e) = 20%nat.
Proof. intros (H1 & _ & H3 & _). unfold relay_entry. rewrite !length_app, H1, H3. done. Qed.
Lemma relayed_cons e es : relayed (e :: es) = relay_entry e ++ relayed es.
Proof. done. Qed.
Lemma relayed_app es1 es2 : relayed (es1 ++ es2) = relayed es1 ++ relayed es2.
Proof. apply bind_app. Qed.
Lemma relayed_length es : Forall entry_ok es → length (relayed es) = (20 * length es)%nat.
Proof.
  induction 1 as [|e es He Hes IH]; [done|]. rewrite relayed_cons, length_app, IH, relay_entry_length by done. simpl. lia.
Qed.

Lemma ds_addr_bind {A} (k : Z * Z → M px A) i v s : fl_ds_addr (px_file s) !! i = Some (Some v) → (ds_addr i ≫= k) s = k v s.
Proof. intros H. unfold ds_addr. rewrite M_bind_assoc, get_bind, M_bind_assoc, (lift_run _ _ _ _ H). done. Qed.

(** The servers that cannot be reached are passed over. *)
Lemma ds_connect_run sk e l n cnt rx tx ds s :
  drop cnt (fl_ds_addr (px_file s)) = Some ∘ entry_val <$> sk ++ e :: l → (length sk < n)%nat → entry_ok e →
  px_up s = true → px_dials s = replicate (length sk) DialFail ++ DialOk rx tx :: ds →
  ds_connect n cnt s =
    Some (Some (cnt + length sk)%nat, with_trace (px_trace s ++ [AConnect (le_val (en_addr e)) (u16 (be_val (en_port e)))])
       (with_us (us_set_conn (Some (fresh_peer rx tx)) (px_us s)) (with_script ds (px_ask s) s))).
Proof.
  intros Ha Hn (_ & _ & Hp4 & _ & Hpb). revert n cnt s Ha Hn. induction sk as [|e1 sk IH]; intros n cnt s Ha Hn Hu Hd;
    (destruct n as [|n]; [simpl in Hn; lia|]); cbn [ds_connect].
  - erewrite ds_addr_bind by (rewrite <- (Nat.add_0_r cnt), <- lookup_drop, Ha; reflexivity).
    cbn [entry_val fst snd]. rewrite (M_bind_Some _ _ _ _ _ (connect_run _ _ _ _ _ _ Hu Hd)).
    change (GVFS_OK =? GVFS_OK) with true. cbn [negb]. rewrite Nat.add_0_r.
    unfold ntohl. rewrite <- Hp4, bswap_le_val by done. done.
  - erewrite ds_addr_bind by (rewrite <- (Nat.add_0_r cnt), <- lookup_drop, Ha; reflexivity).
    assert (∀ a b, gvfs_upstream_init a b s =
      Some (GVFS_ERROR, with_us (us_set_conn None (px_us s)) (with_script (replicate (length sk) DialFail ++ DialOk rx tx :: ds) (px_ask s) s))) as Hf.
    { intros a b. unfold gvfs_upstream_init, gvfs_event_connect_peer. destruct s as [a1 a2 io fl up us cl bufs ffd id tm dl ak tr].
      cbn in Hu, Hd. subst up dl. by px_red. }
    rewrite (M_bind_Some _ _ _ _ _ (Hf _ _)). change (GVFS_ERROR =? GVFS_OK) with false. cbn [negb].
    rewrite IH; [|destruct s..].
    + replace (S cnt + length sk)%nat with (cnt + length (e1 :: sk))%nat by (simpl; lia). by destruct s as [a1 a2 io fl up [] cl bufs ffd id tm dl ak tr].
    + cbn in Ha |- *. rewrite <- (Nat.add_1_r cnt), <- drop_drop, Ha. done.
    + simpl in Hn. lia.
    + done.
    + done.
Qed.

(** The loop over the other servers, up to the next [m]. *)
Lemma ds_others_run es post m cnt cur size w z s :
  drop cnt (fl_ds_addr (px_file s)) = Some ∘ entry_val <$> es ++ post → Forall entry_ok es →
  (cur < cnt ∨ cnt + length es ≤ cur)%nat → length w = size → (20 * length es ≤ z)%nat →
  ds_others (length es + m) cnt cur size (w ++ replicate z 0) s =
    ds_others m (cnt + length es) cur (size + 20 * length es) ((w ++ relayed es) ++ replicate (z - 20 * length es) 0) s.
Proof.
  intros Ha Hes. revert cnt size w z Ha. induction Hes as [|e es He Hes IH]; intros cnt size w z Ha Hc Hw Hz.
  - cbn [length Nat.add]. rewrite !Nat.mul_0_r, Nat.sub_0_r, !Nat.add_0_r. unfold relayed. cbn [mbind list_bind].
    by rewrite app_nil_r.
  - pose proof He as (H1 & _ & H3 & H4 & H5). cbn [length] in Hc, Hz. cbn [length Nat.add ds_others].
    destruct (Nat.eqb_spec cur cnt); [lia|].
    erewrite ds_addr_bind by (rewrite <- (Nat.add_0_r cnt), <- lookup_drop, Ha; reflexivity). cbn [entry_val fst snd].
    rewrite !le_bytes_le_val by done.
    replace z with (4 + (12 + (4 + (z - 20))))%nat at 1 by lia. rewrite !replicate_add.
    erewrite lift_run by (apply st_bytes_at; [done|by rewrite H1]).
    rewrite (app_assoc w), (app_assoc _ (replicate 12 0)).
    erewrite lift_run by (apply st_bytes_at; [rewrite !length_app, H1, Hw; simpl; lia|by rewrite H3]).
    rewrite app_assoc. rewrite IH.
    + rewrite relayed_cons. unfold relay_entry. rewrite <- !app_assoc.
      replace (S cnt + length es)%nat with (cnt + S (length es))%nat by lia.
      replace (size + 20 + 20 * length es)%nat with (size + 20 * S (length es))%nat by lia.
      by replace (z - 20 - 20 * length es)%nat with (z - 20 * S (length es))%nat by lia.
    + rewrite <- (Nat.add_1_r cnt), <- drop_drop, Ha. done.
    + lia.
    + rewrite !length_app, H1, H3, Hw. simpl. lia.
    + lia.
Qed.

(** The whole request, to the first server that can be reached. *)
Lemma ds_upload_run sk e l rx tx ds s :
  fl_ds_addr (px_file s) = Some ∘ entry_val <$> sk ++ e :: l → fl_ds_number (px_file s) = Z.of_nat (length (sk ++ e :: l)) →
  Forall entry_ok (sk ++ e :: l) → (length (sk ++ l) ≤ 71)%nat → px_up s = true → px_ask s = [] →
  px_dials s = replicate (length sk) DialFail ++ DialOk rx tx :: ds → existsb send_fatal tx = false →
  ∃ tx', existsb send_fatal tx' = false ∧
  gvfs_ds_upload_request s = Some (GVFS_OK,
    with_trace (px_trace s ++ [AConnect (le_val (en_addr e)) (u16 (be_val (en_port e)));
        AUp (ds_upload_req (next_id s) (fl_fileid (px_file s)) (fl_blockindex (px_file s)) (fl_end (px_file s)) (sk ++ l))])
      (with_us (waiting HDsHeader (next_id s) 1024 false rx tx' (px_us s))
         (with_randid (u32 (next_id s + 1)) (with_script ds (px_ask s) s)))).
Proof.
  intros Ha Hn Hes Hlen Hu Hk Hd Hf.
  set (es := sk ++ e :: l) in *. assert (length es = S (length (sk ++ l))) as Hl by (subst es; rewrite !length_app; simpl; lia).
  unfold gvfs_ds_upload_request. rewrite get_bind. cbv zeta. rewrite Hn, Nat2Z.id.
  apply Forall_app in Hes as [Hsk [He Hl']%Forall_cons].
  rewrite (M_bind_Some _ _ _ _ _ (ds_connect_run sk e l (length es) 0 rx tx ds s Ha ltac:(lia || (rewrite Hl, length_app; lia)) He Hu Hd)).
  set (s1 := with_trace _ _). rewrite (M_bind_Some _ _ _ _ _ (randid_run _)).
  assert (next_id s1 = next_id s) as -> by (by destruct s).
  replace (u32 (Z.of_nat (length es) - 1)) with (Z.of_nat (length (sk ++ l))) by (rewrite u32_small; unfold is_u32; lia).
  rewrite u32_small by (unfold is_u32; lia). set (n := length (sk ++ l)) in *.
  set (hd := ds_head _ _ _ _). assert (hd = concat [be_bytes 4 (40 + Z.of_nat n * 20); be_bytes 4 (next_id s); be_bytes 4 0x0101; be_bytes 4 0]) as Hhd.
  { subst hd. unfold ds_head. rewrite !le_bytes_htonl. cbn [concat]. by rewrite app_nil_r. }
  assert (length hd = 16%nat) as H16 by (by rewrite Hhd).
  change (replicate 1460 0) with (replicate 16 0 ++ replicate 20 0 ++ replicate 4 0 ++ replicate 1420 0).
  erewrite lift_run by (apply st_bytes_front; by rewrite H16).
  destruct (rb64_host (fl_fileid (px_file s))) as (x & Hx & Hxb).
  unfold ds_block. rewrite Hx. cbn [mbind option_bind]. erewrite lift_run by reflexivity. rewrite Hxb, !le_bytes_htonl.
  set (blk := be_bytes 8 _ ++ _).
  erewrite lift_run by (apply st_bytes_at; [done|done]).
  rewrite (app_assoc hd). erewrite lift_run by (apply st_bytes_at; [by rewrite length_app, H16|done]).
  rewrite app_assoc. set (w := ((hd ++ blk) ++ be_bytes 4 (Z.of_nat n))).
  assert (length w = 40%nat) as Hw by (subst w; by rewrite !length_app, H16).
  match goal with |- context [(ds_others _ _ _ _ _ ≫= _) ?st] => set (s2 := st) end.
  assert (fl_ds_addr (px_file s2) = Some ∘ entry_val <$> es) as Ha2 by (subst s2 s1; by destruct s).
  assert (ds_others (length es) 0 (length sk) 40 (w ++ replicate 1420 0) s2 =
    Some ((w ++ relayed (sk ++ l)) ++ replicate (1420 - 20 * n) 0, (40 + 20 * n)%nat, s2)) as Ho.
  { subst n. rewrite length_app in *. subst es. rewrite length_app at 1. cbn [length].
    rewrite (ds_others_run sk (e :: l)); [|done|done|lia|done|lia].
    cbn [ds_others]. rewrite Nat.eqb_refl. rewrite <- (Nat.add_0_r (length l)) at 1.
    rewrite (ds_others_run l []); [|rewrite Ha2, (cons_middle e sk l), app_assoc, app_nil_r, fmap_app; apply drop_app_length'; rewrite length_fmap, length_app; simpl; lia|done|lia| |lia].
    - cbn [ds_others mret M_ret]. rewrite relayed_app, <- !app_assoc.
      replace (1420 - 20 * length sk - 20 * length l)%nat with (1420 - 20 * (length sk + length l))%nat by lia.
      by replace (40 + 20 * length sk + 20 * length l)%nat with (40 + 20 * (length sk + length l))%nat by lia.
    - rewrite length_app, relayed_length by done. lia. }
  rewrite (M_bind_Some _ _ _ _ _ Ho). cbn [fst snd].
  rewrite take_app_length' by (rewrite length_app, Hw, relayed_length by (by apply Forall_app); done).
  assert (w ++ relayed (sk ++ l) = ds_upload_req (next_id s) (fl_fileid (px_file s)) (fl_blockindex (px_file s))
    (fl_end (px_file s)) (sk ++ l)) as ->.
  { subst w blk. rewrite Hhd. unfold ds_upload_req. cbn [concat]. fold n. by rewrite app_nil_r, <- !app_assoc. }
  set (m := ds_upload_req _ _ _ _ _).
  destruct (transmit_run HDsHeader (next_id s) m 1024 false rx tx s2) as (tx' & Hf' & Hs);
    [subst s2 s1; by destruct s|subst s2 s1; by destruct s|done|subst s2 s1; by destruct s|done|].
  exists tx'. split; [done|]. rewrite Hs. clearbody m. clear -Hk. subst s2 s1. destruct s as [a1 a2 io fl up us cl bufs ffd id tm dl ak tr].
  cbn in Hk |- *. subst ak. by rewrite <- app_assoc.
Qed.

(** ** The request to the name service *)

(** What the proxy keeps of the client's request. *)
Definition kept_file (fn bs bi : bytes) (f : file) : file :=
  set_blockindex (u32 (atoll bi)) (set_end (u32 (atoll bs)) (set_name (take 127 fn) f)).

Lemma upload_request_run q fn fs bs h bn bi rx tx ds s :
  query_str (px_query s) = Some q →
  string_values q upload_keys = Some [(fn, true); (fs, true); (bs, true); (hex_digits h, true); (bn, true); (bi, true)] →
  is_bytes h → length h = 16%nat →
  px_up s = true → px_dials s = DialOk rx tx :: ds → existsb send_fatal tx = false → px_ask s = [] →
  ∃ tx', existsb send_fatal tx' = false ∧ gvfs_ns_upload_request s = Some (GVFS_OK,
    requested (concat (upload_req (UploadMsg (next_id s) 0 h (atoll fs) (u32 (atoll bn)) (u32 (atoll bi))))) rx tx' ds
      (with_file (kept_file fn bs bi (px_file s)) s)).
Proof.
  intros Hq Hv Hb Hl Hu Hd Hf Ha. set (F := kept_file fn bs bi (px_file s)).
  set (m := concat (upload_req _)).
  destruct (request_run m rx tx ds (with_file F s)) as (tx' & Hf' & Hs);
    [by destruct s|by destruct s|done|by destruct s|done|].
  exists tx'. split; [done|]. rewrite <- Hs. clear Hs.
  unfold gvfs_ns_upload_request. rewrite get_bind, (lift_run _ _ _ _ Hq), Hv.
  unfold value_text. cbn [fst snd]. rewrite (lift_run _ _ _ _ eq_refl), upd_file_bind.
  set (s1 := with_file (set_name _ _) s).
  rewrite (M_bind_Some _ _ _ _ _ (connect_run pv_ns.1 pv_ns.2 rx tx ds s1 ltac:(subst s1; by destruct s) ltac:(subst s1; by destruct s))).
  rewrite (M_bind_Some _ _ _ _ _ (connect_run pv_ns.1 pv_ns.2 rx tx ds (with_file F s) ltac:(by destruct s) ltac:(by destruct s))).
  change (GVFS_OK =? GVFS_OK) with true. cbn [negb].
  rewrite (lift_run _ _ _ _ eq_refl), upd_file_bind. rewrite !(M_bind_Some _ _ _ _ _ (randid_run _)).
  rewrite !(lift_run _ _ _ _ eq_refl), upd_file_bind.
  rewrite (lift_run _ _ _ _ (upload_message_run _ h fs bn bi Hb Hl)).
  subst s1 F m. by destruct s.
Qed.

(** ** The answer, to the data server and to the client *)

Lemma upload_body_length n : 0 ≤ n < 2 ^ 32 → (length (upload_body 0 n) ≤ 600)%nat.
Proof.
  intros H. unfold upload_body. pose proof (fmt_u_length n ltac:(lia)).
  rewrite !length_app. change (length (fmt_u 0)) with 1%nat. lit_len. lia.
Qed.

(** [gvfs_ns_process] on a complete answer. *)
Lemma upload_ns_process id fid sk e l rest p rx2 tx2 ds s :
  let es := sk ++ e :: l in
  us_buf (px_us s) = upload_ans id (UploadOut 0 fid (Z.of_nat (length es)) (entries es)) ++ rest →
  rh_type (us_head (px_us s)) = NS_FILE_UPLOAD → rh_rtn (us_head (px_us s)) = 0 →
  us_conn (px_us s) = Some p → pe_pool p = true → us_down (px_us s) = None →
  px_up s = true → io_out (px_io s) = [] → px_ask s = [] →
  Forall entry_ok es → (length (sk ++ l) ≤ 71)%nat → is_u64 fid →
  px_dials s = replicate (length sk) DialFail ++ DialOk rx2 tx2 :: ds → existsb send_fatal tx2 = false →
  ∃ s', gvfs_ns_process s = Some (GVFS_OK, s') ∧
    px_trace s' = px_trace s ++
      [ACloseUp; AConnect (le_val (en_addr e)) (u16 (be_val (en_port e)));
       AUp (ds_upload_req (next_id s) fid (fl_blockindex (px_file s)) (fl_end (px_file s)) (sk ++ l))] ∧
    io_out (px_io s') = answer_text HTTP_Ok (upload_body 0 (Z.of_nat (length es))) ∧ px_cl s' = px_cl s ∧
    us_head (px_us s') = us_head (px_us s) ∧ (pe_handler <$> us_conn (px_us s') = Some HDsHeader) ∧ px_up s' = true.
Proof.
  intros es Hb Hty Hrt Hc Hpo Hdn Hu Ho Hk Hes Hlen Hf Hd Htx.
  assert (length es = S (length (sk ++ l))) as Hl by (subst es; rewrite !length_app; simpl; lia).
  unfold gvfs_ns_process. rewrite get_us_bind, Hty. cbv zeta. change (bool_decide _) with true. cbn [negb].
  rewrite ask_bind by done. cbn [negb]. change (NS_FILE_UPLOAD =? NS_FILE_QUERY) with false. change (NS_FILE_UPLOAD =? NS_FILE_UPLOAD) with true.
  cbv iota. rewrite M_bind_assoc.
  destruct (upload_process_run id 0 fid es rest s Hes ltac:(lia) Hf Hk Hb) as (a & Hp & Ha). rewrite (M_bind_Some _ _ _ _ _ Hp). clear Hp Hb.
  rewrite Ha by (by destruct sk). clear Ha. set (f1 := set_ds_addr _ _).
  unfold gvfs_ns_file_upload_completed, head_rtn. rewrite !M_bind_assoc, get_us_bind, ret_bind, M_bind_assoc, get_bind.
  assert (fl_ds_number (px_file (with_file f1 s)) = Z.of_nat (length es)) as -> by (by destruct s as [? ? ? []]).
  cbv zeta. rewrite M_bind_assoc. assert (us_head (px_us (with_file f1 s)) = us_head (px_us s)) as -> by (by destruct s). rewrite Hrt.
  erewrite M_bind_Some by (apply answer_run; [done|apply upload_body_length; lia|destruct s; cbn in *; rewrite Ho; simpl; lia]).
  set (t := answer_text _ _). set (s1 := with_io _ _). rewrite M_bind_assoc.
  erewrite M_bind_Some by (apply (close_upstream_run _ p); subst s1; by destruct s).
  destruct (Z.ltb_spec 0 (Z.of_nat (length es))); [|lia]. change (0 =? 0) with true. cbn [andb].
  set (s2 := with_trace _ _). rewrite M_bind_assoc.
  destruct (ds_upload_run sk e l rx2 tx2 ds s2) as (tx' & Htx' & Hs);
    [subst s2 s1 f1; by destruct s as [? ? ? []]|subst s2 s1 f1; by destruct s as [? ? ? []]|done|done|
     subst s2 s1; by destruct s..|done|].
  assert (next_id s2 = next_id s ∧ fl_fileid (px_file s2) = fid ∧ fl_blockindex (px_file s2) = fl_blockindex (px_file s) ∧
    fl_end (px_file s2) = fl_end (px_file s)) as (E1 & E2 & E3 & E4) by (clear -fid; subst s2 s1 f1; by destruct s as [? ? ? []]).
  rewrite E1, E2, E3, E4 in Hs. clear E1 E2 E3 E4. rewrite (M_bind_Some _ _ _ _ _ Hs). clear Hs. eexists. split; [done|].
  generalize (ds_upload_req (next_id s) fid (fl_blockindex (px_file s)) (fl_end (px_file s)) (sk ++ l)). intros req.
  clearbody t f1. clear -Ho Hu. subst s2 s1. destruct s as [a1 a2 io fl up us cl bufs ffd id0 tm dl ak tr]. cbn in Ho, Hu |- *.
  rewrite Ho, app_nil_l. split; [by rewrite <- app_assoc|done].
Qed.

Lemma upload_answer m id fid sk e l rx tx rx2 tx2 ds s :
  let es := sk ++ e :: l in
  let ans := upload_ans id (UploadOut 0 fid (Z.of_nat (length es)) (entries es)) in
  px_up s = true → io_out (px_io s) = [] → px_ask s = [] → existsb send_fatal (cl_send (px_cl s)) = false → us_down (px_us s) = None →
  Forall entry_ok es → (length (sk ++ l) ≤ 71)%nat → is_u64 fid → existsb send_fatal tx2 = false →
  let s0 := requested m (RecvData ans :: rx) tx (replicate (length sk) DialFail ++ DialOk rx2 tx2 :: ds) s in
  ∃ s', up_event false s0 = Some (tt, s') ∧
    px_trace s' = px_trace s0 ++
      [ACloseUp; AConnect (le_val (en_addr e)) (u16 (be_val (en_port e)));
       AUp (ds_upload_req (next_id s0) fid (fl_blockindex (px_file s)) (fl_end (px_file s)) (sk ++ l));
       AClient (answer_text HTTP_Ok (upload_body 0 (Z.of_nat (length es))))] ∧
    (pe_handler <$> us_conn (px_us s') = Some HDsHeader) ∧ px_up s' = true.
Proof.
  intros es ans Hu Ho Hk Hf Hd Hes Hlen Hfid Htx s0.
  assert (length es = S (length (sk ++ l))) as Hl by (subst es; rewrite !length_app; simpl; lia).
  pose proof (entries_length es Hes) as Hel.
  assert (length ans = (36 + 20 * length es)%nat) as Hal.
  { subst ans. unfold upload_ans. cbn [uo_num uo_list uo_rtn uo_fid]. rewrite !length_app, Hel, !be_bytes_length. simpl. lia. }
  assert (∃ w, ans = be_bytes 4 (36 + Z.of_nat (length es) * 20) ++ be_bytes 4 id ++ be_bytes 4 2 ++ be_bytes 4 0 ++ w) as (w & Hw) by (by eexists).
  assert (word 0 ans = Z.of_nat (length ans) ∧ word 2 ans = 2 ∧ word 3 ans = 0) as (H0 & H2 & H3).
  { rewrite Hal, Hw. split_and!; [|exact (be_val_bytes 4 2)|exact (be_val_bytes 4 0)].
    transitivity (u32 (36 + Z.of_nat (length es) * 20)); [exact (be_val_bytes 4 _)|]. rewrite u32_small; unfold is_u32; lia. }
  subst s0. rewrite event_requested by done.
  rewrite ns_answer_run; [| |rewrite pv_fresh_length; lia|by rewrite pv_fresh_length|done].
  2:{ rewrite Hw, !app_assoc.
      rewrite take_app_length' by done. unfold is_bytes. rewrite !Forall_app. split_and!; apply be_bytes_is. }
  set (st := filling _ _ _ _ _ _ _ _ _ _ _ _ _ _ _). unfold ns_rest.
  destruct (upload_ns_process id fid sk e l (drop (length ans) (pv_fresh 3072)) (Peer HNsBody true true true true rx tx) rx2 tx2 ds st)
    as (s1 & Hp & Htr & Hout & Hcl & Hhd & Hcn & Hup); [done|by subst st; destruct s..|].
  rewrite (M_bind_Some _ _ _ _ _ Hp). change (GVFS_OK =? GVFS_OK) with true. cbn [negb]. rewrite get_us_bind, Hhd.
  change (rh_type (us_head (px_us st))) with (word 2 ans). rewrite H2. change (2 =? NS_FILE_DOWNLOAD) with false. cbn [negb whenM].
  destruct (finalize_run HTTP_Ok s1) as (tx1 & _ & Hfin); [done|rewrite Hcl; subst st; by destruct s|].
  rewrite Hfin. eexists. split; [done|]. split_and!; [|done..]. cbn [answered px_trace]. unfold reply_text.
  rewrite Hout, decide_False by done. rewrite Htr, <- app_assoc. subst st. by destruct s.
Qed.
End env.

(** ** Both programs *)

Section both.
Context {D} `{!Mysql D} {E : Env} {PE : ProxyEnv}.
Implicit Types ns : svc D.

(** C1: an upload, from the client's URL to the data server.  The proxy sends the
    name service exactly the request whose meaning is [upload_effect]; the name service
    answers with the servers that the effect chose; given these bytes, the proxy
    connects to the first of them that can be reached, in their order, and asks it
    for the block with the id that the effect gave and the addresses of the other
    servers; only then it answers its client, with the number of servers. *)
Theorem upload_end_to_end q fn fs bs h bn bi fid sk e l rx tx rx2 tx2 ds s ns ns' slack rsp a bl :
  let m := UploadMsg (next_id s) 0 h (atoll fs) (u32 (atoll bn)) (u32 (atoll bi)) in
  let es := sk ++ e :: l in
  let o := UploadOut 0 fid (Z.of_nat (length es)) (entries es) in
  let ans := upload_ans (next_id s) o in
  query_str (px_query s) = Some q →
  string_values q upload_keys = Some [(fn, true); (fs, true); (bs, true); (hex_digits h, true); (bn, true); (bi, true)] →
  upload_msg_ok m →
  px_up s = true → io_out (px_io s) = [] → px_ask s = [] → existsb send_fatal (cl_send (px_cl s)) = false →
  us_down (px_us s) = None →
  px_dials s = DialOk (RecvData ans :: rx) tx :: replicate (length sk) DialFail ++ DialOk rx2 tx2 :: ds →
  existsb send_fatal tx = false → existsb send_fatal tx2 = false →
  conns_ok ns → (56 ≤ length rsp)%nat →
  (∀ k, 1 ≤ k ≤ 3 → is_Some (env_malloc (k * 20))) → (∀ k, 0 ≤ k ≤ 3 → is_Some (env_malloc (36 + k * 20))) →
  upload_effect m ns = Some (o, ns') → Forall entry_ok es → is_u64 fid →
  ∃ s1 s2 req' rsp' tail,
  gvfs_ns_upload_request s = Some (GVFS_OK, s1) ∧
  px_trace s1 = px_trace s ++ [AConnect pv_ns.1 (u16 pv_ns.2); AUp (concat (upload_req m))] ∧
  busi_case gfs_busi_upload_parse gfs_busi_upload_handle gfs_busi_upload_tobuf
    (Busi 2 (concat (upload_req m ++ [slack])) rsp (NetBuf [] 0 0 0) a None bl ns) =
    Some (GFS_OK, let len := 36 + Z.of_nat (length es) * 20 in
      Busi 2 req' rsp' (NetBuf (ans ++ tail) len len 0) a None bl ns') ∧
  up_event false s1 = Some (tt, s2) ∧
  px_trace s2 = px_trace s1 ++
    [ACloseUp; AConnect (le_val (en_addr e)) (u16 (be_val (en_port e)));
     AUp (ds_upload_req (next_id s1) fid (u32 (atoll bi)) (u32 (atoll bs)) (sk ++ l));
     AClient (answer_text HTTP_Ok (lit "rtn=0&ds_number=" ++ fmt_u (Z.of_nat (length es))))] ∧
  pe_handler <$> us_conn (px_us s2) = Some HDsHeader.
Proof.
  intros m es o ans Hq Hv Hm Hu Ho Hk Hf Hd Hdial Htx Htx2 Hok Hrsp Hm1 Hm2 Heff Hes Hfid.
  destruct (upload_effect_out _ _ _ _ Hok Heff) as ([_ H3] & _ & _). change (uo_num o) with (Z.of_nat (length es)) in H3.
  assert (length es = S (length (sk ++ l))) as Hl by (subst es; rewrite !length_app; simpl; lia).
  pose proof Hm as (_ & Hb & Hh & _).
  destruct (upload_request_run q fn fs bs h bn bi _ _ _ s Hq Hv Hb Hh Hu Hdial Htx Hk) as (tx' & _ & Hreq).
  set (s1 := with_file (kept_file fn bs bi (px_file s)) s) in *.
  destruct (upload_answer (concat (upload_req m)) (next_id s) fid sk e l rx tx' rx2 tx2 ds s1) as (s2 & Hev & Htr & Hc & _);
    [subst s1; by destruct s..|done|lia|done|done|].
  destruct (gfs_busi_upload_run m slack rsp a bl ns Hm Hok Hrsp Hm1 Hm2) as (req' & rsp' & tail & Hns).
  rewrite Heff in Hns.
  eexists _, s2, req', (rsp' o), (tail o). split; [exact Hreq|]. split; [subst s1; by destruct s|]. split; [exact Hns|].
  split; [exact Hev|]. split; [|done]. rewrite Htr. subst s1. by destruct s as [? ? ? []].
Qed.
End both.
