(* ===== verification/Bitmap.v ===== *)
(** The bitmaps of allocated and of faulty blocks of a data server:
    diskmanager/src/bit_map.cpp.  A bitmap refines a finite set of positions,
    and its counter is the size of the set. *)
From S2P Require Import Prelude Bytes.

Record bitmap := BM {
  bm_item_count : Z;
  bm_slot_count : Z;
  bm_set_count : Z;
  bm_data : option bytes;
  bm_mount : bool }.

Definition SLOT_SIZE := 8.
Definition INVALID_INDEX := 2 ^ 32 - 1.
Definition BITMAPMASK : bytes := [128; 64; 32; 16; 8; 4; 2; 1].

Definition slots (item_count : Z) : Z := Z.shiftr (u32 (item_count + SLOT_SIZE - 1)) 3.

Definition bm_null (set_flag : bool) : bitmap :=
  let n := if set_flag then INVALID_INDEX else 0 in BM n n 0 None false.

(** [BitMap::alloc], also the body of the constructor behind [assert(item_count != 0)]. *)
Definition bm_alloc (item_count : Z) (set_flag : bool) (b : bitmap) : option bitmap :=
  match bm_data b with
  | Some _ => None
  | None =>
      if item_count =? 0 then None else
      Some (BM item_count (slots item_count) (if set_flag then item_count else 0)
               (Some (replicate (Z.to_nat (slots item_count)) (if set_flag then 255 else 0))) (bm_mount b))
  end.
Definition bm_new (item_count : Z) (set_flag : bool) : option bitmap :=
  bm_alloc item_count set_flag (bm_null false).

(** [BitMap::test]: [assert] ends the program. *)
Definition bm_test (b : bitmap) (index : Z) : option bool :=
  if index <? bm_item_count b then
    d ← bm_data b;
    byte ← d !! Z.to_nat (index `div` SLOT_SIZE);
    mask ← BITMAPMASK !! Z.to_nat (index `mod` SLOT_SIZE);
    Some (negb (Z.land byte mask =? 0))
  else None.

Definition bm_set (index : Z) (b : bitmap) : option bitmap :=
  if index <? bm_item_count b then
    d ← bm_data b;
    byte ← d !! Z.to_nat (index `div` SLOT_SIZE);
    mask ← BITMAPMASK !! Z.to_nat (index `mod` SLOT_SIZE);
    if Z.land byte mask =? 0 then
      Some (BM (bm_item_count b) (bm_slot_count b) (u32 (bm_set_count b + 1))
               (Some (<[Z.to_nat (index `div` SLOT_SIZE) := u8 (Z.lor byte mask)]> d)) (bm_mount b))
    else Some b
  else None.

Definition bm_reset (index : Z) (b : bitmap) : option bitmap :=
  if index <? bm_item_count b then
    d ← bm_data b;
    byte ← d !! Z.to_nat (index `div` SLOT_SIZE);
    mask ← BITMAPMASK !! Z.to_nat (index `mod` SLOT_SIZE);
    if Z.land byte mask =? 0 then Some b else
      Some (BM (bm_item_count b) (bm_slot_count b) (u32 (bm_set_count b - 1))
               (Some (<[Z.to_nat (index `div` SLOT_SIZE) := u8 (Z.land byte (Z.lnot mask))]> d)) (bm_mount b))
  else None.

Definition bm_reset_all (b : bitmap) : option bitmap :=
  d ← bm_data b;
  if decide (length d = Z.to_nat (bm_slot_count b))
  then Some (BM (bm_item_count b) (bm_slot_count b) 0 (Some (replicate (length d) 0)) (bm_mount b)) else None.

(** The loop of [BitMap::copy] over the positions from [pos]. *)
Fixpoint copy_count (b : bitmap) (n : nat) (pos count : Z) : option Z :=
  match n with
  | O => Some count
  | S n => t ← bm_test b pos; copy_count b n (pos + 1) (if (t : bool) then u32 (count + 1) else count)
  end.
Definition bm_copy (slot_count : Z) (bitmap_data : bytes) (b : bitmap) : option bitmap :=
  d ← bm_data b;
  if negb (bm_slot_count b =? slot_count) then None else
  d' ← st_bytes 0 (take (Z.to_nat slot_count) bitmap_data) d;
  if (length bitmap_data <? Z.to_nat slot_count)%nat then None else
  let b1 := BM (bm_item_count b) (bm_slot_count b) 0 (Some d') (bm_mount b) in
  c ← copy_count b1 (Z.to_nat (bm_item_count b)) 0 0;
  Some (BM (bm_item_count b) (bm_slot_count b) c (Some d') (bm_mount b)).

(** [BitMap::mount] takes over a buffer of the caller and leaves [set_count_]. *)
Definition bm_mount_data (item_count : Z) (bitmap_data : option bytes) (mount_flag : bool) (b : bitmap) : option bitmap :=
  match bm_mount b, bm_data b with
  | false, Some _ => None
  | _, _ => Some (BM item_count (slots item_count) (bm_set_count b) bitmap_data mount_flag)
  end.

(** ** The set a bitmap stands for *)

Definition bit_on (d : bytes) (i : Z) : bool :=
  match d !! Z.to_nat (i `div` 8) with
  | Some byte => Z.testbit byte (7 - i `mod` 8)
  | None => false
  end.
Definition bits (item : Z) (d : bytes) : gset Z :=
  list_to_set (base.filter (λ i, bit_on d i = true) (seqZ 0 item)).

Record bm_rep (b : bitmap) (n : Z) (d : bytes) (S : gset Z) : Prop := BMRep {
  bmr_item : bm_item_count b = n;
  bmr_range : 0 < n < 2 ^ 31;
  bmr_slot : bm_slot_count b = slots n;
  bmr_data : bm_data b = Some d;
  bmr_len : length d = Z.to_nat (slots n);
  bmr_bytes : is_bytes d;
  bmr_set : S = bits n d;
  bmr_count : bm_set_count b = Z.of_nat (size S) }.

Lemma elem_bits n d i : i ∈ bits n d ↔ 0 ≤ i < n ∧ bit_on d i = true.
Proof.
  unfold bits. rewrite elem_of_list_to_set, list_elem_of_filter, elem_of_seqZ.
  naive_solver lia.
Qed.

Lemma bits_size_le n d : 0 ≤ n → Z.of_nat (size (bits n d)) ≤ n.
Proof.
  intros Hn. assert (bits n d ⊆ list_to_set (seqZ 0 n)) as Hs.
  { intros i. rewrite elem_bits, elem_of_list_to_set, elem_of_seqZ. lia. }
  apply subseteq_size in Hs. rewrite size_list_to_set in Hs by apply NoDup_seqZ.
  rewrite length_seqZ in Hs. lia.
Qed.

Lemma slots_eq n : 0 < n < 2 ^ 31 → slots n = (n + 7) `div` 8.
Proof.
  intros H. unfold slots, SLOT_SIZE. rewrite u32_small by (unfold is_u32; lia).
  rewrite Z.shiftr_div_pow2 by lia. change (2 ^ 3) with 8. f_equal. lia.
Qed.
Lemma slot_in n i : 0 < n < 2 ^ 31 → 0 ≤ i < n → (Z.to_nat (i `div` 8) < Z.to_nat (slots n))%nat.
Proof.
  intros Hn Hi. rewrite slots_eq by done.
  assert (i `div` 8 < (n + 7) `div` 8); [|pose proof (Z.div_pos i 8); lia].
  assert (i `div` 8 + 1 ≤ (n + 7) `div` 8); [|lia].
  rewrite <- Z.div_add by lia. apply Z.div_le_mono; lia.
Qed.

Lemma mask_lookup i : BITMAPMASK !! Z.to_nat (i `mod` 8) = Some (2 ^ (7 - i `mod` 8)).
Proof.
  pose proof (Z.mod_pos_bound i 8 ltac:(lia)) as H.
  assert (i `mod` 8 ∈ seqZ 0 8) as Hin by (apply elem_of_seqZ; lia).
  revert Hin. generalize (i `mod` 8). change (seqZ 0 8) with [0;1;2;3;4;5;6;7].
  intros j Hj. repeat (apply elem_of_cons in Hj as [->|Hj]; [done|]). by apply elem_of_nil in Hj.
Qed.

Lemma land_pow2 x k : 0 ≤ k → (Z.land x (2 ^ k) =? 0) = negb (Z.testbit x k).
Proof.
  intros Hk. destruct (Z.testbit x k) eqn:Ht; simpl; [apply Z.eqb_neq|apply Z.eqb_eq].
  - intros H0. assert (Z.testbit (Z.land x (2 ^ k)) k = true) as Hf; [|by rewrite H0, Z.bits_0 in Hf].
    by rewrite Z.land_spec, Ht, Z.pow2_bits_true.
  - apply Z.bits_inj'. intros j Hj. rewrite Z.land_spec, Z.bits_0, Z.pow2_bits_eqb by done.
    destruct (Z.eqb_spec k j) as [<-|]; [by rewrite Ht|apply andb_false_r].
Qed.

(** Setting or clearing the bit of [i] in its byte and nothing else. *)
Definition put_bit (d : bytes) (i : Z) (v : bool) (byte : Z) : bytes :=
  <[Z.to_nat (i `div` 8) := byte]> d.

Lemma bit_on_insert d i j byte byte' v :
  0 ≤ i → 0 ≤ j → d !! Z.to_nat (i `div` 8) = Some byte →
  (∀ k, 0 ≤ k < 8 → Z.testbit byte' k = if k =? 7 - i `mod` 8 then v else Z.testbit byte k) →
  bit_on (<[Z.to_nat (i `div` 8) := byte']> d) j = if j =? i then v else bit_on d j.
Proof.
  intros Hi Hj Hd Hb. unfold bit_on. pose proof (Z.mod_pos_bound i 8 ltac:(lia)).
  pose proof (Z.mod_pos_bound j 8 ltac:(lia)). pose proof (Z.div_mod i 8). pose proof (Z.div_mod j 8).
  pose proof (Z.div_pos i 8). pose proof (Z.div_pos j 8).
  destruct (decide (j `div` 8 = i `div` 8)) as [Hq|Hq].
  - rewrite Hq, list_lookup_insert_eq, Hd by (by eapply lookup_lt_Some). rewrite Hb by lia.
    destruct (Z.eqb_spec (7 - j `mod` 8) (7 - i `mod` 8)), (Z.eqb_spec j i); [done|lia..|done].
  - rewrite list_lookup_insert_ne by lia. by destruct (Z.eqb_spec j i) as [->|].
Qed.

Lemma is_byte_testbit b k : is_byte b → 8 ≤ k → Z.testbit b k = false.
Proof.
  intros Hb Hk. unfold is_byte in Hb. destruct (decide (b = 0)) as [->|]; [apply Z.bits_0|].
  apply Z.bits_above_log2; [lia|]. apply Z.log2_lt_pow2; [lia|].
  assert (2 ^ 8 ≤ 2 ^ k) by (apply Z.pow_le_mono_r; lia). lia.
Qed.
Lemma u8_testbit b k : 0 ≤ k < 8 → Z.testbit (u8 b) k = Z.testbit b k.
Proof. intros Hk. unfold u8. rewrite Z.mod_pow2_bits_low by lia. done. Qed.
Lemma u8_byte b : is_byte (u8 b).
Proof. unfold is_byte, u8. apply Z.mod_pos_bound. lia. Qed.

Lemma u8_set_bit byte m : 0 ≤ m < 8 → ∀ k, 0 ≤ k < 8 →
  Z.testbit (u8 (Z.lor byte (2 ^ m))) k = if k =? m then true else Z.testbit byte k.
Proof.
  intros Hm k Hk. rewrite u8_testbit, Z.lor_spec, Z.pow2_bits_eqb by lia.
  rewrite (Z.eqb_sym m k). destruct (k =? m); [apply orb_true_r|apply orb_false_r].
Qed.
Lemma u8_clear_bit byte m : 0 ≤ m < 8 → ∀ k, 0 ≤ k < 8 →
  Z.testbit (u8 (Z.land byte (Z.lnot (2 ^ m)))) k = if k =? m then false else Z.testbit byte k.
Proof.
  intros Hm k Hk. rewrite u8_testbit, Z.land_spec, Z.lnot_spec, Z.pow2_bits_eqb by lia.
  rewrite (Z.eqb_sym m k). destruct (k =? m); simpl; [apply andb_false_r|apply andb_true_r].
Qed.

(** The byte of a position and its test. *)
Lemma bm_byte b n d S i : bm_rep b n d S → 0 ≤ i < n → ∃ byte,
  d !! Z.to_nat (i `div` 8) = Some byte ∧ is_byte byte ∧
  (Z.land byte (2 ^ (7 - i `mod` 8)) =? 0) = negb (bit_on d i).
Proof.
  intros HR Hi. destruct (lookup_lt_is_Some_2 d (Z.to_nat (i `div` 8))) as [byte Hb].
  { rewrite (bmr_len _ _ _ _ HR). by apply slot_in; [apply (bmr_range _ _ _ _ HR)|]. }
  pose proof (Z.mod_pos_bound i 8 ltac:(lia)).
  exists byte. split_and!; [done| |].
  - pose proof (bmr_bytes _ _ _ _ HR) as H0. unfold is_bytes in H0. rewrite Forall_lookup in H0. by eapply H0.
  - rewrite land_pow2 by lia. unfold bit_on. by rewrite Hb.
Qed.

Lemma bm_test_run b n d S i :
  bm_rep b n d S → 0 ≤ i < n → bm_test b i = Some (bool_decide (i ∈ S)).
Proof.
  intros HR Hi. destruct (bm_byte _ _ _ _ _ HR Hi) as (byte & Hb & _ & Ht).
  unfold bm_test, SLOT_SIZE. rewrite (bmr_item _ _ _ _ HR), (bmr_data _ _ _ _ HR).
  destruct (Z.ltb_spec i n); [|lia]. cbn [mbind option_bind]. rewrite Hb. cbn [mbind option_bind].
  rewrite mask_lookup. cbn [mbind option_bind]. f_equal. rewrite Ht, negb_involutive, (bmr_set _ _ _ _ HR).
  destruct (bit_on d i) eqn:E; symmetry; [apply bool_decide_eq_true_2|apply bool_decide_eq_false_2];
    rewrite elem_bits; [done|]. rewrite E. naive_solver.
Qed.
Lemma bm_test_outside b i : bm_item_count b ≤ i → bm_test b i = None.
Proof. intros H. unfold bm_test. by destruct (Z.ltb_spec i (bm_item_count b)); [lia|]. Qed.

(** What the two updates have in common: byte [byte'] differs from the old one in
    the bit of [i] only. *)
Lemma bm_rep_update b n d S i byte byte' v c :
  bm_rep b n d S → 0 ≤ i < n → d !! Z.to_nat (i `div` 8) = Some byte → is_byte byte' →
  (∀ k, 0 ≤ k < 8 → Z.testbit byte' k = if k =? 7 - i `mod` 8 then v else Z.testbit byte k) →
  c = Z.of_nat (size (if v then {[i]} ∪ S else S ∖ {[i]})) →
  bm_rep (BM (bm_item_count b) (bm_slot_count b) c (Some (<[Z.to_nat (i `div` 8) := byte']> d)) (bm_mount b))
    n (<[Z.to_nat (i `div` 8) := byte']> d) (if v then {[i]} ∪ S else S ∖ {[i]}).
Proof.
  intros HR Hi Hb Hy Hk ->. split; cbn [bm_item_count bm_slot_count bm_data bm_set_count]; try apply HR; try done.
  - rewrite length_insert. apply HR.
  - apply Forall_insert; [apply HR|done].
  - apply set_eq. intros j. rewrite elem_bits.
    assert (0 ≤ j → bit_on (<[Z.to_nat (i `div` 8) := byte']> d) j = if j =? i then v else bit_on d j) as Hj
      by (intros; by eapply bit_on_insert; [lia..|done|]).
    pose proof (elem_bits n d j) as He. rewrite <- (bmr_set _ _ _ _ HR) in He.
    destruct (decide (0 ≤ j)) as [H0|H0].
    + rewrite (Hj H0). destruct (Z.eqb_spec j i); destruct v;
        rewrite ?elem_of_union, ?elem_of_difference, elem_of_singleton, ?He; intuition (congruence || lia).
    + destruct v; rewrite ?elem_of_union, ?elem_of_difference, elem_of_singleton, ?He; intuition lia.
Qed.

Lemma bm_size_bound b n d S : bm_rep b n d S → 0 ≤ Z.of_nat (size S) ≤ n.
Proof. intros HR. rewrite (bmr_set _ _ _ _ HR). split; [lia|]. apply bits_size_le. pose proof (bmr_range _ _ _ _ HR). lia. Qed.

Lemma bm_set_run b n d S i : bm_rep b n d S → 0 ≤ i < n →
  ∃ b' d', bm_set i b = Some b' ∧ bm_rep b' n d' ({[i]} ∪ S).
Proof.
  intros HR Hi. destruct (bm_byte _ _ _ _ _ HR Hi) as (byte & Hb & Hy & Ht).
  pose proof (bm_size_bound _ _ _ _ HR) as Hs. pose proof (bmr_range _ _ _ _ HR).
  pose proof (Z.mod_pos_bound i 8 ltac:(lia)).
  unfold bm_set, SLOT_SIZE. rewrite (bmr_item _ _ _ _ HR), (bmr_data _ _ _ _ HR).
  destruct (Z.ltb_spec i n); [|lia]. cbn [mbind option_bind]. rewrite Hb. cbn [mbind option_bind].
  rewrite mask_lookup. cbn [mbind option_bind]. rewrite Ht.
  assert (i ∈ S ↔ bit_on d i = true) as Hin by (rewrite (bmr_set _ _ _ _ HR), elem_bits; naive_solver).
  destruct (bit_on d i) eqn:E; cbn [negb].
  - exists b, d. split; [done|]. replace ({[i]} ∪ S) with S by set_solver. done.
  - eexists _, _. split; [done|]. rewrite <- (bmr_item _ _ _ _ HR).
    apply (bm_rep_update _ _ _ _ _ byte _ true); rewrite ?(bmr_item _ _ _ _ HR); try done.
    + apply u8_byte.
    + by apply u8_set_bit; lia.
    + rewrite (bmr_count _ _ _ _ HR), size_union, size_singleton by set_solver.
      rewrite u32_small by (unfold is_u32; lia). lia.
Qed.

Lemma bm_reset_run b n d S i : bm_rep b n d S → 0 ≤ i < n →
  ∃ b' d', bm_reset i b = Some b' ∧ bm_rep b' n d' (S ∖ {[i]}).
Proof.
  intros HR Hi. destruct (bm_byte _ _ _ _ _ HR Hi) as (byte & Hb & Hy & Ht).
  pose proof (bm_size_bound _ _ _ _ HR) as Hs. pose proof (bmr_range _ _ _ _ HR).
  pose proof (Z.mod_pos_bound i 8 ltac:(lia)).
  unfold bm_reset, SLOT_SIZE. rewrite (bmr_item _ _ _ _ HR), (bmr_data _ _ _ _ HR).
  destruct (Z.ltb_spec i n); [|lia]. cbn [mbind option_bind]. rewrite Hb. cbn [mbind option_bind].
  rewrite mask_lookup. cbn [mbind option_bind]. rewrite Ht.
  assert (i ∈ S ↔ bit_on d i = true) as Hin by (rewrite (bmr_set _ _ _ _ HR), elem_bits; naive_solver).
  destruct (bit_on d i) eqn:E; cbn [negb].
  - eexists _, _. split; [done|]. rewrite <- (bmr_item _ _ _ _ HR).
    apply (bm_rep_update _ _ _ _ _ byte _ false); rewrite ?(bmr_item _ _ _ _ HR); try done.
    + apply u8_byte.
    + by apply u8_clear_bit; lia.
    + assert (i ∈ S) by naive_solver. rewrite (bmr_count _ _ _ _ HR), size_difference, size_singleton by set_solver.
      assert (size S ≠ 0%nat) by (intros Hz%size_empty_inv; set_solver).
      rewrite u32_small by (unfold is_u32; lia). lia.
  - exists b, d. split; [done|]. replace (S ∖ {[i]}) with S by set_solver. done.
Qed.

Lemma size_bits n d : size (bits n d) = length (base.filter (λ i, bit_on d i = true) (seqZ 0 n)).
Proof. unfold bits. apply size_list_to_set. apply NoDup_filter, NoDup_seqZ. Qed.

Lemma bit_on_replicate k v i : 0 ≤ i → (Z.to_nat (i `div` 8) < k)%nat →
  bit_on (replicate k v) i = Z.testbit v (7 - i `mod` 8).
Proof. intros Hi Hk. unfold bit_on. by rewrite lookup_replicate_2. Qed.

Lemma bits_full n : 0 < n < 2 ^ 31 → bits n (replicate (Z.to_nat (slots n)) 255) = list_to_set (seqZ 0 n).
Proof.
  intros Hn. apply set_eq. intros i. rewrite elem_bits, elem_of_list_to_set, elem_of_seqZ.
  split; [lia|]. intros Hi. split; [lia|].
  rewrite bit_on_replicate by (lia || apply slot_in; lia). change 255 with (Z.ones 8).
  pose proof (Z.mod_pos_bound i 8 ltac:(lia)). apply Z.ones_spec_low. lia.
Qed.
Lemma bits_empty n k : bits n (replicate k 0) = ∅.
Proof.
  apply set_eq. intros i. rewrite elem_bits. unfold bit_on.
  destruct (replicate k 0 !! _) as [x|] eqn:E; [|set_solver].
  apply lookup_replicate in E as [-> _]. rewrite Z.bits_0. set_solver.
Qed.

Lemma bm_alloc_run b n flag : bm_data b = None → 0 < n < 2 ^ 31 →
  ∃ b' d, bm_alloc n flag b = Some b' ∧ bm_rep b' n d (if flag then list_to_set (seqZ 0 n) else ∅).
Proof.
  intros Hd Hn. unfold bm_alloc. rewrite Hd. destruct (Z.eqb_spec n 0); [lia|].
  eexists _, _. split; [done|]. split; cbn [bm_item_count bm_slot_count bm_data bm_set_count]; try done.
  - apply length_replicate.
  - apply Forall_replicate. unfold is_byte. destruct flag; lia.
  - destruct flag; [by rewrite bits_full|by rewrite bits_empty].
  - destruct flag; [|by rewrite size_empty]. rewrite size_list_to_set by apply NoDup_seqZ.
    rewrite length_seqZ. lia.
Qed.

Lemma copy_count_run b n d S k c :
  bm_rep b n d S → Z.of_nat k ≤ n → 0 ≤ c → c + Z.of_nat k < 2 ^ 32 →
  copy_count b k (n - Z.of_nat k) c =
    Some (c + Z.of_nat (length (base.filter (λ i, bit_on d i = true) (seqZ (n - Z.of_nat k) (Z.of_nat k))))).
Proof.
  intros HR. revert c. induction k as [|k IH]; intros c Hk Hc Hlt; cbn [copy_count].
  - simpl. f_equal. lia.
  - rewrite (bm_test_run _ _ _ _ _ HR) by lia. cbn [mbind option_bind].
    rewrite (seqZ_cons _ (Z.of_nat (Datatypes.S k))) by lia. rewrite filter_cons.
    replace (n - Z.of_nat (Datatypes.S k) + 1) with (n - Z.of_nat k) by lia.
    replace (Z.succ (n - Z.of_nat (Datatypes.S k))) with (n - Z.of_nat k) by lia.
    replace (Z.pred (Z.of_nat (Datatypes.S k))) with (Z.of_nat k) by lia.
    assert (n - Z.of_nat (Datatypes.S k) ∈ S ↔ bit_on d (n - Z.of_nat (Datatypes.S k)) = true) as Hin
      by (rewrite (bmr_set _ _ _ _ HR), elem_bits; intuition lia).
    case_bool_decide as Hb; rewrite Hin in Hb; case_decide; try done.
    + rewrite u32_small by (unfold is_u32; lia). rewrite IH by lia. f_equal. simpl. lia.
    + by rewrite IH by lia.
Qed.

(** The test looks at the contents only, not at the counter. *)
Lemma copy_count_data b b' k p c :
  bm_item_count b = bm_item_count b' → bm_data b = bm_data b' → copy_count b k p c = copy_count b' k p c.
Proof.
  intros Hi Hd. revert p c. induction k as [|k IH]; intros p c; [done|]. cbn [copy_count].
  replace (bm_test b p) with (bm_test b' p) by (unfold bm_test; by rewrite Hi, Hd).
  destruct (bm_test b' p); [|done]. apply IH.
Qed.

(** [copy] replaces the contents by those of another map of the same size. *)
Lemma bm_copy_run b n d S d2 : bm_rep b n d S → is_bytes d2 → length d2 = Z.to_nat (slots n) →
  ∃ b', bm_copy (slots n) d2 b = Some b' ∧ bm_rep b' n d2 (bits n d2).
Proof.
  intros HR Hy Hl. pose proof (bmr_range _ _ _ _ HR) as Hn.
  pose proof (bmr_len _ _ _ _ HR) as Hld.
  set (b2 := BM (bm_item_count b) (bm_slot_count b) (Z.of_nat (size (bits n d2))) (Some d2) (bm_mount b)).
  assert (bm_rep b2 n d2 (bits n d2)) as HR2.
  { split; cbn; try apply HR; done. }
  exists b2. split; [|done].
  unfold bm_copy. rewrite (bmr_data _ _ _ _ HR), (bmr_slot _ _ _ _ HR), Z.eqb_refl. cbn [mbind option_bind negb].
  rewrite take_ge by lia. rewrite st_bytes_ok by lia. cbn [mbind option_bind take Nat.add].
  rewrite drop_ge, app_nil_r by lia.
  destruct (Nat.ltb_spec (length d2) (Z.to_nat (slots n))); [lia|].
  rewrite (copy_count_data _ b2) by done. rewrite (bmr_item _ _ _ _ HR). replace 0 with (n - Z.of_nat (Z.to_nat n)) at 1 by lia.
  rewrite (copy_count_run _ _ _ _ _ _ HR2) by lia. cbn [mbind option_bind].
  unfold b2. do 2 f_equal; [by rewrite (bmr_item _ _ _ _ HR)|by rewrite (bmr_slot _ _ _ _ HR)|].
  rewrite size_bits, Z2Nat.id, Z.sub_diag by lia. lia.
Qed.

(** The operations of a bitmap, and what they mean for a set. *)
Inductive bm_op := OpTest (i : Z) | OpSet (i : Z) | OpReset (i : Z) | OpCopy (d : bytes) | OpResetAll.
Definition bm_step (n : Z) (o : bm_op) (b : bitmap) : option (option bool * bitmap) :=
  match o with
  | OpTest i => t ← bm_test b i; Some (Some t, b)
  | OpSet i => b' ← bm_set i b; Some (None, b')
  | OpReset i => b' ← bm_reset i b; Some (None, b')
  | OpCopy d => b' ← bm_copy (slots n) d b; Some (None, b')
  | OpResetAll => b' ← bm_reset_all b; Some (None, b')
  end.
Definition set_step (n : Z) (o : bm_op) (S : gset Z) : option bool * gset Z :=
  match o with
  | OpTest i => (Some (bool_decide (i ∈ S)), S)
  | OpSet i => (None, {[i]} ∪ S)
  | OpReset i => (None, S ∖ {[i]})
  | OpCopy d => (None, bits n d)
  | OpResetAll => (None, ∅)
  end.
Definition op_ok (n : Z) (o : bm_op) : Prop :=
  match o with
  | OpTest i | OpSet i | OpReset i => 0 ≤ i < n
  | OpCopy d => is_bytes d ∧ length d = Z.to_nat (slots n)
  | OpResetAll => True
  end.

(** Sequences of operations and the answers they give. *)
Fixpoint bm_run (n : Z) (os : list bm_op) (b : bitmap) : option (list (option bool) * bitmap) :=
  match os with
  | [] => Some ([], b)
  | o :: os => r ← bm_step n o b; q ← bm_run n os r.2; Some (r.1 :: q.1, q.2)
  end.
Fixpoint set_run (n : Z) (os : list bm_op) (S : gset Z) : list (option bool) * gset Z :=
  match os with
  | [] => ([], S)
  | o :: os => let r := set_step n o S in let q := set_run n os r.2 in (r.1 :: q.1, q.2)
  end.

Lemma bm_step_run b n d S o : bm_rep b n d S → op_ok n o →
  ∃ b' d', bm_step n o b = Some ((set_step n o S).1, b') ∧ bm_rep b' n d' (set_step n o S).2.
Proof.
  intros HR Ho. destruct o as [i|i|i|d2|]; cbn [bm_step set_step op_ok fst snd] in *.
  - rewrite (bm_test_run _ _ _ _ _ HR) by done. by exists b, d.
  - destruct (bm_set_run _ _ _ _ i HR) as (b' & d' & -> & H); [done|]. by exists b', d'.
  - destruct (bm_reset_run _ _ _ _ i HR) as (b' & d' & -> & H); [done|]. by exists b', d'.
  - destruct Ho as [Hy Hl]. destruct (bm_copy_run _ _ _ _ d2 HR) as (b' & -> & H); [done..|]. by exists b', d2.
  - unfold bm_reset_all. rewrite (bmr_data _ _ _ _ HR), (bmr_slot _ _ _ _ HR). cbn [mbind option_bind].
    rewrite decide_True by apply HR. cbn [mbind option_bind]. eexists _, (replicate (length d) 0). split; [done|].
    split; cbn [bm_item_count bm_slot_count bm_data bm_set_count]; try apply HR; try done.
    + rewrite length_replicate. apply HR.
    + apply Forall_replicate. unfold is_byte. lia.
    + by rewrite bits_empty.
Qed.

Lemma bm_refines_run n os b d S : bm_rep b n d S → Forall (op_ok n) os →
  ∃ b' d', bm_run n os b = Some ((set_run n os S).1, b') ∧ bm_rep b' n d' (set_run n os S).2.
Proof.
  revert b d S. induction os as [|o os IH]; intros b d S HR Ho; [by exists b, d|].
  apply Forall_cons in Ho as [Ho Hos]. cbn [bm_run set_run].
  destruct (bm_step_run _ _ _ _ _ HR Ho) as (b1 & d1 & -> & HR1). cbn [mbind option_bind fst snd].
  destruct (IH _ _ _ HR1 Hos) as (b2 & d2 & -> & HR2). by exists b2, d2.
Qed.

(** C13: a bitmap of [n] positions made by its constructor behaves, under every
    sequence of test, set, reset, copy and reset_all on its positions, as a finite
    set of positions: the program never stops at an assertion or leaves the data,
    every test answers membership, and the counter that get_set_count returns is
    the size of the set. *)
Theorem bitmap_refines_set n flag os :
  0 < n < 2 ^ 31 → Forall (op_ok n) os →
  ∃ b b' d, bm_new n flag = Some b ∧
    bm_run n os b = Some ((set_run n os (if flag then list_to_set (seqZ 0 n) else ∅)).1, b') ∧
    bm_rep b' n d (set_run n os (if flag then list_to_set (seqZ 0 n) else ∅)).2.
Proof.
  intros Hn Ho. destruct (bm_alloc_run (bm_null false) n flag eq_refl Hn) as (b & d & Hb & HR).
  destruct (bm_refines_run n os b d _ HR Ho) as (b' & d' & Hr & HR'). by exists b, b', d'.
Qed.
