(* ===== verification/DsFile.v ===== *)
(** Files of a data server: diskmanager/common/file_op.cpp on a disk that maps
    paths to contents.

    A script says how the system calls end: an error, or at most so many bytes (for
    [open], the descriptor).  A script that has run out is a disk without faults:
    [open] gives a descriptor and a transfer is complete.  The files of the model are
    not removed while they are open. *)
From S2P Require Import Prelude Bytes NetBuf.

Definition TFS_SUCCESS := 0.
Definition TFS_ERROR := 1.
Definition EXIT_FAILURE := 1.
Definition EXIT_DISK_OPER_INCOMPLETE := -8012.
Definition MAX_DISK_TIMES := 5.
Definition EBADF := 9.
Definition ENOENT := 2.
Definition EINVAL := 22.
Definition O_RDWR := 2.
Definition O_CREAT := 64.
Definition O_SYNC := 1052672.
Definition O_LARGEFILE := 0.

Inductive os_res := OsLen (n : nat) | OsErr (e : positive).
Record dsk := Dsk { d_files : gmap bytes bytes; d_os : list os_res; d_errno : Z }.
Record fop := FOp { fo_name : bytes; fo_fd : Z; fo_flags : Z }.

(** [FileOperation::FileOperation]. *)
Definition fop_new (name : bytes) (flags : Z) : fop := FOp name (-1) flags.

(** ** System calls *)

Definition set_errno (e : Z) (d : dsk) : dsk := Dsk (d_files d) (d_os d) e.
Definition next_os (d : dsk) : option os_res * dsk :=
  match d_os d with
  | [] => (None, d)
  | r :: os => (Some r, Dsk (d_files d) os (d_errno d))
  end.

(** [data] at [off]; a hole before it reads as zeros. *)
Definition file_write (off : nat) (data f : bytes) : bytes :=
  match data with
  | [] => f
  | _ => take off f ++ replicate (off - length f) 0 ++ data ++ drop (off + length data) f
  end.

Definition sys_open (name : bytes) (flags : Z) (d : dsk) : Z * dsk :=
  match next_os d with
  | (Some (OsErr e), d) => (-1, set_errno (Z.pos e) d)
  | (r, d) =>
      let fd := match r with Some (OsLen n) => Z.of_nat n | _ => 3 end in
      match d_files d !! name with
      | Some _ => (fd, d)
      | None =>
          if Z.land flags O_CREAT =? 0 then (-1, set_errno ENOENT d)
          else (fd, Dsk (<[name := []]> (d_files d)) (d_os d) (d_errno d))
      end
  end.

Definition transfer (r : option os_res) (left : nat) : nat :=
  match r with Some (OsLen n) => Nat.min n left | _ => left end.

Definition sys_pread (name : bytes) (left : nat) (off : Z) (d : dsk) : Z * bytes * dsk :=
  if off <? 0 then (-1, [], set_errno EINVAL d) else
  match next_os d with
  | (Some (OsErr e), d) => (-1, [], set_errno (Z.pos e) d)
  | (r, d) =>
      let data := take (transfer r left) (drop (Z.to_nat off) (default [] (d_files d !! name))) in
      (Z.of_nat (length data), data, d)
  end.
Definition sys_pwrite (name : bytes) (buf : bytes) (off : Z) (d : dsk) : Z * dsk :=
  if off <? 0 then (-1, set_errno EINVAL d) else
  match next_os d with
  | (Some (OsErr e), d) => (-1, set_errno (Z.pos e) d)
  | (r, d) =>
      let n := transfer r (length buf) in
      (Z.of_nat n, Dsk (<[name := file_write (Z.to_nat off) (take n buf) (default [] (d_files d !! name))]> (d_files d))
                       (d_os d) (d_errno d))
  end.
(** [fsync], [close], [ftruncate]: success or an error. *)
Definition sys_plain (d : dsk) : Z * dsk :=
  match next_os d with
  | (Some (OsErr e), d) => (-1, set_errno (Z.pos e) d)
  | (_, d) => (0, d)
  end.

(** ** FileOperation *)

Abbreviation FM := (M (fop * dsk)).

Definition set_fd (fd : Z) : FM unit := modify (λ s, (FOp (fo_name s.1) fd (fo_flags s.1), s.2)).
Definition fd : FM Z := gets (λ s, fo_fd s.1).
Definition errno : FM Z := gets (λ s, d_errno s.2).

(** The descriptor [open_file] finds is closed first. *)
Definition close_stale : FM unit :=
  f ← fd; whenM (0 <? f) (modify (λ s, (s.1, (sys_plain s.2).2));; set_fd (-1)).
Definition open_file : FM Z :=
  close_stale;;
  s ← get;
  let r := sys_open (fo_name s.1) (fo_flags s.1) s.2 in
  put (FOp (fo_name s.1) r.1 (fo_flags s.1), r.2);;
  if r.1 <? 0 then e ← errno; mret (- e) else mret r.1.

Definition check_file : FM Z :=
  f ← fd;
  whenM (f <? 0) (f ← open_file; set_fd f);;
  fd.

(** The loop of [pread_file] with [n] calls left: the code and what was read. *)
Fixpoint pread_loop (n : nat) (left : Z) (off : Z) (got : bytes) : FM (Z * bytes) :=
  if left <=? 0 then mret (if left =? 0 then TFS_SUCCESS else EXIT_DISK_OPER_INCOMPLETE, got) else
  match n with
  | O => mret (EXIT_DISK_OPER_INCOMPLETE, got)
  | S n =>
      c ← check_file;
      if c <? 0 then e ← errno; mret (- e, got) else
      s ← get;
      let r := sys_pread (fo_name s.1) (Z.to_nat left) off s.2 in
      put (s.1, r.2);;
      if r.1.1 <? 0 then
        e ← errno;
        if (e =? EINTR) || (e =? EAGAIN) then pread_loop n left off got
        else if e =? EBADF then set_fd (-1);; pread_loop n left off got
        else mret (- e, got)
      else if r.1.1 =? 0 then mret (EXIT_DISK_OPER_INCOMPLETE, got)
      else pread_loop n (left - r.1.1) (off + r.1.1) (got ++ r.1.2)
  end.
Definition pread_file (nbytes offset : Z) : FM (Z * bytes) :=
  pread_loop (Z.to_nat (MAX_DISK_TIMES - 1)) nbytes offset [].

Fixpoint pwrite_loop (n : nat) (buf : bytes) (off : Z) : FM Z :=
  if decide (buf = []) then mret TFS_SUCCESS else
  match n with
  | O => mret EXIT_DISK_OPER_INCOMPLETE
  | S n =>
      c ← check_file;
      if c <? 0 then e ← errno; mret (- e) else
      s ← get;
      let r := sys_pwrite (fo_name s.1) buf off s.2 in
      put (s.1, r.2);;
      if r.1 <? 0 then
        e ← errno;
        if (e =? EINTR) || (e =? EAGAIN) then pwrite_loop n buf off
        else if e =? EBADF then set_fd (-1);; pwrite_loop n buf off
        else mret (- e)
      else if r.1 =? 0 then mret EXIT_DISK_OPER_INCOMPLETE
      else pwrite_loop n (drop (Z.to_nat r.1) buf) (off + r.1)
  end.
(** [pwrite_file] of [nbytes = length buf] bytes. *)
Definition pwrite_file (buf : bytes) (offset : Z) : FM Z :=
  pwrite_loop (Z.to_nat (MAX_DISK_TIMES - 1)) buf offset.

Definition flush_file : FM Z :=
  s ← get;
  if negb (Z.land (fo_flags s.1) O_SYNC =? 0) then mret 0 else
  c ← check_file;
  if c <? 0 then mret c else
  s ← get;
  let r := sys_plain s.2 in put (s.1, r.2);; mret r.1.

(** ** What a transfer does, whatever the system calls do *)

Lemma file_write_nil off f : file_write off [] f = f.
Proof. done. Qed.
Lemma file_write_length off data f : (off + length data ≤ length f)%nat → length (file_write off data f) = length f.
Proof.
  intros H. destruct data as [|x data]; [done|]. unfold file_write.
  rewrite !length_app, length_take, length_replicate, length_drop. lia.
Qed.
Lemma file_write_in off data f : (off + length data ≤ length f)%nat →
  file_write off data f = take off f ++ data ++ drop (off + length data) f.
Proof.
  intros H. destruct data as [|x data]; simpl length in *.
  - simpl. by rewrite Nat.add_0_r, take_drop.
  - unfold file_write. replace (off - length f)%nat with 0%nat by lia. done.
Qed.
(** Two pieces one behind the other are one piece. *)
Lemma file_write_app off a b f :
  file_write (off + length a) b (file_write off a f) = file_write off (a ++ b) f.
Proof.
  destruct a as [|x a]; [simpl; by rewrite Nat.add_0_r|]. destruct b as [|y b]; [by rewrite app_nil_r|].
  remember (x :: a) as a' eqn:Ea. remember (y :: b) as b' eqn:Eb.
  assert (file_write off a' f = take off f ++ replicate (off - length f) 0 ++ a' ++ drop (off + length a') f) as Ha by (by subst).
  assert (∀ g o, file_write o b' g = take o g ++ replicate (o - length g) 0 ++ b' ++ drop (o + length b') g) as Hb by (by subst).
  assert (∀ g o, file_write o (a' ++ b') g = take o g ++ replicate (o - length g) 0 ++ (a' ++ b') ++ drop (o + length (a' ++ b')) g) as Hab by (by subst).
  rewrite Ha, Hb, Hab. clear Ha Hb Hab Ea Eb x a y b.
  set (pre := take off f ++ replicate (off - length f) 0).
  assert (length pre = off) as Hp by (unfold pre; rewrite length_app, length_take, length_replicate; lia).
  rewrite !(app_assoc (take off f)). fold pre. rewrite !(app_assoc pre a').
  assert (length (pre ++ a') = off + length a')%nat as Hpa by (rewrite length_app; lia).
  rewrite take_app_length' by done. rewrite length_app, Hpa.
  replace (off + length a' - (off + length a' + length (drop (off + length a') f)))%nat with 0%nat by lia. cbn [replicate app].
  rewrite drop_app_ge by lia. rewrite Hpa, drop_drop, length_app.
  rewrite <- !app_assoc. do 3 f_equal. f_equal. lia.
Qed.

Lemma file_write_back off data f : take (length data) (drop off (file_write off data f)) = data.
Proof.
  destruct data as [|x data]; [done|]. unfold file_write. rewrite app_assoc.
  rewrite drop_app_length' by (rewrite length_app, length_take, length_replicate; lia). by rewrite take_app_length.
Qed.
Lemma file_write_after off data f o : (off + length data ≤ o)%nat → drop o (file_write off data f) = drop o f.
Proof.
  intros Ho. destruct data as [|x data]; [done|]. unfold file_write.
  rewrite !app_assoc, <- (app_assoc (take _ _)). rewrite drop_app_ge; rewrite !length_app, length_take, length_replicate; [|lia].
  rewrite drop_drop. f_equal. lia.
Qed.
Lemma file_write_head k data h c : (k ≤ length data)%nat → (length data ≤ length h)%nat →
  ∃ h', file_write 0 (take k data) (h ++ c) = h' ++ c ∧ length h' = length h ∧
        (k = length data → take (length data) h' = data).
Proof.
  intros Hk Hl. exists (take k data ++ drop k h). rewrite file_write_in by (rewrite length_take, length_app; lia).
  rewrite length_take, Nat.min_l, Nat.add_0_l by lia. split_and!.
  - rewrite drop_app_le by lia. simpl. by rewrite app_assoc.
  - rewrite length_app, length_take, length_drop. lia.
  - intros ->. rewrite (take_ge data) by lia. by rewrite take_app_length.
Qed.

(** A disk that goes on as another: the same files but for those named, a later
    point of the script. *)
Definition later (d d' : dsk) : Prop := ∃ used, d_os d = used ++ d_os d'.
#[export] Instance later_preorder : PreOrder later.
Proof.
  split; [by exists []|]. intros x y z [u Hu] [v Hv]. exists (u ++ v). by rewrite Hu, Hv, app_assoc.
Qed.
Lemma later_nil d d' : later d d' → d_os d = [] → d_os d' = [].
Proof. intros [u Hu] H. rewrite H in Hu. symmetry in Hu. by apply app_nil in Hu as [_ ?]. Qed.

Lemma next_os_out d r d' : next_os d = (r, d') →
  later d d' ∧ d_files d' = d_files d ∧ d_errno d' = d_errno d ∧ (d_os d = [] → r = None).
Proof.
  unfold next_os. destruct (d_os d) as [|x os] eqn:E; intros [= <- <-]; [done|].
  split_and!; [by exists [x]|done..].
Qed.

(** What stays of a handle. *)
Definition same_file (p p' : fop) : Prop := fo_name p' = fo_name p ∧ fo_flags p' = fo_flags p.
#[export] Instance same_file_preorder : PreOrder same_file.
Proof. split; [done|]. intros x y z [??] [??]. split; congruence. Qed.

Lemma sys_open_out name flags d r d' f : d_files d !! name = Some f → sys_open name flags d = (r, d') →
  later d d' ∧ d_files d' = d_files d ∧ (0 ≤ r ∨ r = -1 ∧ 0 < d_errno d') ∧ (d_os d = [] → 0 ≤ r).
Proof.
  intros Hf. unfold sys_open. destruct (next_os d) as [x d1] eqn:Hn.
  destruct (next_os_out _ _ _ Hn) as (Hl & Hfs & He & Hq).
  destruct x as [[n|e]|].
  - rewrite Hfs, Hf. intros [= <- <-]. split_and!; [done..| |]; [left; lia|lia].
  - intros [= <- <-]. split_and!; [by destruct Hl as [u Hu]; exists u|done|right; simpl; lia|by intros ?%Hq].
  - rewrite Hfs, Hf. intros [= <- <-]. split_and!; [done..| |]; [left; lia|lia].
Qed.

Lemma close_stale_run p d : ∃ p' d',
  close_stale (p, d) = Some (tt, (p', d')) ∧ same_file p p' ∧ d_files d' = d_files d ∧ later d d'.
Proof.
  unfold close_stale, fd, set_fd, whenM. M_unfold. simpl. destruct (0 <? fo_fd p); [|by exists p, d].
  eexists _, _. split; [done|]. split; [done|]. simpl. unfold sys_plain.
  destruct (next_os d) as [x d1] eqn:Hn. destruct (next_os_out _ _ _ Hn) as (Hl & Hfs & He & Hq).
  by destruct x as [[n|e]|].
Qed.

Lemma open_file_run p d f : d_files d !! fo_name p = Some f → ∃ r p' d',
  open_file (p, d) = Some (r, (p', d')) ∧ same_file p p' ∧ d_files d' = d_files d ∧ later d d' ∧
  (0 ≤ r ∧ fo_fd p' = r ∨ r < 0 ∧ fo_fd p' = -1 ∧ r = - d_errno d') ∧ (d_os d = [] → 0 ≤ r).
Proof.
  intros Hf. destruct (close_stale_run p d) as (p1 & d1 & E & Hs & Hfs & Hl).
  unfold open_file. rewrite (M_bind_Some _ _ _ _ _ E). M_unfold. cbn [fst snd].
  destruct (sys_open (fo_name p1) (fo_flags p1) d1) as [r d2] eqn:Ho. cbn [fst snd].
  destruct Hs as [Hn1 Hn2]. rewrite <- Hfs, <- Hn1 in Hf.
  destruct (sys_open_out _ _ _ _ _ _ Hf Ho) as (Hl2 & Hfs2 & Hr & Hq).
  assert (d_os d = [] → d_os d1 = []) as Hq1 by (by apply later_nil).
  destruct (Z.ltb_spec r 0) as [Hneg|Hpos]; eexists _, _, _; (split; [done|]); (split; [by split|]);
    (split; [congruence|]); (split; [by etrans|]); simpl.
  - split; [right; lia|]. intros H. apply Hq1, Hq in H. lia.
  - split; [by left|done].
Qed.

Lemma check_file_run p d f : d_files d !! fo_name p = Some f → ∃ p' d',
  check_file (p, d) = Some (fo_fd p', (p', d')) ∧ same_file p p' ∧ d_files d' = d_files d ∧ later d d' ∧
  (0 ≤ fo_fd p' ∨ fo_fd p' < 0 ∧ 0 < d_errno d') ∧ (d_os d = [] → 0 ≤ fo_fd p').
Proof.
  intros Hf. unfold check_file, fd at 1 2. M_unfold. unfold whenM. simpl.
  destruct (Z.ltb_spec (fo_fd p) 0) as [Hneg|Hpos].
  - M_unfold. destruct (open_file_run p d f Hf) as (r & p' & d' & -> & [Hs1 Hs2] & Hfs & Hl & Hr & Hq).
    simpl. exists (FOp (fo_name p') r (fo_flags p')), d'. split; [done|]. simpl. split_and!; [done..|lia|done].
  - M_unfold. simpl. exists p, d. split_and!; [done..|by left|done].
Qed.

Lemma sys_pwrite_out name buf off d r d' f :
  d_files d !! name = Some f → buf ≠ [] → 0 ≤ off → sys_pwrite name buf off d = (r, d') →
  later d d' ∧
  (r = -1 ∧ d_files d' = d_files d ∧ 0 < d_errno d' ∧ d_os d ≠ [] ∨
   0 ≤ r ≤ Z.of_nat (length buf) ∧ d_files d' = <[name := file_write (Z.to_nat off) (take (Z.to_nat r) buf) f]> (d_files d) ∧
   (d_os d = [] → r = Z.of_nat (length buf))).
Proof.
  intros Hf Hb Ho. unfold sys_pwrite. destruct (Z.ltb_spec off 0); [lia|].
  destruct (next_os d) as [x d1] eqn:Hn. destruct (next_os_out _ _ _ Hn) as (Hl & Hfs & He & Hq).
  destruct x as [[n|e]|]; cbn [transfer]; intros [= <- <-].
  - split; [by destruct Hl as [u Hu]; exists u|]. right. split_and!; [lia..| |].
    + simpl. rewrite Hfs, Hf, Nat2Z.id. done.
    + by intros ?%Hq.
  - split; [by destruct Hl as [u Hu]; exists u|]. left. split_and!; [done|done|simpl; lia|]. intros ?%Hq. done.
  - split; [by destruct Hl as [u Hu]; exists u|]. right. split_and!; [lia..| |done].
    simpl. rewrite Hfs, Hf, Nat2Z.id. done.
Qed.

Lemma sys_pread_out name left off d r got d' f :
  d_files d !! name = Some f → (0 < left)%nat → 0 ≤ off → sys_pread name left off d = (r, got, d') →
  later d d' ∧ d_files d' = d_files d ∧
  (r = -1 ∧ 0 < d_errno d' ∧ d_os d ≠ [] ∨
   r = Z.of_nat (length got) ∧ (length got ≤ left)%nat ∧ got = take (length got) (drop (Z.to_nat off) f) ∧
   (d_os d = [] → got = take left (drop (Z.to_nat off) f))).
Proof.
  intros Hf Hb Ho. unfold sys_pread. destruct (Z.ltb_spec off 0); [lia|].
  destruct (next_os d) as [x d1] eqn:Hn. destruct (next_os_out _ _ _ Hn) as (Hl & Hfs & He & Hq).
  assert (∀ n, take n (drop (Z.to_nat off) f) = take (length (take n (drop (Z.to_nat off) f))) (drop (Z.to_nat off) f)) as Ht.
  { intros n. rewrite length_take. destruct (decide (n ≤ length (drop (Z.to_nat off) f))%nat); [by rewrite Nat.min_l|].
    rewrite Nat.min_r by lia. by rewrite !take_ge by lia. }
  destruct x as [[n|e]|]; cbn [transfer]; rewrite ?Hfs, ?Hf; intros [= <- <- <-]; cbn [default].
  - split_and!; [by destruct Hl as [u Hu]; exists u|done|]. right. split_and!; [done| |apply Ht|by intros ?%Hq].
    rewrite length_take. lia.
  - split_and!; [by destruct Hl as [u Hu]; exists u|done|]. left. split_and!; [done|simpl; lia|]. by intros ?%Hq.
  - split_and!; [by destruct Hl as [u Hu]; exists u|done|]. right. split_and!; [done| |apply Ht|done].
    rewrite length_take. lia.
Qed.

(** The outcome of a write of [buf] at [off] into the file [f] of [p]: a prefix of
    the data is in the file, all of it exactly when the code is success, and a
    disk without faults takes all of it. *)
Definition write_out (p : fop) (d : dsk) (f buf : bytes) (off : Z) (calls : bool)
    (res : option (Z * (fop * dsk))) : Prop := ∃ code p' d' k,
  res = Some (code, (p', d')) ∧ same_file p p' ∧ later d d' ∧ (k ≤ length buf)%nat ∧
  d_files d' = <[fo_name p := file_write (Z.to_nat off) (take k buf) f]> (d_files d) ∧
  (code = TFS_SUCCESS ∧ k = length buf ∨ code < 0 ∧ (k < length buf)%nat) ∧
  (d_os d = [] → calls = true → code = TFS_SUCCESS).

(** Nothing was written. *)
Lemma write_out_none p d f buf off calls code p' d' :
  d_files d !! fo_name p = Some f → buf ≠ [] → code < 0 → same_file p p' → later d d' →
  d_files d' = d_files d → (d_os d = [] → calls = true → False) →
  write_out p d f buf off calls (Some (code, (p', d'))).
Proof.
  intros Hf Hb Hc Hs Hl Hfs Hq. exists code, p', d', 0%nat. assert (length buf ≠ 0%nat) by (by destruct buf).
  simpl. rewrite Hfs, insert_id by done. split_and!; [done..|lia|done|right; lia|]. intros H1 H2. by destruct Hq.
Qed.
(** Going on after [k] bytes. *)
Lemma write_out_step p d f buf off calls calls' p1 d1 k res :
  same_file p p1 → later d d1 → (k ≤ length buf)%nat → 0 ≤ off →
  d_files d1 = <[fo_name p := file_write (Z.to_nat off) (take k buf) f]> (d_files d) →
  (d_os d = [] → calls = true → calls' = true ∨ k = length buf) →
  write_out p1 d1 (file_write (Z.to_nat off) (take k buf) f) (drop k buf) (off + Z.of_nat k) calls' res →
  write_out p d f buf off calls res.
Proof.
  intros Hs Hl Hk Ho Hfs Hq (code & p2 & d2 & j & -> & Hs2 & Hl2 & Hj & Hfs2 & Hc & Hq2).
  rewrite length_drop in *. destruct Hs as [Hn Hg].
  assert (take (k + j) buf = take k buf ++ take j (drop k buf)) as Ht by (by rewrite take_take_drop).
  exists code, p2, d2, (k + j)%nat. split_and!.
  - done.
  - by etrans; [split|].
  - by etrans.
  - lia.
  - rewrite Hfs2, Hfs, Hn, insert_insert_eq, Ht. f_equal.
    replace (Z.to_nat (off + Z.of_nat k)) with (Z.to_nat off + length (take k buf))%nat by (rewrite length_take; lia).
    apply file_write_app.
  - destruct Hc as [[-> Hj2]|[? ?]]; [left|right]; split; [done|lia|done|lia].
  - intros H0 Hcl. assert (d_os d1 = []) as H1 by (by eapply later_nil). destruct (Hq H0 Hcl) as [Hcl'|Hfull]; [by apply Hq2|].
    destruct Hc as [[-> _]|[_ ?]]; [done|lia].
Qed.

Lemma pwrite_loop_run n p d f buf off :
  d_files d !! fo_name p = Some f → 0 ≤ off →
  write_out p d f buf off (0 <? n)%nat (pwrite_loop n buf off (p, d)).
Proof.
  revert p d f buf off. induction n as [|n IH]; intros p d f buf off Hf Ho; cbn [pwrite_loop];
    (destruct (decide (buf = [])) as [->|Hne];
     [exists TFS_SUCCESS, p, d, 0%nat; simpl; rewrite insert_id by done; split_and!; [done|done|done|lia|done|by left|done]|]).
  - by apply write_out_none.
  - destruct (check_file_run p d f Hf) as (p1 & d1 & E & Hs1 & Hfs1 & Hl1 & Hc & Hq1).
    rewrite (M_bind_Some _ _ _ _ _ E). unfold errno, set_fd.
    destruct (Z.ltb_spec (fo_fd p1) 0) as [Hneg|Hpos].
    { M_unfold. apply write_out_none; try done; [simpl; lia|]. intros H0%Hq1. lia. }
    M_unfold. cbn [fst snd].
    destruct (sys_pwrite (fo_name p1) buf off d1) as [r d2] eqn:Hw. cbn [fst snd].
    pose proof Hs1 as [Hn1 Hn2].
    assert (d_files d1 !! fo_name p1 = Some f) as Hf1 by (by rewrite Hfs1, Hn1).
    destruct (sys_pwrite_out _ _ _ _ _ _ _ Hf1 Hne Ho Hw) as [Hl2 [(-> & Hfs2 & He & Hos)|(Hr & Hfs2 & Hq2)]].
    + assert (d_os d ≠ []) as Hos' by (intros H0; by rewrite (later_nil _ _ Hl1 H0) in Hos).
      assert (later d d2) by (by etrans). assert (d_files d2 = d_files d) as Hfs3 by congruence.
      assert (∀ p2, same_file p p2 → write_out p d f buf off true (pwrite_loop n buf off (p2, d2))) as Hagain.
      { intros p2 Hs2. eapply (write_out_step _ _ _ _ _ true _ p2 d2 0); [done..|lia|done| |by intros H0|].
        - simpl. by rewrite Hfs3, insert_id.
        - rewrite Z.add_0_r. apply IH; [|done]. destruct Hs2 as [-> _]. by rewrite Hfs3. }
      cbn [Z.ltb Z.compare fst snd].
      destruct ((d_errno d2 =? EINTR) || (d_errno d2 =? EAGAIN)); [by apply Hagain|].
      destruct (d_errno d2 =? EBADF); [by apply Hagain|]. apply write_out_none; try done; simpl; lia.
    + destruct (Z.ltb_spec r 0); [lia|]. rewrite Hn1, Hfs1 in Hfs2.
      destruct (Z.eqb_spec r 0) as [->|Hr0].
      { apply write_out_none; try done; [by etrans| |].
        - rewrite Hfs2. simpl. by rewrite insert_id.
        - intros H0 _. assert (length buf ≠ 0%nat) by (by destruct buf).
          specialize (Hq2 (later_nil _ _ Hl1 H0)). lia. }
      eapply (write_out_step _ _ _ _ _ _ _ p1 d2 (Z.to_nat r)); [done|by etrans|lia|done|done| |].
      * intros H0 _. right. specialize (Hq2 (later_nil _ _ Hl1 H0)). lia.
      * rewrite Z2Nat.id by lia. apply IH; [|lia]. by rewrite Hfs2, Hn1, lookup_insert_eq.
Qed.

(** The outcome of a read: success with all the bytes asked for, or an error with
    other than that many. *)
Definition read_out (p : fop) (d : dsk) (f : bytes) (cnt off : Z) (got : bytes) (calls : bool)
    (res : option (Z * bytes * (fop * dsk))) : Prop := ∃ code data p' d',
  res = Some (code, got ++ data, (p', d')) ∧ same_file p p' ∧ later d d' ∧ d_files d' = d_files d ∧
  data = take (length data) (drop (Z.to_nat off) f) ∧ Z.of_nat (length data) ≤ Z.max 0 cnt ∧
  (code = TFS_SUCCESS ∧ Z.of_nat (length data) = cnt ∨ code < 0 ∧ Z.of_nat (length data) ≠ cnt) ∧
  (d_os d = [] → calls = true → 0 ≤ cnt → (Z.to_nat off + Z.to_nat cnt ≤ length f)%nat → code = TFS_SUCCESS).

Lemma read_out_none p d f cnt off got calls code p' d' :
  code < 0 → cnt ≠ 0 → same_file p p' → later d d' → d_files d' = d_files d →
  (d_os d = [] → calls = true → 0 ≤ cnt → (Z.to_nat off + Z.to_nat cnt ≤ length f)%nat → False) →
  read_out p d f cnt off got calls (Some (code, got, (p', d'))).
Proof.
  intros Hc Hcnt Hs Hl Hfs Hq. exists code, [], p', d'. rewrite app_nil_r. split_and!; try done; [simpl; lia|right; simpl; lia|].
  intros. by destruct Hq.
Qed.
Lemma read_out_step p d f cnt off got calls calls' p1 d1 data res :
  same_file p p1 → later d d1 → d_files d1 = d_files d → 0 ≤ off → Z.of_nat (length data) ≤ cnt →
  data = take (length data) (drop (Z.to_nat off) f) →
  (d_os d = [] → calls = true → (Z.to_nat off + Z.to_nat cnt ≤ length f)%nat → calls' = true ∨ Z.of_nat (length data) = cnt) →
  read_out p1 d1 f (cnt - Z.of_nat (length data)) (off + Z.of_nat (length data)) (got ++ data) calls' res →
  (calls' = false → cnt = Z.of_nat (length data) → ∃ p2 d2, res = Some (TFS_SUCCESS, got ++ data, (p2, d2))) →
  read_out p d f cnt off got calls res.
Proof.
  intros Hs Hl Hfs Ho Hd Hda Hq (code & more & p2 & d2 & -> & Hs2 & Hl2 & Hfs2 & Hmo & Hm & Hc & Hq2) Hz.
  exists code, (data ++ more), p2, d2. split_and!.
  - by rewrite app_assoc.
  - by etrans.
  - by etrans.
  - congruence.
  - rewrite length_app, <- take_take_drop, <- Hda. f_equal. rewrite drop_drop.
    replace (Z.to_nat (off + Z.of_nat (length data))) with (Z.to_nat off + length data)%nat in Hmo by lia. done.
  - rewrite length_app. lia.
  - rewrite length_app. destruct Hc as [[-> ?]|[? ?]]; [left; split; [done|lia]|right; lia].
  - intros H0 Hcl H1 H2. assert (d_os d1 = []) as H3 by (by eapply later_nil).
    destruct calls'; [apply Hq2; [done|done|lia|lia]|]. destruct (Hq H0 Hcl H2) as [?|Hfull]; [done|].
    destruct Hz as (p3 & d3 & [= -> _ _ _]); [done|lia|done].
Qed.

Lemma pread_loop_run n p d f cnt off got :
  d_files d !! fo_name p = Some f → 0 ≤ off →
  read_out p d f cnt off got (0 <? n)%nat (pread_loop n cnt off got (p, d)) ∧
  (cnt = 0 → pread_loop n cnt off got (p, d) = Some (TFS_SUCCESS, got, (p, d))).
Proof.
  revert p d cnt off got. induction n as [|n IH]; intros p d cnt off got Hf Ho; cbn [pread_loop];
    (destruct (Z.leb_spec cnt 0) as [Hle|Hlt];
     [M_unfold; split;
      [destruct (Z.eqb_spec cnt 0) as [->|];
        [exists TFS_SUCCESS, [], p, d; rewrite app_nil_r; split_and!; try done; by left
        |by apply read_out_none; try done; lia]|by intros ->]|]); (split; [|lia]).
  - by apply read_out_none; try done; lia.
  - destruct (check_file_run p d f Hf) as (p1 & d1 & E & Hs1 & Hfs1 & Hl1 & Hc & Hq1).
    rewrite (M_bind_Some _ _ _ _ _ E). unfold errno, set_fd.
    destruct (Z.ltb_spec (fo_fd p1) 0) as [Hneg|Hpos].
    { M_unfold. apply read_out_none; try done; [simpl; lia|lia|]. intros H0%Hq1. lia. }
    M_unfold. cbn [fst snd].
    destruct (sys_pread (fo_name p1) (Z.to_nat cnt) off d1) as [[r data] d2] eqn:Hw. cbn [fst snd].
    pose proof Hs1 as [Hn1 Hn2].
    assert (d_files d1 !! fo_name p1 = Some f) as Hf1 by (by rewrite Hfs1, Hn1).
    assert (0 < Z.to_nat cnt)%nat as Hlp by lia.
    destruct (sys_pread_out _ _ _ _ _ _ _ _ Hf1 Hlp Ho Hw) as [Hl2 [Hfs2 [(-> & He & Hos)|(-> & Hr & Hd & Hq2)]]].
    + assert (d_os d ≠ []) as Hos' by (intros H0; by rewrite (later_nil _ _ Hl1 H0) in Hos).
      assert (later d d2) by (by etrans). assert (d_files d2 = d_files d) as Hfs3 by congruence.
      assert (∀ p2, same_file p p2 → read_out p d f cnt off got true (pread_loop n cnt off got (p2, d2))) as Hagain.
      { intros p2 Hs2. eapply (read_out_step _ _ _ _ _ _ true _ p2 d2 []); try done; [simpl; lia| |].
        - simpl. rewrite Z.add_0_r, Z.sub_0_r, app_nil_r. apply IH; [|done]. destruct Hs2 as [-> _]. by rewrite Hfs3.
        - simpl. lia. }
      cbn [Z.ltb Z.compare fst snd].
      destruct ((d_errno d2 =? EINTR) || (d_errno d2 =? EAGAIN)); [by apply Hagain|].
      destruct (d_errno d2 =? EBADF); [by apply Hagain|]. apply read_out_none; try done; simpl; lia.
    + destruct (Z.ltb_spec (Z.of_nat (length data)) 0); [lia|].
      assert (d_os d = [] → (Z.to_nat off + Z.to_nat cnt ≤ length f)%nat → Z.of_nat (length data) = cnt) as Hfull.
      { intros H0 H1. rewrite (Hq2 (later_nil _ _ Hl1 H0)), length_take, length_drop. lia. }
      destruct (Z.eqb_spec (Z.of_nat (length data)) 0) as [Hz|Hz].
      { apply read_out_none; try done; [lia|by etrans|congruence|]. intros H0 _ _ H1. specialize (Hfull H0 H1). lia. }
      destruct (IH p1 d2 (cnt - Z.of_nat (length data)) (off + Z.of_nat (length data)) (got ++ data)) as [H1 H2];
        [by rewrite Hfs2, Hfs1, Hn1|lia|].
      eapply (read_out_step _ _ _ _ _ _ _ _ p1 d2 data); [done|by etrans|congruence|done|lia|done| |exact H1|].
      * intros H0 _ Hlen. right. by apply Hfull.
      * intros _ Hl0. rewrite H2 by lia. by eexists _, _.
Qed.

(** C14: a transfer of file_op.cpp ends after at most four system calls whatever they
    return.  A write has put a prefix of its data at the offset, and returns 0 exactly
    when this is all of it; a read returns 0 exactly when it has all the bytes of
    the file that were asked for; every other code is negative and comes with
    fewer, or with none when a negative number is asked for.  Without faults of the disk a
    write, and a read inside the file, succeed. *)
Theorem file_transfers p d f :
  d_files d !! fo_name p = Some f →
  (∀ buf off, 0 ≤ off → write_out p d f buf off true (pwrite_file buf off (p, d))) ∧
  (∀ nbytes off, 0 ≤ off → read_out p d f nbytes off [] true (pread_file nbytes off (p, d))).
Proof.
  intros Hf. split; intros x off Ho; [by apply (pwrite_loop_run 4)|by apply (pread_loop_run 4)].
Qed.
