(* ===== verification/DsBlock.v ===== *)
(** The files of a data server's disk: diskmanager/src/physical_block.cpp and
    diskmanager/src/superblock_impl.cpp, with the memory images of the structures
    they hold (BlockPrefix, SuperBlock) on a little-endian 64-bit host.

    Signed additions wrap around. *)
From Stdlib Require Import (notations) String.
From S2P Require Import Prelude Bytes Text Bitmap DsFile.

Definition EXIT_PHYSIC_BLOCK_OFFSET_ERROR := -8033.
Definition BLOCK_RESERVER_LENGTH := 512.
Definition MAX_DEV_TAG_LEN := 8.
Definition MAX_DEV_NAME_LEN := 128.

(** ** Structures as bytes *)

(** Cutting bytes into fields. *)
Fixpoint fields (ws : list nat) (b : bytes) : list bytes :=
  match ws with [] => [] | w :: ws => take w b :: fields ws (drop w b) end.

Record prefix := Prefix { px_fileid : Z; px_chunkid : Z; px_prev : Z; px_next : Z }.
Definition prefix0 : prefix := Prefix 0 0 0 0.
Definition sizeof_prefix : Z := 20.
Definition enc_prefix (p : prefix) : bytes :=
  le_bytes 8 (px_fileid p) ++ le_bytes 4 (px_chunkid p) ++ le_bytes 4 (px_prev p) ++ le_bytes 4 (px_next p).
Definition dec_prefix (b : bytes) : prefix :=
  match fields [8; 4; 4; 4]%nat b with
  | [f; c; p; n] => Prefix (le_val f) (le_val c) (le_val p) (le_val n)
  | _ => prefix0
  end.

(** [SuperBlock]: the floats as their 32 bits, the padding behind the mount point
    as it is in memory, [mmap_option_] as its twelve bytes. *)
Record superblock := SB {
  sb_mount_tag : bytes; sb_time : Z; sb_mount_point : bytes; sb_padding : bytes;
  sb_mount_point_use_space : Z; sb_base_fs_type : Z;
  sb_superblock_reserve_offset : Z; sb_bitmap_start_offset : Z; sb_block_type_ratio : Z;
  sb_main_block_count : Z; sb_main_block_size : Z; sb_extend_block_count : Z; sb_extend_block_size : Z;
  sb_used_block_count : Z; sb_used_extend_block_count : Z;
  sb_hash_slot_ratio : Z; sb_hash_slot_size : Z; sb_mmap_option : bytes; sb_version : Z }.
Definition sizeof_superblock : Z := 216.
Definition sb_widths : list nat := [8; 4; 128; 4; 8; 4; 4; 4; 4; 4; 4; 4; 4; 4; 4; 4; 4; 12; 4]%nat.
Definition sb_fields (s : superblock) : list bytes :=
  [sb_mount_tag s; le_bytes 4 (sb_time s); sb_mount_point s; sb_padding s;
   le_bytes 8 (sb_mount_point_use_space s); le_bytes 4 (sb_base_fs_type s);
   le_bytes 4 (sb_superblock_reserve_offset s); le_bytes 4 (sb_bitmap_start_offset s); le_bytes 4 (sb_block_type_ratio s);
   le_bytes 4 (sb_main_block_count s); le_bytes 4 (sb_main_block_size s);
   le_bytes 4 (sb_extend_block_count s); le_bytes 4 (sb_extend_block_size s);
   le_bytes 4 (sb_used_block_count s); le_bytes 4 (sb_used_extend_block_count s);
   le_bytes 4 (sb_hash_slot_ratio s); le_bytes 4 (sb_hash_slot_size s); sb_mmap_option s; le_bytes 4 (sb_version s)].
Definition enc_superblock (s : superblock) : bytes := mjoin (sb_fields s).
Definition le_i32 (b : bytes) : Z := i32 (le_val b).
Definition i64 (z : Z) : Z := if u64 z <? 2 ^ 63 then u64 z else u64 z - 2 ^ 64.
Definition sb0 : superblock := SB (replicate 8 0) 0 (replicate 128 0) (replicate 4 0) 0 0 0 0 0 0 0 0 0 0 0 0 0 (replicate 12 0) 0.
Definition dec_superblock (b : bytes) : superblock :=
  match fields sb_widths b with
  | [tag; tm; mp; pad; us; bf; ro; bo; ra; mc; ms; ec; es; ub; ue; hr; hs; mm; ve] =>
      SB tag (le_i32 tm) mp pad (i64 (le_val us)) (le_i32 bf) (le_i32 ro) (le_i32 bo) (le_val ra)
         (le_i32 mc) (le_i32 ms) (le_i32 ec) (le_i32 es) (le_i32 ub) (le_i32 ue) (le_val hr) (le_i32 hs) mm (le_i32 ve)
  | _ => sb0
  end.

Definition set_used (u : Z) (s : superblock) : superblock :=
  SB (sb_mount_tag s) (sb_time s) (sb_mount_point s) (sb_padding s) (sb_mount_point_use_space s) (sb_base_fs_type s)
     (sb_superblock_reserve_offset s) (sb_bitmap_start_offset s) (sb_block_type_ratio s) (sb_main_block_count s)
     (sb_main_block_size s) (sb_extend_block_count s) (sb_extend_block_size s) u (sb_used_extend_block_count s)
     (sb_hash_slot_ratio s) (sb_hash_slot_size s) (sb_mmap_option s) (sb_version s).
Definition set_used_ext (u : Z) (s : superblock) : superblock :=
  SB (sb_mount_tag s) (sb_time s) (sb_mount_point s) (sb_padding s) (sb_mount_point_use_space s) (sb_base_fs_type s)
     (sb_superblock_reserve_offset s) (sb_bitmap_start_offset s) (sb_block_type_ratio s) (sb_main_block_count s)
     (sb_main_block_size s) (sb_extend_block_count s) (sb_extend_block_size s) (sb_used_block_count s) u
     (sb_hash_slot_ratio s) (sb_hash_slot_size s) (sb_mmap_option s) (sb_version s).
Definition set_mount_point (m : bytes) (s : superblock) : superblock :=
  SB (sb_mount_tag s) (sb_time s) m (sb_padding s) (sb_mount_point_use_space s) (sb_base_fs_type s)
     (sb_superblock_reserve_offset s) (sb_bitmap_start_offset s) (sb_block_type_ratio s) (sb_main_block_count s)
     (sb_main_block_size s) (sb_extend_block_count s) (sb_extend_block_size s) (sb_used_block_count s) (sb_used_extend_block_count s)
     (sb_hash_slot_ratio s) (sb_hash_slot_size s) (sb_mmap_option s) (sb_version s).

(** ** PhysicalBlock *)

Inductive block_type := C_MAIN_BLOCK | C_EXT_BLOCK | C_COMPACT_BLOCK | C_CONFUSE_BLOCK.
#[export] Instance block_type_eq_dec : EqDecision block_type.
Proof. solve_decision. Defined.

Record pblock := PB {
  pb_physical_block_id : Z;
  pb_data_start : Z;
  pb_total_data_len : Z;
  pb_block_prefix : prefix;
  pb_file_op : fop }.

(** What [>>] reads of a stream: the first word. *)
Fixpoint word (s : bytes) : bytes :=
  match s with c :: s => if is_space c then [] else c :: word s | [] => [] end.

Definition MAINBLOCK_DIR_PREFIX : bytes := lit "/".
Definition EXTENDBLOCK_DIR_PREFIX : bytes := lit "/extend/".
Definition SUPERBLOCK_NAME : bytes := lit "/fs_super".
Definition block_path (mount : bytes) (ty : block_type) (id : Z) : bytes :=
  word (skip_space (mount ++ (if decide (ty = C_MAIN_BLOCK) then MAINBLOCK_DIR_PREFIX else EXTENDBLOCK_DIR_PREFIX) ++ fmt_u id)).

(** The constructor; its prefix is set before anything reads it. *)
Definition pb_new (id : Z) (mount : bytes) (block_length : Z) (ty : block_type) : option pblock :=
  let total := i32 (block_length - BLOCK_RESERVER_LENGTH) in
  if total <=? 0 then None else
  Some (PB id BLOCK_RESERVER_LENGTH total prefix0 (fop_new (block_path mount ty id) (Z.lor O_RDWR O_LARGEFILE))).

Definition pb_set_prefix (p : prefix) (b : pblock) : pblock :=
  PB (pb_physical_block_id b) (pb_data_start b) (pb_total_data_len b) p (pb_file_op b).
Definition pb_set_file (f : fop) (b : pblock) : pblock :=
  PB (pb_physical_block_id b) (pb_data_start b) (pb_total_data_len b) (pb_block_prefix b) f.
Definition set_next_block (next : Z) (b : pblock) : pblock :=
  let p := pb_block_prefix b in pb_set_prefix (Prefix (px_fileid p) (px_chunkid p) (px_prev p) next) b.
Definition clear_block_prefix (b : pblock) : pblock := pb_set_prefix prefix0 b.

Abbreviation PBM := (M (pblock * dsk)).
Definition pb_file {A} (m : FM A) : PBM A :=
  zoom (λ s, (pb_file_op s.1, s.2)) (λ t s, (pb_set_file t.1 s.1, t.2)) m.

Definition pread_data (nbytes offset : Z) : PBM (Z * bytes) :=
  s ← get;
  if pb_total_data_len s.1 <? i32 (offset + nbytes) then mret (EXIT_PHYSIC_BLOCK_OFFSET_ERROR, []) else
  pb_file (pread_file nbytes (i32 (pb_data_start s.1 + offset))).
Definition pwrite_data (buf : bytes) (offset : Z) : PBM Z :=
  s ← get;
  if pb_total_data_len s.1 <? i32 (offset + Z.of_nat (length buf)) then mret EXIT_PHYSIC_BLOCK_OFFSET_ERROR else
  pb_file (pwrite_file buf (i32 (pb_data_start s.1 + offset))).

(** A structure that was cleared before so many of its bytes were read. *)
Definition filled (n : Z) (got : bytes) : bytes := got ++ replicate (Z.to_nat n - length got) 0.

Definition load_block_prefix : PBM Z :=
  r ← pb_file (pread_file sizeof_prefix 0);
  modify (λ s, (pb_set_prefix (dec_prefix (filled sizeof_prefix r.2)) s.1, s.2));;
  mret r.1.
Definition dump_block_prefix : PBM Z :=
  s ← get; pb_file (pwrite_file (enc_prefix (pb_block_prefix s.1)) 0).

(** ** SuperBlockImpl *)

Record sbimpl := SBI { si_super_reserve_offset : Z; si_bitmap_start_offset : Z; si_file_op : fop }.
Abbreviation SIM := (M (sbimpl * dsk)).
Definition si_set_file (f : fop) (s : sbimpl) : sbimpl := SBI (si_super_reserve_offset s) (si_bitmap_start_offset s) f.
Definition si_file {A} (m : FM A) : SIM A :=
  zoom (λ s, (si_file_op s.1, s.2)) (λ t s, (si_set_file t.1 s.1, t.2)) m.

Definition si_new (mount_name : bytes) (super_start_offset : Z) (flag : bool) : sbimpl :=
  SBI super_start_offset (i32 (super_start_offset + 2 * sizeof_superblock + 4))
      (fop_new (if flag then mount_name ++ SUPERBLOCK_NAME else mount_name) (Z.lor O_RDWR O_SYNC)).
Definition read_super_blk : SIM (Z * superblock) :=
  s ← get;
  r ← si_file (pread_file sizeof_superblock (si_super_reserve_offset s.1));
  mret (r.1, dec_superblock (filled sizeof_superblock r.2)).
(** Two copies, in a buffer from [new[]] that the code gives back with [delete]; for the
    characters it holds that is taken to do what [delete[]] does. *)
Definition write_super_blk (sb : superblock) : SIM Z :=
  s ← get;
  si_file (pwrite_file (enc_superblock sb ++ enc_superblock sb) (si_super_reserve_offset s.1)).
(** [memcmp] of the tag with its terminating zero. *)
Definition check_status (block_tag : bytes) (sb : superblock) : bool :=
  bool_decide (take (S (length block_tag)) (sb_mount_tag sb) = block_tag ++ [0]).
Definition read_bit_map (size : Z) : SIM (Z * bytes) :=
  s ← get; si_file (pread_file size (si_bitmap_start_offset s.1)).
Definition write_bit_map (normal error : bitmap) : SIM Z :=
  if negb (bm_slot_count normal =? bm_slot_count error) then ub else
  n ← lift (bm_data normal); e ← lift (bm_data error);
  let size := Z.to_nat (bm_slot_count normal) in
  if (length n <? size)%nat || (length e <? size)%nat then ub else
  s ← get;
  si_file (pwrite_file (take size n ++ take size n ++ take size e ++ take size e) (si_bitmap_start_offset s.1)).
Definition si_flush_file : SIM Z := si_file flush_file.

(** ** The structures survive the disk *)

Lemma fields_concat ws fs : map length fs = ws → fields ws (mjoin fs) = fs.
Proof.
  intros <-. induction fs as [|f fs IH]; [done|]. simpl.
  by rewrite take_app_length, drop_app_length, IH.
Qed.
Lemma length_mjoin {A} (fs : list (list A)) : length (mjoin fs) = sum_list (map length fs).
Proof. induction fs as [|f fs IH]; [done|]. simpl. rewrite length_app, IH. done. Qed.
Lemma i32_mod z : i32 (z `mod` 2 ^ 32) = i32 z.
Proof. unfold i32, u32. by rewrite Z.mod_mod. Qed.
Lemma i64_small z : - 2 ^ 63 ≤ z < 2 ^ 63 → i64 (z `mod` 2 ^ 64) = z.
Proof.
  intros H. unfold i64, u64. rewrite Z.mod_mod by lia. destruct (decide (0 ≤ z)).
  - rewrite Z.mod_small by lia. destruct (Z.ltb_spec z (2 ^ 63)); lia.
  - assert (z `mod` 2 ^ 64 = z + 2 ^ 64) as ->.
    { symmetry. apply (Z.mod_unique_pos _ _ (-1)); lia. }
    destruct (Z.ltb_spec (z + 2 ^ 64) (2 ^ 63)); lia.
Qed.
Lemma le_i32_bytes z : - 2 ^ 31 ≤ z < 2 ^ 31 → le_i32 (le_bytes 4 z) = z.
Proof. intros H. unfold le_i32. rewrite le_val_bytes. change (256 ^ Z.of_nat 4) with (2 ^ 32). by rewrite i32_mod, i32_small. Qed.
Lemma le_u32_bytes z : is_u32 z → le_val (le_bytes 4 z) = z.
Proof. intros H. rewrite le_val_bytes. apply Z.mod_small. done. Qed.
Lemma le_u64_bytes z : is_u64 z → le_val (le_bytes 8 z) = z.
Proof. intros H. rewrite le_val_bytes. apply Z.mod_small. done. Qed.

Definition prefix_ok (p : prefix) : Prop :=
  is_u64 (px_fileid p) ∧ is_u32 (px_chunkid p) ∧ is_u32 (px_prev p) ∧ is_u32 (px_next p).
Lemma enc_prefix_length p : length (enc_prefix p) = 20%nat.
Proof. unfold enc_prefix. by rewrite !length_app, !le_bytes_length. Qed.
Lemma dec_enc_prefix p : prefix_ok p → dec_prefix (enc_prefix p) = p.
Proof.
  intros (H1 & H2 & H3 & H4). unfold dec_prefix.
  replace (enc_prefix p) with (mjoin [le_bytes 8 (px_fileid p); le_bytes 4 (px_chunkid p); le_bytes 4 (px_prev p); le_bytes 4 (px_next p)])
    by (unfold enc_prefix; cbn [mjoin list_join]; by rewrite app_nil_r).
  rewrite fields_concat by (cbn [map]; by rewrite !le_bytes_length).
  rewrite le_u64_bytes, !le_u32_bytes by done. by destruct p.
Qed.

Definition is_i32 (z : Z) : Prop := - 2 ^ 31 ≤ z < 2 ^ 31.
Record sb_ok (s : superblock) : Prop := SBOk {
  sbo_tag : length (sb_mount_tag s) = 8%nat; sbo_mp : length (sb_mount_point s) = 128%nat;
  sbo_pad : length (sb_padding s) = 4%nat; sbo_mm : length (sb_mmap_option s) = 12%nat;
  sbo_us : - 2 ^ 63 ≤ sb_mount_point_use_space s < 2 ^ 63;
  sbo_ra : is_u32 (sb_block_type_ratio s); sbo_hr : is_u32 (sb_hash_slot_ratio s);
  sbo_ints : Forall is_i32 [sb_time s; sb_base_fs_type s; sb_superblock_reserve_offset s; sb_bitmap_start_offset s;
    sb_main_block_count s; sb_main_block_size s; sb_extend_block_count s; sb_extend_block_size s;
    sb_used_block_count s; sb_used_extend_block_count s; sb_hash_slot_size s; sb_version s] }.

Lemma sb_fields_widths s : sb_ok s → map length (sb_fields s) = sb_widths.
Proof. intros H. unfold sb_fields. cbn [map]. rewrite !le_bytes_length. destruct H. by rewrite sbo_tag0, sbo_mp0, sbo_pad0, sbo_mm0. Qed.
Lemma enc_superblock_length s : sb_ok s → length (enc_superblock s) = 216%nat.
Proof.
  intros H. unfold enc_superblock. by rewrite length_mjoin, sb_fields_widths.
Qed.
Lemma dec_enc_superblock s : sb_ok s → dec_superblock (enc_superblock s) = s.
Proof.
  intros H. unfold dec_superblock, enc_superblock. rewrite fields_concat by (by apply sb_fields_widths).
  unfold sb_fields. destruct H as [? ? ? ? Hus Hra Hhr Hi]. repeat (apply Forall_cons in Hi as [? Hi]).
  rewrite !le_i32_bytes by done. rewrite !le_u32_bytes by done.
  rewrite le_val_bytes. change (256 ^ Z.of_nat 8) with (2 ^ 64). rewrite i64_small by done. by destruct s.
Qed.
