(* ===== verification/BlockStore.v ===== *)
(** The block store of a data server: the maps of blocks of
    diskmanager/src/blockfile_manager.cpp, its operations on blocks and the part of
    diskmanager/src/logic_block.cpp that keeps the list of physical blocks.

    PhysicalBlock and LogicBlock objects live in two heaps and are shared by address
    between the maps, the lists and the caller; a use of an object that was deleted
    is undefined behaviour, and a failed [assert] ends the program likewise.  Every
    operation runs under the manager's lock; the reports of errors in the log are
    left out. *)
From stdpp Require Import sorting.
From S2P Require Import Prelude Bytes Text ProxyMsg Bitmap DsFile DsBlock.

Definition EXIT_BLOCK_EXHAUST_ERROR := -8004.
Definition EXIT_PHYSICALBLOCK_NUM_ERROR := -8005.
Definition EXIT_NO_LOGICBLOCK_ERROR := -8006.
Definition EXIT_BLOCK_EXIST_ERROR := -8010.
Definition EXIT_COMPACT_BLOCK_ERROR := -8011.

Record lblock := LB {
  lb_fileid : Z; lb_chunkid : Z;
  lb_avail_data_size : Z; lb_visit_count : Z; lb_last_update : Z;
  lb_physical_block_list : list Z }.

Abbreviation lmap := (gmap Z (gmap Z Z)).

Record bfm := BFM {
  logic_blocks_ : lmap;
  compact_logic_blocks_ : lmap;
  physcial_blocks_ : gmap Z Z;
  bit_map_size_ : Z;
  normal_bit_map_ : option bitmap;
  error_bit_map_ : option bitmap;
  super_block_ : superblock;
  super_block_impl_ : option sbimpl;
  pheap : gmap Z pblock;
  lheap : gmap Z lblock;
  brk : Z;
  disk : dsk;
  now : Z }.

Definition set_logic (m : lmap) (s : bfm) : bfm :=
  BFM m (compact_logic_blocks_ s) (physcial_blocks_ s) (bit_map_size_ s) (normal_bit_map_ s) (error_bit_map_ s)
      (super_block_ s) (super_block_impl_ s) (pheap s) (lheap s) (brk s) (disk s) (now s).
Definition set_compact (m : lmap) (s : bfm) : bfm :=
  BFM (logic_blocks_ s) m (physcial_blocks_ s) (bit_map_size_ s) (normal_bit_map_ s) (error_bit_map_ s)
      (super_block_ s) (super_block_impl_ s) (pheap s) (lheap s) (brk s) (disk s) (now s).
Definition set_physcial (m : gmap Z Z) (s : bfm) : bfm :=
  BFM (logic_blocks_ s) (compact_logic_blocks_ s) m (bit_map_size_ s) (normal_bit_map_ s) (error_bit_map_ s)
      (super_block_ s) (super_block_impl_ s) (pheap s) (lheap s) (brk s) (disk s) (now s).
Definition set_maps (size : Z) (normal error : option bitmap) (s : bfm) : bfm :=
  BFM (logic_blocks_ s) (compact_logic_blocks_ s) (physcial_blocks_ s) size normal error
      (super_block_ s) (super_block_impl_ s) (pheap s) (lheap s) (brk s) (disk s) (now s).
Definition set_super (sb : superblock) (s : bfm) : bfm :=
  BFM (logic_blocks_ s) (compact_logic_blocks_ s) (physcial_blocks_ s) (bit_map_size_ s) (normal_bit_map_ s) (error_bit_map_ s)
      sb (super_block_impl_ s) (pheap s) (lheap s) (brk s) (disk s) (now s).
Definition set_impl (i : option sbimpl) (d : dsk) (s : bfm) : bfm :=
  BFM (logic_blocks_ s) (compact_logic_blocks_ s) (physcial_blocks_ s) (bit_map_size_ s) (normal_bit_map_ s) (error_bit_map_ s)
      (super_block_ s) i (pheap s) (lheap s) (brk s) d (now s).
Definition set_heaps (p : gmap Z pblock) (l : gmap Z lblock) (b : Z) (d : dsk) (s : bfm) : bfm :=
  BFM (logic_blocks_ s) (compact_logic_blocks_ s) (physcial_blocks_ s) (bit_map_size_ s) (normal_bit_map_ s) (error_bit_map_ s)
      (super_block_ s) (super_block_impl_ s) p l b d (now s).
Definition set_pheap (p : gmap Z pblock) (s : bfm) : bfm := set_heaps p (lheap s) (brk s) (disk s) s.
Definition set_lheap (l : gmap Z lblock) (s : bfm) : bfm := set_heaps (pheap s) l (brk s) (disk s) s.

Abbreviation BM_ := (M bfm).

(** ** Objects *)

Definition get_pb (loc : Z) : BM_ pblock := getsM (λ s, pheap s !! loc).
Definition get_lb (loc : Z) : BM_ lblock := getsM (λ s, lheap s !! loc).
Definition put_pb (loc : Z) (b : pblock) : BM_ unit := modify (λ s, set_pheap (<[loc := b]> (pheap s)) s).
Definition put_lb (loc : Z) (b : lblock) : BM_ unit := modify (λ s, set_lheap (<[loc := b]> (lheap s)) s).
Definition new_PhysicalBlock (id : Z) (mount : bytes) (len : Z) (ty : block_type) : BM_ Z :=
  b ← lift (pb_new id mount len ty);
  s ← get;
  put (set_heaps (<[brk s := b]> (pheap s)) (lheap s) (brk s + 1) (disk s) s);;
  mret (brk s).
Definition new_LogicBlock (fileid chunkid : Z) : BM_ Z :=
  s ← get;
  put (set_heaps (pheap s) (<[brk s := LB fileid chunkid 0 0 (now s) []]> (lheap s)) (brk s + 1) (disk s) s);;
  mret (brk s).
(** The destructors.  The file of a deleted block is closed; nothing looks at how this
    [close] ends, and it is given no entry of the script. *)
Definition delete_pb (loc : Z) : BM_ unit := get_pb loc;; modify (λ s, set_pheap (delete loc (pheap s)) s).
Definition delete_lb (loc : Z) : BM_ unit := get_lb loc;; modify (λ s, set_lheap (delete loc (lheap s)) s).

(** A method of the physical block at [loc]. *)
Definition in_pb {A} (loc : Z) (m : PBM A) : BM_ A := λ s,
  b ← pheap s !! loc;
  r ← m (b, disk s);
  Some (r.1, set_heaps (<[loc := r.2.1]> (pheap s)) (lheap s) (brk s) r.2.2 s).
Definition upd_pb (loc : Z) (f : pblock → pblock) : BM_ unit := b ← get_pb loc; put_pb loc (f b).

(** [LogicBlock::add_physic_block], [LogicBlock::delete_block_file]. *)
Definition lb_add (loc : Z) (b : pblock) (l : lblock) : lblock :=
  LB (lb_fileid l) (lb_chunkid l) (i32 (lb_avail_data_size l + pb_total_data_len b)) (lb_visit_count l) (lb_last_update l)
     (lb_physical_block_list l ++ [loc]).
Definition add_physic_block (lloc loc : Z) : BM_ unit :=
  l ← get_lb lloc; b ← get_pb loc; put_lb lloc (lb_add loc b l).
Fixpoint forM {A} (f : A → BM_ unit) (l : list A) : BM_ unit :=
  match l with [] => mret tt | x :: l => f x;; forM f l end.
Definition delete_block_file (lloc : Z) : BM_ unit :=
  l ← get_lb lloc; forM (λ loc, upd_pb loc clear_block_prefix) (lb_physical_block_list l).

(** ** The maps of logic blocks *)

Definition find_logic_block_map (m : lmap) (fileid chunkid : Z) : option Z := c ← m !! fileid; c !! chunkid.
Definition map_insert (fileid chunkid loc : Z) (m : lmap) : lmap :=
  <[fileid := <[chunkid := loc]> (default ∅ (m !! fileid))]> m.
Definition map_delete (fileid chunkid : Z) (m : lmap) : lmap :=
  match m !! fileid with
  | None => m
  | Some c =>
      match c !! chunkid with
      | None => m
      | Some _ => let c := delete chunkid c in
                  if decide (c = ∅) then delete fileid m else <[fileid := c]> m
      end
  end.
Definition selected (ty : block_type) (s : bfm) : lmap :=
  if decide (ty = C_COMPACT_BLOCK) then compact_logic_blocks_ s else logic_blocks_ s.
Definition upd_selected (ty : block_type) (f : lmap → lmap) : BM_ unit :=
  modify (λ s, if decide (ty = C_COMPACT_BLOCK) then set_compact (f (compact_logic_blocks_ s)) s else set_logic (f (logic_blocks_ s)) s).

Definition insert_logic_block_map (ty : block_type) (lloc : Z) : BM_ Z :=
  l ← get_lb lloc;
  upd_selected ty (map_insert (lb_fileid l) (lb_chunkid l) lloc);;
  mret TFS_SUCCESS.
Definition find_logic_block (fileid chunkid : Z) (ty : block_type) : BM_ (option Z) :=
  match ty with
  | C_COMPACT_BLOCK => gets (λ s, find_logic_block_map (compact_logic_blocks_ s) fileid chunkid)
  | C_MAIN_BLOCK => gets (λ s, find_logic_block_map (logic_blocks_ s) fileid chunkid)
  | _ => mret None
  end.
Definition erase_logic_block (fileid chunkid : Z) (ty : block_type) : BM_ Z :=
  m ← gets (selected ty);
  upd_selected ty (map_delete fileid chunkid);;
  mret (if find_logic_block_map m fileid chunkid is Some _ then TFS_SUCCESS else EXIT_NO_LOGICBLOCK_ERROR).

(** ** Saving the super block file *)

Definition in_impl {A} (m : SIM A) : BM_ A := λ s,
  i ← super_block_impl_ s;
  r ← m (i, disk s);
  Some (r.1, set_impl (Some r.2.1) r.2.2 s).
Definition normal : BM_ bitmap := getsM normal_bit_map_.
Definition error : BM_ bitmap := getsM error_bit_map_.
Definition upd_normal (f : bitmap → option bitmap) : BM_ unit :=
  b ← normal; b ← lift (f b); modify (λ s, set_maps (bit_map_size_ s) (Some b) (error_bit_map_ s) s).
Definition upd_error (f : bitmap → option bitmap) : BM_ unit :=
  b ← error; b ← lift (f b); modify (λ s, set_maps (bit_map_size_ s) (normal_bit_map_ s) (Some b) s).
Definition upd_super (f : superblock → superblock) : BM_ unit := modify (λ s, set_super (f (super_block_ s)) s).
Definition save_bit_map : BM_ Z := n ← normal; e ← error; in_impl (write_bit_map n e).
Definition save_super : BM_ Z := s ← get; in_impl (write_super_blk (super_block_ s)).
Definition save_flush : BM_ Z := in_impl si_flush_file.

Definition add_used (d : Z) (sb : superblock) : superblock := set_used (i32 (sb_used_block_count sb + d)) sb.
Definition add_used_ext (d : Z) (sb : superblock) : superblock := set_used_ext (i32 (sb_used_extend_block_count sb + d)) sb.

Definition rollback_superblock (physical_block_id : Z) (modify_flag : bool) : BM_ unit :=
  b ← normal;
  t ← lift (bm_test b physical_block_id);
  whenM t
    (upd_normal (bm_reset physical_block_id);;
     save_bit_map;;
     whenM modify_flag (upd_super (add_used_ext (-1));; save_super;; mret tt);;
     save_flush;; mret tt).

(** Steps 6 to 9 of [new_block] and of [new_ext_block]: the bit, the counter and the
    two files; the code, and whether the counter was changed. *)
Definition commit (physical_block_id : Z) (count : superblock → superblock) : BM_ (Z * bool) :=
  upd_normal (bm_set physical_block_id);;
  r ← save_bit_map;
  if negb (r =? TFS_SUCCESS) then mret (r, false) else
  upd_super count;;
  r ← save_super;
  if negb (r =? TFS_SUCCESS) then mret (r, true) else
  r ← save_flush; mret (r, true).

(** ** Blocks *)

(** The search of [find_avail_block]: [n] positions from [i]. *)
Fixpoint find_avail (n : nat) (i : Z) : BM_ (option Z) :=
  match n with
  | O => mret None
  | S n =>
      b ← normal; e ← error;
      t ← lift (bm_test b i);
      if t : bool then find_avail n (i + 1) else
      t ← lift (bm_test e i);
      if t : bool then find_avail n (i + 1) else mret (Some i)
  end.
Definition find_avail_block (id : Z) (ty : block_type) : BM_ (Z * Z) :=
  sb ← gets super_block_;
  let main := sb_main_block_count sb in
  let i := if decide (ty = C_EXT_BLOCK) then i32 (main + 1) else 1 in
  let size := if decide (ty = C_EXT_BLOCK) then i32 (main + sb_extend_block_count sb) else main in
  r ← find_avail (Z.to_nat (size + 1 - i)) i;
  mret (match r with Some i => (TFS_SUCCESS, u32 i) | None => (EXIT_BLOCK_EXHAUST_ERROR, id) end).

Definition mount_point (sb : superblock) : bytes := cstr (sb_mount_point sb).

Definition new_block (fileid chunkid physical_block_id : Z) (ty : block_type) : BM_ (Z * Z) :=
  m ← gets (selected ty);
  if find_logic_block_map m fileid chunkid is Some _ then mret (EXIT_BLOCK_EXIST_ERROR, physical_block_id) else
  r ← find_avail_block physical_block_id C_MAIN_BLOCK;
  let id := r.2 in
  if negb (r.1 =? TFS_SUCCESS) then mret (r.1, id) else
  p ← gets physcial_blocks_;
  if p !! id is Some _ then ub else
  sb ← gets super_block_;
  loc ← new_PhysicalBlock id (mount_point sb) (i32 (BLOCK_RESERVER_LENGTH + sb_main_block_size sb)) C_MAIN_BLOCK;
  upd_pb loc (pb_set_prefix (Prefix fileid chunkid 0 0));;
  ret ← in_pb loc dump_block_prefix;
  if negb (ret =? 0) then delete_pb loc;; mret (ret, id) else
  lloc ← new_LogicBlock fileid chunkid;
  add_physic_block lloc loc;;
  c ← commit id (add_used 1);
  if c.1 =? TFS_SUCCESS then
    modify (λ s, set_physcial (<[id := loc]> (physcial_blocks_ s)) s);;
    ret ← insert_logic_block_map ty lloc;
    mret (ret, id)
  else
    rollback_superblock id c.2;;
    delete_block_file lloc;;
    delete_lb lloc;;
    delete_pb loc;;
    mret (c.1, id).

(** Step 5 of [del_block]: the physical blocks leave the map and their bits are
    cleared; the blocks that were in the map. *)
Fixpoint take_physic (locs : list Z) : BM_ (list Z) :=
  match locs with
  | [] => mret []
  | loc :: locs =>
      b ← get_pb loc;
      let id := pb_physical_block_id b in
      p ← gets physcial_blocks_;
      found ← lift (p !! id);
      modify (λ s, set_physcial (delete id p) s);;
      upd_normal (bm_reset id);;
      rest ← take_physic locs;
      mret (if found =? 0 then rest else found :: rest)
  end.

Definition del_block (fileid chunkid : Z) (ty : block_type) : BM_ Z :=
  f ← find_logic_block fileid chunkid ty;
  match f with
  | None => mret EXIT_NO_LOGICBLOCK_ERROR
  | Some lloc =>
      l ← get_lb lloc;
      let size := Z.of_nat (length (lb_physical_block_list l)) in
      if size =? 0 then mret EXIT_PHYSICALBLOCK_NUM_ERROR else
      tmp ← take_physic (lb_physical_block_list l);
      erase_logic_block fileid chunkid ty;;
      ret ← (r ← save_bit_map;
             if negb (r =? TFS_SUCCESS) then mret r else
             upd_super (add_used (-1));;
             upd_super (add_used_ext (- (size - 1)));;
             r ← save_super;
             if negb (r =? TFS_SUCCESS) then mret r else save_flush);
      delete_block_file lloc;;
      delete_lb lloc;;
      forM delete_pb tmp;;
      mret ret
  end.

(** The code, the number of the new block and its address. *)
Definition new_ext_block (fileid chunkid physical_block_id ext : Z) : BM_ (Z * Z * option Z) :=
  if physical_block_id =? 0 then mret (EXIT_NO_LOGICBLOCK_ERROR, ext, None) else
  m ← gets logic_blocks_;
  match find_logic_block_map m fileid chunkid with
  | None => mret (EXIT_NO_LOGICBLOCK_ERROR, ext, None)
  | Some _ =>
      r ← find_avail_block ext C_EXT_BLOCK;
      let ext := r.2 in
      if negb (r.1 =? TFS_SUCCESS) then mret (r.1, ext, None) else
      p ← gets physcial_blocks_;
      if p !! ext is Some _ then ub else
      prev ← lift (p !! physical_block_id);
      if prev =? 0 then ub else
      sb ← gets super_block_;
      loc ← new_PhysicalBlock ext (mount_point sb) (i32 (BLOCK_RESERVER_LENGTH + sb_extend_block_size sb)) C_EXT_BLOCK;
      c ← commit ext (add_used_ext 1);
      ret ← (if negb (c.1 =? TFS_SUCCESS) then mret c.1 else
             upd_pb loc (pb_set_prefix (Prefix fileid chunkid physical_block_id 0));;
             r ← in_pb loc dump_block_prefix;
             if negb (r =? TFS_SUCCESS) then mret r else
             upd_pb prev (set_next_block ext);;
             in_pb prev dump_block_prefix);
      if ret =? TFS_SUCCESS then
        modify (λ s, set_physcial (<[ext := loc]> (physcial_blocks_ s)) s);;
        mret (ret, ext, Some loc)
      else
        rollback_superblock ext c.2;;
        delete_pb loc;;
        mret (ret, ext, None)
  end.

Definition switch_compact_blk (fileid chunkid : Z) : BM_ Z :=
  cpt ← gets (λ s, find_logic_block_map (compact_logic_blocks_ s) fileid chunkid);
  old ← gets (λ s, find_logic_block_map (logic_blocks_ s) fileid chunkid);
  match cpt, old with
  | Some cpt, Some old =>
      insert_logic_block_map C_MAIN_BLOCK cpt;;
      insert_logic_block_map C_COMPACT_BLOCK old;;
      mret TFS_SUCCESS
  | _, _ => mret EXIT_COMPACT_BLOCK_ERROR
  end.

(** ** Looking things up *)

Definition key_le {A} (x y : Z * A) : Prop := x.1 ≤ y.1.
#[export] Instance key_le_dec {A} : RelDecision (@key_le A).
Proof. intros x y. unfold key_le. apply _. Defined.
(** A [std::map] in the order of its iterator. *)
Definition sorted_list {A} (m : gmap Z A) : list (Z * A) := merge_sort key_le (map_to_list m).

(** The inner loop of [expire_compact_blk] stays at the same entry. *)
Fixpoint expire_inner (fuel : nat) (fileid : Z) (c : gmap Z Z) (time : Z) (erase : list Z) : BM_ (list Z) :=
  match sorted_list c with
  | [] => mret erase
  | (chunkid, lloc) :: _ =>
      match fuel with
      | O => ub
      | S fuel =>
          erase ← (if lloc =? 0 then mret erase else
                   l ← get_lb lloc; mret (if lb_last_update l <? time then erase ++ [fileid; chunkid] else erase));
          expire_inner fuel fileid c time erase
      end
  end.
Fixpoint expire_outer (fuel : nat) (ms : list (Z * gmap Z Z)) (time : Z) (erase : list Z) : BM_ (list Z) :=
  match ms with
  | [] => mret erase
  | (fileid, c) :: ms =>
      if time <? 0 then mret erase else
      erase ← expire_inner fuel fileid c time erase;
      expire_outer fuel ms time erase
  end.
Definition expire_compact_blk (fuel : nat) (time : Z) : BM_ (Z * gset Z) :=
  m ← gets compact_logic_blocks_;
  erase ← expire_outer fuel (sorted_list m) time [];
  mret (TFS_SUCCESS, list_to_set erase).

Definition sorted_set (s : gset Z) : list Z := merge_sort Z.le (elements s).
Definition set_error_bitmap (error_blocks : gset Z) : BM_ Z :=
  forM (λ i, upd_error (bm_set i)) (sorted_set error_blocks);; mret TFS_SUCCESS.
Definition reset_error_bitmap (reset_error_blocks : gset Z) : BM_ Z :=
  forM (λ i, upd_error (bm_reset i)) (sorted_set reset_error_blocks);; mret TFS_SUCCESS.

Definition add_visit_count (l : lblock) : lblock :=
  LB (lb_fileid l) (lb_chunkid l) (lb_avail_data_size l) (i32 (lb_visit_count l + 1)) (lb_last_update l) (lb_physical_block_list l).
Definition get_logic_block (fileid chunkid : Z) (ty : block_type) : BM_ (option Z) :=
  f ← find_logic_block fileid chunkid ty;
  match f with
  | None => mret None
  | Some lloc => l ← get_lb lloc; put_lb lloc (add_visit_count l);; mret (Some lloc)
  end.
Definition all_logic (m : lmap) : list Z := sorted_list m ≫= λ p, (sorted_list p.2).*2.
Definition get_all_logic_block (ty : block_type) : BM_ (list Z) :=
  gets (λ s, all_logic (if decide (ty = C_MAIN_BLOCK) then logic_blocks_ s else compact_logic_blocks_ s)).
Definition combine_itoa (fileid chunkid : Z) : bytes := fmt_u fileid ++ [58] ++ fmt_u chunkid.
Definition get_logic_block_ids (ty : block_type) : BM_ (list bytes) :=
  m ← gets (λ s, if decide (ty = C_MAIN_BLOCK) then logic_blocks_ s else compact_logic_blocks_ s);
  mret (sorted_list m ≫= λ p, (λ q, combine_itoa p.1 q.1) <$> sorted_list p.2).
Definition get_all_physic_block : BM_ (list Z) := gets (λ s, (sorted_list (physcial_blocks_ s)).*2).
(** [selected_logic_blocks] is a reference to [logic_blocks_], so choosing the compact
    map assigns it. *)
Definition get_logic_block_size_map (ty : block_type) : BM_ Z :=
  whenM (bool_decide (ty = C_COMPACT_BLOCK)) (modify (λ s, set_logic (compact_logic_blocks_ s) s));;
  m ← gets logic_blocks_;
  mret (u64 (foldr (λ p n, Z.of_nat (size p.2) + n) 0 (sorted_list m))).
Definition query_super_block : BM_ superblock := gets super_block_.
Definition query_bit_map (allocate : bool) : BM_ (bytes * Z * Z) :=
  size ← gets bit_map_size_;
  b ← (if allocate then normal else error);
  d ← lift (bm_data b);
  if (length d <? Z.to_nat size)%nat then ub else
  mret (take (Z.to_nat size) d, size, bm_set_count b).
Definition get_bit_map_info : BM_ (Z * Z * Z) :=
  size ← gets bit_map_size_; n ← normal; e ← error;
  mret (size, bm_set_count n, bm_set_count e).
