(* ===== verification/BlockLoad.v ===== *)
(** Sizes and counts of the block store (calc_block_count, query_approx_block_count
    and query_space of diskmanager/src/blockfile_manager.cpp), which the code computes
    in floating point: [float] is IEEE 754 binary32 and [double] binary64, rounded to
    nearest; a conversion to an integer truncates. *)
From Stdlib Require Import SpecFloat.
From Stdlib Require Import (notations) String.
From S2P Require Import Prelude Bytes Text Bitmap DsFile DsBlock BlockStore.

(** [EXTEND_SUPPORT] of diskmanager/common/internal.h. *)
Definition EXTEND_SUPPORT : Z := 0.

Definition f32 (z : Z) : spec_float := binary_normalize 24 128 z 0 false.
Definition f64 (z : Z) : spec_float := binary_normalize 53 1024 z 0 false.
(** The constant [1.1]. *)
Definition f64_1_1 : spec_float := S754_finite false 4953959590107546 (-52).

(** The value of 32 bits and the bits of a value. *)
Definition f32_of_bits (b : Z) : spec_float :=
  let s := Z.testbit b 31 in
  let e := Z.land (Z.shiftr b 23) 255 in
  let m := Z.land b (2 ^ 23 - 1) in
  if e =? 0 then match m with Z.pos m => S754_finite s m (-149) | _ => S754_zero s end
  else if e =? 255 then (if m =? 0 then S754_infinity s else S754_nan)
  else match m + 2 ^ 23 with Z.pos m => S754_finite s m (e - 150) | _ => S754_nan end.
Definition bits_of_f32 (f : spec_float) : Z :=
  match f with
  | S754_zero s => if s then 2 ^ 31 else 0
  | S754_infinity s => (if s then 2 ^ 31 else 0) + Z.shiftl 255 23
  | S754_nan => Z.shiftl 255 23 + 2 ^ 22
  | S754_finite s m e =>
      (if s then 2 ^ 31 else 0) + (if Z.pos m <? 2 ^ 23 then Z.pos m else Z.shiftl (e + 150) 23 + (Z.pos m - 2 ^ 23))
  end.

(** Truncation towards zero; a value outside the type is undefined behaviour. *)
Definition trunc (lo hi : Z) (f : spec_float) : option Z :=
  match f with
  | S754_zero _ => Some 0
  | S754_finite s m e =>
      let a := if 0 <=? e then Z.shiftl (Z.pos m) e else Z.shiftr (Z.pos m) (- e) in
      let z := if s then - a else a in
      if (lo <=? z) && (z <? hi) then Some z else None
  | _ => None
  end.
Definition trunc32 : spec_float → option Z := trunc (- 2 ^ 31) (2 ^ 31).
Definition trunc64 : spec_float → option Z := trunc (- 2 ^ 63) (2 ^ 63).

Definition set_ratio_ext (ratio ext_size : Z) (s : superblock) : superblock :=
  SB (sb_mount_tag s) (sb_time s) (sb_mount_point s) (sb_padding s) (sb_mount_point_use_space s) (sb_base_fs_type s)
     (sb_superblock_reserve_offset s) (sb_bitmap_start_offset s) ratio (sb_main_block_count s)
     (sb_main_block_size s) (sb_extend_block_count s) ext_size (sb_used_block_count s) (sb_used_extend_block_count s)
     (sb_hash_slot_ratio s) (sb_hash_slot_size s) (sb_mmap_option s) (sb_version s).

(** [calc_block_count] for both values of the macro: the counts of main and of
    extension blocks. *)
Definition calc_block_count (avail_data_space : Z) : BM_ (Z * Z) :=
  sb ← gets super_block_;
  if negb (EXTEND_SUPPORT =? 0) then
    let ratio := f32_of_bits (sb_block_type_ratio sb) in
    let per := SFadd 24 128 (SFmul 24 128 ratio (f32 (sb_main_block_size sb))) (f32 (sb_extend_block_size sb)) in
    ext ← lift (trunc32 (SFdiv 24 128 (f32 avail_data_space) per));
    main ← lift (trunc32 (SFmul 24 128 (f32 ext) ratio));
    mret (main, ext)
  else
    main ← lift (trunc32 (SFdiv 24 128 (f32 avail_data_space) (f32 (sb_main_block_size sb))));
    upd_super (set_ratio_ext (bits_of_f32 (f32 (-1))) (-1));;
    mret (main, 0).

Definition approx_block_count (sb : superblock) : option Z :=
  approx ← trunc32 (SFmul 24 128 (f32 (sb_used_extend_block_count sb)) (f32_of_bits (sb_block_type_ratio sb)));
  Some (if SFltb (SFmul 53 1024 (f64 (sb_used_block_count sb)) f64_1_1) (f64 approx)
        then approx else sb_used_block_count sb).
Definition query_approx_block_count : BM_ (Z * Z) := getsM (λ s, n ← approx_block_count (super_block_ s); Some (TFS_SUCCESS, n)).

(** The bytes in use and the bytes there are. *)
Definition space (sb : superblock) : option (Z * Z) :=
  let ratio := f32_of_bits (sb_block_type_ratio sb) in
  um ← trunc64 (SFdiv 24 128 (f32 (sb_used_block_count sb)) ratio);
  let used_main := i64 (sb_used_block_count sb * sb_main_block_size sb + um * sb_extend_block_size sb) in
  ue ← trunc64 (SFmul 24 128 (f32 (sb_used_extend_block_count sb)) ratio);
  let used_ext := i64 (sb_used_extend_block_count sb * sb_extend_block_size sb + ue * sb_main_block_size sb) in
  m11 ← trunc64 (SFmul 53 1024 (f64 used_main) f64_1_1);
  let total := i64 (sb_main_block_count sb * sb_main_block_size sb + sb_extend_block_count sb * sb_extend_block_size sb) in
  Some (if m11 <? used_ext then used_ext else used_main, total).
Definition query_space : BM_ (Z * (Z * Z)) := getsM (λ s, r ← space (super_block_ s); Some (TFS_SUCCESS, r)).

(** Creating and loading the files of a block store: format_block_file_system,
    bootstrap and what they call in diskmanager/src/blockfile_manager.cpp, and the
    formatters of diskmanager/src/blockfile_format.h. *)
Definition EXIT_BLOCKID_CONFLICT_ERROR := -8009.
Definition EXIT_FS_NOTINIT_ERROR := -8020.
Definition EXIT_BITMAP_CONFLICT_ERROR := -8021.
Definition EXIT_PHYSIC_UNEXPECT_FOUND_ERROR := -8022.
Definition EEXIST := 17.
Definition EXT4 := 1.
Definition EXT3_FULL := 2.
Definition EXT3_FTRUN := 3.
Definition DEV_TAG : bytes := lit "GVFS".

(** [FileSystemParameter]. *)
Record fs_parameter := FSP {
  fsp_mount_name : bytes; fsp_max_mount_size : Z; fsp_base_fs_type : Z; fsp_super_block_reserve_offset : Z;
  fsp_main_block_size : Z; fsp_extend_block_size : Z; fsp_block_type_ratio : Z; fsp_version : Z }.

(** [strncpy(dst, src, n)] into an array. *)
Definition strncpy (n : nat) (src dst : bytes) : bytes :=
  take n (src ++ replicate n 0) ++ drop n dst.

(** ** Loading *)

Definition set_bitmaps (size : Z) (n e : bitmap) : BM_ unit := modify (set_maps size (Some n) (Some e)).

Definition load_super_blk (fs : fs_parameter) : BM_ Z :=
  modify (λ s, set_impl (Some (si_new (fsp_mount_name fs) (fsp_super_block_reserve_offset fs) true)) (disk s) s);;
  r ← in_impl read_super_blk;
  upd_super (λ _, r.2);;
  if negb (r.1 =? TFS_SUCCESS) then mret r.1 else
  if negb (check_status DEV_TAG r.2) then mret EXIT_FS_NOTINIT_ERROR else
  whenM (negb (bool_decide (fsp_mount_name fs = mount_point r.2)))
    (upd_super (λ sb, set_mount_point (strncpy (Z.to_nat (MAX_DEV_NAME_LEN - 1)) (fsp_mount_name fs) (sb_mount_point sb)) sb);;
     save_super;; save_flush;; mret tt);;
  let item_count := u32 (sb_main_block_count r.2 + sb_extend_block_count r.2 + 1) in
  n ← lift (bm_new item_count false);
  e ← lift (bm_new item_count false);
  let size := i32 (bm_slot_count n) in
  set_bitmaps size n e;;
  buf ← in_impl (read_bit_map (4 * size));
  if negb (buf.1 =? TFS_SUCCESS) then mret buf.1 else
  let w := Z.to_nat size in
  if negb (bool_decide (take w buf.2 = take w (drop w buf.2))) then mret EXIT_BITMAP_CONFLICT_ERROR else
  if negb (bool_decide (take w (drop (2 * w) buf.2) = take w (drop (3 * w) buf.2))) then mret EXIT_BITMAP_CONFLICT_ERROR else
  upd_normal (bm_copy (u32 size) (take w buf.2));;
  upd_error (bm_copy (u32 size) (take w (drop (2 * w) buf.2)));;
  mret TFS_SUCCESS.

(** The bitmap is saved; errors are only reported. *)
Definition drop_position (pos : Z) : BM_ unit :=
  upd_normal (bm_reset pos);; save_bit_map;; save_flush;; mret tt.

(** Step 8 of [load_block_file], the extension blocks behind block [ext_pos] of the
    logic block at [lloc]: the code and the flag [conflict_flag]. *)
Fixpoint load_ext (fuel : nat) (lloc pos ext_pos next : Z) (conflict : bool) : BM_ (Z * bool) :=
  if next =? 0 then mret (TFS_SUCCESS, conflict) else
  match fuel with
  | O => ub
  | S fuel =>
      b ← normal;
      t ← lift (bm_test b next);
      if negb t then mret (EXIT_BLOCKID_CONFLICT_ERROR, conflict) else
      sb ← gets super_block_;
      loc ← new_PhysicalBlock next (mount_point sb) (i32 (BLOCK_RESERVER_LENGTH + sb_extend_block_size sb)) C_EXT_BLOCK;
      ret ← in_pb loc load_block_prefix;
      if negb (ret =? TFS_SUCCESS) then delete_pb loc;; mret (ret, conflict) else
      pb ← get_pb loc;
      let p := pb_block_prefix pb in
      if negb (ext_pos =? px_prev p) then drop_position pos;; delete_pb loc;; mret (TFS_SUCCESS, true) else
      ph ← gets physcial_blocks_;
      if ph !! next is Some _ then delete_pb loc;; mret (EXIT_PHYSIC_UNEXPECT_FOUND_ERROR, conflict) else
      add_physic_block lloc loc;;
      modify (λ s, set_physcial (<[next := loc]> (physcial_blocks_ s)) s);;
      load_ext fuel lloc pos next (px_next p) conflict
  end.

(** One turn of the loop of [load_block_file]: the code that ends it, or the flag for
    the next position. *)
Definition load_pos (pos : Z) (conflict : bool) : BM_ (Z + bool) :=
  b ← normal;
  t ← lift (bm_test b pos);
  if negb t then mret (inr false) else
  sb ← gets super_block_;
  loc ← new_PhysicalBlock pos (mount_point sb) (i32 (BLOCK_RESERVER_LENGTH + sb_main_block_size sb)) C_MAIN_BLOCK;
  ret ← in_pb loc load_block_prefix;
  if negb (ret =? TFS_SUCCESS) then delete_pb loc;; mret (inl ret) else
  pb ← get_pb loc;
  let p := pb_block_prefix pb in
  if (px_fileid p =? 0) && (px_chunkid p =? 0) then
    delete_pb loc;; drop_position pos;; mret (inr conflict)
  else
  lloc ← new_LogicBlock (px_fileid p) (px_chunkid p);
  add_physic_block lloc loc;;
  ph ← gets physcial_blocks_;
  if ph !! pos is Some _ then delete_pb loc;; delete_lb lloc;; mret (inl EXIT_PHYSIC_UNEXPECT_FOUND_ERROR) else
  main ← find_logic_block (px_fileid p) (px_chunkid p) C_MAIN_BLOCK;
  compact ← find_logic_block (px_fileid p) (px_chunkid p) C_COMPACT_BLOCK;
  ret ← (match main with
         | Some _ =>
             ret ← (if compact is Some _ then del_block (px_fileid p) (px_chunkid p) C_COMPACT_BLOCK else mret TFS_SUCCESS);
             if negb (ret =? TFS_SUCCESS) then delete_pb loc;; delete_lb lloc;; mret ret
             else insert_logic_block_map C_COMPACT_BLOCK lloc
         | None => insert_logic_block_map C_MAIN_BLOCK lloc
         end);
  if negb (ret =? TFS_SUCCESS) then mret (inl ret) else
  modify (λ s, set_physcial (<[pos := loc]> (physcial_blocks_ s)) s);;
  n ← normal;
  r ← load_ext (S (Z.to_nat (bm_item_count n))) lloc pos pos (px_next p) conflict;
  if negb (r.1 =? TFS_SUCCESS) then mret (inl r.1) else
  if r.2 : bool then del_block (px_fileid p) (px_chunkid p) C_CONFUSE_BLOCK;; mret (inr true)
  else mret (inr false).

Fixpoint load_loop (n : nat) (pos : Z) (conflict : bool) : BM_ Z :=
  match n with
  | O => mret TFS_SUCCESS
  | S n =>
      r ← load_pos pos conflict;
      match r with inl ret => mret ret | inr conflict => load_loop n (pos + 1) conflict end
  end.
Definition load_block_file : BM_ Z :=
  sb ← gets super_block_;
  load_loop (Z.to_nat (u32 (sb_main_block_count sb))) 1 false.

Definition bootstrap (fs : fs_parameter) : BM_ Z :=
  ret ← load_super_blk fs;
  if negb (ret =? TFS_SUCCESS) then mret ret else load_block_file.

(** ** Formatting *)

Definition set_counts (main ext : Z) (s : superblock) : superblock :=
  SB (sb_mount_tag s) (sb_time s) (sb_mount_point s) (sb_padding s) (sb_mount_point_use_space s) (sb_base_fs_type s)
     (sb_superblock_reserve_offset s) (sb_bitmap_start_offset s) (sb_block_type_ratio s) main
     (sb_main_block_size s) ext (sb_extend_block_size s) 0 0
     (sb_hash_slot_ratio s) (sb_hash_slot_size s) (sb_mmap_option s) (sb_version s).
Definition init_super_blk_param (fs : fs_parameter) : BM_ Z :=
  s ← get;
  let use_space := i64 (fsp_max_mount_size fs * 1024) in
  let sb v main_size ext_size ratio reserve start :=
    SB (DEV_TAG ++ replicate 4 0) (i32 (now s)) (strncpy (Z.to_nat (MAX_DEV_NAME_LEN - 1)) (fsp_mount_name fs) (replicate 128 0))
       (replicate 4 0) use_space (fsp_base_fs_type fs) reserve start ratio 0 main_size 0 ext_size 0 0 0 0 (replicate 12 0) v in
  if negb ((fsp_base_fs_type fs =? EXT4) || (fsp_base_fs_type fs =? EXT3_FULL) || (fsp_base_fs_type fs =? EXT3_FTRUN)) then
    upd_super (λ _, sb 0 0 0 0 0 0);; mret TFS_ERROR
  else
  upd_super (λ _, sb 0 (fsp_main_block_size fs) (fsp_extend_block_size fs) (fsp_block_type_ratio fs)
                     (fsp_super_block_reserve_offset fs) (i32 (fsp_super_block_reserve_offset fs + 2 * sizeof_superblock + 4)));;
  c ← calc_block_count use_space;
  upd_super (λ b, set_counts c.1 c.2
    (SB (sb_mount_tag b) (sb_time b) (sb_mount_point b) (sb_padding b) (sb_mount_point_use_space b) (sb_base_fs_type b)
        (sb_superblock_reserve_offset b) (sb_bitmap_start_offset b) (sb_block_type_ratio b) (sb_main_block_count b)
        (sb_main_block_size b) (sb_extend_block_count b) (sb_extend_block_size b) 0 0
        (sb_hash_slot_ratio b) (sb_hash_slot_size b) (sb_mmap_option b) (fsp_version fs)));;
  mret TFS_SUCCESS.

(** System calls outside the files of blocks. *)
Definition sys_call : BM_ Z := λ s,
  let r := sys_plain (disk s) in Some (r.1, set_heaps (pheap s) (lheap s) (brk s) r.2 s).
Definition sys_errno : BM_ Z := gets (λ s, d_errno (disk s)).
(** A handle of its own, closed at the end. *)
Definition with_file {A} (name : bytes) (flags : Z) (m : FM A) : BM_ A := λ s,
  r ← m (fop_new name flags, disk s);
  let d := if 0 <? fo_fd r.2.1 then (sys_plain r.2.2).2 else r.2.2 in
  Some (r.1, set_heaps (pheap s) (lheap s) (brk s) d s).

(** The three directories; only the first may be there already.  The disk has no
    directories: the script says how each [mkdir] ends, and one that is not in the
    script succeeds. *)
Definition create_fs_dir : BM_ Z :=
  ret ← sys_call; e ← sys_errno;
  if negb (ret =? 0) && negb (e =? EEXIST) then mret TFS_ERROR else
  ret ← sys_call;
  if negb (ret =? 0) then mret TFS_ERROR else
  ret ← sys_call;
  mret (if negb (ret =? 0) then TFS_ERROR else TFS_SUCCESS).

Definition calc_bitmap_count : BM_ Z :=
  sb ← gets super_block_;
  b ← lift (bm_new (u32 (sb_main_block_count sb + sb_extend_block_count sb + 1)) false);
  mret (bm_slot_count b).

Definition create_fs_super_blk : BM_ Z :=
  bit_map_size ← calc_bitmap_count;
  sb ← gets super_block_;
  with_file (mount_point sb ++ SUPERBLOCK_NAME) (Z.lor O_RDWR O_CREAT)
    (pwrite_file (enc_superblock sb ++ enc_superblock sb ++ replicate (Z.to_nat (4 * bit_map_size + 4)) 0) 0).

(** [block_file_format] of the three formatters: allocation fills a file up with
    zeros, truncation sets its length. *)
Definition file_extend (size : nat) (f : bytes) : bytes := f ++ replicate (size - length f) 0.
Definition block_file_format (fs_type : Z) (file_size : Z) : FM Z :=
  s ← get;
  if fo_fd s.1 <? 0 then mret (fo_fd s.1) else
  if file_size <=? 0 then mret file_size else
  let r := sys_plain s.2 in
  let f := default [] (d_files r.2 !! fo_name s.1) in
  if r.1 <? 0 then put (s.1, r.2);; mret (if fs_type =? EXT3_FULL then d_errno r.2 else r.1) else
  let size := Z.to_nat file_size in
  let f := if fs_type =? EXT3_FTRUN then file_extend size (take size f) else file_extend size f in
  put (s.1, Dsk (<[fo_name s.1 := f]> (d_files r.2)) (d_os r.2) (d_errno r.2));;
  mret 0.

(** The loop of [create_block], for [n] blocks from [i]: in every error branch
    [gDeleteA], whose argument is passed by value, is called twice on [block_prefix]. *)
Fixpoint create_loop (n : nat) (i first : Z) (ty : block_type) (block_size : Z) : BM_ Z :=
  match n with
  | O => mret TFS_SUCCESS
  | S n =>
      sb ← gets super_block_;
      r ← with_file (block_path (mount_point sb) ty (first + i)) (Z.lor O_RDWR O_CREAT)
            (r ← open_file;
             if r <? 0 then mret false else
             r ← block_file_format (sb_base_fs_type sb) (i32 (BLOCK_RESERVER_LENGTH + block_size));
             if negb (r =? TFS_SUCCESS) then mret false else
             r ← pwrite_file (replicate (Z.to_nat sizeof_prefix) 0) 0;
             mret (r =? TFS_SUCCESS));
      if r : bool then create_loop n (i + 1) first ty block_size else ub
  end.
Definition create_block (ty : block_type) : BM_ Z :=
  sb ← gets super_block_;
  let t := sb_base_fs_type sb in
  if negb ((t =? EXT4) || (t =? EXT3_FULL) || (t =? EXT3_FTRUN)) then mret TFS_ERROR else
  match ty with
  | C_MAIN_BLOCK => create_loop (Z.to_nat (sb_main_block_count sb)) 1 0 ty (sb_main_block_size sb)
  | C_EXT_BLOCK => create_loop (Z.to_nat (sb_extend_block_count sb)) 1 (sb_main_block_count sb) ty (sb_extend_block_size sb)
  | _ => mret TFS_ERROR
  end.

Definition format_block_file_system (fs : fs_parameter) : BM_ Z :=
  ret ← init_super_blk_param fs;
  if negb (ret =? TFS_SUCCESS) then mret ret else
  ret ← create_fs_dir;
  if negb (ret =? TFS_SUCCESS) then mret ret else
  ret ← create_fs_super_blk;
  if negb (ret =? TFS_SUCCESS) then mret ret else
  ret ← create_block C_MAIN_BLOCK;
  if negb (ret =? TFS_SUCCESS) then mret ret else
  create_block C_EXT_BLOCK.
