(* ===== verification/DataMgr.v ===== *)
(** Reading and writing blocks: diskmanager/src/data_handle.cpp, the rest of
    diskmanager/src/logic_block.cpp, and the operations of
    diskmanager/src/data_management.cpp on blocks. *)
From S2P Require Import Prelude Bytes Text Bitmap DsFile DsBlock BlockStore BlockLoad.

Definition EXIT_POINTER_NULL := -8007.
Definition MAX_EXTEND_TIMES : nat := 30.

(** ** DataHandle *)

(** [choose_physic_block] over the blocks of the list: the block, the offset in it
    and how much of [inner_len] bytes it holds. *)
Fixpoint choose_loop (locs : list Z) (offset inner_len sum_offset prev_sum_offset : Z) : BM_ (option (Z * Z * Z)) :=
  match locs with
  | [] => mret None
  | loc :: locs =>
      b ← get_pb loc;
      let data_len := pb_total_data_len b in
      let sum_offset := i32 (sum_offset + data_len) in
      if offset <? sum_offset then
        mret (Some (loc, i32 (offset - prev_sum_offset),
                    if sum_offset <? i32 (offset + inner_len) then i32 (sum_offset - offset) else inner_len))
      else choose_loop locs offset inner_len sum_offset (i32 (prev_sum_offset + data_len))
  end.
Definition choose_physic_block (lloc offset inner_len : Z) : BM_ (option (Z * Z * Z)) :=
  l ← get_lb lloc; choose_loop (lb_physical_block_list l) offset inner_len 0 0.

(** The loops move by at least a byte, so as many turns as there are bytes are
    enough. *)
Fixpoint write_loop (fuel : nat) (lloc : Z) (buf : bytes) (offset : Z) : BM_ Z :=
  match buf with
  | [] => mret TFS_SUCCESS
  | _ =>
      match fuel with
      | O => ub
      | S fuel =>
          c ← choose_physic_block lloc offset (Z.of_nat (length buf));
          match c with
          | None => mret EXIT_PHYSIC_BLOCK_OFFSET_ERROR
          | Some (loc, inner_offset, len) =>
              ret ← in_pb loc (pwrite_data (take (Z.to_nat len) buf) inner_offset);
              if negb (ret =? TFS_SUCCESS) then mret ret
              else write_loop fuel lloc (drop (Z.to_nat len) buf) (i32 (offset + len))
          end
      end
  end.
Definition write_segment_data (lloc : Z) (buf : bytes) (offset : Z) : BM_ Z :=
  write_loop (length buf) lloc buf offset.

Fixpoint read_loop (fuel : nat) (lloc nbytes offset : Z) (got : bytes) : BM_ (Z * bytes) :=
  if nbytes <=? 0 then mret (TFS_SUCCESS, got) else
  match fuel with
  | O => ub
  | S fuel =>
      c ← choose_physic_block lloc offset nbytes;
      match c with
      | None => mret (EXIT_PHYSIC_BLOCK_OFFSET_ERROR, got)
      | Some (loc, inner_offset, len) =>
          r ← in_pb loc (pread_data len inner_offset);
          if negb (r.1 =? TFS_SUCCESS) then mret (r.1, got ++ r.2)
          else read_loop fuel lloc (nbytes - len) (i32 (offset + len)) (got ++ r.2)
      end
  end.
Definition read_segment_data (lloc nbytes offset : Z) : BM_ (Z * bytes) :=
  read_loop (Z.to_nat nbytes) lloc nbytes offset [].

(** ** LogicBlock *)

Fixpoint extend_loop (retry_times : nat) (lloc size offset : Z) : BM_ Z :=
  match retry_times with
  | O => mret EXIT_PHYSICALBLOCK_NUM_ERROR
  | S retry_times =>
      l ← get_lb lloc;
      if negb (lb_avail_data_size l <? i32 (offset + size)) then mret TFS_SUCCESS else
      if EXTEND_SUPPORT =? 0 then mret TFS_ERROR else
      match last (lb_physical_block_list l) with
      | None => mret EXIT_PHYSICALBLOCK_NUM_ERROR
      | Some back =>
          b ← get_pb back;
          r ← new_ext_block (lb_fileid l) (lb_chunkid l) (pb_physical_block_id b) 0;
          if negb (r.1.1 =? TFS_SUCCESS) then mret r.1.1 else
          loc ← lift r.2;
          b ← get_pb loc; l ← get_lb lloc;
          put_lb lloc (lb_add loc b l);;
          extend_loop retry_times lloc size offset
      end
  end.
Definition extend_block (lloc size offset : Z) : BM_ Z := extend_loop MAX_EXTEND_TIMES lloc size offset.

(** The buffers of the callers are never null. *)
Definition lb_read_raw_data (lloc nbytes offset : Z) : BM_ (Z * Z * bytes) :=
  l ← get_lb lloc;
  let avail := lb_avail_data_size l in
  if avail <? offset then mret (EXIT_FAILURE, nbytes, []) else
  let nbytes := if avail <? i32 (offset + nbytes) then i32 (avail - offset) else nbytes in
  r ← read_segment_data lloc nbytes offset;
  mret (r.1, nbytes, r.2).
Definition lb_write_raw_data (lloc : Z) (buf : bytes) (offset : Z) : BM_ Z :=
  ret ← extend_block lloc (Z.of_nat (length buf)) offset;
  if negb (ret =? TFS_SUCCESS) then mret ret else write_segment_data lloc buf offset.

(** ** DataManagement *)

(** The code, the length [real_read_len] and the bytes. *)
Definition read_raw_data (fileid chunkid read_offset real_read_len : Z) : BM_ (Z * Z * bytes) :=
  f ← get_logic_block fileid chunkid C_MAIN_BLOCK;
  match f with
  | None => mret (EXIT_NO_LOGICBLOCK_ERROR, real_read_len, [])
  | Some lloc => lb_read_raw_data lloc real_read_len read_offset
  end.

Definition new_single_block (fileid chunkid : Z) : BM_ Z :=
  f ← get_logic_block fileid chunkid C_MAIN_BLOCK;
  ret ← (if f is Some _ then del_block fileid chunkid C_MAIN_BLOCK else mret TFS_SUCCESS);
  if negb (ret =? TFS_SUCCESS) then mret ret else
  r ← new_block fileid chunkid 0 C_MAIN_BLOCK; mret r.1.
Definition del_single_block (fileid chunkid : Z) : BM_ Z := del_block fileid chunkid C_MAIN_BLOCK.

Definition write_raw_data (fileid chunkid data_offset : Z) (data_buffer : bytes) : BM_ Z :=
  if decide (data_buffer = []) then mret TFS_SUCCESS else
  f ← get_logic_block fileid chunkid C_MAIN_BLOCK;
  match f with
  | Some lloc => lb_write_raw_data lloc data_buffer data_offset
  | None =>
      ret ← new_single_block fileid chunkid;
      if negb (ret =? TFS_SUCCESS) then mret TFS_ERROR else
      f ← get_logic_block fileid chunkid C_MAIN_BLOCK;
      lloc ← lift f;
      lb_write_raw_data lloc data_buffer data_offset
  end.

(** The vectors hold pairs of a file and a chunk; [at] throws past the end.  The line
    for the log, which prints a number with a format for text, is left out. *)
Fixpoint batch_new_block (new_blocks : list Z) : BM_ Z :=
  match new_blocks with
  | [] => mret TFS_SUCCESS
  | [_] => ub
  | f :: c :: rest =>
      r ← new_block (u64 f) (u32 c) 0 C_MAIN_BLOCK;
      if negb (r.1 =? TFS_SUCCESS) then mret r.1 else batch_new_block rest
  end.
Fixpoint batch_remove_block (remove_blocks : list Z) : BM_ Z :=
  match remove_blocks with
  | [] => mret TFS_SUCCESS
  | [_] => ub
  | f :: c :: rest =>
      r ← del_block (u64 f) (u32 c) C_MAIN_BLOCK;
      if negb (r =? TFS_SUCCESS) then mret r else batch_remove_block rest
  end.

(** The code, the size and the number of visits. *)
Definition get_block_info (fileid chunkid : Z) : BM_ (Z * option (Z * Z)) :=
  f ← get_logic_block fileid chunkid C_MAIN_BLOCK;
  match f with
  | None => mret (EXIT_NO_LOGICBLOCK_ERROR, None)
  | Some lloc => l ← get_lb lloc; mret (TFS_SUCCESS, Some (lb_avail_data_size l, lb_visit_count l))
  end.
Definition get_block_curr_size (fileid chunkid : Z) : BM_ (Z * option Z) :=
  f ← get_logic_block fileid chunkid C_MAIN_BLOCK;
  match f with
  | None => mret (EXIT_NO_LOGICBLOCK_ERROR, None)
  | Some lloc => l ← get_lb lloc; mret (TFS_SUCCESS, Some (lb_avail_data_size l))
  end.
Definition get_ds_filesystem_info : BM_ (Z * Z * Z) :=
  n ← query_approx_block_count; r ← query_space; mret (n.2, r.2.1, r.2.2).
(** The physical blocks of every logic block, under the text of its name. *)
Fixpoint block_pairs (locs : list Z) : BM_ (list (bytes * list Z)) :=
  match locs with
  | [] => mret []
  | lloc :: locs =>
      l ← get_lb lloc;
      s ← get;
      ids ← lift (mapM (λ loc, pb_physical_block_id <$> pheap s !! loc) (lb_physical_block_list l));
      rest ← block_pairs locs;
      mret ((combine_itoa (lb_fileid l) (lb_chunkid l), ids) :: rest)
  end.
Definition query_block_status (pairs : bool) : BM_ (list bytes * list (bytes * list Z)) :=
  ids ← get_logic_block_ids C_MAIN_BLOCK;
  all ← get_all_logic_block C_MAIN_BLOCK;
  ps ← (if pairs then block_pairs all else mret []);
  mret (ids, ps).
