(* ===== verification/StoreInv.v ===== *)
(** The paths of a block store's files are all different, and what the transfers of
    DsFile.v mean for a physical block and for the super block file. *)
From Stdlib Require Import (notations) String.
From stdpp Require Import fin_map_dom.
From S2P Require Import Prelude Bytes Text ProxyMsg Bitmap DsFile DsBlock BlockStore BlockLoad.

Definition plain (c : Z) : Prop := is_space c = false ∧ c ≠ 0.

Lemma digits_plain c : is_digit c = true → plain c.
Proof.
  unfold is_digit, plain, is_space. intros [?%Z.leb_le ?%Z.leb_le]%andb_prop. split; [|lia].
  destruct (Z.eqb_spec c 32); [lia|]. destruct (Z.leb_spec c 13); [lia|]. by rewrite andb_false_r.
Qed.
Lemma word_plain s : Forall plain s → word s = s.
Proof. induction 1 as [|c s [Hc _] Hs IH]; [done|]. simpl. by rewrite Hc, IH. Qed.
Lemma skip_plain s : Forall plain s → skip_space s = s.
Proof. destruct 1 as [|c s [Hc _] Hs]; [done|]. simpl. by rewrite Hc. Qed.

Lemma fmt_u_digits n : 0 ≤ n < 10 ^ 20 →
  forallb is_digit (fmt_u n) = true ∧ read_digits (fmt_u n) 0 = n ∧ fmt_u n ≠ [].
Proof.
  intros Hn. by destruct (fmt_u_spec n Hn) as (c & ds & -> & ? & ? & _).
Qed.
Lemma fmt_u_plain n : 0 ≤ n < 10 ^ 20 → Forall plain (fmt_u n).
Proof.
  intros Hn. destruct (fmt_u_digits n Hn) as (Hd & _). rewrite forallb_forall in Hd.
  rewrite Forall_forall. intros c Hc. apply digits_plain, Hd. by apply list_elem_of_In.
Qed.
Lemma fmt_u_inj n m : 0 ≤ n < 10 ^ 20 → 0 ≤ m < 10 ^ 20 → fmt_u n = fmt_u m → n = m.
Proof.
  intros Hn Hm E. destruct (fmt_u_digits n Hn) as (_ & Hrn & _), (fmt_u_digits m Hm) as (_ & Hrm & _). congruence.
Qed.

Section paths.
Context (mnt : bytes).
Hypothesis Hmnt : Forall plain mnt.

Definition main_path (id : Z) : bytes := block_path mnt C_MAIN_BLOCK id.
Definition super_path : bytes := mnt ++ SUPERBLOCK_NAME.

Lemma main_path_eq id : 0 ≤ id < 10 ^ 20 → main_path id = mnt ++ MAINBLOCK_DIR_PREFIX ++ fmt_u id.
Proof.
  intros Hid. unfold main_path, block_path. rewrite decide_True by done.
  assert (Forall plain (mnt ++ MAINBLOCK_DIR_PREFIX ++ fmt_u id)) as Hp.
  { apply Forall_app_2; [done|]. apply Forall_app_2; [|by apply fmt_u_plain]. by repeat constructor. }
  by rewrite skip_plain, word_plain.
Qed.
Lemma main_path_inj id id' : 0 ≤ id < 10 ^ 20 → 0 ≤ id' < 10 ^ 20 → main_path id = main_path id' → id = id'.
Proof. intros H H'. rewrite !main_path_eq by done. intros E. apply app_inv_head, app_inv_head in E. by apply fmt_u_inj. Qed.
Lemma main_super_path id : 0 ≤ id < 10 ^ 20 → main_path id ≠ super_path.
Proof.
  intros H. rewrite main_path_eq by done. unfold super_path. intros E%app_inv_head.
  destruct (fmt_u_digits id H) as (Hd & _ & _). change SUPERBLOCK_NAME with (MAINBLOCK_DIR_PREFIX ++ lit "fs_super") in E.
  apply app_inv_head in E. by rewrite E in Hd.
Qed.
End paths.

(** ** A physical block *)

(** The block object number [id] with data area of [ms] bytes. *)
Record pb_rep (mnt : bytes) (ms id : Z) (p : prefix) (b : pblock) : Prop := PBRep {
  pbr_id : pb_physical_block_id b = id;
  pbr_start : pb_data_start b = BLOCK_RESERVER_LENGTH;
  pbr_len : pb_total_data_len b = ms;
  pbr_prefix : pb_block_prefix b = p;
  pbr_name : fo_name (pb_file_op b) = main_path mnt id }.

Lemma pb_new_run mnt ms id : 0 < ms < 2 ^ 31 - 512 → ∃ b,
  pb_new id mnt (i32 (BLOCK_RESERVER_LENGTH + ms)) C_MAIN_BLOCK = Some b ∧ pb_rep mnt ms id prefix0 b.
Proof.
  intros Hms. unfold pb_new, BLOCK_RESERVER_LENGTH. rewrite (i32_small (512 + ms)), i32_small by lia.
  replace (512 + ms - 512) with ms by lia. destruct (Z.leb_spec ms 0); [lia|]. by eexists.
Qed.
Lemma pb_rep_set mnt ms id p q b : pb_rep mnt ms id p b → pb_rep mnt ms id q (pb_set_prefix q b).
Proof. intros []. by split. Qed.
Lemma pb_rep_file mnt ms id p b f : pb_rep mnt ms id p b → fo_name f = fo_name (pb_file_op b) → pb_rep mnt ms id p (pb_set_file f b).
Proof. intros [] H. split; try done. simpl. congruence. Qed.

Lemma zoom_run {S T A} (rd : S → T) (wr : T → S → S) (m : M T A) s x t :
  m (rd s) = Some (x, t) → zoom rd wr m s = Some (x, wr t s).
Proof. intros H. unfold zoom. by rewrite H. Qed.

(** What a write of the methods below leaves: the block with a prefix of the data
    in its file. *)
Definition pb_write_out (mnt : bytes) (ms id : Z) (p : prefix) (d : dsk) (f buf : bytes) (off : Z)
    (res : option (Z * (pblock * dsk))) : Prop := ∃ code b' d' k,
  res = Some (code, (b', d')) ∧ pb_rep mnt ms id p b' ∧ later d d' ∧ (k ≤ length buf)%nat ∧
  d_files d' = <[main_path mnt id := file_write (Z.to_nat off) (take k buf) f]> (d_files d) ∧
  (code = TFS_SUCCESS ∧ k = length buf ∨ code < 0) ∧ (d_os d = [] → code = TFS_SUCCESS).

Lemma pb_pwrite_run mnt ms id p b d f buf off :
  pb_rep mnt ms id p b → d_files d !! main_path mnt id = Some f → 0 ≤ off →
  pb_write_out mnt ms id p d f buf off (pb_file (pwrite_file buf off) (b, d)).
Proof.
  intros Hb Hf Ho. pose proof (pbr_name _ _ _ _ _ Hb) as Hn.
  destruct (pwrite_loop_run 4 (pb_file_op b) d f buf off) as (code & p' & d' & k & E & [Hs1 Hs2] & Hl & Hk & Hfs & Hc & Hq); [by rewrite Hn|done|].
  exists code, (pb_set_file p' b), d', k. split_and!; try done.
  - unfold pb_file. erewrite zoom_run by exact E. done.
  - by apply pb_rep_file.
  - by rewrite Hfs, Hn.
  - destruct Hc as [?|[? _]]; auto.
  - intros H0. by apply Hq.
Qed.

Lemma dump_run mnt ms id p b d f :
  pb_rep mnt ms id p b → d_files d !! main_path mnt id = Some f →
  pb_write_out mnt ms id p d f (enc_prefix p) 0 (dump_block_prefix (b, d)).
Proof.
  intros Hb Hf. unfold dump_block_prefix. M_unfold. simpl. rewrite (pbr_prefix _ _ _ _ _ Hb).
  by apply pb_pwrite_run.
Qed.

Lemma pwrite_data_run mnt ms id p b d f buf off :
  pb_rep mnt ms id p b → d_files d !! main_path mnt id = Some f → 0 < ms < 2 ^ 31 - 512 →
  0 ≤ off → off + Z.of_nat (length buf) ≤ ms →
  pb_write_out mnt ms id p d f buf (512 + off) (pwrite_data buf off (b, d)).
Proof.
  intros Hb Hf Hms Ho Hlen. unfold pwrite_data. M_unfold. simpl. rewrite (pbr_len _ _ _ _ _ Hb), (pbr_start _ _ _ _ _ Hb).
  rewrite i32_small by lia. destruct (Z.ltb_spec ms (off + Z.of_nat (length buf))); [lia|].
  unfold BLOCK_RESERVER_LENGTH. rewrite i32_small by lia. apply pb_pwrite_run; [done..|lia].
Qed.

Lemma pread_data_run mnt ms id p b d f n off :
  pb_rep mnt ms id p b → d_files d !! main_path mnt id = Some f → 0 < ms < 2 ^ 31 - 512 →
  0 ≤ off → 0 ≤ n → off + n ≤ ms → (512 + Z.to_nat ms ≤ length f)%nat → ∃ code data b' d',
  pread_data n off (b, d) = Some ((code, data), (b', d')) ∧ pb_rep mnt ms id p b' ∧ later d d' ∧ d_files d' = d_files d ∧
  (code = TFS_SUCCESS ∧ data = take (Z.to_nat n) (drop (512 + Z.to_nat off) f) ∨ code < 0) ∧
  (d_os d = [] → code = TFS_SUCCESS).
Proof.
  intros Hb Hf Hms Ho Hn0 Hlen Hl. unfold pread_data. M_unfold. simpl. rewrite (pbr_len _ _ _ _ _ Hb), (pbr_start _ _ _ _ _ Hb).
  rewrite i32_small by lia. destruct (Z.ltb_spec ms (off + n)); [lia|].
  unfold BLOCK_RESERVER_LENGTH. rewrite i32_small by lia.
  pose proof (pbr_name _ _ _ _ _ Hb) as Hn.
  destruct (pread_loop_run 4 (pb_file_op b) d f n (512 + off) []) as [(code & data & p' & d' & E & [Hs1 Hs2] & Hla & Hfs & Hda & Hdl & Hc & Hq) _];
    [by rewrite Hn|lia|].
  exists code, data, (pb_set_file p' b), d'. split_and!; try done.
  - unfold pb_file. by erewrite zoom_run by exact E.
  - by apply pb_rep_file.
  - destruct Hc as [[-> Hc]|[? _]]; [left|by right]. split; [done|]. rewrite Hda. f_equal; [lia|]. f_equal. lia.
  - intros H0. apply Hq; [done|done|lia|lia].
Qed.

Lemma load_prefix_run mnt ms id p b d f :
  pb_rep mnt ms id p b → d_files d !! main_path mnt id = Some f → (20 ≤ length f)%nat → ∃ code q b' d',
  load_block_prefix (b, d) = Some (code, (b', d')) ∧ pb_rep mnt ms id q b' ∧ later d d' ∧ d_files d' = d_files d ∧
  (code = TFS_SUCCESS ∧ q = dec_prefix (take 20 f) ∨ code < 0) ∧ (d_os d = [] → code = TFS_SUCCESS).
Proof.
  intros Hb Hf Hl. pose proof (pbr_name _ _ _ _ _ Hb) as Hn.
  destruct (pread_loop_run 4 (pb_file_op b) d f 20 0 []) as [(code & data & p' & d' & E & [Hs1 Hs2] & Hla & Hfs & Hda & Hdl & Hc & Hq) _];
    [by rewrite Hn|lia|].
  exists code, (dec_prefix (filled sizeof_prefix data)), (pb_set_prefix (dec_prefix (filled sizeof_prefix data)) (pb_set_file p' b)), d'.
  split_and!; try done.
  - unfold load_block_prefix, pb_file. erewrite M_bind_Some; [|apply zoom_run; exact E]. done.
  - eapply pb_rep_set, pb_rep_file; done.
  - destruct Hc as [[-> Hc]|[? _]]; [left|by right]. split; [done|]. unfold filled, sizeof_prefix.
    replace (Z.to_nat 20 - length data)%nat with 0%nat by lia. rewrite app_nil_r. f_equal. rewrite Hda.
    replace (length data) with 20%nat by lia. done.
  - intros H0. apply Hq; [done|done|lia|simpl; lia].
Qed.

(** The invariant of the block store: what the maps, the bitmap, the objects and the
    files of BlockStore.v have to do with each other, and the saves of the super
    block file.

    The store is seen as a map [V] from names (a file and a chunk) to the numbers of
    their blocks, and a function [C] from block numbers to the contents of their data
    areas. *)
Create HintDb store discriminated.

Abbreviation name := (Z * Z)%type.

Record geometry := Geo { g_mnt : bytes; g_rsv : Z; g_mc : Z; g_ms : Z }.
Record geo_ok (g : geometry) : Prop := GeoOk {
  geo_plain : Forall plain (g_mnt g);
  geo_len : (length (g_mnt g) ≤ 127)%nat;
  geo_rsv : 0 ≤ g_rsv g < 2 ^ 30;
  geo_mc : 0 < g_mc g < 2 ^ 31 - 1;
  geo_ms : 0 < g_ms g < 2 ^ 31 - 512 }.

Section inv.
Context (g : geometry) (Hg : geo_ok g).
Local Abbreviation mnt := (g_mnt g).
Local Abbreviation mc := (g_mc g).
Local Abbreviation ms := (g_ms g).
Local Abbreviation bitmap_off := (g_rsv g + 436).
Local Abbreviation path := (main_path mnt).
Local Abbreviation super := (super_path mnt).

Definition im_rep (i : sbimpl) : Prop :=
  si_super_reserve_offset i = g_rsv g ∧ si_bitmap_start_offset i = bitmap_off ∧
  fo_name (si_file_op i) = super ∧ fo_flags (si_file_op i) = Z.lor O_RDWR O_SYNC.

Definition sb_rep (sb : superblock) : Prop :=
  sb_ok sb ∧ sb_main_block_count sb = mc ∧ sb_main_block_size sb = ms ∧ sb_extend_block_count sb = 0 ∧
  check_status DEV_TAG sb = true ∧ mount_point sb = mnt.

(** The objects behind the name [k] with block [id]. *)
Record block_ok (s : bfm) (k : name) (id lloc loc : Z) : Prop := BlockOk {
  bo_find : find_logic_block_map (logic_blocks_ s) k.1 k.2 = Some lloc;
  bo_logic : ∃ l, lheap s !! lloc = Some l ∧ lb_fileid l = k.1 ∧ lb_chunkid l = k.2 ∧
               lb_avail_data_size l = ms ∧ lb_physical_block_list l = [loc];
  bo_phys : physcial_blocks_ s !! id = Some loc;
  bo_pb : ∃ b, pheap s !! loc = Some b ∧ pb_rep mnt ms id (Prefix k.1 k.2 0 0) b }.

(** [S] is the set of the bits that are set. *)
Record store_at (s : bfm) (V : gmap name Z) (C : Z → bytes) (S : gset Z) : Prop := StoreAt {
  so_normal : ∃ b d, normal_bit_map_ s = Some b ∧ bm_rep b (mc + 1) d S;
  so_error : ∃ b d E, error_bit_map_ s = Some b ∧ bm_rep b (mc + 1) d E;
  so_super : sb_rep (super_block_ s);
  so_impl : ∃ i, super_block_impl_ s = Some i ∧ im_rep i;
  so_sfile : is_Some (d_files (disk s) !! super);
  so_files : ∀ id, 1 ≤ id ≤ mc → ∃ h, d_files (disk s) !! path id = Some (h ++ C id) ∧
               length h = 512%nat ∧ length (C id) = Z.to_nat ms;
  so_compact : compact_logic_blocks_ s = ∅;
  so_blocks : ∀ k id, V !! k = Some id → ∃ lloc loc, block_ok s k id lloc loc;
  so_free : ∀ k, V !! k = None → find_logic_block_map (logic_blocks_ s) k.1 k.2 = None;
  so_dom : dom (physcial_blocks_ s) = map_img V;
  so_inj : ∀ k1 k2 id, V !! k1 = Some id → V !! k2 = Some id → k1 = k2;
  so_range : ∀ k id, V !! k = Some id → 1 ≤ id ≤ mc ∧ is_u64 k.1 ∧ is_u32 k.2;
  so_brk : 0 < brk s ∧ (∀ a b, pheap s !! a = Some b → 0 < a < brk s) ∧ (∀ a b, lheap s !! a = Some b → a < brk s) }.
(** The bits are those of the blocks. *)
Definition store_ok (s : bfm) (V : gmap name Z) (C : Z → bytes) : Prop := store_at s V C (map_img V).

Lemma so_id_range V s C S id : store_at s V C S → id ∈ (map_img V : gset Z) → 1 ≤ id ≤ mc.
Proof. intros H [k Hk]%elem_of_map_img. by apply (so_range _ _ _ _ H k). Qed.
Lemma id_small id : 1 ≤ id ≤ mc → 0 ≤ id < 10 ^ 20.
Proof. pose proof (geo_mc _ Hg). lia. Qed.
Lemma path_super id : 1 ≤ id ≤ mc → path id ≠ super.
Proof. intros H. apply main_super_path; [apply Hg|by apply id_small]. Qed.
Lemma path_inj id id' : 1 ≤ id ≤ mc → 1 ≤ id' ≤ mc → path id = path id' → id = id'.
Proof. intros H H'. apply main_path_inj; [apply Hg|by apply id_small..]. Qed.

(** ** Saving *)

(** The super block file, its handle and the script moved on. *)
Definition io_step (s s' : bfm) : Prop := ∃ i' d',
  s' = set_impl (Some i') d' s ∧ im_rep i' ∧ later (disk s) d' ∧
  (∀ p, p ≠ super → d_files d' !! p = d_files (disk s) !! p) ∧ is_Some (d_files d' !! super).

Lemma store_at_io s s' V C S : store_at s V C S → io_step s s' → store_at s' V C S.
Proof.
  intros H (i' & d' & -> & Hi & Hl & Hfs & Hsf). destruct H. split; simpl; try done.
  - by exists i'.
  - intros id Hid. rewrite Hfs by (by apply path_super). by apply so_files0.
  - intros k id Hk. destruct (so_blocks0 _ _ Hk) as (lloc & loc & []). exists lloc, loc. by split.
Qed.
#[local] Instance io_step_trans : Transitive io_step.
Proof.
  intros s1 s2 s3 (i1 & d1 & -> & Hi1 & Hl1 & Hf1 & Hs1) (i2 & d2 & -> & Hi2 & Hl2 & Hf2 & Hs2). simpl in *.
  exists i2, d2. split_and!; [done|done|by etrans| |done]. intros p Hp. by rewrite Hf2, Hf1.
Qed.

(** What a save returns: an error, or the data in the super block file; always the
    latter on a disk without faults. *)
Definition saved (s : bfm) (off : Z) (data : bytes) (res : option (Z * bfm)) : Prop := ∃ r s',
  res = Some (r, s') ∧ io_step s s' ∧
  (r = TFS_SUCCESS ∧ (∀ f, d_files (disk s) !! super = Some f →
     d_files (disk s') !! super = Some (file_write (Z.to_nat off) data f)) ∨ r < 0) ∧
  (d_os (disk s) = [] → r = TFS_SUCCESS ∧ d_os (disk s') = []).

Lemma in_impl_run {A} (m : SIM A) s i r i' d' :
  super_block_impl_ s = Some i → m (i, disk s) = Some (r, (i', d')) →
  in_impl m s = Some (r, set_impl (Some i') d' s).
Proof. intros Hi Hm. unfold in_impl. rewrite Hi. cbn [mbind option_bind]. by rewrite Hm. Qed.

Lemma si_write_run s V C S i data off :
  store_at s V C S → super_block_impl_ s = Some i → im_rep i → 0 ≤ off →
  saved s off data (in_impl (si_file (pwrite_file data off)) s).
Proof.
  intros H Hi Him Ho. destruct (so_sfile _ _ _ _ H) as [f Hf]. pose proof Him as (Hr & Hb & Hn & Hfl).
  assert (d_files (disk s) !! fo_name (si_file_op i) = Some f) as Hf' by (by rewrite Hn).
  destruct (pwrite_loop_run 4 (si_file_op i) (disk s) f data off Hf' Ho)
    as (code & p' & d' & k & E & [Hs1 Hs2] & Hl & Hk & Hfs & Hc & Hq).
  exists code, (set_impl (Some (si_set_file p' i)) d' s). split_and!.
  - apply in_impl_run with i; [done|]. unfold si_file. by erewrite zoom_run by exact E.
  - exists (si_set_file p' i), d'. split_and!; try done.
    + unfold im_rep. simpl. split_and!; congruence.
    + intros p Hp. rewrite Hfs, Hn. by rewrite lookup_insert_ne.
    + rewrite Hfs, Hn, lookup_insert_eq. done.
  - simpl. destruct Hc as [[-> ->]|[? _]]; [left|by right]. split; [done|]. intros f2 Hf2.
    rewrite Hfs, Hn, lookup_insert_eq, take_ge by lia. congruence.
  - intros H0. split; [by apply Hq|]. simpl. by eapply later_nil.
Qed.

Lemma save_super_run s V C S : store_at s V C S →
  saved s (g_rsv g) (enc_superblock (super_block_ s) ++ enc_superblock (super_block_ s)) (save_super s).
Proof.
  intros H. destruct (so_impl _ _ _ _ H) as (i & Hi & Him). pose proof Him as (Hr & _).
  replace (save_super s) with (in_impl (si_file (pwrite_file (enc_superblock (super_block_ s) ++ enc_superblock (super_block_ s)) (g_rsv g))) s).
  - eapply si_write_run; [done..|]. pose proof (geo_rsv _ Hg). lia.
  - unfold save_super, in_impl, write_super_blk. M_unfold. rewrite Hi. cbn [mbind option_bind fst]. by rewrite Hr.
Qed.

Definition bitmap_data (dn de : bytes) : bytes := dn ++ dn ++ de ++ de.
Lemma save_bit_map_run s V C S bn dn Sn be de Se : store_at s V C S →
  normal_bit_map_ s = Some bn → bm_rep bn (mc + 1) dn Sn → error_bit_map_ s = Some be → bm_rep be (mc + 1) de Se →
  saved s bitmap_off (bitmap_data dn de) (save_bit_map s).
Proof.
  intros H Hbn Hn Hbe He. destruct (so_impl _ _ _ _ H) as (i & Hi & Him). pose proof Him as (_ & Hb & _).
  replace (save_bit_map s) with (in_impl (si_file (pwrite_file (bitmap_data dn de) bitmap_off)) s).
  - eapply si_write_run; [done..|]. pose proof (geo_rsv _ Hg). lia.
  - unfold save_bit_map, normal, error, write_bit_map. M_unfold. unfold getsM. rewrite Hbn. cbn [mbind option_bind].
    rewrite Hbe. cbn [mbind option_bind]. rewrite (bmr_slot _ _ _ _ Hn), (bmr_slot _ _ _ _ He), Z.eqb_refl. cbn [negb].
    unfold in_impl, lift. M_unfold. rewrite Hi. cbn [mbind option_bind]. rewrite (bmr_data _ _ _ _ Hn). cbn [mbind option_bind].
    rewrite (bmr_data _ _ _ _ He). cbn [mbind option_bind].
    rewrite (bmr_len _ _ _ _ Hn), (bmr_len _ _ _ _ He), Nat.ltb_irrefl. cbn [orb fst].
    rewrite !take_ge by (by rewrite ?(bmr_len _ _ _ _ Hn), ?(bmr_len _ _ _ _ He)). by rewrite Hb.
Qed.

(** The file is opened with [O_SYNC], so flushing does nothing. *)
Lemma save_flush_run s V C S : store_at s V C S → save_flush s = Some (0, s).
Proof.
  intros H. destruct (so_impl _ _ _ _ H) as (i & Hi & Him). pose proof Him as (_ & _ & _ & Hfl).
  unfold save_flush. rewrite (in_impl_run _ s i 0 i (disk s) Hi).
  - destruct s. simpl in *. by rewrite <- Hi.
  - unfold si_flush_file, si_file, zoom, flush_file. M_unfold. simpl. rewrite Hfl. simpl. by destruct i as [? ? []].
Qed.

(** ** Steps that leave the objects alone *)

(** Bits, counters and the super block file may change. *)
Record meta_step (s s' : bfm) : Prop := MetaStep {
  ms_logic : logic_blocks_ s' = logic_blocks_ s;
  ms_compact : compact_logic_blocks_ s' = compact_logic_blocks_ s;
  ms_phys : physcial_blocks_ s' = physcial_blocks_ s;
  ms_error : error_bit_map_ s' = error_bit_map_ s;
  ms_pheap : pheap s' = pheap s;
  ms_lheap : lheap s' = lheap s;
  ms_brk : brk s' = brk s;
  ms_impl : ∃ i, super_block_impl_ s' = Some i ∧ im_rep i;
  ms_later : later (disk s) (disk s');
  ms_files : ∀ p, p ≠ super → d_files (disk s') !! p = d_files (disk s) !! p;
  ms_sfile : is_Some (d_files (disk s') !! super) }.
#[export] Instance meta_step_trans : Transitive meta_step.
Proof.
  intros s1 s2 s3 [] []. split; try congruence; try done.
  - by etrans.
  - intros p Hp. by rewrite ms_files1, ms_files0.
Qed.
Lemma meta_refl s V C S : store_at s V C S → meta_step s s.
Proof. intros H. split; try done; apply H. Qed.
Lemma io_meta s s' : io_step s s' → meta_step s s'.
Proof. intros (i & d & -> & Hi & Hl & Hf & Hs). split; try done. by exists i. Qed.

Definition bits_are (s : bfm) (S : gset Z) : Prop := ∃ b d, normal_bit_map_ s = Some b ∧ bm_rep b (mc + 1) d S.
Lemma store_at_meta s s' V C S S' :
  store_at s V C S → meta_step s s' → bits_are s' S' → sb_rep (super_block_ s') → store_at s' V C S'.
Proof.
  intros H M Hb Hsb. destruct H, M. split; try done.
  - by rewrite ms_error0.
  - intros id Hid. rewrite ms_files0 by (by apply path_super). by apply so_files0.
  - by rewrite ms_compact0.
  - intros k id Hk. destruct (so_blocks0 _ _ Hk) as (lloc & loc & []). exists lloc, loc.
    split; rewrite ?ms_logic0, ?ms_lheap0, ?ms_phys0, ?ms_pheap0; done.
  - by rewrite ms_logic0.
  - by rewrite ms_phys0.
  - by rewrite ms_brk0, ms_pheap0, ms_lheap0.
Qed.

Lemma upd_normal_run f s V C S S' :
  store_at s V C S →
  (∀ b d, bm_rep b (mc + 1) d S → ∃ b' d', f b = Some b' ∧ bm_rep b' (mc + 1) d' S') →
  ∃ s', upd_normal f s = Some (tt, s') ∧ meta_step s s' ∧ bits_are s' S' ∧ super_block_ s' = super_block_ s ∧
    disk s' = disk s.
Proof.
  intros H Hf. destruct (so_normal _ _ _ _ H) as (b & d & Hb & HR). destruct (Hf _ _ HR) as (b' & d' & Hf' & HR').
  exists (set_maps (bit_map_size_ s) (Some b') (error_bit_map_ s) s). split_and!; [|split; simpl; try done; apply H|by exists b', d'|done|done].
  unfold upd_normal, normal, lift. M_unfold. unfold getsM. rewrite Hb. cbn [mbind option_bind]. by rewrite Hf'.
Qed.

Lemma upd_super_run f s V C S :
  store_at s V C S → sb_rep (f (super_block_ s)) →
  upd_super f s = Some (tt, set_super (f (super_block_ s)) s) ∧ meta_step s (set_super (f (super_block_ s)) s) ∧
  store_at (set_super (f (super_block_ s)) s) V C S.
Proof.
  intros H Hf. assert (meta_step s (set_super (f (super_block_ s)) s)) as HM by (split; simpl; try done; apply H).
  split_and!; [done|done|]. by eapply store_at_meta; [done|done|apply H|].
Qed.

Lemma sb_rep_used d sb : sb_rep sb → sb_rep (add_used d sb).
Proof.
  intros (Hok & H). split; [|done]. destruct Hok. unfold add_used, set_used. split; try done. simpl.
  repeat (apply Forall_cons in sbo_ints as [? sbo_ints]). repeat (apply Forall_cons; split); try done. apply i32_range.
Qed.
Lemma sb_rep_used_ext d sb : sb_rep sb → sb_rep (add_used_ext d sb).
Proof.
  intros (Hok & H). split; [|done]. destruct Hok. unfold add_used_ext, set_used_ext. split; try done. simpl.
  repeat (apply Forall_cons in sbo_ints as [? sbo_ints]). repeat (apply Forall_cons; split); try done. apply i32_range.
Qed.

(** The super block file holds what is in memory. *)
Definition super_synced (s : bfm) : Prop := ∃ f bn dn be de,
  d_files (disk s) !! super = Some f ∧
  normal_bit_map_ s = Some bn ∧ bm_data bn = Some dn ∧ error_bit_map_ s = Some be ∧ bm_data be = Some de ∧
  take 432 (drop (Z.to_nat (g_rsv g)) f) = enc_superblock (super_block_ s) ++ enc_superblock (super_block_ s) ∧
  take (length (bitmap_data dn de)) (drop (Z.to_nat bitmap_off) f) = bitmap_data dn de.
End inv.
#[export] Hint Resolve sb_rep_used sb_rep_used_ext : store.
