(* ===== verification/StoreBlocks.v ===== *)
(** Creating and deleting blocks keeps the invariant of StoreInv.v, whatever the disk
    does. *)
From Stdlib Require Import (notations) String.
From stdpp Require Import fin_map_dom.
From S2P Require Import Prelude Bytes Text ProxyMsg Bitmap DsFile DsBlock BlockStore StoreInv.

Section blocks.
Context (g : geometry) (Hg : geo_ok g).
Local Abbreviation mnt := (g_mnt g).
Local Abbreviation mc := (g_mc g).
Local Abbreviation ms := (g_ms g).
Local Abbreviation bitmap_off := (g_rsv g + 436).
Local Abbreviation path := (main_path mnt).
Local Abbreviation super := (super_path mnt).
Local Abbreviation store_at := (store_at g).
Local Abbreviation store_ok := (store_ok g).
Local Abbreviation sb_rep := (sb_rep g).
Local Abbreviation meta_step := (meta_step g).
Local Abbreviation bits_are := (bits_are g).
Local Abbreviation super_synced := (super_synced g).

(** A bitmap and a super block that were both saved. *)
Lemma saved_synced s1 s2 s3 f bn dn be de :
  d_files (disk s1) !! super = Some f → 0 ≤ g_rsv g → sb_ok (super_block_ s3) →
  d_files (disk s2) !! super = Some (file_write (Z.to_nat bitmap_off) (bitmap_data dn de) f) →
  d_files (disk s3) !! super = Some (file_write (Z.to_nat (g_rsv g)) (enc_superblock (super_block_ s3) ++ enc_superblock (super_block_ s3))
                                       (file_write (Z.to_nat bitmap_off) (bitmap_data dn de) f)) →
  normal_bit_map_ s3 = Some bn → bm_data bn = Some dn → error_bit_map_ s3 = Some be → bm_data be = Some de →
  super_synced s3.
Proof.
  intros Hf Hr Hok H2 H3 Hbn Hdn Hbe Hde.
  assert (length (enc_superblock (super_block_ s3) ++ enc_superblock (super_block_ s3)) = 432%nat) as Hl
    by (by rewrite length_app, enc_superblock_length).
  eexists _, bn, dn, be, de. split_and!; [exact H3|done..| |].
  - rewrite <- Hl at 1. apply file_write_back.
  - rewrite file_write_after by lia. apply file_write_back.
Qed.

Lemma meta_quiet s s' : meta_step s s' → d_os (disk s) = [] → d_os (disk s') = [].
Proof. intros M. eapply later_nil, M. Qed.

(** The outcome of [commit] and of what it is made of. *)
Record commit_out (s : bfm) (V : gmap name Z) (C : Z → bytes) (S : gset Z) (count : superblock → superblock)
    (code : Z) (flag : bool) (s' : bfm) : Prop := CommitOut {
  co_meta : meta_step s s';
  co_store : store_at s' V C S;
  co_super : super_block_ s' = if flag then count (super_block_ s) else super_block_ s;
  co_code : code = TFS_SUCCESS ∧ flag = true ∧ super_synced s' ∨ code < 0;
  co_quiet : d_os (disk s) = [] → code = TFS_SUCCESS }.

Lemma commit_run s V C S id count :
  store_at s V C S → 1 ≤ id ≤ mc → (∀ sb, sb_rep sb → sb_rep (count sb)) → ∃ code flag s',
  commit id count s = Some ((code, flag), s') ∧ commit_out s V C ({[id]} ∪ S) count code flag s'.
Proof.
  intros H Hid Hc. unfold commit.
  destruct (upd_normal_run g (bm_set id) s V C S ({[id]} ∪ S) H) as (s1 & E1 & M1 & B1 & Hsb1 & Hd1).
  { intros b d HR. apply (bm_set_run _ _ _ _ _ HR). lia. }
  rewrite (M_bind_Some _ _ _ _ _ E1).
  assert (store_at s1 V C ({[id]} ∪ S)) as H1 by (eapply store_at_meta; [done|exact H|done|done|rewrite Hsb1; apply H]).
  destruct (so_normal _ _ _ _ _ H1) as (bn & dn & Hbn & Hn). destruct (so_error _ _ _ _ _ H1) as (be & de & Se & Hbe & He).
  destruct (save_bit_map_run g Hg s1 V C _ bn dn _ be de Se H1 Hbn Hn Hbe He) as (r & s2 & E2 & I2 & R2 & Q2).
  rewrite (M_bind_Some _ _ _ _ _ E2).
  pose proof (store_at_io g Hg _ _ _ _ _ H1 I2) as H2. pose proof (io_meta g _ _ I2) as M2.
  assert (super_block_ s2 = super_block_ s) as Hsb2 by (destruct I2 as (i & d & -> & _); simpl; congruence).
  assert (normal_bit_map_ s2 = Some bn) as Hbn2 by (destruct I2 as (i & d & -> & _); simpl; congruence).
  assert (error_bit_map_ s2 = Some be) as Hbe2 by (destruct I2 as (i & d & -> & _); simpl; congruence).
  assert (meta_step s s2) as M12 by (by etrans).
  rewrite Hd1 in Q2.
  destruct (Z.eqb_spec r TFS_SUCCESS) as [->|Hr]; cbn [negb]; cycle 1.
  { M_unfold. exists r, false, s2. split; [done|]. split; [done|done|done| |].
    - right. destruct R2 as [[-> _]|?]; done.
    - intros H0. by apply Q2. }
  destruct (upd_super_run g Hg count s2 V C _ H2) as (E3 & M3 & H3); [rewrite Hsb2; apply Hc, H|].
  rewrite (M_bind_Some _ _ _ _ _ E3). set (s3 := set_super (count (super_block_ s2)) s2) in *.
  destruct (save_super_run g Hg s3 V C _ H3) as (r & s4 & E4 & I4 & R4 & Q4).
  rewrite (M_bind_Some _ _ _ _ _ E4).
  pose proof (store_at_io g Hg _ _ _ _ _ H3 I4) as H4. pose proof (io_meta g _ _ I4) as M4.
  assert (meta_step s s4) as M14 by (etrans; [exact M12|]; by etrans).
  assert (super_block_ s4 = super_block_ s3) as Hsb4 by (by destruct I4 as (i & d & -> & _)).
  assert (super_block_ s3 = count (super_block_ s)) as Hsb3 by (unfold s3; simpl; congruence).
  assert (normal_bit_map_ s4 = Some bn ∧ error_bit_map_ s4 = Some be) as [Hbn4 Hbe4]
    by (by destruct I4 as (i & d & -> & _)).
  destruct (Z.eqb_spec r TFS_SUCCESS) as [->|Hr]; cbn [negb]; cycle 1.
  { M_unfold. exists r, true, s4. split; [done|]. split; [done|done|congruence| |].
    - right. destruct R4 as [[-> _]|?]; done.
    - intros H0. apply Q4. destruct (Q2 H0) as [_ ?]. done. }
  rewrite (M_bind_Some _ _ _ _ _ (save_flush_run g _ _ _ _ H4)). M_unfold.
  exists 0, true, s4. split; [done|]. split; [done|done|congruence| |done].
  left. split_and!; [done|done|].
  destruct R2 as [[_ R2]|?]; [|done]. destruct R4 as [[_ R4]|?]; [|done].
  destruct (so_sfile _ _ _ _ _ H1) as [f Hf].
  eapply (saved_synced s1 s2 s4 f bn dn be de); try done.
  - apply Hg.
  - apply H4.
  - by apply R2.
  - rewrite Hsb4. apply R4. unfold s3. simpl. by apply R2.
  - apply Hn.
  - apply He.
Qed.

Lemma rollback_run s V C S id flag :
  store_at s V C S → 1 ≤ id ≤ mc → id ∈ S → ∃ s',
  rollback_superblock id flag s = Some (tt, s') ∧ meta_step s s' ∧ store_at s' V C (S ∖ {[id]}) ∧
  super_block_ s' = if flag then add_used_ext (-1) (super_block_ s) else super_block_ s.
Proof.
  intros H Hid Hin. unfold rollback_superblock.
  destruct (so_normal _ _ _ _ _ H) as (bn & dn & Hbn & Hn).
  assert (normal s = Some (bn, s)) as En by (unfold normal, getsM; by rewrite Hbn).
  rewrite (M_bind_Some _ _ _ _ _ En).
  assert (lift (bm_test bn id) s = Some (true, s)) as Et
    by (unfold lift; rewrite (bm_test_run _ _ _ _ _ Hn) by lia; by rewrite bool_decide_true).
  rewrite (M_bind_Some _ _ _ _ _ Et). unfold whenM at 1.
  destruct (upd_normal_run g (bm_reset id) s V C S (S ∖ {[id]}) H) as (s1 & E1 & M1 & B1 & Hsb1 & Hd1).
  { intros b d HR. apply (bm_reset_run _ _ _ _ _ HR). lia. }
  rewrite (M_bind_Some _ _ _ _ _ E1).
  assert (store_at s1 V C (S ∖ {[id]})) as H1 by (eapply store_at_meta; [done|exact H|done|done|rewrite Hsb1; apply H]).
  destruct (so_normal _ _ _ _ _ H1) as (bn1 & dn1 & Hbn1 & Hn1). destruct (so_error _ _ _ _ _ H1) as (be & de & Se & Hbe & He).
  destruct (save_bit_map_run g Hg s1 V C _ bn1 dn1 _ be de Se H1 Hbn1 Hn1 Hbe He) as (r & s2 & E2 & I2 & _ & _).
  rewrite (M_bind_Some _ _ _ _ _ E2).
  pose proof (store_at_io g Hg _ _ _ _ _ H1 I2) as H2. pose proof (io_meta g _ _ I2) as M2.
  assert (super_block_ s2 = super_block_ s) as Hsb2 by (destruct I2 as (i & d & -> & _); simpl; congruence).
  assert (∃ s3, whenM flag (upd_super (add_used_ext (-1));; save_super;; mret tt) s2 = Some (tt, s3) ∧ meta_step s2 s3 ∧
    store_at s3 V C (S ∖ {[id]}) ∧ super_block_ s3 = if flag then add_used_ext (-1) (super_block_ s) else super_block_ s)
    as (s3 & E3 & M3 & H3 & Hsb3).
  { destruct flag; [|exists s2; split_and!; [done|by eapply meta_refl|done|done]]. unfold whenM.
    destruct (upd_super_run g Hg (add_used_ext (-1)) s2 V C _ H2) as (E3 & M3 & H3); [apply sb_rep_used_ext, H2|].
    rewrite (M_bind_Some _ _ _ _ _ E3).
    destruct (save_super_run g Hg _ V C _ H3) as (r3 & s3 & E4 & I4 & _ & _). rewrite (M_bind_Some _ _ _ _ _ E4).
    exists s3. split_and!; [done| |by eapply store_at_io|].
    - etrans; [exact M3|]. by apply io_meta.
    - destruct I4 as (i & d & -> & _). simpl. by rewrite Hsb2. }
  rewrite (M_bind_Some _ _ _ _ _ E3), (M_bind_Some _ _ _ _ _ (save_flush_run g _ _ _ _ H3)). M_unfold.
  exists s3. split_and!; [done| |done|done]. etrans; [exact M1|]. by etrans.
Qed.

(** ** Steps on a block of its own

    Objects above the old break, the files of block [id] and of the super block. *)
Record obj_step (id : Z) (s0 s : bfm) : Prop := ObjStep {
  os_logic : logic_blocks_ s = logic_blocks_ s0;
  os_compact : compact_logic_blocks_ s = compact_logic_blocks_ s0;
  os_phys : physcial_blocks_ s = physcial_blocks_ s0;
  os_error : error_bit_map_ s = error_bit_map_ s0;
  os_impl : ∃ i, super_block_impl_ s = Some i ∧ im_rep g i;
  os_pheap : ∀ a, a < brk s0 → pheap s !! a = pheap s0 !! a;
  os_lheap : ∀ a, a < brk s0 → lheap s !! a = lheap s0 !! a;
  os_brk : brk s0 ≤ brk s ∧ (∀ a b, pheap s !! a = Some b → 0 < a < brk s) ∧ (∀ a b, lheap s !! a = Some b → a < brk s);
  os_later : later (disk s0) (disk s);
  os_files : ∀ p, p ≠ super → p ≠ path id → d_files (disk s) !! p = d_files (disk s0) !! p;
  os_file : ∀ h c, d_files (disk s0) !! path id = Some (h ++ c) → length h = 512%nat →
              ∃ h', d_files (disk s) !! path id = Some (h' ++ c) ∧ length h' = 512%nat;
  os_sfile : is_Some (d_files (disk s) !! super) }.

Lemma obj_refl id s V C S : store_at s V C S → obj_step id s s.
Proof. intros H. destruct H. split; try done; [split_and!; [lia|apply so_brk..]|eauto]. Qed.
#[export] Instance obj_step_trans id : Transitive (obj_step id).
Proof.
  intros s1 s2 s3 [] []. destruct os_brk0 as (? & ? & ?), os_brk1 as (? & ? & ?). split; try congruence; try done.
  - intros a Ha. rewrite os_pheap1, os_pheap0 by lia. done.
  - intros a Ha. rewrite os_lheap1, os_lheap0 by lia. done.
  - split_and!; [lia|done..].
  - by etrans.
  - intros p Hp Hp'. by rewrite os_files1, os_files0.
  - intros h c Hf Hh. destruct (os_file0 _ _ Hf Hh) as (h' & Hf' & Hh'). by apply os_file1 with h'.
Qed.
Lemma meta_obj id s s' : 1 ≤ id ≤ mc → meta_step s s' → 
  (∀ a b, pheap s !! a = Some b → 0 < a < brk s) → (∀ a b, lheap s !! a = Some b → a < brk s) → obj_step id s s'.
Proof.
  intros Hid [] Hp Hl. split; try done; try congruence.
  - rewrite ms_brk, ms_pheap, ms_lheap. split_and!; [lia|done..].
  - intros p H1 H2. by apply ms_files.
  - intros h c Hf Hh. exists h. rewrite ms_files by (by apply path_super). done.
Qed.

Lemma block_ok_obj id s0 s k i lloc loc V C S :
  store_at s0 V C S → obj_step id s0 s → block_ok g s0 k i lloc loc → block_ok g s k i lloc loc.
Proof.
  intros H O []. destruct bo_logic as (l & Hl & ?), bo_pb as (b & Hb & ?). destruct (so_brk _ _ _ _ _ H) as (_ & Hp & Hll).
  pose proof (Hp _ _ Hb). pose proof (Hll _ _ Hl). destruct O. split.
  - by rewrite os_logic0.
  - exists l. by rewrite os_lheap0.
  - by rewrite os_phys0.
  - exists b. by rewrite os_pheap0 by lia.
Qed.
Lemma store_at_obj id s0 s V C S S' :
  1 ≤ id ≤ mc → store_at s0 V C S → obj_step id s0 s → bits_are s S' → sb_rep (super_block_ s) → store_at s V C S'.
Proof.
  intros Hid H O Hb Hsb. pose proof (block_ok_obj id s0 s) as Hok.
  destruct H as [h1 h2 h3 h4 h5 h6 h7 h8 h9 h10 h11 h12 h13] eqn:EH. pose proof H as H'. clear EH.
  destruct O as [o1 o2 o3 o4 o5 o6 o7 o8 o9 o10 o11 o12] eqn:EO. pose proof O as O'. clear EO. split; try done.
  - by rewrite o4.
  - intros i Hi. destruct (h6 i Hi) as (h & Hf & Hh & Hc). destruct (decide (i = id)) as [->|Hne].
    + destruct (o11 _ _ Hf Hh) as (h' & Hf' & Hh'). by exists h'.
    + exists h. split; [|done]. rewrite o10; [done|by apply path_super|]. intros E%path_inj; done.
  - by rewrite o2.
  - intros k i Hk. destruct (h8 _ _ Hk) as (lloc & loc & Hb'). exists lloc, loc. by eapply Hok.
  - by rewrite o1.
  - by rewrite o3.
  - destruct o8 as (? & ? & ?). destruct h13. split_and!; [lia|done..].
Qed.

(** ** The search for a free block *)

Fixpoint first_free (n : nat) (i : Z) (B : gset Z) : option Z :=
  match n with O => None | S n => if decide (i ∈ B) then first_free n (i + 1) B else Some i end.

Lemma first_free_Some n i B j : first_free n i B = Some j → i ≤ j < i + Z.of_nat n ∧ j ∉ B.
Proof.
  revert i. induction n as [|n IH]; intros i; cbn [first_free]; [done|].
  case_decide; [intros H1%IH; split; [lia|by apply H1]|]. intros [= <-]. split; [lia|done].
Qed.

Definition errs (s : bfm) (E : gset Z) : Prop := ∃ b d, error_bit_map_ s = Some b ∧ bm_rep b (mc + 1) d E.

Lemma find_avail_run s V C S E n i :
  store_at s V C S → errs s E → 1 ≤ i → i + Z.of_nat n ≤ mc + 1 → find_avail n i s = Some (first_free n i (S ∪ E), s).
Proof.
  intros H (be & de & Hbe & He). destruct (so_normal _ _ _ _ _ H) as (bn & dn & Hbn & Hn).
  revert i. induction n as [|n IH]; intros i Hi Hl; [done|]. cbn [find_avail first_free].
  unfold normal, error, lift. M_unfold. unfold getsM. rewrite Hbn. cbn [mbind option_bind]. rewrite Hbe. cbn [mbind option_bind].
  rewrite (bm_test_run _ _ _ _ _ Hn), (bm_test_run _ _ _ _ _ He) by lia. cbn [mbind option_bind].
  repeat case_bool_decide; case_decide; try set_solver; first [apply IH; lia|done].
Qed.
Lemma find_avail_block_run s V C S E id0 :
  store_at s V C S → errs s E →
  find_avail_block id0 C_MAIN_BLOCK s =
    Some (match first_free (Z.to_nat mc) 1 (S ∪ E) with Some i => (TFS_SUCCESS, i) | None => (EXIT_BLOCK_EXHAUST_ERROR, id0) end, s).
Proof.
  intros H He. pose proof (geo_mc _ Hg). destruct (so_super _ _ _ _ _ H) as (_ & Hmc & _).
  unfold find_avail_block. M_unfold. cbv zeta. rewrite !decide_False by done. rewrite Hmc.
  replace (mc + 1 - 1) with mc by lia. rewrite (find_avail_run s V C S E) by (done || lia).
  destruct (first_free _ _ _) as [i|] eqn:Ef; [|done]. apply first_free_Some in Ef as [Hi _].
  by rewrite u32_small by (unfold is_u32; lia).
Qed.

(** ** Objects *)

Lemma in_pb_run {A} loc (m : PBM A) s b r b' d' :
  pheap s !! loc = Some b → m (b, disk s) = Some (r, (b', d')) →
  in_pb loc m s = Some (r, set_heaps (<[loc := b']> (pheap s)) (lheap s) (brk s) d' s).
Proof. intros Hb Hm. unfold in_pb. rewrite Hb. cbn [mbind option_bind]. by rewrite Hm. Qed.

(** A new block object of number [id], its prefix set and written: the address is the
    old break. *)
Definition fresh (k : name) (id : Z) (s s' : bfm) (code : Z) : Prop :=
  obj_step id s s' ∧ brk s' = brk s + 1 ∧ lheap s' = lheap s ∧ (∀ a, a ≠ brk s → pheap s' !! a = pheap s !! a) ∧
  normal_bit_map_ s' = normal_bit_map_ s ∧ super_block_ s' = super_block_ s ∧ bit_map_size_ s' = bit_map_size_ s ∧
  (∃ b, pheap s' !! brk s = Some b ∧ pb_rep mnt ms id (Prefix k.1 k.2 0 0) b) ∧
  (code = TFS_SUCCESS ∧ (∃ f, d_files (disk s') !! path id = Some f ∧ take 20 f = enc_prefix (Prefix k.1 k.2 0 0)) ∨ code < 0) ∧
  (d_os (disk s) = [] → code = TFS_SUCCESS).

Lemma fresh_run s V C S k id : store_at s V C S → 1 ≤ id ≤ mc → ∃ b0 s2 code s',
  new_PhysicalBlock id mnt (i32 (BLOCK_RESERVER_LENGTH + ms)) C_MAIN_BLOCK s =
    Some (brk s, set_heaps (<[brk s := b0]> (pheap s)) (lheap s) (brk s + 1) (disk s) s) ∧
  upd_pb (brk s) (pb_set_prefix (Prefix k.1 k.2 0 0)) (set_heaps (<[brk s := b0]> (pheap s)) (lheap s) (brk s + 1) (disk s) s) =
    Some (tt, s2) ∧
  in_pb (brk s) dump_block_prefix s2 = Some (code, s') ∧ fresh k id s s' code.
Proof.
  intros H Hid. destruct (pb_new_run mnt ms id (geo_ms _ Hg)) as (b0 & Eb & Hb0).
  destruct (so_files _ _ _ _ _ H id Hid) as (h & Hf & Hh & Hc).
  set (s1 := set_heaps (<[brk s := b0]> (pheap s)) (lheap s) (brk s + 1) (disk s) s).
  set (p := Prefix k.1 k.2 0 0).
  set (s2 := set_pheap (<[brk s := pb_set_prefix p b0]> (pheap s1)) s1).
  assert (pb_rep mnt ms id p (pb_set_prefix p b0)) as Hb1 by (by eapply pb_rep_set).
  destruct (dump_run mnt ms id p _ (disk s) _ Hb1 Hf) as (code & b' & d' & n & E & Hb' & Hl & Hn & Hfs & Hcode & Hq).
  rewrite enc_prefix_length in *.
  destruct (file_write_head n (enc_prefix p) h (C id)) as (h' & Hw & Hh' & Hfull); [by rewrite enc_prefix_length|rewrite enc_prefix_length; lia|].
  change (Z.to_nat 0) with 0%nat in Hfs. rewrite Hw in Hfs.
  set (s' := set_heaps (<[brk s := b']> (pheap s2)) (lheap s2) (brk s2) d' s2).
  exists b0, s2, code, s'. split_and!.
  - unfold new_PhysicalBlock, lift. M_unfold. rewrite Eb. done.
  - unfold upd_pb, get_pb, put_pb. M_unfold. unfold getsM. simpl. by rewrite lookup_insert_eq.
  - apply in_pb_run with (pb_set_prefix p b0); [|done]. unfold s2. simpl. by rewrite lookup_insert_eq.
  - destruct (so_brk _ _ _ _ _ H) as (Hb & Hph & Hlh).
    assert (∀ a, a ≠ brk s → pheap s' !! a = pheap s !! a) as Hother
      by (intros a Ha; unfold s', s2, s1; simpl; by rewrite !lookup_insert_ne by done).
    unfold fresh. split_and!; try done.
    + split; simpl; try done.
      * apply H.
      * intros a Ha. apply Hother. lia.
      * split_and!; [lia| |intros a b1 Ha; specialize (Hlh _ _ Ha); lia]. intros a b1 Ha.
        destruct (decide (a = brk s)) as [->|Hne]; [lia|].
        assert (pheap s !! a = Some b1) as Ha' by (rewrite <- Hother by done; done). specialize (Hph _ _ Ha'). lia.
      * intros q H1 H2. by rewrite Hfs, lookup_insert_ne.
      * intros h2 c2 Hf2 Hh2. rewrite Hf in Hf2. injection Hf2 as [<- <-]%app_inj_1; [|congruence].
        exists h'. rewrite Hfs, lookup_insert_eq. split; [done|congruence].
      * rewrite Hfs, lookup_insert_ne by (by apply path_super). apply H.
    + exists b'. split; [|done]. unfold s'. simpl. by rewrite lookup_insert_eq.
    + destruct Hcode as [[-> ->]|?]; [left|by right]. split; [done|]. eexists. change (disk s') with d'. split; [by rewrite Hfs, lookup_insert_eq|].
      rewrite take_app_le by lia. by apply Hfull.
Qed.
End blocks.
