(* ===== verification/StoreNew.v ===== *)
(** [new_block] of BlockStore.v under every behaviour of the disk. *)
From Stdlib Require Import (notations) String.
From stdpp Require Import fin_map_dom.
From S2P Require Import Prelude Bytes Text ProxyMsg Bitmap DsFile DsBlock BlockStore StoreInv StoreBlocks.

(** ** Maps of logic blocks *)

Lemma find_insert m f c x f' c' :
  find_logic_block_map (map_insert f c x m) f' c' =
    if decide ((f', c') = (f, c)) then Some x else find_logic_block_map m f' c'.
Proof.
  unfold find_logic_block_map, map_insert. destruct (decide (f' = f)) as [->|Hf].
  - rewrite lookup_insert_eq. cbn [mbind option_bind]. destruct (decide (c' = c)) as [->|Hc].
    + by rewrite lookup_insert_eq, decide_True.
    + rewrite lookup_insert_ne, decide_False by congruence. destruct (m !! f) as [mf|] eqn:E; [done|]. simpl. apply lookup_empty.
  - by rewrite lookup_insert_ne, decide_False by congruence.
Qed.
Lemma find_delete m f c f' c' :
  find_logic_block_map (map_delete f c m) f' c' =
    if decide ((f', c') = (f, c)) then None else find_logic_block_map m f' c'.
Proof.
  unfold find_logic_block_map, map_delete. destruct (m !! f) as [mf|] eqn:E; cycle 1.
  { case_decide as Hd; [|done]. injection Hd as -> ->. by rewrite E. }
  destruct (mf !! c) as [x|] eqn:Ec; cycle 1.
  { case_decide as Hd; [|done]. injection Hd as -> ->. rewrite E. by cbn [mbind option_bind]. }
  case_decide as He.
  - destruct (decide (f' = f)) as [->|Hf].
    + rewrite lookup_delete_eq, E. cbn [mbind option_bind]. case_decide as Hd; [done|].
      assert (c' ≠ c) as Hc by congruence. symmetry. rewrite <- (lookup_delete_ne mf c c') by done. by rewrite He.
    + rewrite lookup_delete_ne, decide_False by congruence. done.
  - destruct (decide (f' = f)) as [->|Hf].
    + rewrite lookup_insert_eq, E. cbn [mbind option_bind]. destruct (decide (c' = c)) as [->|Hc].
      * by rewrite lookup_delete_eq, decide_True.
      * by rewrite lookup_delete_ne, decide_False by congruence.
    + by rewrite lookup_insert_ne, decide_False by congruence.
Qed.

Section new.
Context (g : geometry) (Hg : geo_ok g).
Local Abbreviation mnt := (g_mnt g).
Local Abbreviation mc := (g_mc g).
Local Abbreviation ms := (g_ms g).
Local Abbreviation path := (main_path mnt).
Local Abbreviation super := (super_path mnt).
Local Abbreviation store_at := (store_at g).
Local Abbreviation store_ok := (store_ok g).

(** Objects above the break of [s0] come and go. *)
Lemma obj_heaps id s0 s p l b :
  obj_step g id s0 s → brk s ≤ b →
  (∀ a, a < brk s0 → p !! a = pheap s !! a) → (∀ a, a < brk s0 → l !! a = lheap s !! a) →
  (∀ a x, p !! a = Some x → 0 < a < b) → (∀ a x, l !! a = Some x → a < b) →
  obj_step g id s0 (set_heaps p l b (disk s) s).
Proof.
  intros [] Hb Hp Hl Hp' Hl'. destruct os_brk as (? & ? & ?). split; simpl; try done.
  - intros a Ha. by rewrite Hp, os_pheap.
  - intros a Ha. by rewrite Hl, os_lheap.
  - split_and!; [lia|done..].
Qed.

(** The logic block of a fresh block. *)
Definition logic_of (k : name) (loc t : Z) : lblock := LB k.1 k.2 ms 0 t [loc].

(** Steps up to [commit]: a block and its logic block above the break. *)
Definition prepared (k : name) (id : Z) (s s' : bfm) : Prop :=
  obj_step g id s s' ∧ brk s' = brk s + 2 ∧
  (∀ a, a ≠ brk s → pheap s' !! a = pheap s !! a) ∧ (∀ a, a ≠ brk s + 1 → lheap s' !! a = lheap s !! a) ∧
  normal_bit_map_ s' = normal_bit_map_ s ∧ super_block_ s' = super_block_ s ∧
  (∃ b, pheap s' !! brk s = Some b ∧ pb_rep mnt ms id (Prefix k.1 k.2 0 0) b) ∧
  (∃ t, lheap s' !! (brk s + 1) = Some (logic_of k (brk s) t)) ∧
  (∃ f, d_files (disk s') !! path id = Some f ∧ take 20 f = enc_prefix (Prefix k.1 k.2 0 0)).

Lemma add_logic_run s V C S k id s3 : store_at s V C S → fresh g k id s s3 TFS_SUCCESS → ∃ s4 s5,
  new_LogicBlock k.1 k.2 s3 = Some (brk s + 1, s4) ∧
  add_physic_block (brk s + 1) (brk s) s4 = Some (tt, s5) ∧ disk s5 = disk s3 ∧ prepared k id s s5.
Proof.
  intros H (O & Hb & Hl & Hp & Hn & Hsb & Hsz & (b & Hpb & Hrep) & Hfile & _).
  set (s4 := set_heaps (pheap s3) (<[brk s + 1 := LB k.1 k.2 0 0 (now s3) []]> (lheap s3)) (brk s + 2) (disk s3) s3).
  set (s5 := set_lheap (<[brk s + 1 := logic_of k (brk s) (now s3)]> (lheap s4)) s4).
  exists s4, s5. destruct (so_brk _ _ _ _ _ H) as (Hb0 & Hph & Hlh). split_and!.
  - unfold new_LogicBlock. M_unfold. rewrite Hb. replace (brk s + 1 + 1) with (brk s + 2) by lia. done.
  - unfold add_physic_block, get_lb, get_pb, put_lb, getsM. M_unfold. unfold s4. simpl. rewrite lookup_insert_eq. simpl.
    rewrite Hpb. cbn [mbind option_bind]. unfold lb_add. cbn [lb_avail_data_size lb_physical_block_list lb_fileid lb_chunkid lb_visit_count lb_last_update].
    rewrite (pbr_len _ _ _ _ _ Hrep), Z.add_0_l, i32_small; [done|]. pose proof (geo_ms _ Hg). lia.
  - done.
  - unfold prepared, s5, s4. cbn [pheap lheap brk disk set_lheap set_heaps normal_bit_map_ super_block_]. split_and!; try done.
    + pose proof O as O'. destruct O as [o1 o2 o3 o4 o5 o6 o7 o8 o9 o10 o11 o12]. destruct o8 as (? & o8p & o8l).
      apply (obj_heaps id s s3 (pheap s3) (<[brk s + 1 := logic_of k (brk s) (now s3)]> (<[brk s + 1 := LB k.1 k.2 0 0 (now s3) []]> (lheap s3))) (brk s + 2));
        [exact O'|lia|done| | |].
      * intros a Ha. rewrite !lookup_insert_ne by lia. done.
      * intros a x Ha. apply o8p in Ha. lia.
      * intros a x Ha. destruct (decide (a = brk s + 1)) as [->|Hne]; [lia|]. rewrite !lookup_insert_ne in Ha by done. apply o8l in Ha. lia.
    + intros a Ha. rewrite !lookup_insert_ne by done. by rewrite Hl.
    + by exists b.
    + exists (now s3). by rewrite lookup_insert_eq.
    + destruct Hfile as [[_ ?]|?]; done.
Qed.

(** A block and its logic block enter the maps; its bit may be set already. *)
Definition linked (k : name) (id loc lloc : Z) (s : bfm) : bfm :=
  set_logic (map_insert k.1 k.2 lloc (logic_blocks_ s)) (set_physcial (<[id := loc]> (physcial_blocks_ s)) s).
Lemma store_at_enter s V C S k id lloc loc t b :
  store_at s V C S → 1 ≤ id ≤ mc → V !! k = None → id ∉ (map_img V : gset Z) → is_u64 k.1 → is_u32 k.2 →
  lheap s !! lloc = Some (logic_of k loc t) → pheap s !! loc = Some b → pb_rep mnt ms id (Prefix k.1 k.2 0 0) b →
  store_at (linked k id loc lloc s) (<[k := id]> V) C S.
Proof.
  intros [h1 h2 h3 h4 h5 h6 h7 h8 h9 h10 h11 h12 h13] Hid Hk Hni H64 H32 Hl Hb Hrep. split; try done.
  - intros k' i Hk'. destruct (decide (k' = k)) as [->|Hne].
    + rewrite lookup_insert_eq in Hk'. injection Hk' as <-. exists lloc, loc. split; cbn [linked set_logic set_physcial logic_blocks_ lheap physcial_blocks_ pheap].
      * by rewrite find_insert, decide_True.
      * by exists (logic_of k loc t).
      * by rewrite lookup_insert_eq.
      * by exists b.
    + rewrite lookup_insert_ne in Hk' by done. destruct (h8 _ _ Hk') as (lloc' & loc' & [q1 q2 q3 q4]). exists lloc', loc'.
      split; cbn [linked set_logic set_physcial logic_blocks_ lheap physcial_blocks_ pheap]; try done.
      * rewrite find_insert, decide_False; [done|]. intros E. apply Hne. destruct k', k. done.
      * rewrite lookup_insert_ne; [done|]. intros ->. apply Hni. apply elem_of_map_img. by exists k'.
  - intros k' Hk'. apply lookup_insert_None in Hk' as [Hk' Hne]. cbn [linked set_logic set_physcial logic_blocks_].
    rewrite find_insert, decide_False; [by apply h9|]. intros E. apply Hne. destruct k', k. done.
  - cbn [linked set_logic set_physcial physcial_blocks_]. rewrite dom_insert_L, h10. by rewrite map_img_insert_notin_L.
  - intros k1 k2 i. destruct (decide (k1 = k)) as [->|H1], (decide (k2 = k)) as [->|H2];
      rewrite ?lookup_insert_eq, ?lookup_insert_ne by done; [done| | |by apply h11].
    + intros [= ->] Hk2. destruct Hni. apply elem_of_map_img. by exists k2.
    + intros Hk1 [= ->]. destruct Hni. apply elem_of_map_img. by exists k1.
  - intros k' i. destruct (decide (k' = k)) as [->|Hne]; [rewrite lookup_insert_eq; intros [= <-]; done|].
    rewrite lookup_insert_ne by done. apply h12.
Qed.

(** What a new block leaves when it succeeds. *)
Definition entered (k : name) (id : Z) (s s' : bfm) (V : gmap name Z) (C : Z → bytes) : Prop :=
  store_ok s' (<[k := id]> V) C ∧ super_block_ s' = add_used 1 (super_block_ s) ∧ super_synced g s' ∧
  error_bit_map_ s' = error_bit_map_ s ∧ later (disk s) (disk s') ∧
  (∃ f, d_files (disk s') !! path id = Some f ∧ take 20 f = enc_prefix (Prefix k.1 k.2 0 0)) ∧
  (∀ p, p ≠ super → p ≠ path id → d_files (disk s') !! p = d_files (disk s) !! p).
(** What it leaves when it fails: in memory nothing, but in the counters; on the disk
    the file of the block and the file of the super block may differ, and no other
    file. *)
Definition undone (id : Z) (s s' : bfm) (V : gmap name Z) (C : Z → bytes) : Prop :=
  store_ok s' V C ∧ error_bit_map_ s' = error_bit_map_ s ∧ later (disk s) (disk s') ∧
  logic_blocks_ s' = logic_blocks_ s ∧ physcial_blocks_ s' = physcial_blocks_ s ∧
  (super_block_ s' = super_block_ s ∨ super_block_ s' = add_used_ext (-1) (add_used 1 (super_block_ s))) ∧
  (∀ p, p ≠ super → p ≠ path id → d_files (disk s') !! p = d_files (disk s) !! p).

Lemma enter_run s s5 s6 V C k id :
  store_ok s V C → 1 ≤ id ≤ mc → V !! k = None → id ∉ (map_img V : gset Z) → is_u64 k.1 → is_u32 k.2 →
  prepared k id s s5 → meta_step g s5 s6 → store_at s6 V C ({[id]} ∪ map_img V) →
  super_block_ s6 = add_used 1 (super_block_ s) → super_synced g s6 → ∃ s7,
  insert_logic_block_map C_MAIN_BLOCK (brk s + 1) (set_physcial (<[id := brk s]> (physcial_blocks_ s6)) s6) = Some (TFS_SUCCESS, s7) ∧
  entered k id s s7 V C.
Proof.
  intros H Hid Hk Hni H64 H32 (O & Hb & Hp & Hl & Hn & Hsb & (b & Hpb & Hrep) & (t & Hlb) & (f & Hf & Hhead)) M H6 Hsb6 Hsy.
  pose proof M as [m1 m2 m3 m4 m5 m6 m7 m8 m9 m10 m11].
  exists (linked k id (brk s) (brk s + 1) s6). split.
  { unfold insert_logic_block_map, get_lb, getsM, upd_selected. M_unfold. cbn [set_physcial lheap]. rewrite m6, Hlb. done. }
  unfold entered. split_and!.
  - unfold StoreInv.store_ok. rewrite (map_img_insert_notin_L V k id Hk). rewrite <- m6 in Hlb. rewrite <- m5 in Hpb.
    by eapply store_at_enter.
  - done.
  - destruct Hsy as (f' & bn & dn & be & de & ?). by exists f', bn, dn, be, de.
  - cbn [linked set_logic set_physcial error_bit_map_]. rewrite m4. apply O.
  - etrans; [apply O|done].
  - exists f. split; [|done]. cbn [linked set_logic set_physcial disk]. by rewrite m10 by (by apply path_super).
  - intros p H1 H2. cbn [linked set_logic set_physcial disk]. rewrite m10 by done. by apply O.
Qed.
(** The objects of a block that was not entered are deleted. *)
Lemma drop_objects s k loc lloc t b :
  pheap s !! loc = Some b → lheap s !! lloc = Some (logic_of k loc t) →
  (delete_block_file lloc;; delete_lb lloc;; delete_pb loc) s =
    Some (tt, set_heaps (delete loc (pheap s)) (delete lloc (lheap s)) (brk s) (disk s) s).
Proof.
  intros Hb Hl. unfold delete_block_file, delete_lb, delete_pb, upd_pb, get_lb, get_pb, put_pb, getsM. M_unfold.
  rewrite Hl. cbn [mbind option_bind lb_physical_block_list logic_of forM]. M_unfold. rewrite Hb. cbn [mbind option_bind].
  cbn [set_pheap set_lheap set_heaps lheap pheap]. rewrite Hl. cbn [mbind option_bind].
  cbn [set_pheap set_lheap set_heaps lheap pheap]. rewrite lookup_insert_eq. cbn [mbind option_bind].
  cbn [set_pheap set_lheap set_heaps lheap pheap brk disk]. by rewrite delete_insert_eq.
Qed.

Lemma meta_obj_step id s0 s s' : 1 ≤ id ≤ mc → obj_step g id s0 s → meta_step g s s' → obj_step g id s0 s'.
Proof. intros Hid O M. etrans; [exact O|]. apply meta_obj; [done|done|done|apply O|apply O]. Qed.

Lemma undo_run s s5 s6 V C k id (flag : bool) :
  store_ok s V C → 1 ≤ id ≤ mc → id ∉ (map_img V : gset Z) →
  prepared k id s s5 → meta_step g s5 s6 → store_at s6 V C ({[id]} ∪ map_img V) →
  super_block_ s6 = (if flag then add_used 1 (super_block_ s) else super_block_ s) → ∃ s7,
  (rollback_superblock id flag;; delete_block_file (brk s + 1);; delete_lb (brk s + 1);; delete_pb (brk s)) s6 = Some (tt, s7) ∧
  undone id s s7 V C.
Proof.
  intros H Hid Hni (O & Hb & Hp & Hl & Hn & Hsb & (b & Hpb & Hrep) & (t & Hlb) & _) M H6 Hsb6.
  destruct (rollback_run g Hg s6 V C _ id flag H6 Hid) as (s7 & E7 & M7 & H7 & Hsb7); [set_solver|].
  rewrite (M_bind_Some _ _ _ _ _ E7).
  assert (({[id]} ∪ map_img V) ∖ {[id]} = map_img V :> gset Z) as Hset by set_solver. rewrite Hset in H7.
  assert (pheap s7 = pheap s5 ∧ lheap s7 = lheap s5 ∧ brk s7 = brk s5) as (Hp7 & Hl7 & Hb7) by (destruct M, M7; split_and!; congruence).
  rewrite (drop_objects s7 k (brk s) (brk s + 1) t b) by congruence.
  eexists. split; [done|]. set (s8 := set_heaps _ _ _ _ _).
  assert (obj_step g id s s8) as O8.
  { assert (obj_step g id s s7) as O7 by (eapply meta_obj_step; [done| |exact M7]; by eapply meta_obj_step).
    pose proof O7 as []. destruct os_brk as (? & Hq & Hr). apply obj_heaps; [done|lia| | | |].
    - intros a Ha. by rewrite lookup_delete_ne by lia.
    - intros a Ha. by rewrite lookup_delete_ne by lia.
    - intros a x Ha. apply lookup_delete_Some in Ha as [_ Ha]. by eapply Hq.
    - intros a x Ha. apply lookup_delete_Some in Ha as [_ Ha]. by eapply Hr. }
  assert (store_at s8 V C (map_img V)) as H8.
  { eapply store_at_obj; [done|exact Hid|exact H|exact O8|apply H7|apply H7]. }
  unfold undone. split_and!; [done|apply O8..| |intros p ? ?; by apply O8]. unfold s8. simpl. rewrite Hsb7, Hsb6.
  destruct flag; [by right|by left].
Qed.

Definition new_out (s : bfm) (V : gmap name Z) (C : Z → bytes) (E : gset Z) (k : name) (id0 code id : Z) (s' : bfm) : Prop :=
  match V !! k, first_free (Z.to_nat mc) 1 (map_img V ∪ E) with
  | Some _, _ => code = EXIT_BLOCK_EXIST_ERROR ∧ id = id0 ∧ s' = s
  | None, None => code = EXIT_BLOCK_EXHAUST_ERROR ∧ id = id0 ∧ s' = s
  | None, Some i => id = i ∧ (code = TFS_SUCCESS ∧ entered k i s s' V C ∨ code < 0 ∧ undone i s s' V C) ∧
                    (d_os (disk s) = [] → code = TFS_SUCCESS)
  end.

Lemma new_block_run s V C E k id0 :
  store_ok s V C → errs g s E → is_u64 k.1 → is_u32 k.2 → ∃ code id s',
  new_block k.1 k.2 id0 C_MAIN_BLOCK s = Some ((code, id), s') ∧ new_out s V C E k id0 code id s'.
Proof.
  intros H He H64 H32. unfold new_out, new_block.
  assert (gets (selected C_MAIN_BLOCK) s = Some (logic_blocks_ s, s)) as Es by done.
  rewrite (M_bind_Some _ _ _ _ _ Es). clear Es.
  destruct (V !! k) as [i|] eqn:Hk.
  { destruct (so_blocks _ _ _ _ _ H _ _ Hk) as (lloc & loc & []). rewrite bo_find. by eexists _, _, _. }
  rewrite (so_free _ _ _ _ _ H _ Hk).
  rewrite (M_bind_Some _ _ _ _ _ (find_avail_block_run g Hg s V C _ E id0 H He)).
  destruct (first_free _ _ _) as [id|] eqn:Hff; [|by eexists _, _, _].
  apply first_free_Some in Hff as [Hid Hni]. rewrite Z2Nat.id in Hid by (pose proof (geo_mc _ Hg); lia).
  assert (1 ≤ id ≤ mc) as Hid' by lia. assert (id ∉ (map_img V : gset Z)) as Hni' by set_solver.
  cbn [fst snd negb Z.eqb TFS_SUCCESS]. M_unfold.
  assert (physcial_blocks_ s !! id = None) as Hph.
  { apply not_elem_of_dom. by rewrite (so_dom _ _ _ _ _ H). }
  rewrite Hph. destruct (so_super _ _ _ _ _ H) as (_ & _ & Hms & _ & _ & Hmp). rewrite Hmp, Hms.
  destruct (fresh_run g Hg s V C _ k id H Hid') as (b0 & s2 & code & s3 & E1 & E2 & E3 & HF).
  rewrite E1, E2, E3. destruct (Z.eqb_spec code 0) as [->|Hcode]; cbn [negb]; cycle 1.
  { destruct HF as (O & Hb & Hl & Hp & Hn & Hsb & Hsz & (b & Hpb & Hrep) & Hc & Hq).
    unfold delete_pb, get_pb, getsM. M_unfold. rewrite Hpb. cbn [mbind option_bind].
    eexists _, _, _. split; [done|]. split; [done|]. split; [|by intros H0; apply Hq in H0].
    right. split; [destruct Hc as [[-> _]|?]; done|]. set (s4 := set_pheap _ _).
    assert (obj_step g id s s4) as O4.
    { pose proof O as []. destruct os_brk as (? & Hq1 & Hr). apply obj_heaps; [done|lia| |done| |].
      - intros a Ha. by rewrite lookup_delete_ne by lia.
      - intros a x Ha. apply lookup_delete_Some in Ha as [_ Ha]. by eapply Hq1.
      - intros a x Ha. by eapply Hr. }
    unfold undone. split_and!; [|apply O4..|left; done|intros p ? ?; by apply O4].
    eapply store_at_obj; [done|exact Hid'|exact H|exact O4| |].
    - destruct (so_normal _ _ _ _ _ H) as (bn & dn & Hbn & HR). exists bn, dn. split; [|done]. unfold s4. simpl. congruence.
    - unfold s4. simpl. rewrite Hsb. apply H. }
  destruct (add_logic_run s V C _ k id s3 H HF) as (s4 & s5 & E4 & E5 & _ & HP).
  assert (d_os (disk s) = [] → d_os (disk s5) = []) as Hq5 by (eapply later_nil, HP).
  rewrite E4, E5.
  pose proof HP as (O & _ & _ & _ & Hn5 & Hsb5 & _).
  assert (store_at s5 V C (map_img V)) as H5.
  { eapply store_at_obj; [done|exact Hid'|exact H|exact O| |].
    - destruct (so_normal _ _ _ _ _ H) as (bn & dn & Hbn & HR). exists bn, dn. split; [|done]. congruence.
    - rewrite Hsb5. apply H. }
  destruct (commit_run g Hg s5 V C _ id (add_used 1) H5 Hid' (sb_rep_used g 1)) as (code & flag & s6 & E6 & [M6 H6 Hsb6 Hc6 Hq6]).
  rewrite E6. cbn [fst snd]. rewrite Hsb5 in Hsb6.
  destruct (Z.eqb_spec code TFS_SUCCESS) as [->|Hcode].
  - destruct Hc6 as [(_ & -> & Hsy)|?]; [|done].
    destruct (enter_run s s5 s6 V C k id H Hid' Hk Hni' H64 H32 HP M6 H6 Hsb6 Hsy) as (s7 & E7 & Hen).
    rewrite E7. eexists _, _, _. split; [done|]. split; [done|]. split; [by left|done].
  - destruct Hc6 as [(-> & _)|Hneg]; [done|].
    destruct (undo_run s s5 s6 V C k id flag H Hid' Hni' HP M6 H6 Hsb6) as (s7 & E7 & Hun).
    assert ((rollback_superblock id flag;; delete_block_file (brk s + 1);; delete_lb (brk s + 1);; delete_pb (brk s);; mret (code, id)) s6
      = Some ((code, id), s7)) as E8.
    { revert E7. M_unfold. destruct (rollback_superblock _ _ _) as [[[] ?]|]; [|done].
      destruct (delete_block_file _ _) as [[[] ?]|]; [|done]. destruct (delete_lb _ _) as [[[] ?]|]; [|done].
      destruct (delete_pb _ _) as [[[] ?]|]; [|done]. by intros [= ->]. }
    revert E8. M_unfold. intros ->. eexists _, _, _. split; [done|]. split; [done|]. split; [by right|].
    intros H0. by apply Hq6, Hq5.
Qed.
End new.

(** [del_block] of BlockStore.v under every behaviour of the disk. *)
Section del.
Context (g : geometry) (Hg : geo_ok g).
Local Abbreviation mnt := (g_mnt g).
Local Abbreviation mc := (g_mc g).
Local Abbreviation ms := (g_ms g).
Local Abbreviation path := (main_path mnt).
Local Abbreviation super := (super_path mnt).
Local Abbreviation store_at := (store_at g).
Local Abbreviation store_ok := (store_ok g).

Lemma map_img_delete_inj (V : gmap name Z) k id :
  V !! k = Some id → (∀ k1 k2 i, V !! k1 = Some i → V !! k2 = Some i → k1 = k2) →
  map_img (delete k V) = map_img V ∖ {[id]} :> gset Z.
Proof.
  intros Hk Hinj. apply set_eq. intros i. rewrite elem_of_difference, elem_of_singleton, !elem_of_map_img. split.
  - intros [k' Hk']. apply lookup_delete_Some in Hk' as [Hne Hk']. split; [by exists k'|]. intros ->. by apply Hne, (Hinj _ _ id).
  - intros [[k' Hk'] Hne]. exists k'. rewrite lookup_delete_ne; [done|]. intros <-. congruence.
Qed.

(** The objects of a block that is no longer in the maps may go. *)
Lemma store_at_drop s V C S loc lloc id k b l :
  store_at s V C S → pheap s !! loc = Some b → pb_physical_block_id b = id → id ∉ (map_img V : gset Z) →
  lheap s !! lloc = Some l → (lb_fileid l, lb_chunkid l) = k → V !! k = None →
  store_at (set_heaps (delete loc (pheap s)) (delete lloc (lheap s)) (brk s) (disk s) s) V C S.
Proof.
  intros [] Hb Hid Hni Hl Hk HV. split; simpl; try done.
  - intros k' i Hk'. destruct (so_blocks _ _ Hk') as (lloc' & loc' & [? (l' & Hl' & Hf & Hc & ?) ? (b' & Hb' & Hrep)]).
    exists lloc', loc'. split; try done; simpl.
    + exists l'. rewrite lookup_delete_ne; [done|]. intros <-. rewrite Hl in Hl'. injection Hl' as <-.
      rewrite Hf, Hc in Hk. destruct k'. simpl in *. congruence.
    + exists b'. rewrite lookup_delete_ne; [done|]. intros <-. rewrite Hb in Hb'. injection Hb' as <-.
      apply Hni, elem_of_map_img. exists k'. rewrite <- Hid, (pbr_id _ _ _ _ _ Hrep). done.
  - destruct so_brk as (? & Hp & Hll). split_and!; [done| |].
    + intros a x Ha. apply lookup_delete_Some in Ha as [_ Ha]. by eapply Hp.
    + intros a x Ha. apply lookup_delete_Some in Ha as [_ Ha]. by eapply Hll.
Qed.

(** The block leaves the maps and the bitmap. *)
Definition unlinked (s : bfm) (k : name) (id : Z) (b : bitmap) : bfm :=
  set_logic (map_delete k.1 k.2 (logic_blocks_ s))
    (set_maps (bit_map_size_ s) (Some b) (error_bit_map_ s) (set_physcial (delete id (physcial_blocks_ s)) s)).
Lemma unlinked_ok s V C k id b d :
  store_ok s V C → V !! k = Some id → bm_rep b (mc + 1) d (map_img V ∖ {[id]}) →
  store_ok (unlinked s k id b) (delete k V) C.
Proof.
  intros [] Hk HR. unfold StoreInv.store_ok. rewrite (map_img_delete_inj _ _ _ Hk so_inj). split; simpl; try done.
  - by exists b, d.
  - intros k' i Hk'. apply lookup_delete_Some in Hk' as [Hne Hk'].
    destruct (so_blocks _ _ Hk') as (lloc' & loc' & []). exists lloc', loc'. split; try done; simpl.
    + rewrite find_delete, decide_False; [done|]. intros E. apply Hne. by destruct k, k'.
    + rewrite lookup_delete_ne; [done|]. intros <-. by apply Hne, (so_inj _ _ id).
  - intros k' Hk'. rewrite find_delete. case_decide as E; [done|]. apply so_free.
    apply lookup_delete_None in Hk' as [<-|?]; [|done]. by destruct k.
  - rewrite dom_delete_L, so_dom. symmetry. by apply map_img_delete_inj.
  - intros k1 k2 i H1 H2. apply lookup_delete_Some in H1 as [_ H1], H2 as [_ H2]. by eapply so_inj.
  - intros k' i Hk'. apply lookup_delete_Some in Hk' as [_ Hk']. by eapply so_range.
Qed.

Definition removed (s : bfm) (V : gmap name Z) (C : Z → bytes) (k : name) (code : Z) (s' : bfm) : Prop :=
  store_ok s' (delete k V) C ∧ error_bit_map_ s' = error_bit_map_ s ∧ later (disk s) (disk s') ∧
  (∀ p, p ≠ super → d_files (disk s') !! p = d_files (disk s) !! p) ∧
  (code = TFS_SUCCESS ∧ super_synced g s' ∧ super_block_ s' = add_used_ext 0 (add_used (-1) (super_block_ s)) ∨ code < 0) ∧
  (d_os (disk s) = [] → code = TFS_SUCCESS).

(** The saves of [del_block]. *)
Definition del_save (size : Z) : BM_ Z :=
  r ← save_bit_map;
  if negb (r =? TFS_SUCCESS) then mret r else
  upd_super (add_used (-1));;
  upd_super (add_used_ext (- (size - 1)));;
  r ← save_super;
  if negb (r =? TFS_SUCCESS) then mret r else save_flush.

Lemma del_save_run s V C S : store_at s V C S → ∃ code s',
  del_save 1 s = Some (code, s') ∧ meta_step g s s' ∧ store_at s' V C S ∧
  (code = TFS_SUCCESS ∧ super_synced g s' ∧ super_block_ s' = add_used_ext 0 (add_used (-1) (super_block_ s)) ∨ code < 0) ∧
  (d_os (disk s) = [] → code = TFS_SUCCESS).
Proof.
  intros H1. unfold del_save.
  destruct (so_normal _ _ _ _ _ H1) as (bn & dn & Hbn & Hn). destruct (so_error _ _ _ _ _ H1) as (be & de & Se & Hbe & He).
  destruct (save_bit_map_run g Hg s V C _ bn dn _ be de Se H1 Hbn Hn Hbe He) as (r & s2 & E2 & I2 & R2 & Q2).
  rewrite (M_bind_Some _ _ _ _ _ E2).
  pose proof (store_at_io g Hg _ _ _ _ _ H1 I2) as H2. pose proof (io_meta g _ _ I2) as M2.
  assert (super_block_ s2 = super_block_ s ∧ normal_bit_map_ s2 = Some bn ∧ error_bit_map_ s2 = Some be) as (Hsb2 & Hbn2 & Hbe2)
    by (by destruct I2 as (i & d & -> & _)).
  destruct (Z.eqb_spec r TFS_SUCCESS) as [->|Hr]; cbn [negb]; cycle 1.
  { exists r, s2. split_and!; [done|done|done|right; destruct R2 as [[-> _]|?]; done|intros H0; by apply Q2]. }
  destruct (upd_super_run g Hg (add_used (-1)) s2 V C _ H2) as (E3 & M3 & H3); [apply sb_rep_used, H2|].
  rewrite (M_bind_Some _ _ _ _ _ E3).
  destruct (upd_super_run g Hg (add_used_ext (- (1 - 1))) _ V C _ H3) as (E4 & M4 & H4); [apply sb_rep_used_ext, H3|].
  rewrite (M_bind_Some _ _ _ _ _ E4).
  destruct (save_super_run g Hg _ V C _ H4) as (r & s5 & E5 & I5 & R5 & Q5). rewrite (M_bind_Some _ _ _ _ _ E5).
  pose proof (store_at_io g Hg _ _ _ _ _ H4 I5) as H5. pose proof (io_meta g _ _ I5) as M5.
  assert (super_block_ s5 = add_used_ext 0 (add_used (-1) (super_block_ s)) ∧ normal_bit_map_ s5 = Some bn ∧ error_bit_map_ s5 = Some be)
    as (Hsb5 & Hbn5 & Hbe5) by (destruct I5 as (i & d & -> & _); simpl; by rewrite Hsb2).
  assert (meta_step g s s5) as M15 by (etrans; [exact M2|]; etrans; [exact M3|]; by etrans).
  destruct (Z.eqb_spec r TFS_SUCCESS) as [->|Hr]; cbn [negb]; cycle 1.
  { exists r, s5. split_and!; [done|done|done|right; destruct R5 as [[-> _]|?]; done|].
    intros H0. apply Q5. simpl. by apply Q2. }
  rewrite (save_flush_run g _ _ _ _ H5). exists 0, s5. split_and!; [done|done|done| |done].
  left. split_and!; [done| |done].
  destruct R2 as [[_ R2]|?]; [|done]. destruct R5 as [[_ R5]|?]; [|done].
  destruct (so_sfile _ _ _ _ _ H1) as [f Hf].
  eapply (saved_synced g s s2 s5 f bn dn be de); try done; [apply Hg|apply H5|by apply R2| |apply Hn|apply He].
  assert (super_block_ s5 = super_block_ (set_super (add_used_ext (- (1 - 1)) (super_block_ (set_super (add_used (-1) (super_block_ s2)) s2)))
     (set_super (add_used (-1) (super_block_ s2)) s2))) as -> by (by destruct I5 as (i & d & -> & _)).
  apply R5. simpl. by apply R2.
Qed.

Lemma take_physic_one s loc b id bn bn' :
  pheap s !! loc = Some b → pb_physical_block_id b = id → physcial_blocks_ s !! id = Some loc → loc ≠ 0 →
  normal_bit_map_ s = Some bn → bm_reset id bn = Some bn' →
  take_physic [loc] s = Some ([loc],
    set_maps (bit_map_size_ s) (Some bn') (error_bit_map_ s) (set_physcial (delete id (physcial_blocks_ s)) s)).
Proof.
  intros Hb Hid Hp Hloc Hn Hr. cbn [take_physic]. unfold get_pb, upd_normal, normal, getsM, lift. M_unfold.
  rewrite Hb. simpl. rewrite Hid, Hp. simpl. rewrite Hn. simpl. rewrite Hr. simpl.
  destruct (Z.eqb_spec loc 0); done.
Qed.

Lemma del_block_run s V C k :
  store_ok s V C → ∃ code s', del_block k.1 k.2 C_MAIN_BLOCK s = Some (code, s') ∧
  if V !! k is Some _ then removed s V C k code s' else code = EXIT_NO_LOGICBLOCK_ERROR ∧ s' = s.
Proof.
  intros H. unfold del_block.
  assert (find_logic_block k.1 k.2 C_MAIN_BLOCK s = Some (find_logic_block_map (logic_blocks_ s) k.1 k.2, s)) as E0 by done.
  rewrite (M_bind_Some _ _ _ _ _ E0). clear E0.
  destruct (V !! k) as [id|] eqn:Hk; [|rewrite (so_free _ _ _ _ _ H _ Hk); by eexists _, _].
  destruct (so_blocks _ _ _ _ _ H _ _ Hk) as (lloc & loc & [Hfind (l & Hl & Hlf & Hlc & Hla & Hll) Hph (b & Hb & Hrep)]).
  rewrite Hfind. assert (get_lb lloc s = Some (l, s)) as E1 by (unfold get_lb, getsM; by rewrite Hl).
  rewrite (M_bind_Some _ _ _ _ _ E1). rewrite Hll. cbv zeta. change (Z.of_nat (length [loc]) =? 0) with false. cbv iota.
  destruct (so_range _ _ _ _ _ H _ _ Hk) as (Hid & H64 & H32).
  destruct (so_normal _ _ _ _ _ H) as (bn & dn & Hbn & Hn).
  destruct (bm_reset_run _ _ _ _ id Hn) as (bn' & dn' & Er & Hn'); [lia|].
  destruct (so_brk _ _ _ _ _ H) as (_ & Hpos & _). specialize (Hpos _ _ Hb).
  rewrite (M_bind_Some _ _ _ _ _ (take_physic_one s loc b id bn bn' Hb (pbr_id _ _ _ _ _ Hrep) Hph ltac:(lia) Hbn Er)).
  assert (∃ r, erase_logic_block k.1 k.2 C_MAIN_BLOCK
    (set_maps (bit_map_size_ s) (Some bn') (error_bit_map_ s) (set_physcial (delete id (physcial_blocks_ s)) s)) =
    Some (r, unlinked s k id bn')) as [r E3] by (by eexists).
  rewrite (M_bind_Some _ _ _ _ _ E3).
  pose proof (unlinked_ok s V C k id bn' dn' H Hk Hn') as H1.
  destruct (del_save_run _ _ _ _ H1) as (code & s2 & E2 & M2 & H2 & R2 & Q2).
  change (Z.of_nat (length [loc])) with 1.
  rewrite (M_bind_Some (del_save 1) _ _ _ _ E2).
  pose proof (ms_pheap _ _ _ M2) as Hp2. pose proof (ms_lheap _ _ _ M2) as Hl2. cbn [unlinked set_logic set_maps set_physcial pheap lheap] in Hp2, Hl2.
  rewrite <- Hp2 in Hb. rewrite <- Hl2 in Hl.
  assert (id ∉ (map_img (delete k V) : gset Z)) as Hni
    by (rewrite (map_img_delete_inj V k id) by (done || apply H); set_solver).
  pose proof (store_at_drop s2 (delete k V) C _ loc lloc id k b l H2 Hb (pbr_id _ _ _ _ _ Hrep) Hni Hl
    ltac:(by rewrite Hlf, Hlc; destruct k) (lookup_delete_eq _ _)) as H3.
  assert ((delete_block_file lloc;; delete_lb lloc;; forM delete_pb [loc];; mret code) s2 =
    Some (code, set_heaps (delete loc (pheap s2)) (delete lloc (lheap s2)) (brk s2) (disk s2) s2)) as E4.
  { unfold delete_block_file, delete_lb, delete_pb, upd_pb, get_lb, get_pb, put_pb, getsM. M_unfold. rewrite Hl. simpl.
    rewrite Hll. simpl. M_unfold. rewrite Hb. simpl. rewrite Hl. simpl. rewrite lookup_insert_eq. simpl. by rewrite delete_insert_eq. }
  rewrite E4. eexists _, _. split; [done|]. destruct M2. unfold removed. split_and!; [done|done|done| | |done].
  - intros p Hp. by apply ms_files.
  - destruct R2 as [(? & (f & a1 & a2 & a3 & a4 & Hsy) & ?)|?]; [left|by right]. split_and!; [done| |done]. by exists f, a1, a2, a3, a4.
Qed.
End del.
