(* ===== verification/StoreData.v ===== *)
(** Reading and writing the data of blocks: the operations of DataMgr.v against the
    map and the data areas of StoreInv.v, under every behaviour of the disk. *)
From Stdlib Require Import (notations) String.
From stdpp Require Import fin_map_dom functions.
From S2P Require Import Prelude Bytes Text ProxyMsg Bitmap DsFile DsBlock BlockStore BlockLoad DataMgr StoreInv StoreBlocks StoreNew.

(** A write behind a head of the file. *)
Lemma file_write_tail h off data c : (off + length data ≤ length c)%nat →
  file_write (length h + off) data (h ++ c) = h ++ file_write off data c.
Proof.
  intros H. rewrite (file_write_in off), (file_write_in (length h + off)) by (rewrite ?length_app; lia).
  rewrite take_app_add, <- Nat.add_assoc, drop_app_add. by rewrite <- app_assoc.
Qed.

Section data.
Context (g : geometry) (Hg : geo_ok g).
Local Abbreviation mnt := (g_mnt g).
Local Abbreviation mc := (g_mc g).
Local Abbreviation ms := (g_ms g).
Local Abbreviation path := (main_path mnt).
Local Abbreviation super := (super_path mnt).
Local Abbreviation store_at := (store_at g).
Local Abbreviation store_ok := (store_ok g).
Local Abbreviation block_ok := (block_ok g).

(** The objects move on in place and the data areas change from [C] to [C']. *)
Record data_step (s : bfm) (C : Z → bytes) (s' : bfm) (C' : Z → bytes) : Prop := DataStep {
  da_logic : logic_blocks_ s' = logic_blocks_ s;
  da_compact : compact_logic_blocks_ s' = compact_logic_blocks_ s;
  da_phys : physcial_blocks_ s' = physcial_blocks_ s;
  da_normal : normal_bit_map_ s' = normal_bit_map_ s;
  da_error : error_bit_map_ s' = error_bit_map_ s;
  da_super : super_block_ s' = super_block_ s;
  da_impl : super_block_impl_ s' = super_block_impl_ s;
  da_brk : brk s' = brk s;
  da_pheap : ∀ a b, pheap s !! a = Some b → ∃ b', pheap s' !! a = Some b' ∧ ∀ id p, pb_rep mnt ms id p b → pb_rep mnt ms id p b';
  da_pdom : ∀ a b, pheap s' !! a = Some b → is_Some (pheap s !! a);
  da_lheap : ∀ a l, lheap s !! a = Some l → ∃ l', lheap s' !! a = Some l' ∧
    lb_fileid l' = lb_fileid l ∧ lb_chunkid l' = lb_chunkid l ∧ lb_avail_data_size l' = lb_avail_data_size l ∧
    lb_physical_block_list l' = lb_physical_block_list l;
  da_ldom : ∀ a l, lheap s' !! a = Some l → is_Some (lheap s !! a);
  da_later : later (disk s) (disk s');
  da_sfile : d_files (disk s') !! super = d_files (disk s) !! super;
  da_files : ∀ id h, 1 ≤ id ≤ mc → length h = 512%nat →
    d_files (disk s) !! path id = Some (h ++ C id) → d_files (disk s') !! path id = Some (h ++ C' id);
  da_len : ∀ id, length (C' id) = length (C id) }.

Lemma data_refl s C : data_step s C s C.
Proof. split; try done; eauto. intros a l Hl. by exists l. Qed.
Lemma data_trans s1 C1 s2 C2 s3 C3 : data_step s1 C1 s2 C2 → data_step s2 C2 s3 C3 → data_step s1 C1 s3 C3.
Proof.
  intros [] []. split; try congruence; try done.
  - intros a b Hb. destruct (da_pheap0 _ _ Hb) as (b2 & Hb2 & Hr2), (da_pheap1 _ _ Hb2) as (b3 & Hb3 & Hr3). exists b3. auto.
  - intros a b Hb. destruct (da_pdom1 _ _ Hb) as [b2 Hb2]. eauto.
  - intros a l Hl. destruct (da_lheap0 _ _ Hl) as (l2 & Hl2 & ? & ? & ? & ?), (da_lheap1 _ _ Hl2) as (l3 & Hl3 & ? & ? & ? & ?).
    exists l3. split_and!; congruence.
  - intros a l Hl. destruct (da_ldom1 _ _ Hl) as [l2 Hl2]. eauto.
  - by etrans.
  - eauto.
Qed.

Lemma block_ok_data s C s' C' k id lloc loc : data_step s C s' C' → block_ok s k id lloc loc → block_ok s' k id lloc loc.
Proof.
  intros [] []. destruct bo_logic as (l & Hl & ? & ? & ? & ?), bo_pb as (b & Hb & Hr). split.
  - by rewrite da_logic0.
  - destruct (da_lheap0 _ _ Hl) as (l' & ? & ? & ? & ? & ?). exists l'. split_and!; congruence.
  - by rewrite da_phys0.
  - destruct (da_pheap0 _ _ Hb) as (b' & ? & Hr'). exists b'. auto.
Qed.
Lemma store_at_data s V C S s' C' : store_at s V C S → data_step s C s' C' → store_at s' V C' S.
Proof.
  intros H D. pose proof (block_ok_data s C s' C') as Hok. pose proof D as D'. destruct H, D. split.
  - by rewrite da_normal0.
  - by rewrite da_error0.
  - by rewrite da_super0.
  - by rewrite da_impl0.
  - by rewrite da_sfile0.
  - intros id Hid. destruct (so_files id Hid) as (h & Hf & Hh & Hc). exists h. rewrite da_len0. auto.
  - congruence.
  - intros k id Hk. destruct (so_blocks _ _ Hk) as (lloc & loc & B). exists lloc, loc. by apply Hok.
  - by rewrite da_logic0.
  - by rewrite da_phys0.
  - done.
  - done.
  - rewrite da_brk0. destruct so_brk as (? & Hp & Hl). split_and!; [done| |].
    + intros a b [b0 Hb]%da_pdom0. by eapply Hp.
    + intros a l [l0 Hl0]%da_ldom0. by eapply Hl.
Qed.

(** ** Finding a block *)

Lemma get_logic_none s V C S k : store_at s V C S → V !! k = None → get_logic_block k.1 k.2 C_MAIN_BLOCK s = Some (None, s).
Proof.
  intros H Hk. unfold get_logic_block. rewrite (M_bind_Some _ _ _ (find_logic_block_map (logic_blocks_ s) k.1 k.2) s) by done.
  by rewrite (so_free _ _ _ _ _ H _ Hk).
Qed.
Lemma get_logic_some s V C S k id : store_at s V C S → V !! k = Some id → ∃ lloc loc s',
  get_logic_block k.1 k.2 C_MAIN_BLOCK s = Some (Some lloc, s') ∧ data_step s C s' C ∧ block_ok s' k id lloc loc ∧
  disk s' = disk s.
Proof.
  intros H Hk. destruct (so_blocks _ _ _ _ _ H _ _ Hk) as (lloc & loc & B). pose proof B as [].
  destruct bo_logic as (l & Hl & Hrest).
  assert (data_step s C (set_lheap (<[lloc := add_visit_count l]> (lheap s)) s) C) as D.
  { split; try done; simpl; eauto.
    - intros a l0 Hl0. destruct (decide (a = lloc)) as [->|Hne].
      + rewrite lookup_insert_eq. exists (add_visit_count l). by simplify_eq.
      + rewrite lookup_insert_ne by done. by exists l0.
    - intros a l0. destruct (decide (a = lloc)) as [->|Hne]; [by rewrite Hl|by rewrite lookup_insert_ne]. }
  eexists lloc, loc, _. split_and!; [|exact D|by eapply block_ok_data|done].
  unfold get_logic_block. rewrite (M_bind_Some _ _ _ (find_logic_block_map (logic_blocks_ s) k.1 k.2) s) by done.
  rewrite bo_find. unfold get_lb, put_lb, getsM. M_unfold. by rewrite Hl.
Qed.

Lemma head_length k id : length (enc_prefix (Prefix (fst k) (snd k) 0 id)) = 20%nat.
Proof. apply enc_prefix_length. Qed.

(** ** One block's file *)

Lemma in_pb_write s V C S k id lloc loc buf off :
  store_at s V C S → V !! k = Some id → block_ok s k id lloc loc → 0 ≤ off → off + Z.of_nat (length buf) ≤ ms →
  ∃ code s' n, in_pb loc (pwrite_data buf off) s = Some (code, s') ∧ (n ≤ length buf)%nat ∧
    data_step s C s' (<[id := file_write (Z.to_nat off) (take n buf) (C id)]> C) ∧
    (code = TFS_SUCCESS ∧ n = length buf ∨ code < 0) ∧ (d_os (disk s) = [] → code = TFS_SUCCESS).
Proof.
  intros H Hk [] Ho Hl. destruct bo_pb as (b & Hb & Hr).
  pose proof (so_range _ _ _ _ _ H _ _ Hk) as (Hid & _). destruct (so_files _ _ _ _ _ H id Hid) as (h & Hf & Hh & HC).
  destruct (pwrite_data_run mnt ms id _ b (disk s) _ buf off Hr Hf (geo_ms _ Hg) Ho Hl) as (code & b' & d' & n & E & Hr' & Hla & Hn & Hfs & Hc & Hq).
  exists code, (set_heaps (<[loc := b']> (pheap s)) (lheap s) (brk s) d' s), n.
  split_and!; [by apply (in_pb_run loc _ s b)|done| |done|done].
  assert (Z.to_nat (512 + off) = (length h + Z.to_nat off)%nat) as Eo by lia. rewrite Eo in Hfs.
  assert (length (take n buf) ≤ length buf)%nat as Htk by (rewrite length_take; lia).
  rewrite file_write_tail in Hfs by lia.
  split; try done; cbn [set_heaps pheap lheap disk].
  - intros a b0 Hb0. destruct (decide (a = loc)) as [->|Hne]; [|rewrite lookup_insert_ne by done; by exists b0].
    rewrite lookup_insert_eq. exists b'. split; [done|]. rewrite Hb in Hb0. injection Hb0 as <-.
    intros i p [? ? ? Hp Hn0]. destruct Hr, Hr'. split; congruence.
  - intros a b0. destruct (decide (a = loc)) as [->|Hne]; [by rewrite Hb|by rewrite lookup_insert_ne].
  - intros a l Hl0. by exists l.
  - rewrite Hfs. apply lookup_insert_ne. by apply path_super.
  - intros i h' Hi Hh' Hf'. rewrite Hfs. destruct (decide (i = id)) as [->|Hne].
    + rewrite lookup_insert_eq, fn_lookup_insert. rewrite Hf in Hf'. injection Hf' as Hf'.
      apply app_inj_1 in Hf' as [-> _]; [done|lia].
    + rewrite lookup_insert_ne, fn_lookup_insert_ne by (done || (intros E'; by apply Hne, eq_sym, (path_inj g Hg))). done.
  - intros i. destruct (decide (i = id)) as [->|Hne]; [|by rewrite fn_lookup_insert_ne].
    rewrite fn_lookup_insert. apply file_write_length. lia.
Qed.

Lemma in_pb_read s V C S k id lloc loc n off :
  store_at s V C S → V !! k = Some id → block_ok s k id lloc loc → 0 ≤ off → 0 ≤ n → off + n ≤ ms →
  ∃ code data s', in_pb loc (pread_data n off) s = Some ((code, data), s') ∧ data_step s C s' C ∧
    (code = TFS_SUCCESS ∧ data = take (Z.to_nat n) (drop (Z.to_nat off) (C id)) ∨ code < 0) ∧
    (d_os (disk s) = [] → code = TFS_SUCCESS).
Proof.
  intros H Hk [] Ho Hn Hl. destruct bo_pb as (b & Hb & Hr).
  pose proof (so_range _ _ _ _ _ H _ _ Hk) as (Hid & _). destruct (so_files _ _ _ _ _ H id Hid) as (h & Hf & Hh & HC).
  destruct (pread_data_run mnt ms id _ b (disk s) _ n off Hr Hf (geo_ms _ Hg) Ho Hn Hl) as (code & data & b' & d' & E & Hr' & Hla & Hfs & Hc & Hq).
  { rewrite length_app. lia. }
  exists code, data, (set_heaps (<[loc := b']> (pheap s)) (lheap s) (brk s) d' s).
  split_and!; [by apply (in_pb_run loc _ s b)| | |done].
  - split; try done; cbn [set_heaps pheap lheap disk]; try by rewrite Hfs.
    + intros a b0 Hb0. destruct (decide (a = loc)) as [->|Hne]; [|rewrite lookup_insert_ne by done; by exists b0].
      rewrite lookup_insert_eq. exists b'. split; [done|]. rewrite Hb in Hb0. injection Hb0 as <-.
      intros i p [? ? ? Hp Hn0]. destruct Hr, Hr'. split; congruence.
    + intros a b0. destruct (decide (a = loc)) as [->|Hne]; [by rewrite Hb|by rewrite lookup_insert_ne].
    + intros a l Hl0. by exists l.
  - destruct Hc as [[-> ->]|?]; [left|by right]. split; [done|]. f_equal.
    replace (512 + Z.to_nat off)%nat with (length h + Z.to_nat off)%nat by lia.
    by rewrite drop_app_add.
Qed.

(** ** The loops make one turn *)

Lemma choose_one s k id lloc loc off n :
  block_ok s k id lloc loc → 0 ≤ off → 0 ≤ n → off < ms → off + n ≤ ms →
  choose_physic_block lloc off n s = Some (Some (loc, off, n), s).
Proof.
  intros [] Ho Hn Hlt Hl. destruct bo_logic as (l & Hll & _ & _ & _ & Hlist), bo_pb as (b & Hb & []).
  pose proof (geo_ms _ Hg). unfold choose_physic_block, get_lb, getsM. M_unfold. rewrite Hll. cbn [mbind option_bind].
  rewrite Hlist. cbn [choose_loop]. unfold get_pb, getsM. M_unfold. rewrite Hb. cbn [mbind option_bind]. cbv zeta.
  rewrite pbr_len, Z.add_0_l, i32_small by lia. destruct (Z.ltb_spec off ms); [|lia].
  rewrite Z.sub_0_r, i32_small by lia. rewrite i32_small by lia. destruct (Z.ltb_spec ms (off + n)); [lia|done].
Qed.

(** The writing of a block within its area. *)
Definition wrote (s : bfm) (C : Z → bytes) (id off : Z) (buf : bytes) (code : Z) (s' : bfm) : Prop :=
  ∃ n, (n ≤ length buf)%nat ∧ data_step s C s' (<[id := file_write (Z.to_nat off) (take n buf) (C id)]> C) ∧
    (code = TFS_SUCCESS ∧ n = length buf ∨ code < 0) ∧ (d_os (disk s) = [] → code = TFS_SUCCESS).

Lemma write_segment_run s V C S k id lloc loc buf off :
  store_at s V C S → V !! k = Some id → block_ok s k id lloc loc → buf ≠ [] → 0 ≤ off → off + Z.of_nat (length buf) ≤ ms →
  ∃ code s', write_segment_data lloc buf off s = Some (code, s') ∧ wrote s C id off buf code s'.
Proof.
  intros H Hk B Hne Ho Hl. assert (0 < length buf)%nat as Hlb by (destruct buf; [done|simpl; lia]).
  destruct (in_pb_write s V C S k id lloc loc buf off H Hk B Ho Hl) as (code & s' & n & E & Hn & D & Hc & Hq).
  exists code, s'. split; [|by exists n]. unfold write_segment_data.
  destruct buf as [|x buf]; [done|]. cbn [length write_loop] in *.
  rewrite (M_bind_Some _ _ _ _ _ (choose_one s k id lloc loc off (Z.of_nat (Datatypes.S (length buf))) B Ho ltac:(lia) ltac:(lia) ltac:(lia))).
  rewrite Nat2Z.id, take_ge by (simpl; lia). rewrite (M_bind_Some _ _ _ _ _ E).
  destruct (Z.eqb_spec code TFS_SUCCESS) as [->|]; [|done]. cbn [negb]. rewrite drop_ge by (simpl; lia).
  by destruct (length buf).
Qed.

(** A write that does not fit is answered [TFS_ERROR], which is positive. *)
Definition write_out_at (s : bfm) (C : Z → bytes) (id off : Z) (buf : bytes) (code : Z) (s' : bfm) : Prop :=
  if ms <? off + Z.of_nat (length buf) then code = TFS_ERROR ∧ data_step s C s' C else wrote s C id off buf code s'.

Lemma lb_write_run s V C S k id lloc loc buf off :
  store_at s V C S → V !! k = Some id → block_ok s k id lloc loc → buf ≠ [] → 0 ≤ off →
  off + Z.of_nat (length buf) < 2 ^ 31 →
  ∃ code s', lb_write_raw_data lloc buf off s = Some (code, s') ∧ write_out_at s C id off buf code s'.
Proof.
  intros H Hk B Hne Ho Hlt. unfold lb_write_raw_data, extend_block, MAX_EXTEND_TIMES, write_out_at.
  pose proof B as []. destruct bo_logic as (l & Hl & _ & _ & Hav & _). cbn [extend_loop]. M_unfold.
  unfold get_lb, getsM. rewrite Hl. cbn [mbind option_bind]. rewrite Hav, i32_small by lia.
  rewrite (Z.add_comm off). rewrite (Z.add_comm _ off).
  destruct (Z.ltb_spec ms (off + Z.of_nat (length buf))) as [Hout|Hin]; cbn [negb].
  - change (EXTEND_SUPPORT =? 0) with true. cbv iota. change (TFS_ERROR =? TFS_SUCCESS) with false. cbn [negb].
    eexists _, _. split; [done|]. split; [done|apply data_refl].
  - change (TFS_SUCCESS =? TFS_SUCCESS) with true. cbn [negb]. by eapply write_segment_run.
Qed.

Lemma read_segment_run s V C S k id lloc loc n off :
  store_at s V C S → V !! k = Some id → block_ok s k id lloc loc → 0 ≤ off → 0 ≤ n → off + n ≤ ms →
  ∃ code data s', read_segment_data lloc n off s = Some ((code, data), s') ∧ data_step s C s' C ∧
    (code = TFS_SUCCESS ∧ data = take (Z.to_nat n) (drop (Z.to_nat off) (C id)) ∨ code < 0) ∧
    (d_os (disk s) = [] → code = TFS_SUCCESS).
Proof.
  intros H Hk B Ho Hn Hl. unfold read_segment_data. destruct (Z.to_nat n) as [|f] eqn:En; cbn [read_loop].
  - destruct (Z.leb_spec n 0); [|lia]. eexists _, _, _. split_and!; [done|apply data_refl|by left|done].
  - destruct (Z.leb_spec n 0); [lia|].
    rewrite (M_bind_Some _ _ _ _ _ (choose_one s k id lloc loc off n B Ho Hn ltac:(lia) Hl)).
    destruct (in_pb_read s V C S k id lloc loc n off H Hk B Ho Hn Hl) as (code & data & s' & E & D & Hc & Hq).
    rewrite (M_bind_Some _ _ _ _ _ E). cbn [fst snd]. rewrite En in Hc. exists code, data, s'. split_and!; try done.
    destruct (Z.eqb_spec code TFS_SUCCESS) as [->|]; cbn [negb]; [|done].
    destruct f; cbn [read_loop]; (destruct (Z.leb_spec (n - n) 0); [done|lia]).
Qed.
End data.
