(* ===== verification/StoreRefine.v ===== *)
(** What a data server's block manager promises: a map from names to blocks and the
    bytes of the blocks, with the steps of its operations when the disk works and
    what a failing disk may add. *)
From Stdlib Require Import (notations) String.
From stdpp Require Import fin_map_dom functions.
From S2P Require Import Prelude Bytes Text ProxyMsg Bitmap DsFile DsBlock BlockStore BlockLoad DataMgr StoreInv StoreBlocks StoreNew StoreData.

Record vstore := VS { vs_ids : gmap name Z; vs_data : Z → bytes }.

Inductive ds_op :=
  | OpRead (k : name) (off n : Z)
  | OpWrite (k : name) (off : Z) (buf : bytes)
  | OpNew (k : name)
  | OpDel (k : name).
(** An answer: a code, or a code with a length and bytes. *)
Inductive ds_out := OutCode (c : Z) | OutData (c n : Z) (data : bytes).

Definition op_name (o : ds_op) : name := match o with OpRead k _ _ | OpWrite k _ _ | OpNew k | OpDel k => k end.
Definition ds_op_ok (o : ds_op) : Prop :=
  is_u64 (op_name o).1 ∧ is_u32 (op_name o).2 ∧
  match o with
  | OpRead _ off n => 0 ≤ off ∧ 0 ≤ n ∧ off + n < 2 ^ 31
  | OpWrite _ off buf => 0 ≤ off ∧ off + Z.of_nat (length buf) < 2 ^ 31
  | _ => True
  end.

Definition ds_step (o : ds_op) : BM_ ds_out :=
  match o with
  | OpRead k off n => r ← read_raw_data k.1 k.2 off n; mret (OutData r.1.1 r.1.2 r.2)
  | OpWrite k off buf => c ← write_raw_data k.1 k.2 off buf; mret (OutCode c)
  | OpNew k => c ← new_single_block k.1 k.2; mret (OutCode c)
  | OpDel k => c ← del_single_block k.1 k.2; mret (OutCode c)
  end.
Fixpoint ds_run (os : list ds_op) : BM_ (list ds_out) :=
  match os with
  | [] => mret []
  | o :: os => x ← ds_step o; xs ← ds_run os; mret (x :: xs)
  end.

Section spec.
Context (g : geometry) (E : gset Z).
Local Abbreviation mc := (g_mc g).
Local Abbreviation ms := (g_ms g).

(** The least block that is neither used nor faulty. *)
Definition spec_free (V : gmap name Z) : option Z := first_free (Z.to_nat mc) 1 (map_img V ∪ E).
Definition spec_put (id off : Z) (buf : bytes) (v : vstore) : vstore :=
  VS (vs_ids v) (<[id := file_write (Z.to_nat off) buf (vs_data v id)]> (vs_data v)).
Definition spec_write (id off : Z) (buf : bytes) (v : vstore) : ds_out * vstore :=
  if ms <? off + Z.of_nat (length buf) then (OutCode TFS_ERROR, v) else (OutCode TFS_SUCCESS, spec_put id off buf v).
Definition spec_bind (k : name) (id : Z) (v : vstore) : vstore := VS (<[k := id]> (vs_ids v)) (vs_data v).
Definition spec_unbind (k : name) (v : vstore) : vstore := VS (delete k (vs_ids v)) (vs_data v).

Definition spec_step (o : ds_op) (v : vstore) : ds_out * vstore :=
  match o with
  | OpRead k off n =>
      match vs_ids v !! k with
      | None => (OutData EXIT_NO_LOGICBLOCK_ERROR n [], v)
      | Some id =>
          if ms <? off then (OutData EXIT_FAILURE n [], v) else
          let n := Z.min n (ms - off) in
          (OutData TFS_SUCCESS n (take (Z.to_nat n) (drop (Z.to_nat off) (vs_data v id))), v)
      end
  | OpWrite k off buf =>
      if decide (buf = []) then (OutCode TFS_SUCCESS, v) else
      match vs_ids v !! k, spec_free (vs_ids v) with
      | Some id, _ => spec_write id off buf v
      | None, Some id => spec_write id off buf (spec_bind k id v)
      | None, None => (OutCode TFS_ERROR, v)
      end
  | OpNew k =>
      let v := spec_unbind k v in
      match spec_free (vs_ids v) with
      | Some id => (OutCode TFS_SUCCESS, spec_bind k id v)
      | None => (OutCode EXIT_BLOCK_EXHAUST_ERROR, v)
      end
  | OpDel k =>
      match vs_ids v !! k with
      | Some _ => (OutCode TFS_SUCCESS, spec_unbind k v)
      | None => (OutCode EXIT_NO_LOGICBLOCK_ERROR, v)
      end
  end.

(** What a step may do besides when the disk fails: a write may stop half way, a
    block may not be created, and a deleted block is gone in any case. *)
Inductive fault_step : ds_op → vstore → ds_out → vstore → Prop :=
  | F_read k off n v c m data : c < 0 → fault_step (OpRead k off n) v (OutData c m data) v
  | F_write k off buf v id c n :
      vs_ids v !! k = Some id → c < 0 → (n ≤ length buf)%nat → off + Z.of_nat (length buf) ≤ ms →
      fault_step (OpWrite k off buf) v (OutCode c) (spec_put id off (take n buf) v)
  | F_write_new k off buf v id c n :
      vs_ids v !! k = None → spec_free (vs_ids v) = Some id → c < 0 → (n ≤ length buf)%nat →
      off + Z.of_nat (length buf) ≤ ms →
      fault_step (OpWrite k off buf) v (OutCode c) (spec_put id off (take n buf) (spec_bind k id v))
  | F_write_none k off buf v : vs_ids v !! k = None → fault_step (OpWrite k off buf) v (OutCode TFS_ERROR) v
  | F_new k v c : c < 0 → fault_step (OpNew k) v (OutCode c) (spec_unbind k v)
  | F_del k v c : is_Some (vs_ids v !! k) → c < 0 → fault_step (OpDel k) v (OutCode c) (spec_unbind k v).

Definition any_step (o : ds_op) (v : vstore) (x : ds_out) (v' : vstore) : Prop :=
  spec_step o v = (x, v') ∨ fault_step o v x v'.
Inductive any_run : list ds_op → vstore → list ds_out → vstore → Prop :=
  | any_nil v : any_run [] v [] v
  | any_cons o os v x v1 xs v2 : any_step o v x v1 → any_run os v1 xs v2 → any_run (o :: os) v (x :: xs) v2.
Fixpoint spec_run (os : list ds_op) (v : vstore) : list ds_out * vstore :=
  match os with
  | [] => ([], v)
  | o :: os => let r := spec_step o v in let r' := spec_run os r.2 in (r.1 :: r'.1, r'.2)
  end.
End spec.

(** The operations of DataMgr.v refine the map above, and keep what a restart
    needs as long as the disk works. *)
(** Two steps at the head of a run. *)
Lemma M_bind_split {S A B C D} (m : M S A) (f : A → M S B) (h : B → M S C) (k : C → M S D) s y s' :
  (m ≫= f) s = Some (y, s') → ((x ← m; f x ≫= h) ≫= k) s = (h y ≫= k) s'.
Proof. unfold mbind, M_bind. destruct (m s) as [[x s1]|]; [|done]. by intros ->. Qed.

Section refine.
Context (g : geometry) (Hg : geo_ok g) (E : gset Z).
Local Abbreviation mnt := (g_mnt g).
Local Abbreviation mc := (g_mc g).
Local Abbreviation ms := (g_ms g).
Local Abbreviation path := (main_path mnt).
Local Abbreviation super := (super_path mnt).
Local Abbreviation store_at := (store_at g).
Local Abbreviation store_ok := (store_ok g).
Local Abbreviation data_step := (data_step g).

Definition ds_rep (s : bfm) (v : vstore) : Prop := store_ok s (vs_ids v) (vs_data v) ∧ errs g s E.

(** What a restart needs: the super block file is what is in memory, and the files
    of the blocks say whose they are. *)
Definition headers (s : bfm) (V : gmap name Z) : Prop := ∀ k id, V !! k = Some id →
  ∃ f, d_files (disk s) !! path id = Some f ∧ take 20 f = enc_prefix (Prefix k.1 k.2 0 0).
Definition durable (s : bfm) (V : gmap name Z) : Prop := super_synced g s ∧ headers s V.

(** The number of blocks in use. *)
Definition count (v : vstore) : Z := Z.of_nat (size (vs_ids v)).
Lemma add_used_0 sb : sb_ok sb → add_used 0 sb = sb.
Proof.
  intros [? ? ? ? ? ? ? Hi]. unfold add_used, set_used. do 8 (apply Forall_cons in Hi as [? Hi]). apply Forall_cons in Hi as [Hu _].
  rewrite Z.add_0_r, i32_small by done. by destruct sb.
Qed.
Lemma i32_add_l a b : i32 (i32 a + b) = i32 (a + b).
Proof.
  unfold i32 at 1 3, u32. replace ((i32 a + b) `mod` 2 ^ 32) with ((a + b) `mod` 2 ^ 32); [done|].
  unfold i32, u32. case_match; [by rewrite Z.add_mod_idemp_l|].
  rewrite <- (Z.mod_add (a `mod` 2 ^ 32 - 2 ^ 32 + b) 1) by done.
  replace (a `mod` 2 ^ 32 - 2 ^ 32 + b + 1 * 2 ^ 32) with (a `mod` 2 ^ 32 + b) by lia. by rewrite Z.add_mod_idemp_l.
Qed.
Lemma add_used_add a b sb : add_used a (add_used b sb) = add_used (b + a) sb.
Proof. unfold add_used, set_used. cbn. by rewrite i32_add_l, Z.add_assoc. Qed.
Lemma add_used_ext_0 sb : sb_ok sb → add_used_ext 0 sb = sb.
Proof.
  intros [? ? ? ? ? ? ? Hi]. unfold add_used_ext, set_used_ext. do 9 (apply Forall_cons in Hi as [? Hi]). apply Forall_cons in Hi as [Hu _].
  rewrite Z.add_0_r, i32_small by done. by destruct sb.
Qed.
Lemma rep_super s v : ds_rep s v → sb_ok (super_block_ s).
Proof. intros [H _]. apply (so_super _ _ _ _ _ H). Qed.

(** The outcome of an operation that ends in [s'] and [v']: on a working disk the
    counter in the super block moves with the map. *)
Definition moved (s : bfm) (v : vstore) (s' : bfm) (v' : vstore) : Prop :=
  ds_rep s' v' ∧ later (disk s) (disk s') ∧ (d_os (disk s) = [] → durable s (vs_ids v) → durable s' (vs_ids v')) ∧
  (d_os (disk s) = [] → super_block_ s' = add_used (count v' - count v) (super_block_ s)).

Lemma moved_refl s v : ds_rep s v → moved s v s v.
Proof. intros H. unfold moved. rewrite Z.sub_diag, add_used_0 by (by eapply rep_super). by split_and!. Qed.
Lemma moved_trans s1 v1 s2 v2 s3 v3 : moved s1 v1 s2 v2 → moved s2 v2 s3 v3 → moved s1 v1 s3 v3.
Proof.
  intros (H1 & L1 & D1 & C1) (H2 & L2 & D2 & C2). unfold moved. split_and!; [done|by etrans| |].
  - intros H0 Hd. apply D2; [by eapply later_nil|by apply D1].
  - intros H0. rewrite C2, C1, add_used_add by (done || by eapply later_nil). f_equal. lia.
Qed.
Lemma moved_quiet s v s' v' : moved s v s' v' → d_os (disk s) = [] → d_os (disk s') = [].
Proof. intros (_ & L & _). by apply later_nil. Qed.
Lemma moved_count s v s' v' : moved s v s' v' → d_os (disk s) = [] → super_block_ s' = add_used (count v' - count v) (super_block_ s).
Proof. intros M. apply M. Qed.

Lemma moved_data s v s' C' : ds_rep s v → data_step s (vs_data v) s' C' → moved s v s' (VS (vs_ids v) C').
Proof.
  intros [H HE] D. pose proof (store_at_data g _ _ _ _ _ _ H D) as H'. unfold moved. split_and!.
  - split; [done|]. destruct HE as (b & d & Hb & HR). exists b, d. by rewrite (da_error _ _ _ _ _ D).
  - apply (da_later _ _ _ _ _ D).
  - intros _ [(f & bn & dn & be & de & Hf & Hbn & Hdn & Hbe & Hde & Ht1 & Ht2) Hh]. split.
    + exists f, bn, dn, be, de. destruct D. rewrite da_sfile, da_normal, da_error, da_super. done.
    + intros k id Hk. destruct (Hh k id Hk) as (f0 & Hf0 & Ht). pose proof (so_range _ _ _ _ _ H _ _ Hk) as [Hid _].
      destruct (so_files _ _ _ _ _ H id Hid) as (h & Hfile & Hh512 & _). exists (h ++ C' id). split.
      * by apply (da_files _ _ _ _ _ D).
      * rewrite Hfile in Hf0. injection Hf0 as <-. rewrite take_app_le in Ht |- * by lia. done.
  - intros _. unfold count. cbn [vs_ids]. rewrite Z.sub_diag, add_used_0; [apply (da_super _ _ _ _ _ D)|apply (so_super _ _ _ _ _ H)].
Qed.

Lemma moved_entered s v k id s' :
  ds_rep s v → vs_ids v !! k = None → 1 ≤ id ≤ mc → id ∉ (map_img (vs_ids v) : gset Z) →
  entered g k id s s' (vs_ids v) (vs_data v) → moved s v s' (spec_bind k id v).
Proof.
  intros [H HE] Hk Hid Hni (H' & Hc & Hsy & Her & Hl & Hhead & Hfs). unfold moved. split_and!; [split; [done|]|done| |].
  - destruct HE as (b & d & Hb & HR). exists b, d. by rewrite Her.
  - intros _ [_ Hh]. split; [done|]. intros k' id' Hk'. cbn [spec_bind vs_ids] in Hk'. destruct (decide (k' = k)) as [->|Hne].
    + rewrite lookup_insert_eq in Hk'. by injection Hk' as <-.
    + rewrite lookup_insert_ne in Hk' by done. pose proof (so_range _ _ _ _ _ H _ _ Hk') as [Hid' _].
      destruct (Hh k' id' Hk') as (f & Hf & Ht). exists f. split; [|done]. rewrite Hfs; [done|by apply path_super|].
      intros Ep. apply (path_inj g Hg) in Ep; [|done..]. subst. apply Hni, elem_of_map_img. by exists k'.
  - intros _. rewrite Hc. f_equal. unfold count. cbn [spec_bind vs_ids]. rewrite map_size_insert_None by done. lia.
Qed.
Lemma moved_undone s v i s' : ds_rep s v → undone g i s s' (vs_ids v) (vs_data v) → d_os (disk s) ≠ [] → moved s v s' v.
Proof.
  intros [H HE] (H' & Her & Hl & _) Hn. unfold moved. split_and!; [split; [done|]|done..].
  destruct HE as (b & d & Hb & HR). exists b, d. by rewrite Her.
Qed.

(** ** Deleting *)

Lemma del_run s v k : ds_rep s v → ∃ c s', del_block k.1 k.2 C_MAIN_BLOCK s = Some (c, s') ∧
  match vs_ids v !! k with
  | None => c = EXIT_NO_LOGICBLOCK_ERROR ∧ s' = s
  | Some _ => moved s v s' (spec_unbind k v) ∧ (c = TFS_SUCCESS ∨ c < 0) ∧ (d_os (disk s) = [] → c = TFS_SUCCESS)
  end.
Proof.
  intros [H HE]. destruct (del_block_run g Hg s _ _ k H) as (c & s' & Er & Ho). exists c, s'. split; [done|].
  destruct (vs_ids v !! k) as [id|] eqn:Hk; [|done]. destruct Ho as (H' & Her & Hl & Hfs & Hc & Hq).
  split_and!; [|destruct Hc as [(-> & _)|?]; auto|done]. unfold moved. split_and!; [split; [done|]|done| |].
  - destruct HE as (b & d & Hb & HR). exists b, d. by rewrite Her.
  - intros H0 [_ Hh]. split; [destruct Hc as [(_ & ? & _)|?]; [done|]; pose proof (Hq H0); unfold TFS_SUCCESS in *; lia|].
    intros k' id' Hk'. cbn [spec_unbind vs_ids] in Hk'. apply lookup_delete_Some in Hk' as [_ Hk']. destruct (Hh _ _ Hk') as (f & Hf & Ht). exists f.
    split; [|done]. rewrite Hfs; [done|]. apply path_super, (so_range _ _ _ _ _ H _ _ Hk'). done.
  - intros H0. destruct Hc as [(_ & _ & Hsb)|Hc]; [|pose proof (Hq H0); unfold TFS_SUCCESS in *; lia].
    rewrite Hsb, add_used_ext_0.
    + f_equal. unfold count. cbn [spec_unbind vs_ids]. rewrite map_size_delete_Some by by eexists.
      assert (size (vs_ids v) ≠ 0%nat) as ? by (apply map_size_ne_0_lookup; by exists k, id). lia.
    + apply (sb_rep_used g (-1)), (so_super _ _ _ _ _ H).
Qed.

(** ** Creating *)

Lemma free_spec V id : spec_free g E V = Some id → 1 ≤ id ≤ mc ∧ id ∉ (map_img V : gset Z).
Proof.
  intros [Hid Hni]%first_free_Some. rewrite Z2Nat.id in Hid by (pose proof (geo_mc _ Hg); lia). split; [lia|set_solver].
Qed.

Lemma new_run s v k id0 : ds_rep s v → vs_ids v !! k = None → is_u64 k.1 → is_u32 k.2 → ∃ c id s',
  new_block k.1 k.2 id0 C_MAIN_BLOCK s = Some ((c, id), s') ∧
  match spec_free g E (vs_ids v) with
  | None => c = EXIT_BLOCK_EXHAUST_ERROR ∧ s' = s
  | Some i => (c = TFS_SUCCESS ∧ moved s v s' (spec_bind k i v) ∨ c < 0 ∧ moved s v s' v) ∧ (d_os (disk s) = [] → c = TFS_SUCCESS)
  end.
Proof.
  intros HR Hk H64 H32. destruct (new_block_run g Hg s _ _ E k id0 (proj1 HR) (proj2 HR) H64 H32) as (c & id & s' & Er & Ho).
  exists c, id, s'. split; [done|]. unfold new_out in Ho. rewrite Hk in Ho.
  destruct (spec_free g E (vs_ids v)) as [i|] eqn:Ef; unfold spec_free in Ef; rewrite Ef in Ho; [|by destruct Ho as (? & _ & ?)].
  destruct Ho as (_ & Ho & Hq). destruct (free_spec _ _ Ef) as [Hi Hni]. split; [|done].
  destruct Ho as [[? Ho]|[Hc Ho]]; [left; split; [done|by apply moved_entered]|right; split; [done|]].
  eapply moved_undone; [done|exact Ho|]. intros H0. pose proof (Hq H0). unfold TFS_SUCCESS in *. lia.
Qed.

Lemma get_none s v k : ds_rep s v → vs_ids v !! k = None → get_logic_block k.1 k.2 C_MAIN_BLOCK s = Some (None, s).
Proof. intros [H _]. by eapply get_logic_none. Qed.
Lemma get_some s v k id : ds_rep s v → vs_ids v !! k = Some id → ∃ lloc loc s',
  get_logic_block k.1 k.2 C_MAIN_BLOCK s = Some (Some lloc, s') ∧ moved s v s' v ∧ block_ok g s' k id lloc loc ∧ disk s' = disk s.
Proof.
  intros HR Hk. destruct (get_logic_some g s _ _ _ k id (proj1 HR) Hk) as (lloc & loc & s' & Er & D & B & Hd).
  exists lloc, loc, s'. split_and!; [done| |done..]. destruct v. by apply moved_data.
Qed.

(** ** The steps *)

(** What a step from [s] and [v] comes to. *)
Definition step_out (o : ds_op) (s : bfm) (v : vstore) (res : option (ds_out * bfm)) : Prop := ∃ x s' v',
  res = Some (x, s') ∧ moved s v s' v' ∧ any_step g E o v x v' ∧ (d_os (disk s) = [] → spec_step g E o v = (x, v')).

Lemma step_spec o s v x s' v' : moved s v s' v' → spec_step g E o v = (x, v') → step_out o s v (Some (x, s')).
Proof. intros M Hs. exists x, s', v'. split_and!; [done|done|by left|done]. Qed.
Lemma step_fault o s v x s' v' : moved s v s' v' → fault_step g E o v x v' → d_os (disk s) ≠ [] → step_out o s v (Some (x, s')).
Proof. intros M Hs H0. exists x, s', v'. split_and!; [done|done|by right|done]. Qed.

Lemma read_step k off n s v : ds_rep s v → ds_op_ok (OpRead k off n) → step_out (OpRead k off n) s v (ds_step (OpRead k off n) s).
Proof.
  intros HR (_ & _ & Ho & Hn & Hlt). cbn [ds_step]. unfold read_raw_data.
  destruct (vs_ids v !! k) as [id|] eqn:Hk; cycle 1.
  { rewrite M_bind_assoc, (M_bind_Some _ _ _ _ _ (get_none _ _ _ HR Hk)).
    apply (step_spec _ _ _ _ _ v); [by apply moved_refl|]. cbn [spec_step]. by rewrite Hk. }
  destruct (get_some s v k id HR Hk) as (lloc & loc & s1 & E1 & M1 & B & Hd).
  rewrite M_bind_assoc, (M_bind_Some _ _ _ _ _ E1). pose proof (proj1 M1) as HR1. pose proof B as [].
  destruct bo_logic as (l & Hl & _ & _ & Hav & _).
  assert (get_lb lloc s1 = Some (l, s1)) as E2 by (unfold get_lb, getsM; by rewrite Hl).
  unfold lb_read_raw_data. rewrite M_bind_assoc, (M_bind_Some _ _ _ _ _ E2). cbv zeta. rewrite Hav.
  pose proof (geo_ms _ Hg) as Hms. destruct (Z.ltb_spec ms off) as [Hout|Hin].
  { apply (step_spec _ _ _ _ _ v); [done|]. cbn [spec_step]. rewrite Hk. by destruct (Z.ltb_spec ms off); [|lia]. }
  rewrite i32_small by lia.
  replace (if ms <? off + n then i32 (ms - off) else n) with (Z.min n (ms - off))
    by (destruct (Z.ltb_spec ms (off + n)); [rewrite i32_small by lia; lia|lia]).
  destruct (read_segment_run g Hg s1 _ _ _ k id lloc loc (Z.min n (ms - off)) off (proj1 HR1) Hk B Ho) as (c & data & s2 & E3 & D & Hc & Hq); [lia..|].
  rewrite M_bind_assoc, (M_bind_Some _ _ _ _ _ E3).
  assert (moved s v s2 v) as M2 by (eapply moved_trans; [exact M1|]; destruct v; by apply moved_data).
  rewrite Hd in Hq. destruct Hc as [[-> ->]|Hc].
  - apply (step_spec _ _ _ _ _ v); [done|]. cbn [spec_step]. rewrite Hk. by destruct (Z.ltb_spec ms off); [lia|].
  - apply (step_fault _ _ _ _ _ v); [done|by constructor|]. intros H0. specialize (Hq H0). unfold TFS_SUCCESS in *. lia.
Qed.

(** Writing into the block [id] found for [k] in [s1], where the map is [v1]. *)
Lemma lb_write_step k off buf s1 v1 id lloc loc :
  ds_rep s1 v1 → vs_ids v1 !! k = Some id → block_ok g s1 k id lloc loc → buf ≠ [] → 0 ≤ off →
  off + Z.of_nat (length buf) < 2 ^ 31 → ∃ c s2 v2,
  lb_write_raw_data lloc buf off s1 = Some (c, s2) ∧ moved s1 v1 s2 v2 ∧
  ((OutCode c, v2) = spec_write g id off buf v1 ∨
   c < 0 ∧ off + Z.of_nat (length buf) ≤ ms ∧ ∃ n, (n ≤ length buf)%nat ∧ v2 = spec_put id off (take n buf) v1) ∧
  (d_os (disk s1) = [] → (OutCode c, v2) = spec_write g id off buf v1).
Proof.
  intros HR Hk B Hne Ho Hlt. destruct (lb_write_run g Hg s1 _ _ _ k id lloc loc buf off (proj1 HR) Hk B Hne Ho Hlt) as (c & s2 & Er & Hw).
  unfold write_out_at, spec_write in *. destruct (Z.ltb_spec ms (off + Z.of_nat (length buf))) as [Hout|Hin].
  - destruct Hw as [-> D]. exists TFS_ERROR, s2, v1. split_and!; [done| |by left|done]. destruct v1. by apply moved_data.
  - destruct Hw as (n & Hn & D & Hc & Hq). exists c, s2, (spec_put id off (take n buf) v1).
    assert ((c = TFS_SUCCESS ∧ n = length buf) → (OutCode c, spec_put id off (take n buf) v1) = (OutCode TFS_SUCCESS, spec_put id off buf v1)) as Hs
      by (intros [-> ->]; by rewrite take_ge).
    split_and!; [done|by apply moved_data| |].
    + destruct Hc as [Hc|Hc]; [left; by apply Hs|right; split_and!; [done|done|by exists n]].
    + intros H0. apply Hs. specialize (Hq H0). destruct Hc as [?|?]; [done|]. unfold TFS_SUCCESS in *; lia.
Qed.

Lemma write_step k off buf s v : ds_rep s v → ds_op_ok (OpWrite k off buf) → step_out (OpWrite k off buf) s v (ds_step (OpWrite k off buf) s).
Proof.
  intros HR (H64 & H32 & Ho & Hlt). cbn [ds_step op_name] in *. unfold write_raw_data.
  destruct (decide (buf = [])) as [Hb|Hb].
  { apply (step_spec _ _ _ _ _ v); [by apply moved_refl|]. cbn [spec_step]. by rewrite decide_True. }
  destruct (vs_ids v !! k) as [id|] eqn:Hk.
  - destruct (get_some s v k id HR Hk) as (lloc & loc & s1 & E1 & M1 & B & Hd).
    rewrite M_bind_assoc, (M_bind_Some _ _ _ _ _ E1).
    destruct (lb_write_step k off buf s1 v id lloc loc (proj1 M1) Hk B Hb Ho Hlt) as (c & s2 & v2 & E2 & M2 & Hc & Hq).
    rewrite (M_bind_Some _ _ _ _ _ E2). exists (OutCode c), s2, v2. split_and!; [done|by eapply moved_trans| |].
    + destruct Hc as [Hc|(Hc & Hin & n & Hn & ->)]; [left|right; by econstructor].
      cbn [spec_step]. by rewrite decide_False, Hk.
    + intros H0. cbn [spec_step]. rewrite decide_False, Hk by done. symmetry. apply Hq. by rewrite Hd.
  - rewrite M_bind_assoc, (M_bind_Some _ _ _ _ _ (get_none _ _ _ HR Hk)). unfold new_single_block.
    rewrite !M_bind_assoc, (M_bind_Some _ _ _ _ _ (get_none _ _ _ HR Hk)).
    rewrite !M_bind_assoc, (M_bind_Some _ _ _ TFS_SUCCESS s) by done. cbn [negb Z.eqb TFS_SUCCESS].
    destruct (new_run s v k 0 HR Hk H64 H32) as (c & i0 & s1 & E1 & Hnew).
    rewrite !M_bind_assoc, (M_bind_Some _ _ _ _ _ E1). erewrite M_bind_Some by done. cbn [fst].
    destruct (spec_free g E (vs_ids v)) as [id|] eqn:Hf; cycle 1.
    { destruct Hnew as [-> ->]. apply (step_spec _ _ _ _ _ v); [by apply moved_refl|].
      cbn [spec_step]. by rewrite decide_False, Hk, Hf. }
    destruct Hnew as [[[-> M1]|[Hneg M1]] Hq]; cycle 1.
    { destruct (Z.eqb_spec c TFS_SUCCESS) as [->|_]; [done|]. cbn [negb].
      apply (step_fault _ _ _ _ _ v); [done|by constructor|]. intros H0. specialize (Hq H0). unfold TFS_SUCCESS in *. lia. }
    change (TFS_SUCCESS =? TFS_SUCCESS) with true. cbn [negb].
    assert (vs_ids (spec_bind k id v) !! k = Some id) as Hk1 by apply lookup_insert_eq.
    destruct (get_some s1 _ k id (proj1 M1) Hk1) as (lloc & loc & s2 & E2 & M2 & B & Hd).
    rewrite !M_bind_assoc, (M_bind_Some _ _ _ _ _ E2).
    rewrite !M_bind_assoc, (M_bind_Some _ _ _ lloc s2) by done.
    destruct (lb_write_step k off buf s2 _ id lloc loc (proj1 M2) Hk1 B Hb Ho Hlt) as (c & s3 & v3 & E3 & M3 & Hc & Hq3).
    rewrite (M_bind_Some _ _ _ _ _ E3). exists (OutCode c), s3, v3.
    assert (moved s v s2 (spec_bind k id v)) as M12 by by eapply moved_trans.
    split_and!; [done|by eapply moved_trans| |].
    + destruct Hc as [Hc|(Hc & Hin & n & Hn & ->)]; [left|right; by econstructor].
      cbn [spec_step]. by rewrite decide_False, Hk, Hf.
    + intros H0. cbn [spec_step]. rewrite decide_False, Hk, Hf by done. symmetry. apply Hq3. by eapply moved_quiet.
Qed.

Lemma new_step k s v : ds_rep s v → ds_op_ok (OpNew k) → step_out (OpNew k) s v (ds_step (OpNew k) s).
Proof.
  intros HR (H64 & H32 & _). cbn [ds_step op_name] in *. unfold new_single_block.
  assert (∃ c s1, ((f ← get_logic_block k.1 k.2 C_MAIN_BLOCK; if f is Some _ then del_block k.1 k.2 C_MAIN_BLOCK else mret TFS_SUCCESS) s = Some (c, s1))
    ∧ moved s v s1 (spec_unbind k v) ∧ (c = TFS_SUCCESS ∨ c < 0) ∧ (d_os (disk s) = [] → c = TFS_SUCCESS)) as (c & s1 & E1 & M1 & Hc & Hq).
  { destruct (vs_ids v !! k) as [id|] eqn:Hk.
    - destruct (get_some s v k id HR Hk) as (lloc & loc & s1 & E1 & M1 & _ & Hd). rewrite (M_bind_Some _ _ _ _ _ E1).
      destruct (del_run s1 v k (proj1 M1)) as (c & s2 & E2 & Ho). rewrite Hk in Ho. destruct Ho as (M2 & Hc & Hq).
      exists c, s2. split_and!; [done|by eapply moved_trans|done|]. by rewrite <- Hd.
    - rewrite (M_bind_Some _ _ _ _ _ (get_none _ _ _ HR Hk)). exists TFS_SUCCESS, s. split_and!; [done| |by left|done].
      unfold spec_unbind. rewrite delete_id by done. destruct v. by apply moved_refl. }
  rewrite (M_bind_split _ _ _ _ _ _ _ E1). clear E1.
  destruct Hc as [->|Hc]; cycle 1.
  { destruct (Z.eqb_spec c TFS_SUCCESS) as [->|_]; [done|]. cbn [negb]. M_unfold.
    apply (step_fault _ _ _ _ _ (spec_unbind k v)); [done|by constructor|]. intros H0. specialize (Hq H0). unfold TFS_SUCCESS in *. lia. }
  change (TFS_SUCCESS =? TFS_SUCCESS) with true. cbn [negb].
  assert (vs_ids (spec_unbind k v) !! k = None) as Hk1 by apply lookup_delete_eq.
  destruct (new_run s1 _ k 0 (proj1 M1) Hk1 H64 H32) as (c & i0 & s2 & E2 & Hnew).
  rewrite !M_bind_assoc, (M_bind_Some _ _ _ _ _ E2). erewrite M_bind_Some by done. cbn [fst].
  destruct (spec_free g E (vs_ids (spec_unbind k v))) as [id|] eqn:Hf; cycle 1.
  { destruct Hnew as [-> ->]. apply (step_spec _ _ _ _ _ (spec_unbind k v)); [done|]. cbn [spec_step]. by rewrite Hf. }
  destruct Hnew as [[[-> M2]|[Hneg M2]] Hq2].
  - eapply step_spec; [by eapply moved_trans|]. cbn [spec_step]. by rewrite Hf.
  - apply (step_fault _ _ _ _ _ (spec_unbind k v)); [by eapply moved_trans|by constructor|]. intros H0.
    specialize (Hq2 (moved_quiet _ _ _ _ M1 H0)). unfold TFS_SUCCESS in *. lia.
Qed.

Lemma del_step k s v : ds_rep s v → step_out (OpDel k) s v (ds_step (OpDel k) s).
Proof.
  intros HR. cbn [ds_step]. unfold del_single_block. destruct (del_run s v k HR) as (c & s1 & E1 & Ho).
  rewrite (M_bind_Some _ _ _ _ _ E1). destruct (vs_ids v !! k) as [id|] eqn:Hk; cycle 1.
  { destruct Ho as [-> ->]. apply (step_spec _ _ _ _ _ v); [by apply moved_refl|]. cbn [spec_step]. by rewrite Hk. }
  destruct Ho as (M & [->|Hc] & Hq).
  - eapply step_spec; [done|]. cbn [spec_step]. by rewrite Hk.
  - apply (step_fault _ _ _ _ _ (spec_unbind k v)); [done|constructor; [by eexists|done]|].
    intros H0. specialize (Hq H0). unfold TFS_SUCCESS in *. lia.
Qed.

Lemma ds_step_run o s v : ds_rep s v → ds_op_ok o → step_out o s v (ds_step o s).
Proof. destruct o; intros HR Ho; [by apply read_step|by apply write_step|by apply new_step|by apply del_step]. Qed.

Lemma ds_run_run os s v : ds_rep s v → Forall ds_op_ok os → ∃ xs s' v',
  ds_run os s = Some (xs, s') ∧ moved s v s' v' ∧ any_run g E os v xs v' ∧ (d_os (disk s) = [] → spec_run g E os v = (xs, v')).
Proof.
  revert s v. induction os as [|o os IH]; intros s v HR Ho; cbn [ds_run].
  { exists [], s, v. split_and!; [done|by apply moved_refl|constructor|done]. }
  apply Forall_cons in Ho as [Ho Hos]. destruct (ds_step_run o s v HR Ho) as (x & s1 & v1 & E1 & M1 & A1 & Q1).
  rewrite (M_bind_Some _ _ _ _ _ E1). destruct (IH s1 v1 (proj1 M1) Hos) as (xs & s2 & v2 & E2 & M2 & A2 & Q2).
  rewrite (M_bind_Some _ _ _ _ _ E2). exists (x :: xs), s2, v2. split_and!; [done|by eapply moved_trans|by econstructor|].
  intros H0. cbn [spec_run]. rewrite (Q1 H0). cbn [fst snd]. by rewrite (Q2 (moved_quiet _ _ _ _ M1 H0)).
Qed.
End refine.
