(* ===== verification/StoreBoot.v ===== *)
(** Starting a data server on its files: [bootstrap] of BlockLoad.v rebuilds the store
    whose files it finds. *)
From Stdlib Require Import (notations) String.
From stdpp Require Import fin_map_dom functions.
From S2P Require Import Prelude Bytes Text ProxyMsg Bitmap DsFile DsBlock BlockStore BlockLoad DataMgr StoreInv StoreBlocks StoreNew StoreData StoreRefine.

Section boot.
Context (g : geometry) (Hg : geo_ok g) (E : gset Z).
Local Abbreviation mnt := (g_mnt g).
Local Abbreviation mc := (g_mc g).
Local Abbreviation ms := (g_ms g).
Local Abbreviation bitmap_off := (g_rsv g + 436).
Local Abbreviation path := (main_path mnt).
Local Abbreviation super := (super_path mnt).
Local Abbreviation store_at := (store_at g).
Local Abbreviation store_ok := (store_ok g).

(** The files of a store. *)
Record super_file (d : dsk) (sb : superblock) (dn de : bytes) (Sn Se : gset Z) : Prop := SuperFile {
  sf_sb : sb_rep g sb;
  sf_file : ∃ f, d_files d !! super = Some f ∧
    take 432 (drop (Z.to_nat (g_rsv g)) f) = enc_superblock sb ++ enc_superblock sb ∧
    take (length (bitmap_data dn de)) (drop (Z.to_nat bitmap_off) f) = bitmap_data dn de;
  sf_bytes : is_bytes dn ∧ is_bytes de;
  sf_len : length dn = Z.to_nat (slots (mc + 1)) ∧ length de = Z.to_nat (slots (mc + 1));
  sf_sets : Sn = bits (mc + 1) dn ∧ Se = bits (mc + 1) de }.
Record on_disk (d : dsk) (sb : superblock) (dn de : bytes) (v : vstore) : Prop := OnDisk {
  od_super : super_file d sb dn de (map_img (vs_ids v)) E;
  od_files : ∀ id, 1 ≤ id ≤ mc → ∃ h, d_files d !! path id = Some (h ++ vs_data v id) ∧
               length h = 512%nat ∧ length (vs_data v id) = Z.to_nat ms;
  od_heads : ∀ k id, vs_ids v !! k = Some id →
    ∃ f, d_files d !! path id = Some f ∧ take 20 f = enc_prefix (Prefix k.1 k.2 0 0);
  od_inj : ∀ k1 k2 id, vs_ids v !! k1 = Some id → vs_ids v !! k2 = Some id → k1 = k2;
  od_range : ∀ k id, vs_ids v !! k = Some id → 1 ≤ id ≤ mc ∧ is_u64 k.1 ∧ is_u32 k.2;
  od_names : vs_ids v !! (0, 0) = None }.

(** A store that was saved has such files; the name (0, 0) marks a free block. *)
Lemma durable_on_disk s v : ds_rep g E s v → durable g s (vs_ids v) → vs_ids v !! (0, 0) = None →
  ∃ dn de, on_disk (disk s) (super_block_ s) dn de v.
Proof.
  intros [H (be0 & de0 & Hbe0 & HE)] [(f & bn & dn & be & de & Hf & Hbn & Hdn & Hbe & Hde & Ht1 & Ht2) Hh] H0.
  destruct (so_normal _ _ _ _ _ H) as (bn0 & dn0 & Hbn0 & HN). simplify_eq.
  assert (dn0 = dn) as -> by (pose proof (bmr_data _ _ _ _ HN); congruence).
  assert (de0 = de) as -> by (pose proof (bmr_data _ _ _ _ HE); congruence).
  exists dn, de. destruct HN, HE. split; try apply H; try done. split; try done; [apply H|by exists f].
Qed.

(** A process that starts. *)
Record idle (d : dsk) (s : bfm) : Prop := Idle {
  id_logic : logic_blocks_ s = ∅; id_compact : compact_logic_blocks_ s = ∅; id_phys : physcial_blocks_ s = ∅;
  id_pheap : pheap s = ∅; id_lheap : lheap s = ∅; id_brk : 0 < brk s; id_disk : disk s = d }.

Definition same_files (d d' : dsk) : Prop := d_files d' = d_files d ∧ later d d'.
#[local] Instance same_files_trans : Transitive same_files.
Proof. intros d1 d2 d3 [H1 L1] [H2 L2]. split; [congruence|by etrans]. Qed.

(** ** The super block file *)

Lemma si_read_run i d f n off :
  im_rep g i → d_files d !! super = Some f → 0 ≤ off → 0 ≤ n →
  ∃ code data i' d', si_file (pread_file n off) (i, d) = Some ((code, data), (i', d')) ∧ im_rep g i' ∧ same_files d d' ∧
    (code = TFS_SUCCESS ∧ length data = Z.to_nat n ∧ data = take (Z.to_nat n) (drop (Z.to_nat off) f) ∨ code < 0) ∧
    (d_os d = [] → (Z.to_nat off + Z.to_nat n ≤ length f)%nat → code = TFS_SUCCESS).
Proof.
  intros (Hr & Hb & Hn & Hfl) Hf Ho H0. rewrite <- Hn in Hf.
  destruct (pread_loop_run 4 (si_file_op i) d f n off [] Hf Ho) as [(code & data & p' & d' & Er & [Hs1 Hs2] & Hl & Hfs & Hd & Hle & Hc & Hq) _].
  exists code, data, (si_set_file p' i), d'. split_and!.
  - unfold si_file. by erewrite zoom_run by exact Er.
  - unfold im_rep. simpl. split_and!; congruence.
  - by split.
  - destruct Hc as [[-> Hc]|[? _]]; [left|by right]. assert (length data = Z.to_nat n) as Hl' by lia.
    split_and!; [done|done|]. by rewrite <- Hl'.
  - intros H1 H2. by apply Hq.
Qed.

Lemma take_length_le {A} n (l x : list A) : take n l = x → length x = n → (n ≤ length l)%nat.
Proof. intros <- H. rewrite length_take in H. lia. Qed.

(** What [load_super_blk] leaves when it succeeds. *)
Record loaded (d0 : dsk) (sb : superblock) (dn de : bytes) (Sn : gset Z) (s0 s : bfm) : Prop := Loaded {
  ld_logic : logic_blocks_ s = logic_blocks_ s0; ld_compact : compact_logic_blocks_ s = compact_logic_blocks_ s0;
  ld_phys : physcial_blocks_ s = physcial_blocks_ s0; ld_pheap : pheap s = pheap s0; ld_lheap : lheap s = lheap s0;
  ld_brk : brk s = brk s0; ld_disk : same_files d0 (disk s); ld_super : super_block_ s = sb;
  ld_impl : ∃ i, super_block_impl_ s = Some i ∧ im_rep g i;
  ld_normal : ∃ b, normal_bit_map_ s = Some b ∧ bm_rep b (mc + 1) dn Sn;
  ld_error : ∃ b, error_bit_map_ s = Some b ∧ bm_rep b (mc + 1) de E }.

Lemma slots_bound : 0 < slots (mc + 1) < 2 ^ 29.
Proof. pose proof (geo_mc _ Hg). rewrite slots_eq by lia. split; [apply Z.div_str_pos; lia|]. apply Z.div_lt_upper_bound; lia. Qed.
Lemma bm_new_run : ∃ b d, bm_new (mc + 1) false = Some b ∧ bm_rep b (mc + 1) d ∅.
Proof. pose proof (geo_mc _ Hg). apply (bm_alloc_run (bm_null false) (mc + 1) false); [done|lia]. Qed.

Lemma bitmap_data_length dn de n : length dn = n → length de = n → length (bitmap_data dn de) = (4 * n)%nat.
Proof. intros Hn He. unfold bitmap_data. rewrite !length_app. lia. Qed.
Lemma bitmap_data_parts dn de n : length dn = n → length de = n →
  take n (bitmap_data dn de) = dn ∧ take n (drop n (bitmap_data dn de)) = dn ∧
  take n (drop (2 * n) (bitmap_data dn de)) = de ∧ take n (drop (3 * n) (bitmap_data dn de)) = de.
Proof.
  intros Hn He. unfold bitmap_data. split_and!.
  - by rewrite take_app_length'.
  - by rewrite drop_app_length', take_app_length'.
  - rewrite app_assoc, drop_app_length' by (rewrite length_app; lia). by rewrite take_app_length'.
  - rewrite !app_assoc, <- (app_assoc _ _ de). rewrite (app_assoc _ de de).
    rewrite drop_app_length' by (rewrite !length_app; lia). by rewrite take_ge by lia.
Qed.

Lemma load_super_run fs s d sb dn de Sn :
  fsp_mount_name fs = mnt → fsp_super_block_reserve_offset fs = g_rsv g → super_file d sb dn de Sn E → disk s = d →
  ∃ code s', load_super_blk fs s = Some (code, s') ∧
  (code = TFS_SUCCESS ∧ loaded d sb dn de Sn s s' ∨ code < 0) ∧ (d_os d = [] → code = TFS_SUCCESS).
Proof.
  intros Hmn Hrs [Hsb (f & Hf & Ht1 & Ht2) [Hy1 Hy2] [Hl1 Hl2] [-> HEb]] Hd. pose proof (geo_rsv _ Hg) as Hrsv. pose proof (geo_mc _ Hg) as Hmc.
  destruct Hsb as (Hok & Hmc' & Hms' & Hec & Htag & Hmp). pose proof slots_bound as Hsl.
  set (i := si_new (fsp_mount_name fs) (fsp_super_block_reserve_offset fs) true).
  assert (im_rep g i) as Hi.
  { unfold i, si_new. rewrite Hrs, Hmn. split_and!; simpl; try done. rewrite i32_small; unfold sizeof_superblock; lia. }
  assert (length f ≥ Z.to_nat (g_rsv g) + 432)%nat as Hlen1.
  { apply take_length_le in Ht1; [rewrite length_drop in Ht1; lia|]. by rewrite length_app, enc_superblock_length. }
  unfold load_super_blk. rewrite (M_bind_Some _ _ _ tt (set_impl (Some i) (disk s) s)) by done.
  set (s1 := set_impl (Some i) (disk s) s).
  destruct (si_read_run i (disk s1) f 216 (g_rsv g) Hi) as (c1 & data1 & i1 & d1 & E1 & Hi1 & Hf1 & Hc1 & Hq1); [by subst d|lia..|].
  assert (read_super_blk (i, disk s1) = Some ((c1, dec_superblock (filled sizeof_superblock data1)), (i1, d1))) as E1'.
  { unfold read_super_blk. M_unfold. cbn [fst]. replace (si_super_reserve_offset i) with (g_rsv g) by (symmetry; apply Hi).
    change sizeof_superblock with 216. rewrite E1. done. }
  rewrite (M_bind_Some _ _ _ _ _ (in_impl_run _ s1 i _ _ _ eq_refl E1')). cbn [fst snd].
  assert (d_os d = [] → c1 = TFS_SUCCESS) as Hq1' by (intros H0; apply Hq1; [simpl; by rewrite Hd|lia]).
  rewrite (M_bind_Some _ _ _ tt (set_super (dec_superblock (filled sizeof_superblock data1)) (set_impl (Some i1) d1 s1))) by done.
  destruct (Z.eqb_spec c1 TFS_SUCCESS) as [->|Hn1]; cbn [negb]; cycle 1.
  { eexists _, _. split; [done|]. split; [right; destruct Hc1 as [(? & _)|?]; done|done]. }
  destruct Hc1 as [(_ & Hld1 & Hdata1)|?]; [|done].
  assert (data1 = enc_superblock sb) as ->.
  { rewrite Hdata1. transitivity (take 216 (take 432 (drop (Z.to_nat (g_rsv g)) f))); [by rewrite take_take|].
    rewrite Ht1. by rewrite take_app_length' by (by rewrite enc_superblock_length). }
  unfold filled, sizeof_superblock. rewrite enc_superblock_length by done. change (Z.to_nat 216 - 216)%nat with 0%nat.
  rewrite app_nil_r, dec_enc_superblock by done. rewrite Htag. cbn [negb].
  rewrite Hmn, <- Hmp. rewrite bool_decide_true by done. cbn [negb whenM].
  set (s2 := set_super sb (set_impl (Some i1) d1 s1)).
  rewrite (M_bind_Some _ _ _ tt s2) by done. cbv zeta. rewrite Hmc', Hec, Z.add_0_r, u32_small by (unfold is_u32; lia).
  destruct bm_new_run as (b0 & db0 & Eb & Hb0).
  do 2 rewrite (M_bind_Some _ _ _ b0 s2) by (unfold lift; by rewrite Eb).
  rewrite (bmr_slot _ _ _ _ Hb0), i32_small by lia.
  set (s3 := set_maps (slots (mc + 1)) (Some b0) (Some b0) s2).
  rewrite (M_bind_Some _ _ _ tt s3) by done.
  destruct (si_read_run i1 (disk s3) f (4 * slots (mc + 1)) (g_rsv g + 436) Hi1) as (c2 & data2 & i2 & d2 & E2 & Hi2 & Hf2 & Hc2 & Hq2).
  { simpl. destruct Hf1 as [-> _]. by simpl; subst d. } { lia. } { lia. }
  assert (read_bit_map (4 * slots (mc + 1)) (i1, disk s3) = Some ((c2, data2), (i2, d2))) as E2'.
  { unfold read_bit_map. M_unfold. cbn [fst]. by replace (si_bitmap_start_offset i1) with (g_rsv g + 436) by (symmetry; apply Hi1). }
  rewrite (M_bind_Some _ _ _ _ _ (in_impl_run _ s3 i1 _ _ _ eq_refl E2')). cbn [fst snd].
  assert (length (bitmap_data dn de) = Z.to_nat (4 * slots (mc + 1))) as Hbl
    by (rewrite (bitmap_data_length _ _ _ Hl1 Hl2); lia).
  assert (d_os d = [] → c2 = TFS_SUCCESS) as Hq2'.
  { intros H0. apply Hq2; [simpl; destruct Hf1 as [_ Hl]; eapply later_nil; [exact Hl|]; simpl; congruence|].
    apply take_length_le in Ht2; [rewrite length_drop in Ht2; lia|done]. }
  destruct (Z.eqb_spec c2 TFS_SUCCESS) as [->|Hn2]; cbn [negb]; cycle 1.
  { eexists _, _. split; [done|]. split; [right; destruct Hc2 as [(? & _)|?]; done|done]. }
  destruct Hc2 as [(_ & Hld2 & Hdata2)|?]; [|done]. rewrite <- Hbl, Ht2 in Hdata2. subst data2.
  destruct (bitmap_data_parts dn de _ Hl1 Hl2) as (-> & -> & -> & ->).
  rewrite !bool_decide_true by done. cbn [negb].
  destruct (bm_copy_run b0 _ _ _ dn Hb0 Hy1 Hl1) as (bn & En & Hbn).
  destruct (bm_copy_run b0 _ _ _ de Hb0 Hy2 Hl2) as (be & Ee & Hbe).
  set (s4 := set_impl (Some i2) d2 s3). rewrite u32_small by (unfold is_u32; lia).
  rewrite (M_bind_Some _ _ _ tt (set_maps (bit_map_size_ s4) (Some bn) (error_bit_map_ s4) s4))
    by (unfold upd_normal, normal, getsM, lift; M_unfold; simpl; by rewrite En).
  set (s5 := set_maps (bit_map_size_ s4) (Some bn) (error_bit_map_ s4) s4).
  rewrite (M_bind_Some _ _ _ tt (set_maps (bit_map_size_ s5) (Some bn) (Some be) s5))
    by (unfold upd_error, error, getsM, lift; M_unfold; simpl; by rewrite Ee).
  eexists _, _. split; [done|]. split; [|done]. left. split; [done|]. split; try done; simpl.
  - rewrite <- Hd. etrans; [exact Hf1|exact Hf2].
  - by exists i2.
  - by exists bn.
  - exists be. by rewrite HEb.
Qed.

(** ** The blocks *)

(** The names of the blocks below [pos]. *)
Definition below (pos : Z) (V : gmap name Z) : gmap name Z := base.filter (λ p : name * Z, p.2 < pos) V.
Lemma below_lookup pos V k id : below pos V !! k = Some id ↔ V !! k = Some id ∧ id < pos.
Proof. unfold below. rewrite map_lookup_filter_Some. done. Qed.
Lemma below_all pos V : (∀ k id, V !! k = Some id → id < pos) → below pos V = V.
Proof.
  intros H. apply map_eq. intros k. apply option_eq. intros id. rewrite below_lookup. split; [by intros []|].
  intros Hk. split; [done|by apply (H k)].
Qed.
Lemma below_none pos V : (∀ k id, V !! k = Some id → pos ≤ id) → below pos V = ∅.
Proof.
  intros H. apply map_empty. intros k. destruct (below pos V !! k) as [id|] eqn:Hk; [|done].
  apply below_lookup in Hk as [Hk ?]. apply H in Hk. lia.
Qed.
Lemma below_skip pos V : pos ∉ (map_img V : gset Z) → below (pos + 1) V = below pos V.
Proof.
  intros H. apply map_eq. intros k. apply option_eq. intros id. rewrite !below_lookup.
  split; intros [Hk ?]; (split; [done|]); [|lia]. assert (id ≠ pos); [|lia]. intros ->. by apply H, elem_of_map_img; exists k.
Qed.
Lemma below_step pos V k : V !! k = Some pos → (∀ k', V !! k' = Some pos → k' = k) → below (pos + 1) V = <[k := pos]> (below pos V).
Proof.
  intros Hk Hu. apply map_eq. intros k'. apply option_eq. intros id. destruct (decide (k' = k)) as [->|Hne].
  - rewrite lookup_insert_eq, below_lookup. rewrite Hk. naive_solver lia.
  - rewrite lookup_insert_ne, !below_lookup by done. split; intros [Hk' ?]; (split; [done|]); [|lia].
    assert (id ≠ pos); [|lia]. intros ->. by apply Hne, Hu.
Qed.

Section load.
Context (d : dsk) (sb : superblock) (dn de : bytes) (v : vstore) (HD : on_disk d sb dn de v).

(** The blocks below [pos] are in the maps. *)
Record booted (pos : Z) (s : bfm) : Prop := Booted {
  bo_store : store_at s (below pos (vs_ids v)) (vs_data v) (map_img (vs_ids v));
  bo_disk : same_files d (disk s);
  bo_super : super_block_ s = sb;
  bo_normal : ∃ b, normal_bit_map_ s = Some b ∧ bm_rep b (mc + 1) dn (map_img (vs_ids v));
  bo_error : ∃ b, error_bit_map_ s = Some b ∧ bm_rep b (mc + 1) de E }.

Lemma below_notin pos k : vs_ids v !! k = Some pos →
  below pos (vs_ids v) !! k = None ∧ pos ∉ (map_img (below pos (vs_ids v)) : gset Z).
Proof.
  intros Hk. split.
  - destruct (below _ _ !! k) as [id|] eqn:Hb; [|done]. apply below_lookup in Hb as [Hb ?]. simplify_eq. lia.
  - rewrite elem_of_map_img. intros [k' Hb]. apply below_lookup in Hb as [Hb ?]. lia.
Qed.

(** Reading the prefix of block [pos]. *)
Lemma read_fresh_run pos s k : booted pos s → vs_ids v !! k = Some pos → ∃ s1 code s',
  new_PhysicalBlock pos mnt (i32 (BLOCK_RESERVER_LENGTH + ms)) C_MAIN_BLOCK s = Some (brk s, s1) ∧
  in_pb (brk s) load_block_prefix s1 = Some (code, s') ∧ is_Some (pheap s' !! brk s) ∧
  (code = TFS_SUCCESS ∧ fresh g k pos s s' TFS_SUCCESS ∧ same_files (disk s) (disk s') ∨ code < 0) ∧
  (d_os (disk s) = [] → code = TFS_SUCCESS).
Proof.
  intros [H [Hfs _] Hsb Hn He] Hk. destruct (od_range _ _ _ _ _ HD _ _ Hk) as (Hid & H64 & H32).
  destruct (pb_new_run mnt ms pos (geo_ms _ Hg)) as (b0 & Eb & Hb0).
  destruct (so_files _ _ _ _ _ H pos Hid) as (h & Hf & Hh & Hc).
  set (s1 := set_heaps (<[brk s := b0]> (pheap s)) (lheap s) (brk s + 1) (disk s) s).
  destruct (load_prefix_run mnt ms pos _ b0 (disk s) _ Hb0 Hf) as (code & q & b' & d' & Er & Hb' & Hl & Hfs' & Hcode & Hq).
  { rewrite length_app. lia. }
  set (s' := set_heaps (<[brk s := b']> (pheap s1)) (lheap s1) (brk s1) d' s1).
  exists s1, code, s'. split_and!; [| | | |done].
  - unfold new_PhysicalBlock, lift. M_unfold. by rewrite Eb.
  - apply in_pb_run with b0; [|done]. unfold s1. simpl. by rewrite lookup_insert_eq.
  - unfold s'. cbn [set_heaps pheap]. rewrite lookup_insert_eq. by eexists.
  - destruct Hcode as [[-> ->]|?]; [left|by right]. split; [done|].
    destruct (od_heads _ _ _ _ _ HD _ _ Hk) as (f & Hf2 & Hhead). rewrite <- Hfs, Hf in Hf2. injection Hf2 as <-.
    rewrite Hhead, dec_enc_prefix in Hb' by done.
    destruct (so_brk _ _ _ _ _ H) as (Hb & Hph & Hlh).
    assert (∀ a, a ≠ brk s → pheap s' !! a = pheap s !! a) as Hother
      by (intros a Ha; unfold s', s1; simpl; by rewrite !lookup_insert_ne by done).
    split; [|by split]. unfold fresh. split_and!; try done.
    + split; simpl; try done; try by rewrite Hfs'.
      * apply H.
      * intros a Ha. apply Hother. lia.
      * split_and!; [lia| |intros a b1 Ha; specialize (Hlh _ _ Ha); lia]. intros a b1 Ha.
        destruct (decide (a = brk s)) as [->|Hne]; [lia|].
        assert (pheap s !! a = Some b1) as Ha' by (rewrite <- Hother by done; done). specialize (Hph _ _ Ha'). lia.
      * intros h2 c2 Hf2 Hh2. exists h2. by rewrite Hfs'.
      * rewrite Hfs'. apply H.
    + exists b'. split; [|done]. unfold s'. simpl. by rewrite lookup_insert_eq.
    + left. split; [done|]. exists (h ++ vs_data v pos). unfold s'. cbn [set_heaps disk]. by rewrite Hfs'.
Qed.

Lemma insert_main_run k loc lloc t s : lheap s !! lloc = Some (logic_of g k loc t) →
  insert_logic_block_map C_MAIN_BLOCK lloc s = Some (TFS_SUCCESS, set_logic (map_insert k.1 k.2 lloc (logic_blocks_ s)) s).
Proof. intros Hl. unfold insert_logic_block_map, get_lb, getsM, upd_selected. M_unfold. by rewrite Hl. Qed.

Lemma load_ext_end n lloc pos e conflict s : load_ext n lloc pos e 0 conflict s = Some ((TFS_SUCCESS, conflict), s).
Proof. by destruct n. Qed.

Lemma load_pos_run pos s : booted pos s → 1 ≤ pos ≤ mc → ∃ r s', load_pos pos false s = Some (r, s') ∧
  (r = inr false ∧ booted (pos + 1) s' ∨ ∃ c, r = inl c ∧ c < 0) ∧ (d_os (disk s) = [] → r = inr false).
Proof.
  intros B Hpos. pose proof B as [H Hdisk Hsb (bn & Hbn & HN) He]. unfold load_pos.
  rewrite (M_bind_Some _ _ _ bn s) by (unfold normal, getsM; by rewrite Hbn).
  rewrite (M_bind_Some _ _ _ (bool_decide (pos ∈ (map_img (vs_ids v) : gset Z))) s)
    by (unfold lift; by rewrite (bm_test_run _ _ _ _ _ HN) by lia).
  case_bool_decide as Hin; cbn [negb]; cycle 1.
  { eexists _, _. split; [done|]. split; [|done]. left. split; [done|]. split; try done; [|by exists bn]. by rewrite below_skip. }
  apply elem_of_map_img in Hin as [k Hk]. destruct (below_notin pos k Hk) as [Hk0 Hni].
  destruct (od_range _ _ _ _ _ HD _ _ Hk) as (_ & H64 & H32).
  destruct (so_super _ _ _ _ _ H) as (_ & _ & Hms & _ & _ & Hmp).
  rewrite (M_bind_Some _ _ _ (super_block_ s) s) by done. rewrite Hmp, Hms.
  destruct (read_fresh_run pos s k B Hk) as (s1 & code & s3 & E1 & E3 & [b Hb] & Hc & Hq).
  rewrite (M_bind_Some _ _ _ _ _ E1), (M_bind_Some _ _ _ _ _ E3).
  destruct (Z.eqb_spec code TFS_SUCCESS) as [->|Hne]; cbn [negb]; cycle 1.
  { assert (delete_pb (brk s) s3 = Some (tt, set_pheap (delete (brk s) (pheap s3)) s3)) as Ed
      by (unfold delete_pb, get_pb, getsM; M_unfold; by rewrite Hb).
    rewrite (M_bind_Some _ _ _ _ _ Ed). eexists _, _. split; [done|].
    split; [right; exists code; split; [done|]; by destruct Hc as [[? _]|?]|]. intros H0. by apply Hq in H0. }
  destruct Hc as [(_ & HF & Hsame)|?]; [|done].
  destruct (add_logic_run g Hg s _ _ _ k pos s3 H HF) as (s4 & s5 & E4 & E5 & Hd5 & HP).
  pose proof HF as (_ & _ & _ & _ & _ & _ & _ & (b3 & Hb3 & Hrep3) & _). simplify_eq.
  rewrite (M_bind_Some _ _ _ b s3) by (unfold get_pb, getsM; by rewrite Hb). cbv zeta.
  rewrite (pbr_prefix _ _ _ _ _ Hrep3). cbn [px_fileid px_chunkid px_next].
  destruct ((k.1 =? 0) && (k.2 =? 0)) eqn:Hz.
  { apply andb_prop in Hz as [Hz1%Z.eqb_eq Hz2%Z.eqb_eq]. assert (k = (0, 0)) as -> by (destruct k; simpl in *; congruence).
    by rewrite (od_names _ _ _ _ _ HD) in Hk. }
  rewrite (M_bind_Some _ _ _ _ _ E4), (M_bind_Some _ _ _ _ _ E5).
  pose proof HP as (O & Hb5 & Hp5 & Hl5 & Hn5 & Hsb5 & (b5 & Hpb5 & Hrep5) & (t & Hlb5) & _).
  assert (store_at s5 (below pos (vs_ids v)) (vs_data v) (map_img (vs_ids v))) as H5.
  { eapply store_at_obj; [done|exact Hpos|exact H|exact O| |rewrite Hsb5; apply H]. exists bn, dn. by rewrite Hn5. }
  rewrite (M_bind_Some _ _ _ (physcial_blocks_ s5) s5) by done.
  assert (physcial_blocks_ s5 !! pos = None) as -> by (apply not_elem_of_dom; by rewrite (so_dom _ _ _ _ _ H5)).
  rewrite (M_bind_Some _ _ _ None s5) by (unfold find_logic_block; M_unfold; by rewrite (so_free _ _ _ _ _ H5 _ Hk0)).
  rewrite (M_bind_Some _ _ _ None s5) by (unfold find_logic_block; M_unfold; by rewrite (so_compact _ _ _ _ _ H5)).
  rewrite (M_bind_Some _ _ _ _ _ (insert_main_run k (brk s) _ t s5 Hlb5)).
  change (TFS_SUCCESS =? TFS_SUCCESS) with true. cbn [negb].
  set (s6 := linked k pos (brk s) (brk s + 1) s5).
  rewrite (M_bind_Some _ _ _ tt s6) by done.
  rewrite (M_bind_Some _ _ _ bn s6) by (unfold normal, getsM; simpl; by rewrite Hn5, Hbn).
  rewrite (M_bind_Some _ _ _ _ _ (load_ext_end _ _ _ _ _ _)). cbn [fst snd].
  change (TFS_SUCCESS =? TFS_SUCCESS) with true. cbn [negb].
  eexists _, _. split; [done|]. split; [|done]. left. split; [done|]. split.
  - rewrite (below_step pos _ k Hk) by (intros k' Hk'; by apply (od_inj _ _ _ _ _ HD _ _ pos)).
    by eapply store_at_enter.
  - unfold s6. cbn [linked set_logic set_physcial disk]. rewrite Hd5. by etrans.
  - unfold s6. cbn [linked set_logic set_physcial super_block_]. by rewrite Hsb5.
  - exists bn. unfold s6. cbn [linked set_logic set_physcial normal_bit_map_]. by rewrite Hn5.
  - unfold s6. cbn [linked set_logic set_physcial error_bit_map_]. by rewrite (os_error _ _ _ _ O).
Qed.

Lemma load_loop_run n pos s : booted pos s → 1 ≤ pos → pos + Z.of_nat n = mc + 1 → ∃ c s',
  load_loop n pos false s = Some (c, s') ∧ (c = TFS_SUCCESS ∧ booted (mc + 1) s' ∨ c < 0) ∧
  (d_os d = [] → c = TFS_SUCCESS).
Proof.
  revert pos s. induction n as [|n IH]; intros pos s B Hp Hn; cbn [load_loop].
  { exists TFS_SUCCESS, s. split_and!; [done| |done]. left. split; [done|]. by replace (mc + 1) with pos by lia. }
  destruct (load_pos_run pos s B) as (r & s1 & E1 & Hr & Hq); [lia|]. rewrite (M_bind_Some _ _ _ _ _ E1).
  destruct Hr as [[-> B1]|(c & -> & Hc)].
  - destruct (IH (pos + 1) s1 B1) as (c & s2 & E2 & Hc & Hq2); [lia..|]. by exists c, s2.
  - exists c, s1. split_and!; [done|by right|]. intros H0. destruct (bo_disk _ _ B) as [_ L]. by specialize (Hq (later_nil _ _ L H0)).
Qed.

Lemma boot_run fs s :
  fsp_mount_name fs = mnt → fsp_super_block_reserve_offset fs = g_rsv g → idle d s → ∃ c s',
  bootstrap fs s = Some (c, s') ∧
  (c = TFS_SUCCESS ∧ ds_rep g E s' v ∧ durable g s' (vs_ids v) ∧ same_files d (disk s') ∧ super_block_ s' = sb ∨ c < 0) ∧
  (d_os d = [] → c = TFS_SUCCESS).
Proof.
  intros Hmn Hrs Hid. unfold bootstrap.
  destruct (load_super_run fs s d sb dn de _ Hmn Hrs (od_super _ _ _ _ _ HD) (id_disk _ _ Hid)) as (c & s1 & E1 & Hc & Hq).
  rewrite (M_bind_Some _ _ _ _ _ E1). destruct (Z.eqb_spec c TFS_SUCCESS) as [->|Hne]; cbn [negb]; cycle 1.
  { exists c, s1. split_and!; [done|right; by destruct Hc as [[? _]|?]|done]. }
  destruct Hc as [(_ & [])|?]; [|done]. pose proof (geo_mc _ Hg) as Hmc. destruct (od_super _ _ _ _ _ HD) as [Hsb Hf _ _ _].
  pose proof Hsb as (_ & Hmc' & _).
  assert (booted 1 s1) as B.
  { split; try done. rewrite below_none by (intros k id Hk; apply (od_range _ _ _ _ _ HD) in Hk; lia).
    destruct ld_disk0 as [Hfs Hl]. destruct Hid. split; try done.
    - destruct ld_normal0 as (b & ? & ?). by exists b, dn.
    - destruct ld_error0 as (b & ? & ?). by exists b, de, E.
    - by rewrite ld_super0.
    - rewrite Hfs. destruct Hf as (f & -> & _). by eexists.
    - intros id Hi. rewrite Hfs. by apply (od_files _ _ _ _ _ HD).
    - congruence.
    - intros k _. by rewrite ld_logic0, id_logic0.
    - rewrite ld_phys0, id_phys0. by rewrite dom_empty_L, map_img_empty_L.
    - rewrite ld_brk0, ld_pheap0, ld_lheap0, id_pheap0, id_lheap0. done. }
  unfold load_block_file. rewrite (M_bind_Some _ _ _ (super_block_ s1) s1) by done.
  rewrite ld_super0, Hmc', u32_small by (unfold is_u32; lia).
  destruct (load_loop_run (Z.to_nat mc) 1 s1 B) as (c & s2 & E2 & Hc & Hq2); [lia..|].
  exists c, s2. split_and!; [done| |done]. destruct Hc as [[-> []]|?]; [left|by right].
  rewrite below_all in bo_store0 by (intros k id Hk; apply (od_range _ _ _ _ _ HD) in Hk; lia).
  destruct bo_normal0 as (bn & Hbn & HN), bo_error0 as (be & Hbe & HE). pose proof bo_disk0 as [Hfs _].
  split_and!; [done| |split|done..].
  - split; [done|]. by exists be, de.
  - destruct Hf as (f & Hf & ?). exists f, bn, dn, be, de. rewrite Hfs, bo_super0. destruct HN, HE. done.
  - intros k id Hk. rewrite Hfs. by apply (od_heads _ _ _ _ _ HD).
Qed.
End load.
End boot.
