(* ===== verification/StoreFormat.v ===== *)
(** Formatting a working disk: [format_block_file_system] of BlockLoad.v leaves the
    files of a store without blocks. *)
From Stdlib Require Import (notations) String.
From Stdlib Require Import SpecFloat.
From stdpp Require Import fin_map_dom functions.
From S2P Require Import Prelude Bytes Text ProxyMsg Bitmap DsFile DsBlock BlockStore BlockLoad DataMgr StoreInv StoreBlocks StoreNew StoreData StoreRefine StoreBoot.

(** ** Calls on a disk without faults *)

Definition file_or_new (name : bytes) (d : dsk) : bytes := default [] (d_files d !! name).
Definition put_file (name f : bytes) (d : dsk) : dsk := Dsk (<[name := f]> (d_files d)) (d_os d) (d_errno d).

Lemma put_put name f f' d : put_file name f' (put_file name f d) = put_file name f' d.
Proof. unfold put_file. simpl. by rewrite insert_insert_eq. Qed.
Lemma file_put name f d : file_or_new name (put_file name f d) = f.
Proof. unfold file_or_new, put_file. simpl. by rewrite lookup_insert_eq. Qed.

Lemma quiet_open name flags d : d_os d = [] → Z.land flags O_CREAT ≠ 0 →
  open_file (fop_new name flags, d) = Some (3, (FOp name 3 flags, put_file name (file_or_new name d) d)).
Proof.
  intros H0 Hf. unfold open_file, close_stale, fd, fop_new, sys_open, next_os, put_file, file_or_new. M_unfold. simpl.
  destruct d as [fs os e]. simpl in *. subst os. simpl. destruct (fs !! name) as [f|] eqn:E; simpl.
  - by rewrite insert_id.
  - destruct (Z.eqb_spec (Z.land flags O_CREAT) 0); [done|]. done.
Qed.
Lemma quiet_pwrite_open name flags d f buf off : d_os d = [] → d_files d !! name = Some f → 0 ≤ off → buf ≠ [] →
  pwrite_file buf off (FOp name 3 flags, d) =
    Some (TFS_SUCCESS, (FOp name 3 flags, put_file name (file_write (Z.to_nat off) buf f) d)).
Proof.
  intros H0 Hf Ho Hb. unfold pwrite_file. change (Z.to_nat (MAX_DISK_TIMES - 1)) with 4%nat. cbn [pwrite_loop].
  rewrite decide_False by done. unfold check_file, fd. M_unfold. simpl. unfold sys_pwrite, next_os.
  destruct (Z.ltb_spec off 0); [lia|]. rewrite H0. simpl. rewrite Hf. simpl. rewrite take_ge by done.
  destruct (Z.ltb_spec (Z.of_nat (length buf)) 0); [lia|].
  destruct (Z.eqb_spec (Z.of_nat (length buf)) 0); [destruct buf; simpl in *; [done|lia]|].
  rewrite Nat2Z.id, drop_ge by done. unfold put_file. rewrite H0. done.
Qed.
(** The first use of a handle opens it. *)
Lemma quiet_pwrite_new name flags d buf off : d_os d = [] → Z.land flags O_CREAT ≠ 0 → 0 ≤ off → buf ≠ [] →
  pwrite_file buf off (fop_new name flags, d) =
    Some (TFS_SUCCESS, (FOp name 3 flags, put_file name (file_write (Z.to_nat off) buf (file_or_new name d)) d)).
Proof.
  intros H0 Hf Ho Hb. rewrite <- (put_put name (file_or_new name d)).
  rewrite <- (quiet_pwrite_open name flags _ (file_or_new name d)); [|done|apply lookup_insert_eq|done|done].
  unfold pwrite_file. change (Z.to_nat (MAX_DISK_TIMES - 1)) with 4%nat. cbn [pwrite_loop]. rewrite decide_False by done.
  assert (check_file (fop_new name flags, d) = Some (3, (FOp name 3 flags, put_file name (file_or_new name d) d))) as E1.
  { unfold check_file. unfold fd at 1 2. M_unfold. cbn [fst fop_new fo_fd Z.ltb Z.compare whenM]. unfold whenM. M_unfold.
    by rewrite quiet_open. }
  rewrite (M_bind_Some _ _ _ _ _ E1). rewrite (M_bind_Some _ _ _ 3 (FOp name 3 flags, put_file name (file_or_new name d) d)) by done.
  done.
Qed.
Lemma quiet_file {A} name flags (m : FM A) s x p d' :
  m (fop_new name flags, disk s) = Some (x, (p, d')) → d_os d' = [] →
  with_file name flags m s = Some (x, set_heaps (pheap s) (lheap s) (brk s) d' s).
Proof.
  intros H H0. unfold with_file. rewrite H. cbn [mbind option_bind fst snd]. do 2 f_equal.
  destruct (0 <? fo_fd p); [|done]. unfold sys_plain, next_os. by rewrite H0.
Qed.

(** ** Formatting *)

Section format.
Context (g : geometry) (Hg : geo_ok g).
Local Abbreviation mnt := (g_mnt g).
Local Abbreviation mc := (g_mc g).
Local Abbreviation ms := (g_ms g).
Local Abbreviation path := (main_path mnt).
Local Abbreviation super := (super_path mnt).

(** The parameters of a store of [g]: the super block at the head of its file, and as
    many blocks as the code computes. *)
Record fs_ok (fs : fs_parameter) : Prop := FsOk {
  fk_mount : fsp_mount_name fs = mnt;
  fk_reserve : fsp_super_block_reserve_offset fs = 0 ∧ g_rsv g = 0;
  fk_main : fsp_main_block_size fs = ms;
  fk_type : fsp_base_fs_type fs = EXT4 ∨ fsp_base_fs_type fs = EXT3_FULL ∨ fsp_base_fs_type fs = EXT3_FTRUN;
  fk_ints : is_i32 (fsp_extend_block_size fs) ∧ is_u32 (fsp_block_type_ratio fs) ∧ is_i32 (fsp_version fs);
  fk_count : trunc32 (SFdiv 24 128 (f32 (i64 (fsp_max_mount_size fs * 1024))) (f32 ms)) = Some mc }.

(** The super block of a formatted store. *)
Definition new_super (fs : fs_parameter) (t : Z) : superblock :=
  SB (DEV_TAG ++ replicate 4 0) (i32 t) (strncpy (Z.to_nat (MAX_DEV_NAME_LEN - 1)) mnt (replicate 128 0))
     (replicate 4 0) (i64 (fsp_max_mount_size fs * 1024)) (fsp_base_fs_type fs) 0 436 (bits_of_f32 (f32 (-1)))
     mc ms 0 (-1) 0 0 0 0 (replicate 12 0) (fsp_version fs).

Lemma init_super_run fs s : fs_ok fs →
  init_super_blk_param fs s = Some (TFS_SUCCESS, set_super (new_super fs (now s)) s).
Proof.
  intros [Hm [Hr _] Hms Ht _ Hc]. unfold init_super_blk_param, calc_block_count. M_unfold. cbv zeta.
  assert ((fsp_base_fs_type fs =? EXT4) || (fsp_base_fs_type fs =? EXT3_FULL) || (fsp_base_fs_type fs =? EXT3_FTRUN) = true) as ->
    by (destruct Ht as [->|[->| ->]]; done).
  cbn [negb]. change (EXTEND_SUPPORT =? 0) with true. cbn [negb]. unfold lift. rewrite Hm, Hr, Hms.
  assert (∀ f s0, upd_super f s0 = Some (tt, set_super (f (super_block_ s0)) s0)) as EU by done.
  rewrite EU. cbn [set_super super_block_ sb_main_block_size fst snd]. rewrite Hc. cbn [mbind option_bind]. rewrite EU. cbn [fst snd].
  rewrite EU. done.
Qed.

Lemma cstr_plain m n : Forall plain m → cstr (m ++ replicate (Datatypes.S n) 0) = m.
Proof. induction 1 as [|c m [_ Hc] Hm IH]; [done|]. cbn [app cstr]. destruct (Z.eqb_spec c 0); [done|]. by f_equal. Qed.
Lemma mount_copy : strncpy (Z.to_nat (MAX_DEV_NAME_LEN - 1)) mnt (replicate 128 0) = mnt ++ replicate (128 - length mnt) 0.
Proof.
  pose proof (geo_len _ Hg) as Hl. unfold strncpy. change (Z.to_nat (MAX_DEV_NAME_LEN - 1)) with 127%nat.
  rewrite take_app_ge, take_replicate, drop_replicate by lia. rewrite <- app_assoc, <- replicate_add. do 2 f_equal. lia.
Qed.
Lemma new_super_rep fs t : fs_ok fs → sb_rep g (new_super fs t).
Proof.
  intros [Hm [Hr Hr0] Hms Ht (Hi1 & Hi2 & Hi3) Hc]. pose proof (geo_len _ Hg). pose proof (geo_mc _ Hg). pose proof (geo_ms _ Hg).
  unfold sb_rep. split_and!; try done.
  - split; cbn [new_super sb_mount_tag sb_mount_point sb_padding sb_mmap_option sb_mount_point_use_space sb_block_type_ratio sb_hash_slot_ratio]; try done.
    + rewrite mount_copy, length_app, length_replicate. lia.
    + unfold i64, u64. pose proof (Z.mod_pos_bound (fsp_max_mount_size fs * 1024) (2 ^ 64)). case_match; lia.
    + unfold sb_time, sb_base_fs_type, sb_superblock_reserve_offset, sb_bitmap_start_offset, sb_main_block_count, sb_main_block_size,
        sb_extend_block_count, sb_extend_block_size, sb_used_block_count, sb_used_extend_block_count, sb_hash_slot_size, sb_version, new_super, is_i32.
      pose proof (i32_range t). assert (- 2 ^ 31 ≤ fsp_base_fs_type fs < 2 ^ 31) by (destruct Ht as [->|[->| ->]]; unfold EXT4, EXT3_FULL, EXT3_FTRUN; lia).
      repeat (apply Forall_cons; split); try done; lia.
  - unfold mount_point, new_super. cbn [sb_mount_point]. rewrite mount_copy.
    replace (128 - length mnt)%nat with (Datatypes.S (127 - length mnt)) by lia. apply cstr_plain, Hg.
Qed.

Lemma dirs_run s : d_os (disk s) = [] → create_fs_dir s = Some (TFS_SUCCESS, s).
Proof.
  intros H0. assert (sys_call s = Some (0, s)) as E1.
  { unfold sys_call, sys_plain, next_os. rewrite H0. by destruct s. }
  unfold create_fs_dir. rewrite (M_bind_Some _ _ _ _ _ E1), (M_bind_Some _ _ _ (d_errno (disk s)) s) by done.
  change (0 =? 0) with true. cbn [negb andb]. do 2 (rewrite (M_bind_Some _ _ _ _ _ E1); change (0 =? 0) with true; cbn [negb]).
  done.
Qed.

(** The super block file: two super blocks, four bytes and the four bitmaps. *)
Definition super_image (sb : superblock) (n : nat) : bytes := enc_superblock sb ++ enc_superblock sb ++ replicate (4 + 4 * n) 0.
Lemma image_nonempty sb n : sb_ok sb → super_image sb n ≠ [].
Proof.
  intros Hok Ei. apply (f_equal length) in Ei. unfold super_image in Ei.
  by rewrite length_app, enc_superblock_length in Ei.
Qed.
Lemma create_super_run s : sb_rep g (super_block_ s) → d_os (disk s) = [] →
  create_fs_super_blk s = Some (TFS_SUCCESS, set_heaps (pheap s) (lheap s) (brk s)
    (put_file super (file_write 0 (super_image (super_block_ s) (Z.to_nat (slots (mc + 1)))) (file_or_new super (disk s))) (disk s)) s).
Proof.
  intros (Hok & Hmc & _ & Hec & _ & Hmp) H0. pose proof (slots_bound g Hg). pose proof (geo_mc _ Hg).
  destruct (bm_new_run g Hg) as (b & d & Eb & Hb).
  assert (calc_bitmap_count s = Some (slots (mc + 1), s)) as E1.
  { unfold calc_bitmap_count. rewrite (M_bind_Some _ _ _ (super_block_ s) s) by done.
    rewrite Hmc, Hec, Z.add_0_r, u32_small by (unfold is_u32; lia).
    rewrite (M_bind_Some _ _ _ b s) by (unfold lift; by rewrite Eb). by rewrite (bmr_slot _ _ _ _ Hb). }
  unfold create_fs_super_blk. rewrite (M_bind_Some _ _ _ _ _ E1). M_unfold. rewrite Hmp.
  eapply quiet_file; [|done]. replace (Z.to_nat (4 * slots (mc + 1) + 4)) with (4 + 4 * Z.to_nat (slots (mc + 1)))%nat by lia.
  apply quiet_pwrite_new; [done|done|done|]. by apply image_nonempty.
Qed.

Definition zeros (n : Z) : bytes := replicate (Z.to_nat n) 0.
Lemma zeros_prefix n : 20 ≤ n → file_write 0 (zeros sizeof_prefix) (zeros n) = zeros n.
Proof.
  intros Hn. unfold zeros. rewrite file_write_in by (rewrite !length_replicate; unfold sizeof_prefix; lia).
  rewrite length_replicate, drop_replicate, take_0, app_nil_l. rewrite <- replicate_add. f_equal. unfold sizeof_prefix. lia.
Qed.

Lemma block_format_run name flags t d : d_os d = [] → d_files d !! name = Some [] →
  block_file_format t (512 + ms) (FOp name 3 flags, d) = Some (0, (FOp name 3 flags, put_file name (zeros (512 + ms)) d)).
Proof.
  intros H0 Hf. pose proof (geo_ms _ Hg). unfold block_file_format. M_unfold. cbn [fst snd fo_fd fo_name].
  change (3 <? 0) with false. cbv iota. destruct (Z.leb_spec (512 + ms) 0); [lia|]. cbv zeta.
  unfold sys_plain, next_os. rewrite H0. cbn [fst snd Z.ltb Z.compare]. rewrite Hf. cbn [default].
  unfold put_file, file_extend, zeros. change (id []) with (@nil Z). rewrite take_nil, length_nil, Nat.sub_0_r, H0.
  by destruct (t =? EXT3_FTRUN).
Qed.

Lemma block_file_run t name d : d_os d = [] → d_files d !! name = None →
  (r ← open_file;
   if r <? 0 then mret false else
   r ← block_file_format t (i32 (BLOCK_RESERVER_LENGTH + ms));
   if negb (r =? TFS_SUCCESS) then mret false else
   r ← pwrite_file (replicate (Z.to_nat sizeof_prefix) 0) 0;
   mret (r =? TFS_SUCCESS)) (fop_new name (Z.lor O_RDWR O_CREAT), d) =
    Some (true, (FOp name 3 (Z.lor O_RDWR O_CREAT), put_file name (zeros (512 + ms)) d)).
Proof.
  intros H0 Hf. pose proof (geo_ms _ Hg). unfold BLOCK_RESERVER_LENGTH. rewrite i32_small by lia.
  rewrite (M_bind_Some _ _ _ _ _ (quiet_open name (Z.lor O_RDWR O_CREAT) d H0 ltac:(done))). change (3 <? 0) with false. cbv iota.
  unfold file_or_new. rewrite Hf. cbn [default].
  pose proof (block_format_run name (Z.lor O_RDWR O_CREAT) t (put_file name [] d) H0 (lookup_insert_eq _ _ _)) as E1.
  rewrite (M_bind_Some _ _ _ _ _ E1), put_put.
  change (0 =? TFS_SUCCESS) with true. cbn [negb].
  pose proof (quiet_pwrite_open name (Z.lor O_RDWR O_CREAT) (put_file name (zeros (512 + ms)) d) _ (zeros sizeof_prefix) 0 H0
    (lookup_insert_eq _ _ _) ltac:(lia) ltac:(done)) as E2.
  rewrite (M_bind_Some _ _ _ _ _ E2).
  rewrite put_put. change (Z.to_nat 0) with 0%nat.
  change (replicate (Z.to_nat sizeof_prefix) 0) with (zeros sizeof_prefix). by rewrite zeros_prefix by lia.
Qed.

Lemma create_loop_run n i s : sb_rep g (super_block_ s) → d_os (disk s) = [] → 1 ≤ i → i + Z.of_nat n = mc + 1 →
  (∀ id, i ≤ id ≤ mc → d_files (disk s) !! path id = None) → ∃ d,
  create_loop n i 0 C_MAIN_BLOCK ms s = Some (TFS_SUCCESS, set_heaps (pheap s) (lheap s) (brk s) d s) ∧
  d_os d = [] ∧ (∀ id, i ≤ id ≤ mc → d_files d !! path id = Some (zeros (512 + ms))) ∧
  (∀ p, (∀ id, i ≤ id ≤ mc → p ≠ path id) → d_files d !! p = d_files (disk s) !! p).
Proof.
  revert i s. induction n as [|n IH]; intros i s Hsb H0 Hi Hn Hf; cbn [create_loop].
  { exists (disk s). split_and!; [by destruct s|done|intros; lia|done]. }
  pose proof Hsb as (_ & _ & _ & _ & _ & Hmp). rewrite (M_bind_Some _ _ _ (super_block_ s) s) by done. rewrite Hmp, Z.add_0_l.
  change (block_path mnt C_MAIN_BLOCK i) with (path i).
  set (d1 := put_file (path i) (zeros (512 + ms)) (disk s)).
  rewrite (M_bind_Some _ _ _ _ _ (quiet_file _ _ _ s _ _ d1 (block_file_run _ _ _ H0 (Hf i ltac:(lia))) H0)).
  destruct (IH (i + 1) (set_heaps (pheap s) (lheap s) (brk s) d1 s)) as (d & E1 & Hd0 & Hd & Ho); [done|done|lia|lia| |].
  { intros id Hid. simpl. rewrite lookup_insert_ne; [apply Hf; lia|]. intros E1%(path_inj g Hg); lia. }
  exists d. split_and!; [done|done| |].
  - intros id Hid. destruct (decide (id = i)) as [->|Hne]; [|apply Hd; lia].
    rewrite Ho; [apply lookup_insert_eq|]. intros id' Hid' E2%(path_inj g Hg); lia.
  - intros p Hp. rewrite Ho by (intros id Hid; apply Hp; lia). simpl. apply lookup_insert_ne.
    intros E2. by apply (Hp i); [lia|].
Qed.

Lemma file_write_front data f n : n = length data → take n (drop 0 (file_write 0 data f)) = data.
Proof. intros ->. apply file_write_back. Qed.
(** What is read of a piece of a file that was written at its head. *)
Lemma file_write_sub o n data f : (o + n ≤ length data)%nat →
  take n (drop o (file_write 0 data f)) = take n (drop o data).
Proof.
  intros H. destruct data as [|x data]; [simpl in H; by replace n with 0%nat by lia|]. unfold file_write.
  rewrite take_0, Nat.add_0_l, app_nil_l. replace (0 - length f)%nat with 0%nat by lia. cbn [replicate]. rewrite app_nil_l.
  rewrite drop_app_le by lia. rewrite take_app_le; [done|]. rewrite length_drop. lia.
Qed.

Lemma format_run fs s : fs_ok fs → d_os (disk s) = [] → (∀ id, 1 ≤ id ≤ mc → d_files (disk s) !! path id = None) →
  ∃ s', format_block_file_system fs s = Some (TFS_SUCCESS, s') ∧ d_os (disk s') = [] ∧
  on_disk g ∅ (disk s') (new_super fs (now s)) (zeros (slots (mc + 1))) (zeros (slots (mc + 1))) (VS ∅ (λ _, zeros ms)).
Proof.
  intros Hfs H0 Hfree. pose proof (slots_bound g Hg) as Hsl. pose proof (geo_ms _ Hg) as Hms. pose proof (geo_mc _ Hg) as Hmc.
  unfold format_block_file_system. pose proof Hfs as [_ [_ Hrsv] _ Htype _ _].
  rewrite (M_bind_Some _ _ _ _ _ (init_super_run fs s Hfs)). change (TFS_SUCCESS =? TFS_SUCCESS) with true. cbn [negb].
  set (sb := new_super fs (now s)). set (s1 := set_super sb s). pose proof (new_super_rep fs (now s) Hfs : sb_rep g sb) as Hsb.
  rewrite (M_bind_Some _ _ _ _ _ (dirs_run s1 H0)). change (TFS_SUCCESS =? TFS_SUCCESS) with true. cbn [negb].
  rewrite (M_bind_Some _ _ _ _ _ (create_super_run s1 Hsb H0)). change (TFS_SUCCESS =? TFS_SUCCESS) with true. cbn [negb].
  set (n := Z.to_nat (slots (mc + 1))). set (file := file_write 0 (super_image (super_block_ s1) n) (file_or_new super (disk s1))).
  set (s2 := set_heaps _ _ _ _ s1).
  destruct (create_loop_run (Z.to_nat mc) 1 s2 Hsb H0) as (d & E3 & Hd0 & Hd & Ho); [lia|lia| |].
  { intros id Hid. simpl. rewrite lookup_insert_ne by (intros Ep; by apply (path_super g Hg id)). by apply Hfree. }
  assert ((fsp_base_fs_type fs =? EXT4) || (fsp_base_fs_type fs =? EXT3_FULL) || (fsp_base_fs_type fs =? EXT3_FTRUN) = true) as Hty
    by (destruct Htype as [->|[->| ->]]; done).
  set (s3 := set_heaps (pheap s2) (lheap s2) (brk s2) d s2) in *.
  assert (create_block C_MAIN_BLOCK s2 = Some (TFS_SUCCESS, s3)) as E4.
  { unfold create_block. rewrite (M_bind_Some _ _ _ sb s2) by done. cbv zeta. cbn [sb new_super sb_base_fs_type]. rewrite Hty.
    cbn [negb sb_main_block_count sb_main_block_size]. exact E3. }
  assert (create_block C_EXT_BLOCK s3 = Some (TFS_SUCCESS, s3)) as E5.
  { unfold create_block. rewrite (M_bind_Some _ _ _ sb s3) by done. cbv zeta. cbn [sb new_super sb_base_fs_type]. by rewrite Hty. }
  rewrite (M_bind_Some _ _ _ _ _ E4). change (TFS_SUCCESS =? TFS_SUCCESS) with true. cbn [negb]. rewrite E5.
  exists s3. split_and!; [done|done|].
  assert (d_files d !! super = Some file) as Hfile.
  { rewrite Ho by (intros id Hid Ep; by apply (path_super g Hg id)). apply lookup_insert_eq. }
  pose proof Hsb as (Hok & _). pose proof (enc_superblock_length sb Hok) as Hel.
  split; cbn [vs_ids vs_data]; try done.
  - split.
    + done.
    + exists file. split_and!; [done| |]; rewrite Hrsv; unfold file; cbn [s1 set_super super_block_]; unfold super_image.
      * change (Z.to_nat 0) with 0%nat. rewrite file_write_sub by (rewrite !length_app, Hel; lia).
        rewrite app_assoc. cbn [drop]. apply take_app_length'. by rewrite length_app, Hel.
      * rewrite (bitmap_data_length _ _ n) by (apply length_replicate). change (Z.to_nat (0 + 436)) with 436%nat.
        rewrite file_write_sub by (rewrite !length_app, Hel, length_replicate; lia).
        rewrite replicate_add, !app_assoc, drop_app_length' by (rewrite !length_app, Hel; done).
        unfold bitmap_data, zeros. fold n. rewrite <- !replicate_add, take_ge by (rewrite length_replicate; lia). f_equal. lia.
    + split; apply Forall_replicate; unfold is_byte; lia.
    + split; apply length_replicate.
    + rewrite map_img_empty_L. unfold zeros. by rewrite bits_empty.
  - intros id Hid. exists (zeros 512). split_and!; [|by unfold zeros; rewrite length_replicate|apply length_replicate].
    cbn [s3 set_heaps disk]. rewrite Hd by done. unfold zeros. rewrite <- replicate_add. do 2 f_equal. lia.
Qed.
End format.
