(* ===== verification/StoreMain.v ===== *)
(** The properties of the data server's block store: it is a map of blocks under every
    behaviour of the disk, what it acknowledges can be read back, and a restart finds
    what was there. *)
From Stdlib Require Import (notations) String.
From stdpp Require Import fin_map_dom functions.
From S2P Require Import Prelude Bytes Text ProxyMsg Bitmap DsFile DsBlock BlockStore BlockLoad DataMgr StoreInv StoreBlocks StoreNew StoreData StoreRefine StoreBoot StoreFormat.

(** ** What a step leaves of a piece of a block *)

Definition piece (v : vstore) (k : name) (off n : nat) : option bytes :=
  (λ id, take n (drop off (vs_data v id))) <$> vs_ids v !! k.

(** A step that does not write there. *)
Definition leaves (k : name) (off n : Z) (o : ds_op) : Prop :=
  match o with
  | OpRead _ _ _ => True
  | OpWrite k' off' buf => k' ≠ k ∨ off' + Z.of_nat (length buf) ≤ off ∨ off + n ≤ off'
  | OpNew k' | OpDel k' => k' ≠ k
  end.

Lemma write_elsewhere off n o data c :
  (o + length data ≤ length c)%nat → (o + length data ≤ off ∨ off + n ≤ o)%nat →
  take n (drop off (file_write o data c)) = take n (drop off c).
Proof.
  intros Hl [H|H].
  - by rewrite file_write_after.
  - rewrite file_write_in by done. rewrite drop_app_le by (rewrite length_take; lia).
    rewrite take_app_le by (rewrite length_drop, length_take; lia).
    rewrite skipn_firstn_comm, take_take. f_equal. lia.
Qed.

Section main.
Context (g : geometry) (Hg : geo_ok g) (E : gset Z).
Local Abbreviation ms := (g_ms g).
Local Abbreviation mc := (g_mc g).

(** What the map of a store has besides. *)
Record v_ok (v : vstore) : Prop := VOk {
  vo_inj : ∀ k1 k2 id, vs_ids v !! k1 = Some id → vs_ids v !! k2 = Some id → k1 = k2;
  vo_len : ∀ id, 1 ≤ id ≤ mc → length (vs_data v id) = Z.to_nat ms;
  vo_range : ∀ k id, vs_ids v !! k = Some id → 1 ≤ id ≤ mc }.
Lemma rep_ok s v : ds_rep g E s v → v_ok v.
Proof.
  intros [H _]. split; [apply H| |].
  - intros id Hid. by destruct (so_files _ _ _ _ _ H id Hid) as (h & _ & _ & ?).
  - intros k id Hk. apply (so_range _ _ _ _ _ H _ _ Hk).
Qed.

Lemma piece_unbind v k k' off n : k' ≠ k → piece (spec_unbind k' v) k off n = piece v k off n.
Proof. intros Hne. unfold piece. cbn [spec_unbind vs_ids vs_data]. by rewrite lookup_delete_ne. Qed.
Lemma piece_bind v k k' id off n : k' ≠ k → piece (spec_bind k' id v) k off n = piece v k off n.
Proof. intros Hne. unfold piece. cbn [spec_bind vs_ids vs_data]. by rewrite lookup_insert_ne. Qed.
Lemma piece_put_other v k id off n o data : vs_ids v !! k ≠ Some id → piece (spec_put id o data v) k off n = piece v k off n.
Proof.
  intros Hne. unfold piece. cbn [spec_put vs_ids vs_data]. destruct (vs_ids v !! k) as [i|]; [|done]. simpl.
  rewrite fn_lookup_insert_ne; [done|]. congruence.
Qed.
(** A write into the block of [k'], within its area. *)
Lemma piece_put v k k' id off n o data :
  v_ok v → vs_ids v !! k' = Some id → 0 ≤ o → 0 ≤ off → 0 ≤ n → o + Z.of_nat (length data) ≤ ms →
  (k' ≠ k ∨ o + Z.of_nat (length data) ≤ off ∨ off + n ≤ o) →
  piece (spec_put id o data v) k (Z.to_nat off) (Z.to_nat n) = piece v k (Z.to_nat off) (Z.to_nat n).
Proof.
  intros Hv Hk' Ho Hoff Hn Hin Hout. destruct (decide (k' = k)) as [->|Hne].
  - unfold piece. cbn [spec_put vs_ids vs_data]. rewrite Hk'. simpl. rewrite fn_lookup_insert. f_equal.
    apply write_elsewhere; [rewrite (vo_len _ Hv) by (by apply (vo_range _ Hv k)); lia|]. destruct Hout as [?|?]; [done|lia].
  - apply piece_put_other. intros Hk. by apply Hne, (vo_inj _ Hv _ _ id).
Qed.
Lemma piece_put_new v k k' id off n o data :
  v_ok v → vs_ids v !! k' = None → id ∉ (map_img (vs_ids v) : gset Z) → k' ≠ k →
  piece (spec_put id o data (spec_bind k' id v)) k off n = piece v k off n.
Proof.
  intros Hv Hk' Hni Hne. rewrite piece_put_other; [by apply piece_bind|].
  cbn [spec_bind vs_ids]. rewrite lookup_insert_ne by done. intros Hk. apply Hni, elem_of_map_img. by exists k.
Qed.

Lemma leaves_step o v x v' k off n :
  v_ok v → ds_op_ok o → leaves k off n o → is_Some (vs_ids v !! k) → 0 ≤ off → 0 ≤ n → any_step g E o v x v' →
  piece v' k (Z.to_nat off) (Z.to_nat n) = piece v k (Z.to_nat off) (Z.to_nat n).
Proof.
  intros Hv Ho Hlv [i Hi] Hoff Hn [Hs|Hs].
  - destruct o as [k' o' n'|k' o' buf|k'|k']; cbn [spec_step leaves] in *.
    + destruct (vs_ids v !! k') as [id|]; [destruct (ms <? o')|]; by injection Hs as <- <-.
    + destruct Ho as (_ & _ & Ho & _). case_decide; [by injection Hs as <- <-|].
      destruct (vs_ids v !! k') as [id|] eqn:Hk'.
      * unfold spec_write in Hs. destruct (Z.ltb_spec ms (o' + Z.of_nat (length buf))); injection Hs as <- <-; [done|].
        by apply (piece_put v k k').
      * destruct (spec_free g E (vs_ids v)) as [id|] eqn:Hf; [|by injection Hs as <- <-].
        assert (k' ≠ k) as Hne by (intros ->; congruence). destruct (free_spec g Hg E _ _ Hf) as [_ Hni].
        unfold spec_write in Hs. destruct (Z.ltb_spec ms (o' + Z.of_nat (length buf))); injection Hs as <- <-;
          [by apply piece_bind|by apply piece_put_new].
    + destruct (spec_free g E _) as [id|]; injection Hs as <- <-; [rewrite piece_bind by done|]; by apply piece_unbind.
    + destruct (vs_ids v !! k'); injection Hs as <- <-; [by apply piece_unbind|done].
  - destruct Hs as [|k' o' buf v id c m Hk' _ Hm Hin|k' o' buf v id c m Hk' Hf _ Hm Hin| |k' v c _|k' v c _ _]; cbn [leaves] in Hlv; try done.
    + destruct Ho as (_ & _ & Ho & _). apply (piece_put v k k'); try done; rewrite length_take; [lia|]. destruct Hlv as [?|?]; [by left|right; lia].
    + destruct (free_spec g Hg E _ _ Hf) as [_ Hni]. apply piece_put_new; [done..|]. intros ->. congruence.
    + by apply piece_unbind.
    + by apply piece_unbind.
Qed.

Lemma leaves_run os s v xs s' k off n :
  ds_rep g E s v → Forall ds_op_ok os → Forall (leaves k off n) os → is_Some (vs_ids v !! k) → 0 ≤ off → 0 < n →
  n ≤ ms → ds_run os s = Some (xs, s') → ∃ v', ds_rep g E s' v' ∧ is_Some (vs_ids v' !! k) ∧
  piece v' k (Z.to_nat off) (Z.to_nat n) = piece v k (Z.to_nat off) (Z.to_nat n).
Proof.
  intros HR Ho Hlv Hk Hoff Hn Hms. revert s v xs HR Ho Hlv Hk. induction os as [|o os IH]; intros s v xs HR Ho Hlv Hk Er; cbn [ds_run] in Er.
  { injection Er as <- <-. by exists v. }
  apply Forall_cons in Ho as [Ho Hos], Hlv as [Hl Hls].
  destruct (ds_step_run g Hg E o s v HR Ho) as (x & s1 & v1 & E1 & M1 & A1 & _).
  rewrite (M_bind_Some _ _ _ _ _ E1) in Er. apply M_bind_inv in Er as (xs1 & s2 & E2 & Er).
  pose proof (leaves_step o v x v1 k off n (rep_ok _ _ HR) Ho Hl Hk Hoff ltac:(lia) A1) as Hp.
  assert (is_Some (vs_ids v1 !! k)) as Hk1.
  { destruct Hk as [i Hi]. unfold piece in Hp. rewrite Hi in Hp. destruct (vs_ids v1 !! k); [by eexists|done]. }
  injection Er as _ <-. destruct (IH s1 v1 xs1 (proj1 M1) Hos Hls Hk1 E2) as (v2 & H2 & Hk2 & Hp2).
  exists v2. split_and!; [done|done|congruence].
Qed.

(** An acknowledged write is in place. *)
Lemma write_places k off buf s v s1 :
  ds_rep g E s v → ds_op_ok (OpWrite k off buf) → buf ≠ [] → ds_step (OpWrite k off buf) s = Some (OutCode TFS_SUCCESS, s1) →
  ∃ v1, ds_rep g E s1 v1 ∧ is_Some (vs_ids v1 !! k) ∧ off + Z.of_nat (length buf) ≤ ms ∧
  piece v1 k (Z.to_nat off) (length buf) = Some buf.
Proof.
  intros HR Ho Hb Er. destruct (ds_step_run g Hg E _ s v HR Ho) as (x & s' & v1 & E1 & M & A & _).
  rewrite Er in E1. injection E1 as <- <-. exists v1. split; [apply M|].
  assert (∀ id w, vs_ids w !! k = Some id → v1 = spec_put id off buf w → off + Z.of_nat (length buf) ≤ ms →
    is_Some (vs_ids v1 !! k) ∧ off + Z.of_nat (length buf) ≤ ms ∧ piece v1 k (Z.to_nat off) (length buf) = Some buf) as Hput.
  { intros id w Hk -> Hin. unfold piece. cbn [spec_put vs_ids vs_data]. rewrite Hk. split_and!; [by eexists|done|].
    simpl. rewrite fn_lookup_insert. f_equal. apply file_write_back. }
  destruct A as [A|A]; [|by inversion A]. cbn [spec_step] in A. rewrite decide_False in A by done.
  destruct (vs_ids v !! k) as [id|] eqn:Hk; [|destruct (spec_free g E (vs_ids v)) as [id|]; [|done]];
    unfold spec_write in A; destruct (Z.ltb_spec ms (off + Z.of_nat (length buf))); try done; injection A as <-.
  - by apply (Hput id v).
  - apply (Hput id (spec_bind k id v)); [apply lookup_insert_eq|done|lia].
Qed.
Lemma read_piece k off n s v c m data s' buf :
  ds_rep g E s v → ds_op_ok (OpRead k off n) → off + n ≤ ms → piece v k (Z.to_nat off) (Z.to_nat n) = Some buf →
  ds_step (OpRead k off n) s = Some (OutData c m data, s') → c = TFS_SUCCESS ∧ m = n ∧ data = buf ∨ c < 0.
Proof.
  intros HR Ho Hin Hp Er. destruct (ds_step_run g Hg E _ s v HR Ho) as (x & s1 & v1 & E1 & _ & A & _).
  rewrite Er in E1. injection E1 as <- <-. destruct A as [A|A]; [left|right; by inversion A].
  cbn [spec_step] in A. unfold piece in Hp. destruct (vs_ids v !! k) as [id|]; [|done]. injection Hp as <-.
  destruct Ho as (_ & _ & Ho & Hn & _). destruct (Z.ltb_spec ms off); [lia|]. rewrite Z.min_l in A by lia.
  by injection A as <- <- <-.
Qed.

(** C7: whatever the disk does, every sequence of reads, writes, creations and
    deletions on a store runs to its end, each step is one of the map's or one of the
    listed failures, and with a disk that works the answers are the map's. *)
Theorem block_store_refines_map os s v :
  ds_rep g E s v → Forall ds_op_ok os → ∃ xs s' v',
  ds_run os s = Some (xs, s') ∧ ds_rep g E s' v' ∧ any_run g E os v xs v' ∧
  (d_os (disk s) = [] → spec_run g E os v = (xs, v')).
Proof.
  intros HR Ho. destruct (ds_run_run g Hg E os s v HR Ho) as (xs & s' & v' & Er & M & A & Q).
  exists xs, s', v'. by split_and!; [|apply M| |].
Qed.

(** C8: data whose write was answered with success is what a later successful read of
    the same place returns, whatever the disk did in between and whatever was read,
    written elsewhere, created and deleted under other names. *)
Theorem acknowledged_writes_are_read_back k off buf os s v s1 xs s2 c n data s3 :
  ds_rep g E s v → ds_op_ok (OpWrite k off buf) → buf ≠ [] → Forall ds_op_ok os →
  Forall (leaves k off (Z.of_nat (length buf))) os →
  ds_step (OpWrite k off buf) s = Some (OutCode TFS_SUCCESS, s1) →
  ds_run os s1 = Some (xs, s2) →
  ds_step (OpRead k off (Z.of_nat (length buf))) s2 = Some (OutData c n data, s3) →
  c = TFS_SUCCESS ∧ n = Z.of_nat (length buf) ∧ data = buf ∨ c < 0.
Proof.
  intros HR Hw Hb Ho Hlv E1 E2 E3. assert (0 < length buf)%nat as Hl by (destruct buf; [done|simpl; lia]).
  destruct (write_places k off buf s v s1 HR Hw Hb E1) as (v1 & HR1 & Hk1 & Hin & Hp1).
  pose proof Hw as (_ & _ & Hoff & Hlt).
  destruct (leaves_run os s1 v1 xs s2 k off (Z.of_nat (length buf)) HR1 Ho Hlv Hk1 Hoff ltac:(lia) ltac:(lia) E2) as (v2 & HR2 & Hk2 & Hp2).
  apply (read_piece k off _ s2 v2 _ _ _ s3 buf HR2); try done.
  - destruct Hw as (? & ? & _). split_and!; try done; cbn; lia.
  - by rewrite Hp2, Nat2Z.id.
Qed.

(** ** Restarts *)

(** A name is used when a step names it; the name (0, 0) marks a free block on disk. *)
Definition named (o : ds_op) : Prop := op_name o ≠ (0, 0).
Lemma spec_step_names o v : named o → vs_ids v !! (0, 0) = None → vs_ids (spec_step g E o v).2 !! (0, 0) = None.
Proof.
  unfold named. intros Hn H0. destruct o as [k o' n'|k o' buf|k|k]; cbn [spec_step op_name] in *.
  - destruct (vs_ids v !! k); [by destruct (ms <? o')|done].
  - case_decide; [done|]. unfold spec_write.
    destruct (vs_ids v !! k); [by destruct (ms <? _)|]. destruct (spec_free g E (vs_ids v)); [|done].
    destruct (ms <? _); cbn [snd spec_put spec_bind vs_ids]; by rewrite lookup_insert_ne.
  - destruct (spec_free g E _); cbn [snd spec_bind spec_unbind vs_ids].
    + by rewrite lookup_insert_ne, lookup_delete_ne.
    + by rewrite lookup_delete_ne.
  - destruct (vs_ids v !! k); [|done]. cbn [snd spec_unbind vs_ids]. by rewrite lookup_delete_ne.
Qed.
Lemma spec_run_names os v : Forall named os → vs_ids v !! (0, 0) = None → vs_ids (spec_run g E os v).2 !! (0, 0) = None.
Proof.
  revert v. induction os as [|o os IH]; intros v Hn H0; [done|]. apply Forall_cons in Hn as [Hn Hns].
  apply IH; [done|]. by apply spec_step_names.
Qed.
Lemma spec_run_app os1 os2 v :
  spec_run g E (os1 ++ os2) v =
    let r := spec_run g E os1 v in let r' := spec_run g E os2 r.2 in (r.1 ++ r'.1, r'.2).
Proof.
  revert v. induction os1 as [|o os1 IH]; intros v; cbn [app spec_run]; cbv zeta.
  - cbn [fst snd app]. by destruct (spec_run g E os2 v).
  - by rewrite IH.
Qed.

(** A run on a working disk. *)
Lemma quiet_run os s v : ds_rep g E s v → durable g s (vs_ids v) → d_os (disk s) = [] → Forall ds_op_ok os → ∃ s',
  ds_run os s = Some ((spec_run g E os v).1, s') ∧ ds_rep g E s' (spec_run g E os v).2 ∧
  durable g s' (vs_ids (spec_run g E os v).2) ∧ d_os (disk s') = [].
Proof.
  intros HR HD H0 Ho. destruct (ds_run_run g Hg E os s v HR Ho) as (xs & s' & v' & Er & M & _ & Q).
  rewrite (Q H0). exists s'. split_and!; [done|apply M|by apply M|by eapply moved_quiet].
Qed.
Lemma on_disk_files d d' sb dn de v : d_files d' = d_files d → on_disk g E d sb dn de v → on_disk g E d' sb dn de v.
Proof. intros Hd [[] ? ? ? ? ?]. split; rewrite ?Hd; try done. split; rewrite ?Hd; done. Qed.

Definition params (fs : fs_parameter) : Prop := fsp_mount_name fs = g_mnt g ∧ fsp_super_block_reserve_offset fs = g_rsv g.

(** Starting on files left by [s]. *)
Lemma reboot s v fs s0 : ds_rep g E s v → durable g s (vs_ids v) → vs_ids v !! (0, 0) = None → params fs →
  d_files (disk s0) = d_files (disk s) → idle (disk s0) s0 → ∃ c s1,
  bootstrap fs s0 = Some (c, s1) ∧
  (c = TFS_SUCCESS ∧ ds_rep g E s1 v ∧ durable g s1 (vs_ids v) ∧ same_files (disk s0) (disk s1) ∧ super_block_ s1 = super_block_ s ∨ c < 0) ∧
  (d_os (disk s0) = [] → c = TFS_SUCCESS).
Proof.
  intros HR HD H0 [Hm Hr] Hf Hi. destruct (durable_on_disk g E s v HR HD H0) as (dn & de & HO).
  eapply boot_run; [done| |done|done|done]. by eapply on_disk_files.
Qed.

(** C9: after any sequence of operations on a working disk, a process that starts on
    the files finds the same names, the same bytes and the same counters; on a disk
    that fails it either does or reports an error. *)
Theorem restart_restores_the_store os s v fs :
  ds_rep g E s v → durable g s (vs_ids v) → d_os (disk s) = [] → Forall ds_op_ok os → Forall named os →
  vs_ids v !! (0, 0) = None → params fs → ∃ s',
  ds_run os s = Some ((spec_run g E os v).1, s') ∧
  ∀ s0, d_files (disk s0) = d_files (disk s') → idle (disk s0) s0 → ∃ c s1,
    bootstrap fs s0 = Some (c, s1) ∧
    (c = TFS_SUCCESS ∧ ds_rep g E s1 (spec_run g E os v).2 ∧ durable g s1 (vs_ids (spec_run g E os v).2) ∧
       super_block_ s1 = super_block_ s' ∨ c < 0) ∧
    (d_os (disk s0) = [] → c = TFS_SUCCESS).
Proof.
  intros HR HD H0 Ho Hn Hv Hp. destruct (quiet_run os s v HR HD H0 Ho) as (s' & Er & HR' & HD' & H0').
  exists s'. split; [done|]. intros s0 Hf Hi.
  destruct (reboot s' _ fs s0 HR' HD' (spec_run_names os v Hn Hv) Hp Hf Hi) as (c & s1 & Eb & Hc & Hq).
  exists c, s1. split_and!; [done| |done]. destruct Hc as [(? & ? & ? & _ & ?)|?]; auto.
Qed.

(** C10: [new_block] refuses a name that is taken and a store that is full, and
    otherwise takes the least block that is neither used nor faulty.  Either it enters
    it in the maps, the bitmap, the counter and the files, and the super block on the
    disk agrees with the memory; or it reports an error and in memory everything is as
    before but the counters: when the super block could not be saved it takes back one
    from the count of extension blocks, not from the count it raised.  Either way no
    other file than those of this block and of the super block changes, and on a disk
    without faults it succeeds.  Of these two files an error says nothing: after a
    second fault during the rollback they may still hold the block. *)
Theorem new_block_outcome s V C k id0 :
  store_ok g s V C → errs g s E → is_u64 k.1 → is_u32 k.2 → ∃ code id s',
  new_block k.1 k.2 id0 C_MAIN_BLOCK s = Some ((code, id), s') ∧ new_out g s V C E k id0 code id s'.
Proof. apply (new_block_run g Hg). Qed.

(** [del_block] of a name that is bound unbinds it in any case; when it reports
    success the counter and the files say so, and when it fails they may not. *)
Theorem del_block_unbinds s V C k :
  store_ok g s V C → ∃ code s', del_block k.1 k.2 C_MAIN_BLOCK s = Some (code, s') ∧
  if V !! k is Some _ then removed g s V C k code s' else code = EXIT_NO_LOGICBLOCK_ERROR ∧ s' = s.
Proof. apply (del_block_run g Hg). Qed.
End main.

(** C6: from an empty working disk on: formatting, starting, any operations,
    stopping, starting again and any further operations all succeed as calls, and the
    answers of the two processes are those of one map that began empty. *)
Theorem data_server_life g fs s os1 os2 :
  geo_ok g → fs_ok g fs → d_os (disk s) = [] → (∀ id, 1 ≤ id ≤ g_mc g → d_files (disk s) !! main_path (g_mnt g) id = None) →
  Forall ds_op_ok (os1 ++ os2) → Forall named (os1 ++ os2) → ∃ s1,
  format_block_file_system fs s = Some (TFS_SUCCESS, s1) ∧
  ∀ s2, idle (disk s1) s2 → ∃ s3 xs1 s4,
    bootstrap fs s2 = Some (TFS_SUCCESS, s3) ∧ ds_run os1 s3 = Some (xs1, s4) ∧
    ∀ s5, idle (disk s4) s5 → ∃ s6 xs2 s7,
      bootstrap fs s5 = Some (TFS_SUCCESS, s6) ∧ ds_run os2 s6 = Some (xs2, s7) ∧
      xs1 ++ xs2 = (spec_run g ∅ (os1 ++ os2) (VS ∅ (λ _, zeros (g_ms g)))).1.
Proof.
  intros Hg Hfs H0 Hfree [Ho1 Ho2]%Forall_app [Hn1 Hn2]%Forall_app.
  destruct (format_run g Hg fs s Hfs H0 Hfree) as (s1 & E1 & H1 & HO). exists s1. split; [done|]. intros s2 Hi2.
  assert (params g fs) as Hp by (split; [apply Hfs|by destruct (fk_reserve _ _ Hfs) as [-> ->]]).
  destruct (boot_run g Hg ∅ _ _ _ _ _ HO fs s2 (proj1 Hp) (proj2 Hp) Hi2) as (c & s3 & E3 & Hc & Hq). specialize (Hq H1) as ->.
  destruct Hc as [(_ & HR3 & HD3 & [_ L3] & _)|?]; [|done]. pose proof (later_nil _ _ L3 H1) as H3.
  destruct (quiet_run g Hg ∅ os1 s3 _ HR3 HD3 H3 Ho1) as (s4 & E4 & HR4 & HD4 & H4).
  eexists s3, _, s4. split_and!; [done..|]. intros s5 Hi5. pose proof (id_disk _ _ Hi5) as Hd5.
  destruct (reboot g Hg ∅ s4 _ fs s5 HR4 HD4) as (c & s6 & E6 & Hc & Hq); [by apply spec_run_names|done|by rewrite Hd5|by rewrite Hd5|].
  rewrite Hd5 in Hq, Hc. specialize (Hq H4) as ->. destruct Hc as [(_ & HR6 & HD6 & [_ L6] & _)|?]; [|done].
  destruct (quiet_run g Hg ∅ os2 s6 _ HR6 HD6 (later_nil _ _ L6 H4) Ho2) as (s7 & E7 & _).
  eexists s6, _, s7. split_and!; [done..|]. by rewrite spec_run_app.
Qed.
