(* ===== verification/DsMsg.v ===== *)
(** The messages of a data server: message/serialization.h, Message.h, Message.cpp,
    ClientMessage.cpp, DsMessage.cpp and NsMessage.cpp.

    A message is a struct that inherits the fields of [message_base]; here it is a
    function from the names of fields to their values.  What a new object holds before
    it is filled in may be anything. *)
From stdpp Require Import functions.
From S2P Require Import Prelude Bytes Bitmap DsFile DsBlock.

Definition GV_SUCCESS := 0.
Definition GV_ERROR := -1.
Definition INT_SIZE := 4.
Definition INT64_SIZE := 8.

(** Message types and return codes of Message.h. *)
Definition CLIENT_PUT := 0x0101.
Definition CLIENT_GET := 0x0102.
Definition DS_BACKUP_CHUNK_PUSH := 0x0103.
Definition DS_REGISTER := 0x0001.
Definition NS_COMMAND_CHUNK_DEL := 0x0005.
Definition NS_COMMAND_CHUNK_DEL_OK := 0x0006.
Definition NS_COMMAND_CHUNK_BACKUP := 0x0007.
Definition NS_COMMAND_CHUNK_BACKUP_OK := 0x0008.
Definition DS_HEARTBEAT := 0x0009.
Definition PUTOK := 200.
Definition GETOK := 200.
Definition PUTERROR := 400.
Definition GETERROR := 400.
Definition NOTFOUND := 404.
Definition INTERNALERROR := 500.

(** The fields; [F_ip] and [F_port] are those of the elements of [address], whose four
    bytes [ip] are read and written as one integer. *)
Inductive fld :=
  | F_length | F_request_id | F_type | F_encrypt
  | F_fileid | F_chunkid | F_start | F_end | F_backup_dataservernum | F_ip (i : nat) | F_port (i : nat)
  | F_retcode | F_blocksize
  | F_servicetype | F_dataserverid | F_diskfree | F_diskcapacity | F_localport | F_loadweight | F_endflag
  | F_src_ip | F_src_port | F_dst_ip | F_dst_port.
#[export] Instance fld_eq_dec : EqDecision fld.
Proof. solve_decision. Defined.
Definition msg : Type := fld → Z.

(** ** Writing into a block *)

Record wbuf := WBuf { wb_data : bytes; wb_pos : Z }.
Local Abbreviation WM := (M wbuf).

(** [data[pos++] = b] *)
Definition put_byte (b : Z) : WM unit :=
  s ← get;
  if wb_pos s <? 0 then ub else
  d ← lift (st_bytes (Z.to_nat (wb_pos s)) [b] (wb_data s));
  put (WBuf d (wb_pos s + 1)).
(** The bytes of a value, the highest first. *)
Fixpoint put_be (n : nat) (value : Z) : WM unit :=
  match n with
  | O => mret tt
  | S n => put_byte (Z.land (Z.shiftr value (8 * Z.of_nat n)) 255);; put_be n value
  end.
Definition room (data_len pos n : Z) : Z :=
  if (n <=? data_len - pos) && (0 <=? pos) then GV_SUCCESS else GV_ERROR.

Definition set_int32 (data_len value : Z) : WM Z :=
  s ← get;
  let iret := room data_len (wb_pos s) INT_SIZE in
  if iret =? GV_SUCCESS then put_be 4 value;; mret iret else mret iret.
(** The test is missing here: the bytes are written in any case. *)
Definition set_int64 (data_len value : Z) : WM Z :=
  s ← get;
  let iret := room data_len (wb_pos s) INT64_SIZE in
  put_be 8 value;; mret iret.

(** ** Reading from a block *)

Record rbuf := RBuf { rb_pos : Z; rb_msg : msg }.
Local Abbreviation RM := (M rbuf).

Definition get_byte (data : bytes) : RM Z :=
  s ← get;
  if rb_pos s <? 0 then ub else
  b ← lift (data !! Z.to_nat (rb_pos s));
  put (RBuf (rb_pos s + 1) (rb_msg s));; mret b.
(** [value <<= 8; value |= data[tmp++]], [n] times, in a type that wraps. *)
Fixpoint get_be (wrap : Z → Z) (data : bytes) (n : nat) (value : Z) : RM Z :=
  match n with
  | O => mret value
  | S n => b ← get_byte data; get_be wrap data n (wrap (Z.lor (Z.shiftl value 8) b))
  end.
Definition get_int (wrap : Z → Z) (n : nat) (data : bytes) (data_len : Z) (f : fld) : RM Z :=
  s ← get;
  let iret := room data_len (rb_pos s) (Z.of_nat n) in
  if negb (iret =? GV_SUCCESS) then mret iret else
  v ← get_be wrap data n 0;
  modify (λ s, RBuf (rb_pos s) (<[f := v]> (rb_msg s)));; mret iret.
Definition get_int32 : bytes → Z → fld → RM Z := get_int i32 4.
Definition get_int64 : bytes → Z → fld → RM Z := get_int i64 8.

(** ** Messages

    Each [serialize] and each [deserialize] goes through a list of fields and stops at
    the first that fails.  An address takes 16 bytes, of which the first four are
    used. *)

Inductive fkind := I32 | I64 | IP4.
Abbreviation layout := (list (fkind * fld)).

Definition set_field (data_len : Z) (m : msg) (k : fkind * fld) : WM Z :=
  match k with
  | (I32, f) => set_int32 data_len (m f)
  | (I64, f) => set_int64 data_len (m f)
  | (IP4, f) => r ← set_int32 data_len (m f); modify (λ s, WBuf (wb_data s) (wb_pos s + 12));; mret r
  end.
Fixpoint set_fields (data_len : Z) (m : msg) (ks : layout) : WM Z :=
  match ks with
  | [] => mret GV_SUCCESS
  | k :: ks => iret ← set_field data_len m k; if iret =? GV_SUCCESS then set_fields data_len m ks else mret iret
  end.
Definition get_field (data : bytes) (data_len : Z) (k : fkind * fld) : RM Z :=
  match k with
  | (I32, f) => get_int32 data data_len f
  | (I64, f) => get_int64 data data_len f
  | (IP4, f) => r ← get_int32 data data_len f; modify (λ s, RBuf (rb_pos s + 12) (rb_msg s));; mret r
  end.
Fixpoint get_fields (data : bytes) (data_len : Z) (ks : layout) : RM Z :=
  match ks with
  | [] => mret GV_SUCCESS
  | k :: ks => iret ← get_field data data_len k; if iret =? GV_SUCCESS then get_fields data data_len ks else mret iret
  end.

Definition base_fields : layout := [(I32, F_length); (I32, F_request_id); (I32, F_type); (I32, F_encrypt)].
(** The difference is compared with a [size_t]. *)
Definition message_base_serialize (data_len : Z) (m : msg) : WM Z :=
  s ← get; if u64 (data_len - wb_pos s) <? 16 then mret GV_ERROR else set_fields data_len m base_fields.
Definition message_base_deserialize (data : bytes) (data_len : Z) : RM Z :=
  s ← get; if u64 (data_len - rb_pos s) <? 16 then mret GV_ERROR else get_fields data data_len base_fields.
Definition serialize (ks : layout) (data_len : Z) (m : msg) : WM Z :=
  iret ← message_base_serialize data_len m; if iret =? GV_SUCCESS then set_fields data_len m ks else mret iret.
Definition deserialize (ks : layout) (data : bytes) (data_len : Z) : RM Z :=
  iret ← message_base_deserialize data data_len; if iret =? GV_SUCCESS then get_fields data data_len ks else mret iret.

Definition ClientGet_fields : layout := [(I64, F_fileid); (I32, F_chunkid); (I32, F_start); (I32, F_end)].
Definition ClientGet_serialize := serialize ClientGet_fields.
Definition ClientGet_deserialize := deserialize ClientGet_fields.

Definition ClientPut_head : layout := ClientGet_fields ++ [(I32, F_backup_dataservernum)].
Definition address_fields (num : Z) : layout := seq 0 (Z.to_nat num) ≫= λ i, [(IP4, F_ip i); (I32, F_port i)].
Definition ClientPut_serialize (data_len : Z) (m : msg) : WM Z :=
  serialize (ClientPut_head ++ address_fields (m F_backup_dataservernum)) data_len m.
Definition ClientPut_deserializehead := deserialize ClientPut_head.
Definition ClientPut_deserialize (data : bytes) (data_len : Z) : RM Z :=
  iret ← ClientPut_deserializehead data data_len;
  if negb (iret =? GV_SUCCESS) then mret iret else
  s ← get; get_fields data data_len (address_fields (rb_msg s F_backup_dataservernum)).

Definition ClientPutRes_fields : layout := [(I32, F_retcode)].
Definition ClientPutRes_serialize := serialize ClientPutRes_fields.
Definition ClientPutRes_deserialize := deserialize ClientPutRes_fields.

Definition DsPush_fields : layout := [(I64, F_fileid); (I32, F_chunkid); (I32, F_blocksize)].
Definition DsPush_serialize := serialize DsPush_fields.
Definition DsPush_deserialize := deserialize DsPush_fields.
Definition DsPushRes_serialize := serialize [(I32, F_retcode)].
Definition DsPushRes_deserialize := deserialize [(I32, F_retcode)].

(** Most messages to the name service end in [endflag], which is not read. *)
Definition DsRegister_fields : layout :=
  [(I32, F_servicetype); (I32, F_dataserverid); (I64, F_diskfree); (I64, F_diskcapacity); (I32, F_localport)].
Definition DsRegister_serialize := serialize (DsRegister_fields ++ [(I32, F_endflag)]).
Definition DsRegister_deserialize := deserialize DsRegister_fields.
Definition DsRegisterRes_fields : layout := [(I32, F_retcode); (I32, F_blocksize)].
Definition DsRegisterRes_serialize := serialize (DsRegisterRes_fields ++ [(I32, F_endflag)]).
Definition DsRegisterRes_deserialize := deserialize DsRegisterRes_fields.
Definition DeleteCommand_fields : layout := [(I64, F_fileid); (I32, F_chunkid)].
Definition DeleteCommand_serialize := serialize (DeleteCommand_fields ++ [(I32, F_endflag)]).
Definition DeleteCommand_deserialize := deserialize DeleteCommand_fields.
Definition DeleteCommandRes_fields : layout := [(I64, F_fileid); (I32, F_chunkid); (I64, F_diskfree)].
Definition DeleteCommandRes_serialize := serialize (DeleteCommandRes_fields ++ [(I32, F_endflag)]).
Definition DeleteCommandRes_deserialize := deserialize DeleteCommandRes_fields.
Definition BackupCommand_fields : layout :=
  [(I64, F_fileid); (I32, F_chunkid); (IP4, F_src_ip); (I32, F_src_port); (IP4, F_dst_ip); (I32, F_dst_port)].
Definition BackupCommand_serialize := serialize (BackupCommand_fields ++ [(I32, F_endflag)]).
Definition BackupCommand_deserialize := deserialize BackupCommand_fields.
Definition BackupCommandRes_fields : layout :=
  [(I32, F_dataserverid); (I64, F_fileid); (I32, F_chunkid); (I64, F_diskfree)].
Definition BackupCommandRes_serialize := serialize (BackupCommandRes_fields ++ [(I32, F_endflag)]).
Definition BackupCommandRes_deserialize := deserialize BackupCommandRes_fields.
Definition DsHeartBeat_fields : layout := [(I32, F_servicetype); (I32, F_loadweight)].
Definition DsHeartBeat_serialize := serialize (DsHeartBeat_fields ++ [(I32, F_endflag)]).
Definition DsHeartBeat_deserialize := deserialize DsHeartBeat_fields.

(** [GetRequestLen] and [GetRequestType] of a receive buffer. *)
Definition GetRequestLen (b : bytes) : option Z := (λ v, i32 (ntohl v)) <$> ld32 0 b.
Definition GetRequestType (b : bytes) : option Z := (λ v, i32 (ntohl v)) <$> ld32 8 b.

(** ** Big-endian integers *)

Lemma u64_mod z : u64 z = z `mod` 2 ^ 64. Proof. done. Qed.
Lemma i64_range z : - 2 ^ 63 ≤ i64 z < 2 ^ 63.
Proof. unfold i64. pose proof (u64_range z). destruct (Z.ltb_spec (u64 z) (2 ^ 63)); lia. Qed.
Lemma i64_fits z : - 2 ^ 63 ≤ z < 2 ^ 63 → i64 z = z.
Proof.
  intros H. unfold i64, u64. destruct (decide (0 ≤ z)).
  - rewrite Z.mod_small by lia. destruct (Z.ltb_spec z (2 ^ 63)); lia.
  - rewrite <- (Z.mod_add z 1), Z.mod_small by lia. destruct (Z.ltb_spec (z + 1 * 2 ^ 64) (2 ^ 63)); lia.
Qed.
Lemma i32_eqm a b : a `mod` 2 ^ 32 = b `mod` 2 ^ 32 → i32 a = i32 b.
Proof. unfold i32, u32. by intros ->. Qed.
Lemma i64_eqm a b : a `mod` 2 ^ 64 = b `mod` 2 ^ 64 → i64 a = i64 b.
Proof. unfold i64, u64. by intros ->. Qed.

(** A wrapping that only looks at the value modulo a power of two. *)
Record wraps (wrap : Z → Z) (w : Z) : Prop := Wraps {
  wr_width : 0 < w; wr_mod : ∀ a b, a `mod` 2 ^ w = b `mod` 2 ^ w → wrap a = wrap b;
  wr_val : ∀ a, wrap a `mod` 2 ^ w = a `mod` 2 ^ w }.
Lemma wraps_i32 : wraps i32 32.
Proof.
  split; [done|apply i32_eqm|]. intros a. unfold i32, u32. case_match; [by rewrite Z.mod_mod|].
  rewrite <- (Z.mod_add _ 1) by done. rewrite Z.mul_1_l, Z.sub_add. by rewrite Z.mod_mod.
Qed.
Lemma wraps_i64 : wraps i64 64.
Proof.
  split; [done|apply i64_eqm|]. intros a. unfold i64, u64. case_match; [by rewrite Z.mod_mod|].
  rewrite <- (Z.mod_add _ 1) by done. rewrite Z.mul_1_l, Z.sub_add. by rewrite Z.mod_mod.
Qed.

Lemma lor_shl8 a b : is_byte b → Z.lor (Z.shiftl a 8) b = 256 * a + b.
Proof.
  intros Hb. unfold is_byte in Hb. rewrite Z.shiftl_mul_pow2 by lia.
  pose proof (Z.add_lor_land (a * 2 ^ 8) b). enough (Z.land (a * 2 ^ 8) b = 0) by lia. apply Z.bits_inj'. intros n Hn.
  rewrite Z.land_spec, Z.bits_0. destruct (Z.ltb_spec n 8).
  - by rewrite Z.mul_pow2_bits_low by lia.
  - rewrite (Z.bits_above_log2 b n), andb_false_r; [done|lia|]. destruct (decide (b = 0)) as [->|]; [simpl; lia|].
    apply Z.log2_lt_pow2; [lia|]. assert (2 ^ 8 ≤ 2 ^ n) by (apply Z.pow_le_mono_r; lia). lia.
Qed.
Lemma land255 v : Z.land v 255 = v `mod` 256.
Proof. change 255 with (Z.ones 8). by rewrite Z.land_ones. Qed.

(** The value of bytes, highest first, behind a value. *)
Definition be_from (acc : Z) (l : bytes) : Z := foldl (λ a b, 256 * a + b) acc l.
Lemma be_from_val acc l : be_from acc l = acc * 256 ^ Z.of_nat (length l) + be_val l.
Proof.
  unfold be_val. revert acc. induction l as [|b l IH] using rev_ind; intros acc; [simpl; lia|].
  unfold be_from in *. rewrite foldl_snoc, IH, rev_unit, length_app, Nat2Z.inj_add, Z.pow_add_r by lia. simpl. lia.
Qed.
Lemma be_bytes_cons n v : be_bytes (S n) v = Z.land (Z.shiftr v (8 * Z.of_nat n)) 255 :: be_bytes n v.
Proof.
  unfold be_bytes. rewrite land255, Z.shiftr_div_pow2, Z.pow_mul_r by lia. change (2 ^ 8) with 256.
  revert v. induction n as [|n IH]; intros v.
  - simpl. by rewrite Z.div_1_r.
  - cbn [le_bytes rev] in IH |- *. rewrite (IH (v `div` 256)). cbn [app]. f_equal. f_equal.
    rewrite Nat2Z.inj_succ, Z.pow_succ_r, <- Z.div_div by lia. done.
Qed.

Lemma get_be_run wrap w data pre l post v pos m :
  wraps wrap w → data = pre ++ l ++ post → pos = Z.of_nat (length pre) → is_bytes l → wrap v = v →
  get_be wrap data (length l) v (RBuf pos m) = Some (wrap (be_from v l), RBuf (pos + Z.of_nat (length l)) m).
Proof.
  intros Hw -> -> Hl. revert pre v. induction Hl as [|b l Hb Hl IH]; intros pre v Hv.
  - cbn [get_be length be_from foldl]. rewrite Z.add_0_r, Hv. done.
  - cbn [length get_be]. unfold get_byte at 1. M_unfold. cbn [rb_pos]. destruct (Z.ltb_spec (Z.of_nat (length pre)) 0) as [?|_]; [lia|].
    unfold lift. rewrite Nat2Z.id, lookup_app_r, Nat.sub_diag by done. cbn [app lookup list_lookup rb_pos rb_msg mbind option_bind].
    rewrite lor_shl8 by done. replace (Z.of_nat (length pre) + 1) with (Z.of_nat (length (pre ++ [b]))) by (rewrite length_app; simpl; lia).
    change ((pre ++ b :: l ++ post)) with (pre ++ [b] ++ l ++ post). rewrite app_assoc, IH.
    + rewrite length_app. do 2 f_equal; [|f_equal; simpl; lia]. cbn [be_from foldl]. change (foldl _ ?a l) with (be_from a l).
      rewrite !be_from_val. apply Hw. rewrite <- (Z.add_mod_idemp_l _ _ (2 ^ w)), <- (Z.mul_mod_idemp_l (wrap _)) by (apply Z.pow_nonzero; destruct Hw; lia).
      by rewrite (wr_val _ _ Hw), Z.mul_mod_idemp_l, Z.add_mod_idemp_l by (apply Z.pow_nonzero; destruct Hw; lia).
    + apply Hw, Hw.
Qed.
Lemma put_be_run n v pre old post pos :
  length old = n → pos = Z.of_nat (length pre) →
  put_be n v (WBuf (pre ++ old ++ post) pos) = Some (tt, WBuf (pre ++ be_bytes n v ++ post) (pos + Z.of_nat n)).
Proof.
  intros Ho ->. revert pre old Ho. induction n as [|n IH]; intros pre old Ho.
  - destruct old; [|done]. cbn [put_be app]. rewrite Z.add_0_r. by cbn [be_bytes le_bytes rev app].
  - destruct old as [|o old]; [done|]. injection Ho as Ho. cbn [put_be]. rewrite be_bytes_cons. unfold put_byte at 1. M_unfold. cbn [wb_pos wb_data].
    destruct (Z.ltb_spec (Z.of_nat (length pre)) 0) as [?|_]; [lia|]. unfold lift. rewrite Nat2Z.id.
    rewrite (st_bytes_mid pre [o] _ (old ++ post)) by done. cbn [mbind option_bind].
    replace (Z.of_nat (length pre) + 1) with (Z.of_nat (length (pre ++ [Z.land (v ≫ (8 * Z.of_nat n)) 255]))) by (rewrite length_app; simpl; lia).
    rewrite (app_assoc pre), IH by done. rewrite length_app, <- app_assoc. do 3 f_equal. cbn [length]. lia.
Qed.

(** ** Messages on the wire *)

Definition ksize (k : fkind * fld) : nat := match k.1 with I32 => 4 | I64 => 8 | IP4 => 16 end.
Definition lsize (ks : layout) : nat := sum_list (ksize <$> ks).

Inductive wire (m : msg) : layout → bytes → Prop :=
  | wire_nil : wire m [] []
  | wire_i32 f ks b : wire m ks b → wire m ((I32, f) :: ks) (be_bytes 4 (m f) ++ b)
  | wire_i64 f ks b : wire m ks b → wire m ((I64, f) :: ks) (be_bytes 8 (m f) ++ b)
  | wire_ip4 f gap ks b : length gap = 12%nat → wire m ks b → wire m ((IP4, f) :: ks) (be_bytes 4 (m f) ++ gap ++ b).

Lemma wire_length m ks b : wire m ks b → length b = lsize ks.
Proof.
  unfold lsize. induction 1; cbn [fmap list_fmap sum_list sum_list_with foldr]; rewrite ?length_app, ?be_bytes_length; simpl in *; lia.
Qed.
Lemma wire_app m ks1 ks2 b1 b2 : wire m ks1 b1 → wire m ks2 b2 → wire m (ks1 ++ ks2) (b1 ++ b2).
Proof. intros H1 H2. induction H1; cbn [app]; rewrite <- ?app_assoc; by try constructor. Qed.
Lemma wire_app_inv m ks1 ks2 b : wire m (ks1 ++ ks2) b → ∃ b1 b2, b = b1 ++ b2 ∧ wire m ks1 b1 ∧ wire m ks2 b2.
Proof.
  revert b. induction ks1 as [|k ks1 IH]; intros b H; cbn [app] in H.
  - exists [], b. by split_and!; [|constructor|].
  - inversion H as [|f ks b' H'|f ks b' H'|f gap ks b' Hg H']; subst; destruct (IH _ H') as (b1 & b2 & -> & ? & ?).
    all: eexists _, b2; split_and!; [|by constructor|done]; by rewrite <- ?app_assoc.
Qed.
Lemma lsize_app ks1 ks2 : lsize (ks1 ++ ks2) = (lsize ks1 + lsize ks2)%nat.
Proof. unfold lsize. by rewrite fmap_app, sum_list_with_app. Qed.

(** The struct [m0] with the fields of a layout as in [m]. *)
Definition filled (ks : layout) (m m0 : msg) : msg := foldl (λ m0 k, <[k.2 := m k.2]> m0) m0 ks.
Lemma filled_at ks m m0 f : filled ks m m0 f = if bool_decide (f ∈ ks.*2) then m f else m0 f.
Proof.
  unfold filled. revert m0. induction ks as [|[k f'] ks IH]; intros m0; [done|]. cbn [foldl fmap list_fmap snd]. rewrite IH.
  destruct (decide (f ∈ ks.*2)) as [Hin|Hin].
  - by rewrite !bool_decide_true by (rewrite ?elem_of_cons; auto).
  - rewrite (bool_decide_false (f ∈ ks.*2)) by done. destruct (decide (f = f')) as [->|Hne].
    + rewrite bool_decide_true by left. apply fn_lookup_insert.
    + rewrite bool_decide_false by (rewrite elem_of_cons; tauto). by apply fn_lookup_insert_ne.
Qed.

Definition is_i64 (z : Z) : Prop := - 2 ^ 63 ≤ z < 2 ^ 63.
Definition kind_ok (m : msg) (k : fkind * fld) : Prop := match k.1 with I64 => is_i64 (m k.2) | _ => is_i32 (m k.2) end.

Lemma room_ok dl pos n : 0 ≤ pos → pos + n ≤ dl → room dl pos n = GV_SUCCESS.
Proof. intros ??. unfold room. destruct (Z.leb_spec n (dl - pos)), (Z.leb_spec 0 pos); done || lia. Qed.
Lemma get_int_run wrap w n data pre v post dl f m :
  wraps wrap w → w = 8 * Z.of_nat n → data = pre ++ be_bytes n v ++ post → Z.of_nat (length pre + n) ≤ dl → wrap v = v → wrap 0 = 0 →
  get_int wrap n data dl f (RBuf (Z.of_nat (length pre)) m) =
    Some (GV_SUCCESS, RBuf (Z.of_nat (length pre + n)) (<[f := v]> m)).
Proof.
  intros Hw Hn Hd Hdl Hv H0. unfold get_int. M_unfold. cbn [rb_pos]. rewrite room_ok by lia. cbn [negb Z.eqb GV_SUCCESS].
  pose proof (get_be_run wrap w data pre (be_bytes n v) post 0 _ m Hw Hd eq_refl ltac:(apply Forall_rev, le_bytes_is) H0) as E.
  rewrite be_bytes_length in E. rewrite E. cbn [rb_pos rb_msg]. rewrite Nat2Z.inj_add. do 4 f_equal.
  rewrite be_from_val, be_val_bytes, be_bytes_length. cbn [Z.mul Z.add]. rewrite <- Hv at 2. apply Hw. rewrite Hn, Z.pow_mul_r by lia.
  change (2 ^ 8) with 256. apply Z.mod_mod, Z.pow_nonzero; lia.
Qed.
Lemma get_int32_run data pre v post dl f m :
  data = pre ++ be_bytes 4 v ++ post → Z.of_nat (length pre + 4) ≤ dl → is_i32 v →
  get_int32 data dl f (RBuf (Z.of_nat (length pre)) m) = Some (GV_SUCCESS, RBuf (Z.of_nat (length pre + 4)) (<[f := v]> m)).
Proof. intros. by eapply get_int_run; [apply wraps_i32|..|apply i32_small|]. Qed.
Lemma get_int64_run data pre v post dl f m :
  data = pre ++ be_bytes 8 v ++ post → Z.of_nat (length pre + 8) ≤ dl → is_i64 v →
  get_int64 data dl f (RBuf (Z.of_nat (length pre)) m) = Some (GV_SUCCESS, RBuf (Z.of_nat (length pre + 8)) (<[f := v]> m)).
Proof. intros. by eapply get_int_run; [apply wraps_i64|..|apply i64_fits|]. Qed.

Lemma get_fields_run data dl m ks b pre post m0 :
  wire m ks b → data = pre ++ b ++ post → Z.of_nat (length pre + length b) ≤ dl → Forall (kind_ok m) ks →
  get_fields data dl ks (RBuf (Z.of_nat (length pre)) m0) =
    Some (GV_SUCCESS, RBuf (Z.of_nat (length pre + length b)) (filled ks m m0)).
Proof.
  intros Hw. revert pre m0. induction Hw as [|f ks b Hw IH|f ks b Hw IH|f gap ks b Hg Hw IH]; intros pre m0 Hd Hdl Hk.
  { cbn [get_fields length]. by rewrite Nat.add_0_r. }
  all: apply Forall_cons in Hk as [Hf Hk]; rewrite !length_app, be_bytes_length in Hdl; rewrite <- ?app_assoc in Hd;
    cbn [get_fields get_field]; unfold kind_ok in Hf; cbn [fst snd] in Hf.
  - rewrite (M_bind_Some _ _ _ _ _ (get_int32_run _ _ _ _ dl f m0 Hd ltac:(lia) Hf)). cbn [Z.eqb GV_SUCCESS].
    specialize (IH (pre ++ be_bytes 4 (m f)) (<[f := m f]> m0)). rewrite !length_app, be_bytes_length in IH |- *.
    rewrite IH; [by rewrite Nat.add_assoc|by rewrite <- app_assoc|lia|done].
  - rewrite (M_bind_Some _ _ _ _ _ (get_int64_run _ _ _ _ dl f m0 Hd ltac:(lia) Hf)). cbn [Z.eqb GV_SUCCESS].
    specialize (IH (pre ++ be_bytes 8 (m f)) (<[f := m f]> m0)). rewrite !length_app, be_bytes_length in IH |- *.
    rewrite IH; [by rewrite Nat.add_assoc|by rewrite <- app_assoc|lia|done].
  - rewrite M_bind_assoc, (M_bind_Some _ _ _ _ _ (get_int32_run _ _ _ _ dl f m0 Hd ltac:(lia) Hf)).
    specialize (IH (pre ++ be_bytes 4 (m f) ++ gap) (<[f := m f]> m0)). rewrite !length_app, be_bytes_length, Hg in IH |- *.
    M_unfold. cbn [Z.eqb GV_SUCCESS rb_pos rb_msg]. replace (Z.of_nat (length pre + 4) + 12) with (Z.of_nat (length pre + (4 + 12))) by lia.
    rewrite IH; [do 3 f_equal; lia|by rewrite <- !app_assoc|lia|done].
Qed.

Lemma set_int32_run dl v pre old post :
  length old = 4%nat → Z.of_nat (length pre + 4) ≤ dl →
  set_int32 dl v (WBuf (pre ++ old ++ post) (Z.of_nat (length pre))) =
    Some (GV_SUCCESS, WBuf (pre ++ be_bytes 4 v ++ post) (Z.of_nat (length pre + 4))).
Proof.
  intros Ho Hdl. unfold set_int32. M_unfold. cbn [wb_pos]. unfold INT_SIZE. rewrite room_ok by lia. cbn [Z.eqb GV_SUCCESS].
  rewrite (put_be_run 4 v pre old post) by done. by rewrite Nat2Z.inj_add.
Qed.
Lemma set_int64_run dl v pre old post :
  length old = 8%nat → Z.of_nat (length pre + 8) ≤ dl →
  set_int64 dl v (WBuf (pre ++ old ++ post) (Z.of_nat (length pre))) =
    Some (GV_SUCCESS, WBuf (pre ++ be_bytes 8 v ++ post) (Z.of_nat (length pre + 8))).
Proof.
  intros Ho Hdl. unfold set_int64. M_unfold. cbn [wb_pos]. unfold INT64_SIZE. rewrite room_ok by lia.
  rewrite (put_be_run 8 v pre old post) by done. by rewrite Nat2Z.inj_add.
Qed.
Lemma set_fields_run dl m ks pre old post :
  length old = lsize ks → Z.of_nat (length pre + length old) ≤ dl → ∃ b, wire m ks b ∧
  set_fields dl m ks (WBuf (pre ++ old ++ post) (Z.of_nat (length pre))) =
    Some (GV_SUCCESS, WBuf (pre ++ b ++ post) (Z.of_nat (length pre + lsize ks))).
Proof.
  revert pre old. induction ks as [|[k f] ks IH]; intros pre old Ho Hdl.
  { exists []. destruct old; [|done]. split; [constructor|]. cbn. by rewrite Nat.add_0_r. }
  change (lsize ((k, f) :: ks)) with (ksize (k, f) + lsize ks)%nat in Ho |- *.
  destruct k; unfold ksize in Ho |- *; cbn [fst] in Ho |- *; cbn [set_fields set_field].
  - rewrite <- (take_drop 4 old) in Ho, Hdl |- *. rewrite length_app in Ho, Hdl.
    assert (length (take 4 old) = 4%nat) as H4 by (rewrite length_take in *; rewrite length_drop in *; lia).
    rewrite <- app_assoc, (M_bind_Some _ _ _ _ _ (set_int32_run dl (m f) pre _ _ H4 ltac:(lia))). cbn [Z.eqb GV_SUCCESS].
    destruct (IH (pre ++ be_bytes 4 (m f)) (drop 4 old)) as (b & Hb & E); [lia|rewrite length_app, be_bytes_length; lia|].
    rewrite <- !app_assoc, !length_app, be_bytes_length in E. exists (be_bytes 4 (m f) ++ b). split; [by constructor|].
    rewrite E, <- app_assoc. by rewrite Nat.add_assoc.
  - rewrite <- (take_drop 8 old) in Ho, Hdl |- *. rewrite length_app in Ho, Hdl.
    assert (length (take 8 old) = 8%nat) as H8 by (rewrite length_take in *; rewrite length_drop in *; lia).
    rewrite <- app_assoc, (M_bind_Some _ _ _ _ _ (set_int64_run dl (m f) pre _ _ H8 ltac:(lia))). cbn [Z.eqb GV_SUCCESS].
    destruct (IH (pre ++ be_bytes 8 (m f)) (drop 8 old)) as (b & Hb & E); [lia|rewrite length_app, be_bytes_length; lia|].
    rewrite <- !app_assoc, !length_app, be_bytes_length in E. exists (be_bytes 8 (m f) ++ b). split; [by constructor|].
    rewrite E, <- app_assoc. by rewrite Nat.add_assoc.
  - rewrite <- (take_drop 4 old), <- (take_drop 12 (drop 4 old)) in Ho, Hdl |- *. rewrite drop_drop in *. rewrite !length_app in Ho, Hdl.
    assert (length (take 4 old) = 4%nat ∧ length (take 12 (drop 4 old)) = 12%nat) as [H4 H12].
    { rewrite !length_take in *. rewrite !length_drop in *. lia. }
    rewrite <- !app_assoc, M_bind_assoc, (M_bind_Some _ _ _ _ _ (set_int32_run dl (m f) pre _ _ H4 ltac:(lia))).
    destruct (IH (pre ++ be_bytes 4 (m f) ++ take 12 (drop 4 old)) (drop (4 + 12) old)) as (b & Hb & E); [lia|rewrite !length_app, be_bytes_length; lia|].
    rewrite <- !app_assoc, !length_app, be_bytes_length, H12 in E. exists (be_bytes 4 (m f) ++ take 12 (drop 4 old) ++ b). split; [by constructor|].
    M_unfold. cbn [Z.eqb GV_SUCCESS wb_pos wb_data]. replace (Z.of_nat (length pre + 4) + 12) with (Z.of_nat (length pre + (4 + 12))) by lia.
    rewrite E, <- !app_assoc. do 3 f_equal. lia.
Qed.

Lemma set_fields_app dl m ks1 ks2 s :
  set_fields dl m (ks1 ++ ks2) s = (r ← set_fields dl m ks1; if r =? GV_SUCCESS then set_fields dl m ks2 else mret r) s.
Proof.
  revert s. induction ks1 as [|k ks1 IH]; intros s; [done|]. cbn [app set_fields]. rewrite !M_bind_assoc.
  unfold mbind, M_bind. destruct (set_field dl m k s) as [[r s1]|]; [|done].
  destruct (r =? GV_SUCCESS) eqn:Hr; [apply IH|]. unfold mret, M_ret. by rewrite Hr.
Qed.
Lemma get_fields_app data dl ks1 ks2 s :
  get_fields data dl (ks1 ++ ks2) s = (r ← get_fields data dl ks1; if r =? GV_SUCCESS then get_fields data dl ks2 else mret r) s.
Proof.
  revert s. induction ks1 as [|k ks1 IH]; intros s; [done|]. cbn [app get_fields]. rewrite !M_bind_assoc.
  unfold mbind, M_bind. destruct (get_field data dl k s) as [[r s1]|]; [|done].
  destruct (r =? GV_SUCCESS) eqn:Hr; [apply IH|]. unfold mret, M_ret. by rewrite Hr.
Qed.
Lemma serialize_fields ks dl m s :
  0 ≤ wb_pos s → wb_pos s + 16 ≤ dl < 2 ^ 63 → serialize ks dl m s = set_fields dl m (base_fields ++ ks) s.
Proof.
  intros ??. rewrite set_fields_app. unfold serialize, message_base_serialize. rewrite M_bind_assoc. M_unfold.
  rewrite u64_small by (unfold is_u64; lia). destruct (Z.ltb_spec (dl - wb_pos s) 16); [lia|done].
Qed.
Lemma deserialize_fields ks data dl s :
  0 ≤ rb_pos s → rb_pos s + 16 ≤ dl < 2 ^ 63 → deserialize ks data dl s = get_fields data dl (base_fields ++ ks) s.
Proof.
  intros ??. rewrite get_fields_app. unfold deserialize, message_base_deserialize. rewrite M_bind_assoc. M_unfold.
  rewrite u64_small by (unfold is_u64; lia). destruct (Z.ltb_spec (dl - rb_pos s) 16); [lia|done].
Qed.

(** Writing a message and reading it. *)
Lemma serialize_run ks dl m old post :
  length old = (16 + lsize ks)%nat → Z.of_nat (length old) ≤ dl < 2 ^ 63 → ∃ b, wire m (base_fields ++ ks) b ∧
  serialize ks dl m (WBuf (old ++ post) 0) = Some (GV_SUCCESS, WBuf (b ++ post) (Z.of_nat (16 + lsize ks))).
Proof.
  intros Ho Hd. rewrite serialize_fields by (cbn [wb_pos]; lia).
  destruct (set_fields_run dl m (base_fields ++ ks) [] old post) as (b & Hb & E); [by rewrite lsize_app|simpl; lia|].
  exists b. split; [done|]. cbn [app length] in E. change (Z.of_nat 0) with 0 in E. by rewrite E, lsize_app.
Qed.
Lemma deserialize_run ks dl m b post m0 :
  wire m (base_fields ++ ks) b → Z.of_nat (length b) ≤ dl < 2 ^ 63 → Forall (kind_ok m) (base_fields ++ ks) →
  deserialize ks (b ++ post) dl (RBuf 0 m0) = Some (GV_SUCCESS, RBuf (Z.of_nat (length b)) (filled (base_fields ++ ks) m m0)).
Proof.
  intros Hb Hd Hk. pose proof (wire_length _ _ _ Hb) as Hl. rewrite lsize_app in Hl. change (lsize base_fields) with 16%nat in Hl.
  rewrite deserialize_fields by (cbn [rb_pos]; lia).
  pose proof (get_fields_run (b ++ post) dl m _ b [] post m0 Hb eq_refl) as E. cbn [app length] in E. change (Z.of_nat 0) with 0 in E. apply E; [lia|done].
Qed.
(** A message without addresses has one image. *)
Fixpoint image (m : msg) (ks : layout) : bytes :=
  match ks with
  | [] => []
  | (I64, f) :: ks => be_bytes 8 (m f) ++ image m ks
  | (_, f) :: ks => be_bytes 4 (m f) ++ image m ks
  end.
Definition plain_fields (ks : layout) : bool := forallb (λ k, match k.1 with IP4 => false | _ => true end) ks.
Lemma wire_image m ks b : plain_fields ks = true → wire m ks b → b = image m ks.
Proof. intros Hp H. induction H; cbn in Hp |- *; [done|by rewrite IHwire..|done]. Qed.
Lemma be_bytes_mod n a b : a `mod` 256 ^ Z.of_nat n = b `mod` 256 ^ Z.of_nat n → be_bytes n a = be_bytes n b.
Proof. intros H. unfold be_bytes. by rewrite <- (le_bytes_mod n a), <- (le_bytes_mod n b), H. Qed.
Lemma be_bytes_i32 z : be_bytes 4 (i32 z) = be_bytes 4 z.
Proof. apply be_bytes_mod, wraps_i32. Qed.
Lemma be_bytes_i64 z : be_bytes 8 (i64 z) = be_bytes 8 z.
Proof. apply be_bytes_mod, wraps_i64. Qed.
Lemma be_bytes_u32 z : be_bytes 4 (u32 z) = be_bytes 4 z.
Proof. apply be_bytes_mod. unfold u32. change (256 ^ Z.of_nat 4) with (2 ^ 32). by rewrite Z.mod_mod. Qed.
Lemma be_bytes_u64 z : be_bytes 8 (u64 z) = be_bytes 8 z.
Proof. apply be_bytes_mod. unfold u64. change (256 ^ Z.of_nat 8) with (2 ^ 64). by rewrite Z.mod_mod. Qed.

Lemma lift_eq {S A B} (o : option A) (f : A → M S B) x s : o = Some x → (lift o ≫= f) s = f x s.
Proof. by intros ->. Qed.

(** A message without addresses at the front of a block. *)
Lemma written ks dl m n b r : (Z.to_nat n = 16 + lsize ks)%nat → 0 ≤ n ≤ dl → dl < 2 ^ 63 → plain_fields ks = true →
  length b = r → (Z.to_nat n ≤ r)%nat →
  serialize ks dl m (WBuf b 0) =
    Some (GV_SUCCESS, WBuf (image m (base_fields ++ ks) ++ drop (Z.to_nat n) b) n) ∧
  length (image m (base_fields ++ ks)) = Z.to_nat n.
Proof.
  intros Hn Hd H63 Hp <- Hr.
  destruct (serialize_run ks dl m (take (Z.to_nat n) b) (drop (Z.to_nat n) b)) as (x & Hx & E);
    [rewrite length_take; lia|rewrite length_take; lia|].
  rewrite take_drop in E. pose proof (wire_length _ _ _ Hx) as Hl. rewrite lsize_app in Hl. change (lsize base_fields) with 16%nat in Hl.
  apply wire_image in Hx as ->; [|by unfold plain_fields in *; rewrite forallb_app, Hp].
  rewrite E, <- Hn, Z2Nat.id by lia. split; [done|lia].
Qed.
