(* ===== verification/DsTask.v ===== *)
(** The tasks of a data server over its block store: src/DSTCPServerSocket.cpp,
    src/DSTCPSession.cpp, src/DSMessageProcess.cpp, src/DSClientPutTask.cpp,
    src/DSPutTask.cpp, src/DSClientGetTask.cpp and src/DSPushTask.cpp, with
    CommonUtilitiesLib/Socket.cpp where they use it.

    A task belongs to one connection and runs when an event arrives.  Sockets do not
    block: a script of outcomes that has run out is [EAGAIN] for a read and a call that
    sends everything for a send.  A task that is made with [new] is put on a list; the
    framework that runs it is not modelled. *)
From stdpp Require Import functions.
From S2P Require Import Prelude Bytes NetBuf Bitmap DsFile DsBlock BlockStore BlockLoad DataMgr DsMsg.

(** What is outside: [malloc] gives an object whose fields hold anything, or nothing;
    [ds_junk] is memory that was never written, [ds_request_id] a field that is never
    set; the preferences of the server; the outcome of connecting. *)
Class DsEnv := {
  ds_malloc : Z → option msg;
  ds_junk : nat → bytes;
  ds_junk_length n : length (ds_junk n) = n;
  ds_request_id : Z;
  ds_server_id : Z;
  ds_local_port : Z }.

(** ** Sockets *)

Definition ENOTCONN := 107.
Definition EINPROGRESS := 115.
Definition OS_NoErr := 0.
Definition kSendBufferLen := 16384.

(** [sk_buf] is [fSendBuffer], of which [sk_off] bytes are sent; [sk_wire] is what the
    peer has been sent. *)
Record sock := Sock {
  sk_conn : bool; sk_in : list recv_res; sk_out : list send_res; sk_buf : bytes; sk_off : nat; sk_wire : bytes }.

(** [recv]: the error, the data, the script, and whether the socket stays connected.
    No bytes mean that the peer has gone, also when none were asked for. *)
Fixpoint os_recv (script : list recv_res) (length_ : nat) : Z * bytes * list recv_res * bool :=
  match length_, script with
  | O, _ => (ENOTCONN, [], script, false)
  | _, [] => (EAGAIN, [], [], true)
  | _, RecvData [] :: _ => (ENOTCONN, [], script, false)
  | _, RecvData l :: script' =>
      (OS_NoErr, take length_ l, match drop length_ l with [] => script' | r => RecvData r :: script' end, true)
  | _, RecvErr e :: script =>
      if e =? EINTR then os_recv script length_
      else (e, [], script, e =? EAGAIN)
  end.
Fixpoint os_send (script : list send_res) (length_ : nat) : Z * nat * list send_res * bool :=
  match script with
  | [] => (OS_NoErr, length_, [], true)
  | SendLen n :: script => (OS_NoErr, Nat.min (Z.to_nat n) length_, script, true)
  | SendErr e :: script => if e =? EINTR then os_send script length_ else (e, O, script, e =? EAGAIN)
  end.

(** [Socket::Read] *)
Definition Reads (length_ : nat) : M sock (Z * bytes) :=
  s ← get;
  if negb (sk_conn s) then mret (ENOTCONN, []) else
  match os_recv (sk_in s) length_ with
  | (err, l, script, c) =>
      put (Sock c script (sk_out s) (sk_buf s) (sk_off s) (sk_wire s));; mret (err, l)
  end.
(** [Socket::Send] of what is left of the buffer. *)
Definition Send_rest : M sock (Z * nat) :=
  s ← get;
  if negb (sk_conn s) then mret (ENOTCONN, O) else
  let left := drop (sk_off s) (sk_buf s) in
  match os_send (sk_out s) (length left) with
  | (err, n, script, c) =>
      put (Sock c (sk_in s) script (sk_buf s) (sk_off s + n) (sk_wire s ++ take n left));; mret (err, n)
  end.
(** The loop of [SendSendBuffer]: each turn but the last sends something. *)
Fixpoint sock_loop (fuel : nat) : M sock Z :=
  match fuel with
  | O => ub
  | S fuel =>
      r ← Send_rest;
      s ← get;
      if (0 <? r.2)%nat && (sk_off s <? length (sk_buf s))%nat then sock_loop fuel else mret r.1
  end.
Definition set_send (b : bytes) (off : nat) (s : sock) : sock :=
  Sock (sk_conn s) (sk_in s) (sk_out s) b off (sk_wire s).
Definition SendSendBuffer : M sock Z :=
  s ← get;
  if (length (sk_buf s) =? 0)%nat then mret OS_NoErr else
  theErr ← sock_loop (S (length (sk_buf s)));
  (if theErr =? OS_NoErr then modify (set_send [] O) else mret tt);; mret theErr.
(** While data wait to be sent, new data are left out: the caller comes back with the
    same ones. *)
Definition Sendall (data : bytes) : M sock Z :=
  s ← get;
  (if (length (sk_buf s) =? 0)%nat then
     if kSendBufferLen <? Z.of_nat (length data) then ub else modify (set_send data (sk_off s))
   else mret tt);;
  SendSendBuffer.

(** ** Tasks *)

Inductive tstate :=
  | kInitial | kRequestReceiving | kRequestProcessing | kDataReceiving | kRequestSending | kDataSending
  | kResponseSending | kResponseReceiving | kTasksessionEnd.
#[export] Instance tstate_eq_dec : EqDecision tstate.
Proof. solve_decision. Defined.
Definition kReqBufSize := 1024.
Definition kDataBufSize := 1024.

(** The answer of a task: the message, whether it was serialized, the packet. *)
Record resp := Resp { re_msg : msg; re_has : bool; re_send : bytes; re_len : nat }.
(** What a task receives: [fRecvBuffer], [fBufferLen], [RecvBlockdataOffset],
    [ContentLen] and [DataRecvLen]. *)
Record rx := Rx { rx_buf : bytes; rx_blen : Z; rx_off : Z; rx_clen : Z; rx_drecv : Z }.
(** A [DSClientPutTask], with room for [pt_cap] addresses behind its request, or a
    [DSPutTask]. *)
Record put_task := PutTask {
  pt_client : bool; pt_req : msg; pt_cap : Z; pt_state : tstate; pt_rx : rx; pt_res : resp }.
Record get_task := GetTask {
  gt_req : msg; gt_state : tstate; gt_res : resp; gt_off : Z; gt_len : Z; gt_busy : bool }.
Record push_task := PushTask {
  ps_ip : Z; ps_port : Z; ps_fileid : Z; ps_chunkid : Z; ps_blocksize : Z; ps_state : tstate; ps_req : resp;
  ps_buf : bytes; ps_blen : nat; ps_off : Z; ps_len : Z; ps_end : Z; ps_need : Z; ps_busy : bool; ps_answer : msg }.

Inductive new_task := NewPut (t : put_task) | NewGet (t : get_task) | NewPush (t : push_task).

(** The process: the block store, [MaxBlockSize], [BadPacketNum], the messages that wait
    for the name service, the tasks that were made, the statistics. *)
Record dsv := Dsv {
  dv_store : bfm; dv_max : Z; dv_bad : Z; dv_queue : list bytes; dv_tasks : list new_task; dv_rcv : Z; dv_snd : Z }.
Definition dv_set_store (b : bfm) (d : dsv) : dsv := Dsv b (dv_max d) (dv_bad d) (dv_queue d) (dv_tasks d) (dv_rcv d) (dv_snd d).
Definition dv_set_max (n : Z) (d : dsv) : dsv := Dsv (dv_store d) n (dv_bad d) (dv_queue d) (dv_tasks d) (dv_rcv d) (dv_snd d).
Definition dv_add_bad (d : dsv) : dsv := Dsv (dv_store d) (dv_max d) (u32 (dv_bad d + 1)) (dv_queue d) (dv_tasks d) (dv_rcv d) (dv_snd d).
Definition dv_enqueue (m : bytes) (d : dsv) : dsv := Dsv (dv_store d) (dv_max d) (dv_bad d) (dv_queue d ++ [m]) (dv_tasks d) (dv_rcv d) (dv_snd d).
Definition dv_spawn (t : new_task) (d : dsv) : dsv := Dsv (dv_store d) (dv_max d) (dv_bad d) (dv_queue d) (dv_tasks d ++ [t]) (dv_rcv d) (dv_snd d).
Definition IncrementRcvBytes (n : Z) (d : dsv) : dsv := Dsv (dv_store d) (dv_max d) (dv_bad d) (dv_queue d) (dv_tasks d) (u32 (dv_rcv d + n)) (dv_snd d).
Definition IncrementSndBytes (n : Z) (d : dsv) : dsv := Dsv (dv_store d) (dv_max d) (dv_bad d) (dv_queue d) (dv_tasks d) (dv_rcv d) (u32 (dv_snd d + n)).
Definition on_store {A} (m : BM_ A) : M dsv A := zoom dv_store dv_set_store m.

(** A task with its process and its socket. *)
Record tsk (T : Type) := Tsk { tk_ds : dsv; tk_sock : sock; tk_self : T }.
Arguments Tsk {T}. Arguments tk_ds {T}. Arguments tk_sock {T}. Arguments tk_self {T}.
Definition on_ds {T A} (m : M dsv A) : M (tsk T) A := zoom tk_ds (λ d t, Tsk d (tk_sock t) (tk_self t)) m.
Definition on_sock {T A} (m : M sock A) : M (tsk T) A := zoom tk_sock (λ k t, Tsk (tk_ds t) k (tk_self t)) m.
Definition self {T} : M (tsk T) T := gets tk_self.
Definition upd_self {T} (f : T → T) : M (tsk T) unit := modify (λ t, Tsk (tk_ds t) (tk_sock t) (f (tk_self t))).

Definition res_code (c : Z) (r : resp) : resp := Resp (<[F_retcode := c]> (re_msg r)) (re_has r) (re_send r) (re_len r).
Definition set_buf (b : bytes) (n : Z) (r : rx) : rx := Rx b n (rx_off r) (rx_clen r) (rx_drecv r).
Definition set_recv (n : Z) (r : rx) : rx := Rx (rx_buf r) (rx_blen r) (rx_off r) (rx_clen r) n.
Definition pt_set_state (st : tstate) (t : put_task) : put_task := PutTask (pt_client t) (pt_req t) (pt_cap t) st (pt_rx t) (pt_res t).
Definition pt_set_rx (f : rx → rx) (t : put_task) : put_task := PutTask (pt_client t) (pt_req t) (pt_cap t) (pt_state t) (f (pt_rx t)) (pt_res t).
Definition pt_set_res (f : resp → resp) (t : put_task) : put_task := PutTask (pt_client t) (pt_req t) (pt_cap t) (pt_state t) (pt_rx t) (f (pt_res t)).
Definition gt_set_state (st : tstate) (t : get_task) : get_task := GetTask (gt_req t) st (gt_res t) (gt_off t) (gt_len t) (gt_busy t).
Definition gt_set_res (f : resp → resp) (t : get_task) : get_task := GetTask (gt_req t) (gt_state t) (f (gt_res t)) (gt_off t) (gt_len t) (gt_busy t).
Definition gt_set_pos (off len : Z) (busy : bool) (t : get_task) : get_task := GetTask (gt_req t) (gt_state t) (gt_res t) off len busy.

Section tasks.
Context `{!DsEnv}.
Local Abbreviation TM T := (M (tsk T)).

(** The message of an answer into its packet. *)
Definition packet (ks : layout) (r : resp) : option (Z * resp) :=
  x ← serialize ks kReqBufSize (re_msg r) (WBuf (re_send r) 0);
  let n := Z.to_nat (wb_pos x.2) in
  Some (x.1, Resp (re_msg r) (re_has r) (wb_data x.2) (if x.1 <? 0 then re_len r else n)).
Definition re_done (r : resp) : resp := Resp (re_msg r) true (re_send r) (re_len r).
Definition re_head (type id len : Z) (r : resp) : resp :=
  Resp (<[F_length := len]> (<[F_request_id := id]> (<[F_type := type]> (re_msg r)))) (re_has r) (re_send r) (re_len r).

(** ** Messages to the name service *)

(** A message is written into a block of its own, which goes to the end of the queue. *)
Definition notify (ks : layout) (len : Z) (m : msg) : M dsv Z :=
  x ← lift (serialize ks len m (WBuf (ds_junk (Z.to_nat len)) 0));
  if x.1 <? 0 then mret (-1) else modify (dv_enqueue (take (Z.to_nat len) (wb_data x.2)));; mret 0.
Definition msg0 : msg := λ _, 0.
Definition notify_ns_backup_ok (fileid chunkid : Z) : M dsv Z :=
  i ← on_store get_ds_filesystem_info;
  notify (BackupCommandRes_fields ++ [(I32, F_endflag)]) 44
    (<[F_length := 44]> (<[F_type := NS_COMMAND_CHUNK_BACKUP_OK]> (<[F_request_id := 0]>
     (<[F_dataserverid := ds_server_id]> (<[F_fileid := fileid]> (<[F_chunkid := chunkid]>
     (<[F_diskfree := Z.shiftr (i64 (i.2 - i.1.2)) 20]> msg0))))))).
Definition notify_ns_del_ok (cmd : msg) : M dsv Z :=
  i ← on_store get_ds_filesystem_info;
  notify (DeleteCommandRes_fields ++ [(I32, F_endflag)]) 40
    (<[F_length := 40]> (<[F_request_id := cmd F_request_id]> (<[F_type := NS_COMMAND_CHUNK_DEL_OK]>
     (<[F_fileid := cmd F_fileid]> (<[F_chunkid := cmd F_chunkid]>
     (<[F_diskfree := Z.shiftr (i64 (i.2 - i.1.2)) 10]> msg0)))))).
(** [packet_dataserver_resgister] and [packet_dataserver_heatbeat] of
    NameServersession.cpp, into the 1024 bytes of [fPacketSend]; the weight comes from
    [calc_load_weight]. *)
Definition packet_dataserver_resgister : M dsv bytes :=
  i ← on_store get_ds_filesystem_info;
  x ← lift (DsRegister_serialize kReqBufSize
    (<[F_type := DS_REGISTER]> (<[F_request_id := 0]> (<[F_length := 48]> (<[F_encrypt := 0]>
     (<[F_servicetype := 1]> (<[F_dataserverid := ds_server_id]>
     (<[F_diskfree := Z.shiftr (i64 (i.2 - i.1.2)) 10]> (<[F_diskcapacity := Z.shiftr i.2 10]>
     (<[F_localport := ds_local_port]> msg0))))))))) (WBuf (ds_junk 1024) 0));
  mret (take 48 (wb_data x.2)).
Definition packet_dataserver_heatbeat (loadweight : Z) : option bytes :=
  x ← DsHeartBeat_serialize kReqBufSize
    (<[F_length := 28]> (<[F_type := DS_HEARTBEAT]> (<[F_request_id := 0]> (<[F_encrypt := 0]>
     (<[F_servicetype := 1]> (<[F_loadweight := loadweight]> msg0)))))) (WBuf (ds_junk 1024) 0);
  Some (take 28 (wb_data x.2)).

(** ** DSClientPutTask and DSPutTask

    The two classes have the same members and the same [ProcessEvent], but for the
    range, the test of the request and the head of the answer. *)

(** The constructors. *)
Definition new_put_task (client : bool) (req : msg) (cap : Z) (data : bytes) (datalen : Z) : put_task :=
  let junk := ds_junk 1025 in
  let buf := if (0 <? datalen) && (datalen <? kDataBufSize) then take (Z.to_nat datalen) data ++ drop (Z.to_nat datalen) junk else junk in
  PutTask client req cap kRequestProcessing (Rx buf (u32 datalen) 0 0 datalen) (Resp msg0 false (ds_junk 1024) O).

Definition put_content (t : put_task) : Z :=
  if pt_client t then i32 (pt_req t F_end - pt_req t F_start + 1) else pt_req t F_blocksize.
Definition put_offset (t : put_task) : Z := if pt_client t then pt_req t F_start else 0.
Definition put_invalid (max : Z) (t : put_task) : bool :=
  let m := pt_req t in
  (m F_fileid <? 0) || (m F_chunkid <? 0) ||
  (if pt_client t then (m F_start <? 0) || (m F_end <? m F_start) || (max <? put_content t) || (max <? put_offset t)
   else (m F_blocksize <? 0) || (max <? put_content t)).

(** [write_raw_data] of what is in the buffer. *)
Definition put_write : TM put_task Z :=
  t ← self;
  let x := pt_rx t in
  if Z.of_nat (length (rx_buf x)) <? rx_blen x then ub else
  on_ds (on_store (write_raw_data (u64 (pt_req t F_fileid)) (u32 (pt_req t F_chunkid)) (rx_off x)
                     (take (Z.to_nat (rx_blen x)) (rx_buf x)))).
Definition put_answer (c : Z) : TM put_task unit := upd_self (λ t, pt_set_state kResponseSending (pt_set_res (res_code c) t)).

Definition put_processing : TM put_task unit :=
  upd_self (λ t, pt_set_rx (λ x, Rx (rx_buf x) (rx_blen x) (put_offset t) (put_content t) (rx_drecv x)) t);;
  t ← self;
  d ← gets tk_ds;
  if put_invalid (dv_max d) t then put_answer PUTERROR else
  if rx_clen (pt_rx t) <=? rx_drecv (pt_rx t) then
    ret ← put_write;
    if ret <? 0 then put_answer INTERNALERROR
    else on_ds (modify (IncrementRcvBytes (rx_drecv (pt_rx t))));; put_answer PUTOK
  else upd_self (pt_set_state kDataReceiving).

(** The part of the loop that receives; [put_receiving] gives the error that leaves
    [ProcessEvent], or nothing. *)
Definition put_flush : TM put_task unit :=
  ret ← put_write;
  (if ret <? 0 then put_answer INTERNALERROR else mret tt);;
  upd_self (pt_set_rx (λ x, Rx (rx_buf x) 0 (i32 (rx_off x + rx_blen x)) (rx_clen x) (rx_drecv x))).
(** What follows a read: data past the largest block end the transfer; a full buffer, or
    the last data, is written. *)
Definition put_check : TM put_task unit :=
  d ← gets tk_ds;
  upd_self (pt_set_rx (λ x, if u32 (dv_max d) <? u32 (rx_off x + rx_blen x) then set_recv (rx_clen x) x else x));;
  t ← self;
  let x := pt_rx t in
  (if (rx_blen x =? kDataBufSize) || (rx_clen x <=? rx_drecv x) then put_flush else mret tt);;
  if rx_clen x <=? rx_drecv x then put_answer PUTOK else mret tt.
Definition put_receiving : TM put_task (option Z) :=
  t ← self;
  let x := pt_rx t in
  if kDataBufSize <? rx_blen x then ub else
  r ← on_sock (Reads (Z.to_nat (kDataBufSize - rx_blen x)));
  if negb (r.1 =? OS_NoErr) then mret (Some r.1) else
  let n := Z.of_nat (length r.2) in
  b ← lift (st_bytes (Z.to_nat (rx_blen x)) r.2 (rx_buf x));
  on_ds (modify (IncrementRcvBytes n));;
  upd_self (pt_set_rx (λ x, set_recv (i32 (rx_drecv x + n)) (set_buf b (rx_blen x + n) x)));;
  put_check;; mret None.

(** [packet_client_put_resp] and [packet_ds_push_resp]. *)
Definition packet_put_resp : TM put_task Z :=
  t ← self;
  let r := if pt_client t then re_head CLIENT_PUT (pt_req t F_request_id) 20 (pt_res t)
           else re_head DS_BACKUP_CHUNK_PUSH ds_request_id 20 (pt_res t) in
  if re_msg r F_retcode =? 0 then upd_self (pt_set_res (λ _, r));; mret (-1) else
  x ← lift (packet [(I32, F_retcode)] r);
  upd_self (pt_set_res (λ _, x.2));;
  mret (if x.1 <? 0 then -1 else 0).
Definition put_pack : TM put_task unit :=
  t ← self;
  if re_has (pt_res t) then mret tt else
  (if re_msg (pt_res t) F_retcode =? PUTOK then
     on_ds (notify_ns_backup_ok (pt_req t F_fileid) (pt_req t F_chunkid));; mret tt
   else mret tt);;
  packet_put_resp;;
  upd_self (pt_set_res re_done).
Definition put_sending : TM put_task Z :=
  put_pack;;
  t ← self;
  on_sock (Sendall (take (re_len (pt_res t)) (re_send (pt_res t)))).

Fixpoint put_process (fuel : nat) : TM put_task Z :=
  match fuel with
  | O => ub
  | S fuel =>
      t ← self;
      (if decide (pt_state t = kRequestProcessing) then put_processing else mret tt);;
      t ← self;
      e ← (if decide (pt_state t = kDataReceiving) then put_receiving else mret None);
      match e with
      | Some err => mret err
      | None =>
          t ← self;
          if decide (pt_state t = kResponseSending) then put_sending else put_process fuel
      end
  end.
Definition ProcessEvent_put (fuel : nat) : TM put_task Z :=
  k ← gets tk_sock; if negb (sk_conn k) then mret (-1) else put_process fuel.

(** The [DSPushTask]s for the copies; the entries of [address] behind the object are not
    there. *)
Definition new_push_task (ip port fileid chunkid start end_ : Z) : push_task :=
  PushTask (u32 ip) (u16 port) fileid chunkid (i32 (end_ - start + 1)) kInitial
    (Resp (<[F_request_id := ds_request_id]> msg0) false (ds_junk 1024) O) (ds_junk 1025) O start 0 end_
    (u32 (end_ - start + 1)) false msg0.
Fixpoint spawn_pushes (n : nat) (i : nat) : TM put_task unit :=
  match n with
  | O => mret tt
  | S n =>
      t ← self;
      let m := pt_req t in
      if pt_cap t <=? Z.of_nat i then ub else
      on_ds (modify (dv_spawn (NewPush (new_push_task (m (F_ip i)) (m (F_port i)) (m F_fileid) (m F_chunkid) (m F_start) (m F_end)))));;
      spawn_pushes n (S i)
  end.

(** [Run]: 0 when the task waits for another event, -1 when it has ended. *)
Definition waits (e : Z) : bool := (e =? EINPROGRESS) || (e =? EAGAIN).
Definition Run_put (stop : bool) (fuel : nat) : TM put_task Z :=
  if stop then mret (-1) else
  theErr ← ProcessEvent_put fuel;
  if waits theErr then mret 0 else
  t ← self;
  (if (theErr =? OS_NoErr) && pt_client t then spawn_pushes (Z.to_nat (pt_req t F_backup_dataservernum)) O else mret tt);;
  mret (-1).

(** ** DSClientGetTask *)

Definition kGetPacketSize := 8192.
Definition new_get_task (req : msg) : get_task :=
  GetTask req kRequestProcessing (Resp msg0 false (ds_junk (Z.to_nat kGetPacketSize)) O) 0 0 false.

Definition get_processing : TM get_task unit :=
  t ← self;
  d ← gets tk_ds;
  let m := gt_req t in
  let bad := (m F_start <? 0) || (m F_end <? m F_start) || (dv_max d <? i32 (m F_end - m F_start + 1)) in
  upd_self (gt_set_res (res_code (if bad then GETERROR else GETOK)));;
  r ← on_ds (on_store (get_block_info (u64 (m F_fileid)) (u32 (m F_chunkid))));
  (if r.1 <? 0 then upd_self (gt_set_res (res_code NOTFOUND)) else mret tt);;
  upd_self (gt_set_state kResponseSending).
Definition packet_client_get_resp : TM get_task Z :=
  t ← self;
  let r := re_head CLIENT_GET (gt_req t F_request_id) 20 (gt_res t) in
  if re_msg r F_retcode =? 0 then upd_self (gt_set_res (λ _, r));; mret (-1) else
  x ← lift (packet [(I32, F_retcode)] r);
  upd_self (gt_set_res (λ _, x.2));;
  mret (if x.1 <? 0 then -1 else 0).
(** Nothing, or what leaves [ProcessEvent]. *)
Definition get_head : TM get_task (option Z) :=
  t ← self;
  (if re_has (gt_res t) then mret tt else packet_client_get_resp;; upd_self (gt_set_res re_done));;
  t ← self;
  theErr ← on_sock (Sendall (take (re_len (gt_res t)) (re_send (gt_res t))));
  if negb (theErr =? OS_NoErr) then mret (Some theErr) else
  if re_msg (gt_res t) F_retcode =? GETOK then
    upd_self (λ t, gt_set_state kDataSending (gt_set_pos (gt_req t F_start) (gt_len t) (gt_busy t) t));; mret None
  else mret (Some theErr).

(** Reading the next piece of the block into the packet: the code of the read.  Some
    bytes may be there when it fails. *)
Definition fill_packet (data : bytes) (r : resp) : resp :=
  Resp (re_msg r) (re_has r) (data ++ drop (length data) (re_send r)) (re_len r).
Definition get_piece : TM get_task Z :=
  t ← self;
  let m := gt_req t in
  let len := if m F_end <? i32 (gt_off t + kGetPacketSize) then i32 (m F_end - gt_off t + 1) else kGetPacketSize in
  r ← on_ds (on_store (read_raw_data (u64 (m F_fileid)) (u32 (m F_chunkid)) (gt_off t) len));
  upd_self (λ t, gt_set_pos (if r.1.1 <? 0 then gt_off t else i32 (gt_off t + r.1.2)) r.1.2 (gt_busy t) (gt_set_res (fill_packet r.2) t));;
  mret r.1.1.
(** The loop over the pieces. *)
Fixpoint get_pieces (fuel : nat) : TM get_task Z :=
  match fuel with
  | O => ub
  | S fuel =>
      t ← self;
      ret ← (if gt_busy t then mret 0 else get_piece);
      if ret <? 0 then mret OS_NoErr else
      t ← self;
      theErr ← on_sock (Sendall (take (Z.to_nat (gt_len t)) (re_send (gt_res t))));
      if negb (theErr =? OS_NoErr) then upd_self (gt_set_pos (gt_off t) (gt_len t) true);; mret theErr else
      on_ds (modify (IncrementSndBytes (u32 (gt_len t))));;
      upd_self (gt_set_pos (gt_off t) (gt_len t) false);;
      if gt_off t <=? gt_req t F_end then get_pieces fuel
      else upd_self (gt_set_state kTasksessionEnd);; mret EAGAIN
  end.
(** A turn of the loop of [ProcessEvent] always leaves it. *)
Definition ProcessEvent_get (fuel : nat) : TM get_task Z :=
  k ← gets tk_sock;
  if negb (sk_conn k) then mret (-1) else
  t ← self;
  (if decide (gt_state t = kRequestProcessing) then get_processing else mret tt);;
  t ← self;
  e ← (if decide (gt_state t = kResponseSending) then get_head else mret None);
  match e with
  | Some err => mret err
  | None =>
      t ← self;
      if decide (gt_state t = kDataSending) then get_pieces fuel else mret (-1)
  end.
Definition Run_get (stop : bool) (fuel : nat) : TM get_task Z :=
  if stop then mret (-1) else
  theErr ← ProcessEvent_get fuel;
  mret (if waits theErr then 0 else -1).

(** ** DSPushTask *)

Definition ps_set_state (st : tstate) (t : push_task) : push_task :=
  PushTask (ps_ip t) (ps_port t) (ps_fileid t) (ps_chunkid t) (ps_blocksize t) st (ps_req t) (ps_buf t) (ps_blen t)
    (ps_off t) (ps_len t) (ps_end t) (ps_need t) (ps_busy t) (ps_answer t).
Definition ps_set_req (f : resp → resp) (t : push_task) : push_task :=
  PushTask (ps_ip t) (ps_port t) (ps_fileid t) (ps_chunkid t) (ps_blocksize t) (ps_state t) (f (ps_req t)) (ps_buf t) (ps_blen t)
    (ps_off t) (ps_len t) (ps_end t) (ps_need t) (ps_busy t) (ps_answer t).
Definition ps_set_pos (off len need : Z) (busy : bool) (t : push_task) : push_task :=
  PushTask (ps_ip t) (ps_port t) (ps_fileid t) (ps_chunkid t) (ps_blocksize t) (ps_state t) (ps_req t) (ps_buf t) (ps_blen t)
    off len (ps_end t) need busy (ps_answer t).
Definition ps_set_rx (buf : bytes) (blen : nat) (answer : msg) (t : push_task) : push_task :=
  PushTask (ps_ip t) (ps_port t) (ps_fileid t) (ps_chunkid t) (ps_blocksize t) (ps_state t) (ps_req t) buf blen
    (ps_off t) (ps_len t) (ps_end t) (ps_need t) (ps_busy t) answer.

Definition packet_ds_backup_request : TM push_task Z :=
  t ← self;
  let r := ps_req t in
  let m := <[F_type := DS_BACKUP_CHUNK_PUSH]> (<[F_length := 32]> (<[F_fileid := ps_fileid t]>
           (<[F_chunkid := ps_chunkid t]> (<[F_blocksize := ps_blocksize t]> (re_msg r))))) in
  x ← lift (packet DsPush_fields (Resp m (re_has r) (re_send r) (re_len r)));
  upd_self (ps_set_req (λ _, x.2));;
  mret (if x.1 <? 0 then -1 else 0).
Definition push_head : TM push_task Z :=
  t ← self;
  (if re_has (ps_req t) then mret tt else packet_ds_backup_request;; upd_self (ps_set_req re_done));;
  t ← self;
  theErr ← on_sock (Sendall (take (re_len (ps_req t)) (re_send (ps_req t))));
  (if theErr =? OS_NoErr then upd_self (ps_set_state kDataSending) else mret tt);;
  mret theErr.
(** The pieces are at most 1024 bytes; [fPacketSendLen] is the length of the piece. *)
Definition push_piece : TM push_task Z :=
  t ← self;
  let len := if ps_end t <? i32 (ps_off t + 1024) then i32 (ps_end t - ps_off t + 1) else 1024 in
  r ← on_ds (on_store (read_raw_data (u64 (ps_fileid t)) (u32 (ps_chunkid t)) (ps_off t) len));
  upd_self (λ t, ps_set_pos (ps_off t) r.1.2 (ps_need t) (ps_busy t)
    (ps_set_req (λ q, let q := fill_packet r.2 q in Resp (re_msg q) (re_has q) (re_send q) (if r.1.1 <? 0 then re_len q else Z.to_nat (u32 r.1.2))) t));;
  mret r.1.1.
Fixpoint push_data (fuel : nat) : TM push_task (option Z) :=
  match fuel with
  | O => ub
  | S fuel =>
      t ← self;
      ret ← (if ps_busy t then mret 0 else push_piece);
      if ret <? 0 then mret (Some OS_NoErr) else
      t ← self;
      theErr ← on_sock (Sendall (take (re_len (ps_req t)) (re_send (ps_req t))));
      if theErr =? EAGAIN then upd_self (ps_set_pos (ps_off t) (ps_len t) (ps_need t) true);; mret (Some theErr) else
      if negb (theErr =? OS_NoErr) then mret (Some theErr) else
      on_ds (modify (IncrementSndBytes (u32 (ps_len t))));;
      let need := u32 (ps_need t - ps_len t) in
      upd_self (ps_set_pos (i32 (ps_off t + ps_len t)) (ps_len t) need false);;
      if 0 <? need then push_data fuel else upd_self (ps_set_state kResponseReceiving);; mret None
  end.
(** The answer is parsed as if the whole buffer had been received. *)
Fixpoint push_answer (fuel : nat) : TM push_task Z :=
  match fuel with
  | O => ub
  | S fuel =>
      t ← self;
      r ← on_sock (Reads (Z.to_nat (kReqBufSize - Z.of_nat (ps_blen t))));
      b ← lift (st_bytes (ps_blen t) r.2 (ps_buf t));
      let blen := (ps_blen t + length r.2)%nat in
      upd_self (ps_set_rx b blen (ps_answer t));;
      if negb (r.1 =? OS_NoErr) then mret r.1 else
      if (blen <? 4)%nat then push_answer fuel else
      len ← lift (GetRequestLen b);
      if Z.of_nat blen <? len then mret EAGAIN else
      x ← lift (DsPushRes_deserialize b kReqBufSize (RBuf 0 (ps_answer t)));
      upd_self (ps_set_rx b blen (rb_msg x.2));; mret OS_NoErr
  end.
(** [dial] is the outcome of [Connect]. *)
Definition ProcessEvent_push (dial : Z) (fuel : nat) : TM push_task Z :=
  t ← self;
  e ← (if decide (ps_state t = kInitial) then
         on_sock (modify (λ k, Sock true (sk_in k) (sk_out k) (sk_buf k) (sk_off k) (sk_wire k)));;
         upd_self (ps_set_state kRequestSending);; mret (if dial =? OS_NoErr then None else Some dial)
       else mret None);
  match e with
  | Some err => mret err
  | None =>
      t ← self;
      err ← (if decide (ps_state t = kRequestSending) then push_head else mret OS_NoErr);
      if negb (err =? OS_NoErr) then mret err else
      t ← self;
      e ← (if decide (ps_state t = kDataSending) then push_data fuel else mret None);
      match e with
      | Some err => mret err
      | None => push_answer fuel
      end
  end.
Definition Run_push (stop : bool) (dial : Z) (fuel : nat) : TM push_task Z :=
  if stop then mret (-1) else
  theErr ← ProcessEvent_push dial fuel;
  mret (if waits theErr then 0 else -1).

(** ** DSMessageProcess and DSTCPSession *)

(** The code; a task that was made takes the socket over.  The constructor of
    DsRegisterRes clears more than the object has, which the model leaves out. *)
Definition MessageTransaction (data : bytes) (fRecvLen : Z) : M dsv Z :=
  type ← lift (GetRequestType data);
  if type =? CLIENT_PUT then
    h ← lift (ClientPut_deserializehead data fRecvLen (RBuf 0 msg0));
    let num := rb_msg h.2 F_backup_dataservernum in
    let size := u64 (40 + num * 8) in
    o ← lift (ds_malloc size);
    if size <? 40 then ub else
    r ← lift (ClientPut_deserialize data fRecvLen (RBuf 0 o));
    let pos := rb_pos r.2 in
    modify (dv_spawn (NewPut (new_put_task true (rb_msg r.2) num (drop (Z.to_nat pos) data) (i32 (fRecvLen - pos)))));;
    mret 0
  else if type =? CLIENT_GET then
    o ← lift (ds_malloc 40);
    r ← lift (ClientGet_deserialize data fRecvLen (RBuf 0 o));
    modify (dv_spawn (NewGet (new_get_task (rb_msg r.2))));; mret 0
  else if type =? DS_BACKUP_CHUNK_PUSH then
    r ← lift (DsPush_deserialize data fRecvLen (RBuf 0 msg0));
    let pos := rb_pos r.2 in
    modify (dv_spawn (NewPut (new_put_task false (rb_msg r.2) 0 (drop (Z.to_nat pos) data) (i32 (fRecvLen - pos)))));;
    mret 0
  else if type =? DS_REGISTER then
    r ← lift (DsRegisterRes_deserialize data fRecvLen (RBuf 0 msg0));
    let size := rb_msg r.2 F_blocksize in
    (if size <? 0 then mret tt else modify (dv_set_max size));; mret 0
  else if type =? NS_COMMAND_CHUNK_BACKUP then
    r ← lift (BackupCommand_deserialize data fRecvLen (RBuf 0 msg0));
    let cmd := rb_msg r.2 in
    i ← on_store (get_block_info (u64 (cmd F_fileid)) (u32 (cmd F_chunkid)));
    if i.1 <? 0 then mret (-1) else
    b ← lift i.2;
    modify (dv_spawn (NewPush (new_push_task (cmd F_dst_ip) (cmd F_dst_port) (cmd F_fileid) (cmd F_chunkid) 0 (i32 (b.1 - 1)))));;
    mret 0
  else if type =? NS_COMMAND_CHUNK_DEL then
    r ← lift (DeleteCommand_deserialize data fRecvLen (RBuf 0 msg0));
    let cmd := rb_msg r.2 in
    on_store (del_single_block (u64 (cmd F_fileid)) (u32 (cmd F_chunkid)));;
    notify_ns_del_ok cmd;; mret 0
  else modify dv_add_bad;; mret (-1).

(** A task runs at every event until it has ended: at most [n] events, and the last
    result of [Run]. *)
Fixpoint events {T} (run : TM T Z) (n : nat) : TM T Z :=
  match n with
  | O => mret 0
  | S n => r ← run; if r =? 0 then events run n else mret r
  end.

(** A session: its state, [fRecvBuffer], which begins as zeros, and [fRecvLen]. *)
Record session := Session { ss_state : tstate; ss_buf : bytes; ss_len : Z }.
Definition new_session : session := Session kInitial (replicate 1025 0) 0.
Fixpoint session_process (fuel : nat) : TM session Z :=
  match fuel with
  | O => ub
  | S fuel =>
      t ← self;
      e ← (if decide (ss_state t = kRequestReceiving) then
             r ← on_sock (Reads (Z.to_nat (kReqBufSize - ss_len t)));
             b ← lift (st_bytes (Z.to_nat (ss_len t)) r.2 (ss_buf t));
             let len := ss_len t + Z.of_nat (length r.2) in
             upd_self (λ t, Session (ss_state t) b len);;
             if negb (r.1 =? OS_NoErr) then mret (Some r.1) else
             n ← lift (GetRequestLen b);
             (if (4 <=? len) && (u32 n <=? len) then upd_self (λ t, Session kRequestProcessing (ss_buf t) (ss_len t)) else mret tt);;
             mret None
           else mret None);
      match e with
      | Some err => mret err
      | None =>
          t ← self;
          if decide (ss_state t = kRequestProcessing) then on_ds (MessageTransaction (ss_buf t) (ss_len t))
          else session_process fuel
      end
  end.
Definition Run_session (stop : bool) (fuel : nat) : TM session Z :=
  if stop then mret (-1) else
  upd_self (λ t, if decide (ss_state t = kInitial) then Session kRequestReceiving (ss_buf t) (ss_len t) else t);;
  k ← gets tk_sock;
  theErr ← (if negb (sk_conn k) then mret (-1) else session_process fuel);
  mret (if waits theErr then 0 else -1).
End tasks.
