(* ===== verification/DsWire.v ===== *)
(** The messages between the programs, byte for byte: what a data server writes as
    requests of the name service, where the two disagree, and what a data server reads
    of the commands and answers of the name service and of the requests of the proxy. *)
From stdpp Require Import functions.
From S2P Require Import Prelude Rbtree Timer Bytes Text Tools NetBuf Sql State Notice Fields LoginSpec UploadSpec FileSpec.
From S2P Require Import ProxyText ProxyUp Bitmap DsFile DsBlock BlockStore BlockLoad DataMgr DsMsg DsTask.

(** ** Reading *)

Lemma wire_i32_of m f ks v b : m f = i32 v → wire m ks b → wire m ((I32, f) :: ks) (be_bytes 4 v ++ b).
Proof. intros Hf Hb. rewrite <- be_bytes_i32, <- Hf. by constructor. Qed.
Lemma wire_i64_of m f ks v b : m f = i64 v → wire m ks b → wire m ((I64, f) :: ks) (be_bytes 8 v ++ b).
Proof. intros Hf Hb. rewrite <- be_bytes_i64, <- Hf. by constructor. Qed.
Lemma be_bytes_val n l : is_bytes l → length l = n → be_bytes n (be_val l) = l.
Proof.
  intros Hl <-. unfold be_bytes, be_val. rewrite <- length_rev, le_bytes_val by by apply Forall_rev.
  apply rev_involutive.
Qed.
Lemma wire_ip4_of m f ks a gap b :
  is_bytes a → length a = 4%nat → length gap = 12%nat → m f = i32 (be_val a) → wire m ks b →
  wire m ((IP4, f) :: ks) (a ++ gap ++ b).
Proof. intros Ha H4 Hg Hf Hb. rewrite <- (be_bytes_val 4 a Ha H4), <- be_bytes_i32, <- Hf. by constructor. Qed.

(** ** The fields of the messages *)

Definition head_msg (len id type encrypt : Z) : msg :=
  λ f, match f with F_length => i32 len | F_request_id => i32 id | F_type => i32 type | F_encrypt => i32 encrypt | _ => 0 end.
Definition delete_cmd (now fid bindex : Z) : msg :=
  λ f, match f with F_fileid => i64 fid | F_chunkid => i32 bindex | _ => head_msg 32 now 5 0 f end.
Definition backup_cmd (now fid bindex : Z) (ip1 : bytes) (port1 : Z) (ip2 : bytes) (port2 : Z) : msg :=
  λ f, match f with
       | F_fileid => i64 fid | F_chunkid => i32 bindex | F_src_ip => i32 (be_val ip1) | F_src_port => i32 port1
       | F_dst_ip => i32 (be_val ip2) | F_dst_port => i32 port2 | _ => head_msg 72 now 7 0 f end.
(** The code of the answer is in the place of [encrypt]. *)
Definition register_res (id rtn bsize : Z) : msg :=
  λ f, match f with F_retcode => 0 | F_blocksize => i32 bsize | _ => head_msg 28 id 1 rtn f end.
Definition put_msg (id fid bi end_ : Z) (es : list entry) : msg :=
  λ f, match f with
       | F_fileid => i64 fid | F_chunkid => i32 bi | F_start => 0 | F_end => i32 (end_ - 1)
       | F_backup_dataservernum => Z.of_nat (length es)
       | F_ip i => from_option (λ e, i32 (be_val (en_addr e))) 0 (es !! i)
       | F_port i => from_option (λ e, i32 (be_val (en_port e))) 0 (es !! i)
       | _ => head_msg (40 + Z.of_nat (length es) * 20) id 0x0101 0 f end.
Definition get_msg (id fid bi end_ encrypt : Z) : msg :=
  λ f, match f with
       | F_fileid => i64 fid | F_chunkid => i32 bi | F_start => 0 | F_end => i32 (end_ - 1)
       | _ => head_msg 36 id 0x0102 encrypt f end.

Section wire.
Context `{!DsEnv}.

Lemma notify_run ks len m d : (Z.to_nat len = 16 + lsize ks)%nat → 0 ≤ len < 2 ^ 63 → plain_fields ks = true →
  notify ks len m d = Some (0, dv_enqueue (image m (base_fields ++ ks)) d).
Proof.
  intros Hn Hd Hp. unfold notify.
  destruct (written ks len m len (ds_junk (Z.to_nat len)) (Z.to_nat len) Hn ltac:(lia) ltac:(lia) Hp (ds_junk_length _) ltac:(lia)) as [E Hl].
  rewrite (lift_eq _ _ _ _ E). cbn [fst snd wb_data]. change (GV_SUCCESS <? 0) with false. cbv iota. M_unfold.
  rewrite <- Hl at 1. by rewrite take_app_length.
Qed.

(** What the name service calls a copied and a deleted block. *)
Lemma notify_ns_backup_ok_run fileid chunkid i d d' : on_store get_ds_filesystem_info d = Some (i, d') →
  notify_ns_backup_ok fileid chunkid d = Some (0, dv_enqueue
    (concat (copy_block_req (BlockMsg 0 0 (u64 fileid) (u32 chunkid) (u32 ds_server_id)) (Z.shiftr (i64 (i.2 - i.1.2)) 20))) d').
Proof.
  intros Ei. unfold notify_ns_backup_ok. rewrite (M_bind_Some _ _ _ _ _ Ei), notify_run by done.
  unfold copy_block_req. cbn [bm_id bm_encrypt bm_fid bm_bindex bm_dsid]. by rewrite be_bytes_u64, !be_bytes_u32.
Qed.
(** The free space and the end of the message, which the data server puts directly
    behind the number of the block: 12 bytes, of which the name service takes the first
    four for padding and the others for its [remain]. *)
Definition delete_tail (free : Z) : bytes := be_bytes 8 (Z.shiftr free 10) ++ be_bytes 4 0.

Lemma notify_ns_del_ok_run cmd i d d' : on_store get_ds_filesystem_info d = Some (i, d') →
  let t := delete_tail (i64 (i.2 - i.1.2)) in
  notify_ns_del_ok cmd d = Some (0, dv_enqueue
    (concat (delete_block_req (BlockMsg (cmd F_request_id) 0 (u64 (cmd F_fileid)) (u32 (cmd F_chunkid)) 0) (take 4 t) (drop 4 t) [])) d').
Proof.
  intros Ei t. unfold notify_ns_del_ok.
  rewrite (M_bind_Some _ _ _ _ _ Ei), notify_run by done.
  unfold delete_block_req. cbn [bm_id bm_encrypt bm_fid bm_bindex concat]. rewrite be_bytes_u64, be_bytes_u32.
  rewrite (app_assoc (take 4 t)), take_drop, !app_nil_r. done.
Qed.
(** So the number the name service takes for the free space is the low half of it,
    shifted by 32. *)
Lemma delete_remain free : be_val (drop 4 (delete_tail free)) = 2 ^ 32 * u32 (Z.shiftr free 10).
Proof.
  unfold delete_tail. set (x := Z.shiftr free 10).
  assert (drop 4 (be_bytes 8 x) = be_bytes 4 x) as Hx by reflexivity.
  rewrite drop_app_le by (by rewrite be_bytes_length; lia). rewrite Hx, be_val_app, be_bytes_length, !be_val_bytes.
  unfold u32. change (256 ^ Z.of_nat 4) with (2 ^ 32). rewrite (Z.mod_small 0) by lia. lia.
Qed.
Lemma register_run i d d' : on_store get_ds_filesystem_info d = Some (i, d') →
  packet_dataserver_resgister d = Some (concat (login_req (LoginMsg 0 0 1 (u32 ds_server_id)
    (u64 (Z.shiftr (i64 (i.2 - i.1.2)) 10)) (u64 (Z.shiftr i.2 10)) (u32 ds_local_port))), d').
Proof.
  intros Ei. unfold packet_dataserver_resgister, DsRegister_serialize. rewrite (M_bind_Some _ _ _ _ _ Ei).
  set (m := <[F_type := DS_REGISTER]> _).
  destruct (written (DsRegister_fields ++ [(I32, F_endflag)]) kReqBufSize m 48 (ds_junk 1024) 1024 eq_refl ltac:(done) ltac:(done) eq_refl (ds_junk_length _)) as [E Hl];
    [unfold kReqBufSize; lia|]. rewrite (lift_eq _ _ _ _ E). cbn [snd wb_data]. M_unfold. change 48%nat with (Z.to_nat 48). rewrite <- Hl, take_app_length.
  unfold login_req. cbn [lm_id lm_encrypt lm_type lm_dsid lm_remain lm_disk lm_port]. by rewrite !be_bytes_u64, !be_bytes_u32.
Qed.
Lemma heartbeat_run w : packet_dataserver_heatbeat w = Some (concat (beat_req (BeatMsg 0 0 1 (u32 w)))).
Proof.
  unfold packet_dataserver_heatbeat, DsHeartBeat_serialize. set (m := <[F_length := 28]> _).
  destruct (written (DsHeartBeat_fields ++ [(I32, F_endflag)]) kReqBufSize m 28 (ds_junk 1024) 1024 eq_refl ltac:(done) ltac:(done) eq_refl (ds_junk_length _)) as [E Hl];
    [unfold kReqBufSize; lia|]. rewrite E. cbn [mbind option_bind snd wb_data]. change 28%nat with (Z.to_nat 28). rewrite <- Hl, take_app_length.
  unfold beat_req. cbn [hm_id hm_encrypt hm_type hm_weight]. by rewrite be_bytes_u32.
Qed.
End wire.

(** Reading a message whose fields are those of [m]. *)
Lemma read_msg ks b dl m m0 post : wire m (base_fields ++ ks) b → Z.of_nat (length b) ≤ dl < 2 ^ 63 → Forall (kind_ok m) (base_fields ++ ks) →
  (∀ f, f ∈ (base_fields ++ ks).*2 ∨ m f = m0 f) → ∃ m', deserialize ks (b ++ post) dl (RBuf 0 m0) = Some (GV_SUCCESS, RBuf (Z.of_nat (length b)) m') ∧
  ∀ f, m' f = m f.
Proof.
  intros Hb Hd Hk Hf. eexists. split; [by apply deserialize_run|]. intros f. rewrite filled_at. case_bool_decide; [done|]. by destruct (Hf f).
Qed.
Ltac typed := repeat constructor; unfold kind_ok, is_i32, is_i64; cbn; first [apply i32_range|apply i64_range|done].

Lemma delete_cmd_wire now fid bindex :
  wire (delete_cmd now fid bindex) (base_fields ++ DeleteCommand_fields)
    (be_bytes 4 32 ++ be_bytes 4 now ++ be_bytes 4 5 ++ be_bytes 4 0 ++ be_bytes 8 fid ++ be_bytes 4 bindex).
Proof. rewrite <- (app_nil_r (be_bytes 4 bindex)). unfold base_fields, DeleteCommand_fields. cbn [app]. repeat first [apply wire_i32_of; [done|]|apply wire_i64_of; [done|]]. constructor. Qed.
Lemma delete_cmd_read now fid bindex : is_u64 fid → ∃ m',
  DeleteCommand_deserialize (delete_msg now fid bindex) 32 (RBuf 0 msg0) = Some (GV_SUCCESS, RBuf 28 m') ∧
  ∀ f, m' f = delete_cmd now fid bindex f.
Proof.
  intros Hf. destruct (read_msg DeleteCommand_fields _ 32 _ msg0 (be_bytes 4 0) (delete_cmd_wire now fid bindex)) as (m' & E & Hm).
  - by rewrite !length_app, !be_bytes_length.
  - typed.
  - intros []; try (right; reflexivity); left; unfold base_fields, DeleteCommand_fields; cbn; set_solver.
  - exists m'. split; [|done]. rewrite <- !app_assoc, !length_app, !be_bytes_length in E. unfold delete_msg. rewrite le_bytes_htonll by done. exact E.
Qed.

Ltac fields_at := intros []; try (right; reflexivity); left; cbn; set_solver.
Ltac on_wire := unfold base_fields; cbn [app];
  repeat first [apply wire_i32_of; [done|]|apply wire_i64_of; [done|]|apply wire_ip4_of; [done..|]]; constructor.

Lemma backup_cmd_read gap1 gap2 now fid bindex ip1 port1 ip2 port2 :
  is_u64 fid → is_bytes ip1 → is_bytes ip2 → length ip1 = 4%nat → length ip2 = 4%nat → length gap1 = 12%nat → length gap2 = 12%nat →
  ∃ m', BackupCommand_deserialize (copy_msg gap1 gap2 now fid bindex ip1 port1 ip2 port2) 72 (RBuf 0 msg0) = Some (GV_SUCCESS, RBuf 68 m') ∧
  ∀ f, m' f = backup_cmd now fid bindex ip1 port1 ip2 port2 f.
Proof.
  intros Hf Hb1 Hb2 H1 H2 G1 G2.
  assert (wire (backup_cmd now fid bindex ip1 port1 ip2 port2) (base_fields ++ BackupCommand_fields)
    (be_bytes 4 72 ++ be_bytes 4 now ++ be_bytes 4 7 ++ be_bytes 4 0 ++ be_bytes 8 fid ++ be_bytes 4 bindex ++
     ip1 ++ gap1 ++ be_bytes 4 port1 ++ ip2 ++ gap2 ++ be_bytes 4 port2)) as Hw.
  { rewrite <- (app_nil_r (be_bytes 4 port2)). unfold BackupCommand_fields. on_wire. }
  destruct (read_msg _ _ 72 _ msg0 (be_bytes 4 0) Hw) as (m' & E & Hm).
  - by rewrite !length_app, !be_bytes_length, H1, H2, G1, G2.
  - typed.
  - fields_at.
  - exists m'. split; [|done]. rewrite <- !app_assoc, !length_app, !be_bytes_length, H1, H2, G1, G2 in E.
    unfold copy_msg. rewrite le_bytes_htonll by done. exact E.
Qed.
Lemma register_res_read id rtn bsize : ∃ m',
  DsRegisterRes_deserialize (concat (login_ans id rtn bsize)) 28 (RBuf 0 msg0) = Some (GV_SUCCESS, RBuf 24 m') ∧
  ∀ f, m' f = register_res id rtn bsize f.
Proof.
  assert (wire (register_res id rtn bsize) (base_fields ++ DsRegisterRes_fields)
    (be_bytes 4 28 ++ be_bytes 4 id ++ be_bytes 4 1 ++ be_bytes 4 rtn ++ be_bytes 4 0 ++ be_bytes 4 bsize)) as Hw.
  { rewrite <- (app_nil_r (be_bytes 4 bsize)). unfold DsRegisterRes_fields. on_wire. }
  destruct (read_msg _ _ 28 _ msg0 (be_bytes 4 0 ++ []) Hw) as (m' & E & Hm).
  - by rewrite !length_app, !be_bytes_length.
  - typed.
  - fields_at.
  - exists m'. split; [|done]. rewrite <- !app_assoc, !length_app, !be_bytes_length in E. exact E.
Qed.
Lemma get_msg_read id fid bi end_ (encrypt : Z) m0 post dl : is_u64 fid → 36 ≤ dl < 2 ^ 63 → ∃ m',
  ClientGet_deserialize ((be_bytes 4 36 ++ be_bytes 4 id ++ be_bytes 4 0x0102 ++ be_bytes 4 encrypt ++
    be_bytes 8 fid ++ be_bytes 4 bi ++ be_bytes 4 0 ++ be_bytes 4 (u32 (end_ - 1))) ++ post) dl (RBuf 0 m0) = Some (GV_SUCCESS, RBuf 36 m') ∧
  ∀ f, m' f = if bool_decide (f ∈ (base_fields ++ ClientGet_fields).*2) then get_msg id fid bi end_ encrypt f else m0 f.
Proof.
  intros Hf Hdl. set (m := get_msg id fid bi end_ encrypt).
  assert (wire m (base_fields ++ ClientGet_fields)
    (be_bytes 4 36 ++ be_bytes 4 id ++ be_bytes 4 0x0102 ++ be_bytes 4 encrypt ++ be_bytes 8 fid ++ be_bytes 4 bi ++ be_bytes 4 0 ++
     be_bytes 4 (end_ - 1))) as Hw.
  { rewrite <- (app_nil_r (be_bytes 4 (end_ - 1))). unfold ClientGet_fields. on_wire. }
  rewrite be_bytes_u32. eexists. split; [|intros f; apply filled_at].
  pose proof (deserialize_run ClientGet_fields dl m _ post m0 Hw) as E. rewrite !length_app, !be_bytes_length in E.
  apply E; [lia|]. unfold m. typed.
Qed.

(** The addresses of the other servers. *)
Lemma relayed_wire m es i : Forall entry_ok es →
  (∀ j e, es !! j = Some e → m (F_ip (i + j)) = i32 (be_val (en_addr e)) ∧ m (F_port (i + j)) = i32 (be_val (en_port e))) →
  wire m (seq i (length es) ≫= λ i, [(IP4, F_ip i); (I32, F_port i)]) (relayed es).
Proof.
  revert i. induction es as [|e es IH]; intros i He Hm; [constructor|]. apply Forall_cons in He as [(H1 & _ & H3 & H4 & H5) He].
  rewrite relayed_cons. cbn [length seq]. rewrite bind_cons. cbn [app]. unfold relay_entry. rewrite <- !app_assoc.
  destruct (Hm O e eq_refl) as [Ha Hp]. rewrite Nat.add_0_r in Ha, Hp. apply wire_ip4_of; [done..|].
  rewrite <- (be_bytes_val 4 (en_port e)) by done. apply wire_i32_of; [done|]. apply IH; [done|]. intros j e' Hj.
  destruct (Hm (S j) e' Hj). by rewrite Nat.add_succ_comm.
Qed.
Lemma put_msg_wire id fid bi end_ es : Forall entry_ok es →
  wire (put_msg id fid bi end_ es) (base_fields ++ ClientPut_head ++ address_fields (Z.of_nat (length es))) (ds_upload_req id fid bi end_ es).
Proof.
  intros He. unfold ds_upload_req, address_fields. rewrite be_bytes_u32, Nat2Z.id. unfold ClientPut_head, ClientGet_fields, base_fields. cbn [app].
  do 4 (apply wire_i32_of; [done|]). apply wire_i64_of; [done|]. do 3 (apply wire_i32_of; [done|]). constructor.
  apply relayed_wire; [done|]. intros j e Hj. cbn [put_msg Nat.add]. by rewrite Hj.
Qed.
Lemma put_msg_ok id fid bi end_ es : Z.of_nat (length es) < 2 ^ 31 →
  Forall (kind_ok (put_msg id fid bi end_ es)) (base_fields ++ ClientPut_head ++ address_fields (Z.of_nat (length es))).
Proof.
  intros Hl. rewrite !Forall_app. split_and!.
  - typed.
  - repeat constructor; unfold kind_ok, is_i32, is_i64; cbn; first [apply i32_range|apply i64_range|lia].
  - apply Forall_forall. intros [k f] (i & Hk & _)%list_elem_of_bind. unfold kind_ok, is_i32, is_i64.
    apply elem_of_cons in Hk as [[= -> ->]|Hk]; [|apply list_elem_of_singleton in Hk as [= -> ->]]; cbn [fst snd put_msg];
      destruct (es !! i); cbn; first [apply i32_range|lia].
Qed.
Lemma filled_app ks1 ks2 m m0 : filled (ks1 ++ ks2) m m0 = filled ks2 m (filled ks1 m m0).
Proof. apply foldl_app. Qed.
(** The head of an upload request, and the request. *)
Lemma put_msg_read id fid bi end_ es o post dl :
  let req := ds_upload_req id fid bi end_ es in let m := put_msg id fid bi end_ es in
  Forall entry_ok es → Z.of_nat (length req) ≤ dl < 2 ^ 31 →
  ClientPut_deserializehead (req ++ post) dl (RBuf 0 msg0) = Some (GV_SUCCESS, RBuf 40 (filled (base_fields ++ ClientPut_head) m msg0)) ∧
  ClientPut_deserialize (req ++ post) dl (RBuf 0 o) = Some (GV_SUCCESS, RBuf (Z.of_nat (length req))
    (filled (base_fields ++ ClientPut_head ++ address_fields (Z.of_nat (length es))) m o)).
Proof.
  intros req m He Hdl. pose proof (put_msg_wire id fid bi end_ es He) as Hw. pose proof (wire_length _ _ _ Hw) as Hl. fold m req in Hw, Hl.
  rewrite app_assoc in Hw. apply wire_app_inv in Hw as (b1 & b2 & Hreq & Hw1 & Hw2).
  pose proof (wire_length _ _ _ Hw1) as Hl1. pose proof (wire_length _ _ _ Hw2) as Hl2. change (lsize (base_fields ++ ClientPut_head)) with 40%nat in Hl1.
  assert (length es ≤ length b2)%nat as Hes.
  { enough (length req = 40 + length b2 ∧ length req = 40 + 20 * length es)%nat by lia. split; [rewrite Hreq, length_app; lia|].
    unfold req, ds_upload_req. rewrite !length_app, !be_bytes_length, relayed_length by done. simpl. lia. }
  rewrite Hreq, length_app in Hdl |- *.
  pose proof (put_msg_ok id fid bi end_ es ltac:(lia)) as Hk. fold m in Hk. rewrite (app_assoc base_fields) in Hk |- *. apply Forall_app in Hk as [Hk1 Hk2].
  assert (∀ o, ClientPut_deserializehead ((b1 ++ b2) ++ post) dl (RBuf 0 o) = Some (GV_SUCCESS, RBuf 40 (filled (base_fields ++ ClientPut_head) m o))) as Eh.
  { intros o'. unfold ClientPut_deserializehead. rewrite <- app_assoc, (deserialize_run ClientPut_head dl m b1 _ o' Hw1) by (done || lia). by rewrite Hl1. }
  split; [apply Eh|]. unfold ClientPut_deserialize. rewrite (M_bind_Some _ _ _ _ _ (Eh o)). cbn [Z.eqb GV_SUCCESS negb]. M_unfold. cbn [rb_msg].
  rewrite (filled_at _ m o F_backup_dataservernum), bool_decide_true by by apply (bool_decide_unpack _); vm_compute.
  change (m F_backup_dataservernum) with (Z.of_nat (length es)). rewrite (filled_app (base_fields ++ ClientPut_head)).
  pose proof (get_fields_run ((b1 ++ b2) ++ post) dl m _ b2 b1 post (filled (base_fields ++ ClientPut_head) m o) Hw2) as E.
  rewrite Hl1 in E. change (Z.of_nat 40) with 40 in E. rewrite E; [by rewrite Hl1|by rewrite app_assoc|lia|done].
Qed.

(** C12: What the programs write to each other, byte for byte, and what the other
    side reads.  What a data server writes are the requests of the name service: the
    login, the heartbeat, the notices of a stored and of a deleted block, each with the
    numbers of the store.  The free space is a number of KiB in the login and of MiB in
    the notice of a stored block (the comment in NsMessage.h says MB).  In the notice of
    a deleted block, KiB again, the programs disagree about its place: the name service
    reads the low half of the number as the high half of its [remain].  The delete
    command, the copy command and the answer to a login, as the name service writes
    them, are read by the data server with the fields they were written with. *)
Theorem messages_between_the_programs `{!DsEnv} i d d' : on_store get_ds_filesystem_info d = Some (i, d') →
  let free := i64 (i.2 - i.1.2) in
  packet_dataserver_resgister d = Some (concat (login_req (LoginMsg 0 0 1 (u32 ds_server_id)
    (u64 (Z.shiftr free 10)) (u64 (Z.shiftr i.2 10)) (u32 ds_local_port))), d') ∧
  (∀ w, packet_dataserver_heatbeat w = Some (concat (beat_req (BeatMsg 0 0 1 (u32 w))))) ∧
  (∀ fid bi, notify_ns_backup_ok fid bi d = Some (0, dv_enqueue
    (concat (copy_block_req (BlockMsg 0 0 (u64 fid) (u32 bi) (u32 ds_server_id)) (Z.shiftr free 20))) d')) ∧
  (∀ cmd, ∃ pad remain, length pad = 4%nat ∧ length remain = 8%nat ∧
    pad ++ remain = be_bytes 8 (Z.shiftr free 10) ++ be_bytes 4 0 ∧ be_val remain = 2 ^ 32 * u32 (Z.shiftr free 10) ∧
    notify_ns_del_ok cmd d = Some (0, dv_enqueue
      (concat (delete_block_req (BlockMsg (cmd F_request_id) 0 (u64 (cmd F_fileid)) (u32 (cmd F_chunkid)) 0) pad remain [])) d')) ∧
  (∀ now fid bi, is_u64 fid → ∃ m, (∀ f, m f = delete_cmd now fid bi f) ∧
    DeleteCommand_deserialize (delete_msg now fid bi) 32 (RBuf 0 msg0) = Some (GV_SUCCESS, RBuf 28 m)) ∧
  (∀ gap1 gap2 now fid bi ip1 port1 ip2 port2, is_u64 fid → is_bytes ip1 → is_bytes ip2 →
    length ip1 = 4%nat → length ip2 = 4%nat → length gap1 = 12%nat → length gap2 = 12%nat →
    ∃ m, (∀ f, m f = backup_cmd now fid bi ip1 port1 ip2 port2 f) ∧
    BackupCommand_deserialize (copy_msg gap1 gap2 now fid bi ip1 port1 ip2 port2) 72 (RBuf 0 msg0) = Some (GV_SUCCESS, RBuf 68 m)) ∧
  (∀ id rtn bsize, ∃ m, (∀ f, m f = register_res id rtn bsize f) ∧
    DsRegisterRes_deserialize (concat (login_ans id rtn bsize)) 28 (RBuf 0 msg0) = Some (GV_SUCCESS, RBuf 24 m)).
Proof.
  intros Ei. cbv zeta. split; [|split; [|split; [|split; [|split; [|split]]]]].
  - exact (register_run i d d' Ei).
  - apply heartbeat_run.
  - intros fid bi. exact (notify_ns_backup_ok_run fid bi i d d' Ei).
  - intros cmd. set (t := delete_tail (i64 (i.2 - i.1.2))). exists (take 4 t), (drop 4 t).
    split_and!; [done|done|by rewrite take_drop|apply delete_remain|exact (notify_ns_del_ok_run cmd i d d' Ei)].
  - intros now fid bi Hf. destruct (delete_cmd_read now fid bi Hf) as (m & ? & ?). exists m. split; assumption.
  - intros gap1 gap2 now fid bi ip1 port1 ip2 port2 Hf Hb1 Hb2 H1 H2 H3 H4.
    destruct (backup_cmd_read gap1 gap2 now fid bi ip1 port1 ip2 port2 Hf Hb1 Hb2 H1 H2 H3 H4) as (m & ? & ?). exists m. split; assumption.
  - intros id rtn bsize. destruct (register_res_read id rtn bsize) as (m & ? & ?). exists m. split; assumption.
Qed.
