(* ===== verification/DsTaskSpec.v ===== *)
(** What the tasks of a data server do: sockets that work lose nothing, an upload is
    written piece by piece, a download sends a range of a block. *)
From Stdlib Require Import FunctionalExtensionality.
From stdpp Require Import fin_map_dom functions.
From S2P Require Import Prelude Bytes NetBuf Bitmap DsFile DsBlock BlockStore BlockLoad DataMgr StoreInv StoreData StoreRefine StoreMain.
From S2P Require Import Fields FileSpec ProxyUp DsMsg DsTask DsWire.

(** ** Sockets that do not break *)

Definition calm (script : list recv_res) : Prop :=
  Forall (λ r, match r with RecvData l => l ≠ [] | RecvErr e => e = EAGAIN ∨ e = EINTR end) script.
Definition calm_out (script : list send_res) : Prop :=
  Forall (λ r, match r with SendLen n => 0 < n | SendErr e => e = EAGAIN ∨ e = EINTR end) script.
(** The bytes that will come. *)
Definition flow (script : list recv_res) : bytes := script ≫= λ r, match r with RecvData l => l | RecvErr _ => [] end.

(** A read takes a beginning of what comes, or has to wait. *)
Lemma os_recv_calm script n : (0 < n)%nat → calm script → ∃ err l script',
  os_recv script n = (err, l, script', true) ∧ calm script' ∧ flow script = l ++ flow script' ∧ (length l ≤ n)%nat ∧
  (err = EAGAIN ∧ l = [] ∧ (length script' < length script ∨ script = [] ∧ script' = [])%nat ∨
   err = OS_NoErr ∧ l ≠ [] ∧ (length script' ≤ length script)%nat).
Proof.
  intros Hn. destruct n as [|n]; [lia|]. induction 1 as [|r script Hr Hc IH].
  - exists EAGAIN, [], []. split_and!; [done|constructor|done|simpl; lia|]. left. auto.
  - destruct r as [[|b l]|e]; cbn [os_recv]; [done| |].
    + exists OS_NoErr, (take (S n) (b :: l)), (match drop (S n) (b :: l) with [] => script | r => RecvData r :: script end).
      split; [done|]. split; [|split; [|split]].
      * destruct (drop (S n) (b :: l)) eqn:Ed; [done|]. by constructor.
      * change (flow (RecvData (b :: l) :: script)) with ((b :: l) ++ flow script). rewrite <- (take_drop (S n) (b :: l)) at 1.
        rewrite <- app_assoc. f_equal. by destruct (drop (S n) (b :: l)).
      * rewrite length_take. lia.
      * right. split_and!; [done|done|]. destruct (drop (S n) (b :: l)); simpl; lia.
    + change (flow (RecvErr e :: script)) with (flow script). destruct Hr as [->| ->].
      * exists EAGAIN, [], script. split_and!; [done..|simpl; lia|]. left. split_and!; [done|done|]. left. simpl; lia.
      * change (EINTR =? EINTR) with true. cbv iota. destruct IH as (err & l & script' & E & ? & ? & ? & H). exists err, l, script'.
        split_and!; [done..|]. destruct H as [(? & ? & [?|[-> ->]])|(? & ? & ?)]; [left|left|right]; split_and!; try done; try (left; simpl; lia). simpl; lia.
Qed.

Lemma os_send_calm script n : (0 < n)%nat → calm_out script → ∃ err k script',
  os_send script n = (err, k, script', true) ∧ calm_out script' ∧
  (err = OS_NoErr ∧ (0 < k ≤ n)%nat ∧ (length script' ≤ length script)%nat ∨
   err = EAGAIN ∧ k = O ∧ (length script' < length script)%nat).
Proof.
  intros Hn. induction 1 as [|r script Hr Hc IH]; cbn [os_send].
  - exists OS_NoErr, n, []. split_and!; [done|constructor|]. left. split_and!; [done|lia|lia|done].
  - destruct r as [k|e].
    + eexists OS_NoErr, _, script. split_and!; [done..|]. left. split_and!; [done|lia|lia|simpl; lia].
    + destruct Hr as [->| ->].
      * exists EAGAIN, O, script. split_and!; [done..|]. right. simpl; split_and!; [done|done|lia].
      * change (EINTR =? EINTR) with true. cbv iota. destruct IH as (err & k & script' & E & ? & H). exists err, k, script'.
        split_and!; [done..|]. destruct H as [(? & ? & ?)|(? & ? & ?)]; [left|right]; split_and!; simpl; try done; lia.
Qed.

(** The sender: nothing is pending, or some of the data. *)
Definition sender_ok (s : sock) : Prop :=
  sk_conn s = true ∧ calm_out (sk_out s) ∧ (sk_buf s = [] ∧ sk_off s = O ∨ (sk_off s < length (sk_buf s))%nat).
Definition todo (s : sock) (data : bytes) : bytes := if decide (sk_buf s = []) then data else drop (sk_off s) (sk_buf s).

Lemma sock_loop_run fuel s :
  sk_conn s = true → calm_out (sk_out s) → (sk_off s < length (sk_buf s))%nat → (length (sk_buf s) - sk_off s ≤ fuel)%nat → ∃ err s',
  sock_loop fuel s = Some (err, s') ∧ sk_conn s' = true ∧ calm_out (sk_out s') ∧ sk_in s' = sk_in s ∧ sk_buf s' = sk_buf s ∧
  sk_wire s' ++ drop (sk_off s') (sk_buf s) = sk_wire s ++ drop (sk_off s) (sk_buf s) ∧
  (err = OS_NoErr ∧ sk_off s' = length (sk_buf s) ∧ (length (sk_out s') ≤ length (sk_out s))%nat ∨
   err = EAGAIN ∧ (sk_off s' < length (sk_buf s))%nat ∧ (length (sk_out s') < length (sk_out s))%nat).
Proof.
  revert s. induction fuel as [|fuel IH]; intros s Hc Hout Hoff Hfuel; [lia|]. cbn [sock_loop]. unfold Send_rest. M_unfold. rewrite Hc. cbn [negb].
  destruct (os_send_calm (sk_out s) (length (drop (sk_off s) (sk_buf s)))) as (err & k & script' & E & Hout' & Hk); [rewrite length_drop; lia|done|].
  rewrite E. cbn [sk_off sk_buf fst snd]. rewrite length_drop in Hk.
  assert (∀ w, (w ++ take k (drop (sk_off s) (sk_buf s))) ++ drop (sk_off s + k) (sk_buf s) = w ++ drop (sk_off s) (sk_buf s)) as Hw.
  { intros w. rewrite <- app_assoc. f_equal. rewrite <- drop_drop. apply take_drop. }
  destruct Hk as [(-> & Hk & Hlen)|(-> & -> & Hlen)].
  - destruct (Nat.ltb_spec 0 k); [|lia]. cbn [andb]. destruct (Nat.ltb_spec (sk_off s + k) (length (sk_buf s))) as [Hlt|Hge].
    + set (s1 := Sock true (sk_in s) script' (sk_buf s) (sk_off s + k) _).
      destruct (IH s1) as (err & s' & E' & H1 & H2 & H3 & H4 & H5 & H6); [done|done|done|subst s1; cbn; lia|].
      exists err, s'. subst s1. cbn [sk_in sk_buf sk_off sk_wire sk_out] in *. rewrite Hw in H5. split_and!; [done..|].
      destruct H6 as [(? & ? & ?)|(? & ? & ?)]; [left|right]; split_and!; try done; lia.
    + eexists _, _. split; [done|]. cbn [sk_conn sk_out sk_in sk_buf sk_off sk_wire]. rewrite Hw. split_and!; [done..|]. left. split_and!; [done|lia|done].
  - cbn [andb Nat.ltb Nat.leb]. eexists _, _. split; [done|]. cbn [sk_conn sk_out sk_in sk_buf sk_off sk_wire]. rewrite Hw. split_and!; [done..|]. right.
    split_and!; [done|lia|done].
Qed.

Lemma Sendall_run data s :
  sender_ok s → (sk_buf s = [] ∨ sk_buf s = data) → Z.of_nat (length data) ≤ kSendBufferLen → ∃ err s',
  Sendall data s = Some (err, s') ∧ sender_ok s' ∧ sk_in s' = sk_in s ∧
  (err = OS_NoErr ∧ sk_buf s' = [] ∧ sk_wire s' = sk_wire s ++ todo s data ∧ (length (sk_out s') ≤ length (sk_out s))%nat ∨
   err = EAGAIN ∧ sk_buf s' = data ∧ sk_wire s' ++ todo s' data = sk_wire s ++ todo s data ∧ (length (sk_out s') < length (sk_out s))%nat).
Proof.
  intros (Hc & Hout & Hb) Hd Hlen.
  (* with the data in the buffer *)
  assert (∀ s1, sk_conn s1 = true → sk_out s1 = sk_out s → sk_in s1 = sk_in s → sk_wire s1 = sk_wire s → sk_buf s1 = data →
    (data = [] ∧ sk_off s1 = O ∨ (sk_off s1 < length data)%nat) → drop (sk_off s1) data = todo s data → ∃ err s',
    SendSendBuffer s1 = Some (err, s') ∧ sender_ok s' ∧ sk_in s' = sk_in s ∧
    (err = OS_NoErr ∧ sk_buf s' = [] ∧ sk_wire s' = sk_wire s ++ todo s data ∧ (length (sk_out s') ≤ length (sk_out s))%nat ∨
     err = EAGAIN ∧ sk_buf s' = data ∧ sk_wire s' ++ todo s' data = sk_wire s ++ todo s data ∧ (length (sk_out s') < length (sk_out s))%nat)) as Hsend.
  { intros s1 H1 H2 H3 H4 H5 Hoff <-. unfold SendSendBuffer. M_unfold. rewrite H5. destruct Hoff as [[-> Hoff]|Hoff].
    - cbn [length Nat.eqb]. exists OS_NoErr, s1. rewrite Hoff, H2, H3, H4, H5, app_nil_r. split_and!; try done; [|by left].
      unfold sender_ok. rewrite H1, H2, H5. auto.
    - destruct (Nat.eqb_spec (length data) 0); [lia|].
      destruct (sock_loop_run (S (length data)) s1) as (err & s' & E & G1 & G2 & G3 & G4 & G5 & G6);
        [done|by rewrite H2|by rewrite H5|rewrite H5; lia|]. rewrite H5 in *. rewrite H4 in G5. rewrite H2 in G6. rewrite E.
      destruct G6 as [(-> & Hoff' & Hlen')|(-> & Hoff' & Hlen')].
      + change (OS_NoErr =? OS_NoErr) with true. eexists OS_NoErr, _. split; [done|]. unfold sender_ok, set_send. cbn [sk_conn sk_out sk_buf sk_off sk_in sk_wire].
        rewrite G1, G3, H3. split_and!; [done|done|by left|done|]. left. split_and!; try done. rewrite Hoff', drop_all, app_nil_r in G5. done.
      + change (EAGAIN =? OS_NoErr) with false. eexists EAGAIN, s'. split; [done|]. rewrite G3, H3. unfold sender_ok. rewrite G4. split_and!; try done; [by right|].
        right. split_and!; try done. unfold todo at 1. rewrite G4, decide_False; [done|]. intros ->. simpl in Hoff'. lia. }
  unfold Sendall. M_unfold. unfold todo in *. destruct Hb as [[Hb Ho]|Hlt].
  - rewrite Hb in *. cbn [length Nat.eqb]. destruct (Z.ltb_spec kSendBufferLen (Z.of_nat (length data))); [lia|].
    apply Hsend; unfold set_send; cbn; try done; rewrite Ho; [|by rewrite decide_True].
    destruct data; [by left|right; simpl; lia].
  - destruct Hd as [Hd|Hd]; [rewrite Hd in Hlt; simpl in Hlt; lia|]. rewrite Hd in *.
    destruct (Nat.eqb_spec (length data) 0); [lia|]. apply Hsend; try done; [by right|].
    rewrite decide_False; [done|]. intros ->. simpl in Hlt. lia.
Qed.

(** ** Writing a block in pieces *)

(** Writes of consecutive pieces. *)
Fixpoint writes (k : name) (off : Z) (ps : list bytes) : list ds_op :=
  match ps with
  | [] => []
  | p :: ps => OpWrite k off p :: writes k (off + Z.of_nat (length p)) ps
  end.

Section store.
Context (g : geometry) (Hg : geo_ok g) (E : gset Z).
Implicit Types (k : name) (v : vstore).

Lemma writes_app k off ps p : writes k off (ps ++ [p]) = writes k off ps ++ [OpWrite k (off + Z.of_nat (length (mjoin ps))) p].
Proof.
  revert off. induction ps as [|p' ps IH]; intros off; cbn [app writes mjoin list_join length].
  - by rewrite Z.add_0_r.
  - change (mjoin (p' :: ps)) with (p' ++ mjoin ps). rewrite IH, length_app, Nat2Z.inj_add, Z.add_assoc. done.
Qed.
Lemma spec_run_writes_snoc k off ps p v :
  (spec_run g E (writes k off (ps ++ [p])) v).2 =
  (spec_step g E (OpWrite k (off + Z.of_nat (length (mjoin ps))) p) (spec_run g E (writes k off ps) v).2).2.
Proof. by rewrite writes_app, spec_run_app. Qed.

(** Writes are answered with a code that is not negative, and use at most one more
    block. *)
Lemma spec_write_code k off p v : ∃ c, 0 ≤ c ∧ (spec_step g E (OpWrite k off p) v).1 = OutCode c.
Proof.
  cbn [spec_step]. case_decide; [by exists 0|]. unfold spec_write.
  destruct (vs_ids v !! k), (spec_free g E (vs_ids v)); try case_match; by eexists; split; [|done].
Qed.
Lemma spec_write_ids k off p v : let v' := (spec_step g E (OpWrite k off p) v).2 in
  vs_ids v' = vs_ids v ∨ vs_ids v !! k = None ∧ ∃ id, vs_ids v' = <[k := id]> (vs_ids v).
Proof.
  cbn [spec_step]. case_decide; [by left|]. unfold spec_write. destruct (vs_ids v !! k) eqn:Hk; [case_match; by left|].
  destruct (spec_free g E (vs_ids v)) as [id|]; [|by left]. right. split; [done|]. exists id. by case_match.
Qed.
Lemma writes_count k off ps v : let v' := (spec_run g E (writes k off ps) v).2 in
  count v' = count v ∨ count v' = count v + 1 ∧ is_Some (vs_ids v' !! k).
Proof.
  induction ps as [|p ps IH] using rev_ind; [by left|]. rewrite spec_run_writes_snoc. set (v1 := (spec_run g E (writes k off ps) v).2) in *.
  destruct (spec_write_ids k (off + Z.of_nat (length (mjoin ps))) p v1) as [Hi|(Hk & id & Hi)]; unfold count in *; cbv zeta in IH |- *; rewrite Hi.
  - done.
  - destruct IH as [IH|[_ [? ?]]]; [|congruence]. right. rewrite map_size_insert_None, lookup_insert_eq by done. split; [lia|by eexists].
Qed.

(** Consecutive writes into a block that has room are one write. *)
Lemma spec_put_join id off a b v : 0 ≤ off →
  spec_put id (off + Z.of_nat (length a)) b (spec_put id off a v) = spec_put id off (a ++ b) v.
Proof.
  intros Ho. unfold spec_put. cbn [vs_ids vs_data]. f_equal. apply functional_extensionality. intros i. destruct (decide (i = id)) as [->|Hne].
  - rewrite !fn_lookup_insert, Z2Nat.inj_add, Nat2Z.id by lia. apply file_write_app.
  - by rewrite !fn_lookup_insert_ne.
Qed.
Definition has_room (k : name) (v : vstore) : Prop := is_Some (vs_ids v !! k) ∨ is_Some (spec_free g E (vs_ids v)).
Lemma spec_write_join k off a b v : 0 ≤ off → off + Z.of_nat (length (a ++ b)) ≤ g_ms g → has_room k v →
  (spec_step g E (OpWrite k (off + Z.of_nat (length a)) b) (spec_step g E (OpWrite k off a) v).2).2 = (spec_step g E (OpWrite k off (a ++ b)) v).2.
Proof.
  intros Ho Hms Hr. destruct (decide (a = [])) as [->|Ha]; [cbn [length app]; rewrite Z.add_0_r; cbn [spec_step]; by rewrite (decide_True (P := [] = []))|].
  destruct (decide (b = [])) as [->|Hb]; [rewrite app_nil_r; cbn [spec_step]; by rewrite (decide_True (P := [] = []))|].
  rewrite length_app in Hms. assert (a ++ b ≠ []) as Hab by by destruct a. cbn [spec_step]. rewrite !decide_False by done. unfold spec_write. rewrite length_app.
  assert (∀ x, x ≤ g_ms g → (g_ms g <? x) = false) as Hlt by (intros; by apply Z.ltb_ge).
  rewrite !Hlt by lia. destruct (vs_ids v !! k) as [id|] eqn:Hk; cbn [fst snd].
  - cbn [spec_put vs_ids]. rewrite Hk. cbn [snd]. by rewrite spec_put_join.
  - destruct Hr as [[? ?]|[id Hf]]; [congruence|]. rewrite Hf. cbn [fst snd]. cbn [spec_put spec_bind vs_ids]. rewrite lookup_insert_eq. cbn [snd].
    by apply (spec_put_join id off a b (spec_bind k id v)).
Qed.
Lemma writes_join k off ps v : 0 ≤ off → off + Z.of_nat (length (mjoin ps)) ≤ g_ms g → has_room k v →
  (spec_run g E (writes k off ps) v).2 = (spec_step g E (OpWrite k off (mjoin ps)) v).2.
Proof.
  intros Ho. induction ps as [|p ps IH] using rev_ind; intros Hms Hr.
  - cbn [writes spec_run snd mjoin list_join spec_step]. by rewrite decide_True.
  - assert (mjoin (ps ++ [p]) = mjoin ps ++ p) as Hj by (rewrite join_app; cbn; by rewrite app_nil_r). rewrite Hj in Hms |- *.
    rewrite spec_run_writes_snoc, IH, spec_write_join by (done || rewrite length_app in Hms; lia). done.
Qed.
(** Without room they leave the store alone. *)
Lemma writes_full k off ps v : ¬ has_room k v → (spec_run g E (writes k off ps) v).2 = v.
Proof.
  intros Hr. induction ps as [|p ps IH] using rev_ind; [done|]. rewrite spec_run_writes_snoc, IH. cbn [spec_step]. case_decide; [done|].
  unfold has_room in Hr. destruct (vs_ids v !! k); [destruct Hr; by left|]. destruct (spec_free g E (vs_ids v)); [destruct Hr; by right|done].
Qed.
End store.

(** ** Uploads *)

Section put.
Context `{!DsEnv} (g : geometry) (Hg : geo_ok g) (E : gset Z).

(** The numbers for the name service can be computed. *)
Definition figures (sb : superblock) : Prop := is_Some (approx_block_count sb) ∧ is_Some (space sb).
Lemma info_run s : figures (super_block_ s) → ∃ i, get_ds_filesystem_info s = Some (i, s) ∧
  space (super_block_ s) = Some (i.1.2, i.2).
Proof.
  intros [[n Hn] [[u t] Hs]]. exists (n, u, t). split; [|done]. unfold get_ds_filesystem_info, query_approx_block_count, query_space, getsM. M_unfold.
  rewrite Hn. cbn [mbind option_bind]. by rewrite Hs.
Qed.

(** The answer to a request of type [type] with the number [id]. *)
Definition code_ans (type id c : Z) : bytes := be_bytes 4 20 ++ be_bytes 4 id ++ be_bytes 4 type ++ be_bytes 4 0 ++ be_bytes 4 c.
Lemma packet_run r type id c :
  (20 ≤ length (re_send r))%nat → re_msg r F_length = 20 → re_msg r F_request_id = id → re_msg r F_type = type →
  re_msg r F_encrypt = 0 → re_msg r F_retcode = c →
  packet [(I32, F_retcode)] r = Some (GV_SUCCESS, Resp (re_msg r) (re_has r) (code_ans type id c ++ drop 20 (re_send r)) 20).
Proof.
  intros Hl H1 <- <- H2 <-. unfold packet.
  destruct (written [(I32, F_retcode)] kReqBufSize (re_msg r) 20 (re_send r) _ eq_refl ltac:(done) ltac:(done) eq_refl eq_refl Hl) as [Ew _].
  rewrite Ew. unfold code_ans. cbn [mbind option_bind fst snd wb_data wb_pos image base_fields app]. by rewrite H1, H2, app_nil_r.
Qed.

(** One write of a task. *)
Lemma put_write_run d k t b v :
  ds_rep g E (dv_store d) v → d_os (disk (dv_store d)) = [] →
  rx_blen (pt_rx t) = Z.of_nat (length b) → take (length b) (rx_buf (pt_rx t)) = b →
  0 ≤ rx_off (pt_rx t) → rx_off (pt_rx t) + Z.of_nat (length b) < 2 ^ 31 → ∃ c s',
  put_write (Tsk d k t) = Some (c, Tsk (dv_set_store s' d) k t) ∧ 0 ≤ c ∧
  moved g E (dv_store d) v s' (spec_step g E (OpWrite (u64 (pt_req t F_fileid), u32 (pt_req t F_chunkid)) (rx_off (pt_rx t)) b) v).2.
Proof.
  intros HR Hq Hbl Hb Ho Hlt. set (o := OpWrite _ _ _).
  assert (ds_op_ok o) as Hok by (split; [apply u64_range|split; [apply u32_range|split; done]]).
  destruct (ds_step_run g Hg E o _ v HR Hok) as (x & s' & v' & Es & M & _ & Hs). specialize (Hs Hq).
  cbn [ds_step o fst snd] in Es. apply M_bind_inv in Es as (c & s1 & Ew & Es). injection Es as <- <-.
  destruct (spec_write_code g E (u64 (pt_req t F_fileid), u32 (pt_req t F_chunkid)) (rx_off (pt_rx t)) b v) as (c' & Hc' & Hx).
  fold o in Hx. rewrite Hs in Hx. injection Hx as ->. exists c', s1. rewrite Hs. split; [|split; [done|exact M]].
  unfold put_write. M_unfold. unfold self, gets. cbn [tk_self].
  assert (length b ≤ length (rx_buf (pt_rx t)))%nat by (rewrite <- Hb, length_take; lia).
  destruct (Z.ltb_spec (Z.of_nat (length (rx_buf (pt_rx t)))) (rx_blen (pt_rx t))) as [?|_]; [lia|].
  unfold on_ds, on_store, zoom. cbn [tk_ds tk_sock tk_self]. rewrite Hbl, Nat2Z.id, Hb, Ew. done.
Qed.

(** An upload of the content [C] from the state [d0] of the process, where the store is
    [v]: what is written so far are the pieces [ps], and [buf] is in the buffer. *)
Context (client : bool) (m : msg) (cap : Z) (d0 : dsv) (v : vstore) (C : bytes).
Local Abbreviation K := (u64 (m F_fileid), u32 (m F_chunkid)).
Local Abbreviation task := (PutTask client m cap).
Definition up_start : Z := if client then m F_start else 0.
Definition up_ok : Prop :=
  C ≠ [] ∧ d_os (disk (dv_store d0)) = [] ∧ 0 ≤ up_start ∧ up_start + Z.of_nat (length C) ≤ dv_max d0 < 2 ^ 31.
Definition stage (ps : list bytes) (d : dsv) : Prop :=
  moved g E (dv_store d0) v (dv_store d) (spec_run g E (writes K up_start ps) v).2 ∧
  dv_max d = dv_max d0 ∧ dv_queue d = dv_queue d0 ∧ dv_tasks d = dv_tasks d0.
Definition rx_at (ps : list bytes) (buf b : bytes) : rx :=
  Rx b (Z.of_nat (length buf)) (up_start + Z.of_nat (length (mjoin ps))) (Z.of_nat (length C)) (Z.of_nat (length (mjoin ps) + length buf)).
Definition with_in (script : list recv_res) (k : sock) : sock := Sock true script (sk_out k) (sk_buf k) (sk_off k) (sk_wire k).

Lemma mjoin_snoc {A} (ps : list (list A)) p : mjoin (ps ++ [p]) = mjoin ps ++ p.
Proof. rewrite join_app. cbn. by rewrite app_nil_r. Qed.

(** Writing what is in the buffer. *)
Lemma stage_write st r ps buf b d k : up_ok → stage ps d → take (length buf) b = buf → (length (mjoin ps) + length buf ≤ length C)%nat →
  ∃ c s', put_write (Tsk d k (task st (rx_at ps buf b) r)) = Some (c, Tsk (dv_set_store s' d) k (task st (rx_at ps buf b) r)) ∧ 0 ≤ c ∧
  stage (ps ++ [buf]) (dv_set_store s' d).
Proof.
  intros (HC & Hq & Hst & Hmx) (M & H1 & H2 & H3) Hb Hle.
  destruct (put_write_run d k (task st (rx_at ps buf b) r) buf _ (proj1 M) (moved_quiet _ _ _ _ _ _ M Hq)) as (c & s' & Ew & Hc & M');
    [done|done|cbn; lia|cbn; lia|]. exists c, s'. split; [done|]. split; [done|]. unfold stage. cbn [dv_store dv_max dv_queue dv_tasks dv_set_store].
  split_and!; [|done..]. rewrite spec_run_writes_snoc. by eapply moved_trans.
Qed.

(** What follows a read. *)
Lemma put_check_run d k b ps buf r :
  up_ok → stage ps d → take (length buf) b = buf → (length buf ≤ 1024)%nat → (length (mjoin ps) + length buf ≤ length C)%nat →
  ∃ d' t', put_check (Tsk d k (task kDataReceiving (rx_at ps buf b) r)) = Some (tt, Tsk d' k t') ∧
  ((length (mjoin ps) + length buf < length C)%nat ∧ (∃ ps' buf', t' = task kDataReceiving (rx_at ps' buf' b) r ∧ stage ps' d' ∧
      mjoin ps' ++ buf' = mjoin ps ++ buf ∧ take (length buf') b = buf' ∧ (length buf' < 1024)%nat) ∨
   (length (mjoin ps) + length buf = length C)%nat ∧ stage (ps ++ [buf]) d' ∧ ∃ x, t' = task kResponseSending x (res_code PUTOK r)).
Proof.
  intros Hup Hs Hb Hbuf Hle. pose proof Hup as (_ & _ & Hst & Hmx). pose proof Hs as (_ & Hm & _).
  unfold put_check, upd_self, self, pt_set_rx. M_unfold. cbn [tk_ds tk_sock tk_self pt_rx pt_client pt_req pt_cap pt_state pt_res].
  change (rx_off (rx_at ps buf b)) with (up_start + Z.of_nat (length (mjoin ps))). change (rx_blen (rx_at ps buf b)) with (Z.of_nat (length buf)).
  rewrite Hm, !u32_small by (unfold is_u32; lia).
  destruct (Z.ltb_spec (dv_max d0) (up_start + Z.of_nat (length (mjoin ps)) + Z.of_nat (length buf))) as [?|_]; [lia|].
  cbn [rx_at rx_clen rx_drecv rx_blen].
  destruct (stage_write kDataReceiving r ps buf b d k Hup Hs Hb Hle) as (c & s' & Ew & Hc & Hs').
  assert (put_flush (Tsk d k (task kDataReceiving (rx_at ps buf b) r)) =
    Some (tt, Tsk (dv_set_store s' d) k (task kDataReceiving (rx_at (ps ++ [buf]) [] b) r))) as Hflush.
  { unfold put_flush. rewrite (M_bind_Some _ _ _ _ _ Ew). destruct (Z.ltb_spec c 0) as [?|_]; [lia|].
    unfold upd_self, pt_set_rx. M_unfold. cbn [tk_ds tk_sock tk_self pt_set_rx pt_rx pt_client pt_req pt_cap pt_state pt_res].
    unfold rx_at, pt_set_rx. cbn [rx_buf rx_blen rx_off rx_clen rx_drecv length]. rewrite mjoin_snoc, length_app, i32_small by lia. do 4 f_equal; f_equal; lia. }
  destruct (Z.leb_spec (Z.of_nat (length C)) (Z.of_nat (length (mjoin ps) + length buf))) as [Hge|Hlt].
  - rewrite orb_true_r. change (rx_at ps buf b) with (rx_at ps buf b) in Hflush. fold (rx_at ps buf b). rewrite Hflush.
    unfold put_answer, upd_self. M_unfold. cbn [tk_ds tk_sock tk_self]. eexists _, _. split; [done|]. right. split_and!; [lia|done|by eexists].
  - rewrite orb_false_r. destruct (Z.eqb_spec (Z.of_nat (length buf)) kDataBufSize) as [Heq|Hne].
    + fold (rx_at ps buf b). rewrite Hflush. eexists _, _. split; [done|]. left. split; [lia|]. exists (ps ++ [buf]), [].
      rewrite mjoin_snoc, app_nil_r. split_and!; [done..|simpl; lia].
    + eexists _, _. split; [done|]. left. split; [lia|]. exists ps, buf. unfold kDataBufSize in Hne. split_and!; [done..|lia].
Qed.

Definition put_ended (ps : list bytes) (d : dsv) (k : sock) (k' : sock) (t : put_task) (r : resp) : Prop :=
  stage ps d ∧ mjoin ps = C ∧ k' = with_in (sk_in k') k ∧ calm (sk_in k') ∧ flow (sk_in k') = [] ∧
  pt_client t = client ∧ pt_req t = m ∧ pt_cap t = cap ∧ pt_state t = kResponseSending ∧ pt_res t = res_code PUTOK r.

(** A turn of the receiving loop. *)
Lemma put_receiving_run d k b ps buf r :
  up_ok → stage ps d → sk_conn k = true → calm (sk_in k) → length b = 1025%nat → take (length buf) b = buf →
  (length buf < 1024)%nat → mjoin ps ++ buf ++ flow (sk_in k) = C → flow (sk_in k) ≠ [] → ∃ e st',
  put_receiving (Tsk d k (task kDataReceiving (rx_at ps buf b) r)) = Some (e, st') ∧
  (length (sk_in (tk_sock st')) ≤ length (sk_in k))%nat ∧
  ((e = Some EAGAIN ∧ (length (sk_in (tk_sock st')) < length (sk_in k))%nat ∧ flow (sk_in (tk_sock st')) = flow (sk_in k) ∨
    e = None ∧ (length (flow (sk_in (tk_sock st'))) < length (flow (sk_in k)))%nat) ∧
   (∃ d' k' ps' buf' b', st' = Tsk d' k' (task kDataReceiving (rx_at ps' buf' b') r) ∧ k' = with_in (sk_in k') k ∧ calm (sk_in k') ∧
     stage ps' d' ∧ length b' = 1025%nat ∧ take (length buf') b' = buf' ∧ (length buf' < 1024)%nat ∧
     mjoin ps' ++ buf' ++ flow (sk_in k') = C ∧ flow (sk_in k') ≠ []) ∨
   e = None ∧ ∃ ps', put_ended ps' (tk_ds st') k (tk_sock st') (tk_self st') r).
Proof.
  intros Hup Hs Hconn Hcalm Hb1 Hb2 Hbuf HC Hfl. pose proof Hup as (_ & Hq & Hst & Hmx).
  assert (Z.of_nat (length (mjoin ps) + length buf + length (flow (sk_in k))) = Z.of_nat (length C)) as HlC by (rewrite <- HC, !length_app; lia).
  destruct (os_recv_calm (sk_in k) (Z.to_nat (kDataBufSize - Z.of_nat (length buf)))) as (err & l & script & Er & Hcalm' & Hflow & Hlen & Hcase);
    [unfold kDataBufSize; lia|done|].
  unfold put_receiving. M_unfold. unfold self, gets. cbn [tk_self pt_rx rx_at rx_blen].
  destruct (Z.ltb_spec kDataBufSize (Z.of_nat (length buf))) as [?|_]; [unfold kDataBufSize in *; lia|].
  unfold on_sock, zoom, Reads. M_unfold. cbn [tk_sock tk_ds tk_self]. rewrite Hconn. cbn [negb]. rewrite Er.
  destruct Hcase as [(-> & -> & Hsh)|(-> & Hl & Hsh)]; cbn [fst snd].
  { change (EAGAIN =? OS_NoErr) with false. cbn [negb]. eexists _, _. split; [done|]. cbn [tk_sock sk_in]. cbn [app] in Hflow.
    destruct Hsh as [Hsh|[H0 _]]; [|by rewrite H0 in Hfl]. split; [lia|]. left. split; [left; by split_and!|].
    exists d, (with_in script k), ps, buf, b. cbn [with_in sk_in]. by rewrite <- Hflow. }
  change (OS_NoErr =? OS_NoErr) with true. cbn [negb]. rewrite Nat2Z.id.
  assert (length l ≤ 1024 - length buf)%nat as Hl' by (unfold kDataBufSize in Hlen; lia).
  unfold lift. change (rx_buf (rx_at ps buf b)) with b. rewrite (st_bytes_ok (length buf) l b) by lia. cbn [mbind option_bind].
  set (b2 := take (length buf) b ++ l ++ drop (length buf + length l) b).
  assert (length b2 = 1025%nat) as Hb2l by (subst b2; rewrite !length_app, length_take, length_drop; lia).
  assert (take (length (buf ++ l)) b2 = buf ++ l) as Hb2t.
  { subst b2. rewrite Hb2, app_assoc. by rewrite take_app_length. }
  assert (length (flow (sk_in k)) = length l + length (flow script))%nat as Hfl' by (rewrite Hflow, length_app; done).
  unfold on_ds, zoom, upd_self, pt_set_rx. M_unfold. cbn [tk_ds tk_sock tk_self pt_rx pt_client pt_req pt_cap pt_state pt_res].
  unfold set_recv, set_buf, rx_at. cbn [rx_buf rx_blen rx_off rx_clen rx_drecv].
  rewrite i32_small by lia. set (d1 := IncrementRcvBytes (Z.of_nat (length l)) d).
  replace (Rx b2 _ _ _ _) with (rx_at ps (buf ++ l) b2) by (unfold rx_at; rewrite length_app; f_equal; lia).
  destruct (put_check_run d1 (with_in script k) b2 ps (buf ++ l) r) as (d' & t' & Ec & Hcase);
    [done|exact Hs|done|rewrite length_app; lia|rewrite length_app; lia|].
  unfold with_in in Ec at 1. rewrite Ec. eexists _, _. split; [done|]. cbn [tk_ds tk_sock tk_self with_in sk_in]. split; [done|]. rewrite length_app in Hcase.
  destruct Hcase as [(Hlt & ps' & buf' & -> & Hs' & Hj & Ht & Hlt')|(Heq & Hs' & x & ->)].
  - left. split; [right; split; [done|destruct l; [done|simpl in *; lia]]|].
    exists d', (with_in script k), ps', buf', b2. cbn [with_in sk_in]. split_and!; try done.
    + by rewrite app_assoc, Hj, <- app_assoc, <- (app_assoc buf), <- Hflow.
    + intros H0. rewrite H0 in Hfl'. simpl in Hfl'. lia.
  - right. split; [done|]. exists (ps ++ [buf ++ l]). unfold put_ended. cbn [sk_in pt_client pt_req pt_cap pt_state pt_res].
    assert (flow script = []) as H0 by (apply nil_length_inv; lia). split_and!; try done.
    rewrite mjoin_snoc. rewrite <- HC, Hflow, H0. by rewrite !app_nil_r.
Qed.

(** Between two turns of the loop. *)
Definition recv_inv (k0 : sock) (r : resp) (st : tsk put_task) : Prop := ∃ d k ps buf b,
  st = Tsk d k (task kDataReceiving (rx_at ps buf b) r) ∧ k = with_in (sk_in k) k0 ∧ calm (sk_in k) ∧
  stage ps d ∧ length b = 1025%nat ∧ take (length buf) b = buf ∧ (length buf < 1024)%nat ∧
  mjoin ps ++ buf ++ flow (sk_in k) = C ∧ flow (sk_in k) ≠ [].

Lemma flow_le script script' l : flow script = l ++ flow script' → (length (flow script') ≤ length (flow script))%nat.
Proof. intros ->. rewrite length_app. lia. Qed.
Lemma put_process_run fuel k0 r st : up_ok → recv_inv k0 r st → (length (flow (sk_in (tk_sock st))) < fuel)%nat → ∃ st',
  (put_process fuel st = Some (EAGAIN, st') ∧ recv_inv k0 r st' ∧ (length (sk_in (tk_sock st')) < length (sk_in (tk_sock st)))%nat ∧
    (length (flow (sk_in (tk_sock st'))) ≤ length (flow (sk_in (tk_sock st))))%nat) ∨
  put_process fuel st = put_sending st' ∧ ∃ ps, put_ended ps (tk_ds st') k0 (tk_sock st') (tk_self st') r.
Proof.
  intros Hup. revert st. induction fuel as [|fuel IH]; intros st (d & k & ps & buf & b & -> & Hk & Hc & Hs & Hb1 & Hb2 & Hb3 & HC & Hf) Hfuel; [lia|].
  assert (sk_conn k = true) as Hconn by by rewrite Hk.
  destruct (put_receiving_run d k b ps buf r Hup Hs Hconn Hc Hb1 Hb2 Hb3 HC Hf) as (e & st' & Er & Hin & Hcase).
  assert (put_process (S fuel) (Tsk d k (task kDataReceiving (rx_at ps buf b) r)) =
    match e with Some err => Some (err, st') | None => if decide (pt_state (tk_self st') = kResponseSending) then put_sending st' else put_process fuel st' end) as Estep.
  { cbn [put_process]. unfold self. M_unfold. cbn [tk_self pt_state]. rewrite decide_False, decide_True by done. rewrite Er. destruct e; [done|].
    by destruct (decide (pt_state (tk_self st') = kResponseSending)). }
  rewrite Estep. clear Estep.
  destruct Hcase as [[He (d' & k' & ps' & buf' & b' & -> & Hk' & Hc' & Hs' & Hb1' & Hb2' & Hb3' & HC' & Hf')]|[-> [ps' Hend]]]; cbn [tk_sock tk_self pt_state] in *.
  - assert (recv_inv k0 r (Tsk d' k' (task kDataReceiving (rx_at ps' buf' b') r))) as Hinv.
    { exists d', k', ps', buf', b'. split_and!; try done. rewrite Hk' at 1. rewrite Hk at 1. done. }
    destruct He as [(-> & Hlt & Hfl)|[-> Hlt]].
    + eexists. left. split; [done|]. split; [done|]. cbn [tk_sock]. rewrite Hfl. split; [done|lia].
    + rewrite decide_False by done. destruct (IH _ Hinv) as (st'' & [(E1 & Hi & Hl & Hfl)|Hsnd]); [cbn [tk_sock]; lia| |]; exists st''; [left|by right].
      cbn [tk_sock] in *. split_and!; [exact E1|done|lia|lia].
  - exists st'. right. destruct Hend as (? & ? & Hk' & ? & ? & ? & ? & ? & Hst & ?). rewrite Hst, decide_True by done. split; [done|]. exists ps'. unfold put_ended. split_and!; try done.
    rewrite Hk' at 1. rewrite Hk at 1. done.
Qed.

(** ** The answer *)

(** A sock that begins to answer, or goes on. *)
Definition answering (ans : bytes) (w0 : bytes) (k : sock) : Prop :=
  sender_ok k ∧ (sk_buf k = [] ∨ sk_buf k = ans) ∧ sk_wire k ++ todo k ans = w0 ++ ans.
Lemma answering_start ans k : sender_ok k → sk_buf k = [] → answering ans (sk_wire k) k.
Proof. intros Hk Hb. split; [done|split; [by left|]]. unfold todo. by rewrite decide_True. Qed.
Lemma answering_run ans w0 k : answering ans w0 k → Z.of_nat (length ans) ≤ kSendBufferLen → ∃ err k',
  Sendall ans k = Some (err, k') ∧ sender_ok k' ∧ sk_in k' = sk_in k ∧
  (err = OS_NoErr ∧ sk_buf k' = [] ∧ sk_wire k' = w0 ++ ans ∧ (length (sk_out k') ≤ length (sk_out k))%nat ∨
   err = EAGAIN ∧ answering ans w0 k' ∧ (length (sk_out k') < length (sk_out k))%nat).
Proof.
  intros (Hk & Hb & Hw) Hl. destruct (Sendall_run ans k Hk Hb Hl) as (err & k' & Es & Hk' & Hin & Hcase).
  exists err, k'. split; [done|split; [done|split; [done|]]]. rewrite Hw in Hcase.
  destruct Hcase as [(? & ? & ? & ?)|(? & ? & Hw' & ?)]; [by left|right]. split; [done|split; [|done]]. split; [done|split; [by right|done]].
Qed.

(** A task whose answer is packed. *)
Definition packed (ans : bytes) (t : put_task) : Prop :=
  pt_client t = client ∧ pt_req t = m ∧ pt_cap t = cap ∧ pt_state t = kResponseSending ∧ re_has (pt_res t) = true ∧
  take (re_len (pt_res t)) (re_send (pt_res t)) = ans.
Lemma put_sending_packed ans w0 d k t : packed ans t → answering ans w0 k → Z.of_nat (length ans) ≤ kSendBufferLen → ∃ err k',
  put_sending (Tsk d k t) = Some (err, Tsk d k' t) ∧ sender_ok k' ∧ sk_in k' = sk_in k ∧
  (err = OS_NoErr ∧ sk_buf k' = [] ∧ sk_wire k' = w0 ++ ans ∧ (length (sk_out k') ≤ length (sk_out k))%nat ∨
   err = EAGAIN ∧ answering ans w0 k' ∧ (length (sk_out k') < length (sk_out k))%nat).
Proof.
  intros (_ & _ & _ & _ & Hhas & Hans) Hk Hl. destruct (answering_run ans w0 k Hk Hl) as (err & k' & Es & Hr).
  exists err, k'. split; [|done]. unfold put_sending, put_pack, self. M_unfold. cbn [tk_self]. rewrite Hhas. cbn [tk_self]. rewrite Hans.
  unfold on_sock, zoom. cbn [tk_sock]. by rewrite Es.
Qed.

Definition put_type : Z := if client then CLIENT_PUT else DS_BACKUP_CHUNK_PUSH.
Definition put_id : Z := if client then m F_request_id else ds_request_id.
Definition put_ans (c : Z) : bytes := code_ans put_type put_id c.
Definition first_resp : resp := Resp msg0 false (ds_junk 1024) O.
(** The notice of a stored block. *)
Definition stored_notice (i : Z * Z * Z) : bytes :=
  concat (copy_block_req (BlockMsg 0 0 (u64 (m F_fileid)) (u32 (m F_chunkid)) (u32 ds_server_id)) (Z.shiftr (i64 (i.2 - i.1.2)) 20)).

(** Packing the answer of an upload that has ended. *)
Lemma put_pack_run d k t i : pt_client t = client → pt_req t = m → pt_cap t = cap → pt_state t = kResponseSending → pt_res t = res_code PUTOK first_resp →
  get_ds_filesystem_info (dv_store d) = Some (i, dv_store d) → ∃ t',
  put_pack (Tsk d k t) = Some (tt, Tsk (dv_enqueue (stored_notice i) d) k t') ∧ packed (put_ans PUTOK) t'.
Proof.
  intros H1 H2 H3 H4 H5 Hi. destruct t as [c' m' cap' st' x' r']. cbn in H1, H2, H3, H4, H5. subst c' m' cap' st' r'.
  set (r1 := (if client then re_head CLIENT_PUT (m F_request_id) 20 (res_code PUTOK first_resp) else re_head DS_BACKUP_CHUNK_PUSH ds_request_id 20 (res_code PUTOK first_resp))).
  assert (packet [(I32, F_retcode)] r1 = Some (GV_SUCCESS, Resp (re_msg r1) (re_has r1) (put_ans PUTOK ++ drop 20 (re_send r1)) 20)) as Ep.
  { apply packet_run; subst r1; unfold put_type, put_id; destruct client; try done; unfold first_resp; cbn [re_head res_code re_send]; rewrite ds_junk_length; lia. }
  assert (on_store get_ds_filesystem_info d = Some (i, d)) as Ei.
  { unfold on_store, zoom. rewrite Hi. by destruct d. }
  exists (task kResponseSending x' (Resp (re_msg r1) true (put_ans PUTOK ++ drop 20 (re_send r1)) 20)). split.
  - unfold put_pack, self. rewrite (M_bind_Some _ _ _ (task kResponseSending x' (res_code PUTOK first_resp)) _) by done. cbn [pt_res re_has res_code first_resp].
    assert ((re_msg (res_code PUTOK first_resp) F_retcode =? PUTOK) = true) as -> by done. cbn [pt_req].
    rewrite M_bind_assoc. unfold on_ds at 1, zoom at 1. unfold mbind at 1, M_bind at 1. cbn [tk_ds].
    rewrite (notify_ns_backup_ok_run _ _ _ _ _ Ei). fold (stored_notice i). cbn [tk_sock tk_self].
    rewrite (M_bind_Some _ _ _ tt _) by done.
    assert (packet_put_resp (Tsk (dv_enqueue (stored_notice i) d) k (task kResponseSending x' (res_code PUTOK first_resp))) =
      Some (0, Tsk (dv_enqueue (stored_notice i) d) k (task kResponseSending x' (Resp (re_msg r1) (re_has r1) (put_ans PUTOK ++ drop 20 (re_send r1)) 20)))) as Epp.
    { unfold packet_put_resp, self. M_unfold. cbn [tk_self pt_client pt_req pt_res]. fold r1.
      assert ((re_msg r1 F_retcode =? 0) = false) as -> by (subst r1; by destruct client). unfold lift. rewrite Ep. done. }
    rewrite (M_bind_Some _ _ _ _ _ Epp). done.
  - unfold packed. cbn [pt_client pt_req pt_cap pt_state pt_res re_has re_len re_send]. split_and!; done.
Qed.

(** ** Runs of the task *)

(** The copies that are started. *)
Definition copies : list new_task :=
  if client then (λ i, NewPush (new_push_task (m (F_ip i)) (m (F_port i)) (m F_fileid) (m F_chunkid) (m F_start) (m F_end))) <$>
    seq 0 (Z.to_nat (m F_backup_dataservernum))
  else [].
Definition spawned (ts : list new_task) (d : dsv) : dsv := Dsv (dv_store d) (dv_max d) (dv_bad d) (dv_queue d) (dv_tasks d ++ ts) (dv_rcv d) (dv_snd d).
Lemma spawn_run n i d k t : pt_req t = m → Z.of_nat (i + n) ≤ pt_cap t →
  spawn_pushes n i (Tsk d k t) = Some (tt, Tsk (spawned
    ((λ i, NewPush (new_push_task (m (F_ip i)) (m (F_port i)) (m F_fileid) (m F_chunkid) (m F_start) (m F_end))) <$> seq i n) d) k t).
Proof.
  intros Hm. revert i d. induction n as [|n IH]; intros i d Hc; cbn [spawn_pushes seq fmap list_fmap].
  { unfold spawned. rewrite app_nil_r. by destruct d. }
  unfold self. M_unfold. cbn [tk_self]. destruct (Z.leb_spec (pt_cap t) (Z.of_nat i)) as [?|_]; [lia|].
  unfold on_ds, zoom. cbn [tk_ds tk_sock tk_self]. rewrite IH by lia. rewrite Hm. unfold spawned, dv_spawn. cbn. by rewrite <- app_assoc.
Qed.

(** The state in which the answer waits. *)
Definition ans_inv (ps : list bytes) (i : Z * Z * Z) (w0 : bytes) (st : tsk put_task) : Prop := ∃ d,
  tk_ds st = dv_enqueue (stored_notice i) d ∧ stage ps d ∧ mjoin ps = C ∧ space (super_block_ (dv_store d)) = Some (i.1.2, i.2) ∧
  packed (put_ans PUTOK) (tk_self st) ∧ answering (put_ans PUTOK) w0 (tk_sock st).
(** The end of an upload. *)
Definition uploaded (w0 : bytes) (st : tsk put_task) : Prop := ∃ ps i d,
  tk_ds st = spawned copies (dv_enqueue (stored_notice i) d) ∧ stage ps d ∧ mjoin ps = C ∧
  space (super_block_ (dv_store d)) = Some (i.1.2, i.2) ∧ sk_wire (tk_sock st) = w0 ++ put_ans PUTOK.

Definition cap_ok : Prop := client = true → 0 ≤ m F_backup_dataservernum ≤ cap.
Lemma run_answer ps i w0 st : cap_ok → ans_inv ps i w0 st → ∃ r st', (x ← put_sending;
    if waits x then mret 0 else t ← self; (if (x =? OS_NoErr) && pt_client t then spawn_pushes (Z.to_nat (pt_req t F_backup_dataservernum)) O else mret tt);; mret (-1)) st = Some (r, st') ∧
  (r = 0 ∧ ans_inv ps i w0 st' ∧ (length (sk_out (tk_sock st')) < length (sk_out (tk_sock st)))%nat ∨ r = -1 ∧ uploaded w0 st').
Proof.
  intros Hcap (d & Hd & Hs & Hj & Hi & Hp & Ha). destruct st as [d1 k t]. cbn [tk_ds tk_self tk_sock] in *. subst d1.
  destruct (put_sending_packed (put_ans PUTOK) w0 (dv_enqueue (stored_notice i) d) k t Hp Ha) as (err & k' & Es & Hk' & Hin & Hcase); [done|].
  rewrite (M_bind_Some _ _ _ _ _ Es). destruct Hcase as [(-> & Hb & Hw & Hl)|(-> & Ha' & Hl)].
  - change (waits OS_NoErr) with false. cbv iota. unfold self. rewrite (M_bind_Some _ _ _ t _) by done.
    pose proof Hp as (Hc1 & Hc2 & Hc3 & _). rewrite Hc1, Hc2. change (OS_NoErr =? OS_NoErr) with true. cbn [andb].
    exists (-1), (Tsk (spawned copies (dv_enqueue (stored_notice i) d)) k' t). split.
    + unfold copies. destruct client eqn:Hcl; [|unfold spawned; M_unfold; rewrite app_nil_r; by destruct d].
      unfold mbind, M_bind. rewrite spawn_run; [done|done|]. rewrite Hc3. destruct (Hcap Hcl). lia.
    + right. split; [done|]. exists ps, i, d. cbn [tk_ds tk_sock]. by split_and!.
  - change (waits EAGAIN) with true. cbv iota. eexists 0, _. split; [done|]. left. split; [done|]. cbn [tk_sock]. split; [|done].
    exists d. cbn [tk_ds tk_sock tk_self]. by split; [|split; [|split; [|split; [|split]]]].
Qed.

Definition figures_ok : Prop := figures (super_block_ (dv_store d0)) ∧ figures (add_used 1 (super_block_ (dv_store d0))).
Lemma stage_figures ps d : ds_rep g E (dv_store d0) v → d_os (disk (dv_store d0)) = [] → figures_ok → stage ps d → figures (super_block_ (dv_store d)).
Proof.
  intros HR Hq [F0 F1] (M & _). rewrite (moved_count _ _ _ _ _ _ M Hq).
  destruct (writes_count g E K up_start ps v) as [Hc|[Hc _]]; rewrite Hc.
  - rewrite Z.sub_diag, add_used_0; [done|by eapply rep_super].
  - by replace (count v + 1 - count v) with 1 by lia.
Qed.

(** Sending begins when the upload has ended. *)
Lemma ended_answer ps k0 st : ds_rep g E (dv_store d0) v → d_os (disk (dv_store d0)) = [] → figures_ok → sender_ok k0 → sk_buf k0 = [] →
  put_ended ps (tk_ds st) k0 (tk_sock st) (tk_self st) first_resp → ∃ i st', put_sending st = put_sending st' ∧ ans_inv ps i (sk_wire k0) st' ∧ sk_out (tk_sock st') = sk_out k0.
Proof.
  intros HR Hq HF Hk0 Hb (Hs & Hj & Hk & _ & _ & H1 & H2 & H3 & H4 & H5). destruct st as [d k t]. cbn [tk_ds tk_sock tk_self] in *.
  destruct (info_run (dv_store d) (stage_figures ps d HR Hq HF Hs)) as (i & Hi & Hsp).
  destruct (put_pack_run d k t i H1 H2 H3 H4 H5 Hi) as (t' & Ep & Hp). exists i, (Tsk (dv_enqueue (stored_notice i) d) k t'). split; [|split].
  - unfold put_sending. rewrite (M_bind_Some _ _ _ _ _ Ep).
    assert (put_pack (Tsk (dv_enqueue (stored_notice i) d) k t') = Some (tt, Tsk (dv_enqueue (stored_notice i) d) k t')) as Ep2.
    { unfold put_pack, self. M_unfold. cbn [tk_self]. by destruct Hp as (_ & _ & _ & _ & -> & _). }
    by rewrite (M_bind_Some _ _ _ _ _ Ep2).
  - exists d. cbn [tk_ds tk_sock tk_self]. split; [done|split; [done|split; [done|split; [done|split; [done|]]]]].
    rewrite Hk. replace (sk_wire k0) with (sk_wire (with_in (sk_in k) k0)) by done. apply answering_start; [|done].
    destruct Hk0 as (? & ? & ?). by split; [|split].
  - cbn [tk_sock]. by rewrite Hk.
Qed.

Lemma Run_put_eq fuel st : sk_conn (tk_sock st) = true → Run_put false fuel st = (x ← put_process fuel;
    if waits x then mret 0 else t ← self; (if (x =? OS_NoErr) && pt_client t then spawn_pushes (Z.to_nat (pt_req t F_backup_dataservernum)) O else mret tt);; mret (-1)) st.
Proof.
  intros Hc. unfold Run_put, ProcessEvent_put. rewrite M_bind_assoc. unfold gets. unfold mbind at 1, M_bind at 1. by rewrite Hc.
Qed.

Definition runs_on (w0 : bytes) (out : nat) (st : tsk put_task) (fuel : nat) (res : option (Z * tsk put_task)) : Prop := ∃ r st', res = Some (r, st') ∧
  (r = 0 ∧ ((∃ k0, recv_inv k0 first_resp st' ∧ sender_ok k0 ∧ sk_buf k0 = [] ∧ sk_wire k0 = w0 ∧ (length (sk_in (tk_sock st')) < length (sk_in (tk_sock st)))%nat ∧
       length (sk_out k0) = out ∧ (length (flow (sk_in (tk_sock st'))) < fuel)%nat) ∨
     (∃ ps i, ans_inv ps i w0 st' ∧ (length (sk_out (tk_sock st')) < out)%nat)) ∨
   r = -1 ∧ uploaded w0 st').
Lemma run_recv k0 st fuel : up_ok → cap_ok → ds_rep g E (dv_store d0) v → figures_ok → recv_inv k0 first_resp st → sender_ok k0 → sk_buf k0 = [] →
  (length (flow (sk_in (tk_sock st))) < fuel)%nat → runs_on (sk_wire k0) (length (sk_out k0)) st fuel (Run_put false fuel st).
Proof.
  intros Hup Hcap HR HF Hi Hk0 Hb Hf. assert (sk_conn (tk_sock st) = true) as Hc.
  { destruct Hi as (d & k & ps & buf & b & -> & Hk & _). cbn [tk_sock]. by rewrite Hk. }
  rewrite Run_put_eq by done. destruct (put_process_run fuel k0 _ st Hup Hi Hf) as (st1 & [(E1 & Hi1 & Hl1 & Hf1)|(E1 & ps & Hend)]).
  - rewrite (M_bind_Some _ _ _ _ _ E1). change (waits EAGAIN) with true. cbv iota. eexists 0, st1. split; [done|]. left. split; [done|]. left.
    exists k0. split; [done|split; [done|split; [done|split; [done|split; [done|split; [done|lia]]]]]].
  - destruct (ended_answer ps k0 st1 HR (proj1 (proj2 Hup)) HF Hk0 Hb Hend) as (i & st2 & E2 & Ha & Ho). rewrite E2 in E1.
    destruct (run_answer ps i _ st2 Hcap Ha) as (r & st3 & E3 & Hr). exists r, st3. split.
    + unfold mbind at 1, M_bind at 1. rewrite E1. exact E3.
    + destruct Hr as [(-> & Ha3 & Hl3)|[-> Hu]]; [left|by right]. split; [done|]. right. exists ps, i. split; [done|]. by rewrite <- Ho.
Qed.
Lemma run_ans ps i w0 st fuel : cap_ok → ans_inv ps i w0 st → (0 < fuel)%nat → ∃ r st', Run_put false fuel st = Some (r, st') ∧
  (r = 0 ∧ ans_inv ps i w0 st' ∧ (length (sk_out (tk_sock st')) < length (sk_out (tk_sock st)))%nat ∨ r = -1 ∧ uploaded w0 st').
Proof.
  intros Hcap Ha Hf. pose proof Ha as (d & _ & _ & _ & _ & Hp & Hans). rewrite Run_put_eq by apply Hans.
  destruct fuel as [|fuel]; [lia|]. destruct st as [d1 k t]. cbn [tk_self tk_sock] in Hp, Hans.
  assert (put_process (S fuel) (Tsk d1 k t) = put_sending (Tsk d1 k t)) as Ep.
  { cbn [put_process]. unfold self. M_unfold. cbn [tk_self]. pose proof Hp as (_ & _ & _ & Hst & _).
    rewrite decide_False by (by rewrite Hst). cbn [tk_self]. rewrite decide_False by (by rewrite Hst). cbn [tk_self]. by rewrite decide_True by done. }
  destruct (run_answer ps i w0 _ Hcap Ha) as (r & st' & Er & Hr). exists r, st'. split; [|done]. unfold mbind at 1, M_bind at 1. rewrite Ep. exact Er.
Qed.

Lemma events_ans ps i w0 st fuel n : cap_ok → (0 < fuel)%nat → ans_inv ps i w0 st → (length (sk_out (tk_sock st)) < n)%nat →
  ∃ st', events (Run_put false fuel) n st = Some (-1, st') ∧ uploaded w0 st'.
Proof.
  intros Hcap Hf. revert st. induction n as [|n IH]; intros st Ha Hn; [lia|].
  destruct (run_ans ps i w0 st fuel Hcap Ha Hf) as (r & st1 & Er & Hr). cbn [events]. rewrite (M_bind_Some _ _ _ _ _ Er).
  destruct Hr as [(-> & Ha1 & Hl)|[-> Hu]]; [|by exists st1]. cbn [Z.eqb]. apply IH; [done|lia].
Qed.
Lemma events_recv k0 st fuel n : up_ok → cap_ok → ds_rep g E (dv_store d0) v → figures_ok → recv_inv k0 first_resp st → sender_ok k0 → sk_buf k0 = [] →
  (length (flow (sk_in (tk_sock st))) < fuel)%nat → (length (sk_in (tk_sock st)) + length (sk_out k0) < n)%nat →
  ∃ st', events (Run_put false fuel) n st = Some (-1, st') ∧ uploaded (sk_wire k0) st'.
Proof.
  intros Hup Hcap HR HF. revert st k0. induction n as [|n IH]; intros st k0 Hi Hk0 Hb Hf Hn; [lia|].
  destruct (run_recv k0 st fuel Hup Hcap HR HF Hi Hk0 Hb Hf) as (r & st1 & Er & Hr). cbn [events]. rewrite (M_bind_Some _ _ _ _ _ Er).
  destruct Hr as [[-> [(k1 & Hi1 & Hk1 & Hb1 & Hw1 & Hl1 & Ho1 & Hf1)|(ps & i & Ha & Hl)]]|[-> Hu]]; [| |by exists st1]; cbn [Z.eqb].
  - rewrite <- Hw1. apply IH; try done. lia.
  - apply (events_ans ps i); [done|lia|done|lia].
Qed.

(** The first turn. *)
Definition first_task (b : bytes) (n : nat) : put_task := task kRequestProcessing (Rx b (Z.of_nat n) 0 0 (Z.of_nat n)) first_resp.
Lemma first_turn fuel b k buf : up_ok → ds_rep g E (dv_store d0) v →
  put_content (first_task b (length buf)) = Z.of_nat (length C) → put_invalid (dv_max d0) (first_task b (length buf)) = false →
  sk_conn k = true → calm (sk_in k) → length b = 1025%nat → take (length buf) b = buf → (length buf < 1024)%nat → buf ++ flow (sk_in k) = C →
  ∃ st1, (put_process (S fuel) (Tsk d0 k (first_task b (length buf))) = put_process (S fuel) st1 ∧ recv_inv k first_resp st1 ∧ tk_sock st1 = k ∧ sk_in k ≠ [] ∨
          put_process (S fuel) (Tsk d0 k (first_task b (length buf))) = put_sending st1 ∧ ∃ ps, put_ended ps (tk_ds st1) k (tk_sock st1) (tk_self st1) first_resp).
Proof.
  intros Hup HR Hcl Hval Hconn Hcalm Hb1 Hb2 Hb3 HC. pose proof Hup as (HC0 & Hq & Hst & Hmx).
  assert (k = with_in (sk_in k) k) as Hk by (destruct k; cbn in Hconn |- *; by subst).
  assert (stage [] d0) as Hs0 by (split; [by apply moved_refl|done]).
  assert (length C = length buf + length (flow (sk_in k)))%nat as HlC by (rewrite <- HC, length_app; done).
  set (x0 := rx_at [] buf b).
  assert (put_processing (Tsk d0 k (first_task b (length buf))) =
    (if Z.of_nat (length C) <=? Z.of_nat (length buf) then
       ret ← put_write; if ret <? 0 then put_answer INTERNALERROR else on_ds (modify (IncrementRcvBytes (Z.of_nat (length buf))));; put_answer PUTOK
     else upd_self (pt_set_state kDataReceiving)) (Tsk d0 k (task kRequestProcessing x0 first_resp))) as Epr.
  { assert (∀ st, put_content (task st x0 first_resp) = Z.of_nat (length C) ∧ put_invalid (dv_max d0) (task st x0 first_resp) = false) as Hg0 by (intros; by split).
    unfold put_processing. rewrite (M_bind_Some _ _ _ tt (Tsk d0 k (task kRequestProcessing x0 first_resp))).
    - unfold self, gets. M_unfold. cbn [tk_ds tk_self]. destruct (Hg0 kRequestProcessing) as [_ ->].
      unfold x0 at 1 2, rx_at. cbn [pt_rx rx_clen rx_drecv mjoin list_join length]. rewrite Nat.add_0_l. done.
    - unfold upd_self, modify. cbn [tk_ds tk_sock tk_self]. unfold first_task, pt_set_rx. cbn [pt_client pt_req pt_cap pt_state pt_rx pt_res rx_buf rx_blen rx_drecv].
      unfold first_task in Hcl. rewrite Hcl. unfold x0, rx_at, put_offset. cbn [pt_client pt_req mjoin list_join length].
      rewrite Z.add_0_r, Nat.add_0_l. done. }
  destruct (Z.leb_spec (Z.of_nat (length C)) (Z.of_nat (length buf))) as [Hge|Hlt].
  - assert (flow (sk_in k) = []) as Hf by (apply nil_length_inv; lia).
    destruct (stage_write kRequestProcessing first_resp [] buf b d0 k Hup Hs0 Hb2 ltac:(cbn; lia)) as (c & s' & Ew & Hc & Hs'). fold x0 in Ew.
    rewrite (M_bind_Some _ _ _ _ _ Ew) in Epr. destruct (Z.ltb_spec c 0) as [?|_]; [lia|].
    set (d1 := IncrementRcvBytes (Z.of_nat (length buf)) (dv_set_store s' d0)).
    exists (Tsk d1 k (task kResponseSending x0 (res_code PUTOK first_resp))). right. split.
    + cbn [put_process]. unfold self at 1. rewrite (M_bind_Some _ _ _ (first_task b (length buf)) _) by done. rewrite decide_True by done.
      unfold mbind at 1, M_bind at 1. rewrite Epr. unfold put_answer, upd_self, self, on_ds, zoom. M_unfold. cbn [tk_ds tk_sock tk_self pt_set_state pt_set_res pt_state].
      by rewrite decide_False, decide_True by done.
    + exists [buf]. unfold put_ended. cbn [tk_ds tk_sock tk_self pt_client pt_req pt_cap pt_state pt_res]. split; [exact Hs'|].
      split_and!; try done. cbn. rewrite app_nil_r, <- HC, Hf. by rewrite app_nil_r.
  - assert (flow (sk_in k) ≠ []) as Hf by (intros Hf; rewrite Hf in HlC; simpl in HlC; lia).
    exists (Tsk d0 k (task kDataReceiving x0 first_resp)). left. split_and!.
    + cbn [put_process]. unfold self. rewrite !(M_bind_Some _ _ _ _ _ (eq_refl : gets tk_self _ = Some _)). rewrite decide_True, decide_False by done.
      unfold mbind at 1, M_bind at 1. rewrite Epr. done.
    + exists d0, k, [], buf, b. split_and!; try done.
    + done.
    + intros H0. by rewrite H0 in Hf.
Qed.

Lemma M_bind_cong {S A B} (f : M S A) (h : A → M S B) s s' : f s = f s' → (f ≫= h) s = (f ≫= h) s'.
Proof. unfold mbind, M_bind. by intros ->. Qed.
Lemma events_cong {T} (run : M (tsk T) Z) n st st' : run st = run st' → events run (S n) st = events run (S n) st'.
Proof. cbn [events]. apply M_bind_cong. Qed.

(** All the turns: at most one for each outcome of the scripts, and one more. *)
Lemma put_task_run fuel n b k buf : up_ok → cap_ok → ds_rep g E (dv_store d0) v → figures_ok →
  put_content (first_task b (length buf)) = Z.of_nat (length C) → put_invalid (dv_max d0) (first_task b (length buf)) = false →
  sender_ok k → sk_buf k = [] → calm (sk_in k) → length b = 1025%nat → take (length buf) b = buf → (length buf < 1024)%nat →
  buf ++ flow (sk_in k) = C → (length C < fuel)%nat → (length (sk_in k) + length (sk_out k) < n)%nat →
  ∃ st', events (Run_put false fuel) n (Tsk d0 k (first_task b (length buf))) = Some (-1, st') ∧ uploaded (sk_wire k) st'.
Proof.
  intros Hup Hcap HR HF Hcl Hval Hk Hkb Hcalm Hb1 Hb2 Hb3 HC Hfuel Hn. pose proof Hk as (Hconn & _).
  assert (length (flow (sk_in k)) < fuel)%nat as Hfl by (rewrite <- HC, length_app in Hfuel; lia).
  destruct fuel as [|fuel]; [lia|]. destruct n as [|n]; [lia|].
  destruct (first_turn fuel b k buf Hup HR Hcl Hval Hconn Hcalm Hb1 Hb2 Hb3 HC) as (st1 & [(E1 & Hi & Hs & _)|(E1 & ps & Hend)]).
  - assert (events (Run_put false (S fuel)) (S n) (Tsk d0 k (first_task b (length buf))) = events (Run_put false (S fuel)) (S n) st1) as ->.
    { apply events_cong. rewrite !Run_put_eq by (by rewrite ?Hs). by apply M_bind_cong. }
    apply (events_recv k); rewrite ?Hs; done.
  - destruct (ended_answer ps k st1 HR (proj1 (proj2 Hup)) HF Hk Hkb Hend) as (i & st2 & E2 & Ha & Ho). rewrite E2 in E1.
    destruct (run_answer ps i _ st2 Hcap Ha) as (r & st3 & E3 & Hr).
    assert (Run_put false (S fuel) (Tsk d0 k (first_task b (length buf))) = Some (r, st3)) as Er.
    { rewrite Run_put_eq by done. unfold mbind at 1, M_bind at 1. rewrite E1. exact E3. }
    cbn [events]. rewrite (M_bind_Some _ _ _ _ _ Er). destruct Hr as [(-> & Ha3 & Hl3)|[-> Hu]]; [|by exists st3].
    cbn [Z.eqb]. apply (events_ans ps i); [done|lia|done|rewrite Ho in Hl3; lia].
Qed.
End put.
