(* ===== verification/DsMain.v ===== *)
(** Connections of a data server from the first byte to the last: a session collects
    the request, the task serves it. *)
From stdpp Require Import functions.
From S2P Require Import Prelude Bytes NetBuf Fields Bitmap DsFile DsBlock BlockStore BlockLoad DataMgr StoreInv StoreData StoreRefine StoreMain.
From S2P Require Import FileSpec ProxyUp DsMsg DsTask DsWire DsTaskSpec.

(** ** Sessions

    The first bytes of a connection are collected until the request is there, which
    says its length itself; the socket goes to the task. *)
Section session.
Context `{!DsEnv} (req rest : bytes).
Hypothesis Hreq : (4 ≤ length req ≤ 1024)%nat.
Hypothesis Hhead : take 4 req = be_bytes 4 (Z.of_nat (length req)).

Lemma session_step fuel d k b len err l k' b2 n :
  Reads (Z.to_nat (kReqBufSize - len)) k = Some ((err, l), k') → st_bytes (Z.to_nat len) l b = Some b2 → GetRequestLen b2 = Some n →
  let len' := len + Z.of_nat (length l) in
  session_process (S fuel) (Tsk d k (Session kRequestReceiving b len)) =
    if negb (err =? OS_NoErr) then Some (err, Tsk d k' (Session kRequestReceiving b2 len'))
    else if (4 <=? len') && (u32 n <=? len') then on_ds (MessageTransaction b2 len') (Tsk d k' (Session kRequestProcessing b2 len'))
    else session_process fuel (Tsk d k' (Session kRequestReceiving b2 len')).
Proof.
  intros E1 E2 E3. cbv zeta. cbn [session_process]. unfold self, upd_self, on_sock, zoom, lift. M_unfold.
  cbn [tk_ds tk_sock tk_self ss_state ss_buf ss_len]. rewrite decide_True by done. cbn [ss_state ss_buf ss_len]. cbn [tk_ds tk_sock tk_self]. rewrite E1. cbn [fst snd tk_ds tk_sock tk_self ss_state ss_buf ss_len].
  rewrite E2. cbn [mbind option_bind tk_ds tk_sock tk_self ss_state ss_buf ss_len].
  destruct (negb (err =? OS_NoErr)); [done|]. rewrite E3. cbn [mbind option_bind].
  destruct (_ && _); cbn [tk_ds tk_sock tk_self ss_state ss_buf ss_len]; [by rewrite decide_True|by rewrite decide_False].
Qed.
Lemma request_length got b f : take (length got) b = got → got ++ f = req ++ rest → (4 ≤ length got)%nat → (length b = 1025)%nat →
  GetRequestLen b = Some (Z.of_nat (length req)).
Proof.
  intros Hb Hf H4 Hl. assert (take 4 b = be_bytes 4 (Z.of_nat (length req))) as Ht.
  { rewrite <- Hhead. assert (take 4 (got ++ f) = take 4 (req ++ rest)) as H' by by rewrite Hf.
    rewrite !take_app_le in H' by lia. rewrite <- H', <- Hb, take_take. f_equal. lia. }
  unfold GetRequestLen, ldn, ld_bytes. rewrite decide_True by lia. rewrite drop_0, Ht. cbn [fmap option_fmap option_map]. rewrite ntohl_be.
  rewrite u32_small by (unfold is_u32; lia). by rewrite i32_small by lia.
Qed.

Definition collecting (k0 : sock) (d : dsv) (got b : bytes) (script : list recv_res) : Prop :=
  calm script ∧ length b = 1025%nat ∧ take (length got) b = got ∧ got ++ flow script = req ++ rest.
Lemma session_turn fuel k0 d got b script :
  sk_conn k0 = true → collecting k0 d got b script → (length got < length req)%nat → (length (flow script) < fuel)%nat → ∃ got' b' script',
  collecting k0 d got' b' script' ∧ (length got' ≤ 1024)%nat ∧ (length script' ≤ length script)%nat ∧ (length (flow script') ≤ length (flow script))%nat ∧
  ((length got' < length req)%nat ∧ (length script' < length script)%nat ∧
   session_process fuel (Tsk d (with_in script k0) (Session kRequestReceiving b (Z.of_nat (length got)))) =
     Some (EAGAIN, Tsk d (with_in script' k0) (Session kRequestReceiving b' (Z.of_nat (length got')))) ∨
   (length req ≤ length got')%nat ∧
   session_process fuel (Tsk d (with_in script k0) (Session kRequestReceiving b (Z.of_nat (length got)))) =
     on_ds (MessageTransaction b' (Z.of_nat (length got'))) (Tsk d (with_in script' k0) (Session kRequestProcessing b' (Z.of_nat (length got'))))).
Proof.
  intros Hc. revert got b script. induction fuel as [|fuel IH]; intros got b script (Hcalm & Hb1 & Hb2 & HC) Hlt Hfuel; [lia|].
  assert (length got + length (flow script) = length req + length rest)%nat as HlC by (rewrite <- !length_app; by f_equal).
  destruct (os_recv_calm script (Z.to_nat (kReqBufSize - Z.of_nat (length got)))) as (err & l & script' & Er & Hcalm' & Hflow & Hlen & Hcase);
    [unfold kReqBufSize; lia|done|]. assert (length l ≤ 1024 - length got)%nat as Hl' by (unfold kReqBufSize in Hlen; lia).
  set (b2 := take (length got) b ++ l ++ drop (length got + length l) b).
  assert (length b2 = 1025%nat) as Hb2l by (subst b2; rewrite !length_app, length_take, length_drop; lia).
  assert (take (length (got ++ l)) b2 = got ++ l) as Hb2t by (subst b2; rewrite Hb2, app_assoc; by rewrite take_app_length).
  assert (length (flow script) = length l + length (flow script'))%nat as Hfl' by (rewrite Hflow, length_app; done).
  assert (collecting k0 d (got ++ l) b2 script') as Hinv by (split; [done|split; [done|split; [done|]]]; by rewrite <- app_assoc, <- Hflow).
  assert (Reads (Z.to_nat (kReqBufSize - Z.of_nat (length got))) (with_in script k0) = Some ((err, l), with_in script' k0)) as E1.
  { unfold Reads, with_in. M_unfold. cbn [sk_conn sk_in negb]. by rewrite Er. }
  assert (∃ n, GetRequestLen b2 = Some n ∧ ((4 ≤ length (got ++ l))%nat → n = Z.of_nat (length req))) as (n & En & Hn).
  { destruct Hinv as (_ & H1 & H2 & H3). destruct (decide (4 ≤ length (got ++ l))%nat) as [H4|H4].
    - exists (Z.of_nat (length req)). split; [by eapply request_length|done].
    - eexists. split; [|intros ?; by destruct H4]. unfold GetRequestLen, ldn, ld_bytes. by rewrite decide_True by lia. }
  rewrite (session_step fuel d _ b (Z.of_nat (length got)) err l _ b2 n E1) by (rewrite ?Nat2Z.id; apply st_bytes_ok || done; lia).
  replace (Z.of_nat (length got) + Z.of_nat (length l)) with (Z.of_nat (length (got ++ l))) by (rewrite length_app; lia).
  destruct Hcase as [(-> & -> & Hsh)|(-> & Hl & Hsh)].
  - change (negb (EAGAIN =? OS_NoErr)) with true. cbv iota. destruct Hsh as [Hsh|[H0 _]]; [|subst script; cbn in HlC; lia].
    exists (got ++ []), b2, script'. split; [done|]. rewrite length_app in *. cbn [length] in *. split; [lia|split; [lia|split; [lia|]]]. left. split; [lia|split; done].
  - change (negb (OS_NoErr =? OS_NoErr)) with false. cbv iota. destruct (decide (length req ≤ length (got ++ l))%nat) as [Hge|Hlt'].
    + exists (got ++ l), b2, script'. rewrite Hn by lia. rewrite u32_small by (unfold is_u32; lia).
      destruct (Z.leb_spec 4 (Z.of_nat (length (got ++ l)))), (Z.leb_spec (Z.of_nat (length req)) (Z.of_nat (length (got ++ l)))); try lia.
      cbn [andb]. rewrite length_app in *. split; [done|split; [lia|split; [lia|split; [lia|]]]]. right. by split.
    + assert (((4 <=? Z.of_nat (length (got ++ l))) && (u32 n <=? Z.of_nat (length (got ++ l)))) = false) as ->.
      { destruct (Z.leb_spec 4 (Z.of_nat (length (got ++ l)))); [|done]. rewrite Hn by lia. rewrite u32_small by (unfold is_u32; lia). apply Z.leb_gt. lia. }
      destruct (IH (got ++ l) b2 script' Hinv) as (got' & b' & script'' & Hi & H1 & H2 & H3 & H4); [lia|destruct l; [done|simpl in *; lia]|].
      exists got', b', script''. split; [done|split; [done|split; [lia|split; [lia|]]]].
      destruct H4 as [(? & ? & ?)|?]; [left|by right]. split; [done|split; [lia|done]].
Qed.

Lemma session_run fuel n d k : sk_conn k = true → calm (sk_in k) → flow (sk_in k) = req ++ rest →
  (length (flow (sk_in k)) < fuel)%nat → (length (sk_in k) < n)%nat → ∃ buf b script,
  calm script ∧ (length script ≤ length (sk_in k))%nat ∧ length b = 1025%nat ∧ take (length req + length buf) b = req ++ buf ∧
  (length req + length buf ≤ 1024)%nat ∧ buf ++ flow script = rest ∧
  ∀ c d', MessageTransaction b (Z.of_nat (length req + length buf)) d = Some (c, d') → waits c = false →
  ∃ ss, events (Run_session false fuel) n (Tsk d k new_session) = Some (-1, Tsk d' (with_in script k) ss).
Proof.
  intros Hconn Hcalm HC Hfuel Hn.
  assert (k = with_in (sk_in k) k) as Hk by (destruct k; cbn in Hconn |- *; by subst).
  assert (∀ n got b script st, collecting k d got b script → (length got < length req)%nat → (length (flow script) < fuel)%nat → (length script < n)%nat →
    st = Session kRequestReceiving b (Z.of_nat (length got)) ∨ st = new_session ∧ st = Session kInitial b (Z.of_nat (length got)) →
    ∃ buf b' script', calm script' ∧ (length script' ≤ length script)%nat ∧ length b' = 1025%nat ∧ take (length req + length buf) b' = req ++ buf ∧
      (length req + length buf ≤ 1024)%nat ∧ buf ++ flow script' = rest ∧
      ∀ c d', MessageTransaction b' (Z.of_nat (length req + length buf)) d = Some (c, d') → waits c = false →
      ∃ ss, events (Run_session false fuel) n (Tsk d (with_in script k) st) = Some (-1, Tsk d' (with_in script' k) ss)) as Hall.
  { clear n Hn. induction n as [|n IH]; intros got b script st Hi Hlt Hf Hn Hst; [lia|].
    destruct (session_turn fuel k d got b script Hconn Hi Hlt Hf) as (got' & b' & script' & Hi' & Hle & Hls & Hlf & Hcase).
    assert (∀ x, session_process fuel (Tsk d (with_in script k) (Session kRequestReceiving b (Z.of_nat (length got)))) = x →
      Run_session false fuel (Tsk d (with_in script k) st) = match x with Some (e, st') => Some (if waits e then 0 else -1, st') | None => None end) as Hrun.
    { intros x <-. unfold Run_session, upd_self. M_unfold. cbn [tk_ds tk_sock tk_self with_in sk_conn negb].
      destruct Hst as [->|[_ ->]]; cbn [ss_state ss_buf ss_len]; [rewrite decide_False by done|rewrite decide_True by done]; done. }
    destruct Hcase as [(Hlt' & Hls' & E)|(Hge & E)]; apply Hrun in E; cbn [events].
    - destruct (IH got' b' script' _ Hi' Hlt' ltac:(lia) ltac:(lia) (or_introl eq_refl)) as (buf & b2 & script2 & H1 & H2 & H3 & H4 & H5 & H6 & H7).
      exists buf, b2, script2. split; [done|split; [lia|split; [done|split; [done|split; [done|split; [done|]]]]]]. intros c d' Hm Hw.
      rewrite (M_bind_Some _ _ _ _ _ E). by apply (H7 c).
    - destruct Hi' as (Hc' & Hb1' & Hb2' & HC'). assert (got' = req ++ drop (length req) got') as Hgot.
      { rewrite <- (take_drop (length req) got') at 1. f_equal. rewrite <- (take_app_le got' (flow script')), HC' by done. apply take_app_length. }
      set (buf := drop (length req) got') in *. assert (length got' = length req + length buf)%nat as Hl by (by rewrite Hgot, length_app).
      exists buf, b', script'. rewrite Hl in *. rewrite Hgot in HC', Hb2'. split; [done|split; [done|split; [done|split; [done|split; [done|split]]]]].
      + rewrite <- app_assoc in HC'. by apply app_inv_head in HC'.
      + intros c d' Hm Hw. unfold on_ds, zoom in E. cbn [tk_ds tk_sock tk_self] in E. rewrite Hm, Hw in E. rewrite (M_bind_Some _ _ _ _ _ E). by eexists. }
  specialize (Hall n [] (replicate 1025 0) (sk_in k) new_session). rewrite <- Hk in Hall.
  apply Hall; [by split; [|split; [|split]]|simpl; lia|done|done|by right].
Qed.
End session.

(** ** An upload, from the first byte to the answer *)

Lemma u64_i64 z : u64 (i64 z) = u64 z.
Proof. apply wraps_i64. Qed.
Lemma u32_i32 z : u32 (i32 z) = u32 z.
Proof. apply wraps_i32. Qed.
Lemma ds_upload_req_length id fid bi end_ es : Forall entry_ok es → length (ds_upload_req id fid bi end_ es) = (40 + 20 * length es)%nat.
Proof. intros He. unfold ds_upload_req. rewrite !length_app, !be_bytes_length, relayed_length by done. lia. Qed.
Lemma be_bytes_type a b x l : GetRequestType (be_bytes 4 a ++ be_bytes 4 b ++ be_bytes 4 x ++ l) = Some (i32 (u32 x)).
Proof.
  unfold GetRequestType, ldn, ld_bytes. rewrite !length_app, !be_bytes_length, decide_True by lia.
  rewrite app_assoc, drop_app_length' by (by rewrite length_app, !be_bytes_length).
  rewrite take_app_length' by by rewrite be_bytes_length. cbn [fmap option_fmap option_map]. by rewrite ntohl_be.
Qed.
Lemma take_split {A} (b l : list A) n : take n b = l → b = l ++ drop n b.
Proof. intros <-. by rewrite take_drop. Qed.

(** What was written into a block with room can be read. *)
Lemma spec_write_read g E k C v : C ≠ [] → Z.of_nat (length C) ≤ g_ms g → has_room g E k v →
  (spec_step g E (OpRead k 0 (Z.of_nat (length C))) (spec_step g E (OpWrite k 0 C) v).2).1 = OutData TFS_SUCCESS (Z.of_nat (length C)) C.
Proof.
  intros HC Hms Hr. cbn [spec_step]. rewrite decide_False by done. unfold spec_write. destruct (Z.ltb_spec (g_ms g) (0 + Z.of_nat (length C))) as [?|_]; [lia|].
  assert (∀ id v1, vs_ids v1 !! k = Some id → (spec_step g E (OpRead k 0 (Z.of_nat (length C))) (spec_put id 0 C v1)).1 = OutData TFS_SUCCESS (Z.of_nat (length C)) C) as Hput.
  { intros id v1 Hid. cbn [spec_step spec_put vs_ids vs_data]. rewrite Hid. destruct (Z.ltb_spec (g_ms g) 0) as [?|_]; [lia|].
    rewrite Z.sub_0_r, Z.min_l by done. rewrite fn_lookup_insert, Nat2Z.id. cbn [fst]. by rewrite (file_write_back (Z.to_nat 0)). }
  destruct (vs_ids v !! k) as [id|] eqn:Hid; cbn [snd]; [by apply Hput|]. destruct Hr as [[? ?]|[id Hf]]; [congruence|]. rewrite Hf. cbn [snd].
  apply Hput. cbn [spec_bind vs_ids]. apply lookup_insert_eq.
Qed.

Section upload.
Context `{!DsEnv} (id fid bi : Z) (es : list entry) (C : bytes) (o : msg).
Hypothesis Hes : Forall entry_ok es.
Hypothesis Hlen : 40 + 20 * Z.of_nat (length es) ≤ 1024.
Hypothesis Hmalloc : ds_malloc (40 + Z.of_nat (length es) * 8) = Some o.
Hypothesis Hfid : 0 ≤ fid < 2 ^ 63.
Hypothesis Hbi : 0 ≤ bi < 2 ^ 31.
Hypothesis HC : C ≠ [].
Hypothesis HC31 : Z.of_nat (length C) < 2 ^ 31.
Local Abbreviation num := (Z.of_nat (length es)).
Local Abbreviation Req := (ds_upload_req id fid bi (Z.of_nat (length C)) es).
Definition up_msg : msg := filled (base_fields ++ ClientPut_head ++ address_fields num) (put_msg id fid bi (Z.of_nat (length C)) es) o.

Lemma up_field f : f ∈ (base_fields ++ ClientPut_head).*2 → up_msg f = put_msg id fid bi (Z.of_nat (length C)) es f.
Proof. intros Hf. unfold up_msg. rewrite filled_at, bool_decide_true; [done|]. rewrite app_assoc, fmap_app. apply elem_of_app. by left. Qed.
Lemma up_fields : up_msg F_fileid = fid ∧ up_msg F_chunkid = bi ∧ up_msg F_start = 0 ∧ up_msg F_end = Z.of_nat (length C) - 1 ∧
  up_msg F_backup_dataservernum = num ∧ up_msg F_request_id = i32 id.
Proof.
  rewrite !up_field by (apply (bool_decide_unpack _); vm_compute; exact I). cbn [put_msg head_msg].
  rewrite i64_fits, !i32_small by lia. done.
Qed.
Lemma up_address i e : es !! i = Some e → up_msg (F_ip i) = i32 (be_val (en_addr e)) ∧ up_msg (F_port i) = i32 (be_val (en_port e)).
Proof.
  intros He. pose proof (lookup_lt_Some _ _ _ He) as Hi.
  assert (∀ f, f = F_ip i ∨ f = F_port i → f ∈ (base_fields ++ ClientPut_head ++ address_fields num).*2) as Hin.
  { intros f Hf. rewrite app_assoc, fmap_app. apply elem_of_app. right. apply list_elem_of_fmap. unfold address_fields. rewrite Nat2Z.id.
    destruct Hf as [->| ->]; eexists; (split; [|apply list_elem_of_bind; exists i; split; [|apply elem_of_seq; lia]]); [|left| |right; left]; done. }
  unfold up_msg. rewrite !filled_at, !bool_decide_true by auto. cbn [put_msg]. by rewrite He.
Qed.

(** The request makes a task, which has what came behind the request. *)
Lemma upload_starts b buf d : length b = 1025%nat → take (length Req + length buf) b = Req ++ buf → (length Req + length buf ≤ 1024)%nat → ∃ b',
  let t := first_task true up_msg num b' (length buf) in
  MessageTransaction b (Z.of_nat (length Req + length buf)) d = Some (0, dv_spawn (NewPut t) d) ∧
  length b' = 1025%nat ∧ take (length buf) b' = buf.
Proof.
  intros Hb1 Hb2 Hle. pose proof (ds_upload_req_length id fid bi (Z.of_nat (length C)) es Hes) as HlR.
  apply take_split in Hb2. set (post := drop _ b) in Hb2. rewrite <- app_assoc in Hb2.
  destruct (put_msg_read id fid bi (Z.of_nat (length C)) es o (buf ++ post) (Z.of_nat (length Req + length buf)) Hes ltac:(lia)) as [Eh Er].
  assert (GetRequestType b = Some CLIENT_PUT) as Et by (rewrite Hb2; unfold ds_upload_req; rewrite <- !app_assoc; apply be_bytes_type).
  set (junk := ds_junk 1025). assert (length junk = 1025%nat) as Hj by apply ds_junk_length.
  set (b' := if (0 <? Z.of_nat (length buf)) && (Z.of_nat (length buf) <? kDataBufSize) then buf ++ drop (length buf) junk else junk).
  exists b'. cbv zeta. split.
  - unfold MessageTransaction. rewrite (lift_eq _ _ _ _ Et). change (CLIENT_PUT =? CLIENT_PUT) with true. cbv iota.
    rewrite <- Hb2 in Eh, Er. rewrite (lift_eq _ _ _ _ Eh). cbn [fst snd rb_msg].
    assert (filled (base_fields ++ ClientPut_head) (put_msg id fid bi (Z.of_nat (length C)) es) msg0 F_backup_dataservernum = num) as ->.
    { rewrite filled_at, bool_decide_true; [done|]. apply (bool_decide_unpack _); vm_compute; exact I. }
    rewrite u64_small by (unfold is_u64; lia). rewrite (lift_eq _ _ _ _ Hmalloc). destruct (Z.ltb_spec (40 + num * 8) 40) as [?|_]; [lia|].
    rewrite (lift_eq _ _ _ _ Er). cbn [fst snd rb_msg rb_pos]. fold up_msg. M_unfold. do 4 f_equal.
    unfold first_task, new_put_task. rewrite Nat2Z.id, Hb2, drop_app_length.
    replace (Z.of_nat (length Req + length buf) - Z.of_nat (length Req)) with (Z.of_nat (length buf)) by lia.
    rewrite i32_small, u32_small, Nat2Z.id, take_app_length by (unfold is_u32; lia). done.
  - subst b'. unfold kDataBufSize. destruct (Z.ltb_spec 0 (Z.of_nat (length buf))), (Z.ltb_spec (Z.of_nat (length buf)) 1024); try lia; cbn [andb].
    + rewrite length_app, length_drop, take_app_length. split; [lia|done].
    + split; [done|]. destruct buf; [done|simpl in *; lia].
Qed.
Lemma up_copies : copies true up_msg = (λ e, NewPush (new_push_task (i32 (be_val (en_addr e))) (i32 (be_val (en_port e))) fid bi 0 (Z.of_nat (length C) - 1))) <$> es.
Proof.
  destruct up_fields as (H1 & H2 & H3 & H4 & H5 & _). unfold copies. rewrite H1, H2, H3, H4, H5, Nat2Z.id.
  apply list_eq. intros i. rewrite !list_lookup_fmap. destruct (es !! i) as [e|] eqn:He.
  - rewrite lookup_seq_lt by (by eapply lookup_lt_Some). cbn [fmap option_fmap option_map Nat.add]. destruct (up_address i e He) as [-> ->]. done.
  - apply lookup_ge_None in He. by rewrite lookup_seq_ge.
Qed.

(** What a connection does: the session makes one task, and the task ends. *)
Definition serves_put (fuel n : nat) (d : dsv) (k : sock) (st : tsk put_task) : Prop := ∃ d1 k1 ss t,
  events (Run_session false fuel) n (Tsk d k new_session) = Some (-1, Tsk d1 k1 ss) ∧ dv_tasks d1 = dv_tasks d ++ [NewPut t] ∧
  events (Run_put false fuel) n (Tsk d1 k1 t) = Some (-1, st).
(** The notice of a stored block, and the copies. *)
Definition block_notice (used total : Z) : bytes :=
  concat (copy_block_req (BlockMsg 0 0 fid bi (u32 ds_server_id)) (Z.shiftr (i64 (total - used)) 20)).
Definition block_copies : list new_task :=
  (λ e, NewPush (new_push_task (i32 (be_val (en_addr e))) (i32 (be_val (en_port e))) fid bi 0 (Z.of_nat (length C) - 1))) <$> es.

Context (g : geometry) (Hg : geo_ok g) (E : gset Z) (fuel n : nat) (d : dsv) (v : vstore) (k : sock).
Hypothesis HR : ds_rep g E (dv_store d) v.
Hypothesis Hq : d_os (disk (dv_store d)) = [].
Hypothesis HF : figures_ok d.
Hypothesis Hmax : Z.of_nat (length C) ≤ dv_max d < 2 ^ 31.
Hypothesis Hk : sender_ok k.
Hypothesis Hkb : sk_buf k = [].
Hypothesis Hin : calm (sk_in k).
Hypothesis Hflow : flow (sk_in k) = Req ++ C.
Hypothesis Hfuel : (length (flow (sk_in k)) < fuel)%nat.
Hypothesis Hn : (length (sk_in k) + length (sk_out k) < n)%nat.

(** The end of it, for the state [s'] of the store and the tasks. *)
Definition put_served (st : tsk put_task) : Prop := ∃ used total,
  space (super_block_ (dv_store (tk_ds st))) = Some (used, total) ∧
  dv_queue (tk_ds st) = dv_queue d ++ [block_notice used total] ∧
  (∃ t, dv_tasks (tk_ds st) = dv_tasks d ++ NewPut t :: block_copies) ∧ dv_max (tk_ds st) = dv_max d ∧
  sk_wire (tk_sock st) = sk_wire k ++ code_ans CLIENT_PUT id PUTOK.
Lemma upload_run : ∃ st ps, serves_put fuel n d k st ∧ put_served st ∧ mjoin ps = C ∧
  moved g E (dv_store d) v (dv_store (tk_ds st)) (spec_run g E (writes (fid, bi) 0 ps) v).2.
Proof using All.
  destruct up_fields as (H1 & H2 & H3 & H4 & H5 & H6). pose proof (ds_upload_req_length id fid bi (Z.of_nat (length C)) es Hes) as HlR.
  assert (take 4 Req = be_bytes 4 (Z.of_nat (length Req))) as Hhd.
  { rewrite HlR. unfold ds_upload_req. rewrite take_app_length' by by rewrite be_bytes_length. f_equal. lia. }
  destruct (session_run Req C ltac:(lia) Hhd fuel n d k (proj1 Hk) Hin Hflow Hfuel ltac:(lia)) as (buf & b & script & Hc' & Hls & Hb1 & Hb2 & Hle & HC' & Hrun).
  destruct (upload_starts b buf d Hb1 Hb2 Hle) as (b' & Em & Hb1' & Hb2'). set (t := first_task true up_msg num b' (length buf)) in *.
  destruct (Hrun _ _ Em eq_refl) as (ss & Es). set (d1 := dv_spawn (NewPut t) d) in *.
  assert (0 < length C)%nat as H0 by (destruct C; [done|simpl; lia]).
  assert (put_content t = Z.of_nat (length C)) as Hcl by (unfold t, first_task, put_content; cbn [pt_client pt_req]; rewrite H3, H4, i32_small by lia; lia).
  destruct (put_task_run g Hg E true up_msg num d1 v C fuel n b' (with_in script k) buf) as (st & Ep & ps & [[na used] total] & d2 & Hd2 & (M & Hdm & Hdq & Hdt) & Hj & Hsp & Hw).
  - split; [done|]. split; [done|]. unfold up_start. rewrite H3. cbn. lia.
  - intros _. rewrite H5. lia.
  - done.
  - done.
  - exact Hcl.
  - unfold put_invalid. fold t. rewrite Hcl. unfold t, first_task, put_offset. cbn [pt_client pt_req]. rewrite H1, H2, H3, H4. cbn [dv_max d1 dv_spawn].
    destruct (Z.ltb_spec fid 0), (Z.ltb_spec bi 0), (Z.ltb_spec (Z.of_nat (length C) - 1) 0), (Z.ltb_spec (dv_max d) (Z.of_nat (length C))), (Z.ltb_spec (dv_max d) 0); done || lia.
  - destruct Hk as (? & ? & ?). by split; [|split].
  - done.
  - done.
  - done.
  - done.
  - lia.
  - done.
  - rewrite Hflow, length_app in Hfuel. lia.
  - cbn [with_in sk_in sk_out]. lia.
  - exists st, ps. cbn [fst snd] in *. split; [exists d1, (with_in script k), ss, t; by split; [|split]|]. split; [|split; [done|]].
    + exists used, total. rewrite Hd2. cbn [spawned dv_enqueue dv_store dv_queue dv_tasks]. split; [done|split; [|split; [|split; [exact Hdm|]]]].
      * rewrite Hdq. unfold stored_notice, block_notice. rewrite H1, H2. cbn [fst snd]. rewrite u64_small, u32_small by (unfold is_u64, is_u32; lia). done.
      * exists t. rewrite Hdt. unfold block_copies. rewrite <- up_copies. cbn [dv_tasks d1 dv_spawn]. by rewrite <- app_assoc.
      * rewrite Hw. unfold put_ans, put_type, put_id, code_ans. rewrite H6, be_bytes_i32. done.
    + rewrite Hd2. cbn [spawned dv_enqueue dv_store]. rewrite H1, H2 in M. unfold up_start in M. rewrite H3, u64_small, u32_small in M by (unfold is_u64, is_u32; lia). exact M.
Qed.

(** C4: An upload is stored.  A connection that brings the request the proxy writes and
    then the content, in pieces of any sizes, with any waits of the sockets, makes one
    task; while the disk works and has room the task writes the content into the block,
    from which it can be read, the answer is PUTOK in full, the name service is sent one
    notice of the stored block with the free space, and a copy is started for each of
    the other servers.  The number of turns is bounded by the scripts of the socket. *)
Theorem upload_is_stored : Z.of_nat (length C) ≤ g_ms g → has_room g E (fid, bi) v →
  ∃ st, serves_put fuel n d k st ∧ put_served st ∧
  let v' := (spec_step g E (OpWrite (fid, bi) 0 C) v).2 in
  ds_rep g E (dv_store (tk_ds st)) v' ∧
  (spec_step g E (OpRead (fid, bi) 0 (Z.of_nat (length C))) v').1 = OutData TFS_SUCCESS (Z.of_nat (length C)) C.
Proof using All.
  intros Hms Hr. destruct upload_run as (st & ps & Hs & Hp & Hj & M). exists st. split; [done|split; [done|]]. cbv zeta.
  rewrite writes_join, Hj in M by (rewrite ?Hj; done || lia). split; [apply M|]. by apply spec_write_read.
Qed.

(** C11: A lost upload is acknowledged.  When no block is free and the name has none, the
    store stays as it is, the name unknown, and still the answer is PUTOK, the name
    service is told of the block and the copies are started: the code of the failure,
    TFS_ERROR, is not negative. *)
Theorem upload_acknowledged_though_lost : ¬ has_room g E (fid, bi) v →
  ∃ st, serves_put fuel n d k st ∧ put_served st ∧ ds_rep g E (dv_store (tk_ds st)) v ∧
  (spec_step g E (OpRead (fid, bi) 0 (Z.of_nat (length C))) v).1 = OutData EXIT_NO_LOGICBLOCK_ERROR (Z.of_nat (length C)) [].
Proof using All.
  intros Hr. destruct upload_run as (st & ps & Hs & Hp & Hj & M). exists st. split; [done|split; [done|]].
  rewrite writes_full in M by done. split; [apply M|]. cbn [spec_step]. unfold has_room in Hr.
  destruct (vs_ids v !! (fid, bi)) eqn:Hv; [destruct Hr; by left|done].
Qed.
End upload.

(** ** A download *)

Section download.
Context `{!DsEnv} (g : geometry) (Hg : geo_ok g) (E : gset Z) (m : msg) (d0 : dsv) (v : vstore) (bid : Z).
Local Abbreviation K := (u64 (m F_fileid), u32 (m F_chunkid)).
Local Abbreviation start := (m F_start).
Local Abbreviation end_ := (m F_end).
Local Abbreviation D := (vs_data v bid).
Hypothesis HK : vs_ids v !! K = Some bid.
Hypothesis HR : ds_rep g E (dv_store d0) v.
Hypothesis Hq : d_os (disk (dv_store d0)) = [].
Hypothesis Hstart : 0 ≤ start ≤ end_.
Hypothesis Hend : end_ < g_ms g.
Hypothesis Hend31 : end_ + 8192 < 2 ^ 31.
Hypothesis Hmax : end_ - start + 1 ≤ dv_max d0.

(** The bytes of the range before [hi]. *)
Definition range (hi : Z) : bytes := take (Z.to_nat (hi - start)) (drop (Z.to_nat start) D).
Lemma range_app a n : start ≤ a → 0 ≤ n → range (a + n) = range a ++ take (Z.to_nat n) (drop (Z.to_nat a) D).
Proof.
  intros Ha Hn. unfold range. replace (Z.to_nat (a + n - start)) with (Z.to_nat (a - start) + Z.to_nat n)%nat by lia.
  rewrite <- take_take_drop, drop_drop. do 3 f_equal. lia.
Qed.
Lemma block_length : length D = Z.to_nat (g_ms g).
Proof using All.
  destruct HR as [HS _]. destruct (so_range _ _ _ _ _ HS K bid HK) as [Hid _]. by destruct (so_files _ _ _ _ _ HS bid Hid) as (h & _ & _ & ?).
Qed.

(** What stays as it was. *)
Definition same (d : dsv) : Prop :=
  moved g E (dv_store d0) v (dv_store d) v ∧ dv_max d = dv_max d0 ∧ dv_queue d = dv_queue d0 ∧ dv_tasks d = dv_tasks d0.
Lemma info_block_run d k (t : get_task) : same d → ∃ i d',
  on_ds (on_store (get_block_info (u64 (m F_fileid)) (u32 (m F_chunkid)))) (Tsk d k t) = Some ((TFS_SUCCESS, i), Tsk d' k t) ∧ same d'.
Proof using All.
  intros (M & H1 & H2 & H3). destruct (get_some g E (dv_store d) v K bid (proj1 M) HK) as (lloc & loc & s1 & E1 & M1 & B & _).
  destruct B as [_ (l & Hl & _) _ _]. exists (Some (lb_avail_data_size l, lb_visit_count l)), (dv_set_store s1 d). split.
  - unfold on_ds, on_store, zoom. cbn [tk_ds tk_sock tk_self]. unfold get_block_info. rewrite (M_bind_Some _ _ _ _ _ E1).
    unfold get_lb, getsM. M_unfold. by rewrite Hl.
  - split; [|done]. by eapply moved_trans.
Qed.

(** One piece. *)
Definition piece (off : Z) : bytes := take (Z.to_nat (Z.min 8192 (end_ - off + 1))) (drop (Z.to_nat off) D).
Lemma piece_length off : 0 ≤ off ≤ end_ → length (piece off) = Z.to_nat (Z.min 8192 (end_ - off + 1)).
Proof using All. intros Ho. unfold piece. rewrite length_take, length_drop, block_length. lia. Qed.
Lemma get_piece_run d k t : same d → gt_req t = m → start ≤ gt_off t ≤ end_ → ∃ d',
  get_piece (Tsk d k t) = Some (TFS_SUCCESS, Tsk d' k
    (gt_set_pos (gt_off t + Z.of_nat (length (piece (gt_off t)))) (Z.of_nat (length (piece (gt_off t)))) (gt_busy t) (gt_set_res (fill_packet (piece (gt_off t))) t))) ∧ same d'.
Proof using All.
  intros (M & H1 & H2 & H3) Hm Ho. rewrite piece_length, Z2Nat.id by lia.
  set (n := Z.min 8192 (end_ - gt_off t + 1)).
  destruct (ds_step_run g Hg E (OpRead K (gt_off t) n) (dv_store d) v (proj1 M)) as (x & s' & v' & Es & M' & _ & Hs).
  { split; [apply u64_range|split; [apply u32_range|cbn; lia]]. }
  specialize (Hs (moved_quiet _ _ _ _ _ _ M Hq)). cbn [spec_step] in Hs. rewrite HK in Hs.
  destruct (Z.ltb_spec (g_ms g) (gt_off t)) as [?|_]; [lia|]. injection Hs as <- <-.
  cbn [ds_step fst snd] in Es. apply M_bind_inv in Es as ([[c n'] data] & s1 & Er & Es). injection Es as -> -> -> ->.
  exists (dv_set_store s' d). split; [|split; [by eapply moved_trans|done]].
  unfold get_piece, self, gets. M_unfold. cbn [tk_self]. rewrite Hm. unfold kGetPacketSize. rewrite !i32_small by lia.
  replace (if end_ <? gt_off t + 8192 then end_ - gt_off t + 1 else 8192) with n by (subst n; destruct (Z.ltb_spec end_ (gt_off t + 8192)); lia).
  unfold on_ds, on_store, zoom. cbn [tk_ds tk_sock tk_self]. rewrite Er. unfold upd_self. M_unfold. cbn [tk_ds tk_sock tk_self fst snd].
  rewrite Z.min_l by lia. change (TFS_SUCCESS <? 0) with false. cbv iota. rewrite i32_small by lia. fold (piece (gt_off t)). done.
Qed.

(** Between two turns: a piece has to be read, or one is being sent. *)
Definition idle_at (w : bytes) (k : sock) (t : get_task) : Prop :=
  gt_busy t = false ∧ start ≤ gt_off t ≤ end_ ∧ sender_ok k ∧ sk_buf k = [] ∧ sk_wire k = w ++ range (gt_off t).
Definition sending_at (w : bytes) (k : sock) (t : get_task) : Prop := start ≤ gt_off t ≤ end_ + 1 ∧ ∃ p W,
  take (Z.to_nat (gt_len t)) (re_send (gt_res t)) = p ∧ Z.of_nat (length p) ≤ 8192 ∧ answering p W k ∧ W ++ p = w ++ range (gt_off t).
Definition data_at (w : bytes) (st : tsk get_task) : Prop :=
  same (tk_ds st) ∧ gt_req (tk_self st) = m ∧ gt_state (tk_self st) = kDataSending ∧
  (idle_at w (tk_sock st) (tk_self st) ∨ gt_busy (tk_self st) = true ∧ sending_at w (tk_sock st) (tk_self st)).
Definition left_at (t : get_task) : nat := Z.to_nat (end_ + 1 - gt_off t) + (if gt_busy t then 1 else 0).
Definition get_done (w : bytes) (st : tsk get_task) : Prop :=
  same (tk_ds st) ∧ gt_state (tk_self st) = kTasksessionEnd ∧ sk_conn (tk_sock st) = true ∧ sk_wire (tk_sock st) = w ++ range (end_ + 1).

(** The second half of a turn of [get_pieces]. *)
Definition get_send (fuel : nat) : M (tsk get_task) Z :=
  t ← self;
  theErr ← on_sock (Sendall (take (Z.to_nat (gt_len t)) (re_send (gt_res t))));
  if negb (theErr =? OS_NoErr) then upd_self (gt_set_pos (gt_off t) (gt_len t) true);; mret theErr else
  on_ds (modify (IncrementSndBytes (u32 (gt_len t))));;
  upd_self (gt_set_pos (gt_off t) (gt_len t) false);;
  if gt_off t <=? gt_req t F_end then get_pieces fuel
  else upd_self (gt_set_state kTasksessionEnd);; mret EAGAIN.
Lemma get_pieces_S fuel st : get_pieces (S fuel) st =
  (ret ← (if gt_busy (tk_self st) then mret 0 else get_piece); if ret <? 0 then mret OS_NoErr else get_send fuel) st.
Proof. done. Qed.

Lemma get_send_run fuel w d k t : same d → gt_req t = m → gt_state t = kDataSending → sending_at w k t → ∃ d' k' t', same d' ∧
  ((length (sk_out k') < length (sk_out k))%nat ∧ data_at w (Tsk d' k' t') ∧ get_send fuel (Tsk d k t) = Some (EAGAIN, Tsk d' k' t') ∨
   (length (sk_out k') ≤ length (sk_out k))%nat ∧ gt_req t' = m ∧ gt_state t' = kDataSending ∧ idle_at w k' t' ∧ gt_off t' = gt_off t ∧
     get_send fuel (Tsk d k t) = get_pieces fuel (Tsk d' k' t') ∨
   get_done w (Tsk d' k' t') ∧ get_send fuel (Tsk d k t) = Some (EAGAIN, Tsk d' k' t')).
Proof using All.
  intros Hd Hm Hst (Ho & p & W & Hp & Hl & Ha & HW). unfold kSendBufferLen.
  destruct (answering_run p W k Ha) as (err & k' & Es & Hk' & Hi' & Hcase); [unfold kSendBufferLen; lia|].
  assert (get_send fuel (Tsk d k t) = (if negb (err =? OS_NoErr) then upd_self (gt_set_pos (gt_off t) (gt_len t) true);; mret err else
    on_ds (modify (IncrementSndBytes (u32 (gt_len t))));; upd_self (gt_set_pos (gt_off t) (gt_len t) false);;
    if gt_off t <=? gt_req t F_end then get_pieces fuel else upd_self (gt_set_state kTasksessionEnd);; mret EAGAIN) (Tsk d k' t)) as Eg.
  { unfold get_send. rewrite (M_bind_Some self _ _ t (Tsk d k t)) by done. rewrite Hp.
    assert (on_sock (Sendall p) (Tsk d k t) = Some (err, Tsk d k' t)) as E0 by (unfold on_sock, zoom; cbn [tk_sock]; by rewrite Es).
    by rewrite (M_bind_Some _ _ _ _ _ E0). }
  rewrite Eg, Hm. clear Eg. destruct Hcase as [(-> & Hb & Hw & Hlen)|(-> & Ha' & Hlen)].
  - change (negb (OS_NoErr =? OS_NoErr)) with false. cbv iota. set (d' := IncrementSndBytes (u32 (gt_len t)) d).
    assert (same d') as Hd' by exact Hd. set (t' := gt_set_pos (gt_off t) (gt_len t) false t). rewrite HW in Hw.
    destruct (Z.leb_spec (gt_off t) end_) as [Hle|Hgt].
    + exists d', k', t'. split; [done|]. right. left. unfold idle_at. cbn [t' gt_set_pos gt_req gt_state gt_busy gt_off].
      split; [done|split; [done|split; [done|split; [|done]]]]. split; [done|split; [lia|done]].
    + exists d', k', (gt_set_state kTasksessionEnd t'). split; [done|]. right. right. split; [|done]. split; [done|split; [done|split; [by apply Hk'|]]].
      cbn [tk_sock]. rewrite Hw. do 2 f_equal. lia.
  - change (negb (EAGAIN =? OS_NoErr)) with true. cbv iota. exists d, k', (gt_set_pos (gt_off t) (gt_len t) true t). split; [done|]. left.
    split; [done|split; [|done]]. split; [done|split; [done|split; [done|]]]. right. split; [done|]. split; [done|]. by exists p, W.
Qed.

Lemma get_pieces_run fuel w st : data_at w st → (left_at (tk_self st) < fuel)%nat → ∃ st', get_pieces fuel st = Some (EAGAIN, st') ∧
  (data_at w st' ∧ (length (sk_out (tk_sock st')) < length (sk_out (tk_sock st)))%nat ∨ get_done w st').
Proof using All.
  revert st. induction fuel as [|fuel IH]; intros [d k t] (Hd & Hm & Hst & Hcase) Hf; [lia|]. cbn [tk_ds tk_sock tk_self] in *.
  rewrite get_pieces_S. cbn [tk_self].
  assert (∃ d1 t1, (ret ← (if gt_busy t then mret 0 else get_piece); if ret <? 0 then mret OS_NoErr else get_send fuel) (Tsk d k t) = get_send fuel (Tsk d1 k t1) ∧
    same d1 ∧ gt_req t1 = m ∧ gt_state t1 = kDataSending ∧ sending_at w k t1 ∧ (Z.to_nat (end_ + 1 - gt_off t1) < fuel)%nat) as (d1 & t1 & -> & Hd1 & Hm1 & Hst1 & Hs1 & Hf1).
  { unfold left_at in Hf. destruct Hcase as [(Hb & Ho & Hk & Hbuf & Hw)|[Hb Hs]]; rewrite Hb in Hf |- *; [|by exists d, t; repeat (split; [first [done|lia]|]); lia].
    destruct (get_piece_run d k t Hd Hm Ho) as (d1 & Ep & Hd1). pose proof (piece_length (gt_off t) ltac:(lia)) as Hl.
    eexists d1, _. split; [by rewrite (M_bind_Some _ _ _ _ _ Ep)|]. cbn [gt_set_pos gt_set_res gt_req gt_state gt_off].
    split; [done|split; [done|split; [done|split; [|lia]]]]. unfold sending_at. cbn [gt_set_pos gt_set_res gt_off gt_len gt_res fill_packet re_send].
    split; [lia|]. exists (piece (gt_off t)), (sk_wire k). rewrite Nat2Z.id, take_app_length. split; [done|split; [lia|split; [by apply answering_start|]]].
    rewrite Hw, <- app_assoc. f_equal. rewrite Hl, Z2Nat.id by lia. rewrite range_app by lia. done. }
  destruct (get_send_run fuel w d1 k t1 Hd1 Hm1 Hst1 Hs1) as (d' & k' & t' & Hd' & [(Hlt & Hat & ->)|[(Hle & Hm' & Hst' & Hid & Ho' & ->)|(Hdn & ->)]]).
  - eexists. split; [done|]. by left.
  - destruct (IH (Tsk d' k' t')) as (st' & E' & Hr); cbn [tk_ds tk_sock tk_self] in *.
    + split; [done|split; [done|split; [done|by left]]].
    + unfold left_at. destruct Hid as (-> & _). rewrite Ho'. lia.
    + exists st'. split; [done|]. destruct Hr as [[? ?]|?]; [left|by right]. split; [done|lia].
  - eexists. split; [done|]. by right.
Qed.

(** The head of the answer. *)
Definition get_ans : bytes := code_ans CLIENT_GET (m F_request_id) GETOK.
Definition head_at (w0 : bytes) (st : tsk get_task) : Prop := let t := tk_self st in
  same (tk_ds st) ∧ gt_req t = m ∧ gt_state t = kResponseSending ∧ gt_busy t = false ∧
  re_has (gt_res t) = true ∧ re_msg (gt_res t) F_retcode = GETOK ∧ take (re_len (gt_res t)) (re_send (gt_res t)) = get_ans ∧
  answering get_ans w0 (tk_sock st).
Lemma get_head_run w0 st : head_at w0 st → ∃ st', sk_conn (tk_sock st') = true ∧
  (head_at w0 st' ∧ (length (sk_out (tk_sock st')) < length (sk_out (tk_sock st)))%nat ∧ get_head st = Some (Some EAGAIN, st') ∨
   data_at (w0 ++ get_ans) st' ∧ gt_off (tk_self st') = start ∧ gt_busy (tk_self st') = false ∧
     (length (sk_out (tk_sock st')) ≤ length (sk_out (tk_sock st)))%nat ∧ get_head st = Some (None, st')).
Proof using All.
  destruct st as [d k t]. intros (Hd & Hm & Hst & Hb & Hhas & Hcode & Hp & Ha). cbn [tk_ds tk_sock tk_self] in *.
  destruct (answering_run get_ans w0 k Ha) as (err & k' & Es & Hk' & Hi' & Hcase); [done|].
  assert (on_sock (Sendall get_ans) (Tsk d k t) = Some (err, Tsk d k' t)) as E0 by (unfold on_sock, zoom; cbn [tk_sock]; by rewrite Es).
  assert (get_head (Tsk d k t) = (if negb (err =? OS_NoErr) then mret (Some err) else
    upd_self (λ t, gt_set_state kDataSending (gt_set_pos (gt_req t F_start) (gt_len t) (gt_busy t) t));; mret None) (Tsk d k' t)) as ->.
  { unfold get_head. rewrite (M_bind_Some self _ _ t (Tsk d k t)) by done. rewrite Hhas. rewrite (M_bind_Some _ _ _ tt (Tsk d k t)) by done.
    rewrite (M_bind_Some self _ _ t (Tsk d k t)) by done. rewrite Hp, (M_bind_Some _ _ _ _ _ E0), Hcode. done. }
  destruct Hcase as [(-> & Hbuf & Hw & Hl)|(-> & Ha' & Hl)].
  - eexists (Tsk d k' _). split; [apply Hk'|]. right. split; [|split; [|split; [|split; [|reflexivity]]]]; cbn [tk_ds tk_sock tk_self gt_set_state gt_set_pos gt_off gt_busy].
    + split; [done|split; [done|split; [done|left]]]. unfold idle_at. cbn [tk_sock tk_self gt_set_state gt_set_pos gt_off gt_busy]. rewrite Hm.
      split; [done|split; [lia|split; [done|split; [done|]]]]. unfold range. by rewrite Z.sub_diag, Hw, app_nil_r.
    + by rewrite Hm.
    + done.
    + done.
  - exists (Tsk d k' t). split; [apply Hk'|]. left. split; [|split; [done|done]]. do 7 (split; [done|]). exact Ha'.
Qed.

(** A turn of the task. *)
Definition get_at (w0 : bytes) (st : tsk get_task) : Prop := head_at w0 st ∨ data_at (w0 ++ get_ans) st.
Lemma get_at_conn w0 st : get_at w0 st → sk_conn (tk_sock st) = true.
Proof.
  intros [(_ & _ & _ & _ & _ & _ & _ & Ha & _)|(_ & _ & _ & [(_ & _ & Hk & _)|(_ & _ & p & W & _ & _ & Ha & _)])];
    [apply Ha|apply Hk|apply Ha].
Qed.
Lemma Run_get_run fuel w0 st : get_at w0 st → (Z.to_nat (end_ + 2 - start) < fuel)%nat → ∃ st', Run_get false fuel st = Some (0, st') ∧
  (get_at w0 st' ∧ (length (sk_out (tk_sock st')) < length (sk_out (tk_sock st)))%nat ∨ get_done (w0 ++ get_ans) st').
Proof using All.
  intros Hat Hf. pose proof (get_at_conn _ _ Hat) as Hconn.
  assert (∀ e st', ProcessEvent_get fuel st = Some (e, st') → Run_get false fuel st = Some (if waits e then 0 else -1, st')) as Hrun.
  { intros e st' E1. unfold Run_get. by rewrite (M_bind_Some _ _ _ _ _ E1). }
  assert (∀ w st, data_at w st → (left_at (tk_self st) < fuel)%nat) as Hleft.
  { intros w [d k t] (_ & _ & _ & Hc). unfold left_at. cbn [tk_self tk_sock] in *.
    destruct Hc as [(Hb & Ho & _)|(Hb & Ho & _)]; rewrite Hb; lia. }
  assert (∀ w st, data_at w st → ∃ st', get_pieces fuel st = Some (EAGAIN, st') ∧
    (data_at w st' ∧ (length (sk_out (tk_sock st')) < length (sk_out (tk_sock st)))%nat ∨ get_done w st')) as Hdata by (intros w st1 Hd1; apply get_pieces_run; [exact Hd1|by eapply Hleft]).
  destruct Hat as [Hh|Hd].
  - destruct (get_head_run w0 st Hh) as (st1 & _ & Hcase). pose proof Hh as (_ & _ & Hst & _).
    assert (ProcessEvent_get fuel st = (e ← get_head; match e with Some err => mret err | None => t ← self; if decide (gt_state t = kDataSending) then get_pieces fuel else mret (-1) end) st) as Ep.
    { unfold ProcessEvent_get. unfold self, gets. M_unfold. rewrite Hconn. cbn [negb]. rewrite decide_False by (by rewrite Hst). rewrite decide_True by done. done. }
    destruct Hcase as [(Hh1 & Hl & Eh)|(Hd1 & _ & _ & Hl & Eh)].
    + exists st1. split; [|left; split; [by left|done]]. apply (Hrun EAGAIN). by rewrite Ep, (M_bind_Some _ _ _ _ _ Eh).
    + destruct (Hdata _ _ Hd1) as (st2 & E2 & Hr). exists st2. split.
      * apply (Hrun EAGAIN). rewrite Ep, (M_bind_Some _ _ _ _ _ Eh). rewrite (M_bind_Some self _ _ (tk_self st1) st1) by done.
        pose proof Hd1 as (_ & _ & Hs1 & _). by rewrite decide_True by done.
      * destruct Hr as [[? ?]|?]; [left|by right]. split; [by right|lia].
  - destruct (Hdata _ _ Hd) as (st2 & E2 & Hr). exists st2. pose proof Hd as (_ & _ & Hst & _). split.
    + apply (Hrun EAGAIN). unfold ProcessEvent_get, self, gets. M_unfold. rewrite Hconn. cbn [negb]. rewrite !decide_False by (by rewrite Hst). by rewrite decide_True by done.
    + destruct Hr as [[? ?]|?]; [left|by right]. by split; [right|].
Qed.

(** The first turn begins as one that has packed the head. *)
Lemma first_get fuel k : sender_ok k → sk_buf k = [] → ∃ st1, head_at (sk_wire k) st1 ∧ tk_sock st1 = k ∧
  Run_get false fuel (Tsk d0 k (new_get_task m)) = Run_get false fuel st1.
Proof using All.
  intros Hk Hb. destruct (info_block_run d0 k (gt_set_res (res_code GETOK) (new_get_task m))) as (i & d' & Ei & Hd').
  { split; [by apply moved_refl|done]. }
  set (r0 := res_code GETOK (gt_res (new_get_task m))). set (t0 := gt_set_state kResponseSending (gt_set_res (res_code GETOK) (new_get_task m))).
  assert (get_processing (Tsk d0 k (new_get_task m)) = Some (tt, Tsk d' k t0)) as Ep.
  { unfold get_processing. rewrite (M_bind_Some self _ _ (new_get_task m) (Tsk d0 k (new_get_task m))) by done.
    rewrite (M_bind_Some _ _ _ d0 (Tsk d0 k (new_get_task m))) by done. cbn [gt_req new_get_task]. rewrite i32_small by lia.
    destruct (Z.ltb_spec start 0) as [?|_]; [lia|]. destruct (Z.ltb_spec end_ start) as [?|_]; [lia|].
    destruct (Z.ltb_spec (dv_max d0) (end_ - start + 1)) as [?|_]; [lia|]. cbn [orb].
    rewrite (M_bind_Some _ _ _ tt (Tsk d0 k (gt_set_res (res_code GETOK) (new_get_task m)))) by done.
    rewrite (M_bind_Some _ _ _ _ _ Ei). done. }
  set (r1 := re_head CLIENT_GET (m F_request_id) 20 r0).
  assert (packet [(I32, F_retcode)] r1 = Some (GV_SUCCESS, Resp (re_msg r1) (re_has r1) (get_ans ++ drop 20 (re_send r1)) 20)) as Epk.
  { apply packet_run; try done. cbn [r1 re_head r0 res_code re_send new_get_task gt_res]. rewrite ds_junk_length. by vm_compute; lia. }
  set (t1 := gt_set_res (λ _, Resp (re_msg r1) true (get_ans ++ drop 20 (re_send r1)) 20) t0).
  exists (Tsk d' k t1). split; [|split; [done|]].
  - cbn [head_at tk_ds tk_self tk_sock t1 t0 gt_set_res gt_set_state gt_req gt_state gt_busy gt_res re_has re_msg re_len re_send new_get_task].
    do 6 (split; [done|]). split; [exact (take_app_length' get_ans _ 20%nat eq_refl)|]. by apply answering_start.
  - unfold Run_get. apply M_bind_cong. unfold ProcessEvent_get.
    rewrite (M_bind_Some _ _ (Tsk d0 k (new_get_task m)) k (Tsk d0 k (new_get_task m))), (M_bind_Some _ _ (Tsk d' k t1) k (Tsk d' k t1)) by done.
    destruct Hk as [-> _]. cbn [negb]. rewrite (M_bind_Some self _ (Tsk d0 k (new_get_task m)) (new_get_task m) (Tsk d0 k (new_get_task m))), (M_bind_Some self _ (Tsk d' k t1) t1 (Tsk d' k t1)) by done.
    rewrite decide_True, decide_False by done. rewrite (M_bind_Some _ _ _ _ _ Ep), (M_bind_Some _ _ (Tsk d' k t1) tt (Tsk d' k t1)) by done.
    rewrite (M_bind_Some self _ (Tsk d' k t0) t0 (Tsk d' k t0)), (M_bind_Some self _ (Tsk d' k t1) t1 (Tsk d' k t1)) by done.
    rewrite !decide_True by done. apply M_bind_cong. unfold get_head.
    rewrite (M_bind_Some self _ (Tsk d' k t0) t0 (Tsk d' k t0)), (M_bind_Some self _ (Tsk d' k t1) t1 (Tsk d' k t1)) by done.
    assert ((if re_has (gt_res t0) then mret () else packet_client_get_resp;; upd_self (gt_set_res re_done)) (Tsk d' k t0) = Some (tt, Tsk d' k t1)) as E0.
    { change (re_has (gt_res t0)) with false. cbv iota. unfold packet_client_get_resp. rewrite M_bind_assoc, (M_bind_Some self _ (Tsk d' k t0) t0 (Tsk d' k t0)) by done.
      change (re_head CLIENT_GET (gt_req t0 F_request_id) 20 (gt_res t0)) with r1. change (re_msg r1 F_retcode =? 0) with false. cbv iota.
      rewrite M_bind_assoc, (lift_eq _ _ _ _ Epk). done. }
    rewrite (M_bind_Some _ _ _ _ _ E0), (M_bind_Some _ _ (Tsk d' k t1) tt (Tsk d' k t1)) by done. done.
Qed.

Lemma events_get fuel n w0 st : get_at w0 st → (Z.to_nat (end_ + 2 - start) < fuel)%nat → (S (length (sk_out (tk_sock st))) < n)%nat → ∃ st',
  events (Run_get false fuel) n st = Some (-1, st') ∧ get_done (w0 ++ get_ans) st'.
Proof using All.
  intros Hat Hf. revert st Hat. induction n as [|n IH]; intros st Hat Hn; [lia|].
  destruct (Run_get_run fuel w0 st Hat Hf) as (st' & Er & Hr). cbn [events]. rewrite (M_bind_Some _ _ _ _ _ Er). change (0 =? 0) with true. cbv iota.
  destruct Hr as [[Hat' Hl]|Hd]; [apply IH; [done|lia]|]. exists st'. split; [|done]. destruct n as [|n]; [lia|].
  destruct Hd as (_ & Hst & Hc & _). cbn [events].
  assert (Run_get false fuel st' = Some (-1, st')) as Er'; [|by rewrite (M_bind_Some _ _ _ _ _ Er')].
  unfold Run_get, ProcessEvent_get, self, gets. M_unfold. rewrite Hc. cbn [negb]. by rewrite !decide_False by (by rewrite Hst).
Qed.
Lemma get_task_run fuel n k : sender_ok k → sk_buf k = [] → (Z.to_nat (end_ + 2 - start) < fuel)%nat → (S (length (sk_out k)) < n)%nat → ∃ st',
  events (Run_get false fuel) n (Tsk d0 k (new_get_task m)) = Some (-1, st') ∧ get_done (sk_wire k ++ get_ans) st'.
Proof using All.
  intros Hk Hb Hf Hn. destruct (first_get fuel k Hk Hb) as (st1 & Hh & Hs & Er). destruct n as [|n]; [lia|].
  rewrite (events_cong _ _ _ _ Er). apply events_get; [by left|done|by rewrite Hs].
Qed.
End download.

(** What the proxy sends for a block; [encrypt] is not set there. *)
Definition ds_download_req (id fid bi len encrypt : Z) : bytes :=
  be_bytes 4 36 ++ be_bytes 4 id ++ be_bytes 4 0x0102 ++ be_bytes 4 encrypt ++
  be_bytes 8 fid ++ be_bytes 4 bi ++ be_bytes 4 0 ++ be_bytes 4 (u32 (len - 1)).

Section fetch.
Context `{!DsEnv} (g : geometry) (Hg : geo_ok g) (E : gset Z) (id fid bi encrypt : Z) (C : bytes) (o : msg) (fuel n : nat) (d : dsv) (v : vstore) (k : sock).
Local Abbreviation len := (Z.of_nat (length C)).
Local Abbreviation Req := (ds_download_req id fid bi len encrypt).
Hypothesis Hmalloc : ds_malloc 40 = Some o.
Hypothesis Hfid : 0 ≤ fid < 2 ^ 63.
Hypothesis Hbi : 0 ≤ bi < 2 ^ 31.
Hypothesis HC : C ≠ [].
Hypothesis Hmax : len ≤ dv_max d.
Hypothesis HR : ds_rep g E (dv_store d) v.
Hypothesis Hq : d_os (disk (dv_store d)) = [].
Hypothesis Hms : len + 8192 ≤ 2 ^ 31.
Hypothesis Hread : (spec_step g E (OpRead (fid, bi) 0 len) v).1 = OutData TFS_SUCCESS len C.
Hypothesis Hk : sender_ok k.
Hypothesis Hkb : sk_buf k = [].
Hypothesis Hin : calm (sk_in k).
Hypothesis Hflow : flow (sk_in k) = Req.
Hypothesis Hfuel : (length C + 38 < fuel)%nat.
Hypothesis Hn : (S (length (sk_in k) + length (sk_out k)) < n)%nat.

(** What a connection does: the session makes one task, and the task ends. *)
Definition serves_get (st : tsk get_task) : Prop := ∃ d1 k1 ss t,
  events (Run_session false fuel) n (Tsk d k new_session) = Some (-1, Tsk d1 k1 ss) ∧ dv_tasks d1 = dv_tasks d ++ [NewGet t] ∧
  events (Run_get false fuel) n (Tsk d1 k1 t) = Some (-1, st).

Lemma fetch_starts b : length b = 1025%nat → take 36 b = Req → ∃ m,
  MessageTransaction b 36 d = Some (0, dv_spawn (NewGet (new_get_task m)) d) ∧
  m F_fileid = fid ∧ m F_chunkid = bi ∧ m F_start = 0 ∧ m F_end = len - 1 ∧ m F_request_id = i32 id.
Proof using All.
  intros Hb1 Hb2. apply take_split in Hb2. set (post := drop _ b) in Hb2.
  destruct (get_msg_read id fid bi len encrypt o post 36 ltac:(unfold is_u64; lia) ltac:(lia)) as (m & Em & Hm). fold Req in Em. rewrite <- Hb2 in Em.
  assert (GetRequestType b = Some CLIENT_GET) as Et by (rewrite Hb2; unfold ds_download_req; rewrite <- !app_assoc; apply be_bytes_type).
  exists m. split.
  - unfold MessageTransaction. rewrite (lift_eq _ _ _ _ Et). change (CLIENT_GET =? CLIENT_PUT) with false. change (CLIENT_GET =? CLIENT_GET) with true. cbv iota.
    rewrite (lift_eq _ _ _ _ Hmalloc), (lift_eq _ _ _ _ Em). done.
  - rewrite !Hm, !bool_decide_true by (apply (bool_decide_unpack _); vm_compute; exact I). cbn [get_msg head_msg].
    destruct C as [|c l]; [done|]. cbn [length] in *. rewrite i64_fits, !i32_small by lia. done.
Qed.

Lemma fetch_run : ∃ st, serves_get st ∧ ds_rep g E (dv_store (tk_ds st)) v ∧ dv_queue (tk_ds st) = dv_queue d ∧
  sk_wire (tk_sock st) = sk_wire k ++ code_ans CLIENT_GET id GETOK ++ C.
Proof using All.
  assert (length Req = 36%nat) as HlR by (unfold ds_download_req; by rewrite !length_app, !be_bytes_length).
  assert (take 4 Req = be_bytes 4 (Z.of_nat (length Req))) as Hhd by (rewrite HlR; unfold ds_download_req; by rewrite take_app_length' by by rewrite be_bytes_length).
  destruct (session_run Req [] ltac:(lia) Hhd fuel n d k (proj1 Hk) Hin) as (buf & b & script & Hc' & Hls & Hb1 & Hb2 & Hle & HC' & Hrun);
    [by rewrite app_nil_r|rewrite Hflow, HlR; lia|lia|].
  apply app_nil in HC' as [-> _]. rewrite app_nil_r, HlR in *. cbn [length Nat.add] in *.
  destruct (fetch_starts b Hb1 Hb2) as (m & Em & H1 & H2 & H3 & H4 & H5). destruct (Hrun _ _ Em eq_refl) as (ss & Es).
  set (d1 := dv_spawn (NewGet (new_get_task m)) d) in *.
  cbn [spec_step] in Hread. destruct (vs_ids v !! (fid, bi)) as [bid|] eqn:HK; [|done]. destruct (Z.ltb_spec (g_ms g) 0) as [?|_]; [done|].
  cbn [fst] in Hread. injection Hread as Hmin HD. rewrite Hmin, Nat2Z.id in HD.
  assert (0 < length C)%nat as H0 by (destruct C; [done|simpl; lia]).
  destruct (get_task_run g Hg E m d1 v bid) with (fuel := fuel) (n := n) (k := with_in script k) as (st & Ep & (M & _ & Hdq & _) & _ & _ & Hw); try done.
  - rewrite H1, H2, u64_small, u32_small by (unfold is_u64, is_u32; lia). done.
  - rewrite H3, H4. lia.
  - rewrite H4. lia.
  - rewrite H4. lia.
  - rewrite H3, H4. cbn [dv_max d1 dv_spawn]. lia.
  - destruct Hk as (? & ? & ?). by split; [|split].
  - rewrite H3, H4. lia.
  - cbn [with_in sk_out]. lia.
  - exists st. split; [|split; [apply M|split; [done|]]].
    + exists d1, (with_in script k), ss, (new_get_task m). by split; [|split].
    + rewrite Hw, <- app_assoc. cbn [with_in sk_wire]. unfold get_ans, range, code_ans. rewrite H3, H4, H5, be_bytes_i32. do 2 f_equal.
      rewrite drop_0. replace (Z.to_nat (len - 1 + 1 - 0)) with (length C) by lia. exact HD.
Qed.

(** C5: A download sends the block.  A connection that brings the request of the proxy,
    in pieces of any sizes, makes one task; it sends the head with GETOK and then
    exactly the bytes of the block in the range asked for, however the sends are cut
    off and delayed, and leaves the store as it was; then it ends. *)
Theorem download_sends_block : ∃ st, serves_get st ∧ ds_rep g E (dv_store (tk_ds st)) v ∧ dv_queue (tk_ds st) = dv_queue d ∧
  sk_wire (tk_sock st) = sk_wire k ++ code_ans CLIENT_GET id GETOK ++ C.
Proof using All. apply fetch_run. Qed.
End fetch.

(** C3: What is uploaded is downloaded.  After an upload over one connection, a download
    over another one, from the state the first left, brings exactly the bytes of the
    upload. *)
Theorem uploaded_block_is_downloaded `{!DsEnv} g E id fid bi es C o o' id' encrypt fuel n d v k k' :
  geo_ok g → ds_rep g E (dv_store d) v → d_os (disk (dv_store d)) = [] → figures_ok d →
  Forall entry_ok es → 40 + 20 * Z.of_nat (length es) ≤ 1024 → ds_malloc (40 + Z.of_nat (length es) * 8) = Some o → ds_malloc 40 = Some o' →
  0 ≤ fid < 2 ^ 63 → 0 ≤ bi < 2 ^ 31 → C ≠ [] → Z.of_nat (length C) ≤ g_ms g → Z.of_nat (length C) + 8192 ≤ 2 ^ 31 →
  Z.of_nat (length C) ≤ dv_max d < 2 ^ 31 → has_room g E (fid, bi) v →
  sender_ok k → sk_buf k = [] → calm (sk_in k) → flow (sk_in k) = ds_upload_req id fid bi (Z.of_nat (length C)) es ++ C →
  sender_ok k' → sk_buf k' = [] → calm (sk_in k') → flow (sk_in k') = ds_download_req id' fid bi (Z.of_nat (length C)) encrypt →
  (length (flow (sk_in k)) + 38 < fuel)%nat → (length (sk_in k) + length (sk_out k) < n)%nat → (S (length (sk_in k') + length (sk_out k')) < n)%nat →
  ∃ st st', serves_put fuel n d k st ∧ serves_get fuel n (tk_ds st) k' st' ∧
    sk_wire (tk_sock st') = sk_wire k' ++ code_ans CLIENT_GET id' GETOK ++ C.
Proof.
  intros Hg HR Hq HF Hes Hlen Hm Hm' Hfid Hbi HC Hms H31 Hmax Hroom Hk Hkb Hin Hfl Hk' Hkb' Hin' Hfl' Hfuel Hn Hn'.
  destruct (upload_run id fid bi es C o Hes Hlen Hm Hfid Hbi HC ltac:(lia) g Hg E fuel n d v k HR Hq HF Hmax Hk Hkb Hin Hfl ltac:(lia) Hn)
    as (st & ps & Hs & (_ & _ & _ & _ & _ & Hdm & _) & Hj & M).
  rewrite writes_join, Hj in M by (rewrite ?Hj; done || lia).
  destruct (fetch_run g Hg E id' fid bi encrypt C o' fuel n (tk_ds st) (spec_step g E (OpWrite (fid, bi) 0 C) v).2 k') as (st' & Hs' & _ & _ & Hw); try done.
  - lia.
  - apply M.
  - by eapply moved_quiet.
  - by apply spec_write_read.
  - rewrite Hfl, length_app in Hfuel. lia.
  - by exists st, st'.
Qed.
