(* ===== verification/WitnessCore.v ===== *)
(** Concrete runs of the theorems on lists, trees, timers, text and buffers:
    for every theorem an input where its hypotheses hold. *)
From stdpp Require Import sorting list.
From S2P Require Import Prelude Queue Rbtree RbtreeRep RbtreeInsert RbtreeMap RbtreeDelete RbtreeUnlink Timer TimerSpec Bytes Tools NetBuf.

(** ** Lists *)

(** A list at 10 with the elements 1, 2 and 3, sorted by the remainder of the
    address modulo 3. *)
Definition demo_queue : qheap :=
  list_to_map [(10, QNode 3 1); (1, QNode 10 2); (2, QNode 1 3); (3, QNode 2 10)].
Lemma demo_ring : ring demo_queue 10 [1; 2; 3].
Proof. split; [repeat split|apply (bool_decide_unpack _); by vm_compute]. Qed.

Lemma gfs_queue_sort_witness :
  ∃ H' l', gfs_queue_sort 4 (λ p q, p `mod` 3 - q `mod` 3) 10 demo_queue = Some (tt, H') ∧ ring H' 10 l' ∧
    l' ≡ₚ [1; 2; 3].
Proof.
  destruct (gfs_queue_sort_correct (λ p q, p `mod` 3 - q `mod` 3) (λ p, p `mod` 3) demo_queue 10 [1; 2; 3]
    demo_ring) as (H' & l' & Hrun & Hr & Hp & _); [intros p q; cbv beta; lia|].
  exists H', l'. split; [exact Hrun|split; [exact Hr|exact Hp]].
Defined.

Lemma gfs_queue_middle_witness :
  ∃ x, gfs_queue_middle 3 10 demo_queue = Some (x, demo_queue) ∧ [1; 2; 3] !! 1%nat = Some x.
Proof. exact (gfs_queue_middle_correct demo_queue 10 [1; 2; 3] demo_ring ltac:(discriminate)). Defined.

(** ** Trees *)

(** A red-black tree with sentinel 100, the nodes 1, 2 and 3 and the keys 10, 20
    and 30; node 4, with key 20, is not in it. *)
Definition demo_tree : tree := T false (T true E 1 10 E) 2 20 (T true E 3 30 E).
Definition demo_rbt : rbt :=
  Rbt 2 (list_to_map [(100, RbNode 0 0 0 0 false); (2, RbNode 20 1 3 100 false);
    (1, RbNode 10 100 100 2 true); (3, RbNode 30 100 100 2 true); (4, RbNode 20 0 0 0 false)]).
Lemma demo_is_rbtree : is_rbtree 100 demo_rbt demo_tree.
Proof.
  split.
  - exists 100. repeat split.
  - done.
  - apply (bool_decide_unpack _). by vm_compute.
  - by eexists.
  - eexists. repeat econstructor.
Qed.
Lemma demo_key_sorted : key_sorted demo_tree.
Proof. unfold key_sorted. simpl. repeat constructor; simpl; lia. Qed.

Lemma gfs_rbtree_insert_value_witness :
  ∃ st' t', gfs_rbtree_insert 4 (gfs_rbtree_insert_value 3) 100 4 demo_rbt = Some (tt, st') ∧
    is_rbtree 100 st' t' ∧ key_sorted t'.
Proof.
  destruct (gfs_rbtree_insert_value_correct 100 4 (RbNode 20 0 0 0 false) demo_rbt demo_tree 4 3
    demo_is_rbtree demo_key_sorted eq_refl) as (st' & t' & la & lb & Hrun & Hrb & Hs & _).
  - apply (bool_decide_unpack _). by vm_compute.
  - simpl. lia.
  - simpl. lia.
  - exists st', t'. split; [exact Hrun|split; [exact Hrb|exact Hs]].
Defined.

Lemma gfs_rbtree_lookup_value_witness :
  ∃ p, gfs_rbtree_lookup_value 4 100 30 demo_rbt = Some (p, demo_rbt) ∧
    (p = NULL ∧ (∀ q, (q, 30) ∉ inorder demo_tree) ∨ p ≠ NULL ∧ (p, 30) ∈ inorder demo_tree).
Proof.
  apply (gfs_rbtree_lookup_value_correct 100 30 demo_rbt demo_tree 4 demo_is_rbtree demo_key_sorted).
  - apply (bool_decide_unpack _). by vm_compute.
  - simpl. lia.
Defined.

Lemma gfs_rbtree_delete_witness :
  ∃ st' t', gfs_rbtree_delete 6 100 2 demo_rbt = Some (tt, st') ∧ is_rbtree 100 st' t' ∧
    inorder t' = [(1, 10); (3, 30)].
Proof.
  destruct (gfs_rbtree_delete_correct 100 2 20 demo_rbt demo_tree [(1, 10)] [(3, 30)] 6 demo_is_rbtree
    eq_refl) as (st' & t' & Hrun & Hrb & Hin & _); [simpl; lia|].
  exists st', t'. split; [exact Hrun|split; [exact Hrb|exact Hin]].
Defined.

(** ** Timers *)

(** The tree of [demo_tree] as a timer loop: three timers due at 10, 20 and 30,
    each every 5. *)
Definition demo_timers : tloop (list Z) :=
  TLoop demo_rbt (list_to_map [(1, Timer 5 (-1) 0 7 1); (2, Timer 5 2 0 7 2); (3, Timer 5 1 0 7 3);
    (4, Timer 5 1 0 7 4)]) [].
Lemma demo_timer_queue : timer_queue 100 demo_timers [(1, 10); (2, 20); (3, 30)].
Proof.
  exists demo_tree. split; [exact demo_is_rbtree|split; [done|]].
  unfold lex_sorted. repeat constructor; unfold lex_lt; simpl; lia.
Qed.

Lemma gfs_timer_add_witness :
  ∃ st', gfs_timer_add 4 100 50 4 demo_timers = Some (GFS_OK, st') ∧
    timer_queue 100 st' [(1, 10); (2, 20); (4, 20); (3, 30)].
Proof.
  destruct (gfs_timer_add_correct 100 50 4 (RbNode 20 0 0 0 false) (Timer 5 1 0 7 4) demo_timers
    [(1, 10); (2, 20); (3, 30)] 4) as (st' & Hrun & Hq & _);
    [done|done|done|exact demo_timer_queue|done|done|done|simpl; lia|].
  exists st'. split; [exact Hrun|exact Hq].
Defined.

Lemma gfs_timer_del_witness :
  ∃ st', gfs_timer_del 6 100 50 2 demo_timers = Some (tt, st') ∧
    timer_queue 100 st' [(1, 10); (3, 30)].
Proof.
  destruct (gfs_timer_del_correct 100 50 2 (RbNode 20 1 3 100 false) (Timer 5 2 0 7 2) demo_timers
    [(1, 10); (2, 20); (3, 30)] 6) as (st' & Hrun & Hq & _);
    [done|done|exact demo_timer_queue|done|done|simpl; lia|].
  exists st'. split; [exact Hrun|exact Hq].
Defined.

(** The callback notes its parameter. *)
Definition demo_run (h p : Z) : M (tloop (list Z)) unit :=
  modify (λ st, TLoop (tl_tree st) (tl_timers st) (p :: tl_world st)).
Lemma gfs_timer_loop_run_witness :
  ∃ st', gfs_timer_loop_run 3 6 demo_run 100 20 demo_timers = Some (tt, st') ∧
    timer_queue 100 st' [(1, 25); (2, 25); (3, 30)] ∧ tl_world st' = [2; 1].
Proof.
  destruct (gfs_timer_loop_run_correct 100 20 (λ _ p w, p :: w) demo_run [(1, 10); (2, 20)] [(3, 30)]
    demo_timers 3 6) as (st' & Hrun & Hq & _ & Hw).
  - done.
  - exact demo_timer_queue.
  - lia.
  - repeat constructor; simpl; lia.
  - repeat constructor; simpl; lia.
  - intros e He. apply elem_of_cons in He as [->|He]; [|apply list_elem_of_singleton in He as ->];
      (eexists; split; [reflexivity|]; split; [discriminate|split; vm_compute; congruence]).
  - simpl. lia.
  - simpl. lia.
  - exists st'. split; [exact Hrun|split; [exact Hq|exact Hw]].
Defined.

Lemma gfs_timer_loop_run_self_delete_witness :
  gfs_timer_loop_run 3 6 (λ _ p, gfs_timer_del 6 100 50 p) 100 20 demo_timers = None.
Proof.
  apply (gfs_timer_loop_run_self_delete_crash 100 20 (λ _ p, gfs_timer_del 6 100 50 p) 50 1 10
    [(2, 20); (3, 30)] 3 (RbNode 10 100 100 2 true) (Timer 5 (-1) 0 7 1) demo_timers 6);
    first [exact demo_timer_queue|done|lia|simpl; lia].
Defined.

(** ** Text and buffers *)

Lemma gfs_hextostr_strtohex_witness :
  is_bytes [171; 0] ∧ gfs_hextostr [171; 0] 2 = Some (4, [97; 98; 48; 48]) ∧
  ∃ s, gfs_strtohex s 4 = Some (2, [171; 0]).
Proof.
  assert (is_bytes [171; 0]) as Hb by (repeat constructor; lia).
  destruct (gfs_hextostr_strtohex [171; 0] [] [] Hb) as (s & Hs & _ & _ & Hr).
  split; [exact Hb|split; [reflexivity|]]. exists (s ++ []). exact Hr.
Defined.

Lemma gfs_url_parse_encode_witness :
  gfs_url_parse (Some (url_encode (λ b, 65 <=? b) [65; 37; 32])) false = Some (GFS_OK, [65; 37; 32]).
Proof. apply gfs_url_parse_encode. repeat constructor; lia. Defined.

(** A packet of 16 bytes and a buffer that holds it and four bytes more. *)
Definition demo_packet : bytes := [0;0;0;16; 0;0;0;7; 0;0;0;9; 0;0;0;0].
Definition demo_buf (pos : Z) : netbuf := NetBuf (demo_packet ++ [0;0;0;0;0;0;0;0;0;0;0;0;0;0;0;0]) 32 pos 0.
Lemma demo_buf_ok pos : 0 ≤ pos ≤ 32 → buf_ok (demo_buf pos).
Proof. intros H. split_and!; simpl; lia. Qed.

Lemma gfs_net_packet_parse_tcp_complete_witness :
  gfs_net_packet_parse_tcp (demo_buf 20) = Some (16, Some (0, 16)).
Proof.
  apply (gfs_net_packet_parse_tcp_complete (demo_buf 20) 16 9);
    first [apply demo_buf_ok; lia|reflexivity|lia|unfold buf_size; simpl; lia].
Defined.
Lemma gfs_net_packet_parse_tcp_partial_lost_witness :
  gfs_net_packet_parse_tcp (demo_buf 12) = Some (12, None).
Proof.
  apply (gfs_net_packet_parse_tcp_partial_lost (demo_buf 12) 16 9);
    first [apply demo_buf_ok; lia|reflexivity|lia|unfold buf_size; simpl; lia].
Defined.
Lemma gfs_net_packet_parse_tcp_bounds_witness :
  0 ≤ 16 ≤ buf_size (demo_buf 20) ∧
  (∀ off len, Some (0, 16) = Some (off, len) →
     0 ≤ off ∧ off + len = 0 + 16 ∧ 16 ≤ len ≤ 2048 ∧
     ld_be32 (nb_data (demo_buf 20)) (off + len - 4) = Some 0).
Proof.
  apply (gfs_net_packet_parse_tcp_bounds (demo_buf 20)); [apply demo_buf_ok; lia|reflexivity].
Defined.

(** The state is the buffer and the packets handled. *)
Definition demo_ops : rbuf_ops (netbuf * list bytes).
Proof.
  refine (RbufOps _ (λ st, Some st.1) (λ b st, (b, st.2)) _). done.
Defined.
Definition demo_busi (p : bytes) : M (netbuf * list bytes) Z :=
  λ st, Some (GFS_OK, (st.1, p :: st.2)).
Lemma gfs_handle_tcp_parse_stream_witness :
  gfs_handle_tcp_parse demo_ops demo_busi 3 (NetBuf (demo_packet ++ demo_packet) 32 32 0, []) =
    Some (GFS_OK, (NetBuf (demo_packet ++ demo_packet) 32 0 0, [demo_packet; demo_packet])).
Proof.
  apply (gfs_handle_tcp_parse_stream demo_ops demo_busi [demo_packet; demo_packet] 3
    (NetBuf (demo_packet ++ demo_packet) 32 32 0) [] []
    (NetBuf (demo_packet ++ demo_packet) 32 32 0, [])
    (NetBuf (demo_packet ++ demo_packet) 32 32 32, [demo_packet; demo_packet]));
    try reflexivity.
  - split_and!; simpl; lia.
  - repeat constructor; simpl; lia.
  - simpl. lia.
Defined.
Lemma gfs_handle_tcp_parse_fragment_lost_witness :
  gfs_handle_tcp_parse demo_ops demo_busi 1 (demo_buf 12, []) =
    Some (GFS_OK, (NetBuf (nb_data (demo_buf 12)) 32 0 0, [])).
Proof.
  apply (gfs_handle_tcp_parse_fragment_lost demo_ops demo_busi 0 (demo_buf 12) 16 9 (demo_buf 12, []));
    first [apply demo_buf_ok; lia|reflexivity|lia|unfold buf_size; simpl; lia].
Defined.
