(* ===== verification/Demo.v ===== *)
(** A concrete name service for the witnesses: an allocator that always
    succeeds, a database that answers every statement with the same reply, and
    a service with two connections, the second of which is data server 5. *)
From S2P Require Import Prelude Queue Rbtree Timer Bytes Text NetBuf Sql NetMap State.

Definition demo_malloc (n : Z) : option bytes :=
  if n <=? 0 then None else Some (repeat 0 (Z.to_nat n)).
#[export] Instance demo_env : Env.
Proof.
  refine {| env_malloc := demo_malloc; env_ctl := λ _, true; env_sentinel := 10; env_dslist := 20;
    env_tsentinel := 30; env_tloop := 40; env_notice_timer := 50; env_free_list := 60;
    env_used_list := 70; env_delay := 80; env_fuel := 20; env_raw := λ _, 0 |}; [done|].
  intros n b. unfold demo_malloc. case_match; [done|]. intros [= <-]. by rewrite repeat_length.
Defined.

(** The reply of the database is its state. *)
#[export] Instance demo_mysql : Mysql sql_reply :=
  {| mysql_query := λ _ d, (d, d); my_connect := λ d, Some (7, d) |}.

Definition demo_conn (fd : Z) (u : user) : conn :=
  Conn fd GFS_NET_READY 1 [10; 0; 0; fd] u (NetBuf (repeat 0 4096) 4096 0 0)
    (NetBuf (repeat 0 4096) 4096 0 0) [] [SendLen 28] [] 0 180000 0.

(** The map node of the data server is at 200; 300 is the next free one. *)
Definition demo_netmap : netmap :=
  NetMap (Rbt 200 (list_to_map [(10, RbNode 0 0 0 0 false); (200, RbNode 5 10 10 10 false);
                               (300, RbNode 0 0 0 0 false)]))
         (list_to_map [(20, QNode 240 240); (240, QNode 20 20); (340, QNode 0 0)])
         300 (list_to_map [(200, 2000)]) (list_to_map [(300, NULL)]) 0.
Definition demo_svc (r : sql_reply) : svc sql_reply :=
  TLoop (Rbt 30 (list_to_map [(30, RbNode 0 0 0 0 false)])) ∅
    (World 4194304 2 100 2 1000 1000000 demo_netmap
       (list_to_map [(1000, demo_conn 4 user0); (2000, demo_conn 5 (User 1 5 600 1000 60 50 9000))])
       (SqlSt [SqlConn 7 0] 1 0 0 0 0 r) ∅ 2 98 []).
