(* ===== verification/WitnessMap.v ===== *)
(** Concrete runs of the theorems on the map of data servers. *)
From stdpp Require Import sorting list.
From Stdlib Require Import (notations) String.
From S2P Require Import Prelude Queue Rbtree RbtreeRep RbtreeInsert RbtreeMap Bytes Text Sql NetMap State NetMapSpec SqlSpec Demo.

Definition demo_map_tree : tree := T false E 200 5 E.

(** Server 5 is registered and one node is free. *)
Lemma demo_map_rep : netmap_rep 10 20 demo_netmap [(5, 2000)] 1.
Proof.
  exists demo_map_tree, [200], [300]. split_and!.
  - split.
    + split; [exists 10; repeat split|done|apply (bool_decide_unpack _); by vm_compute|by eexists|].
      eexists. repeat econstructor.
    + repeat constructor.
    + done.
    + split; [by vm_compute|repeat constructor; set_solver].
    + split; [done|]. by exists NULL.
    + repeat constructor; set_solver.
    + intros m ->%list_elem_of_singleton. split_and!; [by eexists|by eexists|done].
  - constructor; [|done]. split; [set_solver|done].
  - apply NoDup_singleton.
  - done.
Qed.

(** An empty map with one free node. *)
Definition empty_netmap : netmap :=
  NetMap (Rbt 10 (list_to_map [(10, RbNode 0 0 0 0 false); (300, RbNode 0 0 0 0 false)]))
    (list_to_map [(20, QNode 20 20); (340, QNode 0 0)]) 300 ∅ (list_to_map [(300, NULL)]) 0.
Lemma empty_map_rep : netmap_rep 10 20 empty_netmap [] 1.
Proof.
  exists E, [], [300]. split_and!.
  - split.
    + split; simpl; [by exists 0|done|apply NoDup_singleton|by eexists|exists 0%nat; constructor].
    + constructor.
    + done.
    + split; [by vm_compute|apply NoDup_singleton].
    + split; [done|]. by exists NULL.
    + repeat constructor; set_solver.
    + intros m ->%list_elem_of_singleton. split_and!; [by eexists|by eexists|done].
  - constructor.
  - constructor.
  - done.
Qed.

Lemma gfs_net_map_get_witness : gfs_net_map_get 10 20 5 demo_netmap = Some (2000, demo_netmap).
Proof. apply (gfs_net_map_get_correct 10 20 20 demo_netmap [(5, 2000)] 1 5 demo_map_rep). simpl. lia. Defined.

Lemma gfs_net_map_add_witness : ∃ st',
  gfs_net_map_add 10 20 20 6 1000 demo_netmap = Some (GFS_OK, st') ∧
  ∃ es', netmap_rep 10 20 st' es' 0 ∧ es'.*1 = [5; 6].
Proof.
  destruct (gfs_net_map_add_correct 10 20 20 demo_netmap [(5, 2000)] 1 6 1000 demo_map_rep)
    as (st' & es' & Hrun & Hrep & _ & Hkeys & _); [simpl; lia|].
  exists st'. split; [exact Hrun|]. exists es'. split; [exact Hrep|exact Hkeys].
Defined.

Lemma gfs_net_map_remove_witness : ∃ st',
  gfs_net_map_remove 10 20 5 demo_netmap = Some (GFS_OK, st') ∧ netmap_rep 10 20 st' [] 1.
Proof.
  destruct (gfs_net_map_remove_correct 10 20 20 demo_netmap [(5, 2000)] 1 5 demo_map_rep)
    as (st' & es' & Hrun & Hrep & _ & -> & _); [simpl; lia|].
  exists st'. split; [exact Hrun|exact Hrep].
Defined.

Lemma gfs_net_map_nodes_run_out_witness : ∃ st',
  cycles 10 20 20 1 5 2000 empty_netmap = Some (tt, st') ∧
  gfs_net_map_get 10 20 5 st' = Some (2000, st') ∧
  gfs_net_map_add 10 20 20 5 3000 st' = Some (GFS_ERR, st').
Proof.
  destruct (gfs_net_map_nodes_run_out 10 20 20 0 empty_netmap 5 2000 empty_map_rep)
    as (st' & Hrun & Hget & Hadd); [lia|].
  exists st'. split; [exact Hrun|]. split; [exact Hget|apply Hadd].
Defined.

Lemma gfs_net_map_gettopn_witness : ∃ st',
  gfs_net_map_gettopn 20 20 (λ _, 0) 1000 3 demo_netmap = Some ((GFS_OK, [2000]), st') ∧ nm_sort_time st' = 1000.
Proof.
  destruct (gfs_net_map_gettopn_correct 10 20 20 (λ _, 0) demo_netmap [(5, 2000)] 1 1000 3 demo_map_rep)
    as (st' & es' & Hrun & _ & Hp & Ht); [simpl; lia|lia|].
  apply Permutation_singleton_r in Hp as ->. exists st'. split; [exact Hrun|exact Ht].
Defined.

(** Memory for the whole array at 1000. *)
Definition raw_netmap : netmap :=
  NetMap (Rbt 0 (list_to_map ((10, RbNode 7 7 7 7 true) :: ((λ m, (m, RbNode 7 7 7 7 true)) <$> nodes 1024 1000))))
    (list_to_map ((20, QNode 7 7) :: ((λ m, (qaddr m, QNode 7 7)) <$> nodes 1024 1000))) 0 ∅ ∅ 0.

Lemma gfs_net_map_init_witness :
  gfs_net_map_init 10 20 None raw_netmap = Some (GFS_ERR, raw_netmap) ∧
  ∃ st', gfs_net_map_init 10 20 (Some 1000) raw_netmap = Some (GFS_OK, st') ∧
    netmap_rep 10 20 st' [] (Z.to_nat GFS_NET_DS_MAPS).
Proof.
  apply (gfs_net_map_init_correct 10 20 raw_netmap 1000 (RbNode 7 7 7 7 true)); [by vm_compute| |done| | |].
  - vm_compute. by eexists.
  - intros H%nodes_lt. unfold NULL in H. lia.
  - intros H%nodes_lt. lia.
  - intros m Hm. pose proof (nodes_lt _ _ _ Hm).
    assert (forallb (λ m, bool_decide (is_Some (rb_heap (nm_tree raw_netmap) !! m)) &&
       bool_decide (is_Some (nm_queue raw_netmap !! qaddr m))) (nodes (Z.to_nat GFS_NET_DS_MAPS) 1000) = true)
      as Hall by (by vm_compute).
    rewrite forallb_forall in Hall. apply list_elem_of_In, Hall, andb_true_iff in Hm as [H1 H2].
    apply bool_decide_eq_true in H1, H2. split_and!; [done|done|]. unfold qaddr, qnode_off. lia.
Defined.

(** Concrete runs of the theorems on the database layer. *)
Definition demo_sql (r : sql_reply) : sqlst sql_reply := SqlSt [] 0 0 0 0 0 r.

(** Two connections; a statement that loses its connection and one that
    succeeds. *)
Lemma gfs_mysql_pool_balance_witness : ∃ st1 st,
  gfs_mysql_pool_create 2 (demo_sql (Reply CR_SERVER_LOST 0 [])) = Some (true, st1) ∧
  run_ops [OpDelfile []; OpGetfsize []] st1 = Some (tt, st) ∧ sq_conn_num st = 2.
Proof.
  eexists _, _. split; [by vm_compute|]. split; [by vm_compute|].
  eapply (gfs_mysql_pool_balance 2 (demo_sql (Reply CR_SERVER_LOST 0 [])) _ [OpDelfile []; OpGetfsize []]);
    [by vm_compute|by vm_compute|]. intros d. by eexists.
Defined.

Definition demo_refusing : sqlst sql_reply := SqlSt [SqlConn 7 0] 1 0 0 0 0 (Reply 1 0 []).
Lemma gfs_mysql_statements_fit_witness :
  (∃ st', gfs_mysql_set_deling (2 ^ 64 - 1) (2 ^ 31) (2 ^ 32 - 1) demo_refusing = Some (SQL_ARGS_ERR, st')) ∧
  gfs_mysql_download (λ _, true) (repeat 97 32) 10000000 0 demo_refusing = None ∧
  gfs_mysql_login (2 ^ 32 - 1) (2 ^ 64 - 1) (2 ^ 64 - 1) demo_refusing = None ∧
  gfs_mysql_delblock (2 ^ 64 - 1) (2 ^ 31) (2 ^ 32 - 1) demo_refusing = None.
Proof.
  destruct (gfs_mysql_statements_fit demo_refusing) as (_ & _ & H1 & _ & H2 & H3 & H4); [done|done| |].
  - intros p Hp. repeat (apply elem_of_cons in Hp as [->|Hp]; [done|]). by apply elem_of_nil in Hp.
  - split; [apply H1; unfold is_u64, is_u32; lia|]. split; [by apply H2|].
    split; [apply H3|apply H4]; vm_compute; lia.
Defined.

Lemma gfs_mysql_query_overflow_witness :
  gfs_mysql_download (λ _, true) (repeat 97 32) 10000000 0
    (SqlSt [SqlConn 7 0] 1 0 0 0 0 (Reply 0 1 [])) = None.
Proof.
  destruct (gfs_mysql_query_overflow (SqlSt [SqlConn 7 0] 1 0 0 0 0 (Reply 0 1 []))) as (H & _); [done|].
  apply H; [done|lia].
Defined.
