(* ===== verification/WitnessBusi.v ===== *)
(** Concrete runs of the theorems on the requests. *)
From Stdlib Require Import (notations) String.
From stdpp Require Import sorting list.
From S2P Require Import Prelude Queue Rbtree Timer Bytes Text Tools NetBuf Sql NetMap State Login Upload Download BusiFile Busi Fields LoginSpec.
From S2P Require Import UploadSpec DownloadSpec FileSpec BusiSpec Demo.

Lemma demo_conns_ok r : conns_ok (demo_svc r).
Proof.
  intros a c. unfold demo_svc. cbn [tl_world w_conns list_to_map foldr fst snd].
  rewrite !lookup_insert_Some, lookup_empty. intros [[_ <-]|[_ [[_ <-]|[_ ?]]]]; [| |done];
    (split; [done|unfold is_u32; simpl; lia]).
Qed.

Lemma gfs_busi_login_refines_witness : ∃ data req' rest,
  let ns := demo_svc (Reply 0 1 []) in let m := LoginMsg 77 0 1 6 500 1000 9001 in
  busi_case gfs_busi_login_parse gfs_busi_login_handle gfs_busi_login_tobuf
    (Busi 1 (concat (login_req m ++ [[]])) (repeat 0 28) (NetBuf [] 0 0 0) 1000 None [] ns) =
  (r ← login_effect 1000 m ns;
   let ans := login_ans 77 r.1 (w_block_size (tl_world ns)) in
   Some (GFS_OK, Busi 1 req' (concat (ans ++ [rest]))
     (NetBuf (concat ans ++ drop 28 data) 28 28 0) 1000 None [] r.2)).
Proof.
  exists (repeat 0 (Z.to_nat (htonl 28))).
  apply (gfs_busi_login_refines (LoginMsg 77 0 1 6 500 1000 9001) [] (repeat 0 28)
    (repeat 0 (Z.to_nat (htonl 28))) 1000 None [] (demo_svc (Reply 0 1 []))).
  - split_and!; unfold is_u32, is_u64; simpl; lia.
  - simpl. lia.
  - unfold env_malloc, demo_env, demo_malloc. by destruct (htonl 28 <=? 0) eqn:Hh.
Defined.

Lemma gfs_busi_upload_refines_witness : ∃ req' rsp' tail,
  let ns := demo_svc (Reply 0 1 [RSet [[lit "0"; lit "42"]] 0]) in
  let m := UploadMsg 78 0 (repeat 1 16) 5000 2 0 in
  busi_case gfs_busi_upload_parse gfs_busi_upload_handle gfs_busi_upload_tobuf
    (Busi 2 (concat (upload_req m ++ [[]])) (repeat 0 56) (NetBuf [] 0 0 0) 1000 None [] ns) =
  (o ← upload_effect m ns;
   let len := 36 + uo_num o.1 * 20 in
   Some (GFS_OK, Busi 2 req' (rsp' o.1)
     (NetBuf (upload_ans 78 o.1 ++ tail o.1) len len 0) 1000 None [] o.2)).
Proof.
  apply (gfs_busi_upload_refines (UploadMsg 78 0 (repeat 1 16) 5000 2 0)).
  - split_and!; unfold is_u32, is_u64, is_bytes; cbn; try lia. repeat constructor; lia.
  - apply demo_conns_ok.
  - simpl. lia.
  - intros k Hk. unfold env_malloc, demo_env, demo_malloc.
    destruct (Z.leb_spec (k * 20) 0); [lia|by eexists].
  - intros k Hk. unfold env_malloc, demo_env, demo_malloc.
    destruct (Z.leb_spec (36 + k * 20) 0); [lia|by eexists].
Defined.

(** Two blocks on server 5 and one on a server that is not connected. *)
Definition demo_rows : sql_reply :=
  Reply 0 1 [RSet [[lit "42"]] 0;
    RSet [[lit "0"; lit "5"]; [lit "1"; lit "9"]; [lit "1"; lit "5"]] 0].
Definition demo_blocks : list sql_block := [SqlBlock 0 5 0; SqlBlock 1 9 0; SqlBlock 1 5 0].
Definition demo_server : conn := demo_conn 5 (User 1 5 600 1000 60 50 9000).
Definition demo_located : list located := [(0, Some demo_server); (1, None); (1, Some demo_server)].
Definition demo_download : download_msg := DownloadMsg 79 0 (repeat 1 16) (2 ^ 32 - 1).
Lemma demo_locate : locate demo_blocks (demo_svc demo_rows) = Some (demo_located, demo_svc demo_rows).
Proof. by vm_compute. Qed.

Lemma gfs_busi_download_refines_witness : ∃ req' rsp' blk tail,
  busi_case gfs_busi_download_parse gfs_busi_download_handle gfs_busi_download_tobuf
    (Busi 3 (concat (download_req demo_download ++ [[]])) (repeat 0 56) (NetBuf [] 0 0 0) 1000 None []
       (demo_svc demo_rows)) =
  Some (GFS_OK, Busi 3 req' rsp'
    (NetBuf (download_ans 79 0 (be_bytes 8 42) 2
       (bl_bytes [(0, demo_server); (1, demo_server)] blk) ++ tail) 84 84 0)
    1000 None [] (demo_svc demo_rows)).
Proof.
  destruct (gfs_busi_download_refines demo_download [] (repeat 0 56) 1000 None (demo_svc demo_rows))
    as (g & _ & Hrun).
  - split_and!; unfold is_u32, is_bytes; cbn; try lia. repeat constructor; lia.
  - apply demo_conns_ok.
  - simpl. lia.
  - simpl. lia.
  - intros k Hk _. unfold env_malloc, demo_env, demo_malloc.
    destruct (Z.leb_spec (36 + 24 * k) 0); [lia|by eexists].
  - apply (Hrun 0 (be_bytes 8 42) demo_blocks demo_located (demo_svc demo_rows) (demo_svc demo_rows)).
    + by vm_compute.
    + apply demo_conns_ok.
    + done.
    + simpl. lia.
    + exact demo_locate.
Defined.

Lemma download_blocks_correct_witness : ∃ sel rest,
  download_blocks demo_blocks (repeat 0 32 ++ repeat 0 80) 0 0 0
    (Busi 3 [] [] (NetBuf [] 0 0 0) 1000 None [] (demo_svc demo_rows)) =
  Some ((repeat 0 32 ++ bl_bytes sel (repeat 0 80) ++ rest, Z.of_nat (length sel)),
        Busi 3 [] [] (NetBuf [] 0 0 0) 1000 None [] (demo_svc demo_rows)) ∧
  chosen 1 sel = [(1, demo_server)].
Proof.
  destruct (download_blocks_correct 2 (demo_svc demo_rows) demo_blocks demo_located (demo_svc demo_rows)
    (repeat 0 32) (repeat 0 80) (Busi 3 [] [] (NetBuf [] 0 0 0) 1000 None [] (demo_svc demo_rows)))
    as (sel & rest & Hrun & _ & Hsel).
  - done.
  - done.
  - lia.
  - apply demo_conns_ok.
  - exact demo_locate.
  - repeat constructor; simpl; lia.
  - simpl. lia.
  - done.
  - exists sel, rest. split; [exact Hrun|].
    rewrite Hsel; [done|repeat constructor; simpl; lia|repeat constructor; simpl; lia|simpl; lia].
Defined.

Definition demo_file : file_msg := FileMsg 80 0 (repeat 1 16).
Lemma demo_file_ok : file_msg_ok demo_file.
Proof. split_and!; unfold is_u32, is_bytes; cbn; try lia. repeat constructor; lia. Qed.

Lemma gfs_busi_getfsize_refines_witness : ∃ data req' rsp',
  let ns := demo_svc (Reply 0 1 [RSet [[lit "5000"]] 0]) in
  busi_case gfs_busi_getfsize_parse gfs_busi_getfsize_handle gfs_busi_getfsize_tobuf
    (Busi 10 (concat (file_req 10 demo_file ++ [[]])) (repeat 0 40) (NetBuf [] 0 0 0) 1000 None [] ns) =
  Some (GFS_OK, Busi 10 req' rsp'
    (NetBuf (concat (getfsize_ans 80 0 5000 4194304) ++ drop 36 data) 36 36 0) 1000 None [] ns).
Proof.
  exists (repeat 0 (Z.to_nat (htonl 36))).
  destruct (gfs_busi_getfsize_refines demo_file [] (repeat 0 40) (repeat 0 (Z.to_nat (htonl 36))) 1000 None []
    (demo_svc (Reply 0 1 [RSet [[lit "5000"]] 0])) demo_file_ok) as (req' & rsp' & Hrun).
  - simpl. lia.
  - unfold env_malloc, demo_env, demo_malloc. by destruct (htonl 36 <=? 0) eqn:Hh.
  - exists req', (rsp' (0, 5000)). cbv zeta. rewrite Hrun.
    replace (getfsize_effect demo_file (demo_svc (Reply 0 1 [RSet [[lit "5000"]] 0])))
      with (Some (0, 5000, demo_svc (Reply 0 1 [RSet [[lit "5000"]] 0]))) by (by vm_compute).
    reflexivity.
Defined.

Lemma gfs_busi_delete_file_refines_witness : ∃ data req' rest,
  let ns := demo_svc (Reply 0 0 []) in
  busi_case gfs_busi_delete_file_parse gfs_busi_delete_file_handle gfs_busi_delete_file_tobuf
    (Busi 4 (concat (file_req 4 demo_file ++ [[]])) (repeat 0 24) (NetBuf [] 0 0 0) 1000 None [] ns) =
  (r ← delete_file_effect demo_file ns;
   let ans := delete_file_ans 80 r.1 in
   Some (GFS_OK, Busi 4 req' (concat (ans ++ [rest])) (NetBuf (concat ans ++ drop 24 data) 24 24 0)
     1000 None [] r.2)).
Proof.
  exists (repeat 0 24).
  apply (gfs_busi_delete_file_refines demo_file [] (repeat 0 24) (repeat 0 24) 1000 None []
    (demo_svc (Reply 0 0 [])) demo_file_ok); [simpl; lia|done].
Defined.

Definition demo_block : block_msg := BlockMsg 81 0 42 1 5.
Lemma demo_block_ok : block_msg_ok demo_block.
Proof. split_and!; cbn; unfold is_u32, is_u64; lia. Qed.

Lemma gfs_busi_delete_block_refines_witness : ∃ req',
  let ns := demo_svc (Reply 0 1 []) in
  busi_case gfs_busi_delete_block_parse gfs_busi_delete_block_handle gfs_busi_delete_block_tobuf
    (Busi 6 (concat (delete_block_req demo_block (repeat 0 4) (repeat 0 8) (repeat 0 4) ++ [[]]))
       [] (NetBuf [] 0 0 0) 2000 None [] ns) =
  (r ← delete_block_effect 2000 demo_block ns; Some (GFS_OK, Busi 6 req' [] (NetBuf [] 0 0 0) 2000 None [] r.2)).
Proof.
  apply (gfs_busi_delete_block_refines demo_block (repeat 0 4) (repeat 0 8) (repeat 0 4) [] []
    (NetBuf [] 0 0 0) 2000 None [] (demo_svc (Reply 0 1 [])) demo_block_ok); done.
Defined.

Lemma gfs_busi_copy_block_refines_witness : ∃ req',
  let ns := demo_svc (Reply 0 1 []) in
  busi_case gfs_busi_copy_block_parse gfs_busi_copy_block_handle gfs_busi_copy_block_tobuf
    (Busi 8 (concat (copy_block_req demo_block 500 ++ [[]])) [] (NetBuf [] 0 0 0) 2000 None [] ns) =
  (r ← copy_block_effect demo_block ns; Some (GFS_OK, Busi 8 req' [] (NetBuf [] 0 0 0) 2000 None [] r.2)).
Proof.
  apply (gfs_busi_copy_block_refines demo_block 500 [] [] (NetBuf [] 0 0 0) 2000 None []
    (demo_svc (Reply 0 1 [])) demo_block_ok).
Defined.

Lemma gfs_busi_heartbeat_refines_witness : ∃ req' ns',
  busi_case gfs_busi_heartbeat_parse gfs_busi_heartbeat_handle gfs_busi_heartbeat_tobuf
    (Busi 9 (concat (beat_req (BeatMsg 82 0 1 35) ++ [[]])) [] (NetBuf [] 0 0 0) 2000 None []
       (demo_svc (Reply 0 1 []))) =
  Some (GFS_OK, Busi 9 req' [] (NetBuf [] 0 0 0) 2000 None [] ns') ∧
  u_weight ∘ c_user <$> w_conns (tl_world ns') !! 2000 = Some 35.
Proof.
  destruct (gfs_busi_heartbeat_refines (BeatMsg 82 0 1 35) [] [] (NetBuf [] 0 0 0) 2000
    (demo_conn 5 (User 1 5 600 1000 60 50 9000)) None [] (demo_svc (Reply 0 1 []))) as (req' & Hrun).
  - split_and!; cbn; unfold is_u32; lia.
  - done.
  - eexists req', _. split; [exact Hrun|]. by vm_compute.
Defined.

(** Concrete runs of the theorems on the dispatcher: a request to delete a file,
    on a connection whose socket takes the answer in two pieces, and on one that
    breaks after ten bytes. *)
Definition demo_packet : bytes := concat (file_req 4 (FileMsg 80 0 (repeat 171 16))).
Definition demo_send (script : list send_res) : conn :=
  Conn 4 GFS_NET_READY 1 [10; 0; 0; 4] user0 (NetBuf (repeat 0 4096) 4096 0 0)
    (NetBuf (repeat 0 4096) 4096 0 0) [] script [] 0 180000 0.
Definition demo_sending (script : list send_res) : svc sql_reply :=
  upd 1000 (demo_send script) (demo_svc (Reply 0 1 [])).
Definition demo_fresh (script : list send_res) : busi sql_reply :=
  fresh_busi 4 1000 demo_packet (repeat 0 36) (repeat 0 24) (demo_sending script).

(** What the handlers make of it, and the answer. *)
Definition demo_handled (script : list send_res) : busi sql_reply :=
  match busi_switch 4 with
  | Some m => match m (demo_fresh script) with Some (_, b) => b | None => demo_fresh script end
  | None => demo_fresh script
  end.
Definition demo_answer : bytes := nb_data (b_sbuf (demo_handled [])).

Lemma demo_is_handled s :
  handled 4 1000 demo_packet (repeat 0 36) (repeat 0 24) (demo_sending s) (demo_handled s).
Proof.
  split; [split_and!; try done; vm_compute; lia|].
  eexists _, _. split; [reflexivity|]. unfold demo_handled. vm_compute. reflexivity.
Qed.
Lemma demo_idle s : idle (demo_send s).
Proof. split_and!; try done; vm_compute; lia. Qed.

Definition demo_pieces : list send_res := [SendLen 10; SendErr EINTR; SendLen 14].
Lemma demo_accepts : accepts demo_pieces 24 [].
Proof. apply acc_len; [lia|]. apply acc_intr; [lia|]. apply acc_len; [lia|]. apply acc_done. Qed.
Definition demo_broken : list send_res := [SendLen 10; SendErr 104].
Lemma demo_breaks : breaks demo_broken 24.
Proof. apply brk_len; [lia|]. apply brk_err; [lia|done..]. Qed.

Lemma gfs_busi_handle_answers_witness : ∃ d,
  gfs_busi_handle (λ _, ub) 2 1000 demo_packet (demo_sending demo_pieces) =
    Some (GFS_OK, upd 1000 (sent demo_answer [] d (demo_send demo_pieces)) (b_ns (demo_handled demo_pieces))) ∧
  length demo_answer = 24%nat.
Proof.
  destruct (proj2 (gfs_busi_handle_answers (λ _, ub) 0 1000 demo_packet 4 (repeat 0 36) (repeat 0 24)
    (demo_send demo_pieces) (demo_send demo_pieces) (demo_handled demo_pieces) (demo_sending demo_pieces) demo_answer []
    (demo_is_handled _) eq_refl eq_refl eq_refl eq_refl) []) as [d Hd].
  - vm_compute. discriminate.
  - apply demo_idle.
  - vm_compute. discriminate.
  - apply demo_accepts.
  - exists d. split; [exact Hd|reflexivity].
Defined.

Lemma gfs_busi_handle_close_uaf_witness :
  gfs_busi_handle (λ _, ub) 5 1000 demo_packet (demo_sending demo_broken) = None.
Proof.
  apply (gfs_busi_handle_close_uaf (λ _, ub) 5 1000 demo_packet 4 (repeat 0 36) (repeat 0 24)
    (demo_send demo_broken) (demo_send demo_broken) (demo_handled demo_broken) (demo_sending demo_broken) demo_answer []
    (demo_is_handled _)); try reflexivity.
  - discriminate.
  - apply demo_idle.
  - vm_compute. split; [reflexivity|discriminate].
  - apply demo_breaks.
Defined.
