(* ===== verification/WitnessMem.v ===== *)
(** The theorems on the memory pool at a concrete C library and memory. *)
From iris.proofmode Require Import proofmode.
From S2P Require Import Prelude Store HeapLogic Mem MemRep MemBlocks MemPool MemSpec MemLife.

(** ** A library that hands out memory behind everything in use *)

Definition cell_addr (c : cell) : Z := match c with Word a => a | Sys p => p end.
Definition top (m : mem) : Z := foldr (λ cv, Z.max (cell_addr cv.1)) 0 (map_to_list m).

Lemma top_ge m c v : m !! c = Some v → cell_addr c ≤ top m.
Proof.
  intros Hc%elem_of_map_to_list. unfold top. induction (map_to_list m) as [|cv l IH]; [by apply elem_of_nil in Hc|].
  simpl. apply elem_of_cons in Hc as [<-|Hc]; [simpl; lia|]. specialize (IH Hc). lia.
Qed.
Lemma top_nonneg m : 0 ≤ top m.
Proof. unfold top. induction (map_to_list m) as [|cv l IH]; simpl; lia. Qed.

#[export] Program Instance bump : Libc :=
  { sys_malloc n m := Some (16 * (top m / 16 + 1)); sys_junk p := 165 + p }.
Next Obligation.
  intros n m p [= <-]. pose proof (top_nonneg m). pose proof (Z.div_mod (top m) 16 ltac:(lia)).
  pose proof (Z.mod_pos_bound (top m) 16 ltac:(lia)).
  assert (Hno : ∀ c, 16 * (top m / 16 + 1) ≤ cell_addr c → m !! c = None).
  { intros c Hc. destruct (m !! c) as [v|] eqn:Hv; [|done]. apply top_ge in Hv. lia. }
  split_and!; [lia|by exists (top m / 16 + 1); lia|by apply Hno; simpl; lia|].
  intros a [Ha _]. by apply Hno.
Qed.

(** The value and the memory of a run. *)
Definition result {A} (o : outcome A) : option A := match o with Ret x _ => Some x | _ => None end.
Definition memory {A} (o : outcome A) : mem := match o with Ret _ m => m | _ => ∅ end.
Lemma result_run {A} P (m : MM A) Φ h x :
  triple P m Φ → P h → result (m h) = Some x → Φ x (memory (m h)).
Proof. intros Ht HP Hr. pose proof (triple_run P m Φ h Ht HP) as H. destruct (m h); by simplify_eq/=. Qed.

(** A pool of two pages, and memory from it. *)
Definition m0 : mem := {[Word 8 := 0]}.
Definition m1 : mem := memory (gfs_mem_pool_create 8 2 m0).
Definition m2 : mem := memory (gfs_mem_malloc 8 64 100 m1).
Definition m3 : mem := memory (gfs_mem_malloc 8 64 5000 m2).

Lemma m0_word : word 8 m0.
Proof. exists 0. apply lookup_singleton_eq. Qed.
Lemma m1_pool : (mem_pool 64 [] ∗ word 8)%I m1.
Proof.
  apply (result_run (word 8) _ (λ pool, mem_pool pool [] ∗ word 8)%I m0); [|apply m0_word|vm_compute; reflexivity].
  apply create_run. lia.
Qed.
Lemma got_own allsize pool L size r h :
  got pool allsize L size r h → ∃ k, (mem_pool pool ((r, k) :: L) ∗ junk r k ∗ word allsize)%I h.
Proof. intros (k & h1 & h2 & Hd & Hs & _ & HP). exists k. eapply holds_mono; [exact HP|]. etrans; [|exact Hs]. by apply map_union_subseteq_r. Qed.
Lemma m2_pool : ∃ k, (mem_pool 64 [(4184, k)] ∗ junk 4184 k ∗ word 8)%I m2.
Proof.
  eapply got_own, (result_run _ _ (got 64 8 [] 100) m1); [|apply m1_pool|vm_compute; reflexivity].
  apply malloc_run; lia.
Qed.
(** The pool with a small and a large allocation. *)
Lemma m3_pool : ∃ L, length L = 2%nat ∧ (mem_pool 64 L ∗ live_junk L ∗ word 8)%I m3.
Proof.
  destruct m2_pool as [k Hm2].
  assert (triple (mem_pool 64 [(4184, k)] ∗ junk 4184 k ∗ word 8)%I (gfs_mem_malloc 8 64 5000)
    (λ r, ∃ L, ⌜length L = 2%nat⌝ ∧ (mem_pool 64 L ∗ live_junk L ∗ word 8))%I) as Ht.
  { unfold triple. iIntros "(HP & Hj & Ha)". iApply (wp_wand with "[-]"). iSplitR "Hj"; [iApply (malloc_run with "[$HP $Ha]"); lia|].
    iIntros (r) "(%l & _ & HP & Hj2 & Ha)". iExists _. iSplit; [|give "HP"]; [done|]. simpl. iFrame "Ha".
    iSplitL "Hj2"; [iExact "Hj2"|]. iSplitL; [iExact "Hj"|done]. }
  destruct (result_run _ _ _ m2 8256 Ht Hm2 ltac:(vm_compute; reflexivity)) as (L & HL & H). by exists L.
Qed.

Lemma gfs_mem_pool_create_witness : (mem_pool 64 [] ∗ word 8)%I m1.
Proof.
  apply (result_run (word 8) _ (λ pool, mem_pool pool [] ∗ word 8)%I m0).
  - apply (gfs_mem_pool_create_correct 8 2). lia.
  - apply m0_word.
  - vm_compute. reflexivity.
Defined.

Lemma gfs_mem_malloc_witness : got 64 8 [] 100 4184 m2 ∧ result (gfs_mem_malloc 8 64 100 m1) = Some 4184.
Proof.
  split; [|vm_compute; reflexivity].
  apply (result_run (mem_pool 64 [] ∗ word 8)%I _ (got 64 8 [] 100) m1).
  - apply (gfs_mem_malloc_correct 8 64 [] 100); lia.
  - apply m1_pool.
  - vm_compute. reflexivity.
Defined.


Lemma m3_owned : ∃ ps lg n, (pool_inv 64 ps lg n ∗ live_junk (plives ps ++ llives lg) ∗ word 8)%I m3.
Proof.
  destruct m3_pool as (L & _ & Hm3).
  assert ((∃ ps lg n, pool_inv 64 ps lg n ∗ live_junk (plives ps ++ llives lg) ∗ word 8)%I m3) as (ps & lg & n & H); [|by exists ps, lg, n].
  revert Hm3. apply entails_holds. iIntros "((%ps & %lg & %n & HP & %HL) & Hj & Ha)". iExists ps, lg, n.
  iFrame "HP Ha". unfold live_junk. by rewrite HL.
Qed.

(** Ending the pool leaves the word of the allocator, as it was before the pool was
    made. *)
Lemma gfs_mem_pool_end_witness : ∃ D1 D2,
  dom (memory (gfs_mem_pool_reset 8 64 m3)) = dom m3 ∖ cells_of D1 ∧
  dom (memory (gfs_mem_pool_destory 8 64 m3)) = dom m3 ∖ cells_of D2 ∧
  dom (memory (gfs_mem_pool_destory 8 64 m3)) = dom m0.
Proof.
  destruct m3_owned as (ps & lg & n & Hm3). destruct (gfs_mem_pool_end_correct 8 64 ps lg n) as [H1 H2].
  destruct (triple_frees_run _ _ _ _ m3 H1 Hm3) as (x1 & h1 & E1 & _ & D1).
  destruct (triple_frees_run _ _ _ _ m3 H2 Hm3) as (x2 & h2 & E2 & _ & D2).
  exists (lg ++ page_blocks (dropped ps)), (lg ++ page_blocks ps).
  split; [rewrite E1; exact D1|]. split; [rewrite E2; exact D2|].
  clear. apply (bool_decide_unpack _). vm_compute. reflexivity.
Defined.
