(* ===== verification/WitnessProxy.v ===== *)
(** Concrete runs of the theorems on the proxy. *)
From Stdlib Require Import (notations) String.
From stdpp Require Import list.
From S2P Require Import Prelude Queue Rbtree Timer Bytes Text Tools NetBuf Sql NetMap State Upload BusiFile Busi Fields UploadSpec DownloadSpec FileSpec.
From S2P Require Import ProxyText ProxyNet ProxyState ProxyHttp ProxyMsg ProxyRsp ProxyLoop ProxyRelay ProxyAns ProxyReq ProxyEnd ProxyFail ProxyUp Demo WitnessBusi.

(** The name service listens on 127.0.0.1:8800; new memory is zero. *)
#[export] Instance demo_proxy : ProxyEnv.
Proof.
  refine {| pv_ns := (16777343, 8800); pv_fresh := λ n, replicate n 0; pv_stack := λ n, replicate n 0 |}.
  - intros n. apply length_replicate.
  - intros n. apply Forall_replicate. unfold is_byte. lia.
  - intros n. apply length_replicate.
Defined.

Definition demo_us : upst := Upst None [] 0 (RspHead 0 0 0 0 0) 0 false false None.
Definition demo_px (path query : bytes) (dials : list dial) : px :=
  Px path query (Io 0 0 0 [] None) (File [] 0 0 0 0 0 [] []) true demo_us
     (Client true true true [] [SendLen 3; SendErr EAGAIN]) [] None 0 1000 dials [] [].

Definition demo_upload_query : bytes :=
  lit "filename=a.txt&filesize=5000&blocksize=4096&filehash=01010101010101010101010101010101&blocknumber=2&blockindex=0".
Definition demo_ns : svc sql_reply := demo_svc (Reply 0 1 [RSet [[lit "0"; lit "42"]] 0]).
Definition demo_hash : bytes := repeat 1 16.
Definition demo_entry : entry := Entry [10; 0; 0; 5] (repeat 0 12) [0; 0; 35; 40].

Lemma demo_alloc k : 0 < k → is_Some (env_malloc k).
Proof. intros H. unfold env_malloc, demo_env, demo_malloc. destruct (Z.leb_spec k 0); [lia|by eexists]. Qed.
Lemma demo_hash_bytes : is_bytes demo_hash.
Proof. repeat constructor; lia. Qed.

(** A query: the service knows a file of 5000 bytes. *)
Lemma query_end_to_end_witness : ∃ data s1 s2 req' rsp',
  let ns := demo_svc (Reply 0 1 [RSet [[lit "5000"]] 0]) in
  let m := FileMsg 1000 0 demo_hash in
  let ans := concat (getfsize_ans 1000 0 5000 4194304) in
  let s := demo_px [] (hash_query demo_hash) [DialOk [RecvData ans] [SendLen 20]] in
  gvfs_ns_query_request s = Some (GVFS_OK, s1) ∧
  px_trace s1 = [AConnect 16777343 8800; AUp (concat (file_req 10 m))] ∧
  busi_case gfs_busi_getfsize_parse gfs_busi_getfsize_handle gfs_busi_getfsize_tobuf
    (Busi 10 (concat (file_req 10 m ++ [[]])) (repeat 0 40) (NetBuf [] 0 0 0) 1000 None [] ns) =
    Some (GFS_OK, Busi 10 req' rsp' (NetBuf (ans ++ drop 36 data) 36 36 0) 1000 None [] ns) ∧
  up_event false s1 = Some (tt, s2) ∧
  px_trace s2 = px_trace s1 ++ [ACloseUp; AClient (answer_text HTTP_Ok (lit "file_size=" ++ fmt_u 5000 ++ lit "&block_size=" ++ fmt_u (u32 4194304)))] ∧
  us_conn (px_us s2) = None.
Proof.
  destruct (demo_alloc (htonl 36)) as [data Hdata]; [done|]. exists data.
  destruct (query_end_to_end demo_hash [] [SendLen 20] [] (demo_px [] (hash_query demo_hash)
    [DialOk [RecvData (concat (getfsize_ans 1000 0 5000 4194304))] [SendLen 20]]) 0 5000
    (demo_svc (Reply 0 1 [RSet [[lit "5000"]] 0])) (demo_svc (Reply 0 1 [RSet [[lit "5000"]] 0])) [] (repeat 0 40)
    data 1000 None []) as (s1 & s2 & req' & rsp' & H1 & H2 & H3 & H4 & H5 & H6);
    [apply demo_hash_bytes|done|done|done|done|done|done|done|done|done|simpl; lia|exact Hdata|by vm_compute|].
  exists s1, s2, req', rsp'. 
  split; [exact H1|]. split; [exact H2|]. split; [exact H3|]. split; [exact H4|]. split; [exact H5|exact H6].
Defined.

(** An upload: the only data server is 10.0.0.5, port 9000. *)
Lemma upload_end_to_end_witness : ∃ s1 s2 req' rsp' tail ns',
  let m := UploadMsg 1000 0 demo_hash 5000 2 0 in
  let o := UploadOut 0 42 1 (entries [demo_entry]) in
  let s := demo_px [] demo_upload_query [DialOk [RecvData (upload_ans 1000 o)] []; DialOk [] []] in
  gvfs_ns_upload_request s = Some (GVFS_OK, s1) ∧
  px_trace s1 = [AConnect 16777343 8800; AUp (concat (upload_req m))] ∧
  busi_case gfs_busi_upload_parse gfs_busi_upload_handle gfs_busi_upload_tobuf
    (Busi 2 (concat (upload_req m ++ [[]])) (repeat 0 56) (NetBuf [] 0 0 0) 1000 None [] demo_ns) =
    Some (GFS_OK, Busi 2 req' rsp' (NetBuf (upload_ans 1000 o ++ tail) 56 56 0) 1000 None [] ns') ∧
  up_event false s1 = Some (tt, s2) ∧
  px_trace s2 = px_trace s1 ++
    [ACloseUp; AConnect 83886090 9000; AUp (ds_upload_req (next_id s1) 42 0 4096 []);
     AClient (answer_text HTTP_Ok (lit "rtn=0&ds_number=" ++ fmt_u 1))] ∧
  pe_handler <$> us_conn (px_us s2) = Some HDsHeader.
Proof.
  destruct (upload_effect (UploadMsg 1000 0 demo_hash 5000 2 0) demo_ns) as [[o ns']|] eqn:Heff; [|by vm_compute in Heff].
  assert (o = UploadOut 0 42 1 (entries [demo_entry])) as ->.
  { apply (f_equal (fmap fst)) in Heff. cbn [fmap option_fmap option_map fst] in Heff. vm_compute in Heff. by injection Heff as <-. }
  destruct (upload_end_to_end demo_upload_query (lit "a.txt") (lit "5000") (lit "4096") demo_hash (lit "2") (lit "0") 42 [] demo_entry []
    [] [] [] [] [] (demo_px [] demo_upload_query
      [DialOk [RecvData (upload_ans 1000 (UploadOut 0 42 1 (entries [demo_entry])))] []; DialOk [] []])
    demo_ns ns' [] (repeat 0 56) 1000 []) as (s1 & s2 & req' & rsp' & tail & H1 & H2 & H3 & H4 & H5 & H6);
    [by vm_compute|by vm_compute| |done|done|done|done|done|done|done|done|apply demo_conns_ok|simpl; lia| | |exact Heff| |unfold is_u64; lia|].
  - split_and!; [|apply demo_hash_bytes|done|..]; split; by vm_compute.
  - intros k Hk. apply demo_alloc. lia.
  - intros k Hk. apply demo_alloc. lia.
  - constructor; [|constructor]. split_and!; [done..| |]; repeat constructor; simpl; lia.
  - exists s1, s2, req', rsp', tail, ns'. split; [exact H1|]. split; [exact H2|]. split; [exact H3|]. split; [exact H4|].
    split; [exact H5|exact H6].
Defined.

Lemma gvfs_readers_correct_witness :
  gvfs_rb32 [1; 2; 3; 4] 0 = be_val <$> ld_bytes 4 0 [1; 2; 3; 4] ∧ be_val [1; 2; 3; 4] = 16909060.
Proof.
  destruct (gvfs_readers_correct [1; 2; 3; 4] 0) as (_ & [H _] & _); [repeat constructor; lia|].
  split; [exact H|done].
Defined.

(** The socket takes two bytes, then it is interrupted and full for a while. *)
Lemma gvfs_completed_send_all_witness : ∃ code out script',
  gvfs_completed_send [SendLen 2; SendErr EINTR; SendErr EAGAIN; SendLen 9] [1; 2; 3; 4; 5] = Some (code, out, script') ∧
  (code = GVFS_OK ∧ out = [1; 2; 3; 4; 5] ∨
   code = GVFS_ERROR ∧ (∃ rest, rest ≠ [] ∧ [1; 2; 3; 4; 5] = out ++ rest) ∧
     existsb send_fatal [SendLen 2; SendErr EINTR; SendErr EAGAIN; SendLen 9] = true).
Proof. by apply (gvfs_completed_send_all [SendLen 2; SendErr EINTR; SendErr EAGAIN; SendLen 9] [1; 2; 3; 4; 5]). Defined.

(** A client that sends the last five bytes of seven, to a server that takes one at a time;
    the buffer has room for three. *)
Definition demo_up : upst :=
  Upst (Some (Peer HDsHeader true true true true [] [SendLen 1; SendLen 1; SendErr EINTR])) [] 0 (RspHead 0 0 0 0 0) 7 false false None.
Definition demo_body : px :=
  Px [] [] (Io 7 2 0 [] (Some (DBuf 3 []))) (File [] 0 0 0 0 0 [] []) true demo_up
     (Client true true true [RecvData [1; 2]; RecvErr EINTR; RecvData [3; 4; 5]] []) [] None 0 1000 [] [] [].

(** Five bytes of a block of five, in two pieces, to a client that takes three. *)
Definition demo_block_peer : peer := Peer HDsBody true true true true [RecvData [1; 2]; RecvErr EINTR; RecvData [3; 4; 5]] [].
Definition demo_down : px :=
  Px [] [] (Io 5 0 0 [] None) (File [] 0 0 0 0 0 [] []) true
     (Upst (Some demo_block_peer) [] 0 (RspHead 0 0 0 0 0) 7 true false (Some (DBuf 3 [])))
     (Client true true true [] [SendLen 3]) [] None 0 1000 [] [] [].

Lemma gvfs_http_finalize_answers_witness : ∃ tx,
  let s := demo_px [] [] [] in gvfs_http_finalize_request 404 s = Some (tt, answered (reply_text 404 s) tx s) ∧
  (length (reply_text 404 s) < 1024)%nat.
Proof.
  destruct (gvfs_http_finalize_answers 404 (demo_px [] [] [])) as [[tx Hr] Ht]; [lia|done|].
  exists tx. split; [exact Hr|]. by apply Ht.
Defined.

(** A head in two pieces of eight bytes. *)
Lemma ns_header_split_witness : ∃ s',
  let st := requested [7] [RecvData (repeat 0 8); RecvData (repeat 0 8)] [] [] (demo_px [] [] []) in
  up_event false st = Some (tt, s') ∧
  px_trace s' = px_trace st ++ [AClient (page HTTP_NotAcceptable); ACloseUp] ∧ us_conn (px_us s') = None.
Proof. by apply (ns_header_split (repeat 0 8) (repeat 0 8) [7] [] [] [] (demo_px [] [] [])). Defined.

(** "/s" is a query. *)
Lemma request_dispatch_witness :
  gvfs_http_request_handler (mret GVFS_OK) (demo_px (lit "/s") (hash_query demo_hash) [DialOk [] []]) =
    (rc ← gvfs_ns_query_request; mret (if rc =? GVFS_OK then GVFS_OK else GVFS_ERROR))
      (demo_px (lit "/s") (hash_query demo_hash) [DialOk [] []]).
Proof.
  rewrite (request_dispatch (mret GVFS_OK) 47 (lit "s")); [by rewrite decide_True by (by eexists)|done..|].
  by repeat constructor.
Defined.

(** The answer to a client's first download has one block. *)
Definition demo_download_px : px :=
  Px [] [] (Io 0 0 0 [] None) (File [] 0 0 0 0 0 [] []) true
     (Upst None (repeat 0 31 ++ [1] ++ repeat 0 28) 60 (RspHead 60 7 3 0 0) 7 true true None)
     (Client true true true [] []) [] None 0 1000 [] [] [].
Lemma download_needs_upload_witness : ¬ is_Some (gvfs_ns_file_download_process demo_download_px).
Proof.
  rewrite (download_needs_upload 1 demo_download_px); [simpl; lia|by vm_compute|lia|simpl; lia|done].
Defined.

(** The head and a part of the body of an answer, in pieces. *)
Definition demo_reading : px :=
  Px [] [] (Io 0 0 0 [] None) (File [] 0 0 0 0 0 [] []) true
     (Upst (Some (Peer HNsHeader true true true true [RecvData [0; 0; 0]; RecvErr EINTR; RecvData (repeat 9 20)] []))
        (repeat 0 64) 0 (RspHead 0 0 0 0 0) 7 false false None)
     (Client true true true [] []) [] None 0 1000 [] [] [].
Lemma response_readers_typed_witness :
  reads gvfs_ns_read_response_header 16 demo_reading ∧ reads gvfs_ds_read_respodse_header 20 demo_reading.
Proof.
  destruct (response_readers_typed demo_reading) as (H1 & H2 & _).
  - split_and!; [eexists; split; [done|]; repeat constructor; lia|apply (Forall_replicate _ 64 0); unfold is_byte; lia|simpl; lia|done|..];
      split; done.
  - split; [apply H1|apply H2]; cbn; lia.
Defined.
