(* ===== verification/WitnessStore.v ===== *)
(** A small block store (four blocks of 256 bytes on "/d"), and the theorems about the
    data server at work on it. *)
From Stdlib Require Import (notations) String.
From stdpp Require Import fin_map_dom functions.
From S2P Require Import Prelude Bytes Text ProxyMsg Bitmap DsFile DsBlock BlockStore BlockLoad DataMgr StoreInv StoreBlocks StoreNew StoreData StoreRefine StoreBoot StoreFormat StoreMain.
From S2P Require Import NetBuf ProxyUp DsMsg DsTask DsWire DsTaskSpec DsMain.

Definition demo_geo : geometry := Geo (lit "/d") 0 4 256.
Definition demo_fs : fs_parameter := FSP (lit "/d") 1 EXT3_FTRUN 0 256 0 0 1.
(** A process that starts on a disk. *)
Definition start (d : dsk) : bfm := BFM ∅ ∅ ∅ 0 None None sb0 None ∅ ∅ 1 d 1000.
Definition after {A} (s : bfm) (r : option (A * bfm)) : bfm := match r with Some (_, s) => s | None => s end.
Definition demo_format : bfm := after (start (Dsk ∅ [] 0)) (format_block_file_system demo_fs (start (Dsk ∅ [] 0))).
Definition demo_boot : bfm := after demo_format (bootstrap demo_fs (start (disk demo_format))).
Definition demo_v : vstore := VS ∅ (λ _, zeros 256).
Definition demo_new : bfm := after demo_boot (ds_step (OpNew (1, 2)) demo_boot).

Lemma demo_geo_ok : geo_ok demo_geo.
Proof. split; simpl; try lia. repeat constructor; done. Qed.
Lemma demo_fs_ok : fs_ok demo_geo demo_fs.
Proof. split; try done. by right; right. Qed.
Lemma start_idle d : idle d (start d).
Proof. by split. Qed.
Lemma demo_params : params demo_geo demo_fs.
Proof. done. Qed.

Lemma demo_rep : ds_rep demo_geo ∅ demo_boot demo_v ∧ durable demo_geo demo_boot ∅ ∧ d_os (disk demo_boot) = [].
Proof.
  destruct (format_run demo_geo demo_geo_ok demo_fs (start (Dsk ∅ [] 0)) demo_fs_ok) as (s1 & E1 & H1 & HO); [done|done|].
  assert (demo_format = s1) as E2 by (unfold demo_format; by rewrite E1). rewrite <- E2 in *.
  destruct (boot_run demo_geo demo_geo_ok ∅ _ _ _ _ _ HO demo_fs (start (disk demo_format))) as (c & s3 & E3 & Hc & Hq);
    [done|done|apply start_idle|]. specialize (Hq H1) as ->.
  assert (demo_boot = s3) as E4 by (unfold demo_boot; by rewrite E3). rewrite <- E4 in *.
  destruct Hc as [(_ & HR & HD & [_ L] & _)|Hlt]; [|exfalso; exact (Z.lt_irrefl 0 Hlt)].
  exact (conj HR (conj HD (later_nil _ _ L H1))).
Qed.
Lemma op_ok_new k : is_u64 k.1 → is_u32 k.2 → ds_op_ok (OpNew k).
Proof. intros. unfold ds_op_ok. by split_and!. Qed.
Lemma demo_new_rep : ds_rep demo_geo ∅ demo_new (VS {[ (1, 2) := 1 ]} (λ _, zeros 256)).
Proof.
  destruct demo_rep as (HR & HD & H0).
  destruct (ds_step_run demo_geo demo_geo_ok ∅ (OpNew (1, 2)) _ _ HR (op_ok_new (1, 2) ltac:(clear; done) ltac:(clear; done))) as (x & s1 & v1 & E1 & M & _ & Q).
  assert (demo_new = s1) as -> by (unfold demo_new; rewrite E1; exact eq_refl).
  specialize (Q H0). assert (v1 = VS {[ (1, 2) := 1 ]} (λ _, zeros 256)) as <-; [|exact (proj1 M)].
  apply (f_equal snd) in Q. cbn [snd] in Q. rewrite <- Q. clear. reflexivity.
Qed.

(** ** The theorems *)

Definition demo_ops : list ds_op :=
  [OpWrite (7, 1) 3 [10; 20; 30]; OpRead (7, 1) 2 5; OpNew (1, 2); OpWrite (1, 2) 250 [1; 2; 3; 4; 5; 6; 7];
   OpRead (9, 9) 0 4; OpDel (7, 1); OpRead (7, 1) 0 4; OpDel (7, 1); OpRead (1, 2) 254 10; OpRead (1, 2) 300 10].
Definition demo_outs : list ds_out :=
  [OutCode 0; OutData 0 5 [0; 10; 20; 30; 0]; OutCode 0; OutCode 1;
   OutData (-8006) 4 []; OutCode 0; OutData (-8006) 4 []; OutCode (-8006); OutData 0 2 [0; 0]; OutData 1 10 []].
Lemma demo_ops_ok : Forall ds_op_ok demo_ops ∧ Forall named demo_ops.
Proof. split; repeat constructor; unfold named; simpl; try done; lia. Qed.

Lemma block_store_refines_map_witness : ∃ xs s' v', ds_run demo_ops demo_boot = Some (xs, s') ∧
  ds_rep demo_geo ∅ s' v' ∧ xs = demo_outs.
Proof.
  pose proof (block_store_refines_map demo_geo demo_geo_ok ∅ demo_ops demo_boot demo_v (proj1 demo_rep) (proj1 demo_ops_ok))
    as (xs & s' & v' & E1 & HR & _ & Q).
  exists xs, s', v'. refine (conj E1 (conj HR _)). specialize (Q (proj2 (proj2 demo_rep))).
  apply (f_equal fst) in Q. cbn [fst] in Q. rewrite <- Q. clear. vm_compute. reflexivity.
Defined.

Definition demo_write : ds_op := OpWrite (1, 2) 10 [65; 66; 67].
Definition demo_s1 : bfm := after demo_new (ds_step demo_write demo_new).
Definition demo_others : list ds_op := [OpWrite (1, 2) 0 [9; 9; 9]; OpNew (3, 4); OpWrite (3, 4) 10 [0; 0; 0]; OpDel (3, 4)].
Definition demo_s2 : bfm := after demo_s1 (ds_run demo_others demo_s1).
Lemma demo_others_ok : ds_op_ok demo_write ∧ Forall ds_op_ok demo_others ∧ Forall (leaves (1, 2) 10 3) demo_others.
Proof. split_and!; [simpl; split_and!; done|repeat constructor; done|]. repeat constructor; simpl; try done; right; lia. Qed.

Lemma acknowledged_writes_are_read_back_witness :
  ds_step (OpRead (1, 2) 10 3) demo_s2 = Some (OutData 0 3 [65; 66; 67], after demo_s2 (ds_step (OpRead (1, 2) 10 3) demo_s2)) ∧
  (0 = TFS_SUCCESS ∧ 3 = 3 ∧ [65; 66; 67] = [65; 66; 67] ∨ 0 < 0).
Proof.
  assert (ds_step (OpRead (1, 2) 10 3) demo_s2 = Some (OutData 0 3 [65; 66; 67], after demo_s2 (ds_step (OpRead (1, 2) 10 3) demo_s2))) as E3
    by (clear; vm_compute; reflexivity).
  split; [exact E3|].
  refine (acknowledged_writes_are_read_back demo_geo demo_geo_ok ∅ (1, 2) 10 [65; 66; 67] demo_others demo_new _ demo_s1 _ demo_s2 _ _ _ _
    demo_new_rep (proj1 demo_others_ok) _ (proj1 (proj2 demo_others_ok)) (proj2 (proj2 demo_others_ok)) _ _ E3).
  - clear. discriminate.
  - clear. vm_compute. reflexivity.
  - clear. instantiate (1 := [OutCode 0; OutCode 0; OutCode 0; OutCode 0]). vm_compute. reflexivity.
Defined.

Lemma restart_restores_the_store_witness : ∃ s' s1,
  ds_run demo_ops demo_boot = Some (demo_outs, s') ∧ bootstrap demo_fs (start (disk s')) = Some (TFS_SUCCESS, s1) ∧
  super_block_ s1 = super_block_ s'.
Proof.
  pose proof demo_rep as (HR & HD & H0). pose proof demo_ops_ok as [Ho Hn].
  pose proof (restart_restores_the_store demo_geo demo_geo_ok ∅ demo_ops demo_boot demo_v demo_fs HR HD H0 Ho Hn eq_refl demo_params)
    as (s' & E1 & Hb).
  destruct (Hb (start (disk s')) eq_refl (start_idle _)) as (c & s1 & E2 & Hc & _). exists s', s1.
  assert ((spec_run demo_geo ∅ demo_ops demo_v).1 = demo_outs) as Eo by (clear; vm_compute; reflexivity).
  rewrite Eo in E1.
  assert (c = TFS_SUCCESS) as ->.
  { assert (Some TFS_SUCCESS = fst <$> bootstrap demo_fs (start (disk (after demo_boot (ds_run demo_ops demo_boot))))) as Ec
      by (clear; vm_compute; reflexivity).
    rewrite E1 in Ec. cbn [after] in Ec. rewrite E2 in Ec. injection Ec as <-. exact eq_refl. }
  refine (conj _ (conj E2 _)); [exact E1|].
  destruct Hc as [(_ & _ & _ & Hs)|Hlt]; [exact Hs|exfalso; exact (Z.lt_irrefl 0 Hlt)].
Defined.

Lemma new_block_outcome_witness : ∃ code id s',
  new_block 5 6 0 C_MAIN_BLOCK demo_new = Some ((code, id), s') ∧ code = TFS_SUCCESS ∧ id = 2.
Proof.
  pose proof demo_new_rep as [Hs He].
  pose proof (new_block_outcome demo_geo demo_geo_ok ∅ demo_new {[ (1, 2) := 1 ]} _ (5, 6) 0 Hs He ltac:(clear; done) ltac:(clear; done))
    as (code & id & s' & E1 & Hn). exists code, id, s'.
  assert (Some (TFS_SUCCESS, 2) = fst <$> new_block 5 6 0 C_MAIN_BLOCK demo_new) as Ec by (clear; vm_compute; reflexivity).
  refine (conj E1 _). cbn [fst snd] in E1. rewrite E1 in Ec. injection Ec as <- <-. exact (conj eq_refl eq_refl).
Defined.

(** The faults can undo the rollback.  The super block cannot be saved, and neither
    can what the rollback saves: the block is refused and not in the store, but its
    prefix and its bit are on the disk, and the next start finds it. *)
Example refused_block_comes_back :
  let s := set_heaps (pheap demo_new) (lheap demo_new) (brk demo_new)
    (Dsk (d_files (disk demo_new)) [OsLen 3; OsLen 100; OsLen 100; OsErr 5; OsErr 5; OsErr 5] 0) demo_new in
  ∃ s' s1, new_block 5 6 0 C_MAIN_BLOCK s = Some ((-5, 2), s') ∧ find_logic_block_map (logic_blocks_ s') 5 6 = None ∧
  bootstrap demo_fs (start (Dsk (d_files (disk s')) [] 0)) = Some (TFS_SUCCESS, s1) ∧
  is_Some (find_logic_block_map (logic_blocks_ s1) 5 6).
Proof.
  intros s. exists (after s (new_block 5 6 0 C_MAIN_BLOCK s)).
  exists (after s (bootstrap demo_fs (start (Dsk (d_files (disk (after s (new_block 5 6 0 C_MAIN_BLOCK s)))) [] 0)))).
  split_and!; [vm_compute; reflexivity..|]. vm_compute. by eexists.
Qed.

Lemma del_block_unbinds_witness : ∃ s', del_block 1 2 C_MAIN_BLOCK demo_new = Some (TFS_SUCCESS, s') ∧
  removed demo_geo demo_new {[ (1, 2) := 1 ]} (λ _, zeros 256) (1, 2) TFS_SUCCESS s'.
Proof.
  pose proof demo_new_rep as [Hs _].
  pose proof (del_block_unbinds demo_geo demo_geo_ok demo_new {[ (1, 2) := 1 ]} (λ _, zeros 256) (1, 2) Hs) as (code & s' & E1 & Hn).
  exists s'. assert (Some TFS_SUCCESS = fst <$> del_block 1 2 C_MAIN_BLOCK demo_new) as Ec by (clear; vm_compute; reflexivity).
  cbn [fst snd] in E1. rewrite E1 in Ec. injection Ec as <-. exact (conj E1 Hn).
Defined.

Lemma data_server_life_witness : ∃ s1, format_block_file_system demo_fs (start (Dsk ∅ [] 0)) = Some (TFS_SUCCESS, s1) ∧
  ∃ s3 xs1 s4, bootstrap demo_fs (start (disk s1)) = Some (TFS_SUCCESS, s3) ∧ ds_run demo_ops s3 = Some (xs1, s4) ∧
  ∃ s6 xs2 s7, bootstrap demo_fs (start (disk s4)) = Some (TFS_SUCCESS, s6) ∧ ds_run [OpRead (1, 2) 0 1] s6 = Some (xs2, s7) ∧
  xs1 ++ xs2 = demo_outs ++ [OutData 0 1 [0]].
Proof.
  assert (Forall ds_op_ok (demo_ops ++ [OpRead (1, 2) 0 1])) as Ho
    by (apply Forall_app_2; [apply demo_ops_ok|repeat constructor; done]).
  assert (Forall named (demo_ops ++ [OpRead (1, 2) 0 1])) as Hn
    by (apply Forall_app_2; [apply demo_ops_ok|repeat constructor; done]).
  destruct (data_server_life demo_geo demo_fs (start (Dsk ∅ [] 0)) demo_ops [OpRead (1, 2) 0 1] demo_geo_ok demo_fs_ok
    eq_refl (λ id _, lookup_empty _) Ho Hn) as (s1 & E1 & H1). exists s1. refine (conj E1 _).
  destruct (H1 (start (disk s1)) (start_idle _)) as (s3 & xs1 & s4 & E3 & E4 & H4). exists s3, xs1, s4. refine (conj E3 (conj E4 _)).
  destruct (H4 (start (disk s4)) (start_idle _)) as (s6 & xs2 & s7 & E6 & E7 & Hx). exists s6, xs2, s7. refine (conj E6 (conj E7 _)).
  rewrite Hx. clear. vm_compute. reflexivity.
Defined.

Definition demo_bits : list bm_op := [OpTest 3; OpSet 3; OpTest 3; OpSet 9; OpReset 3; OpTest 3; OpTest 9].
Lemma bitmap_refines_set_witness : ∃ b b' d, bm_new 10 false = Some b ∧
  bm_run 10 demo_bits b = Some ([Some false; None; Some true; None; None; Some false; Some true], b') ∧ bm_rep b' 10 d {[9]}.
Proof.
  assert (Forall (op_ok 10) demo_bits) as Ho by (repeat constructor; simpl; lia).
  destruct (bitmap_refines_set 10 false demo_bits ltac:(lia) Ho) as (b & b' & d & E1 & E2 & HR).
  assert (set_run 10 demo_bits ∅ = ([Some false; None; Some true; None; None; Some false; Some true], {[9]})) as Es
    by (vm_compute; reflexivity).
  rewrite Es in E2, HR. by exists b, b', d.
Defined.

Definition demo_file : fop := fop_new (lit "/d/1") O_RDWR.
Lemma file_transfers_witness :
  d_files (Dsk {[ lit "/d/1" := [1; 2; 3] ]} [OsLen 3; OsLen 1; OsErr 4; OsLen 5] 0) !! fo_name demo_file = Some [1; 2; 3] ∧
  write_out demo_file (Dsk {[ lit "/d/1" := [1; 2; 3] ]} [OsLen 3; OsLen 1; OsErr 4; OsLen 5] 0) [1; 2; 3] [7; 8] 1 true
    (pwrite_file [7; 8] 1 (demo_file, Dsk {[ lit "/d/1" := [1; 2; 3] ]} [OsLen 3; OsLen 1; OsErr 4; OsLen 5] 0)).
Proof.
  assert (d_files (Dsk {[ lit "/d/1" := [1; 2; 3] ]} [OsLen 3; OsLen 1; OsErr 4; OsLen 5] 0) !! fo_name demo_file = Some [1; 2; 3]) as Hf by done.
  split; [exact Hf|]. by apply (proj1 (file_transfers demo_file _ _ Hf)).
Defined.

(** ** Connections *)

#[export] Instance demo_ds : DsEnv := {|
  ds_malloc n := if n <? 2 ^ 32 then Some (λ _, 77) else None;
  ds_junk n := replicate n 85; ds_junk_length n := length_replicate n 85;
  ds_request_id := 7; ds_server_id := 3; ds_local_port := 8000 |}.
Definition demo_content : bytes := [71; 72; 73; 74; 75; 76].
Definition demo_entries : list entry := [Entry [10; 0; 0; 2] (replicate 12 0) [0; 0; 31; 64]].
Definition demo_put : bytes := ds_upload_req 9 5 6 6 demo_entries.
Definition demo_get : bytes := ds_download_req 10 5 6 6 0.
(** The request and the content in pieces, with waits. *)
Definition demo_put_sock : sock := Sock true
  [RecvData (take 20 demo_put); RecvErr EAGAIN; RecvData (drop 20 demo_put ++ [71; 72]); RecvErr EINTR; RecvData [73]; RecvErr EAGAIN; RecvData [74; 75; 76]]
  [SendLen 7; SendErr EAGAIN; SendErr EINTR; SendLen 5] [] 0 [].
Definition demo_get_sock : sock := Sock true [RecvErr EAGAIN; RecvData (take 3 demo_get); RecvData (drop 3 demo_get)]
  [SendLen 19; SendErr EAGAIN; SendLen 1; SendLen 2; SendErr EAGAIN] [] 0 [].
Definition demo_server (s : bfm) : dsv := Dsv s 256 0 [] [] 0 0.

Lemma demo_calm : (sender_ok demo_put_sock ∧ calm (sk_in demo_put_sock)) ∧ sender_ok demo_get_sock ∧ calm (sk_in demo_get_sock).
Proof. split; (split; [split; [done|split; [repeat constructor; (done || by left || by right)|by left]]|repeat constructor; (done || by left || by right)]). Qed.
Lemma demo_entries_ok : Forall entry_ok demo_entries.
Proof. repeat constructor; done. Qed.

Lemma demo_figures : figures_ok (demo_server demo_boot).
Proof. split; split; vm_compute; eexists; reflexivity. Qed.

Lemma upload_is_stored_witness : ∃ st, serves_put 100 20 (demo_server demo_boot) demo_put_sock st ∧
  sk_wire (tk_sock st) = code_ans CLIENT_PUT 9 PUTOK ∧ length (dv_tasks (tk_ds st)) = 2%nat ∧
  ds_rep demo_geo ∅ (dv_store (tk_ds st)) (spec_step demo_geo ∅ (OpWrite (5, 6) 0 demo_content) demo_v).2.
Proof.
  destruct demo_rep as (HR & _ & H0). destruct demo_calm as [[Hk Hc] _].
  destruct (upload_is_stored 9 5 6 demo_entries demo_content (λ _, 77) demo_entries_ok ltac:(clear; simpl; lia) eq_refl ltac:(clear; lia) ltac:(clear; lia)
    ltac:(clear; discriminate) ltac:(clear; simpl; lia) demo_geo demo_geo_ok ∅ 100 20 (demo_server demo_boot) demo_v demo_put_sock HR H0 demo_figures
    ltac:(clear; simpl; lia) Hk eq_refl Hc ltac:(clear; vm_compute; reflexivity) ltac:(clear; vm_compute; lia) ltac:(clear; simpl; lia)
    ltac:(clear; simpl; lia) ltac:(clear; right; exists 1; vm_compute; reflexivity)) as (st & Hs & Hp & Hr & _).
  destruct Hp as (used & total & _ & _ & (t & Ht) & _ & Hw). exists st. refine (conj Hs (conj Hw (conj _ Hr))). rewrite Ht. exact eq_refl.
Defined.

(** A store without a free block. *)
Definition full_ops : list ds_op := OpNew <$> [(1, 0); (1, 1); (1, 2); (1, 3)].
Definition demo_full : bfm := after demo_boot (ds_run full_ops demo_boot).
Definition full_v : vstore := VS {[ (1, 0) := 1; (1, 1) := 2; (1, 2) := 3; (1, 3) := 4 ]} (λ _, zeros 256).
Lemma full_rep : ds_rep demo_geo ∅ demo_full full_v ∧ d_os (disk demo_full) = [].
Proof.
  destruct demo_rep as (HR & _ & H0). assert (Forall ds_op_ok full_ops) as Ho by (clear; repeat constructor; done).
  destruct (ds_run_run demo_geo demo_geo_ok ∅ full_ops _ _ HR Ho) as (xs & s1 & v1 & E1 & M & _ & Q).
  assert (demo_full = s1) as -> by (unfold demo_full; rewrite E1; exact eq_refl).
  specialize (Q H0). assert (v1 = full_v) as <-; [|exact (conj (proj1 M) (moved_quiet _ _ _ _ _ _ M H0))].
  apply (f_equal snd) in Q. cbn [snd] in Q. rewrite <- Q. clear. vm_compute. reflexivity.
Qed.
Lemma full_figures : figures_ok (demo_server demo_full).
Proof. split; split; vm_compute; eexists; reflexivity. Qed.
Lemma full_no_room : ¬ has_room demo_geo ∅ (5, 6) full_v.
Proof. intros [[x Hx]|[x Hx]]; vm_compute in Hx; discriminate Hx. Qed.

Lemma upload_acknowledged_though_lost_witness : ∃ st, serves_put 100 20 (demo_server demo_full) demo_put_sock st ∧
  sk_wire (tk_sock st) = code_ans CLIENT_PUT 9 PUTOK ∧ ds_rep demo_geo ∅ (dv_store (tk_ds st)) full_v.
Proof.
  destruct full_rep as (HR & H0). destruct demo_calm as [[Hk Hc] _].
  destruct (upload_acknowledged_though_lost 9 5 6 demo_entries demo_content (λ _, 77) demo_entries_ok ltac:(clear; simpl; lia) eq_refl ltac:(clear; lia) ltac:(clear; lia)
    ltac:(clear; discriminate) ltac:(clear; simpl; lia) demo_geo demo_geo_ok ∅ 100 20 (demo_server demo_full) full_v demo_put_sock HR H0 full_figures
    ltac:(clear; simpl; lia) Hk eq_refl Hc ltac:(clear; vm_compute; reflexivity) ltac:(clear; vm_compute; lia) ltac:(clear; simpl; lia)
    full_no_room) as (st & Hs & Hp & Hr & _).
  destruct Hp as (used & total & _ & _ & _ & _ & Hw). exists st. exact (conj Hs (conj Hw Hr)).
Defined.

Lemma download_sends_block_witness : ∃ st, serves_get 100 20 (demo_server demo_new) (Sock true [RecvData (ds_download_req 10 1 2 6 0)] [SendLen 3] [] 0 []) st ∧
  sk_wire (tk_sock st) = code_ans CLIENT_GET 10 GETOK ++ zeros 6.
Proof.
  pose proof demo_new_rep as HR.
  destruct (@download_sends_block demo_ds demo_geo demo_geo_ok ∅ 10 1 2 0 (zeros 6) (λ _, 77) 100 20 (demo_server demo_new) _
    (Sock true [RecvData (ds_download_req 10 1 2 6 0)] [SendLen 3] [] 0 []) eq_refl
    ltac:(clear; lia) ltac:(clear; lia) ltac:(clear; discriminate) ltac:(clear; simpl; lia) HR ltac:(clear; vm_compute; reflexivity)
    ltac:(clear; simpl; lia) ltac:(clear; vm_compute; reflexivity) ltac:(clear; split; [done|split; [repeat constructor|by left]]) eq_refl
    ltac:(clear; repeat constructor; discriminate) ltac:(clear; vm_compute; reflexivity) ltac:(clear; simpl; lia) ltac:(clear; simpl; lia)) as (st & Hs & _ & _ & Hw).
  exists st. exact (conj Hs Hw).
Defined.

Lemma uploaded_block_is_downloaded_witness : ∃ st st', serves_put 200 20 (demo_server demo_boot) demo_put_sock st ∧
  serves_get 200 20 (tk_ds st) demo_get_sock st' ∧ sk_wire (tk_sock st') = code_ans CLIENT_GET 10 GETOK ++ demo_content.
Proof.
  destruct demo_rep as (HR & _ & H0). destruct demo_calm as [[Hk Hc] [Hk' Hc']].
  exact (@uploaded_block_is_downloaded demo_ds demo_geo ∅ 9 5 6 demo_entries demo_content (λ _, 77) (λ _, 77) 10 0 200 20 (demo_server demo_boot) demo_v demo_put_sock demo_get_sock
    demo_geo_ok HR H0 demo_figures demo_entries_ok ltac:(clear; simpl; lia) eq_refl eq_refl ltac:(clear; lia) ltac:(clear; lia)
    ltac:(clear; discriminate) ltac:(clear; simpl; lia) ltac:(clear; simpl; lia) ltac:(clear; simpl; lia) ltac:(clear; right; exists 1; vm_compute; reflexivity)
    Hk eq_refl Hc ltac:(clear; vm_compute; reflexivity) Hk' eq_refl Hc' ltac:(clear; vm_compute; reflexivity)
    ltac:(clear; vm_compute; lia) ltac:(clear; simpl; lia) ltac:(clear; simpl; lia)).
Defined.

Lemma demo_boot_figures : figures (super_block_ demo_boot).
Proof. split; vm_compute; eexists; reflexivity. Qed.
(** The login, and the notice of a deleted block, with one KiB free: the name service
    reads 2^32. *)
Lemma messages_between_the_programs_witness :
  fst <$> packet_dataserver_resgister (demo_server demo_boot) =
    Some (be_bytes 4 48 ++ be_bytes 4 0 ++ be_bytes 4 1 ++ be_bytes 4 0 ++ be_bytes 4 1 ++ be_bytes 4 3 ++ be_bytes 8 1 ++ be_bytes 8 1 ++ be_bytes 4 8000 ++ be_bytes 4 0) ∧
  ∃ pad remain, pad ++ remain = be_bytes 8 1 ++ be_bytes 4 0 ∧ be_val remain = 2 ^ 32 ∧
    fst <$> notify_ns_del_ok msg0 (demo_server demo_boot) = Some 0.
Proof.
  destruct (info_run demo_boot demo_boot_figures) as (i & Ei & Hi).
  assert (on_store get_ds_filesystem_info (demo_server demo_boot) = Some (i, demo_server demo_boot)) as Ed by (unfold on_store, zoom; cbn [demo_server dv_store]; rewrite Ei; exact eq_refl).
  pose proof (messages_between_the_programs _ _ _ Ed) as (H1 & _ & _ & H2 & _). destruct (H2 msg0) as (pad & remain & _ & _ & H3 & H4 & H5).
  rewrite H1. split.
  - clear -Hi. vm_compute in Hi. destruct i as [[n u] t]. injection Hi as <- <-. vm_compute. reflexivity.
  - exists pad, remain. rewrite H5. clear -Hi H3 H4. vm_compute in Hi. destruct i as [[n u] t]. injection Hi as <- <-.
    split; [exact H3|]. split; [exact H4|exact eq_refl].
Defined.
